(* ===== verification/_CoqProject ===== *)
-Q . S2P
Prelude.v
Frame.v
Collections.v
Constants.v
Throttle.v
Weights.v
FedAuthority.v
CardanoTypes.v
LedgerErrors.v
LedgerInterface.v
LedgerTransaction.v
UtxoOrdering.v
LedgerBridge.v
CNightObservation.v
FedAuthObservation.v
Governance.v
Midnight.v
LedgerHost.v
MidnightSystem.v
CNightFollower.v
FedAuthFollower.v
InherentData.v
SystemParameters.v
GenesisCNight.v
Committee.v
GenesisSnapshots.v
CandidatesSource.v
GenesisSpec.v
GenesisGenerator.v
GenesisLedger.v
Beefy.v
Relay.v
Admission.v
Version.v
BlockStore.v
Fetcher.v
FetcherRuns.v
GenesisBlock.v
GrpcSources.v
GovernanceClients.v
Wallets.v
LedgerContext.v
TransactionBuilder.v
