(* ===== verification/Prelude.v ===== *)
(** * midnight-node: a verification library

    midnight-node is a Substrate node for a partner chain of Cardano.  Its runtime
    keeps the state of the Midnight ledger (a separate library) under a state key,
    applies user and system transactions to it, observes registrations and cNIGHT
    transfers on Cardano, lets two governance bodies observed on Cardano vote on
    motions, and throttles signed extrinsics.  This library models these parts as
    executable definitions and proves the theorems below about them.

    ** The parts and how they interact

    - A follower on each node reads a db-sync database of Cardano and proposes, as
      inherent data, a window of observed UTXOs ([CNightFollower]) and the members
      of the governance bodies ([FedAuthFollower]); a node may read the same from an
      indexer over gRPC ([GrpcSources]).
    - Two pallets turn that data into one call per block: pallet-cnight-observation
      ([CNightObservation]), which keeps the registrations and turns cNIGHT
      transfers into DUST events, and pallet-federated-authority-observation
      ([FedAuthObservation]), which installs the members through the handlers of
      the runtime ([Governance]).
    - The DUST events go, as one system transaction, to pallet-midnight-system
      ([MidnightSystem]) and from there to the ledger state that pallet-midnight
      ([Midnight]) keeps; user transactions go to pallet-midnight directly.
    - Governance motions of the two bodies are the business of
      pallet-federated-authority ([FedAuthority]); an approved motion is
      dispatched as root and can call pallet-midnight-system,
      pallet-system-parameters ([SystemParameters]) and the setters of the
      observation pallets.
    - The ledger pallets reach the ledger library through host functions
      ([LedgerHost]) and a bridge that decodes, validates and applies transactions
      with two caches in front ([LedgerTransaction], [LedgerBridge]).
    - A signed transaction passes a call filter and the throttle ([Throttle],
      [Admission]); a node may also filter what enters its pool ([Admission]).
      pallet-version ([Version]) marks each header.
    - Authors and verifiers of a block assemble the inherent data in the same way
      ([InherentData]); the candidates for a committee come from the same database
      through a cache ([CandidatesSource]).
    - The committee of an epoch rotates into sessions ([Committee]); its keys are
      committed to in BEEFY payloads ([Beefy]), which a relay turns into proofs for
      Cardano ([Relay]).
    - Before the first block, commands read the genesis from Cardano: the cNIGHT
      state ([GenesisCNight]), the locked supply, the governance bodies and the
      first committee ([GenesisSnapshots]).  The toolkit generates the ledger state
      and the transactions of the genesis block ([GenesisGenerator]), the node turns
      them into a chain specification, and further commands check the specification
      ([GenesisSpec]) and the ledger state in it ([GenesisLedger]).  A node that
      starts builds the genesis block from it ([GenesisBlock]).
    - The command root-call and the upgrader drive a call through both bodies to its
      dispatch as root ([GovernanceClients]).
    - The toolkit fetches the blocks of a chain with a pool of workers ([Fetcher])
      into a store with three backends ([BlockStore]), replays them on a copy of the
      ledger and on the wallets of its seeds ([LedgerContext], [Wallets]), and funds
      the transactions it sends from these wallets ([TransactionBuilder]).

    ** Files

    - [Prelude]: this file; outcomes (a value, an error, a panic), the state and
      error monad, machine integers, comparisons and sorting, list lemmas.
    - [Frame]: what the pallets use of FRAME: origins, weights, dispatch results,
      bounded collections, and the class [StorageLayers] with the laws of the
      transactional layer around every call (commit on success, rollback on
      error).
    - [Collections]: ordered maps, bytes, checked conversions, sums.
    - [Constants]: constants of [runtime/src/constants.rs] and
      [runtime/src/lib.rs].
    - [Throttle]: [pallets/throttle/src/check_throttle.rs] ([validate], [prepare]).
    - [Weights]: the generated [weights.rs] of the pallets.
    - [FedAuthority]: [pallets/federated-authority/src/lib.rs] and [types.rs];
      [motion_approve], [motion_revoke], [motion_close] are the calls, [try_origin]
      and [reached_proportion] the origin and quorum checks.
    - [CardanoTypes]: [primitives/cnight-observation/src/lib.rs]; positions, UTXO
      headers and their order.
    - [LedgerErrors]: [ledger/src/versions/common/types.rs]; the errors of the
      ledger API, their codes and texts.
    - [LedgerInterface]: [primitives/midnight/src/lib.rs] and
      [ledger/src/common/types.rs]; the traits between pallets as classes, and the
      ledger as a record of functions, [LedgerApi].
    - [LedgerTransaction], [LedgerBridge]: [ledger/src/versions/common/], the
      transactions of the ledger as the bridge reads them, and the bridge: its
      caches, its validation and application of transactions, its costs.
    - [LedgerHost]: [ledger/src/host_api/] and the pallets composed with the bridge.
    - [CNightObservation]: [pallets/cnight-observation/src/lib.rs]; a record [State]
      of the storage items, one definition per handler, call, hook and inherent
      function.
    - [FedAuthObservation]: [pallets/federated-authority-observation/src/lib.rs]
      and its primitives, in the same shape.
    - [Governance]: [runtime/common/src/governance.rs]; it discharges the interface
      [MembershipLaws] that the theorems of [FedAuthObservation] are proved
      against.
    - [Midnight]: [pallets/midnight/src/lib.rs].
    - [MidnightSystem]: [pallets/midnight-system/src/lib.rs], and the composition of
      the three pallets that lead from observation to ledger.
    - [CNightFollower]: [primitives/mainchain-follower/src/data_source/cnight_observation.rs],
      [db/queries/cnight_observation.rs] and [idp/cnight_observation.rs].
    - [FedAuthFollower]: the files of the same directories named
      [federated_authority_observation.rs].
    - [InherentData]: [node/src/inherent_data.rs]; the providers of an author and of
      a verifier, composed from the two followers.
    - [CandidatesSource]: [primitives/mainchain-follower/src/data_source/candidates_data_source/];
      the queries on db-sync, the source of candidates and the cache around it.
    - [GrpcSources]: [data-sources/src/], the requests to an indexer and the conversion
      of its answers, and the choice of sources of [node/src/main_chain_follower.rs].
    - [UtxoOrdering]: [ledger/src/versions/common/utxo_ordering_override.rs].
    - [GenesisCNight]: [node/src/genesis/creation/cnight_genesis.rs] and the test
      runtime it uses.
    - [GenesisSnapshots]: [ics_genesis.rs], [reserve_genesis.rs],
      [federated_authority_genesis.rs] and [permissioned_candidates_genesis.rs] of
      the same directory, with the checks of [primitives/ics-observation] and
      [primitives/reserve-observation].
    - [GenesisSpec]: [get_chainspec_extrinsics] of [node/src/chain_spec/mod.rs], and
      of [node/src/genesis/verification/] the checks of the timestamp, the message
      and the authorization scripts.
    - [GenesisGenerator]: [util/toolkit/src/genesis_generator.rs].
    - [GenesisLedger]: [verify_ledger_state_genesis.rs] of
      [node/src/genesis/verification/], and its composition with the generator.
    - [GenesisBlock]: the genesis block builder of [node/src/service.rs].
    - [BlockStore]: [util/toolkit/src/fetcher/fetch_storage.rs] and its backends; the
      class [FetchStorage] is the trait, [StorageRefines] what a backend promises.
    - [Fetcher], [FetcherRuns]: [util/toolkit/src/fetcher.rs], [fetch_task.rs],
      [compute_task.rs] and [runtimes.rs]; the tasks are functions, the workers and
      channels the relation [fetch_step], proved against [StorageRefines].
    - [GovernanceClients]: [util/toolkit/src/commands/root_call.rs] and
      [util/upgrader/src/lib.rs], and the chain they talk to, composed from
      [FedAuthority], [Admission] and the class [GovRuntime].
    - [Wallets]: of the ledger helpers, [types.rs] and [wallet/]; seeds, derivation
      paths, addresses, and the shielded, unshielded and dust wallets of a seed.
    - [LedgerContext]: of the ledger helpers, [context.rs]; of the toolkit, the fork
      between the two versions of the ledger ([fork_7_to_8.rs],
      [fork_aware_context.rs]), [wallet_state_cache.rs], and the part of
      [builder/mod.rs] that builds a context from the fetched blocks.
    - [TransactionBuilder]: of the ledger helpers, [utxo_spend.rs], [input.rs],
      [offer.rs] and the payment of fees of [transaction.rs].
    - [Committee]: [runtime/src/session_manager.rs], [authorship.rs] and the session
      keys of [runtime/src/lib.rs].
    - [Beefy]: [runtime/src/beefy.rs], [primitives/beefy/src/lib.rs] and
      [node/src/payload.rs].
    - [Relay]: [relay/src/].
    - [Admission]: [runtime/src/check_call_filter.rs], the extensions of
      [runtime/src/lib.rs] and [node/src/filtering_pool.rs].
    - [SystemParameters], [Version]: [pallets/system-parameters/src/lib.rs],
      [pallets/version/src/lib.rs].

    A storage item is a field of a record, a [StorageMap] a [gmap]; a call is a
    computation of the monad in a storage layer; [?] is the bind of the monad;
    [expect] and [unwrap] are panics, which are kept apart from errors.  Events are
    a log in the state.  Each file ends with concrete instances on which its
    theorems are applied.

    ** What the theorems show

    - Governance ([FedAuthority]): the calls refine an abstract ballot, also when a call
      that is dispatched acts on the pallet itself; a motion is dispatched only with
      the standing approval of every body; motions on record
      are well formed; what closing, expiring and revoking do, a failing dispatch
      included; reported weights are within the declared ones.
    - Clients of governance ([GovernanceClients]): whatever else happens on the chain
      meanwhile, root-call reaches the dispatch as root exactly when both bodies have
      at most three members; the upgrader carries an upgrade through on a chain
      without earlier proposals.
    - Observation ([CNightObservation]): the registration events tell an observer
      the registrations exactly; the Cardano position never regresses and a block
      has one batch; DUST events are balanced; author and verifier agree on the
      inherent; failures change nothing.
    - Followers ([CNightFollower], [FedAuthFollower]): the window that a node proposes
      holds exactly the recorded UTXOs up to the position it announces, consecutive windows lose and repeat nothing, the
      pallet accepts them; the precise condition on the limits of the queries under
      which this holds, and what is lost when it does not; a reset of the bodies
      comes from the governance UTXOs in force.
    - Inherent data ([InherentData]): what an author proposes passes the checks of a
      verifier, whose clock differs.
    - Candidates ([CandidatesSource]): over the life of a chain, rollbacks included,
      the cache answers what the source would; a repeated request needs no query;
      candidates are the registrations, grouped by pool, with the sums of stakes.
    - Sources over gRPC ([GrpcSources]): an indexer that reports what db-sync records
      gives a node the same window, candidates and authorities, and exactly when
      not: one datum that does not decode fails a request as a whole.
    - Membership ([FedAuthObservation], [Governance]): a reset installs what was
      observed, again does nothing, and the reference counters of accounts follow.
    - Ledger state ([Midnight], [MidnightSystem]): transactions are atomic, the
      state key persists, the pool validates for the right time, observed tokens
      reach the ledger once and completely, system transactions are guarded.
    - Ledger bridge ([LedgerBridge], [LedgerHost]): the caches answer what an
      uncached validation would, under the conditions that their keys leave out; what
      applying a transaction reports and stores; a
      transaction that was pre-dispatched applies; the chain's state key always
      loads.
    - Admission ([Admission]): signed transactions only reach governance calls;
      deployments stay out of a filtering pool, in batches and one by one.
    - Committee ([Committee], [Beefy], [Relay]): when a session should end and which
      committee the next one has; the authority sets on record follow the validators;
      the root of a relayed proof and the commitment that validators sign are taken
      over the same leaves.
    - Genesis ([GenesisCNight], [GenesisSnapshots]): the loop over the windows ends;
      the filter loses nothing; the chain starts where an observer of all of
      Cardano would be; the totals are what the contracts hold.
    - Launch ([GenesisSpec], [GenesisGenerator], [GenesisLedger]): a generated
      genesis block gives a chain specification that decodes to it and passes its
      checks; a launch state is empty and carries its own time; the supply
      check is exact; faucet funding balances; what a passed authorization check
      says about the contracts on Cardano.
    - Genesis block ([GenesisBlock]): the transactions of a launch arrive in the
      genesis block, and the toolkit extracts them from it.
    - Block fetcher ([BlockStore], [Fetcher], [FetcherRuns]): the three backends answer
      alike; whatever the workers do, blocks that are returned form a chain and
      the recorded height is verified; runs end and do not get stuck; with a node
      that answers, the result is the chain, whatever the order of steps.
    - Replay ([LedgerContext]): replaying the blocks of a chain ends in the ledger
      state that the node computed through its cache; a run from a checkpoint ends in
      the ledger state and block context of a run from genesis.
    - Wallets and funding ([Wallets], [TransactionBuilder]): the forms of a seed agree
      and addresses are read back; the inputs of a payment are outputs of its owner
      and cover it, offers balance,
      dust is gathered for exactly the amount required, and no two payments spend the
      same dust output.
    - [Throttle]: bounds per window, agreement of the two phases, recovery.
    - [LedgerErrors]: error codes and texts are injective.
    - [UtxoOrdering], [SystemParameters]: outcome of reordering; guarded updates.

    Behaviours of the code that differ from its intent or its comments are stated
    as theorems: [failed_dispatch_keeps_motion], [throttle_burst_across_windows],
    [mapping_removed_without_removal], [overfull_window_skips_utxos], the second
    half of [reorder_outcome], [partial_success_omits_applied_operations],
    [strict_cache_ignores_block_time], [pool_denials_not_counted],
    [next_set_id_update_is_lost], [relay_stops_without_next_committee],
    [genesis_panics_above_pallet_limit], [first_observation_of_genesis],
    [technical_committee_authorization_unread], [revealed_datum_changes_candidates],
    [non_string_extrinsic_truncates], [mainnet_dust_check_excludes_timestamp], the last
    case of [chain_spec_passes_its_checks], [upgrade_fails_after_a_proposal] and
    [restored_wallet_misses_earlier_coins].

    ** Bounds

    One loop takes fuel, the one that fetches the genesis ([fetch_utxos]):
    [genesis_fetch_terminates] shows that one step per recorded UTXO and one more
    are enough.  The workers of the block fetcher are a relation; [runs_return] bounds
    the number of its steps.  The rounds of the selection of inputs ([select_rounds])
    are bounded by the number of inputs, and those of a payment ([pay_rounds]) by the
    ten attempts that the code makes.  Every other loop of the modelled code runs over a list
    and its definition is structurally recursive or plain.  Integers are [Z] with the
    wrap-around or saturation of their width written out where the code has it
    ([wrap], [sat_add], [as_i32]); positions on Cardano are assumed to fit [i32]
    where the queries cast them.

    ** Parameters

    FRAME, the midnight-ledger crates, Postgres with db-sync and
    cardano-serialization-lib are not part of the sources.  What is used of them
    is a parameter ([StorageLayers], [LedgerApi], [Externals], [Db], [LockedDb],
    [CandidatesLib], [PartnerChains], [CardanoLib], [PlutusLib], [MembershipPallet],
    [Collective], [MnTransactions],
    [MnLedger], [GenesisLib], [GenesisWallets], [GenesisState], [ExtrinsicCodec],
    [GenesisBackend], [Subxt], [Node], [MidnightStateClient], [SubxtClient],
    [GovRuntime], [Bip], [Bech32],
    [WalletLib], [ContextLib], [ForkLib], [Sha256], [TxLib], [ProofLib], [Codec], [CommitteePallet],
    [CandidateKeysFind] and others) with its
    documented contract as a class, and each contract is instantiated concretely.

    ** What is not modelled

    The assembly of the node (services, networking, command line, configuration
    files, RPC); of the toolkit, the command-line builders of transactions, the
    assembly of intents and contract calls, the resolver and the provers, which mostly
    pass values to the ledger library; the locks around a context, whose holders are
    taken one after the other; logging, most metrics, JSON and SCALE encodings.
    The four queries of a window run concurrently in the code and in order here, which
    only matters to the choice between several errors; concurrent requests to the
    candidates cache are taken one after the other.  When the session pallet ends a
    session and plans the next is its own business; the runtime's answers to it are
    modelled. *)

From Stdlib Require Import ZArith Lia Sorting.Sorted Sorting.Permutation.
From stdpp Require Import base tactics option list numbers.

(** ** Outcomes

    A Rust function of the sources returns, fails with an error value, or
    panics ([expect], [unwrap], [assert!]).  The three cases are kept apart. *)

Inductive outcome (E A : Type) : Type :=
| Ok (a : A)
| Err (e : E)
| Panic.
Arguments Ok {E A} a.
Arguments Err {E A} e.
Arguments Panic {E A}.

Definition is_ok {E A} (r : outcome E A) : bool :=
  match r with Ok _ => true | _ => false end.

(** [Result::map_err]. *)
Definition map_err {E E' A} (f : E → E') (r : outcome E A) : outcome E' A :=
  match r with Ok a => Ok a | Err e => Err (f e) | Panic => Panic end.

(** [Option::ok_or]. *)
Definition ok_or {E A} (o : option A) (e : E) : outcome E A :=
  match o with Some a => Ok a | None => Err e end.
(** [Option::unwrap] and [expect]. *)
Definition unwrap {E A} (o : option A) : outcome E A :=
  match o with Some a => Ok a | None => Panic end.

#[export] Instance outcome_ret {E} : MRet (outcome E) := λ _ a, Ok a.
#[export] Instance outcome_bind {E} : MBind (outcome E) := λ _ _ f r,
  match r with Ok a => f a | Err e => Err e | Panic => Panic end.

(** ** The state and error monad

    A piece of code that reads and writes a store of type [S].  The store that
    comes back on [Err] is the store at the point of failure: undoing writes is
    the business of the storage layers of [Frame], not of the monad. *)

Definition M (S E A : Type) : Type := S → outcome E A * S.

#[export] Instance M_ret {S E} : MRet (M S E) := λ _ a s, (Ok a, s).
#[export] Instance M_bind {S E} : MBind (M S E) := λ _ _ f m s,
  match m s with
  | (Ok a, s') => f a s'
  | (Err e, s') => (Err e, s')
  | (Panic, s') => (Panic, s')
  end.

Definition gets {S E A} (f : S → A) : M S E A := λ s, (Ok (f s), s).
Definition modify {S E} (f : S → S) : M S E unit := λ s, (Ok tt, f s).
Definition throw {S E A} (e : E) : M S E A := λ s, (Err e, s).
Definition panic {S E A} : M S E A := λ s, (Panic, s).
Definition lift {S E A} (r : outcome E A) : M S E A := λ s, (r, s).

(** [ensure!(b, e)]. *)
Definition ensure {S E} (b : bool) (e : E) : M S E unit :=
  if b then mret tt else throw e.

(** [Option::expect]. *)
Definition expect {S E A} (o : option A) : M S E A :=
  match o with Some a => mret a | None => panic end.

(** [for x in l { f(x) }]. *)
Fixpoint for_each {S E A} (l : list A) (f : A → M S E unit) : M S E unit :=
  match l with
  | [] => mret tt
  | x :: l => f x ;; for_each l f
  end.

(** The result of a computation as a value: a [Result] that is bound to a name
    and not yet propagated with [?].  A panic is not caught. *)
Definition reify {S E E' A} (m : M S E A) : M S E' (outcome E A) := λ s,
  match m s with
  | (Panic, s') => (Panic, s')
  | (r, s') => (Ok r, s')
  end.

(** Changing the error type of a computation ([.map_err(f)]). *)
Definition with_err {S E E' A} (f : E → E') (m : M S E A) : M S E' A :=
  λ s, let '(r, s') := m s in (map_err f r, s').

(** Running a computation on a component of a larger store. *)
Definition zoom {S T E A} (get : T → S) (put : S → T → T) (m : M S E A) : M T E A :=
  λ t, let '(r, s) := m (get t) in (r, put s t).

(** ** Machine integers

    An unsigned [w]-bit integer is a [Z] in [0 .. 2^w - 1].  [wrap] is the
    release-mode overflow of [+], [*] and of [as] casts; the [sat_] operations
    are the saturating ones. *)

Definition umax (w : Z) : Z := 2 ^ w - 1.
Definition in_range (w z : Z) : Prop := (0 ≤ z ≤ umax w)%Z.
Definition wrap (w z : Z) : Z := (z mod 2 ^ w)%Z.
Definition sat_add (w a b : Z) : Z := Z.min (a + b) (umax w).
Definition sat_sub (a b : Z) : Z := Z.max (a - b) 0.
Definition sat_mul (w a b : Z) : Z := Z.min (a * b) (umax w).

(** ** Orders given by a comparison function

    Rust's [Ord]/[PartialOrd] implementations return an [Ordering]; here a
    [comparison].  [then_cmp] is [Ordering::then]. *)

Definition then_cmp (c d : comparison) : comparison :=
  match c with Eq => d | _ => c end.

(** A comparison that is a total preorder. *)
Class TotalCmp {A} (cmp : A → A → comparison) : Prop := {
  cmp_flip x y : cmp y x = CompOpp (cmp x y);
  cmp_le_trans x y z : cmp x y ≠ Gt → cmp y z ≠ Gt → cmp x z ≠ Gt;
}.

Arguments cmp_flip {A} cmp {_} x y.
Arguments cmp_le_trans {A} cmp {_} x y z _ _.

(** [b1.cmp(&b2)] on booleans: [false < true]. *)
Definition bool_cmp (a b : bool) : comparison :=
  match a, b with
  | false, true => Lt
  | true, false => Gt
  | _, _ => Eq
  end.

(** Lexicographic comparison of byte strings ([<[u8] as Ord>::cmp]). *)
Fixpoint bytes_cmp (a b : list Z) : comparison :=
  match a, b with
  | [], [] => Eq
  | [], _ :: _ => Lt
  | _ :: _, [] => Gt
  | x :: a, y :: b => then_cmp (x ?= y)%Z (bytes_cmp a b)
  end.

(** [slice::sort_by]: a stable sort, as insertion from the right. *)
Fixpoint insert_by {A} (cmp : A → A → comparison) (x : A) (l : list A) : list A :=
  match l with
  | [] => [x]
  | y :: l' => match cmp x y with Gt => y :: insert_by cmp x l' | _ => x :: y :: l' end
  end.
Fixpoint sort_by {A} (cmp : A → A → comparison) (l : list A) : list A :=
  match l with
  | [] => []
  | x :: l => insert_by cmp x (sort_by cmp l)
  end.

(** [iter().position(p)]. *)
Fixpoint position {A} (p : A → bool) (l : list A) : option nat :=
  match l with
  | [] => None
  | x :: l => if p x then Some 0 else S <$> position p l
  end.

(** ** Automation *)

Create HintDb midnight.

(** Case analysis on the innermost scrutinee of a goal or hypothesis. *)
Ltac case_step :=
  match goal with
  | H : context [ match ?x with _ => _ end ] |- _ =>
      lazymatch x with context [ match _ with _ => _ end ] => fail | _ => destruct x eqn:? end
  | |- context [ match ?x with _ => _ end ] =>
      lazymatch x with context [ match _ with _ => _ end ] => fail | _ => destruct x eqn:? end
  end.

(** Unfold the monad and compute. *)
Ltac mrun :=
  unfold mbind, M_bind, mret, M_ret, gets, modify, throw, panic, lift, ensure,
    expect, zoom, reify, with_err in *; cbn -[Z.add Z.sub Z.mul Z.min Z.max Z.pow Z.modulo Z.div] in *.

Ltac msolve := repeat (simplify_eq/=; try case_step); simplify_eq/=; eauto with midnight.

(** ** Lemmas: monad *)

Lemma outcome_bind_ok {E A B} (r : outcome E A) (f : A → outcome E B) b :
  (r ≫= f) = Ok b ↔ ∃ a, r = Ok a ∧ f a = Ok b.
Proof. destruct r; simpl; naive_solver. Qed.

Lemma M_bind_ext {S E A B : Type} (m : M S E A) (f g : A → M S E B) s :
  (∀ x s', f x s' = g x s') → (m ≫= f) s = (m ≫= g) s.
Proof. intros Hfg. unfold mbind, M_bind. destruct (m s) as [[] ?]; auto. Qed.
Lemma M_bind_run {S E A B : Type} (m : M S E A) (f : A → M S E B) s r s' :
  m s = (r, s') → (m ≫= f) s = match r with Ok x => f x s' | Err e => (Err e, s') | Panic => (Panic, s') end.
Proof. intros Hm. unfold mbind, M_bind. by rewrite Hm. Qed.
Lemma for_each_two {S E A B : Type} (g : A → M S E unit) (h : M S E B) (k1 k2 : A) l s :
  (for_each (take 2 (k1 :: k2 :: l)) g ;; h) s = (g k1 ;; g k2 ;; h) s.
Proof.
  cbn [take for_each]. rewrite take_0. unfold mbind, M_bind. cbn. destruct (g k1 s) as [[[]| |] s1]; try done.
  by destruct (g k2 s1) as [[[]| |] s2].
Qed.

Lemma M_bind_ok {S E A B} (m : M S E A) (f : A → M S E B) s b s'' :
  (m ≫= f) s = (Ok b, s'') ↔ ∃ a s', m s = (Ok a, s') ∧ f a s' = (Ok b, s'').
Proof.
  unfold mbind, M_bind. split.
  - destruct (m s) as [[a|e|] s']; intros ?; simplify_eq; eauto.
  - by intros (a & s' & -> & ?).
Qed.

Lemma M_bind_assoc {S E A B C} (m : M S E A) (f : A → M S E B) (g : B → M S E C) s :
  ((m ≫= f) ≫= g) s = (m ≫= λ a, f a ≫= g) s.
Proof. unfold mbind, M_bind. by destruct (m s) as [[a|e|] s']. Qed.

Lemma for_each_app {S E A} (l k : list A) (f : A → M S E unit) s :
  for_each (l ++ k) f s = (for_each l f ;; for_each k f) s.
Proof.
  revert s; induction l as [|x l IH]; intros s; [done|].
  simpl. unfold mbind, M_bind in *. destruct (f x s) as [[[]|e|] s']; [apply IH|done|done].
Qed.

(** The invariant rule for loops over a store. *)
Lemma for_each_inv {S E A} (P : S → Prop) (f : A → M S E unit) l s r s' :
  (∀ x s r s', x ∈ l → P s → f x s = (r, s') → P s') →
  P s → for_each l f s = (r, s') → P s'.
Proof.
  revert s; induction l as [|x l IH]; intros s Hf Hs Hrun; simpl in Hrun.
  { unfold mret, M_ret in Hrun; by simplify_eq. }
  unfold mbind, M_bind in Hrun.
  destruct (f x s) as [r1 s1] eqn:Hx.
  assert (P s1) by (eapply Hf; [left|done|done]).
  destruct r1; simplify_eq; try done.
  eapply IH; [|done|done]. intros ???? Hin. apply Hf. by right.
Qed.

(** A loop whose body always succeeds succeeds. *)
Lemma for_each_total {S E A} (f : A → M S E unit) l s :
  (∀ x s, ∃ s', f x s = (Ok tt, s')) → ∃ s', for_each l f s = (Ok tt, s').
Proof.
  intros Hf. revert s; induction l as [|x l IH]; intros s; simpl.
  { by eexists. }
  destruct (Hf x s) as [s1 Hx]. destruct (IH s1) as [s2 Hl].
  exists s2. unfold mbind, M_bind. by rewrite Hx.
Qed.

(** ** Frame: what a computation leaves alone

    [keeps f m]: whatever its result, [m] does not change the part [f] of the
    store. *)

Definition keeps {S E A B} (f : S → B) (m : M S E A) : Prop := ∀ s, f (m s).2 = f s.

Lemma keeps_bind {S E A A' B} (f : S → B) (m : M S E A) (k : A → M S E A') :
  keeps f m → (∀ a, keeps f (k a)) → keeps f (m ≫= k).
Proof.
  intros Hm Hk s. unfold mbind, M_bind. specialize (Hm s).
  destruct (m s) as [[a|e|] s']; simpl in *; [|done..]. by rewrite Hk.
Qed.

Lemma keeps_ret {S E A B} (f : S → B) (a : A) : keeps f (mret a : M S E A).
Proof. done. Qed.

Lemma keeps_lift {S E A B} (f : S → B) (r : outcome E A) : keeps f (lift r : M S E A).
Proof. done. Qed.

Lemma keeps_gets {S E A B} (f : S → B) (g : S → A) : keeps f (gets g : M S E A).
Proof. done. Qed.

Lemma keeps_modify {S E B} (f : S → B) (g : S → S) :
  (∀ s, f (g s) = f s) → keeps f (modify g : M S E unit).
Proof. intros Hg s. apply Hg. Qed.

Lemma keeps_expect {S E A B} (f : S → B) (o : option A) : keeps f (expect o : M S E A).
Proof. by destruct o. Qed.

Lemma keeps_throw {S E A B} (f : S → B) (e : E) : keeps f (throw e : M S E A).
Proof. done. Qed.

Lemma keeps_ensure {S E B} (f : S → B) (b : bool) (e : E) : keeps f (ensure b e : M S E unit).
Proof. by destruct b. Qed.

Lemma keeps_run {S E A B} (f : S → B) (m : M S E A) s r s' : keeps f m → m s = (r, s') → f s' = f s.
Proof. intros Hm Hs. specialize (Hm s). by rewrite Hs in Hm. Qed.

#[export] Hint Resolve keeps_ret keeps_lift keeps_gets keeps_expect keeps_throw keeps_ensure : midnight.

(** Walks through a computation, with case analysis on its matches. *)
Ltac solve_keeps :=
  repeat first
    [ progress intros
    | solve [eauto with midnight]
    | apply keeps_bind
    | apply keeps_modify
    | progress case_step ];
  try done.

(** ** Lemmas: machine integers *)

Lemma umax_nonneg w : (0 ≤ w)%Z → (0 ≤ umax w)%Z.
Proof. intros. unfold umax. pose proof (Z.pow_pos_nonneg 2 w). lia. Qed.

Lemma sat_add_range w a b :
  (0 ≤ w)%Z → (0 ≤ a)%Z → (0 ≤ b)%Z → in_range w (sat_add w a b).
Proof. intros. unfold in_range, sat_add. pose proof (umax_nonneg w). lia. Qed.

Lemma sat_add_exact w a b : (a + b ≤ umax w)%Z → sat_add w a b = (a + b)%Z.
Proof. unfold sat_add. lia. Qed.

Lemma sat_mul_mono w a b c :
  (0 ≤ a)%Z → (b ≤ c)%Z → (sat_mul w a b ≤ sat_mul w a c)%Z.
Proof. intros. unfold sat_mul. nia. Qed.

Lemma wrap_small w z : in_range w z → wrap w z = z.
Proof. unfold in_range, umax, wrap. intros. apply Z.mod_small. lia. Qed.

Lemma wrap_range w z : (0 ≤ w)%Z → in_range w (wrap w z).
Proof.
  intros. unfold in_range, umax, wrap.
  pose proof (Z.mod_pos_bound z (2 ^ w)). pose proof (Z.pow_pos_nonneg 2 w). lia.
Qed.

#[export] Hint Resolve umax_nonneg sat_add_range sat_mul_mono wrap_range : midnight.

(** ** Lemmas: comparisons *)

Section TotalCmpLemmas.
Context {A : Type} (cmp : A → A → comparison) `{!TotalCmp cmp}.

Lemma cmp_refl x : cmp x x = Eq.
Proof. pose proof (cmp_flip cmp x x) as H. by destruct (cmp x x). Qed.

Lemma cmp_eq_sym x y : cmp x y = Eq → cmp y x = Eq.
Proof. intros H. by rewrite (cmp_flip cmp x y), H. Qed.

Lemma cmp_gt_lt x y : cmp x y = Gt ↔ cmp y x = Lt.
Proof. rewrite (cmp_flip cmp x y). by destruct (cmp x y). Qed.

Lemma cmp_total x y : cmp x y ≠ Gt ∨ cmp y x ≠ Gt.
Proof. rewrite (cmp_flip cmp x y). destruct (cmp x y); naive_solver. Qed.

Lemma cmp_lt_le_trans x y z : cmp x y = Lt → cmp y z ≠ Gt → cmp x z = Lt.
Proof.
  intros Hxy Hyz. destruct (cmp x z) eqn:Hxz; [exfalso|done|exfalso].
  - assert (cmp z x ≠ Gt) as Hzx by (by rewrite (cmp_flip cmp x z), Hxz).
    pose proof (cmp_le_trans cmp _ _ _ Hyz Hzx) as Hyx. by rewrite (cmp_flip cmp x y), Hxy in Hyx.
  - assert (cmp x y ≠ Gt) as Hxy' by (by rewrite Hxy).
    by pose proof (cmp_le_trans cmp _ _ _ Hxy' Hyz).
Qed.

Lemma cmp_le_lt_trans x y z : cmp x y ≠ Gt → cmp y z = Lt → cmp x z = Lt.
Proof.
  intros Hxy Hyz. destruct (cmp x z) eqn:Hxz; [exfalso|done|exfalso].
  - assert (cmp z x ≠ Gt) as Hzx by (by rewrite (cmp_flip cmp x z), Hxz).
    pose proof (cmp_le_trans cmp _ _ _ Hzx Hxy) as Hyx. by rewrite (cmp_flip cmp y z), Hyz in Hyx.
  - assert (cmp y z ≠ Gt) as Hyz' by (by rewrite Hyz).
    by pose proof (cmp_le_trans cmp _ _ _ Hxy Hyz').
Qed.

Lemma cmp_eq_trans_l x y z : cmp x y = Eq → cmp x z = cmp y z.
Proof.
  intros Hxy. assert (cmp x y ≠ Gt) as Hle by (by rewrite Hxy).
  assert (cmp y x ≠ Gt) as Hge by (by rewrite (cmp_flip cmp x y), Hxy).
  destruct (cmp y z) eqn:Hyz; destruct (cmp x z) eqn:Hxz; try done; exfalso.
  - pose proof (cmp_le_lt_trans y x z Hge Hxz); congruence.
  - assert (cmp y z ≠ Gt) as H1 by (by rewrite Hyz).
    pose proof (cmp_le_trans cmp _ _ _ Hle H1); congruence.
  - pose proof (cmp_le_lt_trans x y z Hle Hyz); congruence.
  - pose proof (cmp_le_lt_trans x y z Hle Hyz); congruence.
  - assert (cmp x z ≠ Gt) as H1 by (by rewrite Hxz).
    pose proof (cmp_le_trans cmp _ _ _ Hge H1); congruence.
  - pose proof (cmp_le_lt_trans y x z Hge Hxz); congruence.
Qed.

Lemma cmp_not_lt x y : cmp x y ≠ Lt ↔ cmp y x ≠ Gt.
Proof. rewrite (cmp_flip cmp x y). by destruct (cmp x y). Qed.
End TotalCmpLemmas.

#[export] Instance Z_compare_total : TotalCmp Z.compare.
Proof.
  split; intros *.
  - apply Z.compare_antisym.
  - intros H1 H2 H3. apply Z.compare_gt_iff in H3.
    destruct (Z.compare_spec x y), (Z.compare_spec y z); try done; lia.
Qed.

#[export] Instance bool_cmp_total : TotalCmp bool_cmp.
Proof. split; [by intros [] []|by intros [] [] []]. Qed.

(** Comparison through a key, and lexicographic combination. *)
#[export] Instance key_cmp_total {A B} (f : A → B) cmp `{!TotalCmp cmp} :
  TotalCmp (λ x y, cmp (f x) (f y)).
Proof. split; intros *; [apply cmp_flip, _|apply cmp_le_trans, _]. Qed.

#[export] Instance then_cmp_total {A} (c d : A → A → comparison)
  `{!TotalCmp c, !TotalCmp d} : TotalCmp (λ x y, then_cmp (c x y) (d x y)).
Proof.
  split; intros *.
  - rewrite (cmp_flip c x y), (cmp_flip d x y). by destruct (c x y).
  - unfold then_cmp. intros H1 H2.
    destruct (c x y) eqn:Exy; [|..|done].
    + rewrite (cmp_eq_trans_l c x y z Exy). destruct (c y z) eqn:Eyz; [|done|done].
      by apply (cmp_le_trans d x y z).
    + assert (c y z ≠ Gt) as Hyz by (by destruct (c y z)).
      by rewrite (cmp_lt_le_trans c x y z Exy Hyz).
Qed.

Lemma bytes_cmp_flip a b : bytes_cmp b a = CompOpp (bytes_cmp a b).
Proof.
  revert b; induction a as [|x a IH]; intros [|y b]; simpl; try done.
  rewrite Z.compare_antisym, IH. by destruct (x ?= y)%Z.
Qed.

Lemma bytes_cmp_eq a b : bytes_cmp a b = Eq ↔ a = b.
Proof.
  revert b; induction a as [|x a IH]; intros [|y b]; simpl; try done.
  unfold then_cmp. destruct (Z.compare_spec x y) as [->|?|?].
  - rewrite IH. split; [by intros ->|by intros [=]].
  - split; [done|]. intros; simplify_eq; lia.
  - split; [done|]. intros; simplify_eq; lia.
Qed.

#[export] Instance bytes_cmp_total : TotalCmp bytes_cmp.
Proof.
  split; [intros; apply bytes_cmp_flip|].
  intros a; induction a as [|x a IH]; intros [|y b] [|z c]; simpl; try done.
  unfold then_cmp. specialize (IH b c).
  destruct (Z.compare_spec x y), (Z.compare_spec y z), (Z.compare_spec x z);
    subst; try done; try lia; auto.
Qed.

(** ** Lemmas: sorting *)

Section Sorting.
Context {A : Type} (cmp : A → A → comparison) `{!TotalCmp cmp}.

Lemma insert_by_perm x l : insert_by cmp x l ≡ₚ x :: l.
Proof.
  induction l as [|y l IH]; simpl; [done|].
  destruct (cmp x y); [done|done|]. rewrite IH. apply Permutation_swap.
Qed.

Lemma sort_by_perm l : sort_by cmp l ≡ₚ l.
Proof. induction l as [|x l IH]; simpl; [done|]. by rewrite insert_by_perm, IH. Qed.

Lemma sort_by_length l : length (sort_by cmp l) = length l.
Proof. by rewrite sort_by_perm. Qed.

Definition cmp_le (x y : A) : Prop := cmp x y ≠ Gt.

Lemma insert_by_sorted x l :
  StronglySorted cmp_le l → StronglySorted cmp_le (insert_by cmp x l).
Proof.
  induction 1 as [|y l Hl IH Hy]; simpl.
  { repeat constructor. }
  destruct (cmp x y) eqn:Exy.
  - constructor; [by constructor|]. constructor; [by unfold cmp_le; rewrite Exy|].
    revert Hy; apply Forall_impl. intros z Hz. apply (cmp_le_trans cmp x y z); [by rewrite Exy|done].
  - constructor; [by constructor|]. constructor; [by unfold cmp_le; rewrite Exy|].
    revert Hy; apply Forall_impl. intros z Hz. apply (cmp_le_trans cmp x y z); [by rewrite Exy|done].
  - constructor; [done|]. rewrite list.Forall_forall in *. intros z.
    rewrite insert_by_perm. intros [->|Hz]%elem_of_cons; [|by apply Hy].
    unfold cmp_le. by rewrite (cmp_flip cmp x y), Exy.
Qed.

Lemma sort_by_sorted l : StronglySorted cmp_le (sort_by cmp l).
Proof. induction l as [|x l IH]; simpl; [constructor|by apply insert_by_sorted]. Qed.

(** Sorting a sorted list is the identity. *)
Lemma sort_by_id l : StronglySorted cmp_le l → sort_by cmp l = l.
Proof.
  induction 1 as [|x l Hl IH Hx]; simpl; [done|]. rewrite IH.
  destruct l as [|y l]; simpl; [done|].
  apply list.Forall_cons in Hx as [Hxy _]. unfold cmp_le in Hxy. by destruct (cmp x y).
Qed.

(** When comparing equal means being equal, a sorted list is determined by its
    elements. *)
Lemma sorted_unique l k :
  (∀ x y, x ∈ l → y ∈ l → cmp x y = Eq → x = y) →
  StronglySorted cmp_le l → StronglySorted cmp_le k → l ≡ₚ k → l = k.
Proof.
  revert k; induction l as [|x l IH]; intros k Hanti Hl Hk Hp.
  { by apply Permutation_nil_l in Hp as ->. }
  destruct k as [|y k]; [by symmetry in Hp; apply Permutation_nil_cons in Hp|].
  apply StronglySorted_inv in Hl as [Hl Hx]. apply StronglySorted_inv in Hk as [Hk Hy].
  assert (x = y) as ->.
  { rewrite list.Forall_forall in Hx, Hy.
    assert (y ∈ x :: l) as Hyl by (rewrite Hp; left).
    assert (x ∈ y :: k) as Hxk by (rewrite <-Hp; left).
    apply elem_of_cons in Hxk as [?|Hxk]; [done|].
    apply elem_of_cons in Hyl as [?|Hyl]; [done|].
    apply Hanti; [left|by right|]. pose proof (Hx _ Hyl) as H1. pose proof (Hy _ Hxk) as H2.
    unfold cmp_le in H1, H2. rewrite (cmp_flip cmp x y) in H2. by destruct (cmp x y). }
  f_equal. apply IH; [|done|done|by eapply Permutation_cons_inv].
  intros; apply Hanti; by (right || done).
Qed.

Lemma sort_by_unique l k :
  (∀ x y, x ∈ l → y ∈ l → cmp x y = Eq → x = y) →
  l ≡ₚ k → sort_by cmp l = sort_by cmp k.
Proof.
  intros Hanti Hp. apply sorted_unique; [|apply sort_by_sorted..|by rewrite !sort_by_perm].
  intros x y. rewrite !sort_by_perm. apply Hanti.
Qed.

(** The relative order of equivalent elements is kept. *)
Lemma insert_by_stable x y l :
  filter (λ z, cmp y z = Eq) (insert_by cmp x l) = filter (λ z, cmp y z = Eq) (x :: l).
Proof.
  induction l as [|z l IH]; simpl; [done|].
  destruct (cmp x z) eqn:Exz; [done|done|].
  rewrite !filter_cons in *. rewrite IH.
  destruct (decide (cmp y x = Eq)) as [Hyx|Hyx], (decide (cmp y z = Eq)) as [Hyz|Hyz]; try done.
  exfalso. pose proof (cmp_eq_trans_l cmp y x z Hyx). congruence.
Qed.

Lemma sort_by_stable y l :
  filter (λ z, cmp y z = Eq) (sort_by cmp l) = filter (λ z, cmp y z = Eq) l.
Proof.
  induction l as [|x l IH]; simpl; [done|].
  rewrite insert_by_stable, !filter_cons, IH. done.
Qed.
(** A sorted list is determined by its classes of equivalent elements, each in
    its order. *)
Lemma sorted_classes_unique l k :
  StronglySorted cmp_le l → StronglySorted cmp_le k →
  (∀ y, filter (λ z, cmp y z = Eq) l = filter (λ z, cmp y z = Eq) k) → l = k.
Proof.
  assert (∀ x y l, StronglySorted cmp_le (y :: l) → x ∈ y :: l → cmp_le y x) as Hhead.
  { intros x y l' [_ Hy]%StronglySorted_inv [->|Hx]%elem_of_cons.
    - unfold cmp_le. by rewrite cmp_refl.
    - rewrite list.Forall_forall in Hy. auto. }
  assert (∀ x (l k : list A), filter (λ z, cmp x z = Eq) l = filter (λ z, cmp x z = Eq) k →
            x ∈ l → x ∈ k) as Hin.
  { intros x l' k' Hf Hx. apply (list_elem_of_filter (λ z, cmp x z = Eq) k' x).
    rewrite <-Hf. apply list_elem_of_filter. split; [by apply cmp_refl|done]. }
  revert k; induction l as [|x l IH]; intros [|y k] Hl Hk Hf; [done|..].
  { specialize (Hf y). rewrite filter_cons, decide_True in Hf by by apply cmp_refl. done. }
  { specialize (Hf x). rewrite filter_cons, decide_True in Hf by by apply cmp_refl. done. }
  assert (cmp x y = Eq) as Hxy.
  { pose proof (Hhead x y k Hk (Hin x _ _ (Hf x) ltac:(left))) as H1.
    pose proof (Hhead y x l Hl (Hin y _ _ (eq_sym (Hf y)) ltac:(left))) as H2.
    unfold cmp_le in *. rewrite (cmp_flip cmp x y) in H1. by destruct (cmp x y). }
  assert (x = y) as ->.
  { pose proof (Hf x) as Hx. rewrite !filter_cons, !decide_True in Hx by (done || by apply cmp_refl).
    by simplify_eq. }
  f_equal. apply IH; [by apply StronglySorted_inv in Hl as []|by apply StronglySorted_inv in Hk as []|].
  intros z. pose proof (Hf z) as Hz. rewrite !filter_cons in Hz.
  destruct (decide (cmp z y = Eq)); by simplify_eq.
Qed.

Lemma sort_by_classes l k :
  (∀ y, filter (λ z, cmp y z = Eq) l = filter (λ z, cmp y z = Eq) k) →
  sort_by cmp l = sort_by cmp k.
Proof.
  intros Hf. apply sorted_classes_unique; [apply sort_by_sorted..|].
  intros y. by rewrite !sort_by_stable.
Qed.

(** Sorting splits at a threshold. *)
Lemma sort_by_split (P : A → Prop) `{∀ x, Decision (P x)} l :
  (∀ x y, x ∈ l → y ∈ l → P x → ¬ P y → cmp x y = Lt) →
  sort_by cmp l = sort_by cmp (filter P l) ++ sort_by cmp (filter (λ x, ¬ P x) l).
Proof.
  assert (∀ x (a b : list A), (∀ y, y ∈ b → cmp x y ≠ Gt) →
            insert_by cmp x (a ++ b) = insert_by cmp x a ++ b) as Hleft.
  { intros x a b Hb. induction a as [|y a IHa]; simpl.
    - destruct b as [|y b]; simpl; [done|]. specialize (Hb y ltac:(left)). by destruct (cmp x y).
    - by destruct (cmp x y); simpl; rewrite ?IHa. }
  assert (∀ x (a b : list A), (∀ y, y ∈ a → cmp x y = Gt) →
            insert_by cmp x (a ++ b) = a ++ insert_by cmp x b) as Hright.
  { intros x a b Ha. induction a as [|y a IHa]; simpl; [done|].
    rewrite (Ha y) by left. f_equal. apply IHa. intros; apply Ha. by right. }
  induction l as [|x l IH]; intros Hlt; [done|].
  simpl. rewrite IH by (intros; apply Hlt; [by right|by right|done|done]).
  rewrite !filter_cons. destruct (decide (P x)) as [Hx|Hx].
  - rewrite (decide_False (P := ¬ P x)) by tauto. simpl. apply Hleft.
    intros y. rewrite sort_by_perm, list_elem_of_filter. intros [Hy ?].
    rewrite (Hlt x y); [done|left|by right|done|done].
  - rewrite (decide_True (P := ¬ P x)) by done. simpl. apply Hright.
    intros y. rewrite sort_by_perm, list_elem_of_filter. intros [Hy ?].
    rewrite (cmp_flip cmp y x), (Hlt y x); [done|by right|left|done|done].
Qed.

(** Permuting each part of a concatenation does not matter to a sort under
    which, within a part, only equal elements are equivalent. *)
Lemma sort_by_parts ls ks :
  Forall2 (λ l k, l ≡ₚ k ∧ ∀ x y, x ∈ l → y ∈ l → cmp x y = Eq → x = y) ls ks →
  sort_by cmp (concat ls) = sort_by cmp (concat ks).
Proof.
  intros Hlk. apply sort_by_classes. intros y.
  assert (∀ l k : list A, l ≡ₚ k → (∀ a b, a ∈ l → b ∈ l → a = b) → l = k) as Hconst.
  { intros l; induction l as [|a l IH]; intros k Hp Heq.
    { by apply Permutation_nil_l in Hp as ->. }
    destruct k as [|b k]; [by symmetry in Hp; apply Permutation_nil_cons in Hp|].
    assert (a = b) as -> by (apply Heq; [left|rewrite Hp; left]).
    f_equal. apply IH; [by eapply Permutation_cons_inv|]. intros; apply Heq; by right. }
  induction Hlk as [|l k ls ks [Hp Hu] _ IH]; [done|]. simpl. rewrite !list.filter_app, IH. f_equal.
  apply Hconst; [by rewrite Hp|]. intros a b Ha Hb.
  apply list_elem_of_filter in Ha as [Hya ?]. apply list_elem_of_filter in Hb as [Hyb ?].
  apply Hu; [done|done|]. rewrite <-Hyb. symmetry. by apply cmp_eq_trans_l.
Qed.
End Sorting.

(** ** Lemmas: lists *)

Section Lists.
Context {A : Type}.

Lemma filter_all (P : A → Prop) `{∀ x, Decision (P x)} (l : list A) : (∀ x, x ∈ l → P x) → filter P l = l.
Proof.
  induction l as [|x l IH]; intros Hl; [done|].
  rewrite filter_cons, decide_True by (apply Hl; left). f_equal. apply IH. intros; apply Hl. by right.
Qed.

Lemma filter_none (P : A → Prop) `{∀ x, Decision (P x)} (l : list A) : (∀ x, x ∈ l → ¬ P x) → filter P l = [].
Proof.
  induction l as [|x l IH]; intros Hl; [done|].
  rewrite filter_cons, decide_False by (apply Hl; left). apply IH. intros; apply Hl. by right.
Qed.

Lemma StronglySorted_app_inv (R : A → A → Prop) l k :
  StronglySorted R (l ++ k) →
  StronglySorted R l ∧ StronglySorted R k ∧ ∀ x y, x ∈ l → y ∈ k → R x y.
Proof.
  induction l as [|x l IH]; simpl.
  { intros Hk. split_and!; [constructor|done|]. by intros ?? ?%elem_of_nil. }
  intros [Hs Hx]%StronglySorted_inv. destruct (IH Hs) as (Hl & Hk & Hc).
  rewrite list.Forall_forall in Hx. split_and!; [|done|].
  - constructor; [done|]. apply list.Forall_forall. intros y Hy. apply Hx, elem_of_app. by left.
  - intros a b [->|Ha]%elem_of_cons Hb; [|by apply Hc]. apply Hx, elem_of_app. by right.
Qed.
End Lists.

(** Filtering by a threshold commutes with sorting. *)
Lemma filter_sort_by {A} (cmp : A → A → comparison) `{!TotalCmp cmp}
    (P : A → Prop) `{∀ x, Decision (P x)} l :
  (∀ x y, x ∈ l → y ∈ l → P x → ¬ P y → cmp x y = Lt) →
  filter P (sort_by cmp l) = sort_by cmp (filter P l).
Proof.
  intros Hlt. rewrite (sort_by_split cmp P l Hlt), list.filter_app.
  rewrite (filter_all P (sort_by cmp (filter P l))),
    (filter_none P (sort_by cmp (filter (λ x, ¬ P x) l))); [by rewrite app_nil_r|..].
  - intros x. by rewrite sort_by_perm, list_elem_of_filter; intros [].
  - intros x. by rewrite sort_by_perm, list_elem_of_filter; intros [].
Qed.

Lemma elem_of_concat {A} (x : A) ls : x ∈ concat ls ↔ ∃ l, l ∈ ls ∧ x ∈ l.
Proof.
  rewrite list_elem_of_In, in_concat. split; intros (l & H1 & H2); exists l.
  - by rewrite !list_elem_of_In.
  - by rewrite <-!list_elem_of_In.
Qed.

Lemma filter_concat {A} (P : A → Prop) `{∀ x, Decision (P x)} (ls : list (list A)) :
  filter P (concat ls) = concat (filter P <$> ls).
Proof. induction ls as [|l ls IH]; simpl; [done|]. by rewrite list.filter_app, IH. Qed.

Lemma filter_filter_length {A} (P Q : A → Prop) `{∀ x, Decision (P x)} `{∀ x, Decision (Q x)}
    (l : list A) :
  (length (filter P (filter Q l)) ≤ length (filter P l))%nat.
Proof.
  induction l as [|x l IH]; [done|]. rewrite !filter_cons.
  destruct (decide (Q x)); [rewrite filter_cons|]; destruct (decide (P x)); simpl; lia.
Qed.

Lemma omap_cons_eq {A B} (f : A → option B) x (l : list A) :
  omap f (x :: l) = match f x with Some y => y :: omap f l | None => omap f l end.
Proof. done. Qed.

Lemma omap_length_le {A B} (f : A → option B) (l : list A) : (length (omap f l) ≤ length l)%nat.
Proof.
  induction l as [|x l IH]; [done|]. rewrite omap_cons_eq. destruct (f x); simpl; lia.
Qed.

Lemma omap_length_all {A B} (f : A → option B) (l : list A) :
  (∀ x, x ∈ l → is_Some (f x)) → length (omap f l) = length l.
Proof.
  induction l as [|x l IH]; intros Hf; [done|]. rewrite omap_cons_eq.
  destruct (Hf x ltac:(left)) as [y ->]. simpl. f_equal. apply IH. intros; apply Hf. by right.
Qed.

Lemma length_concat_lt {A B} (f g : B → list A) (ls : list B) :
  (∀ b, b ∈ ls → length (f b) ≤ length (g b))%nat →
  (∃ b, b ∈ ls ∧ length (f b) < length (g b))%nat →
  (length (concat (f <$> ls)) < length (concat (g <$> ls)))%nat.
Proof.
  assert (∀ ls, (∀ b, b ∈ ls → length (f b) ≤ length (g b))%nat →
            (length (concat (f <$> ls)) ≤ length (concat (g <$> ls)))%nat) as Hle.
  { intros ls'; induction ls' as [|b ls' IH]; intros H; [done|].
    rewrite !fmap_cons, !concat_cons, !length_app.
    specialize (H b ltac:(left)) as Hb. specialize (IH ltac:(intros; apply H; by right)). lia. }
  induction ls as [|b ls IH]; intros H (b' & Hin & Hlt); [by apply elem_of_nil in Hin|].
  rewrite !fmap_cons, !concat_cons, !length_app. apply elem_of_cons in Hin as [->|Hin].
  - specialize (Hle ls ltac:(intros; apply H; by right)). lia.
  - specialize (H b ltac:(left)) as Hb.
    specialize (IH ltac:(intros; apply H; by right) ltac:(eauto)). lia.
Qed.

(** ** Lemmas: [position] *)

Lemma position_Some {A} (p : A → bool) l i :
  position p l = Some i → ∃ x, l !! i = Some x ∧ p x = true.
Proof.
  revert i; induction l as [|x l IH]; intros i; simpl; [done|].
  destruct (p x) eqn:Hp; [intros; simplify_eq; eauto|].
  intros (j & Hj & ->)%fmap_Some. destruct (IH j Hj) as (y & ? & ?). eauto.
Qed.

Lemma position_None {A} (p : A → bool) l :
  position p l = None ↔ ∀ x, x ∈ l → p x = false.
Proof.
  induction l as [|x l IH]; simpl.
  { split; [by intros _ x ?%elem_of_nil|done]. }
  destruct (p x) eqn:Hp.
  - split; [done|]. intros H. specialize (H x). rewrite Hp in H. by discriminate H; left.
  - rewrite fmap_None, IH. split.
    + intros H y [->|Hy]%elem_of_cons; auto.
    + intros H y Hy. apply H. by right.
Qed.
