(* ===== verification/Frame.v ===== *)
(** * The FRAME interface the pallets are written against

    FRAME, [sp_runtime] and [sp_core] are dependencies of the node and not part
    of its sources.  Their data types ([Weight], [RawOrigin], [BoundedVec],
    [BoundedBTreeSet], [PostDispatchInfo]) are represented here by values with
    the operations the pallets use; the transactional storage layer, the one
    piece of FRAME behaviour the pallets rely on for correctness, is the class
    [StorageLayers], whose two laws are its documented contract. *)

From stdpp Require Import prelude gmap.
From S2P Require Import Prelude.

Open Scope Z_scope.

(** ** Origins *)

(** [frame_system::RawOrigin]. *)
Inductive RawOrigin (AccountId : Type) : Type :=
| Root
| Signed (who : AccountId)
| NoOrigin.
Arguments Root {_}.
Arguments Signed {_} who.
Arguments NoOrigin {_}.
#[export] Instance RawOrigin_eq_dec `{EqDecision A} : EqDecision (RawOrigin A).
Proof. solve_decision. Defined.

(** [sp_runtime::DispatchError], as seen by a pallet with error type [E] that
    passes on errors of type [F] raised outside of it. *)
Inductive DispatchError (E F : Type) : Type :=
| BadOrigin
| Module (e : E)
| Foreign (f : F).
Arguments BadOrigin {E F}.
Arguments Module {E F} e.
Arguments Foreign {E F} f.

Definition ensure_root {S E F A} (o : RawOrigin A) : M S (DispatchError E F) unit :=
  match o with Root => mret tt | _ => throw BadOrigin end.
Definition ensure_none {S E F A} (o : RawOrigin A) : M S (DispatchError E F) unit :=
  match o with NoOrigin => mret tt | _ => throw BadOrigin end.
Definition ensure_signed {S E F A} (o : RawOrigin A) : M S (DispatchError E F) A :=
  match o with Signed who => mret who | _ => throw BadOrigin end.

(** ** Weights *)

(** [sp_weights::Weight], two [u64] components. *)
Record Weight : Type := from_parts { ref_time : Z; proof_size : Z }.

Definition weight_zero : Weight := from_parts 0 0.
Definition saturating_add (a b : Weight) : Weight :=
  from_parts (sat_add 64 (ref_time a) (ref_time b))
             (sat_add 64 (proof_size a) (proof_size b)).
Definition saturating_mul (a : Weight) (n : Z) : Weight :=
  from_parts (sat_mul 64 (ref_time a) n) (sat_mul 64 (proof_size a) n).
Definition weight_max (a b : Weight) : Weight :=
  from_parts (Z.max (ref_time a) (ref_time b)) (Z.max (proof_size a) (proof_size b)).

(** [sp_weights::RuntimeDbWeight]. *)
Record RuntimeDbWeight : Type := { db_read : Z; db_write : Z }.
Definition reads (w : RuntimeDbWeight) (n : Z) : Weight :=
  from_parts (sat_mul 64 (db_read w) n) 0.
Definition writes (w : RuntimeDbWeight) (n : Z) : Weight :=
  from_parts (sat_mul 64 (db_write w) n) 0.

(** Both components of one weight are at most those of another
    ([Weight::all_lte]). *)
Definition all_lte (a b : Weight) : Prop :=
  ref_time a ≤ ref_time b ∧ proof_size a ≤ proof_size b.
Notation "a ≤w b" := (all_lte a b) (at level 70).

(** ** Results of dispatchables *)

Inductive Pays : Type := PaysYes | PaysNo.
Record PostDispatchInfo : Type := { actual_weight : option Weight; pays_fee : Pays }.
(** [DispatchErrorWithPostInfo]; [From<DispatchError>] fills the default post
    info. *)
Record ErrorWithPostInfo (E F : Type) : Type :=
  { post_info : PostDispatchInfo; error : DispatchError E F }.
Arguments post_info {E F} _.
Arguments error {E F} _.
Definition default_post_info : PostDispatchInfo :=
  {| actual_weight := None; pays_fee := PaysYes |}.
Definition with_default_info {E F} (e : DispatchError E F) : ErrorWithPostInfo E F :=
  {| post_info := default_post_info; error := e |}.

(** [?] on a [DispatchError] inside a function that returns
    [DispatchResultWithPostInfo]. *)
Definition into_post_info {S E F A} (m : M S (DispatchError E F) A) :
    M S (ErrorWithPostInfo E F) A :=
  with_err with_default_info m.

(** ** Storage maps *)

(** [StorageMap::try_mutate] on an [OptionQuery] map: the closure works on a copy
    of the value, which is written back ([None] removes the key) when it returns
    [Ok] and dropped when it returns [Err]. *)
Definition try_mutate `{Countable K} {V E A} (k : K)
    (f : option V → outcome E (A * option V)) : M (gmap K V) E A := λ m,
  match f (m !! k) with
  | Ok (a, v) => (Ok a, partial_alter (λ _, v) k m)
  | Err e => (Err e, m)
  | Panic => (Panic, m)
  end.

(** ** Bounded collections *)

(** [BoundedVec::<T, MAX>::try_from(Vec<T>)]. *)
Definition bounded_try_from {A} (max : Z) (l : list A) : option (list A) :=
  if decide (Z.of_nat (length l) ≤ max) then Some l else None.

(** [BoundedBTreeSet::try_insert]: [Ok true] when the element is new, [Ok false]
    when it was there, an error when the bound leaves no room for it. *)
Inductive InsertResult : Type := Inserted (fresh : bool) | NoRoom.
Definition try_insert `{Countable A} (max : Z) (x : A) (s : gset A) :
    InsertResult * gset A :=
  if bool_decide (x ∈ s) then (Inserted false, s)
  else if bool_decide (Z.of_nat (size s) < max) then (Inserted true, {[x]} ∪ s)
  else (NoRoom, s).

(** ** Storage layers

    [frame_support::storage::with_storage_layer]: the writes of the closure are
    kept when it returns [Ok] and undone when it returns [Err]; a panic aborts the execution.  FRAME wraps the
    body of every dispatchable of a [#[pallet::call]] block in one. *)
Class StorageLayers : Type := {
  with_storage_layer {S E A : Type} : M S E A → M S E A;
  layer_commit {S E A} (f : M S E A) s a s' :
    f s = (Ok a, s') → with_storage_layer f s = (Ok a, s');
  layer_rollback {S E A} (f : M S E A) s e s' :
    f s = (Err e, s') → with_storage_layer f s = (Err e, s);
  layer_panic {S E A} (f : M S E A) s :
    fst (f s) = Panic → fst (with_storage_layer f s) = Panic;
}.

(** The contract can be met: keep a copy of the store. *)
Definition snapshot_layer {S E A} (f : M S E A) : M S E A := λ s,
  match f s with
  | (Ok a, s') => (Ok a, s')
  | (Err e, _) => (Err e, s)
  | (Panic, s') => (Panic, s')
  end.
#[export] Program Instance snapshot_layers : StorageLayers :=
  {| with_storage_layer := @snapshot_layer |}.
Next Obligation. intros * Hf. unfold snapshot_layer. by rewrite Hf. Qed.
Next Obligation. intros * Hf. unfold snapshot_layer. by rewrite Hf. Qed.
Next Obligation.
  intros S E A f s Hf. unfold snapshot_layer. destruct (f s) as [[] s']; by simplify_eq/=.
Qed.

(** ** Lemmas: weights *)

#[export] Instance all_lte_preorder : PreOrder all_lte.
Proof. split; [by intros w|intros a b c [] []; split; lia]. Qed.

#[export] Instance saturating_add_proper :
  Proper (all_lte ==> all_lte ==> all_lte) saturating_add.
Proof. intros a a' [] b b' []. split; simpl; unfold sat_add; lia. Qed.

#[export] Instance weight_max_proper :
  Proper (all_lte ==> all_lte ==> all_lte) weight_max.
Proof. intros a a' [] b b' []. split; simpl; lia. Qed.

Lemma weight_max_l a b : a ≤w weight_max a b.
Proof. split; simpl; lia. Qed.
Lemma weight_max_r a b : b ≤w weight_max a b.
Proof. split; simpl; lia. Qed.

Lemma saturating_mul_mono w a b :
  0 ≤ ref_time w → 0 ≤ proof_size w → a ≤ b → saturating_mul w a ≤w saturating_mul w b.
Proof. intros. split; simpl; apply sat_mul_mono; lia. Qed.

#[export] Hint Resolve weight_max_l weight_max_r saturating_mul_mono : midnight.

(** Closed comparisons of weight expressions. *)
Ltac solve_weight :=
  cbn -[Z.add Z.sub Z.mul Z.min Z.max Z.pow sat_add sat_mul umax reads writes];
  unfold reads, writes, saturating_mul, saturating_add, weight_max, all_lte, sat_add, sat_mul;
  cbn [ref_time proof_size db_read db_write];
  unfold umax; first [split; lia | lia].

(** ** Lemmas: bounded collections *)

Lemma bounded_try_from_Some {A} max (l l' : list A) :
  bounded_try_from max l = Some l' ↔ l' = l ∧ Z.of_nat (length l) ≤ max.
Proof. unfold bounded_try_from. case_decide; (split; [intros; by simplify_eq|by intros [-> ?]]). Qed.

Lemma bounded_try_from_None {A} max (l : list A) :
  bounded_try_from max l = None ↔ max < Z.of_nat (length l).
Proof. unfold bounded_try_from. case_decide; split; try done; lia. Qed.

Lemma try_insert_size `{Countable A} max (x : A) s r s' :
  try_insert max x s = (r, s') → Z.of_nat (size s) ≤ max → Z.of_nat (size s') ≤ max.
Proof.
  unfold try_insert. repeat case_bool_decide; intros ??; simplify_eq; [done| |done].
  rewrite size_union by set_solver. rewrite size_singleton. lia.
Qed.

Lemma size_list_to_set_le `{Countable A} (l : list A) :
  (size (list_to_set (C := gset A) l) ≤ length l)%nat.
Proof.
  induction l as [|x l IH]; [done|]. cbn [list_to_set length].
  rewrite size_union_alt, size_singleton.
  assert (size (list_to_set (C := gset A) l ∖ {[x]}) ≤ size (list_to_set (C := gset A) l))%nat
    by (apply subseteq_size; set_solver). lia.
Qed.

(** ** Lemmas: storage layers *)

(** The result of a layer around a computation that returns. *)
Lemma with_storage_layer_eq `{StorageLayers} {S E A} (f : M S E A) s :
  fst (f s) ≠ Panic →
  with_storage_layer f s =
    match f s with (Ok a, s') => (Ok a, s') | (r, _) => (r, s) end.
Proof.
  intros Hp. destruct (f s) as [[a|e|] s'] eqn:Hf; [| |done].
  - by apply layer_commit.
  - by eapply layer_rollback.
Qed.

(** What came out of a layer that did not panic: a commit or a full rollback. *)
Lemma with_storage_layer_inv `{StorageLayers} {S E A} (f : M S E A) s r s' :
  with_storage_layer f s = (r, s') → r ≠ Panic →
  (∃ a, r = Ok a ∧ f s = (Ok a, s')) ∨ (∃ e s1, r = Err e ∧ s' = s ∧ f s = (Err e, s1)).
Proof.
  intros Hl Hr. destruct (f s) as [[a|e|] s1] eqn:Hf.
  - rewrite (layer_commit _ _ _ _ Hf) in Hl. simplify_eq. eauto.
  - rewrite (layer_rollback _ _ _ _ Hf) in Hl. simplify_eq. eauto 10.
  - pose proof (layer_panic f s) as Hp. rewrite Hf, Hl in Hp. by destruct (Hr (Hp eq_refl)).
Qed.
