(* ===== verification/Collections.v ===== *)
(** * Ordered maps, bytes and counters shared by the components

    A Rust [BTreeMap] is a [gmap] that is iterated in the order of its keys;
    [to_le_bytes] and the checked conversions between integer types; collecting
    an iterator of results. *)

From Stdlib Require Import ZArith Lia Sorting.Sorted.
From stdpp Require Import prelude gmap strings.
From S2P Require Import Prelude.

Open Scope Z_scope.

(** ** [BTreeMap]: iteration in the order of the keys *)

Section BTree.
Context {K : Type} `{Countable K} (cmp : K → K → comparison).

Definition btree_to_list {V} (m : gmap K V) : list (K * V) :=
  sort_by (λ a b, cmp a.1 b.1) (map_to_list m).
Definition btree_values {V} (m : gmap K V) : list V := (btree_to_list m).*2.
Definition btree_keys {V} (m : gmap K V) : list K := (btree_to_list m).*1.

Context `{!TotalCmp cmp}.

Lemma btree_to_list_perm {V} (m : gmap K V) : btree_to_list m ≡ₚ map_to_list m.
Proof. apply sort_by_perm. Qed.

Lemma elem_of_btree_to_list {V} (m : gmap K V) k v : (k, v) ∈ btree_to_list m ↔ m !! k = Some v.
Proof. by rewrite btree_to_list_perm, elem_of_map_to_list. Qed.

Lemma elem_of_btree_values {V} (m : gmap K V) v : v ∈ btree_values m ↔ ∃ k, m !! k = Some v.
Proof.
  unfold btree_values. rewrite list_elem_of_fmap. split.
  - intros ([k w] & -> & Hin). apply elem_of_btree_to_list in Hin. eauto.
  - intros [k Hk]. exists (k, v). by rewrite elem_of_btree_to_list.
Qed.

Lemma elem_of_btree_keys {V} (m : gmap K V) k : k ∈ btree_keys m ↔ is_Some (m !! k).
Proof.
  unfold btree_keys. rewrite list_elem_of_fmap. split.
  - intros ([k' w] & -> & Hin). apply elem_of_btree_to_list in Hin. eauto.
  - intros [v Hv]. exists (k, v). by rewrite elem_of_btree_to_list.
Qed.

Lemma btree_keys_NoDup {V} (m : gmap K V) : NoDup (btree_keys m).
Proof. unfold btree_keys. rewrite btree_to_list_perm. apply NoDup_fst_map_to_list. Qed.

Lemma btree_to_list_sorted {V} (m : gmap K V) :
  StronglySorted (λ a b, cmp a.1 b.1 ≠ Gt) (btree_to_list m).
Proof. apply (sort_by_sorted (λ a b : K * V, cmp a.1 b.1)). Qed.

Lemma btree_length {V} (m : gmap K V) : length (btree_to_list m) = size m.
Proof. by rewrite btree_to_list_perm, length_map_to_list. Qed.

(** Inserting the entries of a map one after the other gives the map back. *)
Lemma foldl_insert_notin {V} (l : list (K * V)) (m : gmap K V) k :
  k ∉ l.*1 → foldl (λ m kv, <[fst kv := snd kv]> m) m l !! k = m !! k.
Proof.
  revert m. induction l as [|[k' v'] l IH]; intros m Hk; [done|]. simpl.
  rewrite fmap_cons, not_elem_of_cons in Hk. destruct Hk as [Hne Hk].
  rewrite IH by done. by rewrite lookup_insert_ne.
Qed.
Lemma foldl_insert_in {V} (l : list (K * V)) (m : gmap K V) k v :
  NoDup l.*1 → (k, v) ∈ l → foldl (λ m kv, <[fst kv := snd kv]> m) m l !! k = Some v.
Proof.
  revert m. induction l as [|[k' v'] l IH]; intros m Hnd Hin; [by apply elem_of_nil in Hin|].
  rewrite fmap_cons in Hnd. apply NoDup_cons in Hnd as [Hk' Hnd]. simpl.
  apply elem_of_cons in Hin as [[= -> ->]|Hin]; [|by apply IH].
  rewrite foldl_insert_notin by done. by rewrite lookup_insert_eq.
Qed.
Lemma foldl_insert_btree {V} (m : gmap K V) :
  foldl (λ m kv, <[fst kv := snd kv]> m) ∅ (btree_to_list m) = m.
Proof.
  apply map_eq. intros k. destruct (m !! k) as [v|] eqn:Hk.
  - apply foldl_insert_in; [apply btree_keys_NoDup|]. by apply elem_of_btree_to_list.
  - rewrite foldl_insert_notin, lookup_empty; [done|]. fold (btree_keys m).
    rewrite elem_of_btree_keys, Hk. by intros [? ?].
Qed.

Lemma elem_of_concat_values {V} (m : gmap K (list V)) x :
  x ∈ concat (btree_values m) ↔ ∃ k l, m !! k = Some l ∧ x ∈ l.
Proof.
  rewrite elem_of_concat. setoid_rewrite elem_of_btree_values. naive_solver.
Qed.
End BTree.

(** ** Bytes *)

(** The bytes of an ASCII string literal. *)
Definition bytes_of_string (s : string) : list Z :=
  (λ a, Z.of_nat (Ascii.nat_of_ascii a)) <$> String.list_ascii_of_string s.

(** [n.to_le_bytes()] of a [w]-byte integer. *)
Fixpoint to_le_bytes (w : nat) (n : Z) : list Z :=
  match w with
  | O => []
  | S w => n mod 256 :: to_le_bytes w (n / 256)
  end.
Fixpoint from_le_bytes (bs : list Z) : Z :=
  match bs with [] => 0 | b :: bs => b + 256 * from_le_bytes bs end.

Lemma to_le_bytes_length w n : length (to_le_bytes w n) = w.
Proof. revert n; induction w as [|w IH]; intros n; simpl; [done|by rewrite IH]. Qed.

Lemma from_to_le_bytes w n : 0 ≤ n < 256 ^ Z.of_nat w → from_le_bytes (to_le_bytes w n) = n.
Proof.
  revert n; induction w as [|w IH]; intros n Hn; [simpl in *; lia|].
  cbn [to_le_bytes from_le_bytes]. rewrite IH.
  - pose proof (Z.div_mod n 256). lia.
  - rewrite Nat2Z.inj_succ, Z.pow_succ_r in Hn by lia.
    split; [apply Z.div_pos; lia|]. apply Z.div_lt_upper_bound; lia.
Qed.

Lemma to_le_bytes_inj w n m :
  0 ≤ n < 256 ^ Z.of_nat w → 0 ≤ m < 256 ^ Z.of_nat w → to_le_bytes w n = to_le_bytes w m → n = m.
Proof.
  intros Hn Hm Heq. by rewrite <-(from_to_le_bytes w n Hn), Heq, from_to_le_bytes.
Qed.

Lemma to_le_bytes_byte w n b : b ∈ to_le_bytes w n → 0 ≤ b < 256.
Proof.
  revert n; induction w as [|w IH]; intros n; simpl; [by intros ?%elem_of_nil|].
  intros [->|Hin]%elem_of_cons; [apply Z.mod_pos_bound; lia|by eapply IH].
Qed.

(** [u32::try_from], [u8::try_from] and the like: the value when it fits. *)
Definition try_from_int (w n : Z) : option Z := if bool_decide (0 ≤ n ≤ umax w) then Some n else None.

(** ** Sums of integers *)

Fixpoint zsum {A} (f : A → Z) (l : list A) : Z :=
  match l with [] => 0 | x :: l => f x + zsum f l end.

Lemma zsum_app {A} (f : A → Z) l k : zsum f (l ++ k) = zsum f l + zsum f k.
Proof. induction l as [|x l IH]; simpl; [done|]. rewrite IH. lia. Qed.
Lemma zsum_perm {A} (f : A → Z) l k : l ≡ₚ k → zsum f l = zsum f k.
Proof. induction 1; simpl; lia. Qed.
Lemma zsum_ext {A} (f g : A → Z) l : (∀ x, x ∈ l → f x = g x) → zsum f l = zsum g l.
Proof.
  induction l as [|x l IH]; intros Hfg; simpl; [done|].
  rewrite (Hfg x) by left. rewrite IH; [done|]. intros y Hy. apply Hfg. by right.
Qed.
Lemma zsum_bounds {A} (f : A → Z) l lo hi :
  (∀ x, x ∈ l → lo ≤ f x ≤ hi) → Z.of_nat (length l) * lo ≤ zsum f l ≤ Z.of_nat (length l) * hi.
Proof.
  induction l as [|x l IH]; intros Hl; simpl; [lia|].
  specialize (Hl x ltac:(left)) as Hx.
  destruct IH as [? ?]; [intros y Hy; apply Hl; by right|]. rewrite Nat2Z.inj_succ. lia.
Qed.

(** ** [iter().map(f).collect::<Result<Vec<_>, _>>()] *)

Fixpoint try_collect {E A B} (f : A → outcome E B) (l : list A) : outcome E (list B) :=
  match l with
  | [] => Ok []
  | x :: l => y ← f x; ys ← try_collect f l; Ok (y :: ys)
  end.

Lemma try_collect_ok {E A B} (f : A → outcome E B) l ys :
  try_collect f l = Ok ys ↔ Forall2 (λ x y, f x = Ok y) l ys.
Proof.
  revert ys; induction l as [|x l IH]; intros ys; simpl.
  { split; [intros; simplify_eq; constructor|by inversion 1]. }
  unfold mbind, outcome_bind. split.
  - destruct (f x) eqn:Hx; try done. destruct (try_collect f l) eqn:Hl; try done.
    intros; simplify_eq. constructor; [done|]. by apply IH.
  - inversion 1 as [|? y ? ys' Hx Hl]; subst. rewrite Hx. apply IH in Hl. by rewrite Hl.
Qed.

Lemma try_collect_get {E A B : Type} (f : A → outcome E B) (g : A → B) l :
  Forall (λ x, f x = Ok (g x)) l → try_collect f l = Ok (g <$> l).
Proof. induction 1 as [|x l Hx _ IH]; simpl; [done|]. by rewrite Hx, IH. Qed.
Lemma try_collect_err {E A B} (f : A → outcome E B) l e :
  try_collect f l = Err e → ∃ x, x ∈ l ∧ f x = Err e.
Proof.
  induction l as [|x l IH]; simpl; [done|]. unfold mbind, outcome_bind.
  destruct (f x) eqn:Hx; [|intros; simplify_eq; exists x; split; [left|done]|done].
  destruct (try_collect f l) eqn:Hl; try done. intros; simplify_eq.
  destruct IH as (y & ? & ?); [done|]. exists y. split; [by right|done].
Qed.

Lemma try_collect_fmap {E A B} (f : A → B) (l : list A) :
  try_collect (λ x, Ok (f x) : outcome E B) l = Ok (f <$> l).
Proof. induction l as [|x l IH]; simpl; [done|]. by rewrite IH. Qed.

(** [iter().enumerate()]. *)
Definition enumerate {A} (l : list A) : list (nat * A) := imap (λ i x, (i, x)) l.

Lemma elem_of_enumerate {A} (l : list A) i x : (i, x) ∈ enumerate l ↔ l !! i = Some x.
Proof.
  unfold enumerate. rewrite list_elem_of_lookup. split.
  - intros [j Hj]. rewrite list_lookup_imap in Hj. by destruct (l !! j) eqn:?; simplify_eq/=.
  - intros Hi. exists i. by rewrite list_lookup_imap, Hi.
Qed.
