(* ===== verification/Constants.v ===== *)
(** * Constants of the runtime

    The time units of [runtime/src/constants.rs] and the constants with which
    [runtime/src/lib.rs] configures the pallets of this library. *)

From Stdlib Require Import ZArith.

Open Scope Z_scope.

Definition MILLISECS_PER_BLOCK : Z := 6000.
Definition MINUTES : Z := 60000 / MILLISECS_PER_BLOCK.
Definition HOURS : Z := MINUTES * 60.
Definition DAYS : Z := HOURS * 24.

Definition MOTION_DURATION : Z := 5 * DAYS.
Definition MAX_PROPOSALS : Z := 100.
Definition MAX_MEMBERS : Z := 10.
Definition MAX_NUM_BODIES : Z := 2.

(** [pallet_throttle]: [MaxBytes] and [WindowSize]. *)
Definition ThrottleMaxBytes : Z := 10 * 1024 * 1024.
Definition ThrottleWindowSize : Z := DAYS.

(** Indices of the collectives in [construct_runtime]. *)
Definition COUNCIL_INDEX : Z := 40.
Definition TECHNICAL_COMMITTEE_INDEX : Z := 42.
