(* ===== verification/Throttle.v ===== *)
(** * pallet-throttle: the [CheckThrottle] transaction extension

    Models [pallets/throttle/src/check_throttle.rs] and the storage declared in
    [pallets/throttle/src/lib.rs]: per account, the bytes used and the block at
    which its window started.  [validate] is the admission test, [prepare] the
    storage update FRAME runs after a successful [validate]; [apply_extrinsic]
    runs them in that order, and [run] does so for a sequence of attempts. *)

From Stdlib Require Import Sorting.Sorted.
From stdpp Require Import prelude gmap.
From S2P Require Import Prelude Frame Constants.

Open Scope Z_scope.
#[local] Arguments Z.mul : simpl never.

Section Throttle.
Context {AccountId : Type} `{Countable AccountId}.
(** [T::MaxBytes] (a [u64]) and [T::WindowSize] (a [u32]). *)
Context (MaxBytes WindowSize : Z).

(** [AccountUsage]: [(bytes_used, window_start)], a [ValueQuery] map. *)
Definition AccountUsage : Type := gmap AccountId (Z * Z).
Definition usage (u : gmap AccountId (Z * Z)) (who : AccountId) : Z * Z :=
  default (0, 0) (u !! who).

Inductive InvalidTransaction : Type := ExhaustsResources.

(** [origin.as_system_origin_signer()]. *)
Definition as_system_origin_signer (o : RawOrigin AccountId) : option AccountId :=
  match o with Signed who => Some who | _ => None end.

Definition validate (current_block : Z) (u : gmap AccountId (Z * Z))
    (origin : RawOrigin AccountId) (len : Z) : outcome InvalidTransaction (option AccountId) :=
  match as_system_origin_signer origin with
  | None => Ok None
  | Some who =>
      let '(bytes_used, window_start) := usage u who in
      let effective_bytes :=
        if bool_decide (sat_sub current_block window_start >= WindowSize) then 0
        else bytes_used in
      let new_bytes := sat_add 64 effective_bytes len in
      if bool_decide (new_bytes > MaxBytes) then Err ExhaustsResources else Ok (Some who)
  end.

Definition prepare (current_block : Z) (u : gmap AccountId (Z * Z))
    (val : option AccountId) (len : Z) : gmap AccountId (Z * Z) :=
  match val with
  | None => u
  | Some who =>
      let '(bytes_used, window_start) := usage u who in
      let '(bytes_used, window_start) :=
        if bool_decide (sat_sub current_block window_start >= WindowSize)
        then (0, current_block) else (bytes_used, window_start) in
      <[who := (sat_add 64 bytes_used len, window_start)]> u
  end.

(** [weight]: one read in [validate], one read and one write in [prepare]. *)
Definition throttle_weight (db : RuntimeDbWeight) : Weight :=
  saturating_add (reads db 2) (writes db 1).

(** One extrinsic: its block, origin and encoded length. *)
Record attempt : Type := { at_block : Z; origin : RawOrigin AccountId; len : Z }.

Definition apply_extrinsic (u : gmap AccountId (Z * Z)) (a : attempt) :
    bool * gmap AccountId (Z * Z) :=
  match validate (at_block a) u (origin a) (len a) with
  | Ok val => (true, prepare (at_block a) u val (len a))
  | _ => (false, u)
  end.

Fixpoint run (u : gmap AccountId (Z * Z)) (l : list attempt) : gmap AccountId (Z * Z) :=
  match l with [] => u | a :: l => run (snd (apply_extrinsic u a)) l end.

(** Bytes of [who] let through in the blocks [lo .. hi - 1]. *)
Fixpoint accepted_bytes (who : AccountId) (lo hi : Z) (u : gmap AccountId (Z * Z))
    (l : list attempt) : Z :=
  match l with
  | [] => 0
  | a :: l =>
      let '(ok, u') := apply_extrinsic u a in
      (if ok && bool_decide (origin a = Signed who ∧ lo ≤ at_block a < hi)
       then len a else 0) + accepted_bytes who lo hi u' l
  end.

(** Extrinsics arrive in block order and have a length that is a [u64]. *)
Definition ordered (l : list attempt) : Prop :=
  StronglySorted (λ a b, at_block a ≤ at_block b) l.
Definition well_formed (a : attempt) : Prop := in_range 64 (len a).

(** The storage invariant: recorded usage is a [u64] below the limit. *)
Definition usage_ok (u : gmap AccountId (Z * Z)) : Prop :=
  ∀ who, 0 ≤ fst (usage u who) ≤ MaxBytes.

(** ** Lemmas *)

Context (HMax : 0 ≤ MaxBytes < umax 64).

Lemma usage_insert_eq u who p : usage (<[who := p]> u) who = p.
Proof. unfold usage. by rewrite lookup_insert_eq. Qed.
Lemma usage_insert_ne u who who' p :
  who ≠ who' → usage (<[who := p]> u) who' = usage u who'.
Proof. intros. unfold usage. by rewrite lookup_insert_ne. Qed.

(** What an accepted signed extrinsic does to its account, with the window
    expired and not. *)
Lemma apply_signed u b who n :
  apply_extrinsic u {| at_block := b; origin := Signed who; len := n |} =
    let '(used, start) := usage u who in
    let '(used, start) :=
      if bool_decide (sat_sub b start >= WindowSize) then (0, b) else (used, start) in
    if bool_decide (sat_add 64 used n > MaxBytes) then (false, u)
    else (true, <[who := (sat_add 64 used n, start)]> u).
Proof.
  unfold apply_extrinsic, validate, prepare; simpl.
  destruct (usage u who) as [used start] eqn:Eu.
  destruct (bool_decide (sat_sub b start >= WindowSize)) eqn:Eb;
    destruct (bool_decide (_ > MaxBytes)); simpl; rewrite ?Eu, ?Eb; done.
Qed.

(** Acceptance in one step: the allowance in force covers the extrinsic. *)
Lemma apply_accept u b who n used start :
  usage u who = (used, start) →
  let '(used, start) :=
    if bool_decide (sat_sub b start >= WindowSize) then (0, b) else (used, start) in
  0 ≤ used + n ≤ MaxBytes →
  apply_extrinsic u {| at_block := b; origin := Signed who; len := n |} =
    (true, <[who := (used + n, start)]> u).
Proof.
  intros Eu. case_bool_decide as Hw; intros Hn; rewrite apply_signed, Eu;
    [rewrite bool_decide_eq_true_2 by done|rewrite bool_decide_eq_false_2 by done];
    (rewrite bool_decide_eq_false_2 by (unfold sat_add in *; lia));
    repeat f_equal; unfold sat_add in *; lia.
Qed.

Lemma apply_other u a who :
  origin a ≠ Signed who → usage (snd (apply_extrinsic u a)) who = usage u who.
Proof.
  destruct a as [b [|w|] n]; simpl; intros Hne; try done.
  rewrite apply_signed. destruct (usage u w) as [used start] eqn:Hu.
  destruct (if bool_decide _ then _ else _) as [used' start'].
  case_bool_decide; [done|]. simpl. apply usage_insert_ne. congruence.
Qed.

Lemma apply_usage_ok u a :
  well_formed a → usage_ok u → usage_ok (snd (apply_extrinsic u a)).
Proof.
  intros Hwf Hu who. destruct (decide (origin a = Signed who)) as [Ho|Ho];
    [|by rewrite apply_other].
  destruct a as [b o n]; simpl in *; subst o.
  rewrite apply_signed. pose proof (Hu who) as Hw.
  destruct (usage u who) as [used start] eqn:Eu; simpl in *.
  destruct Hwf as [Hn _]; simpl in Hn.
  case_bool_decide; case_bool_decide; simpl; rewrite ?Eu, ?usage_insert_eq; simpl;
    try done; unfold sat_add in *; lia.
Qed.

Lemma accepted_after who lo hi u l :
  Forall (λ a, hi ≤ at_block a) l → accepted_bytes who lo hi u l = 0.
Proof.
  intros Hl. revert u; induction Hl as [|a l Ha _ IH]; intros u; simpl; [done|].
  destruct (apply_extrinsic u a) as [ok u'].
  rewrite bool_decide_eq_false_2 by lia. by rewrite andb_false_r, IH.
Qed.

(** Inside [lo .. hi - 1] with [hi <= lo + WindowSize], an account whose window
    reaches [hi] has only its remaining allowance left, any other account at
    most one fresh allowance more. *)
Lemma accepted_within who lo hi u l :
  hi ≤ lo + WindowSize → ordered l → Forall well_formed l → usage_ok u →
  Forall (λ a, lo ≤ at_block a) l →
  accepted_bytes who lo hi u l ≤
    (if decide (hi ≤ snd (usage u who) + WindowSize) then MaxBytes else 2 * MaxBytes)
    - fst (usage u who).
Proof.
  intros Hhi. revert u; induction l as [|a l IH]; intros u Hord Hwf Hu Hlo; simpl.
  { pose proof (Hu who). case_decide; lia. }
  destruct (decide (hi ≤ at_block a)) as [Hafter|Hafter].
  { pose proof (Hu who). pose proof (accepted_after who lo hi u (a :: l)) as Hz.
    simpl in Hz. rewrite Hz; [clear Hz IH; destruct (decide (hi ≤ _)); lia|]. constructor; [done|].
    inversion_clear Hord as [|? ? _ Hal]. eapply Forall_impl; [exact Hal|]. intros; simpl in *; lia. }
  inversion_clear Hord as [|? ? Hl Hal]. inversion_clear Hwf as [|? ? Hwa Hwl].
  inversion_clear Hlo as [|? ? Hla Hll].
  pose proof (apply_usage_ok u a Hwa Hu) as Hu'.
  specialize (IH (snd (apply_extrinsic u a)) Hl Hwl Hu' Hll).
  destruct (decide (origin a = Signed who)) as [Ho|Ho].
  2:{ rewrite apply_other in IH by done. destruct (apply_extrinsic u a) as [ok u']; simpl in *.
      rewrite bool_decide_eq_false_2 by (by intros []). rewrite andb_false_r. lia. }
  destruct a as [b o n]; simpl in *; subst o.
  rewrite apply_signed in *. pose proof (Hu who) as Hw.
  destruct (usage u who) as [used start] eqn:Eu; simpl in *.
  destruct Hwa as [Hn _]; simpl in Hn.
  case_bool_decide as Hexp; case_bool_decide as Hbig; simpl in *;
    rewrite ?usage_insert_eq, ?Eu in IH; simpl in *; try lia.
  - unfold sat_add, sat_sub in *. case_bool_decide; repeat case_decide; lia.
  - unfold sat_add, sat_sub in *. case_bool_decide; repeat case_decide; lia.
Qed.

Lemma accepted_any_window who lo hi u l :
  hi ≤ lo + WindowSize → ordered l → Forall well_formed l → usage_ok u →
  accepted_bytes who lo hi u l ≤ 2 * MaxBytes.
Proof.
  intros Hhi. revert u; induction l as [|a l IH]; intros u Hord Hwf Hu; simpl; [lia|].
  destruct (decide (lo ≤ at_block a)) as [Hlo|Hlo].
  - assert (Forall (λ a, lo ≤ at_block a) (a :: l)) as Hall.
    { constructor; [done|]. inversion_clear Hord as [|? ? _ Hal].
      eapply Forall_impl; [exact Hal|]. intros; simpl in *; lia. }
    pose proof (accepted_within who lo hi u (a :: l) Hhi Hord Hwf Hu Hall) as Hb.
    pose proof (Hu who). simpl in Hb. case_decide; lia.
  - inversion_clear Hord as [|? ? Hl _]. inversion_clear Hwf as [|? ? Hwa Hwl].
    pose proof (apply_usage_ok u a Hwa Hu) as Hu'.
    destruct (apply_extrinsic u a) as [ok u']; simpl in *.
    rewrite bool_decide_eq_false_2 by lia. rewrite andb_false_r, Z.add_0_l. by apply IH.
Qed.


(** ** Properties *)

(** [validate] and [prepare] agree: from any reachable storage, a signed
    extrinsic is admitted exactly when the usage [prepare] would record for its
    account stays within [MaxBytes], and a rejected one changes nothing. *)
Theorem throttle_validate_prepare_agree u b who n :
  (validate b u (Signed who) n = Ok (Some who) ↔
     fst (usage (prepare b u (Some who) n) who) ≤ MaxBytes) ∧
  (validate b u (Signed who) n = Err ExhaustsResources →
     apply_extrinsic u {| at_block := b; origin := Signed who; len := n |} = (false, u)).
Proof.
  clear HMax. unfold apply_extrinsic, validate, prepare; simpl.
  destruct (usage u who) as [used start] eqn:Eu.
  case_bool_decide; case_bool_decide; rewrite usage_insert_eq; simpl;
    (split; [split; [done || lia|intros; done || lia]|done]).
Qed.

(** C37:  along any sequence of extrinsics in block order, the bytes an account
    gets through in any [WindowSize] consecutive blocks are at most twice
    [MaxBytes], and no account's recorded usage ever exceeds [MaxBytes]. *)
Theorem throttle_window_bound l who lo :
  ordered l → Forall well_formed l →
  accepted_bytes who lo (lo + WindowSize) ∅ l ≤ 2 * MaxBytes ∧ usage_ok (run ∅ l).
Proof.
  intros Hord Hwf. assert (usage_ok ∅) as H0.
  { intros w. unfold usage. rewrite lookup_empty. simpl. lia. }
  split; [by apply accepted_any_window|].
  revert H0. generalize (∅ : gmap AccountId (Z * Z)).
  induction Hwf as [|a l Ha _ IH]; intros u Hu; simpl; [done|].
  apply IH; [by inversion_clear Hord|by apply apply_usage_ok].
Qed.

(** the factor two is attained.  The window is fixed, not rolling: an
    account that fills its window in the last block of it gets a second full
    allowance in the next block, so two consecutive blocks carry twice
    [MaxBytes]. *)
Theorem throttle_burst_across_windows who :
  2 ≤ WindowSize →
  accepted_bytes who (2 * WindowSize - 1) (2 * WindowSize + 1) ∅
    [ {| at_block := WindowSize; origin := Signed who; len := 0 |};
      {| at_block := 2 * WindowSize - 1; origin := Signed who; len := MaxBytes |};
      {| at_block := 2 * WindowSize; origin := Signed who; len := MaxBytes |} ] = 2 * MaxBytes.
Proof.
  intros HW. cbn [accepted_bytes].
  pose proof (apply_accept ∅ WindowSize who 0 0 0 eq_refl) as Ha.
  rewrite (bool_decide_eq_true_2 _) in Ha by (unfold sat_sub; lia).
  rewrite Ha by lia; clear Ha. set (u := <[who := _]> ∅).
  pose proof (apply_accept u (2 * WindowSize - 1) who MaxBytes _ _ (usage_insert_eq _ _ _)) as Ha.
  rewrite (bool_decide_eq_false_2 _) in Ha by (unfold sat_sub; lia).
  rewrite Ha by lia; clear Ha. set (u' := <[who := _]> u).
  pose proof (apply_accept u' (2 * WindowSize) who MaxBytes _ _ (usage_insert_eq _ _ _)) as Ha.
  rewrite (bool_decide_eq_true_2 _) in Ha by (unfold sat_sub; lia).
  rewrite Ha by lia; clear Ha. cbn [at_block origin len andb].
  rewrite (bool_decide_eq_false_2 (_ ∧ _ ≤ WindowSize < _)) by lia.
  rewrite !bool_decide_eq_true_2 by (split; [done|lia]). lia.
Qed.

(** throttling is temporary: once [WindowSize] blocks have passed since the
    start of its window, an account may submit up to [MaxBytes] again, whatever
    it used before; extrinsics that are not signed are never throttled. *)
Theorem throttle_recovers u b who n :
  snd (usage u who) + WindowSize ≤ b → 0 ≤ n ≤ MaxBytes →
  validate b u (Signed who) n = Ok (Some who) ∧
  usage (prepare b u (Some who) n) who = (n, b) ∧
  validate b u NoOrigin n = Ok None ∧ prepare b u None n = u.
Proof.
  intros Hb Hn. unfold validate, prepare; simpl.
  destruct (usage u who) as [used start] eqn:Eu; simpl in Hb.
  rewrite (bool_decide_eq_true_2 (sat_sub b start >= WindowSize)) by (unfold sat_sub; lia).
  assert (sat_add 64 0 n = n) as -> by (unfold sat_add in *; lia).
  rewrite bool_decide_eq_false_2 by lia. by rewrite usage_insert_eq.
Qed.
End Throttle.

(** ** The properties at the runtime's constants *)

Lemma throttle_window_bound_witness :
  accepted_bytes ThrottleMaxBytes ThrottleWindowSize 7%positive 100 (100 + ThrottleWindowSize) ∅
    [ {| at_block := 100; origin := Signed 7%positive; len := 2000 |} ] ≤ 2 * ThrottleMaxBytes.
Proof.
  apply (throttle_window_bound ThrottleMaxBytes ThrottleWindowSize); [done| |].
  - repeat constructor.
  - repeat constructor; vm_compute; congruence.
Defined.

Lemma throttle_burst_across_windows_witness :
  2 ≤ ThrottleWindowSize ∧
  accepted_bytes ThrottleMaxBytes ThrottleWindowSize 7%positive 28799 28801 ∅
    [ {| at_block := 14400; origin := Signed 7%positive; len := 0 |};
      {| at_block := 28799; origin := Signed 7%positive; len := 10485760 |};
      {| at_block := 28800; origin := Signed 7%positive; len := 10485760 |} ] = 20971520.
Proof.
  split; [done|].
  refine (throttle_burst_across_windows ThrottleMaxBytes ThrottleWindowSize _ 7%positive _);
    vm_compute; repeat split; congruence.
Defined.

Lemma throttle_recovers_witness :
  validate ThrottleMaxBytes ThrottleWindowSize 20000 {[ 7%positive := (10485760, 100) ]}
    (Signed 7%positive) 500 = Ok (Some 7%positive).
Proof.
  apply (throttle_recovers ThrottleMaxBytes ThrottleWindowSize);
    vm_compute; repeat split; congruence.
Defined.

