(* ===== verification/Weights.v ===== *)
(** * Benchmarked weights of the pallets

    The [WeightInfo] trait of each pallet as a record, with the two
    implementations every generated [weights.rs] has: [SubstrateWeight<T>], which
    charges the runtime's [T::DbWeight], and the implementation for [()], which
    charges [ParityDbWeight].  Both database weights are parameters: the constant
    belongs to [frame_support]. *)

From stdpp Require Import prelude.
From S2P Require Import Prelude Frame.

Open Scope Z_scope.

Notation "a +w b" := (saturating_add a b) (at level 50, left associativity).

(** ** [pallet_federated_authority]: [pallets/federated-authority/src/weights.rs] *)

Record FA_WeightInfo : Type := {
  fa_motion_approve : Z → Weight;
  fa_motion_approve_new : Weight;
  fa_motion_approve_ended : Weight;
  fa_motion_approve_already_approved : Z → Weight;
  fa_motion_approve_exceeds_bounds : Weight;
  fa_motion_revoke : Z → Weight;
  fa_motion_revoke_ended : Weight;
  fa_motion_revoke_not_found : Weight;
  fa_motion_revoke_approval_missing : Z → Weight;
  fa_motion_revoke_remove : Weight;
  fa_motion_close_still_ongoing : Weight;
  fa_motion_close_expired : Weight;
  fa_motion_close_approved : Weight;
  fa_motion_close_not_found : Weight;
}.

Definition FA_SubstrateWeight (DbWeight : RuntimeDbWeight) : FA_WeightInfo := {|
  fa_motion_approve := λ a, from_parts 10000000 3642
    +w reads DbWeight 1
    +w writes DbWeight 1
    +w saturating_mul (from_parts 0 5) a;
  fa_motion_approve_new := from_parts 8000000 3579
    +w reads DbWeight 1
    +w writes DbWeight 1;
  fa_motion_approve_ended := from_parts 7000000 3652
    +w reads DbWeight 1;
  fa_motion_approve_already_approved := λ a, from_parts 5500000 3648
    +w saturating_mul (from_parts 500000 0) a
    +w reads DbWeight 1
    +w saturating_mul (from_parts 0 4) a;
  fa_motion_approve_exceeds_bounds := from_parts 7000000 3656
    +w reads DbWeight 1;
  fa_motion_revoke := λ a, from_parts 12640000 3648
    +w reads DbWeight 1
    +w writes DbWeight 1
    +w saturating_mul (from_parts 0 4) a;
  fa_motion_revoke_ended := from_parts 6000000 3656
    +w reads DbWeight 1;
  fa_motion_revoke_not_found := from_parts 4000000 3579
    +w reads DbWeight 1;
  fa_motion_revoke_approval_missing := λ a, from_parts 5740000 3648
    +w saturating_mul (from_parts 130000 0) a
    +w reads DbWeight 1
    +w saturating_mul (from_parts 0 4) a;
  fa_motion_revoke_remove := from_parts 11000000 3652
    +w reads DbWeight 1
    +w writes DbWeight 1;
  fa_motion_close_still_ongoing := from_parts 6000000 3652
    +w reads DbWeight 1;
  fa_motion_close_expired := from_parts 12000000 3652
    +w reads DbWeight 1
    +w writes DbWeight 1;
  fa_motion_close_approved := from_parts 13000000 3656
    +w reads DbWeight 1
    +w writes DbWeight 1;
  fa_motion_close_not_found := from_parts 4000000 3579
    +w reads DbWeight 1;
|}.

Definition FA_UnitWeight (ParityDbWeight : RuntimeDbWeight) : FA_WeightInfo := {|
  fa_motion_approve := λ a, from_parts 10000000 3642
    +w reads ParityDbWeight 1
    +w writes ParityDbWeight 1
    +w saturating_mul (from_parts 0 5) a;
  fa_motion_approve_new := from_parts 8000000 3579
    +w reads ParityDbWeight 1
    +w writes ParityDbWeight 1;
  fa_motion_approve_ended := from_parts 7000000 3652
    +w reads ParityDbWeight 1;
  fa_motion_approve_already_approved := λ a, from_parts 5500000 3648
    +w saturating_mul (from_parts 500000 0) a
    +w reads ParityDbWeight 1
    +w saturating_mul (from_parts 0 4) a;
  fa_motion_approve_exceeds_bounds := from_parts 7000000 3656
    +w reads ParityDbWeight 1;
  fa_motion_revoke := λ a, from_parts 12640000 3648
    +w reads ParityDbWeight 1
    +w writes ParityDbWeight 1
    +w saturating_mul (from_parts 0 4) a;
  fa_motion_revoke_ended := from_parts 6000000 3656
    +w reads ParityDbWeight 1;
  fa_motion_revoke_not_found := from_parts 4000000 3579
    +w reads ParityDbWeight 1;
  fa_motion_revoke_approval_missing := λ a, from_parts 5740000 3648
    +w saturating_mul (from_parts 130000 0) a
    +w reads ParityDbWeight 1
    +w saturating_mul (from_parts 0 4) a;
  fa_motion_revoke_remove := from_parts 11000000 3652
    +w reads ParityDbWeight 1
    +w writes ParityDbWeight 1;
  fa_motion_close_still_ongoing := from_parts 6000000 3652
    +w reads ParityDbWeight 1;
  fa_motion_close_expired := from_parts 12000000 3652
    +w reads ParityDbWeight 1
    +w writes ParityDbWeight 1;
  fa_motion_close_approved := from_parts 13000000 3656
    +w reads ParityDbWeight 1
    +w writes ParityDbWeight 1;
  fa_motion_close_not_found := from_parts 4000000 3579
    +w reads ParityDbWeight 1;
|}.

(** ** [pallet_federated_authority_observation]: [pallets/federated-authority-observation/src/weights.rs] *)

Record FAO_WeightInfo : Type := {
  fao_reset_members_only_council : Z → Z → Weight;
  fao_reset_members_only_technical_committee : Z → Z → Weight;
  fao_reset_members : Z → Z → Weight;
  fao_reset_members_none : Z → Z → Weight;
  fao_set_council_address : Weight;
  fao_set_technical_committee_address : Weight;
  fao_set_council_policy_id : Weight;
  fao_set_technical_committee_policy_id : Weight;
}.

Definition FAO_SubstrateWeight (DbWeight : RuntimeDbWeight) : FAO_WeightInfo := {|
  fao_reset_members_only_council := λ a b, from_parts 30625000 3529
    +w saturating_mul (from_parts 125000 0) a
    +w saturating_mul (from_parts 250000 0) b
    +w reads DbWeight 7
    +w writes DbWeight 5
    +w saturating_mul (from_parts 0 101) a
    +w saturating_mul (from_parts 0 61) b;
  fao_reset_members_only_technical_committee := λ a b, from_parts 26750000 3529
    +w saturating_mul (from_parts 312500 0) a
    +w saturating_mul (from_parts 437500 0) b
    +w reads DbWeight 7
    +w writes DbWeight 5
    +w saturating_mul (from_parts 0 61) a
    +w saturating_mul (from_parts 0 92) b;
  fao_reset_members := λ a b, from_parts 42250000 6068
    +w saturating_mul (from_parts 375000 0) a
    +w saturating_mul (from_parts 375000 0) b
    +w reads DbWeight 10
    +w writes DbWeight 10
    +w saturating_mul (from_parts 0 101) a
    +w saturating_mul (from_parts 0 92) b;
  fao_reset_members_none := λ a b, from_parts 14277777 1948
    +w saturating_mul (from_parts 55555 0) a
    +w saturating_mul (from_parts 166666 0) b
    +w reads DbWeight 4
    +w saturating_mul (from_parts 0 60) a
    +w saturating_mul (from_parts 0 60) b;
  fao_set_council_address := from_parts 3000000 0
    +w writes DbWeight 1;
  fao_set_technical_committee_address := from_parts 2000000 0
    +w writes DbWeight 1;
  fao_set_council_policy_id := from_parts 2000000 0
    +w writes DbWeight 1;
  fao_set_technical_committee_policy_id := from_parts 2000000 0
    +w writes DbWeight 1;
|}.

Definition FAO_UnitWeight (ParityDbWeight : RuntimeDbWeight) : FAO_WeightInfo := {|
  fao_reset_members_only_council := λ a b, from_parts 30625000 3529
    +w saturating_mul (from_parts 125000 0) a
    +w saturating_mul (from_parts 250000 0) b
    +w reads ParityDbWeight 7
    +w writes ParityDbWeight 5
    +w saturating_mul (from_parts 0 101) a
    +w saturating_mul (from_parts 0 61) b;
  fao_reset_members_only_technical_committee := λ a b, from_parts 26750000 3529
    +w saturating_mul (from_parts 312500 0) a
    +w saturating_mul (from_parts 437500 0) b
    +w reads ParityDbWeight 7
    +w writes ParityDbWeight 5
    +w saturating_mul (from_parts 0 61) a
    +w saturating_mul (from_parts 0 92) b;
  fao_reset_members := λ a b, from_parts 42250000 6068
    +w saturating_mul (from_parts 375000 0) a
    +w saturating_mul (from_parts 375000 0) b
    +w reads ParityDbWeight 10
    +w writes ParityDbWeight 10
    +w saturating_mul (from_parts 0 101) a
    +w saturating_mul (from_parts 0 92) b;
  fao_reset_members_none := λ a b, from_parts 14277777 1948
    +w saturating_mul (from_parts 55555 0) a
    +w saturating_mul (from_parts 166666 0) b
    +w reads ParityDbWeight 4
    +w saturating_mul (from_parts 0 60) a
    +w saturating_mul (from_parts 0 60) b;
  fao_set_council_address := from_parts 3000000 0
    +w writes ParityDbWeight 1;
  fao_set_technical_committee_address := from_parts 2000000 0
    +w writes ParityDbWeight 1;
  fao_set_council_policy_id := from_parts 2000000 0
    +w writes ParityDbWeight 1;
  fao_set_technical_committee_policy_id := from_parts 2000000 0
    +w writes ParityDbWeight 1;
|}.

(** ** [pallet_system_parameters]: [pallets/system-parameters/src/weights.rs] *)

Record SP_WeightInfo : Type := {
  sp_update_terms_and_conditions : Weight;
  sp_update_d_parameter : Weight;
}.

Definition SP_SubstrateWeight (DbWeight : RuntimeDbWeight) : SP_WeightInfo := {|
  sp_update_terms_and_conditions := from_parts 7000000 0
    +w writes DbWeight 1;
  sp_update_d_parameter := from_parts 6000000 0
    +w writes DbWeight 1;
|}.

Definition SP_UnitWeight (ParityDbWeight : RuntimeDbWeight) : SP_WeightInfo := {|
  sp_update_terms_and_conditions := from_parts 7000000 0
    +w writes ParityDbWeight 1;
  sp_update_d_parameter := from_parts 6000000 0
    +w writes ParityDbWeight 1;
|}.

(** ** [pallet_cnight_observation]: [pallets/cnight-observation/src/weights.rs] *)

Record CN_WeightInfo : Type := { cn_process_tokens : Z → Weight }.

Definition CN_SubstrateWeight (DbWeight : RuntimeDbWeight) : CN_WeightInfo := {|
  cn_process_tokens := λ n, from_parts 15000000 1500
    +w saturating_mul (from_parts 5000000 200) n
    +w reads DbWeight 2
    +w reads DbWeight (sat_mul 64 2 n)
    +w writes DbWeight 2
    +w writes DbWeight (sat_mul 64 1 n);
|}.

Definition CN_UnitWeight : CN_WeightInfo := {| cn_process_tokens := λ _, weight_zero |}.

(** ** [pallet_version]: [pallets/version/src/weights.rs] *)

Record V_WeightInfo : Type := { v_on_initialize : Weight }.

Definition V_VersionWeight : V_WeightInfo := {| v_on_initialize := weight_zero |}.
Definition V_UnitWeight (ParityDbWeight : RuntimeDbWeight) : V_WeightInfo :=
  {| v_on_initialize := weight_zero +w writes ParityDbWeight 1 |}.
