(* ===== verification/FedAuthority.v ===== *)
(** * pallet-federated-authority: motions approved by several bodies

    Models [pallets/federated-authority/src/lib.rs] and [types.rs]: motions kept
    under the hash of their call, approved and revoked by authority bodies (each a
    collective that passes an origin check) and closed by anyone, which dispatches
    the call as [Root] when enough bodies approve it.

    The runtime call type, its hash and its dispatch belong to the runtime and to
    FRAME and are fields of [Config]; the dispatched call runs on the whole state,
    of which [world] is the part that belongs to other pallets. *)

From stdpp Require Import prelude gmap.
From S2P Require Import Prelude Frame Constants Weights.

Open Scope Z_scope.

(** ** [types.rs] *)

Definition AuthId : Type := Z.

(** [FederatedAuthorityEnsureProportionAtLeast<N, D>::reached_proportion], on
    [u32] with release-mode overflow. *)
Definition reached_proportion (N D : Z) (n d : Z) : bool :=
  bool_decide (wrap 32 (n * D) >= wrap 32 (N * d)).

Section FedAuthority.
Context {Origin AccountId Call Hash World F : Type} `{Countable Hash}.

(** [AuthorityBody<P, EnsureProportion>]: [P::index()] and
    [EnsureProportion::try_origin]. *)
Record AuthorityBody : Type := { index : AuthId; body_try_origin : Origin → bool }.

(** [EnsureFromIdentity] for one body and for a tuple of bodies. *)
Definition body_ensure_from_bodies (b : AuthorityBody) (o : Origin) : option AuthId :=
  if body_try_origin b o then Some (index b) else None.
Fixpoint ensure_from_bodies (bodies : list AuthorityBody) (o : Origin) : option AuthId :=
  match bodies with
  | [] => None
  | b :: bodies =>
      match body_ensure_from_bodies b o with
      | Some auth_origin_info => Some auth_origin_info
      | None => ensure_from_bodies bodies o
      end
  end.

(** [FederatedAuthorityOriginManager<Authorities>] as an [EnsureOrigin]. *)
Definition try_origin (bodies : list AuthorityBody) (o : Origin) : option AuthId :=
  ensure_from_bodies bodies o.

(** ** Storage, errors, events *)

Record MotionInfo : Type := { approvals : gset AuthId; ends_block : Z; call : Call }.

Inductive Error : Type :=
| MotionAlreadyApproved
| MotionApprovalMissing
| MotionApprovalExceedsBounds
| MotionNotFound
| MotionNotEnded
| MotionHasEnded
| MotionTooEarlyToClose
| MotionAlreadyExists
| Error_MotionExpired.

Inductive Event : Type :=
| MotionApproved (motion_hash : Hash) (auth_id : AuthId)
| MotionDispatched (motion_hash : Hash) (motion_result : outcome (DispatchError Error F) unit)
| MotionExpired (motion_hash : Hash)
| MotionRevoked (motion_hash : Hash) (auth_id : AuthId)
| MotionRemoved (motion_hash : Hash).

Record State : Type := {
  Motions : gmap Hash MotionInfo;
  events : list Event;
  block_number : Z;
  world : World;
}.
Definition set_Motions (m : gmap Hash MotionInfo) (s : State) : State :=
  {| Motions := m; events := events s; block_number := block_number s; world := world s |}.
Definition deposit_event {E} (e : Event) : M State E unit :=
  modify (λ s, {| Motions := Motions s; events := events s ++ [e];
                  block_number := block_number s; world := world s |}).

Record Config : Type := {
  MaxAuthorityBodies : Z;
  MotionDuration : Z;
  MotionApprovalProportion : Z → Z → bool;
  MotionApprovalOrigin : list AuthorityBody;
  MotionRevokeOrigin : list AuthorityBody;
  WeightInfo : FA_WeightInfo;
  (** The runtime: [T::Hashing::hash_of], [RawOrigin::Root.into()],
      [ensure_signed], [get_dispatch_info().call_weight] and [dispatch]. *)
  hash_of : Call → Hash;
  root_origin : Origin;
  signer : Origin → option AccountId;
  call_weight : Call → Weight;
  dispatch : Call → Origin → M State (ErrorWithPostInfo Error F) PostDispatchInfo;
}.

Context (T : Config).

(** The number of elements of a set bounded by a [u32], [len() as u32]. *)
Definition len (s : gset AuthId) : Z := Z.of_nat (size s).

Definition ensure_origin {S} (bodies : list AuthorityBody) (o : Origin) :
    M S (DispatchError Error F) AuthId :=
  match try_origin bodies o with Some a => mret a | None => throw BadOrigin end.

Definition ensure_signed_origin {S} (o : Origin) : M S (DispatchError Error F) AccountId :=
  match signer T o with Some who => mret who | None => throw BadOrigin end.

(** ** Helpers of the pallet *)

Definition has_ended (now : Z) (m : MotionInfo) : bool := bool_decide (now >= ends_block m).

Definition is_motion_approved (total_approvals : Z) : bool :=
  MotionApprovalProportion T total_approvals (MaxAuthorityBodies T).

Definition motion_remove {E} (motion_hash : Hash) : M State E unit :=
  modify (λ s, set_Motions (delete motion_hash (Motions s)) s) ;;
  deposit_event (MotionRemoved motion_hash).

Definition no_fee (w : Weight) : PostDispatchInfo :=
  {| actual_weight := Some w; pays_fee := PaysNo |}.

(** ** [motion_approve] *)

(** The closure given to [Motions::try_mutate]. *)
Definition approve_mutation (now : Z) (auth_id : AuthId) (c : Call)
    (maybe_motion : option MotionInfo) :
    outcome (Error * Z) ((bool * Z) * option MotionInfo) :=
  match maybe_motion with
  | Some motion =>
      let total_approvals := len (approvals motion) in
      if has_ended now motion then Err (MotionHasEnded, total_approvals)
      else
        match try_insert (MaxAuthorityBodies T) auth_id (approvals motion) with
        | (Inserted true, a) =>
            Ok ((false, total_approvals),
                Some {| approvals := a; ends_block := ends_block motion; call := call motion |})
        | (Inserted false, _) => Err (MotionAlreadyApproved, total_approvals)
        | (NoRoom, _) => Err (MotionApprovalExceedsBounds, total_approvals)
        end
  | None =>
      match try_insert (MaxAuthorityBodies T) auth_id ∅ with
      | (Inserted _, a) =>
          Ok ((true, 1),
              Some {| approvals := a; ends_block := sat_add 32 now (MotionDuration T); call := c |})
      | (NoRoom, _) => Err (MotionApprovalExceedsBounds, 0)
      end
  end.

Definition approve_error (x : Error * Z) : ErrorWithPostInfo Error F :=
  let '(err, total_approvals) := x in
  match err with
  | MotionHasEnded =>
      {| post_info := no_fee (fa_motion_approve_ended (WeightInfo T)); error := Module err |}
  | MotionAlreadyApproved =>
      {| post_info := no_fee (fa_motion_approve_already_approved (WeightInfo T) total_approvals);
         error := Module err |}
  | MotionApprovalExceedsBounds =>
      {| post_info := no_fee (fa_motion_approve_exceeds_bounds (WeightInfo T));
         error := Module err |}
  | _ => with_default_info (Module err)
  end.

Definition motion_approve_body (origin : Origin) (c : Call) :
    M State (ErrorWithPostInfo Error F) PostDispatchInfo :=
  auth_id ← into_post_info (ensure_origin (MotionApprovalOrigin T) origin);
  let motion_hash := hash_of T c in
  now ← gets block_number;
  '(is_new, total_approvals) ← with_err approve_error
     (zoom Motions set_Motions (try_mutate motion_hash (approve_mutation now auth_id c)));
  deposit_event (MotionApproved motion_hash auth_id) ;;
  mret (no_fee (if is_new : bool then fa_motion_approve_new (WeightInfo T)
                else fa_motion_approve (WeightInfo T) total_approvals)).

(** ** [motion_revoke] *)

Definition revoke_mutation (now : Z) (auth_id : AuthId) (maybe_motion : option MotionInfo) :
    outcome (Error * Z) ((Z * Z) * option MotionInfo) :=
  match maybe_motion with
  | None => Err (MotionNotFound, 0)
  | Some motion =>
      let initial_count := len (approvals motion) in
      if has_ended now motion then Err (MotionHasEnded, initial_count)
      else if bool_decide (auth_id ∈ approvals motion) then
        let a := approvals motion ∖ {[ auth_id ]} in
        Ok ((len a, initial_count),
            Some {| approvals := a; ends_block := ends_block motion; call := call motion |})
      else Err (MotionApprovalMissing, initial_count)
  end.

Definition revoke_error (x : Error * Z) : ErrorWithPostInfo Error F :=
  let '(err, n) := x in
  match err with
  | MotionNotFound =>
      {| post_info := no_fee (fa_motion_revoke_not_found (WeightInfo T)); error := Module err |}
  | MotionHasEnded =>
      {| post_info := no_fee (fa_motion_revoke_ended (WeightInfo T)); error := Module err |}
  | MotionApprovalMissing =>
      {| post_info := no_fee (fa_motion_revoke_approval_missing (WeightInfo T) n);
         error := Module err |}
  | _ => with_default_info (Module err)
  end.

Definition motion_revoke_body (origin : Origin) (motion_hash : Hash) :
    M State (ErrorWithPostInfo Error F) PostDispatchInfo :=
  auth_id ← into_post_info (ensure_origin (MotionRevokeOrigin T) origin);
  now ← gets block_number;
  '(final_approvals, initial_approvals) ← with_err revoke_error
     (zoom Motions set_Motions (try_mutate motion_hash (revoke_mutation now auth_id)));
  deposit_event (MotionRevoked motion_hash auth_id) ;;
  if bool_decide (final_approvals = 0) then
    motion_remove motion_hash ;;
    mret (no_fee (fa_motion_revoke_remove (WeightInfo T)))
  else mret (no_fee (fa_motion_revoke (WeightInfo T) initial_approvals)).

(** ** [motion_close] *)

Context `{StorageLayers}.

(** The call of an approved motion, dispatched as [Root] in a layer of its own. *)
Definition dispatch_motion (motion : MotionInfo) : M State (DispatchError Error F) unit :=
  with_storage_layer
    (with_err error (dispatch T (call motion) (root_origin T)) ;; mret tt).

Definition motion_close_body (origin : Origin) (motion_hash : Hash) :
    M State (ErrorWithPostInfo Error F) PostDispatchInfo :=
  into_post_info (ensure_signed_origin origin) ;;
  motions ← gets Motions;
  motion ← lift (ok_or (motions !! motion_hash)
    {| post_info := no_fee (fa_motion_close_not_found (WeightInfo T));
       error := Module MotionNotFound |});
  now ← gets block_number;
  let total_approvals := len (approvals motion) in
  let has_ended := has_ended now motion in
  if is_motion_approved total_approvals then
    let dispatch_weight := call_weight T (call motion) in
    motion_result ← reify (dispatch_motion motion);
    deposit_event (MotionDispatched motion_hash motion_result) ;;
    motion_remove motion_hash ;;
    into_post_info (lift motion_result) ;;
    mret (no_fee (saturating_add (fa_motion_close_approved (WeightInfo T)) dispatch_weight))
  else if negb has_ended then
    throw {| post_info := no_fee (fa_motion_close_still_ongoing (WeightInfo T));
             error := Module MotionNotEnded |}
  else
    deposit_event (MotionExpired motion_hash) ;;
    motion_remove motion_hash ;;
    mret (no_fee (fa_motion_close_expired (WeightInfo T))).

(** ** The dispatchables, each in the storage layer FRAME puts around a call *)

Definition motion_approve (origin : Origin) (c : Call) := 
  with_storage_layer (motion_approve_body origin c).
Definition motion_revoke (origin : Origin) (h : Hash) :=
  with_storage_layer (motion_revoke_body origin h).
Definition motion_close (origin : Origin) (h : Hash) :=
  with_storage_layer (motion_close_body origin h).

Inductive Extrinsic : Type :=
| Approve (origin : Origin) (c : Call)
| Revoke (origin : Origin) (h : Hash)
| Close (origin : Origin) (h : Hash).

Definition execute (x : Extrinsic) : M State (ErrorWithPostInfo Error F) PostDispatchInfo :=
  match x with
  | Approve o c => motion_approve o c
  | Revoke o h => motion_revoke o h
  | Close o h => motion_close o h
  end.

(** The weights of the [#[pallet::weight(..)]] attributes. *)
Definition declared_weight (x : Extrinsic) : Weight :=
  match x with
  | Approve _ _ => fa_motion_approve (WeightInfo T) (MaxAuthorityBodies T)
  | Revoke _ _ =>
      weight_max (fa_motion_revoke (WeightInfo T) (MaxAuthorityBodies T))
                 (fa_motion_revoke_remove (WeightInfo T))
  | Close _ _ =>
      weight_max (fa_motion_close_approved (WeightInfo T)) (fa_motion_close_expired (WeightInfo T))
  end.

(** ** The extrinsics as equations *)

Definition add_event (e : Event) (s : State) : State :=
  {| Motions := Motions s; events := events s ++ [e];
     block_number := block_number s; world := world s |}.

(** The state after [motion_remove]. *)
Definition removed (h : Hash) (s : State) : State :=
  add_event (MotionRemoved h) (set_Motions (delete h (Motions s)) s).

Definition committed (h : Hash) (v : option MotionInfo) (e : Event) (s : State) : State :=
  add_event e (set_Motions (partial_alter (λ _, v) h (Motions s)) s).

Lemma motion_approve_eq o c s :
  motion_approve o c s =
  match try_origin (MotionApprovalOrigin T) o with
  | None => (Err (with_default_info BadOrigin), s)
  | Some a =>
      match approve_mutation (block_number s) a c (Motions s !! hash_of T c) with
      | Ok ((is_new, n), v) =>
          (Ok (no_fee (if is_new : bool then fa_motion_approve_new (WeightInfo T)
                       else fa_motion_approve (WeightInfo T) n)),
           committed (hash_of T c) v (MotionApproved (hash_of T c) a) s)
      | Err e => (Err (approve_error e), s)
      | Panic => (Panic, s)
      end
  end.
Proof.
  assert (∀ m, approve_mutation (block_number s) m c (Motions s !! hash_of T c) ≠ Panic) as Hnp.
  { intros a. unfold approve_mutation. by repeat case_match. }
  unfold motion_approve. rewrite with_storage_layer_eq; unfold motion_approve_body;
    mrun; unfold ensure_origin, into_post_info, with_err, try_mutate; mrun;
    destruct (try_origin _ o) as [a|]; simpl; try done; specialize (Hnp a);
    by destruct (approve_mutation _ _ _ _) as [[[[] n] v]|e|].
Qed.

Lemma motion_revoke_eq o h s :
  motion_revoke o h s =
  match try_origin (MotionRevokeOrigin T) o with
  | None => (Err (with_default_info BadOrigin), s)
  | Some a =>
      match revoke_mutation (block_number s) a (Motions s !! h) with
      | Ok ((n', n), v) =>
          let s' := committed h v (MotionRevoked h a) s in
          if bool_decide (n' = 0) then
            (Ok (no_fee (fa_motion_revoke_remove (WeightInfo T))), removed h s')
          else (Ok (no_fee (fa_motion_revoke (WeightInfo T) n)), s')
      | Err e => (Err (revoke_error e), s)
      | Panic => (Panic, s)
      end
  end.
Proof.
  assert (∀ m, revoke_mutation (block_number s) m (Motions s !! h) ≠ Panic) as Hnp.
  { intros a. unfold revoke_mutation. by repeat case_match. }
  unfold motion_revoke. rewrite with_storage_layer_eq; unfold motion_revoke_body;
    mrun; unfold ensure_origin, into_post_info, with_err, try_mutate; mrun;
    destruct (try_origin _ o) as [a|]; simpl; try done; specialize (Hnp a);
    destruct (revoke_mutation _ _ _) as [[[n' n] v]|e|]; try done; simpl;
    by destruct (bool_decide (n' = 0)).
Qed.

(** Closing, given what the dispatch of the call does.  A dispatch error leaves
    the whole state as it was: it is returned from the body, whose layer undoes
    the event and the removal. *)
Lemma motion_close_eq o h s r s1 :
  (∀ m, Motions s !! h = Some m → dispatch_motion m s = (r, s1)) → r ≠ Panic →
  motion_close o h s =
  match signer T o, Motions s !! h with
  | None, _ => (Err (with_default_info BadOrigin), s)
  | _, None => (Err {| post_info := no_fee (fa_motion_close_not_found (WeightInfo T));
                       error := Module MotionNotFound |}, s)
  | _, Some m =>
      if is_motion_approved (len (approvals m)) then
        match r with
        | Ok tt => (Ok (no_fee (saturating_add (fa_motion_close_approved (WeightInfo T))
                                               (call_weight T (call m)))),
                    removed h (add_event (MotionDispatched h (Ok tt)) s1))
        | Err e => (Err (with_default_info e), s)
        | Panic => (Panic, s)
        end
      else if has_ended (block_number s) m then
        (Ok (no_fee (fa_motion_close_expired (WeightInfo T))),
         removed h (add_event (MotionExpired h) s))
      else (Err {| post_info := no_fee (fa_motion_close_still_ongoing (WeightInfo T));
                   error := Module MotionNotEnded |}, s)
  end.
Proof.
  intros Hd Hr. unfold motion_close.
  rewrite with_storage_layer_eq; unfold motion_close_body; mrun;
    unfold ensure_signed_origin, into_post_info, with_err; mrun;
    destruct (signer T o) as [who|]; simpl; try done;
    destruct (Motions s !! h) as [m|]; simpl; try done;
    (destruct (is_motion_approved _);
      [rewrite (Hd m eq_refl); by destruct r as [[]|e|]
      |by destruct (has_ended (block_number s) m)]).
Qed.

(** A motion that is not approved and has not ended cannot be closed. *)
Lemma motion_close_pending o h s :
  (∀ m, Motions s !! h = Some m →
    is_motion_approved (len (approvals m)) = false ∧ has_ended (block_number s) m = false) →
  ∃ e, motion_close o h s = (Err e, s).
Proof.
  intros Hm. assert (∃ e s', motion_close_body o h s = (Err e, s')) as (e & s' & Hb).
  { unfold motion_close_body; mrun; unfold ensure_signed_origin, into_post_info, with_err; mrun.
    destruct (signer T o) as [who|]; simpl; [|by eexists _, _].
    destruct (Motions s !! h) as [m|]; simpl; [|by eexists _, _].
    destruct (Hm m eq_refl) as [-> ->]. by eexists _, _. }
  exists e. exact (layer_rollback _ _ _ _ Hb).
Qed.

(** Inversion: what a call that returned has done. *)
Lemma motion_approve_inv o c s r s' :
  motion_approve o c s = (r, s') →
  (∃ e, r = Err e ∧ s' = s) ∨
  (∃ info a m', r = Ok info ∧ try_origin (MotionApprovalOrigin T) o = Some a ∧
     s' = committed (hash_of T c) (Some m') (MotionApproved (hash_of T c) a) s ∧
     match Motions s !! hash_of T c with
     | None => m' = {| approvals := {[a]}; call := c;
                       ends_block := sat_add 32 (block_number s) (MotionDuration T) |} ∧
               0 < MaxAuthorityBodies T
     | Some m => m' = {| approvals := {[a]} ∪ approvals m; ends_block := ends_block m;
                         call := call m |} ∧
                 (a ∉ approvals m) ∧ len (approvals m) < MaxAuthorityBodies T ∧
                 block_number s < ends_block m
     end).
Proof.
  rewrite motion_approve_eq. destruct (try_origin _ o) as [a|]; [|intros; simplify_eq; eauto].
  unfold approve_mutation, has_ended, try_insert.
  destruct (Motions s !! hash_of T c) as [m|] eqn:Hm.
  - case_bool_decide; [intros; simplify_eq; eauto|].
    case_bool_decide; [intros; simplify_eq; eauto|].
    case_bool_decide; intros; simplify_eq; [right|eauto].
    eexists _, _, _. repeat split; try done. unfold len; lia.
  - rewrite bool_decide_eq_false_2 by set_solver. rewrite size_empty. case_bool_decide; intros; simplify_eq; [right|eauto].
    eexists _, _, _. repeat split; try done. by rewrite union_empty_r_L.
Qed.

Lemma len_empty (A : gset AuthId) : len A = 0 ↔ A = ∅.
Proof.
  unfold len. split; [|intros ->; by rewrite size_empty].
  intros Hl. apply leibniz_equiv, size_empty_iff. lia.
Qed.

Lemma motion_revoke_inv o h s r s' :
  motion_revoke o h s = (r, s') →
  (∃ e, r = Err e ∧ s' = s) ∨
  (∃ info a m, r = Ok info ∧ try_origin (MotionRevokeOrigin T) o = Some a ∧
     Motions s !! h = Some m ∧ a ∈ approvals m ∧ block_number s < ends_block m ∧
     Motions s' = (if decide (approvals m ∖ {[a]} = ∅) then delete h (Motions s)
       else <[h := {| approvals := approvals m ∖ {[a]}; ends_block := ends_block m;
                      call := call m |}]> (Motions s)) ∧
     world s' = world s ∧ block_number s' = block_number s).
Proof.
  rewrite motion_revoke_eq. destruct (try_origin _ o) as [a|]; [|intros; simplify_eq; eauto].
  unfold revoke_mutation, has_ended.
  destruct (Motions s !! h) as [m|] eqn:Hm; simpl; [|intros; simplify_eq; eauto].
  case_bool_decide; [intros; simplify_eq; eauto|].
  case_bool_decide; [|intros; simplify_eq; eauto]. intros Hr. right.
  case_bool_decide as Hl; rewrite len_empty in Hl; simplify_eq;
    (eexists _, a, m; repeat split; [done|lia|]; simpl).
  - rewrite decide_True by done. unfold committed; simpl.
    apply map_eq; intros k. destruct (decide (k = h)) as [->|];
      [by rewrite !lookup_delete_eq|by rewrite !lookup_delete_ne, lookup_partial_alter_ne].
  - by rewrite decide_False.
Qed.

Lemma motion_close_inv o h s r s' :
  motion_close o h s = (r, s') → r ≠ Panic →
  (∃ e, r = Err e ∧ s' = s) ∨
  (∃ info m, r = Ok info ∧ is_Some (signer T o) ∧ Motions s !! h = Some m ∧
     (is_motion_approved (len (approvals m)) = true ∧
        (∃ s1, dispatch_motion m s = (Ok tt, s1) ∧
           s' = removed h (add_event (MotionDispatched h (Ok tt)) s1)) ∨
      is_motion_approved (len (approvals m)) = false ∧ ends_block m ≤ block_number s ∧
        s' = removed h (add_event (MotionExpired h) s))).
Proof.
  intros Hc Hr. destruct (Motions s !! h) as [m|] eqn:Hm.
  2:{ rewrite (motion_close_eq o h s (Ok tt) s) in Hc by (by rewrite ?Hm).
      rewrite Hm in Hc. destruct (signer T o); simplify_eq; eauto. }
  destruct (dispatch_motion m s) as [d s1] eqn:Hd.
  assert (is_motion_approved (len (approvals m)) = true → is_Some (signer T o) → d ≠ Panic) as Hdp.
  { intros Ha [w Hw] ->. apply Hr.
    pose proof (layer_panic (motion_close_body o h) s) as Hp.
    unfold motion_close in Hc. rewrite Hc in Hp. apply Hp.
    unfold motion_close_body; mrun. unfold ensure_signed_origin, into_post_info, with_err; mrun.
    rewrite Hw, Hm; simpl. by rewrite Ha, Hd. }
  destruct (signer T o) as [w|] eqn:Hw.
  2:{ unfold motion_close in Hc. rewrite with_storage_layer_eq in Hc;
        unfold motion_close_body, ensure_signed_origin, into_post_info, with_err in *; mrun;
        rewrite Hw in *; simplify_eq/=; eauto. }
  destruct (is_motion_approved (len (approvals m))) eqn:Ha.
  - specialize (Hdp eq_refl ltac:(eauto)).
    rewrite (motion_close_eq o h s d s1) in Hc by (by rewrite ?Hm; intros; simplify_eq).
    rewrite Hw, Hm, Ha in Hc. destruct d as [[]|e|]; simplify_eq; [right|eauto].
    eexists _, _. eauto 10.
  - unfold motion_close in Hc. rewrite with_storage_layer_eq in Hc;
      unfold motion_close_body, ensure_signed_origin, into_post_info, with_err in *; mrun;
      rewrite Hw, Hm in *; simpl in *; rewrite Ha in *; simpl in *; mrun;
      unfold has_ended in *; case_bool_decide; simplify_eq/=; try done; [right|eauto].
    eexists _, _. repeat split; try done; eauto. right. repeat split; [done|lia].
Qed.

(** ** Invariant, executions and the abstract ballot *)

Definition authority_ids : gset AuthId := list_to_set (index <$> MotionApprovalOrigin T).

Definition motion_ok (h : Hash) (m : MotionInfo) : Prop :=
  approvals m ≠ ∅ ∧ len (approvals m) ≤ MaxAuthorityBodies T ∧
  approvals m ⊆ authority_ids ∧ hash_of T (call m) = h.
Definition wf (s : State) : Prop := map_Forall motion_ok (Motions s).

(** The motion whose call an extrinsic dispatches. *)
Definition enacts (x : Extrinsic) (s : State) : option MotionInfo :=
  match x with
  | Close _ h => m ← Motions s !! h; if is_motion_approved (len (approvals m)) then Some m else None
  | _ => None
  end.

(** An execution: extrinsics that succeed (recorded in order), extrinsics that
    fail, and steps of the rest of the chain, which leave the motions alone.  The
    call of a motion that is enacted may again be calls of this pallet, to any depth
    ([RuntimeCall] is the type of motions): what the call does to the motions is an
    execution of its own, recorded before the extrinsic that dispatched it. *)
Inductive execution : State → list Extrinsic → State → Prop :=
| exec_start s : execution s [] s
| exec_ok s0 l s x info s' :
    execution s0 l s → enacts x s = None → execute x s = (Ok info, s') →
    execution s0 (l ++ [x]) s'
| exec_enact s0 l s x m nested s1 info s' :
    execution s0 l s → enacts x s = Some m →
    dispatch_motion m s = (Ok tt, s1) → execution s nested s1 →
    execute x s = (Ok info, s') → execution s0 (l ++ nested ++ [x]) s'
| exec_err s0 l s x e s' :
    execution s0 l s → execute x s = (Err e, s') → execution s0 l s'
| exec_env s0 l s s' :
    execution s0 l s → Motions s' = Motions s → block_number s ≤ block_number s' →
    execution s0 l s'.

(** Body [a] approved the motion [h] and has not revoked it since, nor has the
    motion been closed since. *)
Definition endorsed (l : list Extrinsic) (a : AuthId) (h : Hash) : Prop :=
  ∃ l1 o c l2, l = l1 ++ Approve o c :: l2 ∧
    try_origin (MotionApprovalOrigin T) o = Some a ∧ hash_of T c = h ∧
    ∀ x, x ∈ l2 →
      match x with
      | Approve _ _ => True
      | Revoke o' h' => h' = h → try_origin (MotionRevokeOrigin T) o' ≠ Some a
      | Close _ h' => h' ≠ h
      end.




(** The motions after a closing that succeeded, from those that the dispatch left. *)
Lemma motion_close_motions o h s info s' :
  motion_close o h s = (Ok info, s') →
  ∃ m s1, Motions s !! h = Some m ∧ Motions s' = delete h (Motions s1) ∧
    match enacts (Close o h) s with
    | Some m' => m' = m ∧ dispatch_motion m s = (Ok tt, s1)
    | None => s1 = s
    end.
Proof.
  intros Hc. apply motion_close_inv in Hc as [(?&?&?)|(?&m&?&?&Hm&[[Ha (s1&Hd&->)]|(Ha&?&->)])];
    try done; unfold enacts; rewrite Hm; simpl; rewrite Ha; eauto 10.
Qed.

Lemma committed_motions h m e s :
  Motions (committed h (Some m) e s) = <[h := m]> (Motions s).
Proof. done. Qed.

Lemma execute_err x s e s' : execute x s = (Err e, s') → s' = s.
Proof.
  destruct x as [o c|o h|o h]; simpl; intros Hx.
  - apply motion_approve_inv in Hx; naive_solver.
  - apply motion_revoke_inv in Hx; naive_solver.
  - apply motion_close_inv in Hx; naive_solver.
Qed.

Lemma try_origin_authority o a :
  try_origin (MotionApprovalOrigin T) o = Some a → a ∈ authority_ids.
Proof.
  unfold authority_ids, try_origin. rewrite elem_of_list_to_set.
  induction (MotionApprovalOrigin T) as [|b bs IH]; simpl; [done|].
  unfold body_ensure_from_bodies. destruct (body_try_origin b o); intros; simplify_eq; set_solver.
Qed.

Lemma execute_wf x s info s' : wf s →
  (∀ m s1, enacts x s = Some m → dispatch_motion m s = (Ok tt, s1) → wf s1) →
  execute x s = (Ok info, s') → wf s'.
Proof.
  intros Hs Hcall. destruct x as [o c|o h|o h]; simpl; intros Hx; unfold wf.
  - apply motion_approve_inv in Hx as [(?&?&?)|(?&a&m'&_&Ho&->&Hm)]; [done|].
    rewrite committed_motions. apply map_Forall_insert_2; [|done].
    apply try_origin_authority in Ho.
    destruct (Motions s !! hash_of T c) as [m|] eqn:E.
    + destruct Hm as (-> & Ha & Hl & _). destruct (Hs _ _ E) as (? & ? & ? & ?).
      split_and!; simpl; [set_solver| |set_solver|done].
      unfold len in *. rewrite size_union, size_singleton by set_solver. lia.
    + destruct Hm as (-> & ?). split_and!; simpl; [set_solver| |set_solver|done].
      unfold len. rewrite size_singleton. lia.
  - apply motion_revoke_inv in Hx as [(?&?&?)|(?&a&m&_&_&Hm&Ha&_&HM&_)]; [done|].
    rewrite HM. case_decide as Hd; [by apply map_Forall_delete|].
    apply map_Forall_insert_2; [|done]. destruct (Hs _ _ Hm) as (? & Hl & ? & ?).
    split_and!; simpl; [done| |set_solver|done].
    unfold len in *. rewrite size_difference by set_solver. rewrite size_singleton. lia.
  - apply motion_close_motions in Hx as (m & s1 & _ & -> & He). apply map_Forall_delete.
    destruct (enacts (Close o h) s) as [m'|] eqn:E; [|by subst s1].
    destruct He as [-> Hd]. by eapply Hcall.
Qed.

Lemma endorsed_extend l x a h :
  endorsed l a h →
  (∀ o', x = Revoke o' h → try_origin (MotionRevokeOrigin T) o' ≠ Some a) →
  (∀ o', x ≠ Close o' h) →
  endorsed (l ++ [x]) a h.
Proof.
  intros (l1 & o & c & l2 & -> & Ho & Hc & Hl2) Hrev Hclose.
  exists l1, o, c, (l2 ++ [x]). rewrite <- app_assoc. repeat split; try done.
  intros y [Hy| ->%list_elem_of_singleton]%elem_of_app; [by apply Hl2|].
  destruct x as [| |o' h']; [done| |].
  - intros ->. by eapply Hrev.
  - intros ->. by apply (Hclose o').
Qed.

Lemma endorsed_approve l o c a :
  try_origin (MotionApprovalOrigin T) o = Some a → endorsed (l ++ [Approve o c]) a (hash_of T c).
Proof. intros Ho. exists l, o, c, []. repeat split; [done|]. by intros ? ?%elem_of_nil. Qed.

(** Every approval on record was given by its body and stands. *)
Definition all_endorsed (l : list Extrinsic) (s : State) : Prop :=
  ∀ h m a, Motions s !! h = Some m → a ∈ approvals m → endorsed l a h.

Lemma approve_endorsed l o c s info s' :
  all_endorsed l s → motion_approve o c s = (Ok info, s') → all_endorsed (l ++ [Approve o c]) s'.
Proof.
  intros IH Hx h m a Hh Ha. apply motion_approve_inv in Hx as [(?&?&?)|(?&a'&m'&_&Ho&->&Hm)]; [done|].
  rewrite committed_motions in Hh.
  apply lookup_insert_Some in Hh as [[<- <-]|[Hne Hh]];
    [|by apply endorsed_extend; [by eapply IH|..]].
  destruct (decide (a = a')) as [->|Hna]; [by apply endorsed_approve|].
  destruct (Motions s !! hash_of T c) as [m|] eqn:E; destruct Hm as [-> _]; simpl in Ha;
    [|set_solver].
  apply endorsed_extend; [eapply IH; [done|set_solver]|done|done].
Qed.

Lemma revoke_endorsed l o h' s info s' :
  all_endorsed l s → motion_revoke o h' s = (Ok info, s') → all_endorsed (l ++ [Revoke o h']) s'.
Proof.
  intros IH Hx h m a Hh Ha.
  apply motion_revoke_inv in Hx as [(?&?&?)|(?&a'&m'&_&Ho&Hm&Ha'&_&HM&_)]; [done|].
  rewrite HM in Hh. destruct (decide (h' = h)) as [->|Hne].
  - case_decide; [by rewrite lookup_delete_eq in Hh|].
    rewrite lookup_insert_eq in Hh. simplify_eq/=.
    apply endorsed_extend; [eapply IH; [done|set_solver]| |done].
    intros o' [= <-]. rewrite Ho. set_solver.
  - assert (Motions s !! h = Some m) as Hh'
      by (case_decide; by rewrite ?lookup_delete_ne, ?lookup_insert_ne in Hh).
    apply endorsed_extend; [by eapply IH| |done]. intros o' [= _ ?]; by subst.
Qed.

Lemma delete_endorsed l o h s s' :
  all_endorsed l s → Motions s' = delete h (Motions s) → all_endorsed (l ++ [Close o h]) s'.
Proof.
  intros IH HM h' m a Hh Ha. rewrite HM in Hh. apply lookup_delete_Some in Hh as [Hne Hh].
  apply endorsed_extend; [by eapply IH|done|]. intros o' [= _ ?]; by subst.
Qed.

Lemma execute_endorsed l nested x s info s' :
  all_endorsed l s →
  (∀ m s1, enacts x s = Some m → dispatch_motion m s = (Ok tt, s1) → all_endorsed (l ++ nested) s1) →
  (enacts x s = None → nested = []) →
  execute x s = (Ok info, s') → all_endorsed (l ++ nested ++ [x]) s'.
Proof.
  intros Hl Hcall Hnone Hx. rewrite app_assoc. destruct x as [o c|o h|o h]; cbn [execute] in Hx.
  - rewrite (Hnone eq_refl), app_nil_r. by eapply approve_endorsed.
  - rewrite (Hnone eq_refl), app_nil_r. by eapply revoke_endorsed.
  - apply motion_close_motions in Hx as (m & s1 & _ & HM & He).
    eapply delete_endorsed; [|exact HM]. destruct (enacts (Close o h) s) as [m'|].
    + destruct He as [-> Hd]. by eapply Hcall.
    + subst s1. by rewrite (Hnone eq_refl), app_nil_r.
Qed.

Lemma execution_endorsed s0 l s :
  execution s0 l s → ∀ l0, all_endorsed l0 s0 → all_endorsed (l0 ++ l) s.
Proof.
  induction 1 as [s|s0 l s x info s' _ IH Hn Hx|s0 l s x m nested s1 info s' _ IH He Hd _ IHn Hx
    |s0 l s x e s' _ IH Hx|s0 l s s' _ IH Hm _]; intros l0 H0'.
  - by rewrite app_nil_r.
  - rewrite app_assoc. apply (execute_endorsed (l0 ++ l) [] x s info s'); [by apply IH|congruence|done..].
  - rewrite app_assoc. apply (execute_endorsed (l0 ++ l) nested x s info s'); [by apply IH| |congruence|done].
    intros m' s2 Hm' Hs2. assert (s2 = s1) as -> by congruence. by apply IHn, IH.
  - rewrite (execute_err _ _ _ _ Hx). by apply IH.
  - intros h m a Hh. rewrite Hm in Hh. by eapply IH.
Qed.

Lemma execution_wf s0 l s : execution s0 l s → wf s0 → wf s.
Proof.
  induction 1 as [s|s0 l s x info s' _ IH Hn Hx|s0 l s x m nested s1 info s' _ IH He Hd _ IHn Hx
    |s0 l s x e s' _ IH Hx|s0 l s s' _ IH Hm _]; intros Hw.
  - done.
  - apply (execute_wf x s info); [by apply IH|intros ??? ?; congruence|done].
  - apply (execute_wf x s info); [by apply IH| |done].
    intros m' s2 Hm' Hs2. assert (s2 = s1) as -> by congruence. by apply IHn, IH.
  - rewrite (execute_err _ _ _ _ Hx). by apply IH.
  - unfold wf. rewrite Hm. by apply IH.
Qed.



(** ** Properties *)


(** C2: unanimity.  With the runtime's proportion (one of one) over as many
    bodies as [MaxAuthorityBodies], closing a motion in any execution that began
    without motions either finds the motion expired, and then touches no state
    outside this pallet, or every single body has approved that motion earlier
    and has neither revoked it nor seen it closed in between.  In the execution the
    calls of enacted motions may themselves approve, revoke and close motions, to any
    depth, and these calls are part of the record; only direct writes to the storage
    of the pallet by others are left out. *)
Theorem motion_dispatch_needs_every_body s0 l s o h info s' :
  MotionApprovalProportion T = reached_proportion 1 1 →
  MaxAuthorityBodies T = Z.of_nat (length (MotionApprovalOrigin T)) →
  in_range 32 (MaxAuthorityBodies T) →
  Motions s0 = ∅ → execution s0 l s → motion_close o h s = (Ok info, s') →
  (∃ m, Motions s !! h = Some m ∧ ends_block m ≤ block_number s ∧ world s' = world s) ∨
  (∀ b, b ∈ MotionApprovalOrigin T → endorsed l (index b) h).
Proof.
  intros Hprop Hmax Hrange H0' Hex Hc.
  assert (wf s) as Hwf by (eapply execution_wf; [done|]; unfold wf; by rewrite H0').
  apply motion_close_inv in Hc as [(?&?&?)|(?&m&?&?&Hm&[[Ha _]|(_&He&->)])]; [done| |by eauto|done].
  right. intros b Hb.
  assert (all_endorsed [] s0) as He0 by (intros ??? He; by rewrite H0', lookup_empty in He).
  refine (execution_endorsed _ _ _ Hex [] He0 _ _ _ Hm _).
  destruct (Hwf _ _ Hm) as (_ & Hlen & Hsub & _).
  unfold is_motion_approved in Ha. rewrite Hprop in Ha.
  unfold reached_proportion in Ha. apply bool_decide_eq_true in Ha.
  rewrite Z.mul_1_r, Z.mul_1_l, !wrap_small in Ha
    by (unfold in_range, len in *; lia).
  assert (size authority_ids ≤ length (MotionApprovalOrigin T))%nat as Hsz.
  { unfold authority_ids.
    etrans; [apply size_list_to_set_le|]. by rewrite length_fmap. }
  assert (approvals m = authority_ids) as ->.
  { apply set_subseteq_size_eq; [done|]. unfold len in *. lia. }
  unfold authority_ids. apply elem_of_list_to_set, list_elem_of_fmap. eauto.
Qed.

(** type invariant.  In every execution from a state that satisfies it, each
    motion on record has at least one approval and at most
    [MaxAuthorityBodies], all of them given by configured bodies, and is stored
    under the hash of its own call. *)
Theorem motions_well_formed s0 l s h m :
  wf s0 → execution s0 l s → Motions s !! h = Some m →
  approvals m ≠ ∅ ∧ len (approvals m) ≤ MaxAuthorityBodies T ∧
  approvals m ⊆ authority_ids ∧ hash_of T (call m) = h.
Proof. intros Hw Hex Hm. by apply (execution_wf _ _ _ Hex Hw). Qed.

(**  an approved motion whose call fails to dispatch is not cleaned up: the
    call's error is returned from [motion_close], so FRAME's layer around the
    extrinsic undoes the [MotionDispatched] event and the removal, and the motion
    stays on record with the state exactly as it was. *)
Theorem failed_dispatch_keeps_motion o h s m e s1 :
  is_Some (signer T o) → Motions s !! h = Some m →
  is_motion_approved (len (approvals m)) = true →
  dispatch_motion m s = (Err e, s1) →
  motion_close o h s = (Err (with_default_info e), s).
Proof.
  intros [w Hw] Hm Ha Hd.
  rewrite (motion_close_eq o h s (Err e) s1) by (by rewrite ?Hm; intros; simplify_eq).
  by rewrite Hw, Hm, Ha.
Qed.

(** such a motion is stuck once its period is over.  While its call keeps
    failing, no extrinsic of the pallet changes it: approving and revoking are
    refused because it has ended, closing fails with the call's error.  (The call of
    another motion that is enacted might act on it.) *)
Theorem failed_motion_is_stuck x s m h e s1 r s' :
  Motions s !! h = Some m → is_motion_approved (len (approvals m)) = true →
  ends_block m ≤ block_number s → dispatch_motion m s = (Err e, s1) →
  (∀ o' h', x = Close o' h' → h' ≠ h → enacts x s = None) →
  execute x s = (r, s') → r ≠ Panic → Motions s' !! h = Some m.
Proof.
  intros Hm Ha He Hd Hother Hx Hr. destruct r as [info|e'|]; [|by rewrite (execute_err _ _ _ _ Hx)|done].
  destruct x as [o c|o h'|o h']; simpl in Hx.
  - apply motion_approve_inv in Hx as [(?&?&?)|(?&a&m'&_&_&->&Hm')]; [done|].
    rewrite committed_motions. destruct (decide (hash_of T c = h)) as [Hh|];
      [|by rewrite lookup_insert_ne].
    rewrite Hh, Hm in Hm'. destruct Hm' as (_ & _ & _ & ?). lia.
  - apply motion_revoke_inv in Hx as [(?&?&?)|(?&a&m'&_&_&Hm'&_&?&HM&_)]; [done|].
    rewrite HM. destruct (decide (h' = h)) as [->|];
      [simplify_eq; lia|case_decide; by rewrite ?lookup_delete_ne, ?lookup_insert_ne].
  - destruct (decide (h' = h)) as [->|Hne].
    2:{ apply motion_close_motions in Hx as (m' & s2 & _ & -> & He').
        rewrite (Hother _ _ eq_refl Hne) in He'. subst s2. by rewrite lookup_delete_ne. }
    exfalso. rewrite (motion_close_eq o h s (Err e) s1) in Hx
      by (by rewrite ?Hm; intros; simplify_eq).
    rewrite Hm, Ha in Hx. by destruct (signer T o).
Qed.

(** an approval can be taken back.  In the block in which a body approved a
    motion, the same body can revoke it, and the motions on record are then what
    they were before: a motion it opened is removed, one it joined keeps its
    earlier approvals and deadline. *)
Theorem approve_then_revoke o c s info s1 :
  wf s → MotionRevokeOrigin T = MotionApprovalOrigin T →
  0 < MotionDuration T → 0 ≤ block_number s < umax 32 →
  motion_approve o c s = (Ok info, s1) →
  ∃ info' s2, motion_revoke o (hash_of T c) s1 = (Ok info', s2) ∧ Motions s2 = Motions s.
Proof.
  intros Hwf Hsame Hdur Hblk Hx.
  apply motion_approve_inv in Hx as [(?&?&?)|(?&a&m'&_&Ho&->&Hm)]; [done|].
  rewrite motion_revoke_eq, Hsame, Ho. simpl Motions. simpl block_number.
  rewrite lookup_partial_alter_eq. unfold revoke_mutation, has_ended.
  destruct (Motions s !! hash_of T c) as [m|] eqn:E.
  - destruct Hm as (-> & Ha & _ & He). destruct (Hwf _ _ E) as (Hne & _). simpl.
    rewrite bool_decide_eq_false_2 by lia. rewrite bool_decide_eq_true_2 by set_solver.
    assert (({[a]} ∪ approvals m) ∖ {[a]} = approvals m) as -> by set_solver.
    rewrite bool_decide_eq_false_2 by (by rewrite len_empty).
    eexists _, _; split; [done|]. simpl.
    apply map_eq; intros k. destruct (decide (k = hash_of T c)) as [->|];
      [rewrite lookup_partial_alter_eq, E; by destruct m|by rewrite !lookup_partial_alter_ne].
  - destruct Hm as (-> & _). simpl. rewrite bool_decide_eq_false_2 by (unfold sat_add; lia).
    rewrite bool_decide_eq_true_2 by set_solver.
    rewrite bool_decide_eq_true_2 by (rewrite len_empty; set_solver).
    eexists _, _; split; [done|]. simpl. apply map_eq; intros k.
    destruct (decide (k = hash_of T c)) as [->|]; [by rewrite lookup_delete_eq|].
    by rewrite lookup_delete_ne, !lookup_partial_alter_ne.
Qed.

(** The weight reported after the call, from [Ok] or from the error. *)
Definition reported_weight {A} (r : outcome (ErrorWithPostInfo Error F) A)
    (info : A → PostDispatchInfo) : option Weight :=
  match r with
  | Ok a => actual_weight (info a)
  | Err e => actual_weight (post_info e)
  | Panic => None
  end.

(** with the generated weights and two bodies, the weight [motion_revoke]
    reports after the fact, on success and on each of its errors, is at most the
    weight it declared, in both components; for [motion_approve] the execution
    time it reports is at most the time declared. *)
Theorem reported_weights_within_declared db x s r s' w :
  wf s → MaxAuthorityBodies T = 2 → WeightInfo T = FA_UnitWeight db →
  0 ≤ db_read db → 0 ≤ db_write db →
  execute x s = (r, s') → reported_weight r (λ i, i) = Some w →
  match x with
  | Approve _ _ => ref_time w ≤ ref_time (declared_weight x)
  | Revoke _ _ => w ≤w declared_weight x
  | Close _ _ => True
  end.
Proof.
  intros Hwf Hmax HW Hr Hwr Hx Hw.
  assert (∀ h m, Motions s !! h = Some m → 0 ≤ len (approvals m) ≤ 2) as Hlen.
  { intros h m Hm. destruct (Hwf _ _ Hm) as (_ & ? & _). unfold len in *. lia. }
  destruct x as [o c|o h|o h]; simpl in *; [| |done]; rewrite Hmax, HW.
  - rewrite motion_approve_eq in Hx. destruct (try_origin _ o); simplify_eq/=.
    destruct (Motions s !! hash_of T c) as [m|] eqn:E; simpl in Hx.
    + specialize (Hlen _ _ E). unfold try_insert in Hx.
      destruct (has_ended _ _); [simplify_eq/=; rewrite HW; by solve_weight|].
      case_bool_decide; [simplify_eq/=; rewrite HW; by solve_weight|].
      case_bool_decide; simplify_eq/=; rewrite HW; by solve_weight.
    + destruct (try_insert _ _ _) as [[]]; simplify_eq/=; rewrite HW; by solve_weight.
  - rewrite motion_revoke_eq in Hx. destruct (try_origin _ o); simplify_eq/=.
    destruct (Motions s !! h) as [m|] eqn:E; simpl in Hx; [specialize (Hlen _ _ E)|];
      [|simplify_eq/=; rewrite HW; by solve_weight].
    destruct (has_ended _ _); [simplify_eq/=; rewrite HW; by solve_weight|].
    case_bool_decide; [|simplify_eq/=; rewrite HW; by solve_weight].
    case_bool_decide; simplify_eq/=; rewrite HW; by solve_weight.
Qed.

(** an expired motion can always be cleared: once its period is over and it
    has not reached the approvals needed, any signed origin closes it, which
    removes it, records [MotionExpired] and [MotionRemoved], and dispatches
    nothing. *)
Theorem expired_motion_closable o h s m :
  is_Some (signer T o) → Motions s !! h = Some m →
  is_motion_approved (len (approvals m)) = false → ends_block m ≤ block_number s →
  motion_close o h s =
    (Ok (no_fee (fa_motion_close_expired (WeightInfo T))),
     {| Motions := delete h (Motions s);
        events := events s ++ [MotionExpired h; MotionRemoved h];
        block_number := block_number s; world := world s |}).
Proof.
  intros [w Hw] Hm Ha He. unfold motion_close.
  rewrite with_storage_layer_eq; unfold motion_close_body, ensure_signed_origin, into_post_info,
    with_err; mrun; rewrite Hw, Hm; simpl; rewrite Ha; simpl; unfold has_ended;
    rewrite bool_decide_eq_true_2 by lia; simpl; [|done].
  by rewrite <- app_assoc.
Qed.
End FedAuthority.

(** ** The runtime's configuration

    [runtime/src/lib.rs]: two collectives, the council and the technical
    committee, each of which speaks with two thirds of its members. *)

(** The origins that matter here: [frame_system]'s and, for the collective with a
    given pallet index, [pallet_collective::RawOrigin::Members(yes, total)]. *)
Inductive RuntimeOrigin : Type :=
| System (o : RawOrigin Z)
| Members (pallet_index yes total : Z).

(** [pallet_collective::EnsureProportionAtLeast<_, _, N, D>]: documented as
    [yes / total >= N / D]. *)
Definition EnsureProportionAtLeast (pallet_index N D : Z) (o : RuntimeOrigin) : bool :=
  match o with
  | Members i yes total => bool_decide (i = pallet_index) && bool_decide (yes * D >= N * total)
  | _ => false
  end.

Definition CouncilApproval : @AuthorityBody RuntimeOrigin :=
  {| index := COUNCIL_INDEX; body_try_origin := EnsureProportionAtLeast COUNCIL_INDEX 2 3 |}.
Definition TechnicalCommitteeApproval : @AuthorityBody RuntimeOrigin :=
  {| index := TECHNICAL_COMMITTEE_INDEX;
     body_try_origin := EnsureProportionAtLeast TECHNICAL_COMMITTEE_INDEX 2 3 |}.
Definition CouncilRevoke : @AuthorityBody RuntimeOrigin :=
  {| index := COUNCIL_INDEX; body_try_origin := EnsureProportionAtLeast COUNCIL_INDEX 2 3 |}.
Definition TechnicalCommitteeRevoke : @AuthorityBody RuntimeOrigin :=
  {| index := TECHNICAL_COMMITTEE_INDEX;
     body_try_origin := EnsureProportionAtLeast TECHNICAL_COMMITTEE_INDEX 2 3 |}.

Definition runtime_config {Call Hash World F : Type} `{Countable Hash}
    (ParityDbWeight : RuntimeDbWeight) (hash_of : Call → Hash) (call_weight : Call → Weight)
    (dispatch : Call → RuntimeOrigin →
       M (@State Call Hash World F _ _) (ErrorWithPostInfo Error F) PostDispatchInfo) :
    @Config RuntimeOrigin Z Call Hash World F _ _ :=
  {| MaxAuthorityBodies := MAX_NUM_BODIES;
     MotionDuration := MOTION_DURATION;
     MotionApprovalProportion := reached_proportion 1 1;
     MotionApprovalOrigin := [CouncilApproval; TechnicalCommitteeApproval];
     MotionRevokeOrigin := [CouncilRevoke; TechnicalCommitteeRevoke];
     WeightInfo := FA_UnitWeight ParityDbWeight;
     hash_of := hash_of;
     root_origin := System Root;
     signer := λ o, match o with System (Signed who) => Some who | _ => None end;
     call_weight := call_weight;
     dispatch := dispatch |}.

(** ** The properties at a concrete runtime

    Calls are numbers and hash to themselves; a call appends itself to the world, a
    negative one fails.  A call from 1000 on has the council approve the motion of the
    number without the thousand: a call that acts on motions again. *)
Module Concrete.
Definition St : Type := @State Z Z (list Z) unit _ _.
Definition config (d : Z → RuntimeOrigin → M St (ErrorWithPostInfo Error unit) PostDispatchInfo) :=
  runtime_config {| db_read := 8000; db_write := 50000 |} (λ c : Z, c) (λ _ : Z, weight_zero) d.
Definition council : RuntimeOrigin := Members COUNCIL_INDEX 2 3.
Definition committee : RuntimeOrigin := Members TECHNICAL_COMMITTEE_INDEX 4 5.
Definition anyone : RuntimeOrigin := System (Signed 1).
Definition dispatch (c : Z) (_ : RuntimeOrigin) :
    M St (ErrorWithPostInfo Error unit) PostDispatchInfo := λ s,
  if bool_decide (c < 0) then (Err (with_default_info (Foreign tt)), s)
  else if bool_decide (1000 ≤ c) then motion_approve (config (λ _ _, mret default_post_info)) council (c - 1000) s
  else (Ok default_post_info,
        {| Motions := Motions s; events := events s; block_number := block_number s;
           world := world s ++ [c] |}).
Definition cfg := config dispatch.
Definition at_block (n : Z) (s : St) : St :=
  {| Motions := Motions s; events := events s; block_number := n; world := world s |}.
Definition start : St := {| Motions := ∅; events := []; block_number := 10; world := [] |}.
Definition info_of (x : Extrinsic) (s : St) : PostDispatchInfo :=
  match fst (execute cfg x s) with Ok i => i | _ => default_post_info end.
Definition after (x : Extrinsic) (s : St) : St := snd (execute cfg x s).
Definition one (c : Z) : St := after (Approve council c) start.
Definition both (c : Z) : St := after (Approve committee c) (one c).
Definition history (c : Z) : list (@Extrinsic RuntimeOrigin Z Z) := [Approve council c; Approve committee c].

Lemma history_execution c : c = 7 ∨ c = 1007 → execution cfg start (history c) (both c).
Proof.
  intros Hc. refine (exec_ok cfg start [Approve council c] (one c) (Approve committee c)
    (info_of (Approve committee c) (one c)) (both c) _ eq_refl _);
    [|by destruct Hc as [-> | ->]; vm_compute].
  refine (exec_ok cfg start [] start (Approve council c)
    (info_of (Approve council c) start) (one c) _ eq_refl _); [constructor|].
  by destruct Hc as [-> | ->]; vm_compute.
Qed.

(** The motion 1007, enacted after the committee has approved motion 7. *)
Definition joined : St := after (Approve committee 7) (both 1007).
Definition called : St := snd (dispatch_motion cfg
  {| approvals := {[COUNCIL_INDEX; TECHNICAL_COMMITTEE_INDEX]}; ends_block := 72010; call := 1007 |} joined).
Definition enacted : St := after (Close anyone 1007) joined.
Definition nested_history : list (@Extrinsic RuntimeOrigin Z Z) :=
  history 1007 ++ [Approve committee 7; Approve council 7; Close anyone 1007].
Lemma nested_execution : execution cfg start nested_history enacted.
Proof.
  refine (exec_enact cfg start (history 1007 ++ [Approve committee 7]) joined (Close anyone 1007)
    {| approvals := {[COUNCIL_INDEX; TECHNICAL_COMMITTEE_INDEX]}; ends_block := 72010; call := 1007 |}
    [Approve council 7] called (info_of (Close anyone 1007) joined) enacted _ _ _ _ _);
    [|vm_compute; reflexivity..| |vm_compute; reflexivity].
  - refine (exec_ok cfg start (history 1007) (both 1007) (Approve committee 7)
      (info_of (Approve committee 7) (both 1007)) joined _ eq_refl _); [|vm_compute; reflexivity].
    apply history_execution. by right.
  - refine (exec_ok cfg joined [] joined (Approve council 7) (info_of (Approve council 7) joined)
      called (exec_start _ _) eq_refl _). vm_compute; reflexivity.
Qed.
Lemma start_wf : wf cfg start.
Proof. apply map_Forall_empty. Qed.
End Concrete.
Import Concrete.


(** Motion 7, which the council approved through the call of motion 1007. *)
Lemma motion_dispatch_needs_every_body_witness :
  world (after (Close anyone 7) enacted) = [7] ∧
  ((∃ m, Motions enacted !! 7 = Some m ∧ ends_block m ≤ block_number enacted ∧
     world (after (Close anyone 7) enacted) = world enacted) ∨
   (∀ b, b ∈ MotionApprovalOrigin cfg → endorsed cfg nested_history (index b) 7)).
Proof.
  split; [vm_compute; reflexivity|].
  apply (motion_dispatch_needs_every_body cfg start nested_history enacted anyone 7
    (info_of (Close anyone 7) enacted)); [reflexivity..|vm_compute; by split|reflexivity| |vm_compute; reflexivity].
  apply nested_execution.
Defined.

Lemma motions_well_formed_witness :
  ∃ m, Motions (both 7) !! 7 = Some m ∧ approvals m ⊆ authority_ids cfg.
Proof.
  eexists {| approvals := {[COUNCIL_INDEX; TECHNICAL_COMMITTEE_INDEX]}; ends_block := 72010; call := 7 |}.
  split; [vm_compute; reflexivity|].
  apply (motions_well_formed cfg start (history 7) (both 7) 7);
    [apply start_wf|apply history_execution; by left|vm_compute; reflexivity].
Defined.

Lemma failed_dispatch_keeps_motion_witness :
  motion_close cfg anyone (-7) (both (-7)) =
    (Err (with_default_info (Foreign tt)), both (-7)).
Proof.
  apply (failed_dispatch_keeps_motion cfg anyone (-7) (both (-7))
    {| approvals := {[COUNCIL_INDEX; TECHNICAL_COMMITTEE_INDEX]}; ends_block := 72010; call := -7 |}
    (Foreign tt) (both (-7))); [by eexists|vm_compute; reflexivity..].
Defined.

Lemma failed_motion_is_stuck_witness :
  Motions (after (Close anyone (-7)) (at_block 80000 (both (-7)))) !! (-7) =
    Some {| approvals := {[COUNCIL_INDEX; TECHNICAL_COMMITTEE_INDEX]}; ends_block := 72010;
            call := -7 |}.
Proof.
  apply (failed_motion_is_stuck cfg (Close anyone (-7)) (at_block 80000 (both (-7)))
    {| approvals := {[COUNCIL_INDEX; TECHNICAL_COMMITTEE_INDEX]}; ends_block := 72010; call := -7 |}
    (-7) (Foreign tt) (at_block 80000 (both (-7)))
    (Err (with_default_info (Foreign tt)))); try (vm_compute; reflexivity); [vm_compute; discriminate| |discriminate].
  by intros o' h' [= <- <-].
Defined.

Lemma approve_then_revoke_witness :
  ∃ info' s2, motion_revoke cfg council 7 (one 7) = (Ok info', s2) ∧ Motions s2 = Motions start.
Proof.
  apply (approve_then_revoke cfg council 7 start (info_of (Approve council 7) start) (one 7));
    [apply start_wf|reflexivity|reflexivity|vm_compute; by split|vm_compute; reflexivity].
Defined.

Lemma reported_weights_within_declared_witness :
  fa_motion_revoke_not_found (WeightInfo cfg) ≤w declared_weight cfg (Revoke council 7).
Proof.
  apply (reported_weights_within_declared cfg {| db_read := 8000; db_write := 50000 |}
    (Revoke council 7) start (Err {| post_info := no_fee (fa_motion_revoke_not_found (WeightInfo cfg));
      error := Module MotionNotFound |}) start);
    [apply start_wf|reflexivity|reflexivity|simpl; lia|simpl; lia|vm_compute; reflexivity|reflexivity].
Defined.

Lemma expired_motion_closable_witness :
  Motions (snd (motion_close cfg anyone 7 (at_block 80000 (one 7)))) = ∅.
Proof.
  rewrite (expired_motion_closable cfg anyone 7 (at_block 80000 (one 7))
    {| approvals := {[COUNCIL_INDEX]}; ends_block := 72010; call := 7 |});
    [vm_compute; reflexivity|by eexists|vm_compute; reflexivity..|].
  vm_compute. discriminate.
Defined.
