(* ===== verification/CardanoTypes.v ===== *)
(** * Observed Cardano data

    Models [primitives/cnight-observation/src/lib.rs]: positions on the main
    chain, observed UTXOs and the order in which every validator processes them.
    Hashes, addresses and keys are byte strings ([list Z]). *)

From stdpp Require Import prelude.
From S2P Require Import Prelude Frame.

Open Scope Z_scope.

(** ** Sizes and conversions *)

Definition CARDANO_BECH32_ADDRESS_MAX_LENGTH : Z := 108.
Definition CARDANO_REWARD_ADDRESS_LENGTH : Z := 29.

(** [CardanoRewardAddressBytes::try_from(Vec<u8>)]: an array, so the length is
    exact. *)
Definition CardanoRewardAddressBytes : Type := list Z.
Definition reward_address_try_from (value : list Z) : option CardanoRewardAddressBytes :=
  if decide (Z.of_nat (length value) = CARDANO_REWARD_ADDRESS_LENGTH) then Some value else None.

(** [DustPublicKeyBytes::try_from]: a bounded vector. *)
Definition DustPublicKeyBytes : Type := list Z.
Definition dust_public_key_try_from (value : list Z) : option DustPublicKeyBytes :=
  bounded_try_from 33 value.

(** ** Positions *)

Record CardanoPosition : Type := {
  block_hash : list Z;
  block_number : Z;
  (** [TimestampUnixMillis], an [i64]. *)
  block_timestamp : Z;
  tx_index_in_block : Z;
}.
#[export] Instance CardanoPosition_eq_dec : EqDecision CardanoPosition.
Proof. solve_decision. Defined.

Definition increment (p : CardanoPosition) : CardanoPosition :=
  {| block_hash := block_hash p; block_number := block_number p;
     block_timestamp := block_timestamp p;
     tx_index_in_block := wrap 32 (tx_index_in_block p + 1) |}.

(** [PartialOrd for CardanoPosition]: block, then transaction index. *)
Definition position_partial_cmp (a b : CardanoPosition) : option comparison :=
  match block_number a ?= block_number b with
  | Eq => Some (tx_index_in_block a ?= tx_index_in_block b)
  | ord => Some ord
  end.

(** [a >= b]. *)
Definition position_ge (a b : CardanoPosition) : bool :=
  match position_partial_cmp a b with Some Lt | None => false | _ => true end.

(** ** Observed UTXOs *)

Record ObservedUtxoHeader : Type := {
  tx_position : CardanoPosition;
  tx_hash : list Z;
  utxo_tx_hash : list Z;
  utxo_index : Z;
}.
#[export] Instance ObservedUtxoHeader_eq_dec : EqDecision ObservedUtxoHeader.
Proof. solve_decision. Defined.

Definition is_create (h : ObservedUtxoHeader) : bool :=
  bool_decide (tx_hash h = utxo_tx_hash h).

(** [PartialOrd for ObservedUtxoHeader]. *)
Definition header_partial_cmp (a b : ObservedUtxoHeader) : option comparison :=
  match position_partial_cmp (tx_position a) (tx_position b) with
  | Some Eq =>
      if is_create a && negb (is_create b) then Some Lt
      else if negb (is_create a) && is_create b then Some Gt
      else
        match bytes_cmp (utxo_tx_hash a) (utxo_tx_hash b) with
        | Eq => Some (utxo_index a ?= utxo_index b)
        | ord => Some ord
        end
  | ord => ord
  end.

Record RegistrationData : Type :=
  { reg_cardano_reward_address : list Z; reg_dust_public_key : list Z }.
Record DeregistrationData : Type :=
  { dereg_cardano_reward_address : list Z; dereg_dust_public_key : list Z }.
Record CreateData : Type :=
  { create_value : Z; create_owner : list Z; create_utxo_tx_hash : list Z;
    create_utxo_tx_index : Z }.
Record SpendData : Type :=
  { spend_value : Z; spend_owner : list Z; spend_utxo_tx_hash : list Z;
    spend_utxo_tx_index : Z; spending_tx_hash : list Z }.

Inductive ObservedUtxoData : Type :=
| Registration (d : RegistrationData)
| Deregistration (d : DeregistrationData)
| AssetCreate (d : CreateData)
| AssetSpend (d : SpendData).
#[export] Instance RegistrationData_eq_dec : EqDecision RegistrationData.
Proof. solve_decision. Defined.
#[export] Instance DeregistrationData_eq_dec : EqDecision DeregistrationData.
Proof. solve_decision. Defined.
#[export] Instance CreateData_eq_dec : EqDecision CreateData.
Proof. solve_decision. Defined.
#[export] Instance SpendData_eq_dec : EqDecision SpendData.
Proof. solve_decision. Defined.
#[export] Instance ObservedUtxoData_eq_dec : EqDecision ObservedUtxoData.
Proof. solve_decision. Defined.

Record ObservedUtxo : Type := { header : ObservedUtxoHeader; data : ObservedUtxoData }.
#[export] Instance ObservedUtxo_eq_dec : EqDecision ObservedUtxo.
Proof. solve_decision. Defined.

(** [Ord for ObservedUtxo]: [partial_cmp(..).unwrap()], [None] being a panic. *)
Definition utxo_cmp (a b : ObservedUtxo) : option comparison :=
  header_partial_cmp (header a) (header b).

Record MidnightObservationTokenMovement : Type :=
  { utxos : list ObservedUtxo; next_cardano_position : CardanoPosition }.
#[export] Instance MidnightObservationTokenMovement_eq_dec :
  EqDecision MidnightObservationTokenMovement.
Proof. solve_decision. Defined.

Record ObservedUtxos : Type :=
  { start : CardanoPosition; end_ : CardanoPosition; observed : list ObservedUtxo }.

(** ** Lemmas *)

(** The comparisons as total functions on keys. *)
Definition position_cmp (a b : CardanoPosition) : comparison :=
  then_cmp (block_number a ?= block_number b) (tx_index_in_block a ?= tx_index_in_block b).
Definition header_cmp (a b : ObservedUtxoHeader) : comparison :=
  then_cmp (position_cmp (tx_position a) (tx_position b))
    (then_cmp (bool_cmp (negb (is_create a)) (negb (is_create b)))
      (then_cmp (bytes_cmp (utxo_tx_hash a) (utxo_tx_hash b)) (utxo_index a ?= utxo_index b))).
Definition observed_cmp (a b : ObservedUtxo) : comparison := header_cmp (header a) (header b).

Lemma position_partial_cmp_total a b : position_partial_cmp a b = Some (position_cmp a b).
Proof. unfold position_partial_cmp, position_cmp. by destruct (block_number a ?= block_number b). Qed.

Lemma header_partial_cmp_total a b : header_partial_cmp a b = Some (header_cmp a b).
Proof.
  unfold header_partial_cmp, header_cmp. rewrite position_partial_cmp_total.
  destruct (position_cmp _ _); try done; simpl.
  destruct (is_create a), (is_create b); simpl; try done; by destruct (bytes_cmp _ _).
Qed.

#[export] Instance position_cmp_total : TotalCmp position_cmp.
Proof.
  apply (then_cmp_total (λ a b, block_number a ?= block_number b)
                        (λ a b, tx_index_in_block a ?= tx_index_in_block b)).
Qed.

#[export] Instance header_cmp_total : TotalCmp header_cmp.
Proof.
  refine (then_cmp_total (λ a b, position_cmp (tx_position a) (tx_position b)) _ ).
Qed.
#[export] Instance observed_cmp_total : TotalCmp observed_cmp.
Proof. apply (key_cmp_total header), _. Qed.

Lemma position_ge_spec a b : position_ge a b = true ↔ position_cmp b a ≠ Gt.
Proof.
  unfold position_ge. rewrite position_partial_cmp_total, (cmp_flip position_cmp a b).
  by destruct (position_cmp a b).
Qed.

Lemma position_cmp_eq a b :
  position_cmp a b = Eq ↔
    block_number a = block_number b ∧ tx_index_in_block a = tx_index_in_block b.
Proof.
  unfold position_cmp. split.
  - destruct (Z.compare_spec (block_number a) (block_number b)); try done.
    intros Ht. by apply Z.compare_eq in Ht.
  - intros [-> ->]. by rewrite !Z.compare_refl.
Qed.

(** The position after [increment] is later, as long as the index has room. *)
Lemma increment_lt p :
  0 ≤ tx_index_in_block p < umax 32 → position_cmp p (increment p) = Lt.
Proof.
  intros Hp. unfold position_cmp, increment; simpl. rewrite Z.compare_refl. simpl.
  rewrite wrap_small by (unfold in_range; lia). by apply Z.compare_lt_iff; lia.
Qed.
