(* ===== verification/LedgerErrors.v ===== *)
(** * Errors of the ledger API and their codes

    Models [ledger/src/versions/common/types.rs]: the error enumerations the
    ledger host functions return, the one-byte code under which an error reaches
    the transaction pool ([InvalidTransaction::Custom]) and its display text.
    Constructors carry the prefix of their enumeration, since the enumerations
    share variant names. *)

From Stdlib Require Import ZArith String.
From stdpp Require Import prelude strings.
From S2P Require Import Prelude.

Open Scope Z_scope.

Inductive InvalidError : Type :=
| Invalid_EffectsMismatch
| Invalid_ContractAlreadyDeployed
| Invalid_ContractNotPresent
| Invalid_Zswap
| Invalid_Transcript
| Invalid_InsufficientClaimable
| Invalid_VerifierKeyNotFound
| Invalid_VerifierKeyAlreadyPresent
| Invalid_ReplayCounterMismatch
| Invalid_ReplayProtectionViolation
| Invalid_BalanceCheckOutOfBounds
| Invalid_InputNotInUtxos
| Invalid_DustDoubleSpend
| Invalid_DustDeregistrationNotRegistered
| Invalid_GenerationInfoAlreadyPresent
| Invalid_InvariantViolation
| Invalid_RewardTooSmall
| Invalid_UnknownError.
#[export] Instance InvalidError_eq_dec : EqDecision InvalidError.
Proof. solve_decision. Defined.

Inductive SystemTransactionError : Type :=
| System_IllegalPayout
| System_InsufficientTreasuryFunds
| System_CommitmentAlreadyPresent
| System_UnknownError
| System_ReplayProtectionFailure
| System_IllegalReserveDistribution
| System_GenerationInfoAlreadyPresent
| System_InvalidBasisPoints
| System_InvariantViolation
| System_TreasuryDisabled.
#[export] Instance SystemTransactionError_eq_dec : EqDecision SystemTransactionError.
Proof. solve_decision. Defined.

Inductive MalformedError : Type :=
| Malformed_VerifierKeyNotSet
| Malformed_TransactionTooLarge
| Malformed_VerifierKeyTooLarge
| Malformed_VerifierKeyNotPresent
| Malformed_ContractNotPresent
| Malformed_InvalidProof
| Malformed_BindingCommitmentOpeningInvalid
| Malformed_NotNormalized
| Malformed_FallibleWithoutCheckpoint
| Malformed_ClaimReceiveFailed
| Malformed_ClaimSpendFailed
| Malformed_ClaimNullifierFailed
| Malformed_ClaimCallFailed
| Malformed_InvalidSchnorrProof
| Malformed_UnclaimedCoinCom
| Malformed_UnclaimedNullifier
| Malformed_Unbalanced
| Malformed_Zswap
| Malformed_BuiltinDecode
| Malformed_GuaranteedLimit
| Malformed_MergingContracts
| Malformed_CantMergeTypes
| Malformed_ClaimOverflow
| Malformed_ClaimCoinMismatch
| Malformed_KeyNotInCommittee
| Malformed_InvalidCommitteeSignature
| Malformed_ThresholdMissed
| Malformed_TooManyZswapEntries
| Malformed_BalanceCheckOverspend
| Malformed_InvalidNetworkId
| Malformed_IllegallyDeclaredGuaranteed
| Malformed_FeeCalculation
| Malformed_InvalidDustRegistrationSignature
| Malformed_InvalidDustSpendProof
| Malformed_OutOfDustValidityWindow
| Malformed_MultipleDustRegistrationsForKey
| Malformed_InsufficientDustForRegistrationFee
| Malformed_MalformedContractDeploy
| Malformed_IntentSignatureVerificationFailure
| Malformed_IntentSignatureKeyMismatch
| Malformed_IntentSegmentIdCollision
| Malformed_IntentAtGuaranteedSegmentId
| Malformed_UnsupportedProofVersion
| Malformed_GuaranteedTranscriptVersion
| Malformed_FallibleTranscriptVersion
| Malformed_TransactionApplicationError
| Malformed_BalanceCheckOutOfBounds
| Malformed_BalanceCheckConversionFailure
| Malformed_PedersenCheckFailure
| Malformed_EffectsCheckFailure
| Malformed_DisjointCheckFailure
| Malformed_SequencingCheckFailure
| Malformed_InputsNotSorted
| Malformed_OutputsNotSorted
| Malformed_DuplicateInputs
| Malformed_InputsSignaturesLengthMismatch
| Malformed_UnknownError.
#[export] Instance MalformedError_eq_dec : EqDecision MalformedError.
Proof. solve_decision. Defined.

Inductive DeserializationError : Type :=
| De_NetworkId
| De_Transaction
| De_LedgerState
| De_ContractAddress
| De_PublicKey
| De_TypedArenaKey
| De_VersionedArenaKey
| De_UserAddress
| De_SystemTransaction
| De_DustPublicKey
| De_CNightGeneratesDustActionType
| De_CNightGeneratesDustEvent.
#[export] Instance DeserializationError_eq_dec : EqDecision DeserializationError.
Proof. solve_decision. Defined.

Inductive SerializationError : Type :=
| Ser_TransactionIdentifier
| Ser_ZswapState
| Ser_LedgerState
| Ser_LedgerParameters
| Ser_ContractAddress
| Ser_ContractState
| Ser_ContractStateToJson
| Ser_UnknownType
| Ser_MerkleTreeDigest
| Ser_TypedArenaKey
| Ser_VersionedArenaKey
| Ser_CNightGeneratesDustEvent
| Ser_SystemTransaction
| Ser_ArenaHash.
#[export] Instance SerializationError_eq_dec : EqDecision SerializationError.
Proof. solve_decision. Defined.

Inductive TransactionError : Type :=
| Tx_Invalid (e : InvalidError)
| Tx_Malformed (e : MalformedError)
| Tx_SystemTransaction (e : SystemTransactionError).
#[export] Instance TransactionError_eq_dec : EqDecision TransactionError.
Proof. solve_decision. Defined.

Inductive LedgerApiError : Type :=
| Api_Deserialization (e : DeserializationError)
| Api_Serialization (e : SerializationError)
| Api_Transaction (e : TransactionError)
| Api_LedgerCacheError
| Api_NoLedgerState
| Api_LedgerStateScaleDecodingError
| Api_ContractCallCostError
| Api_BlockLimitExceededError
| Api_FeeCalculationError
| Api_HostApiError
| Api_GetTransactionContextError.
#[export] Instance LedgerApiError_eq_dec : EqDecision LedgerApiError.
Proof. solve_decision. Defined.

(** ** [From<LedgerApiError> for u8] *)

Definition deserialization_code (e : DeserializationError) : Z :=
  match e with
  | De_NetworkId => 0
  | De_Transaction => 1
  | De_LedgerState => 2
  | De_ContractAddress => 3
  | De_PublicKey => 4
  | De_TypedArenaKey => 7
  | De_VersionedArenaKey => 5
  | De_UserAddress => 6
  | De_SystemTransaction => 8
  | De_DustPublicKey => 9
  | De_CNightGeneratesDustActionType => 10
  | De_CNightGeneratesDustEvent => 11
  end.

Definition serialization_code (e : SerializationError) : Z :=
  match e with
  | Ser_TransactionIdentifier => 50
  | Ser_ZswapState => 56
  | Ser_LedgerState => 51
  | Ser_LedgerParameters => 52
  | Ser_ContractAddress => 53
  | Ser_ContractState => 54
  | Ser_ContractStateToJson => 55
  | Ser_UnknownType => 57
  | Ser_MerkleTreeDigest => 58
  | Ser_TypedArenaKey => 60
  | Ser_VersionedArenaKey => 59
  | Ser_CNightGeneratesDustEvent => 61
  | Ser_SystemTransaction => 62
  | Ser_ArenaHash => 63
  end.

Definition invalid_code (e : InvalidError) : Z :=
  match e with
  | Invalid_EffectsMismatch => 100
  | Invalid_ContractAlreadyDeployed => 101
  | Invalid_ContractNotPresent => 102
  | Invalid_Zswap => 103
  | Invalid_Transcript => 104
  | Invalid_InsufficientClaimable => 105
  | Invalid_VerifierKeyNotFound => 106
  | Invalid_VerifierKeyAlreadyPresent => 107
  | Invalid_ReplayCounterMismatch => 108
  | Invalid_ReplayProtectionViolation => 193
  | Invalid_BalanceCheckOutOfBounds => 194
  | Invalid_InputNotInUtxos => 195
  | Invalid_DustDoubleSpend => 196
  | Invalid_DustDeregistrationNotRegistered => 197
  | Invalid_GenerationInfoAlreadyPresent => 198
  | Invalid_InvariantViolation => 199
  | Invalid_RewardTooSmall => 200
  | Invalid_UnknownError => 109
  end.

Definition malformed_code (e : MalformedError) : Z :=
  match e with
  | Malformed_VerifierKeyNotSet => 110
  | Malformed_TransactionTooLarge => 111
  | Malformed_VerifierKeyTooLarge => 112
  | Malformed_VerifierKeyNotPresent => 113
  | Malformed_ContractNotPresent => 114
  | Malformed_InvalidProof => 115
  | Malformed_BindingCommitmentOpeningInvalid => 116
  | Malformed_NotNormalized => 117
  | Malformed_FallibleWithoutCheckpoint => 118
  | Malformed_ClaimReceiveFailed => 119
  | Malformed_ClaimSpendFailed => 120
  | Malformed_ClaimNullifierFailed => 121
  | Malformed_ClaimCallFailed => 122
  | Malformed_InvalidSchnorrProof => 123
  | Malformed_UnclaimedCoinCom => 124
  | Malformed_UnclaimedNullifier => 125
  | Malformed_Unbalanced => 126
  | Malformed_Zswap => 127
  | Malformed_BuiltinDecode => 128
  | Malformed_GuaranteedLimit => 129
  | Malformed_MergingContracts => 130
  | Malformed_CantMergeTypes => 131
  | Malformed_ClaimOverflow => 132
  | Malformed_ClaimCoinMismatch => 133
  | Malformed_KeyNotInCommittee => 134
  | Malformed_InvalidCommitteeSignature => 135
  | Malformed_ThresholdMissed => 136
  | Malformed_TooManyZswapEntries => 137
  | Malformed_BalanceCheckOverspend => 138
  | Malformed_InvalidNetworkId => 166
  | Malformed_IllegallyDeclaredGuaranteed => 167
  | Malformed_FeeCalculation => 168
  | Malformed_InvalidDustRegistrationSignature => 169
  | Malformed_InvalidDustSpendProof => 170
  | Malformed_OutOfDustValidityWindow => 171
  | Malformed_MultipleDustRegistrationsForKey => 172
  | Malformed_InsufficientDustForRegistrationFee => 173
  | Malformed_MalformedContractDeploy => 174
  | Malformed_IntentSignatureVerificationFailure => 175
  | Malformed_IntentSignatureKeyMismatch => 176
  | Malformed_IntentSegmentIdCollision => 177
  | Malformed_IntentAtGuaranteedSegmentId => 178
  | Malformed_UnsupportedProofVersion => 179
  | Malformed_GuaranteedTranscriptVersion => 180
  | Malformed_FallibleTranscriptVersion => 181
  | Malformed_TransactionApplicationError => 182
  | Malformed_BalanceCheckOutOfBounds => 183
  | Malformed_BalanceCheckConversionFailure => 184
  | Malformed_PedersenCheckFailure => 185
  | Malformed_EffectsCheckFailure => 186
  | Malformed_DisjointCheckFailure => 187
  | Malformed_SequencingCheckFailure => 188
  | Malformed_InputsNotSorted => 189
  | Malformed_OutputsNotSorted => 190
  | Malformed_DuplicateInputs => 191
  | Malformed_InputsSignaturesLengthMismatch => 192
  | Malformed_UnknownError => 139
  end.

Definition system_transaction_code (e : SystemTransactionError) : Z :=
  match e with
  | System_IllegalPayout => 201
  | System_InsufficientTreasuryFunds => 202
  | System_CommitmentAlreadyPresent => 203
  | System_UnknownError => 204
  | System_ReplayProtectionFailure => 205
  | System_IllegalReserveDistribution => 206
  | System_GenerationInfoAlreadyPresent => 207
  | System_InvalidBasisPoints => 208
  | System_InvariantViolation => 209
  | System_TreasuryDisabled => 210
  end.

Definition error_code (e : LedgerApiError) : Z :=
  match e with
  | Api_Deserialization e => deserialization_code e
  | Api_Serialization e => serialization_code e
  | Api_Transaction e =>
      match e with
      | Tx_Invalid e => invalid_code e
      | Tx_Malformed e => malformed_code e
      | Tx_SystemTransaction e => system_transaction_code e
      end
  | Api_LedgerCacheError => 150
  | Api_NoLedgerState => 151
  | Api_LedgerStateScaleDecodingError => 152
  | Api_ContractCallCostError => 153
  | Api_BlockLimitExceededError => 154
  | Api_FeeCalculationError => 155
  | Api_HostApiError => 255
  | Api_GetTransactionContextError => 165
  end.

(** ** [Display for LedgerApiError] *)

(** [{e:?}]: the name of the variant. *)
Definition invalid_debug (e : InvalidError) : string :=
  (match e with
  | Invalid_EffectsMismatch => "EffectsMismatch"
  | Invalid_ContractAlreadyDeployed => "ContractAlreadyDeployed"
  | Invalid_ContractNotPresent => "ContractNotPresent"
  | Invalid_Zswap => "Zswap"
  | Invalid_Transcript => "Transcript"
  | Invalid_InsufficientClaimable => "InsufficientClaimable"
  | Invalid_VerifierKeyNotFound => "VerifierKeyNotFound"
  | Invalid_VerifierKeyAlreadyPresent => "VerifierKeyAlreadyPresent"
  | Invalid_ReplayCounterMismatch => "ReplayCounterMismatch"
  | Invalid_ReplayProtectionViolation => "ReplayProtectionViolation"
  | Invalid_BalanceCheckOutOfBounds => "BalanceCheckOutOfBounds"
  | Invalid_InputNotInUtxos => "InputNotInUtxos"
  | Invalid_DustDoubleSpend => "DustDoubleSpend"
  | Invalid_DustDeregistrationNotRegistered => "DustDeregistrationNotRegistered"
  | Invalid_GenerationInfoAlreadyPresent => "GenerationInfoAlreadyPresent"
  | Invalid_InvariantViolation => "InvariantViolation"
  | Invalid_RewardTooSmall => "RewardTooSmall"
  | Invalid_UnknownError => "UnknownError"
  end)%string.

Definition malformed_debug (e : MalformedError) : string :=
  (match e with
  | Malformed_VerifierKeyNotSet => "VerifierKeyNotSet"
  | Malformed_TransactionTooLarge => "TransactionTooLarge"
  | Malformed_VerifierKeyTooLarge => "VerifierKeyTooLarge"
  | Malformed_VerifierKeyNotPresent => "VerifierKeyNotPresent"
  | Malformed_ContractNotPresent => "ContractNotPresent"
  | Malformed_InvalidProof => "InvalidProof"
  | Malformed_BindingCommitmentOpeningInvalid => "BindingCommitmentOpeningInvalid"
  | Malformed_NotNormalized => "NotNormalized"
  | Malformed_FallibleWithoutCheckpoint => "FallibleWithoutCheckpoint"
  | Malformed_ClaimReceiveFailed => "ClaimReceiveFailed"
  | Malformed_ClaimSpendFailed => "ClaimSpendFailed"
  | Malformed_ClaimNullifierFailed => "ClaimNullifierFailed"
  | Malformed_ClaimCallFailed => "ClaimCallFailed"
  | Malformed_InvalidSchnorrProof => "InvalidSchnorrProof"
  | Malformed_UnclaimedCoinCom => "UnclaimedCoinCom"
  | Malformed_UnclaimedNullifier => "UnclaimedNullifier"
  | Malformed_Unbalanced => "Unbalanced"
  | Malformed_Zswap => "Zswap"
  | Malformed_BuiltinDecode => "BuiltinDecode"
  | Malformed_GuaranteedLimit => "GuaranteedLimit"
  | Malformed_MergingContracts => "MergingContracts"
  | Malformed_CantMergeTypes => "CantMergeTypes"
  | Malformed_ClaimOverflow => "ClaimOverflow"
  | Malformed_ClaimCoinMismatch => "ClaimCoinMismatch"
  | Malformed_KeyNotInCommittee => "KeyNotInCommittee"
  | Malformed_InvalidCommitteeSignature => "InvalidCommitteeSignature"
  | Malformed_ThresholdMissed => "ThresholdMissed"
  | Malformed_TooManyZswapEntries => "TooManyZswapEntries"
  | Malformed_BalanceCheckOverspend => "BalanceCheckOverspend"
  | Malformed_InvalidNetworkId => "InvalidNetworkId"
  | Malformed_IllegallyDeclaredGuaranteed => "IllegallyDeclaredGuaranteed"
  | Malformed_FeeCalculation => "FeeCalculation"
  | Malformed_InvalidDustRegistrationSignature => "InvalidDustRegistrationSignature"
  | Malformed_InvalidDustSpendProof => "InvalidDustSpendProof"
  | Malformed_OutOfDustValidityWindow => "OutOfDustValidityWindow"
  | Malformed_MultipleDustRegistrationsForKey => "MultipleDustRegistrationsForKey"
  | Malformed_InsufficientDustForRegistrationFee => "InsufficientDustForRegistrationFee"
  | Malformed_MalformedContractDeploy => "MalformedContractDeploy"
  | Malformed_IntentSignatureVerificationFailure => "IntentSignatureVerificationFailure"
  | Malformed_IntentSignatureKeyMismatch => "IntentSignatureKeyMismatch"
  | Malformed_IntentSegmentIdCollision => "IntentSegmentIdCollision"
  | Malformed_IntentAtGuaranteedSegmentId => "IntentAtGuaranteedSegmentId"
  | Malformed_UnsupportedProofVersion => "UnsupportedProofVersion"
  | Malformed_GuaranteedTranscriptVersion => "GuaranteedTranscriptVersion"
  | Malformed_FallibleTranscriptVersion => "FallibleTranscriptVersion"
  | Malformed_TransactionApplicationError => "TransactionApplicationError"
  | Malformed_BalanceCheckOutOfBounds => "BalanceCheckOutOfBounds"
  | Malformed_BalanceCheckConversionFailure => "BalanceCheckConversionFailure"
  | Malformed_PedersenCheckFailure => "PedersenCheckFailure"
  | Malformed_EffectsCheckFailure => "EffectsCheckFailure"
  | Malformed_DisjointCheckFailure => "DisjointCheckFailure"
  | Malformed_SequencingCheckFailure => "SequencingCheckFailure"
  | Malformed_InputsNotSorted => "InputsNotSorted"
  | Malformed_OutputsNotSorted => "OutputsNotSorted"
  | Malformed_DuplicateInputs => "DuplicateInputs"
  | Malformed_InputsSignaturesLengthMismatch => "InputsSignaturesLengthMismatch"
  | Malformed_UnknownError => "UnknownError"
  end)%string.

Definition system_transaction_debug (e : SystemTransactionError) : string :=
  (match e with
  | System_IllegalPayout => "IllegalPayout"
  | System_InsufficientTreasuryFunds => "InsufficientTreasuryFunds"
  | System_CommitmentAlreadyPresent => "CommitmentAlreadyPresent"
  | System_UnknownError => "UnknownError"
  | System_ReplayProtectionFailure => "ReplayProtectionFailure"
  | System_IllegalReserveDistribution => "IllegalReserveDistribution"
  | System_GenerationInfoAlreadyPresent => "GenerationInfoAlreadyPresent"
  | System_InvalidBasisPoints => "InvalidBasisPoints"
  | System_InvariantViolation => "InvariantViolation"
  | System_TreasuryDisabled => "TreasuryDisabled"
  end)%string.

Definition deserialization_display (e : DeserializationError) : string :=
  (match e with
  | De_NetworkId => "Error deserializing: NetworkId"
  | De_Transaction => "Error deserializing: Transaction"
  | De_LedgerState => "Error deserializing: LedgerState"
  | De_ContractAddress => "Error deserializing: Address"
  | De_PublicKey => "Error deserializing: PublicKey"
  | De_TypedArenaKey => "Error deserializing: TypedArenaKey"
  | De_VersionedArenaKey => "Error deserializing: VersionedArenaKey"
  | De_UserAddress => "Error deserializing: UserAddress"
  | De_SystemTransaction => "Error deserializing: SystemTransaction"
  | De_DustPublicKey => "Error deserializing: DustPublicKey"
  | De_CNightGeneratesDustActionType => "Error deserializing: CNightGeneratesDustActionType"
  | De_CNightGeneratesDustEvent => "Error deserializing: CNightGeneratesDustEvent"
  end)%string.

Definition serialization_display (e : SerializationError) : string :=
  (match e with
  | Ser_TransactionIdentifier => "Error serializing: TransactionIdentifier"
  | Ser_ZswapState => "Error serializing: ZswapState"
  | Ser_LedgerState => "Error serializing: LedgerState"
  | Ser_LedgerParameters => "Error serializing: LedgerParameters"
  | Ser_ContractAddress => "Error serializing: Address"
  | Ser_ContractState => "Error serializing: ContractState"
  | Ser_ContractStateToJson => "Error serializing: ContractStateToJson"
  | Ser_UnknownType => "Error serializing: UnknownType"
  | Ser_MerkleTreeDigest => "Error serializing: MerkleTreeDigest"
  | Ser_TypedArenaKey => "Error serializing: TypedArenaKey"
  | Ser_VersionedArenaKey => "Error serializing: VersionedArenaKey"
  | Ser_CNightGeneratesDustEvent => "Error serializing: CNightGeneratesDustEvent"
  | Ser_SystemTransaction => "Error serializing: SystemTransaction"
  | Ser_ArenaHash => "Error serializing: ArenaHash"
  end)%string.

Definition error_display (e : LedgerApiError) : string :=
  (match e with
  | Api_Deserialization e => deserialization_display e
  | Api_Serialization e => serialization_display e
  | Api_Transaction e =>
      match e with
      | Tx_Invalid e => "Transaction Error: Invalid(" +:+ invalid_debug e +:+ ")"
      | Tx_Malformed e => "Transaction Error: Malformed(" +:+ malformed_debug e +:+ ")"
      | Tx_SystemTransaction e =>
          "Transaction Error: SystemTransaction(" +:+ system_transaction_debug e +:+ ")"
      end
  | Api_LedgerCacheError => "Error with Ledger Cache: poisoned lock"
  | Api_NoLedgerState => "Error, LedgerState is not present"
  | Api_LedgerStateScaleDecodingError => "Error, it was not possible to SCALE decode the Ledger State"
  | Api_ContractCallCostError => "Error, it was not possible calculate the cost of a Contract Call"
  | Api_BlockLimitExceededError => "Error, exceeded block limit during post-block update declaration"
  | Api_FeeCalculationError => "Error, exceeded block limit during transaction application"
  | Api_HostApiError => "Error while processing the transaction in the host API"
  | Api_GetTransactionContextError => "Error while getting transaction context"
  end)%string.

(** ** All errors, and decoding a code *)

Definition all_deserialization : list DeserializationError :=
  [De_NetworkId; De_Transaction; De_LedgerState; De_ContractAddress; De_PublicKey; De_TypedArenaKey; De_VersionedArenaKey; De_UserAddress; De_SystemTransaction; De_DustPublicKey; De_CNightGeneratesDustActionType; De_CNightGeneratesDustEvent].
Definition all_serialization : list SerializationError :=
  [Ser_TransactionIdentifier; Ser_ZswapState; Ser_LedgerState; Ser_LedgerParameters; Ser_ContractAddress; Ser_ContractState; Ser_ContractStateToJson; Ser_UnknownType; Ser_MerkleTreeDigest; Ser_TypedArenaKey; Ser_VersionedArenaKey; Ser_CNightGeneratesDustEvent; Ser_SystemTransaction; Ser_ArenaHash].
Definition all_invalid : list InvalidError :=
  [Invalid_EffectsMismatch; Invalid_ContractAlreadyDeployed; Invalid_ContractNotPresent; Invalid_Zswap; Invalid_Transcript; Invalid_InsufficientClaimable; Invalid_VerifierKeyNotFound; Invalid_VerifierKeyAlreadyPresent; Invalid_ReplayCounterMismatch; Invalid_ReplayProtectionViolation; Invalid_BalanceCheckOutOfBounds; Invalid_InputNotInUtxos; Invalid_DustDoubleSpend; Invalid_DustDeregistrationNotRegistered; Invalid_GenerationInfoAlreadyPresent; Invalid_InvariantViolation; Invalid_RewardTooSmall; Invalid_UnknownError].
Definition all_malformed : list MalformedError :=
  [Malformed_VerifierKeyNotSet; Malformed_TransactionTooLarge; Malformed_VerifierKeyTooLarge; Malformed_VerifierKeyNotPresent; Malformed_ContractNotPresent; Malformed_InvalidProof; Malformed_BindingCommitmentOpeningInvalid; Malformed_NotNormalized; Malformed_FallibleWithoutCheckpoint; Malformed_ClaimReceiveFailed; Malformed_ClaimSpendFailed; Malformed_ClaimNullifierFailed; Malformed_ClaimCallFailed; Malformed_InvalidSchnorrProof; Malformed_UnclaimedCoinCom; Malformed_UnclaimedNullifier; Malformed_Unbalanced; Malformed_Zswap; Malformed_BuiltinDecode; Malformed_GuaranteedLimit; Malformed_MergingContracts; Malformed_CantMergeTypes; Malformed_ClaimOverflow; Malformed_ClaimCoinMismatch; Malformed_KeyNotInCommittee; Malformed_InvalidCommitteeSignature; Malformed_ThresholdMissed; Malformed_TooManyZswapEntries; Malformed_BalanceCheckOverspend; Malformed_InvalidNetworkId; Malformed_IllegallyDeclaredGuaranteed; Malformed_FeeCalculation; Malformed_InvalidDustRegistrationSignature; Malformed_InvalidDustSpendProof; Malformed_OutOfDustValidityWindow; Malformed_MultipleDustRegistrationsForKey; Malformed_InsufficientDustForRegistrationFee; Malformed_MalformedContractDeploy; Malformed_IntentSignatureVerificationFailure; Malformed_IntentSignatureKeyMismatch; Malformed_IntentSegmentIdCollision; Malformed_IntentAtGuaranteedSegmentId; Malformed_UnsupportedProofVersion; Malformed_GuaranteedTranscriptVersion; Malformed_FallibleTranscriptVersion; Malformed_TransactionApplicationError; Malformed_BalanceCheckOutOfBounds; Malformed_BalanceCheckConversionFailure; Malformed_PedersenCheckFailure; Malformed_EffectsCheckFailure; Malformed_DisjointCheckFailure; Malformed_SequencingCheckFailure; Malformed_InputsNotSorted; Malformed_OutputsNotSorted; Malformed_DuplicateInputs; Malformed_InputsSignaturesLengthMismatch; Malformed_UnknownError].
Definition all_system_transaction : list SystemTransactionError :=
  [System_IllegalPayout; System_InsufficientTreasuryFunds; System_CommitmentAlreadyPresent; System_UnknownError; System_ReplayProtectionFailure; System_IllegalReserveDistribution; System_GenerationInfoAlreadyPresent; System_InvalidBasisPoints; System_InvariantViolation; System_TreasuryDisabled].
Definition all_errors : list LedgerApiError :=
  (Api_Deserialization <$> all_deserialization) ++ (Api_Serialization <$> all_serialization)
  ++ ((Api_Transaction ∘ Tx_Invalid) <$> all_invalid)
  ++ ((Api_Transaction ∘ Tx_Malformed) <$> all_malformed)
  ++ ((Api_Transaction ∘ Tx_SystemTransaction) <$> all_system_transaction)
  ++ [Api_LedgerCacheError; Api_NoLedgerState; Api_LedgerStateScaleDecodingError; Api_ContractCallCostError; Api_BlockLimitExceededError; Api_FeeCalculationError; Api_HostApiError; Api_GetTransactionContextError].

(** The error a pool sees behind a custom code or behind a text, if any. *)
Definition error_of_code (c : Z) : option LedgerApiError :=
  List.find (λ e, error_code e =? c) all_errors.
Definition error_of_text (t : string) : option LedgerApiError :=
  List.find (λ e, bool_decide (error_display e = t)) all_errors.

(** Case analysis on an error down to its innermost variant. *)
Ltac case_error e :=
  destruct e as [[]|[]|[[]|[]|[]]| | | | | | | |].

(** ** Properties *)

(**  error codes are faithful: each ledger error has its own code, which
    fits a byte, so the error can be read back from the code a transaction was
    rejected with. *)
Theorem error_code_roundtrip e :
  error_of_code (error_code e) = Some e ∧ in_range 8 (error_code e).
Proof. case_error e; (split; [vm_compute; reflexivity|split; vm_compute; discriminate]). Qed.

(** the display texts of two different ledger errors differ. *)
Theorem error_display_roundtrip e : error_of_text (error_display e) = Some e.
Proof. case_error e; vm_compute; reflexivity. Qed.
