(* ===== verification/LedgerInterface.v ===== *)
(** * The interfaces around the ledger

    Models the traits of [primitives/midnight/src/lib.rs] through which pallets
    reach the ledger state and each other, the bridge recipient type of the same
    file, and the result types of [ledger/src/common/types.rs].

    The ledger itself (midnight-ledger, reached through the runtime's host
    functions) is a dependency: [LedgerApi] is the record of the functions the
    pallets call, as parameters. *)

From stdpp Require Import prelude.
From S2P Require Import Prelude Frame LedgerErrors.

Open Scope Z_scope.

(** ** Result types: [ledger/src/common/types.rs] *)

Record UtxoInfo : Type := {
  utxo_address : list Z; token_type : list Z; intent_hash : list Z;
  utxo_value : Z; output_no : Z;
}.
#[export] Instance UtxoInfo_eq_dec : EqDecision UtxoInfo.
Proof. solve_decision. Defined.

Record TransactionAppliedStateRoot : Type := {
  state_root : list Z;
  applied_tx_hash : list Z;
  all_applied : bool;
  call_addresses : list (list Z);
  deploy_addresses : list (list Z);
  maintain_addresses : list (list Z);
  claim_rewards : list Z;
  unshielded_utxos_created : list UtxoInfo;
  unshielded_utxos_spent : list UtxoInfo;
}.

Record SystemTransactionAppliedStateRoot : Type :=
  { sys_state_root : list Z; sys_tx_hash : list Z; sys_tx_type : list Z }.

(** [WrappedHash::from(Hash128)]: sixteen bytes padded with zeros to 32. *)
Definition wrapped_hash_from (value : list Z) : list Z := value ++ replicate 16 0.

Record BlockContext : Type := {
  tblock : Z; tblock_err : Z; parent_block_hash : list Z; last_block_time : Z;
}.

(** ** The ledger's functions *)

Record LedgerApi : Type := {
  apply_transaction :
    list Z → list Z → BlockContext → Z → outcome LedgerApiError TransactionAppliedStateRoot;
  apply_system_transaction :
    list Z → list Z → BlockContext → Z → outcome LedgerApiError SystemTransactionAppliedStateRoot;
  validate_transaction : list Z → list Z → BlockContext → Z → Z → outcome LedgerApiError (list Z);
  validate_guaranteed_execution :
    list Z → list Z → BlockContext → Z → outcome LedgerApiError unit;
  post_block_update : list Z → BlockContext → outcome LedgerApiError (list Z);
  get_transaction_cost_of : list Z → list Z → BlockContext → Z → outcome LedgerApiError Z;
  is_governance_allowed_system_tx : list Z → bool;
  (** Queries on a ledger state given by its key. *)
  query_contract_state : list Z → list Z → outcome LedgerApiError (list Z);
  query_zswap_chain_state : list Z → list Z → outcome LedgerApiError (list Z);
  query_unclaimed_amount : list Z → list Z → outcome LedgerApiError Z;
  query_ledger_parameters : list Z → outcome LedgerApiError (list Z);
  query_zswap_state_root : list Z → outcome LedgerApiError (list Z);
  query_ledger_state_root : list Z → outcome LedgerApiError (list Z);
}.

(** ** Traits of [primitives/midnight/src/lib.rs] *)

Class LedgerStateProviderMut (W : Type) : Type := {
  get_ledger_state_key {E} : M W E (list Z);
  mut_ledger_state {E R : Type} : (list Z → outcome E (list Z * R)) → M W E R;
}.

Class LedgerBlockContextProvider (W : Type) : Type := {
  get_block_context : W → BlockContext;
}.

(** Runs a serialized system transaction on the state [W] of the executing pallet
    and returns the transaction's hash. *)
Class MidnightSystemTransactionExecutor (W Err : Type) : Type := {
  execute_system_transaction : list Z → M W Err (list Z);
}.

(** ** Bridge recipients *)

Definition BRIDGE_RECIPIENT_MAX_BYTES : Z := 32.
Inductive BridgeRecipientError : Type := TooLong.
Record BridgeRecipient : Type := { recipient_bytes : list Z }.

(** [TryFrom<&[u8]>] and [TryFrom<Vec<u8>>]. *)
Definition bridge_recipient_try_from (value : list Z) :
    outcome BridgeRecipientError BridgeRecipient :=
  match bounded_try_from BRIDGE_RECIPIENT_MAX_BYTES value with
  | Some v => Ok {| recipient_bytes := v |}
  | None => Err TooLong
  end.

(** [UncheckedFrom<H256>]: panics unless the bytes fit. *)
Definition bridge_recipient_unchecked_from (value : list Z) :
    outcome BridgeRecipientError BridgeRecipient :=
  match bounded_try_from BRIDGE_RECIPIENT_MAX_BYTES value with
  | Some v => Ok {| recipient_bytes := v |}
  | None => Panic
  end.

(** [From<BridgeRecipient> for Vec<u8>]. *)
Definition bridge_recipient_into (r : BridgeRecipient) : list Z := recipient_bytes r.

Lemma bridge_recipient_roundtrip v r :
  bridge_recipient_try_from v = Ok r ↔
    bridge_recipient_into r = v ∧ Z.of_nat (length v) ≤ BRIDGE_RECIPIENT_MAX_BYTES.
Proof.
  unfold bridge_recipient_try_from. destruct (bounded_try_from _ v) as [v'|] eqn:Hb.
  - apply bounded_try_from_Some in Hb as [-> Hl]. destruct r; simpl.
    split; [intros; by simplify_eq|by intros [-> _]].
  - apply bounded_try_from_None in Hb. split; [done|lia].
Qed.
