(* ===== verification/LedgerTransaction.v ===== *)
(** * Ledger transactions on the host side

    Models [ledger/src/versions/common/api/mod.rs] (serialization with the error
    of each type), [api/transaction.rs] (what the host functions extract from a
    transaction: its operations and its unshielded UTXOs, and the check of the
    latter against the ledger state), [conversions.rs] (errors of the ledger
    library) and the transaction details of [ledger/src/common/types.rs].

    The transaction types of the ledger library are a parameter, [MnTransactions]:
    their accessors, as functions. *)

From stdpp Require Import prelude gmap strings.
From S2P Require Import Prelude Frame Collections LedgerErrors LedgerInterface.

Open Scope Z_scope.

(** ** Serialization: [Api] *)

(** The two formats of midnight-serialize, for a type. *)
Class TaggedCodec (T : Type) : Type := {
  midnight_tagged_serialize : T → option (list Z);
  midnight_tagged_deserialize : list Z → option T;
}.
Class PlainCodec (T : Type) : Type := {
  midnight_serialize : T → option (list Z);
  midnight_deserialize : list Z → option T;
}.

(** The traits of the same names. *)
Class SerializableError (T : Type) : Type := serializable_error : SerializationError.
Arguments serializable_error T {_}.
Class DeserializableError (T : Type) : Type := deserializable_error : DeserializationError.
Arguments deserializable_error T {_}.

Definition tagged_deserialize {T} `{TaggedCodec T, DeserializableError T} (bytes : list Z) :
    outcome LedgerApiError T :=
  ok_or (midnight_tagged_deserialize bytes) (Api_Deserialization (deserializable_error T)).

Definition deserialize {T} `{PlainCodec T, DeserializableError T} (bytes : list Z) :
    outcome LedgerApiError T :=
  ok_or (midnight_deserialize bytes) (Api_Deserialization (deserializable_error T)).

Definition tagged_serialize {T} `{TaggedCodec T, SerializableError T} (value : T) :
    outcome LedgerApiError (list Z) :=
  ok_or (midnight_tagged_serialize value) (Api_Serialization (serializable_error T)).

Definition serialize {T} `{PlainCodec T, SerializableError T} (value : T) :
    outcome LedgerApiError (list Z) :=
  ok_or (midnight_serialize value) (Api_Serialization (serializable_error T)).

(** Newtypes around 32-byte hashes. *)
Record ContractAddress : Type := { contract_address : list Z }.
Record UserAddress : Type := { user_address : list Z }.
#[export] Instance ContractAddress_eq_dec : EqDecision ContractAddress.
Proof. solve_decision. Defined.
#[export] Instance UserAddress_eq_dec : EqDecision UserAddress.
Proof. solve_decision. Defined.
#[export] Instance UserAddress_countable : Countable UserAddress.
Proof. by apply (inj_countable' user_address (λ a, {| user_address := a |})); intros []. Defined.

(** [Api::night_address]: [try_into] a [[u8; 32]]. *)
Definition night_address (bytes : list Z) : outcome LedgerApiError UserAddress :=
  if bool_decide (length bytes = 32%nat) then Ok {| user_address := bytes |}
  else Err (Api_Deserialization De_UserAddress).

#[export] Instance ContractAddress_serializable_error : SerializableError ContractAddress :=
  Ser_ContractAddress.
#[export] Instance ContractAddress_deserializable_error : DeserializableError ContractAddress :=
  De_ContractAddress.

(** ** Errors of the ledger library: [conversions.rs]

    The variants the conversions name, without their payload; [other] is a
    variant they do not name. *)

Inductive TransactionInvalid : Type :=
| Ti_EffectsMismatch
| Ti_ContractAlreadyDeployed
| Ti_ContractNotPresent
| Ti_Zswap
| Ti_Transcript
| Ti_InsufficientClaimable
| Ti_VerifierKeyNotFound
| Ti_VerifierKeyAlreadyPresent
| Ti_ReplayCounterMismatch
| Ti_ReplayProtectionViolation
| Ti_BalanceCheckOutOfBounds
| Ti_InputNotInUtxos
| Ti_DustDoubleSpend
| Ti_DustDeregistrationNotRegistered
| Ti_GenerationInfoAlreadyPresent
| Ti_InvariantViolation
| Ti_RewardTooSmall
| Ti_other.

Definition invalid_error_from (error : TransactionInvalid) : InvalidError :=
  match error with
  | Ti_EffectsMismatch => Invalid_EffectsMismatch
  | Ti_ContractAlreadyDeployed => Invalid_ContractAlreadyDeployed
  | Ti_ContractNotPresent => Invalid_ContractNotPresent
  | Ti_Zswap => Invalid_Zswap
  | Ti_Transcript => Invalid_Transcript
  | Ti_InsufficientClaimable => Invalid_InsufficientClaimable
  | Ti_VerifierKeyNotFound => Invalid_VerifierKeyNotFound
  | Ti_VerifierKeyAlreadyPresent => Invalid_VerifierKeyAlreadyPresent
  | Ti_ReplayCounterMismatch => Invalid_ReplayCounterMismatch
  | Ti_ReplayProtectionViolation => Invalid_ReplayProtectionViolation
  | Ti_BalanceCheckOutOfBounds => Invalid_BalanceCheckOutOfBounds
  | Ti_InputNotInUtxos => Invalid_InputNotInUtxos
  | Ti_DustDoubleSpend => Invalid_DustDoubleSpend
  | Ti_DustDeregistrationNotRegistered => Invalid_DustDeregistrationNotRegistered
  | Ti_GenerationInfoAlreadyPresent => Invalid_GenerationInfoAlreadyPresent
  | Ti_InvariantViolation => Invalid_InvariantViolation
  | Ti_RewardTooSmall => Invalid_RewardTooSmall
  | Ti_other => Invalid_UnknownError
  end.

Inductive LedgerSystemTransactionError : Type :=
| Lste_IllegalPayout
| Lste_InsufficientTreasuryFunds
| Lste_CommitmentAlreadyPresent
| Lste_ReplayProtectionFailure
| Lste_IllegalReserveDistribution
| Lste_GenerationInfoAlreadyPresent
| Lste_InvalidBasisPoints
| Lste_InvariantViolation
| Lste_TreasuryDisabled.

Definition system_transaction_error_from (error : LedgerSystemTransactionError) : SystemTransactionError :=
  match error with
  | Lste_IllegalPayout => System_IllegalPayout
  | Lste_InsufficientTreasuryFunds => System_InsufficientTreasuryFunds
  | Lste_CommitmentAlreadyPresent => System_CommitmentAlreadyPresent
  | Lste_ReplayProtectionFailure => System_ReplayProtectionFailure
  | Lste_IllegalReserveDistribution => System_IllegalReserveDistribution
  | Lste_GenerationInfoAlreadyPresent => System_GenerationInfoAlreadyPresent
  | Lste_InvalidBasisPoints => System_InvalidBasisPoints
  | Lste_InvariantViolation => System_InvariantViolation
  | Lste_TreasuryDisabled => System_TreasuryDisabled
  end.

Inductive MalformedTransaction : Type :=
| Mt_VerifierKeyNotSet
| Mt_TransactionTooLarge
| Mt_VerifierKeyTooLarge
| Mt_VerifierKeyNotPresent
| Mt_ContractNotPresent
| Mt_InvalidProof
| Mt_BindingCommitmentOpeningInvalid
| Mt_NotNormalized
| Mt_FallibleWithoutCheckpoint
| Mt_ClaimReceiveFailed
| Mt_ClaimSpendFailed
| Mt_ClaimNullifierFailed
| Mt_InvalidSchnorrProof
| Mt_UnclaimedCoinCom
| Mt_UnclaimedNullifier
| Mt_Unbalanced
| Mt_Zswap
| Mt_BuiltinDecode
| Mt_CantMergeTypes
| Mt_ClaimOverflow
| Mt_ClaimCoinMismatch
| Mt_KeyNotInCommittee
| Mt_InvalidCommitteeSignature
| Mt_ThresholdMissed
| Mt_TooManyZswapEntries
| Mt_BalanceCheckOverspend
| Mt_InvalidNetworkId
| Mt_IllegallyDeclaredGuaranteed
| Mt_FeeCalculation
| Mt_InvalidDustRegistrationSignature
| Mt_InvalidDustSpendProof
| Mt_OutOfDustValidityWindow
| Mt_MultipleDustRegistrationsForKey
| Mt_InsufficientDustForRegistrationFee
| Mt_MalformedContractDeploy
| Mt_IntentSignatureVerificationFailure
| Mt_IntentSignatureKeyMismatch
| Mt_IntentSegmentIdCollision
| Mt_IntentAtGuaranteedSegmentId
| Mt_UnsupportedProofVersion
| Mt_GuaranteedTranscriptVersion
| Mt_FallibleTranscriptVersion
| Mt_TransactionApplicationError
| Mt_BalanceCheckOutOfBounds
| Mt_BalanceCheckConversionFailure
| Mt_PedersenCheckFailure
| Mt_EffectsCheckFailure
| Mt_DisjointCheckFailure
| Mt_SequencingCheckFailure
| Mt_InputsNotSorted
| Mt_OutputsNotSorted
| Mt_DuplicateInputs
| Mt_InputsSignaturesLengthMismatch
| Mt_other.

Definition malformed_error_from (error : MalformedTransaction) : MalformedError :=
  match error with
  | Mt_VerifierKeyNotSet => Malformed_VerifierKeyNotSet
  | Mt_TransactionTooLarge => Malformed_TransactionTooLarge
  | Mt_VerifierKeyTooLarge => Malformed_VerifierKeyTooLarge
  | Mt_VerifierKeyNotPresent => Malformed_VerifierKeyNotPresent
  | Mt_ContractNotPresent => Malformed_ContractNotPresent
  | Mt_InvalidProof => Malformed_InvalidProof
  | Mt_BindingCommitmentOpeningInvalid => Malformed_BindingCommitmentOpeningInvalid
  | Mt_NotNormalized => Malformed_NotNormalized
  | Mt_FallibleWithoutCheckpoint => Malformed_FallibleWithoutCheckpoint
  | Mt_ClaimReceiveFailed => Malformed_ClaimReceiveFailed
  | Mt_ClaimSpendFailed => Malformed_ClaimSpendFailed
  | Mt_ClaimNullifierFailed => Malformed_ClaimNullifierFailed
  | Mt_InvalidSchnorrProof => Malformed_InvalidSchnorrProof
  | Mt_UnclaimedCoinCom => Malformed_UnclaimedCoinCom
  | Mt_UnclaimedNullifier => Malformed_UnclaimedNullifier
  | Mt_Unbalanced => Malformed_Unbalanced
  | Mt_Zswap => Malformed_Zswap
  | Mt_BuiltinDecode => Malformed_BuiltinDecode
  | Mt_CantMergeTypes => Malformed_CantMergeTypes
  | Mt_ClaimOverflow => Malformed_ClaimOverflow
  | Mt_ClaimCoinMismatch => Malformed_ClaimCoinMismatch
  | Mt_KeyNotInCommittee => Malformed_KeyNotInCommittee
  | Mt_InvalidCommitteeSignature => Malformed_InvalidCommitteeSignature
  | Mt_ThresholdMissed => Malformed_ThresholdMissed
  | Mt_TooManyZswapEntries => Malformed_TooManyZswapEntries
  | Mt_BalanceCheckOverspend => Malformed_BalanceCheckOverspend
  | Mt_InvalidNetworkId => Malformed_InvalidNetworkId
  | Mt_IllegallyDeclaredGuaranteed => Malformed_IllegallyDeclaredGuaranteed
  | Mt_FeeCalculation => Malformed_FeeCalculation
  | Mt_InvalidDustRegistrationSignature => Malformed_InvalidDustRegistrationSignature
  | Mt_InvalidDustSpendProof => Malformed_InvalidDustSpendProof
  | Mt_OutOfDustValidityWindow => Malformed_OutOfDustValidityWindow
  | Mt_MultipleDustRegistrationsForKey => Malformed_MultipleDustRegistrationsForKey
  | Mt_InsufficientDustForRegistrationFee => Malformed_InsufficientDustForRegistrationFee
  | Mt_MalformedContractDeploy => Malformed_MalformedContractDeploy
  | Mt_IntentSignatureVerificationFailure => Malformed_IntentSignatureVerificationFailure
  | Mt_IntentSignatureKeyMismatch => Malformed_IntentSignatureKeyMismatch
  | Mt_IntentSegmentIdCollision => Malformed_IntentSegmentIdCollision
  | Mt_IntentAtGuaranteedSegmentId => Malformed_IntentAtGuaranteedSegmentId
  | Mt_UnsupportedProofVersion => Malformed_UnsupportedProofVersion
  | Mt_GuaranteedTranscriptVersion => Malformed_GuaranteedTranscriptVersion
  | Mt_FallibleTranscriptVersion => Malformed_FallibleTranscriptVersion
  | Mt_TransactionApplicationError => Malformed_TransactionApplicationError
  | Mt_BalanceCheckOutOfBounds => Malformed_BalanceCheckOutOfBounds
  | Mt_BalanceCheckConversionFailure => Malformed_BalanceCheckConversionFailure
  | Mt_PedersenCheckFailure => Malformed_PedersenCheckFailure
  | Mt_EffectsCheckFailure => Malformed_EffectsCheckFailure
  | Mt_DisjointCheckFailure => Malformed_DisjointCheckFailure
  | Mt_SequencingCheckFailure => Malformed_SequencingCheckFailure
  | Mt_InputsNotSorted => Malformed_InputsNotSorted
  | Mt_OutputsNotSorted => Malformed_OutputsNotSorted
  | Mt_DuplicateInputs => Malformed_DuplicateInputs
  | Mt_InputsSignaturesLengthMismatch => Malformed_InputsSignaturesLengthMismatch
  | Mt_other => Malformed_UnknownError
  end.

(** ** Rejection codes *)

(** An error of the ledger library on applying or verifying a transaction. *)
Inductive LibraryError : Type :=
| LibInvalid (e : TransactionInvalid)
| LibMalformed (e : MalformedTransaction)
| LibSystem (e : LedgerSystemTransactionError).

(** The byte under which it reaches the caller of a host function. *)
Definition library_error_code (e : LibraryError) : Z :=
  error_code (Api_Transaction
    match e with
    | LibInvalid e => Tx_Invalid (invalid_error_from e)
    | LibMalformed e => Tx_Malformed (malformed_error_from e)
    | LibSystem e => Tx_SystemTransaction (system_transaction_error_from e)
    end).

Definition all_transaction_invalid : list TransactionInvalid :=
  [Ti_EffectsMismatch; Ti_ContractAlreadyDeployed; Ti_ContractNotPresent; Ti_Zswap;
   Ti_Transcript; Ti_InsufficientClaimable; Ti_VerifierKeyNotFound;
   Ti_VerifierKeyAlreadyPresent; Ti_ReplayCounterMismatch; Ti_ReplayProtectionViolation;
   Ti_BalanceCheckOutOfBounds; Ti_InputNotInUtxos; Ti_DustDoubleSpend;
   Ti_DustDeregistrationNotRegistered; Ti_GenerationInfoAlreadyPresent; Ti_InvariantViolation;
   Ti_RewardTooSmall; Ti_other].
Definition all_system_transaction_error : list LedgerSystemTransactionError :=
  [Lste_IllegalPayout; Lste_InsufficientTreasuryFunds; Lste_CommitmentAlreadyPresent;
   Lste_ReplayProtectionFailure; Lste_IllegalReserveDistribution;
   Lste_GenerationInfoAlreadyPresent; Lste_InvalidBasisPoints; Lste_InvariantViolation;
   Lste_TreasuryDisabled].
Definition all_malformed_transaction : list MalformedTransaction :=
  [Mt_VerifierKeyNotSet; Mt_TransactionTooLarge; Mt_VerifierKeyTooLarge;
   Mt_VerifierKeyNotPresent; Mt_ContractNotPresent; Mt_InvalidProof;
   Mt_BindingCommitmentOpeningInvalid; Mt_NotNormalized; Mt_FallibleWithoutCheckpoint;
   Mt_ClaimReceiveFailed; Mt_ClaimSpendFailed; Mt_ClaimNullifierFailed; Mt_InvalidSchnorrProof;
   Mt_UnclaimedCoinCom; Mt_UnclaimedNullifier; Mt_Unbalanced; Mt_Zswap; Mt_BuiltinDecode;
   Mt_CantMergeTypes; Mt_ClaimOverflow; Mt_ClaimCoinMismatch; Mt_KeyNotInCommittee;
   Mt_InvalidCommitteeSignature; Mt_ThresholdMissed; Mt_TooManyZswapEntries;
   Mt_BalanceCheckOverspend; Mt_InvalidNetworkId; Mt_IllegallyDeclaredGuaranteed;
   Mt_FeeCalculation; Mt_InvalidDustRegistrationSignature; Mt_InvalidDustSpendProof;
   Mt_OutOfDustValidityWindow; Mt_MultipleDustRegistrationsForKey;
   Mt_InsufficientDustForRegistrationFee; Mt_MalformedContractDeploy;
   Mt_IntentSignatureVerificationFailure; Mt_IntentSignatureKeyMismatch;
   Mt_IntentSegmentIdCollision; Mt_IntentAtGuaranteedSegmentId; Mt_UnsupportedProofVersion;
   Mt_GuaranteedTranscriptVersion; Mt_FallibleTranscriptVersion;
   Mt_TransactionApplicationError; Mt_BalanceCheckOutOfBounds;
   Mt_BalanceCheckConversionFailure; Mt_PedersenCheckFailure; Mt_EffectsCheckFailure;
   Mt_DisjointCheckFailure; Mt_SequencingCheckFailure; Mt_InputsNotSorted; Mt_OutputsNotSorted;
   Mt_DuplicateInputs; Mt_InputsSignaturesLengthMismatch; Mt_other].
Definition all_library_errors : list LibraryError :=
  (LibInvalid <$> all_transaction_invalid) ++ (LibMalformed <$> all_malformed_transaction)
    ++ (LibSystem <$> all_system_transaction_error).

Lemma all_library_errors_complete e : e ∈ all_library_errors.
Proof.
  unfold all_library_errors. rewrite !elem_of_app, !list_elem_of_fmap.
  destruct e as [e|e|e]; [left|right; left|right; right]; (eexists; split; [done|]);
    destruct e; repeat first [apply list_elem_of_here|apply list_elem_of_further].
Qed.

Lemma NoDup_fmap_inj_on {A B} (f : A → B) (l : list A) x y :
  NoDup (f <$> l) → x ∈ l → y ∈ l → f x = f y → x = y.
Proof.
  intros Hnd [i Hi]%list_elem_of_lookup [j Hj]%list_elem_of_lookup Heq.
  assert (i = j) as ->.
  { eapply NoDup_lookup; [exact Hnd|..]; rewrite list_lookup_fmap, ?Hi, ?Hj; [done|].
    simpl. by rewrite Heq. }
  by simplify_eq.
Qed.

(** The byte a failed transaction is rejected with identifies the variant of
    the ledger library's error: no two of its invalid, malformed and system
    transaction errors, the unmapped ones included, are reported alike. *)
Theorem rejection_code_identifies_error e e' :
  library_error_code e = library_error_code e' ↔ e = e'.
Proof.
  split; [|by intros ->].
  apply (NoDup_fmap_inj_on _ all_library_errors); [|apply all_library_errors_complete..].
  apply (bool_decide_unpack _). vm_compute. exact I.
Qed.

(** ** Transactions *)

Record UtxoOutput : Type := { out_value : Z; out_owner : list Z; out_type : list Z }.

Record Utxo : Type := {
  value : Z; owner : list Z; type_ : list Z; utxo_intent_hash : list Z; utxo_output_no : Z;
}.
#[export] Instance Utxo_eq_dec : EqDecision Utxo.
Proof. solve_decision. Defined.
#[export] Instance Utxo_countable : Countable Utxo.
Proof.
  apply (inj_countable' (λ u, (value u, owner u, type_ u, utxo_intent_hash u, utxo_output_no u))
           (λ '(v, o, t, h, n), {| value := v; owner := o; type_ := t;
                                   utxo_intent_hash := h; utxo_output_no := n |})).
  by intros [].
Defined.

Inductive SingleUpdate : Type := ReplaceAuthority | VerifierKeyInsert | VerifierKeyRemove.

Inductive ContractAction (Deploy : Type) : Type :=
| ActionCall (address : ContractAddress) (entry_point : list Z)
| ActionDeploy (deploy_data : Deploy)
| ActionMaintain (address : ContractAddress) (updates : list SingleUpdate).
Arguments ActionCall {Deploy} address entry_point.
Arguments ActionDeploy {Deploy} deploy_data.
Arguments ActionMaintain {Deploy} address updates.

(** The ledger library's transactions.  [intents] is a map from segment
    identifiers, listed in the order of its iterator. *)
Class MnTransactions : Type := {
  UtxoSpend : Type;
  utxo_from_spend : UtxoSpend → Utxo;
  Intent : Type;
  intent_hash_at : Intent → Z → list Z;
  guaranteed_outputs : Intent → list UtxoOutput;
  guaranteed_inputs : Intent → list UtxoSpend;
  fallible_outputs : Intent → list UtxoOutput;
  fallible_inputs : Intent → list UtxoSpend;
  ContractDeploy : Type;
  deploy_address : ContractDeploy → ContractAddress;
  Offer : Type;
  StandardTransaction : Type;
  segments : StandardTransaction → list Z;
  intents : StandardTransaction → list (Z * Intent);
  actions : StandardTransaction → list (Z * ContractAction ContractDeploy);
  guaranteed_coins : StandardTransaction → option Offer;
  fallible_coins : StandardTransaction → list (Z * Offer);
  (** Numbers of zswap inputs, outputs and transients, guaranteed and fallible. *)
  guaranteed_counts : StandardTransaction → nat * nat * nat;
  fallible_counts : StandardTransaction → nat * nat * nat;
  ClaimRewardsTransaction : Type;
  claim_value : ClaimRewardsTransaction → Z;
}.

Section Transactions.
Context `{!MnTransactions}.

Inductive Transaction : Type :=
| Standard (tx : StandardTransaction)
| ClaimRewards (tx : ClaimRewardsTransaction).

#[export] Instance Transaction_deserializable_error : DeserializableError Transaction :=
  De_Transaction.

(** ** Operations *)

Inductive Operation : Type :=
| OpCall (address : ContractAddress) (entry_point : list Z)
| OpDeploy (address : ContractAddress)
| OpMaintain (address : ContractAddress)
| OpClaimRewards (reward : Z).

Inductive ContractActionExt : Type :=
| ExtContractAction (action : ContractAction ContractDeploy)
| ExtClaimRewards (reward : Z).

Definition operation_of (cd : ContractActionExt) : Operation :=
  match cd with
  | ExtContractAction (ActionCall address entry_point) => OpCall address entry_point
  | ExtContractAction (ActionDeploy deploy_data) => OpDeploy (deploy_address deploy_data)
  | ExtContractAction (ActionMaintain address _) => OpMaintain address
  | ExtClaimRewards reward => OpClaimRewards reward
  end.

(** [filter_segments] are segment identifiers whose actions are left out. *)
Definition calls_and_deploys (tx : Transaction) (filter_segments : option (list Z)) :
    list Operation :=
  let filtered_segments := default [] filter_segments in
  let cds :=
    match tx with
    | Standard tx =>
        omap (λ '(segment, call),
          if bool_decide (segment ∈ filtered_segments) then None
          else Some (ExtContractAction call)) (actions tx)
    | ClaimRewards tx => [ExtClaimRewards (claim_value tx)]
    end in
  operation_of <$> cds.

Definition has_guaranteed_coins (tx : Transaction) : bool :=
  match tx with
  | Standard tx => bool_decide (is_Some (guaranteed_coins tx))
  | _ => false
  end.

Definition has_fallible_coins (tx : Transaction) : bool :=
  match tx with
  | Standard tx => bool_decide (0 < length (fallible_coins tx))%nat
  | _ => false
  end.

(** ** Unshielded UTXOs *)

Record UnshieldedUtxos : Type := {
  outputs : gmap Z (list UtxoInfo);
  inputs : gmap Z (list UtxoInfo);
}.
Definition default_utxos : UnshieldedUtxos := {| outputs := ∅; inputs := ∅ |}.

(** [From<UtxoOutputInfo> for UtxoInfo]. *)
Definition utxo_info_of_output (output : UtxoOutput) (hash : list Z) (n : Z) : UtxoInfo :=
  {| utxo_address := out_owner output; token_type := out_type output; intent_hash := hash;
     utxo_value := out_value output; output_no := n |}.

Definition from_utxo_spend (spend : UtxoSpend) : UtxoInfo :=
  let utxo := utxo_from_spend spend in
  {| utxo_address := owner utxo; token_type := type_ utxo; intent_hash := utxo_intent_hash utxo;
     utxo_value := value utxo; output_no := utxo_output_no utxo |}.

(** [None] for the [TryFromIntError] of an index over [u32::MAX]. *)
Definition utxos_info_from_output (outs : list UtxoOutput) (hash : list Z) :
    option (list UtxoInfo) :=
  mapM (λ '(no, output), n ← try_from_int 32 (Z.of_nat no);
                         Some (utxo_info_of_output output hash n)) (enumerate outs).

Definition utxos_info_from_inputs (ins : list UtxoSpend) : list UtxoInfo :=
  from_utxo_spend <$> ins.

(** The closures [update_outputs] and [update_inputs]. *)
Definition update_segment (segment_id : Z) (infos : list UtxoInfo) (m : gmap Z (list UtxoInfo)) :
    gmap Z (list UtxoInfo) :=
  match infos with
  | [] => m
  | _ => <[segment_id := default [] (m !! segment_id) ++ infos]> m
  end.

(** What one intent adds under [segment_id]; [None] is the early return. *)
Definition add_intent (segment_id : Z) (outs : Intent → list UtxoOutput)
    (ins : Intent → list UtxoSpend) (acc : option UnshieldedUtxos) (intent : Intent) :
    option UnshieldedUtxos :=
  u ← acc;
  outputs_info ← utxos_info_from_output (outs intent) (intent_hash_at intent segment_id);
  Some {| outputs := update_segment segment_id outputs_info (outputs u);
          inputs := update_segment segment_id (utxos_info_from_inputs (ins intent)) (inputs u) |}.

Definition intent_get (tx : StandardTransaction) (segment_id : Z) : option Intent :=
  '(_, (_, intent)) ← list_find (λ p, p.1 = segment_id) (intents tx); Some intent.

Definition add_segment (tx : StandardTransaction) (acc : option UnshieldedUtxos) (segment_id : Z) :
    option UnshieldedUtxos :=
  if bool_decide (segment_id = 0) then
    foldl (add_intent segment_id guaranteed_outputs guaranteed_inputs) acc (intents tx).*2
  else match intent_get tx segment_id with
       | Some intent => add_intent segment_id fallible_outputs fallible_inputs acc intent
       | None => acc
       end.

Definition unshielded_utxos (tx : Transaction) : UnshieldedUtxos :=
  match tx with
  | Standard tx => default default_utxos (foldl (add_segment tx) (Some default_utxos) (segments tx))
  | _ => default_utxos
  end.

(** [segments] in the order of its keys; whether the segment failed. *)
Definition remove_failed_segments (segs : list (Z * bool)) (u : UnshieldedUtxos) :
    UnshieldedUtxos :=
  foldl (λ u '(segment_id, is_err),
    if is_err : bool then
      {| outputs := delete segment_id (outputs u); inputs := delete segment_id (inputs u) |}
    else u) u segs.

Definition utxo_inputs (u : UnshieldedUtxos) : list UtxoInfo :=
  concat (btree_values Z.compare (inputs u)).
Definition utxo_outputs (u : UnshieldedUtxos) : list UtxoInfo :=
  concat (btree_values Z.compare (outputs u)).

Definition utxo_of_info (i : UtxoInfo) : Utxo :=
  {| value := utxo_value i; owner := utxo_address i; type_ := token_type i;
     utxo_intent_hash := intent_hash i; utxo_output_no := output_no i |}.

(** [usize] is 64 bits wide. *)
Definition expected_utxos_size (initial additions deletions : Z) : Z :=
  sat_sub (sat_add 64 initial additions) deletions.

(** [utxos] is the set of UTXOs of the final ledger state. *)
Definition check_utxos_response_integrity (u : UnshieldedUtxos) (initial_utxos_size : Z)
    (utxos : gset Utxo) : outcome LedgerApiError (list UtxoInfo * list UtxoInfo) :=
  if existsb (λ i, negb (bool_decide (utxo_of_info i ∈ utxos))) (utxo_outputs u)
  then Err Api_HostApiError
  else if existsb (λ i, bool_decide (utxo_of_info i ∈ utxos)) (utxo_inputs u)
  then Err Api_HostApiError
  else
    let final_utxos_size := Z.of_nat (size utxos) in
    let num_additions := Z.of_nat (length (utxo_outputs u)) in
    let num_deletions := Z.of_nat (length (utxo_inputs u)) in
    if bool_decide (final_utxos_size
                    ≠ expected_utxos_size initial_utxos_size num_additions num_deletions)
    then Err Api_HostApiError
    else Ok (utxo_outputs u, utxo_inputs u).

(** ** Transaction details: [ledger/src/common/types.rs] *)

Record CoinsDetails : Type := { inputs_num : Z; outputs_num : Z; transients_num : Z }.
Record MaintainUpdatesDetails : Type := {
  replace_authority_num : Z; verifier_key_remove_num : Z; verifier_key_insert_num : Z;
}.
Record ContractCallsDetails : Type := {
  calls_gas_cost : Z; calls_num : Z; deploys_num : Z;
  mainatain_updates : MaintainUpdatesDetails;
}.
Definition default_calls_details : ContractCallsDetails :=
  {| calls_gas_cost := 0; calls_num := 0; deploys_num := 0;
     mainatain_updates := {| replace_authority_num := 0; verifier_key_remove_num := 0;
                             verifier_key_insert_num := 0 |} |}.

Definition set_gas_cost (gas : Z) (d : ContractCallsDetails) : ContractCallsDetails :=
  {| calls_gas_cost := gas; calls_num := calls_num d; deploys_num := deploys_num d;
     mainatain_updates := mainatain_updates d |}.
Definition inc_calls (d : ContractCallsDetails) : ContractCallsDetails :=
  {| calls_gas_cost := calls_gas_cost d; calls_num := sat_add 32 (calls_num d) 1;
     deploys_num := deploys_num d; mainatain_updates := mainatain_updates d |}.
Definition inc_deploys (d : ContractCallsDetails) : ContractCallsDetails :=
  {| calls_gas_cost := calls_gas_cost d; calls_num := calls_num d;
     deploys_num := sat_add 32 (deploys_num d) 1; mainatain_updates := mainatain_updates d |}.

(** [inc_replace_authority], [inc_verifier_key_insert], [inc_verifier_key_remove]. *)
Definition inc_update (update : SingleUpdate) (d : ContractCallsDetails) : ContractCallsDetails :=
  let m := mainatain_updates d in
  let m' :=
    match update with
    | ReplaceAuthority =>
        {| replace_authority_num := sat_add 32 (replace_authority_num m) 1;
           verifier_key_remove_num := verifier_key_remove_num m;
           verifier_key_insert_num := verifier_key_insert_num m |}
    | VerifierKeyInsert =>
        {| replace_authority_num := replace_authority_num m;
           verifier_key_remove_num := verifier_key_remove_num m;
           verifier_key_insert_num := sat_add 32 (verifier_key_insert_num m) 1 |}
    | VerifierKeyRemove =>
        {| replace_authority_num := replace_authority_num m;
           verifier_key_remove_num := sat_add 32 (verifier_key_remove_num m) 1;
           verifier_key_insert_num := verifier_key_insert_num m |}
    end in
  {| calls_gas_cost := calls_gas_cost d; calls_num := calls_num d; deploys_num := deploys_num d;
     mainatain_updates := m' |}.

Inductive TransactionDetails : Type :=
| DetailsStandard (guaranteed fallible : CoinsDetails) (contract_calls : ContractCallsDetails)
| DetailsClaimRewards.

(** [count() as u32]. *)
Definition coins_details (counts : nat * nat * nat) : CoinsDetails :=
  let '(i, o, t) := counts in
  {| inputs_num := wrap 32 (Z.of_nat i); outputs_num := wrap 32 (Z.of_nat o);
     transients_num := wrap 32 (Z.of_nat t) |}.

Definition count_action (d : ContractCallsDetails) (a : Z * ContractAction ContractDeploy) :
    ContractCallsDetails :=
  match a.2 with
  | ActionCall _ _ => inc_calls d
  | ActionDeploy _ => inc_deploys d
  | ActionMaintain _ updates => foldl (λ d u, inc_update u d) d updates
  end.

Definition get_transaction_details (tx : Transaction) (tx_gas_cost : Z) : TransactionDetails :=
  match tx with
  | Standard tx =>
      DetailsStandard (coins_details (guaranteed_counts tx)) (coins_details (fallible_counts tx))
        (set_gas_cost tx_gas_cost (foldl count_action default_calls_details (actions tx)))
  | ClaimRewards _ => DetailsClaimRewards
  end.

(** [From<TransactionDetails> for GasCost]. *)
Definition gas_cost_of_details (d : TransactionDetails) : Z :=
  match d with
  | DetailsStandard _ _ contract_calls => calls_gas_cost contract_calls
  | DetailsClaimRewards => 0
  end.

Record BenchmarkComponents : Type := {
  num_guaranteed_inputs : Z; num_guaranteed_outputs : Z; num_guaranteed_transients : Z;
  num_fallible_inputs : Z; num_fallible_outputs : Z; num_fallible_transients : Z;
  num_contracts_deploy : Z; num_contract_replace_auth : Z; num_contract_key_remove : Z;
  num_contract_key_insert : Z; num_contract_operations : Z;
}.

(** [TryFrom<&TransactionDetails>]. *)
Definition benchmark_components_try_from (d : TransactionDetails) : option BenchmarkComponents :=
  match d with
  | DetailsStandard g f c =>
      Some {| num_guaranteed_inputs := inputs_num g; num_guaranteed_outputs := outputs_num g;
              num_guaranteed_transients := transients_num g;
              num_fallible_inputs := inputs_num f; num_fallible_outputs := outputs_num f;
              num_fallible_transients := transients_num f;
              num_contracts_deploy := deploys_num c;
              num_contract_replace_auth := replace_authority_num (mainatain_updates c);
              num_contract_key_remove := verifier_key_remove_num (mainatain_updates c);
              num_contract_key_insert := verifier_key_insert_num (mainatain_updates c);
              num_contract_operations := calls_num c |}
  | DetailsClaimRewards => None
  end.
End Transactions.

(** ** The UTXOs of a transaction, segment by segment *)

Section Theorems.
Context `{!MnTransactions}.

(** The UTXO of the [n]-th output of an intent. *)
Definition output_infos (outs : list UtxoOutput) (hash : list Z) : list UtxoInfo :=
  imap (λ n output, utxo_info_of_output output hash (Z.of_nat n)) outs.

(** What a segment creates and spends: the guaranteed part of every intent for
    segment 0, the fallible part of the segment's own intent otherwise. *)
Definition segment_outputs (tx : StandardTransaction) (s : Z) : list UtxoInfo :=
  if bool_decide (s = 0) then
    concat ((λ i, output_infos (guaranteed_outputs i) (intent_hash_at i s)) <$> (intents tx).*2)
  else match intent_get tx s with
       | Some i => output_infos (fallible_outputs i) (intent_hash_at i s)
       | None => []
       end.
Definition segment_inputs (tx : StandardTransaction) (s : Z) : list UtxoInfo :=
  if bool_decide (s = 0) then
    concat ((λ i, from_utxo_spend <$> guaranteed_inputs i) <$> (intents tx).*2)
  else match intent_get tx s with
       | Some i => from_utxo_spend <$> fallible_inputs i
       | None => []
       end.

(** Output positions fit [u32]. *)
Definition outputs_fit (tx : StandardTransaction) : Prop :=
  Forall (λ i, Z.of_nat (length (guaranteed_outputs i)) ≤ 2 ^ 32 ∧
               Z.of_nat (length (fallible_outputs i)) ≤ 2 ^ 32) (intents tx).*2.

Lemma utxos_info_from_output_ok outs hash :
  Z.of_nat (length outs) ≤ 2 ^ 32 →
  utxos_info_from_output outs hash = Some (output_infos outs hash).
Proof.
  intros Hlen. unfold utxos_info_from_output. apply mapM_Some.
  unfold output_infos, enumerate. apply Forall2_same_length_lookup_2.
  { by rewrite !length_imap. }
  intros i [j o] y. rewrite !list_lookup_imap. destruct (outs !! i) as [o'|] eqn:Hi; [|done].
  simpl. intros ? ?; simplify_eq. apply lookup_lt_Some in Hi.
  unfold try_from_int. rewrite bool_decide_true; [done|]. unfold umax. lia.
Qed.

Lemma update_segment_lookup s xs (m : gmap Z (list UtxoInfo)) s' :
  default [] (update_segment s xs m !! s')
  = if bool_decide (s' = s) then default [] (m !! s') ++ xs else default [] (m !! s').
Proof.
  unfold update_segment. destruct xs as [|x xs]; case_bool_decide as Hs; subst.
  - by rewrite app_nil_r.
  - done.
  - by rewrite lookup_insert_eq.
  - by rewrite lookup_insert_ne by done.
Qed.

(** Two maps of UTXOs extended at one segment. *)
Definition extends_at (s : Z) (u u' : UnshieldedUtxos) (outs ins : list UtxoInfo) : Prop :=
  ∀ s', default [] (outputs u' !! s')
        = (if bool_decide (s' = s) then default [] (outputs u !! s') ++ outs
           else default [] (outputs u !! s')) ∧
        default [] (inputs u' !! s')
        = (if bool_decide (s' = s) then default [] (inputs u !! s') ++ ins
           else default [] (inputs u !! s')).

Lemma extends_at_trans s u1 u2 u3 o1 o2 i1 i2 :
  extends_at s u1 u2 o1 i1 → extends_at s u2 u3 o2 i2 → extends_at s u1 u3 (o1 ++ o2) (i1 ++ i2).
Proof.
  intros H1 H2 s'. destruct (H1 s') as [Ho1 Hi1], (H2 s') as [Ho2 Hi2].
  rewrite Ho2, Hi2, Ho1, Hi1. case_bool_decide; by rewrite ?(assoc_L app).
Qed.

Lemma add_intent_ok s outs ins u intent :
  Z.of_nat (length (outs intent)) ≤ 2 ^ 32 →
  ∃ u', add_intent s outs ins (Some u) intent = Some u' ∧
    extends_at s u u' (output_infos (outs intent) (intent_hash_at intent s))
      (from_utxo_spend <$> ins intent).
Proof.
  intros Hlen. unfold add_intent. cbn. rewrite utxos_info_from_output_ok by done. cbn.
  eexists; split; [done|]. intros s'. cbn. by rewrite !update_segment_lookup.
Qed.

Lemma add_intents_ok s outs ins is_ u :
  Forall (λ i, Z.of_nat (length (outs i)) ≤ 2 ^ 32) is_ →
  ∃ u', foldl (add_intent s outs ins) (Some u) is_ = Some u' ∧
    extends_at s u u' (concat ((λ i, output_infos (outs i) (intent_hash_at i s)) <$> is_))
      (concat ((λ i, from_utxo_spend <$> ins i) <$> is_)).
Proof.
  revert u; induction is_ as [|i is_ IH]; intros u Hall.
  { exists u. split; [done|]. intros s'. cbn. case_bool_decide; by rewrite ?app_nil_r. }
  apply Forall_cons in Hall as [Hi Hall].
  destruct (add_intent_ok s outs ins u i Hi) as (u1 & H1 & He1).
  destruct (IH u1 Hall) as (u2 & H2 & He2).
  exists u2. cbn [foldl]. rewrite H1. split; [done|]. rewrite !fmap_cons, !concat_cons.
  by eapply extends_at_trans.
Qed.

Lemma add_segment_ok tx s u :
  outputs_fit tx →
  ∃ u', add_segment tx (Some u) s = Some u' ∧
    extends_at s u u' (segment_outputs tx s) (segment_inputs tx s).
Proof.
  intros Hfit. unfold add_segment, segment_outputs, segment_inputs.
  case_bool_decide as Hs.
  { apply add_intents_ok. eapply Forall_impl; [exact Hfit|]. by intros i [? ?]. }
  destruct (intent_get tx s) as [i|] eqn:Hi.
  - apply add_intent_ok. unfold intent_get in Hi.
    destruct (list_find _ _) as [[n [k i']]|] eqn:Hf; simplify_eq/=.
    apply list_find_Some in Hf as (Hl & _ & _). unfold outputs_fit in Hfit.
    rewrite Forall_forall in Hfit. apply Hfit. apply list_elem_of_fmap.
    exists (k, i). split; [done|]. by eapply list_elem_of_lookup_2.
  - exists u. split; [done|]. intros s'. case_bool_decide; by rewrite ?app_nil_r.
Qed.

Lemma add_segments_ok tx ss u :
  outputs_fit tx → NoDup ss →
  (∀ s, s ∈ ss → default [] (outputs u !! s) = [] ∧ default [] (inputs u !! s) = []) →
  ∃ u', foldl (add_segment tx) (Some u) ss = Some u' ∧
    ∀ s, default [] (outputs u' !! s)
         = (if bool_decide (s ∈ ss) then segment_outputs tx s else default [] (outputs u !! s)) ∧
         default [] (inputs u' !! s)
         = (if bool_decide (s ∈ ss) then segment_inputs tx s else default [] (inputs u !! s)).
Proof.
  intros Hfit. revert u; induction ss as [|s0 ss IH]; intros u Hnd Hempty.
  { exists u. split; [done|]. intros s. rewrite bool_decide_false by apply not_elem_of_nil. done. }
  apply NoDup_cons in Hnd as [Hs0 Hnd].
  destruct (add_segment_ok tx s0 u Hfit) as (u1 & H1 & He1).
  destruct (IH u1 Hnd) as (u2 & H2 & He2).
  { intros s Hs. destruct (He1 s) as [-> ->].
    rewrite !bool_decide_false by (intros ->; done). apply Hempty. by right. }
  exists u2. cbn [foldl]. rewrite H1. split; [done|]. intros s.
  destruct (He2 s) as [-> ->], (He1 s) as [-> ->].
  destruct (decide (s = s0)) as [->|Hne].
  - rewrite !(bool_decide_false _ Hs0), !(bool_decide_true (s0 = s0)) by done.
    rewrite bool_decide_true by left. destruct (Hempty s0) as [-> ->]; [left|done].
  - rewrite (bool_decide_false (s = s0)) by done.
    by rewrite (bool_decide_ext (s ∈ s0 :: ss) (s ∈ ss)) by (rewrite elem_of_cons; naive_solver).
Qed.

(** What [unshielded_utxos] reports of a standard transaction, segment by
    segment: the guaranteed outputs and inputs of all intents under segment 0,
    the fallible ones of the intent of each other segment, numbered by their
    position, and nothing else. *)
Theorem unshielded_utxos_by_segment tx s :
  NoDup (segments tx) → outputs_fit tx →
  default [] (outputs (unshielded_utxos (Standard tx)) !! s)
    = (if bool_decide (s ∈ segments tx) then segment_outputs tx s else []) ∧
  default [] (inputs (unshielded_utxos (Standard tx)) !! s)
    = (if bool_decide (s ∈ segments tx) then segment_inputs tx s else []).
Proof.
  intros Hnd Hfit.
  destruct (add_segments_ok tx (segments tx) default_utxos Hfit Hnd) as (u & Hu & Hs).
  { done. }
  cbn [unshielded_utxos]. rewrite Hu. destruct (Hs s) as [Ho Hi]. cbn [default from_option id].
  split; [rewrite Ho|rewrite Hi]; by case_bool_decide.
Qed.

Lemma remove_failed_segments_lookup segs u s :
  outputs (remove_failed_segments segs u) !! s
    = (if bool_decide ((s, true) ∈ segs) then None else outputs u !! s) ∧
  inputs (remove_failed_segments segs u) !! s
    = (if bool_decide ((s, true) ∈ segs) then None else inputs u !! s).
Proof.
  revert u; induction segs as [|[k b] segs IH]; intros u.
  { by rewrite bool_decide_false by apply not_elem_of_nil. }
  cbn [remove_failed_segments foldl]. fold (remove_failed_segments segs).
  destruct (IH (if b then {| outputs := delete k (outputs u); inputs := delete k (inputs u) |}
                else u)) as [Ho Hi].
  unfold remove_failed_segments in Ho, Hi |- *. rewrite Ho, Hi. clear Ho Hi IH.
  destruct (decide ((s, true) ∈ segs)) as [Hin|Hin].
  { by rewrite !bool_decide_true by (by right || done). }
  rewrite (bool_decide_false _ Hin). destruct b.
  - destruct (decide (s = k)) as [->|Hne].
    + cbn [outputs inputs]. rewrite !lookup_delete_eq. by rewrite bool_decide_true by left.
    + cbn [outputs inputs]. rewrite !lookup_delete_ne by done.
      by rewrite bool_decide_false by (rewrite elem_of_cons; naive_solver).
  - by rewrite bool_decide_false by (rewrite elem_of_cons; naive_solver).
Qed.

(** ** The integrity check *)

Lemma existsb_false {A} (p : A → bool) (l : list A) :
  existsb p l = false ↔ ∀ x, x ∈ l → p x = false.
Proof.
  induction l as [|y l IH]; simpl.
  { split; [by intros _ x ?%elem_of_nil|done]. }
  rewrite orb_false_iff, IH. setoid_rewrite elem_of_cons. naive_solver.
Qed.

(** The integrity check accepts exactly when every reported output is in the
    final state, no reported input is, and the number of UTXOs is the expected
    one; it then returns the reported lists.  Its only error is [HostApiError]. *)
Lemma integrity_check_spec u n utxos :
  check_utxos_response_integrity u n utxos
    ∈ [Ok (utxo_outputs u, utxo_inputs u); Err Api_HostApiError] ∧
  (is_ok (check_utxos_response_integrity u n utxos) = true ↔
    (∀ i, i ∈ utxo_outputs u → utxo_of_info i ∈ utxos) ∧
    (∀ i, i ∈ utxo_inputs u → utxo_of_info i ∉ utxos) ∧
    Z.of_nat (size utxos)
    = expected_utxos_size n (Z.of_nat (length (utxo_outputs u)))
        (Z.of_nat (length (utxo_inputs u)))).
Proof.
  unfold check_utxos_response_integrity.
  destruct (existsb _ (utxo_outputs u)) eqn:Ho.
  { split; [right; left|]. split; [done|]. intros (Hin & _ & _).
    apply existsb_exists in Ho as (i & Hi & Hb). apply list_elem_of_In, Hin in Hi.
    by rewrite bool_decide_true in Hb. }
  rewrite existsb_false in Ho.
  destruct (existsb _ (utxo_inputs u)) eqn:Hi.
  { split; [right; left|]. split; [done|]. intros (_ & Hout & _).
    apply existsb_exists in Hi as (i & Hi & Hb). apply list_elem_of_In, Hout in Hi.
    by rewrite bool_decide_false in Hb. }
  rewrite existsb_false in Hi.
  case_bool_decide as Hsz.
  { split; [right; left|]. split; [done|]. by intros (_ & _ & ?). }
  split; [left|]. split; [|done]. intros _. split_and!; [|..|done].
  - intros i Hin. specialize (Ho i Hin). apply negb_false_iff in Ho. by apply bool_decide_eq_true in Ho.
  - intros i Hin. specialize (Hi i Hin). by apply bool_decide_eq_false in Hi.
Qed.

Definition utxo_set (l : list UtxoInfo) : gset Utxo := list_to_set (utxo_of_info <$> l).

Lemma utxo_of_info_inj i j : utxo_of_info i = utxo_of_info j → i = j.
Proof. destruct i, j. unfold utxo_of_info; simpl. by intros [=]; subst. Qed.

Lemma elem_of_utxo_set i l : utxo_of_info i ∈ utxo_set l ↔ i ∈ l.
Proof.
  unfold utxo_set. rewrite elem_of_list_to_set, list_elem_of_fmap. split; [|by eauto].
  intros (j & Heq & Hj). by apply utxo_of_info_inj in Heq as ->.
Qed.

Lemma utxo_set_size l : NoDup l → size (utxo_set l) = length l.
Proof.
  intros Hnd. unfold utxo_set. rewrite size_list_to_set, length_fmap; [done|].
  apply (NoDup_fmap_2_strong _ _); [|done]. intros x y _ _. apply utxo_of_info_inj.
Qed.

(** The integrity check accepts an exact update of the UTXO set: when the
    reported inputs were in the state before, the reported outputs are new and
    none of them is spent again, and the state after is the one before without
    the inputs and with the outputs, the reported lists are returned. *)
Theorem integrity_check_accepts u before :
  NoDup (utxo_outputs u) → NoDup (utxo_inputs u) →
  utxo_set (utxo_inputs u) ⊆ before →
  utxo_set (utxo_outputs u) ## before →
  Z.of_nat (size before) + Z.of_nat (length (utxo_outputs u)) ≤ umax 64 →
  check_utxos_response_integrity u (Z.of_nat (size before))
    (before ∖ utxo_set (utxo_inputs u) ∪ utxo_set (utxo_outputs u))
  = Ok (utxo_outputs u, utxo_inputs u).
Proof.
  intros Hno Hni Hsub Hdis Hmax.
  pose proof (integrity_check_spec u (Z.of_nat (size before))
    (before ∖ utxo_set (utxo_inputs u) ∪ utxo_set (utxo_outputs u))) as [Hres Hiff].
  rewrite !elem_of_cons in Hres. destruct Hres as [Hres|[Hres|Hres%elem_of_nil]]; [done| |done].
  exfalso. rewrite Hres in Hiff. destruct Hiff as [_ Hiff]. discriminate Hiff. split_and!.
  - intros i Hi%elem_of_utxo_set. by apply elem_of_union_r.
  - intros i Hi%elem_of_utxo_set. rewrite elem_of_union, elem_of_difference.
    intros [[_ ?]|Ho]; [done|]. by apply (Hdis _ Ho), Hsub.
  - rewrite size_union.
    2:{ intros x [Hx _]%elem_of_difference Ho. by apply (Hdis x). }
    rewrite size_difference by done.
    rewrite !utxo_set_size by done. unfold expected_utxos_size.
    rewrite sat_add_exact by done. unfold sat_sub.
    pose proof (subseteq_size _ _ Hsub) as Hle. rewrite utxo_set_size in Hle by done. lia.
Qed.

(** A transaction whose reported segments both create and spend one UTXO is
    refused by the integrity check, whatever the final state holds. *)
Theorem integrity_check_refuses_respent u n utxos i :
  i ∈ utxo_outputs u → i ∈ utxo_inputs u →
  check_utxos_response_integrity u n utxos = Err Api_HostApiError.
Proof.
  intros Ho Hi. destruct (integrity_check_spec u n utxos) as [Hres Hiff].
  rewrite !elem_of_cons in Hres. destruct Hres as [Hres|[Hres|Hres%elem_of_nil]]; [|done|done].
  rewrite Hres in Hiff. destruct Hiff as [[Hin [Hout _]] _]; [done|].
  by destruct (Hout i Hi); apply Hin.
Qed.

(** ** Transaction details *)

Definition update_num (k : SingleUpdate) (d : ContractCallsDetails) : Z :=
  match k with
  | ReplaceAuthority => replace_authority_num (mainatain_updates d)
  | VerifierKeyInsert => verifier_key_insert_num (mainatain_updates d)
  | VerifierKeyRemove => verifier_key_remove_num (mainatain_updates d)
  end.

Definition is_call (a : ContractAction ContractDeploy) : bool :=
  match a with ActionCall _ _ => true | _ => false end.
Definition is_deploy (a : ContractAction ContractDeploy) : bool :=
  match a with ActionDeploy _ => true | _ => false end.
Definition updates_of (a : ContractAction ContractDeploy) : list SingleUpdate :=
  match a with ActionMaintain _ updates => updates | _ => [] end.

Definition count {A} (p : A → bool) (l : list A) : Z := Z.of_nat (length (filter p l)).

Lemma count_cons {A} (p : A → bool) x l : count p (x :: l) = (if p x then 1 else 0) + count p l.
Proof. unfold count. rewrite filter_cons. destruct (p x); simpl; lia. Qed.

Lemma count_app {A} (p : A → bool) l k : count p (l ++ k) = count p l + count p k.
Proof. unfold count. rewrite filter_app, length_app. lia. Qed.

Definition is_update (k u : SingleUpdate) : bool :=
  match k, u with
  | ReplaceAuthority, ReplaceAuthority | VerifierKeyInsert, VerifierKeyInsert
  | VerifierKeyRemove, VerifierKeyRemove => true
  | _, _ => false
  end.

Lemma inc_updates_num k us : ∀ d, 0 ≤ update_num k d ≤ umax 32 →
  update_num k (foldl (λ d u, inc_update u d) d us)
  = Z.min (update_num k d + count (is_update k) us) (umax 32).
Proof.
  induction us as [|u us IH]; intros d Hd; cbn [foldl].
  { unfold count; simpl. lia. }
  assert (update_num k (inc_update u d)
          = if is_update k u then sat_add 32 (update_num k d) 1 else update_num k d) as Hu
    by (by destruct k, u).
  rewrite IH; rewrite Hu; [rewrite count_cons|]; unfold sat_add;
    (assert (0 ≤ count (is_update k) us) by (unfold count; lia)); destruct (is_update k u); lia.
Qed.

Lemma inc_updates_calls us : ∀ d,
  calls_num (foldl (λ d u, inc_update u d) d us) = calls_num d ∧
  deploys_num (foldl (λ d u, inc_update u d) d us) = deploys_num d.
Proof. induction us as [|u us IH]; intros d; cbn [foldl]; [done|]. by rewrite !(proj1 (IH _)), !(proj2 (IH _)). Qed.

Lemma count_actions_num acts : ∀ d,
  (0 ≤ calls_num d ≤ umax 32 ∧ 0 ≤ deploys_num d ≤ umax 32 ∧ ∀ k, 0 ≤ update_num k d ≤ umax 32) →
  let d' := foldl count_action d acts in
  calls_num d' = Z.min (calls_num d + count is_call acts.*2) (umax 32) ∧
  deploys_num d' = Z.min (deploys_num d + count is_deploy acts.*2) (umax 32) ∧
  ∀ k, update_num k d'
       = Z.min (update_num k d + count (is_update k) (concat (updates_of <$> acts.*2))) (umax 32).
Proof.
  induction acts as [|[s a] acts IH]; intros d (Hc & Hd & Hk) d'; subst d'; cbn [foldl].
  { unfold count; simpl. split_and!; [lia..|]. intros k. specialize (Hk k). lia. }
  assert (∀ k l, 0 ≤ count (is_update k) l) as Hpos by (unfold count; intros; lia).
  assert (∀ p l, 0 ≤ @count (ContractAction ContractDeploy) p l) as Hpos' by (unfold count; intros; lia).
  rewrite !fmap_cons, !concat_cons. cbn [snd]. rewrite !count_cons.
  pose proof (Hpos' is_call acts.*2). pose proof (Hpos' is_deploy acts.*2).
  destruct a as [addr ep|dep|addr us]; unfold count_action at 2 4 6; cbn [snd is_call is_deploy updates_of].
  - destruct (IH (inc_calls d)) as (-> & -> & Hu).
    { unfold inc_calls, sat_add; cbn. split_and!; [lia..|exact Hk]. }
    cbn. unfold sat_add. split_and!; [lia..|]. intros k. apply Hu.
  - destruct (IH (inc_deploys d)) as (-> & -> & Hu).
    { unfold inc_deploys, sat_add; cbn. split_and!; [lia..|exact Hk]. }
    cbn. unfold sat_add. split_and!; [lia..|]. intros k. apply Hu.
  - destruct (inc_updates_calls us d) as [Hcu Hdu].
    destruct (IH (foldl (λ d u, inc_update u d) d us)) as (-> & -> & Hu).
    { rewrite Hcu, Hdu. split_and!; [lia..|]. intros k. rewrite inc_updates_num by apply Hk.
      specialize (Hk k). specialize (Hpos k us). lia. }
    rewrite Hcu, Hdu. split_and!; [lia..|]. intros k. rewrite Hu, inc_updates_num by apply Hk.
    rewrite count_app. specialize (Hk k). pose proof (Hpos k us).
    pose proof (Hpos k (concat (updates_of <$> acts.*2))). lia.
Qed.

(** The details of a standard transaction count its contract calls, deploys
    and maintenance updates by kind, each count saturating at [u32::MAX], and
    carry the gas cost they are given. *)
Theorem details_count_actions tx gas :
  ∃ c, get_transaction_details (Standard tx) gas
         = DetailsStandard (coins_details (guaranteed_counts tx))
             (coins_details (fallible_counts tx)) c ∧
       gas_cost_of_details (get_transaction_details (Standard tx) gas) = gas ∧
       calls_num c = Z.min (count is_call (actions tx).*2) (umax 32) ∧
       deploys_num c = Z.min (count is_deploy (actions tx).*2) (umax 32) ∧
       ∀ k, update_num k c
            = Z.min (count (is_update k) (concat (updates_of <$> (actions tx).*2))) (umax 32).
Proof.
  eexists; split; [done|]. split; [done|].
  destruct (count_actions_num (actions tx) default_calls_details) as (Hc & Hd & Hu).
  { split_and!; intros; try (destruct k); by vm_compute. }
  cbn. split_and!; [exact Hc|exact Hd|]. intros k. specialize (Hu k). by destruct k.
Qed.
End Theorems.
