(* ===== verification/UtxoOrdering.v ===== *)
(** * Overrides of the order of unshielded UTXOs

    Models [ledger/src/versions/common/utxo_ordering_override.rs]: blocks of three
    old networks were produced with another order of the UTXOs of a transaction;
    a file per network gives that order back.  The two [OnceLock]s of the module
    are an explicit state. *)

From stdpp Require Import prelude gmap strings.
From S2P Require Import Prelude Frame LedgerErrors LedgerInterface.

Open Scope Z_scope.

Record UtxoOrdering : Type := { created : list (list Z * Z); spent : list (list Z * Z) }.

(** A file of overrides, as [serde_json] reads it; strings are their bytes. *)
Record UtxoEntry : Type := { entry_intent_hash : list Z; entry_output_index : Z }.
Record TxOverride : Type := {
  override_tx_hash : list Z; block_height : Z;
  override_created : list UtxoEntry; override_spent : list UtxoEntry;
}.

(** ** Hexadecimal *)

Definition hex_digit (c : Z) : option Z :=
  if bool_decide (48 ≤ c ≤ 57) then Some (c - 48)
  else if bool_decide (97 ≤ c ≤ 102) then Some (c - 87)
  else if bool_decide (65 ≤ c ≤ 70) then Some (c - 55)
  else None.

(** [hex::decode]: an odd length or another character is an error. *)
Fixpoint hex_decode (s : list Z) : option (list Z) :=
  match s with
  | [] => Some []
  | hi :: lo :: s =>
      h ← hex_digit hi; l ← hex_digit lo; bs ← hex_decode s;
      Some (16 * h + l :: bs)
  | _ => None
  end.
(** [strip_prefix("0x").unwrap_or(&s)]. *)
Definition strip_0x (s : list Z) : list Z :=
  match s with 48 :: 120 :: s => s | _ => s end.
(** [str::trim] on the bytes of a string, for white space that is ASCII. *)
Definition is_space (b : Z) : bool := bool_decide (9 ≤ b ≤ 13 ∨ b = 32).
Fixpoint trim_start (s : list Z) : list Z :=
  match s with b :: s' => if is_space b then trim_start s' else s | [] => [] end.
Definition trim (s : list Z) : list Z := reverse (trim_start (reverse (trim_start s))).

Definition parse_hash (hex_str : list Z) : list Z :=
  match hex_decode hex_str with
  | Some bytes => take 32 bytes ++ replicate (32 - length bytes) 0
  | None => replicate 32 0
  end.

Definition parse_entry (entry : UtxoEntry) : list Z * Z :=
  (parse_hash (entry_intent_hash entry), entry_output_index entry).

(** ** Loading *)

(** The file system and [serde_json::from_str]. *)
Record Files : Type := {
  read_to_string : string → option (list Z);
  from_json : list Z → option (list TxOverride);
}.

Section Overrides.
Context (W : Files).

Definition overrides_file (network_id : string) : option string :=
  if bool_decide (network_id ∈ ["preview"; "preprod"; "qanet"]%string)
  then Some ("res/utxo-ordering-override-" +:+ network_id +:+ ".json")%string else None.

(** [map.insert] in the order of the file: a later entry for the same
    transaction wins. *)
Definition overrides_of (entries : list TxOverride) : gmap (list Z) UtxoOrdering :=
  foldl (λ map tx,
    <[parse_hash (override_tx_hash tx) :=
        {| created := parse_entry <$> override_created tx;
           spent := parse_entry <$> override_spent tx |}]> map) ∅ entries.

Definition load_overrides (network_id : option string) : gmap (list Z) UtxoOrdering :=
  match overrides_file (default ""%string network_id) with
  | None => ∅
  | Some filename =>
      match read_to_string W filename ≫= from_json W with
      | Some entries => overrides_of entries
      | None => ∅
      end
  end.

Record Statics : Type := {
  NETWORK_ID : option string;
  OVERRIDES : option (gmap (list Z) UtxoOrdering);
}.

(** [OnceLock::set]: the first value stays. *)
Definition set_network_id (network_id : string) (s : Statics) : Statics :=
  match NETWORK_ID s with
  | Some _ => s
  | None => {| NETWORK_ID := Some network_id; OVERRIDES := OVERRIDES s |}
  end.

(** [OnceLock::get_or_init]. *)
Definition get_override (tx_hash : list Z) (s : Statics) : option UtxoOrdering * Statics :=
  let overrides := default (load_overrides (NETWORK_ID s)) (OVERRIDES s) in
  (overrides !! tx_hash, {| NETWORK_ID := NETWORK_ID s; OVERRIDES := Some overrides |}).
End Overrides.

(** ** Reordering *)

(** [Vec::swap_remove(pos)]: the last element takes the place of the removed one. *)
Definition swap_remove {A} (pos : nat) (l : list A) : option (A * list A) :=
  x ← l !! pos; y ← last l;
  Some (x, take (length l - 1) (<[pos := y]> l)).

Definition is_utxo (key : list Z * Z) (u : UtxoInfo) : bool :=
  bool_decide (intent_hash u = key.1) && bool_decide (output_no u = key.2).

(** The loop of [reorder]: what is left of [utxos] and what was moved out; [None]
    in place of the latter when an entry was not found. *)
Fixpoint reorder_loop (expected : list (list Z * Z)) (utxos reordered : list UtxoInfo) :
    list UtxoInfo * option (list UtxoInfo) :=
  match expected with
  | [] => (utxos, Some reordered)
  | key :: expected =>
      match position (is_utxo key) utxos with
      | None => (utxos, None)
      | Some pos =>
          match swap_remove pos utxos with
          | Some (u, utxos) => reorder_loop expected utxos (reordered ++ [u])
          | None => (utxos, None)
          end
      end
  end.

(** [reorder(&mut utxos, expected)]: the new value of [utxos]. *)
Definition reorder (utxos : list UtxoInfo) (expected : list (list Z * Z)) : list UtxoInfo :=
  if bool_decide (expected = []) || bool_decide (length utxos ≠ length expected) then utxos
  else match reorder_loop expected utxos [] with
       | (_, Some reordered) => reordered
       | (utxos, None) => utxos
       end.

(** [UtxoOrdering::apply]. *)
Definition apply (o : UtxoOrdering) (outputs : list UtxoInfo) (output_segments : Z)
    (inputs : list UtxoInfo) (input_segments : Z) : list UtxoInfo * list UtxoInfo :=
  (if bool_decide (1 < output_segments) then reorder outputs (created o) else outputs,
   if bool_decide (1 < input_segments) then reorder inputs (spent o) else inputs).

(** ** Lemmas *)

Definition utxo_key (u : UtxoInfo) : list Z * Z := (intent_hash u, output_no u).

Lemma is_utxo_spec key u : is_utxo key u = true ↔ utxo_key u = key.
Proof.
  unfold is_utxo, utxo_key. rewrite andb_true_iff, !bool_decide_eq_true.
  destruct key; simpl. split; [by intros [-> ->]|by intros [= -> ->]].
Qed.

Lemma swap_remove_spec {A} pos (l : list A) x :
  l !! pos = Some x → ∃ l', swap_remove pos l = Some (x, l') ∧ x :: l' ≡ₚ l.
Proof.
  intros Hx. unfold swap_remove. rewrite Hx. simpl.
  destruct (last l) as [y|] eqn:Hy; [|by apply last_None in Hy as ->].
  simpl. eexists. split; [done|]. apply last_Some in Hy as [init ->].
  rewrite length_app. simpl. replace (length init + 1 - 1)%nat with (length init) by lia.
  destruct (decide (pos < length init)%nat) as [Hlt|Hge].
  - rewrite lookup_app_l in Hx by done. rewrite insert_app_l by done.
    rewrite take_app_length' by (by rewrite length_insert).
    rewrite <-(take_drop_middle init pos x Hx) at 2.
    rewrite insert_take_drop by done. simplify_list_eq. solve_Permutation.
  - apply lookup_lt_Some in Hx as Hlen. rewrite length_app in Hlen. simpl in Hlen.
    replace pos with (length init) in * by lia. rewrite list_lookup_middle in Hx by done.
    simplify_eq. rewrite insert_app_r_alt, Nat.sub_diag by lia. simpl.
    rewrite take_app_length. solve_Permutation.
Qed.

Lemma reorder_loop_spec expected : ∀ utxos acc,
  match reorder_loop expected utxos acc with
  | (rest, Some r) => ∃ taken, r = acc ++ taken ∧ utxo_key <$> taken = expected ∧
      taken ++ rest ≡ₚ utxos
  | (rest, None) => ∃ taken key more, expected = (utxo_key <$> taken) ++ key :: more ∧
      taken ++ rest ≡ₚ utxos ∧ key ∉ utxo_key <$> rest
  end.
Proof.
  induction expected as [|key expected IH]; intros utxos acc; simpl.
  { exists []. by rewrite app_nil_r. }
  destruct (position (is_utxo key) utxos) as [pos|] eqn:Hpos.
  - apply position_Some in Hpos as (u & Hu & Hkey). apply is_utxo_spec in Hkey.
    destruct (swap_remove_spec pos utxos u Hu) as (l' & -> & Hperm).
    specialize (IH l' (acc ++ [u])). destruct (reorder_loop _ _ _) as [rest [r|]].
    + destruct IH as (taken & -> & <- & Hp). exists (u :: taken).
      split_and!; [by rewrite <-app_assoc|by rewrite fmap_cons, Hkey|by rewrite <-Hperm, <-Hp].
    + destruct IH as (taken & k & more & -> & Hp & Hk). exists (u :: taken), k, more.
      split_and!; [by rewrite fmap_cons, Hkey|by rewrite <-Hperm, <-Hp|done].
  - exists [], key, expected. split_and!; [done|done|].
    intros (u & -> & Hu)%list_elem_of_fmap. rewrite position_None in Hpos. specialize (Hpos u Hu).
    apply not_true_iff_false in Hpos. apply Hpos, is_utxo_spec. done.
Qed.

(**  [reorder] restores the recorded order when the recorded entries are
    those of the UTXOs: the result is a permutation of them in exactly that order.
    When they are not, the UTXOs that were matched before the first entry that is
    missing are dropped: the result lacks them, and at least one if the numbers
    agree and the first entry is there. *)
Theorem reorder_outcome utxos expected :
  (expected ≡ₚ utxo_key <$> utxos →
     reorder utxos expected ≡ₚ utxos ∧ utxo_key <$> reorder utxos expected = expected) ∧
  (¬ expected ≡ₚ utxo_key <$> utxos →
     ∃ lost, lost ++ reorder utxos expected ≡ₚ utxos ∧ (utxo_key <$> lost) `prefix_of` expected ∧
       (length utxos = length expected →
        ∀ key more, expected = key :: more → key ∈ utxo_key <$> utxos → lost ≠ [])).
Proof.
  unfold reorder. pose proof (reorder_loop_spec expected utxos []) as Hloop.
  destruct (decide (expected = [])) as [->|Hne].
  { simpl. split.
    - intros Hp. symmetry in Hp. apply Permutation_nil_r, fmap_nil_inv in Hp as ->. done.
    - intros _. exists []. split_and!; [done|apply prefix_nil|]. intros _ key more [=]. }
  rewrite (bool_decide_false (expected = [])) by done. simpl.
  destruct (decide (length utxos = length expected)) as [Hlen|Hlen]; cycle 1.
  { rewrite bool_decide_true by done. split.
    - intros Hp. apply Permutation_length in Hp. rewrite length_fmap in Hp. done.
    - intros _. exists []. split_and!; [done|apply prefix_nil|done]. }
  rewrite bool_decide_false by tauto.
  destruct (reorder_loop expected utxos []) as [rest [r|]].
  - destruct Hloop as (taken & -> & Hkeys & Hp). simpl.
    assert (rest = []) as ->.
    { apply nil_length_inv. apply Permutation_length in Hp as Hl. rewrite length_app in Hl.
      apply (f_equal length) in Hkeys. rewrite length_fmap in Hkeys. lia. }
    rewrite app_nil_r in Hp. split; [done|]. intros Hn. destruct Hn. by rewrite <-Hkeys, Hp.
  - destruct Hloop as (taken & key & more & -> & Hp & Hk). split.
    + intros Hperm. destruct Hk. rewrite <-Hp, fmap_app in Hperm.
      apply Permutation_app_inv_l in Hperm. rewrite <-Hperm. left.
    + intros _. exists taken. split_and!; [done|by apply prefix_app_r|].
      intros _ key' more' Heq Hin ->. simpl in *. simplify_eq. by rewrite Hp in Hk.
Qed.

Module Concrete.
Definition utxo (h n : Z) : UtxoInfo :=
  {| utxo_address := []; token_type := []; intent_hash := [h]; utxo_value := 100; output_no := n |}.
(** As in the unit test of the module. *)
Lemma reorder_example :
  reorder [utxo 1 0; utxo 2 0; utxo 3 0] [([3], 0); ([1], 0); ([2], 0)] =
    [utxo 3 0; utxo 1 0; utxo 2 0].
Proof. vm_compute. reflexivity. Qed.
(** A stale entry: the UTXO matched before it is gone. *)
Lemma reorder_stale_example :
  reorder [utxo 1 0; utxo 2 0; utxo 3 0] [([3], 0); ([9], 0); ([2], 0)] = [utxo 1 0; utxo 2 0].
Proof. vm_compute. reflexivity. Qed.
End Concrete.
