(* ===== verification/LedgerBridge.v ===== *)
(** * The host functions around the ledger

    Models [ledger/src/versions/common/mod.rs] (the [Bridge] behind the host
    functions, with its two validation caches), [api/ledger.rs] (the ledger kept
    in the arena: its state and the cost of the block so far), [storage.rs], the
    block context of [versions/block_context/post_ledger_8.rs] and the cost
    helpers of [ledger/helpers/src/versions/common/mod.rs].

    The ledger library, its content-addressed arena and the hash of the caches
    are parameters: [MnLedger], [Arena] and [Twox].  The caches are maps; that an
    entry may be evicted at any moment (capacity, time to idle, time to live) is
    a step of the environment.  Logging and metrics are left out. *)

From stdpp Require Import prelude gmap strings.
From S2P Require Import Prelude Frame Collections LedgerErrors LedgerInterface.
From S2P Require Import LedgerTransaction UtxoOrdering.

Open Scope Z_scope.

(** ** The ledger library *)

Record SyntheticCost : Type := {
  read_time : Z; compute_time : Z; block_usage : Z; bytes_written : Z; bytes_churned : Z;
}.
#[export] Instance SyntheticCost_eq_dec : EqDecision SyntheticCost.
Proof. solve_decision. Defined.

Record NormalizedCost (FixedPoint : Type) : Type := {
  n_read_time : FixedPoint; n_compute_time : FixedPoint; n_block_usage : FixedPoint;
  n_bytes_written : FixedPoint; n_bytes_churned : FixedPoint;
}.
Arguments n_read_time {FixedPoint} _.
Arguments n_compute_time {FixedPoint} _.
Arguments n_block_usage {FixedPoint} _.
Arguments n_bytes_written {FixedPoint} _.
Arguments n_bytes_churned {FixedPoint} _.

Inductive ClaimKind : Type := Reward | CardanoBridge.
Inductive CNightGeneratesDustActionType : Type := Create | Destroy.
#[export] Instance CNightGeneratesDustActionType_eq_dec : EqDecision CNightGeneratesDustActionType.
Proof. solve_decision. Defined.

Record CNightGeneratesDustEvent (DustPublicKey : Type) : Type := {
  event_value : Z; event_owner : DustPublicKey; event_time : Z;
  event_action : CNightGeneratesDustActionType; event_nonce : list Z;
}.

(** Payloads that the code does not look into are of one type. *)
Inductive SystemTransaction (Payload Event : Type) : Type :=
| OverwriteParameters (p : Payload)
| DistributeNight (kind : ClaimKind) (p : Payload)
| PayBlockRewardsToTreasury (p : Payload)
| PayFromTreasuryShielded (p : Payload)
| PayFromTreasuryUnshielded (p : Payload)
| DistributeReserve (p : Payload)
| CNightGeneratesDustUpdate (events : list Event)
| OtherSystemTransaction (p : Payload).
Arguments OverwriteParameters {Payload Event} p.
Arguments DistributeNight {Payload Event} kind p.
Arguments PayBlockRewardsToTreasury {Payload Event} p.
Arguments PayFromTreasuryShielded {Payload Event} p.
Arguments PayFromTreasuryUnshielded {Payload Event} p.
Arguments DistributeReserve {Payload Event} p.
Arguments CNightGeneratesDustUpdate {Payload Event} events.
Arguments OtherSystemTransaction {Payload Event} p.

(** [mn_ledger::semantics::TransactionResult]; a segment without an error
    succeeded. *)
Inductive TransactionResult : Type :=
| Success
| PartialSuccess (segs : gmap Z (option TransactionInvalid))
| Failure (reason : TransactionInvalid).

Class MnLedger : Type := {
  mn_transactions :: MnTransactions;
  (** Costs. *)
  FixedPoint : Type;
  fp_cmp : FixedPoint → FixedPoint → comparison;
  into_atomic_units : FixedPoint → Z → Z;
  cost_add : SyntheticCost → SyntheticCost → SyntheticCost;
  normalize : SyntheticCost → SyntheticCost → option (NormalizedCost FixedPoint);
  (** The ledger state. *)
  LedgerState : Type;
  LedgerParameters : Type;
  ContractState : Type;
  CoinComs : Type;
  ZswapState : Type;
  MerkleTreeDigest : Type;
  state_hash : LedgerState → list Z;
  network_id : LedgerState → string;
  utxos : LedgerState → gset Utxo;
  parameters : LedgerState → LedgerParameters;
  block_limits : LedgerParameters → SyntheticCost;
  unclaimed_block_rewards : LedgerState → gmap UserAddress Z;
  state_index : LedgerState → ContractAddress → option ContractState;
  zswap_coin_coms : LedgerState → CoinComs;
  zswap_filter : LedgerState → list ContractAddress → CoinComs;
  zswap_state_of_coin_coms : CoinComs → ZswapState;
  coin_coms_rehash_root : CoinComs → option MerkleTreeDigest;
  (** Transactions. *)
  TransactionIdentifier : Type;
  VerifiedTransaction : Type;
  transaction_hash : Transaction → list Z;
  identifiers : Transaction → list TransactionIdentifier;
  tx_cost : Transaction → LedgerParameters → option SyntheticCost;
  well_formed : Transaction → LedgerState → Z → MalformedTransaction + VerifiedTransaction;
  ledger_apply :
    LedgerState → VerifiedTransaction → LedgerState * BlockContext → LedgerState * TransactionResult;
  (** System transactions. *)
  SystemPayload : Type;
  DustPublicKey : Type;
  system_transaction_hash :
    SystemTransaction SystemPayload (CNightGeneratesDustEvent DustPublicKey) → list Z;
  system_tx_cost :
    SystemTransaction SystemPayload (CNightGeneratesDustEvent DustPublicKey) → LedgerParameters →
    SyntheticCost;
  ledger_apply_system_tx :
    LedgerState → SystemTransaction SystemPayload (CNightGeneratesDustEvent DustPublicKey) → Z →
    LedgerSystemTransactionError + LedgerState;
  ledger_post_block_update :
    LedgerState → Z → NormalizedCost FixedPoint → FixedPoint → option LedgerState;
  (** Formats. *)
  transaction_codec :: TaggedCodec Transaction;
  system_transaction_codec ::
    TaggedCodec (SystemTransaction SystemPayload (CNightGeneratesDustEvent DustPublicKey));
  event_codec :: TaggedCodec (CNightGeneratesDustEvent DustPublicKey);
  ledger_state_codec :: TaggedCodec LedgerState;
  contract_address_tagged_codec :: TaggedCodec ContractAddress;
  contract_address_codec :: PlainCodec ContractAddress;
  contract_state_codec :: TaggedCodec ContractState;
  zswap_state_codec :: TaggedCodec ZswapState;
  merkle_digest_codec :: PlainCodec MerkleTreeDigest;
  ledger_parameters_codec :: TaggedCodec LedgerParameters;
  identifier_codec :: TaggedCodec TransactionIdentifier;
  dust_public_key_codec :: PlainCodec DustPublicKey;
}.

(** [ZERO] and the ledger kept in the arena ([api/ledger.rs]). *)
Definition cost_zero : SyntheticCost :=
  {| read_time := 0; compute_time := 0; block_usage := 0; bytes_written := 0; bytes_churned := 0 |}.
Record Ledger `{!MnLedger} : Type := { state : LedgerState; block_fullness : SyntheticCost }.

(** The arena: a store of ledgers under the hash of their content.  A ledger that
    is allocated and not persisted is gone when the host function returns. *)
Class Arena `{!MnLedger} : Type := {
  ArenaKey : Type;
  ArenaStore : Type;
  as_typed_key : Ledger → ArenaKey;
  state_typed_key : LedgerState → ArenaKey;
  get_lazy : ArenaStore → ArenaKey → option Ledger;
  persist : Ledger → ArenaStore → ArenaStore;
  arena_key_tagged_codec :: TaggedCodec ArenaKey;
  arena_key_codec :: PlainCodec ArenaKey;
}.

(** Substrate's [Twox128]. *)
Class Twox : Type := twox_128 : list Z → list Z.

(** ** Errors of the types: [impl SerializableError for ..] *)

Section Errors.
Context `{!MnLedger} `{!Arena}.
Notation SystemTx := (SystemTransaction SystemPayload (CNightGeneratesDustEvent DustPublicKey)).

#[export] Instance DustPublicKey_deserializable_error : DeserializableError DustPublicKey :=
  De_DustPublicKey.
#[export] Instance ArenaKey_serializable_error : SerializableError ArenaKey := Ser_TypedArenaKey.
#[export] Instance ArenaKey_deserializable_error : DeserializableError ArenaKey := De_TypedArenaKey.
#[export] Instance identifier_serializable_error : SerializableError TransactionIdentifier :=
  Ser_TransactionIdentifier.
#[export] Instance ContractState_serializable_error : SerializableError ContractState :=
  Ser_ContractState.
#[export] Instance ZswapState_serializable_error : SerializableError ZswapState := Ser_ZswapState.
#[export] Instance SystemTransaction_serializable_error : SerializableError SystemTx :=
  Ser_SystemTransaction.
#[export] Instance SystemTransaction_deserializable_error : DeserializableError SystemTx :=
  De_SystemTransaction.
#[export] Instance event_serializable_error :
  SerializableError (CNightGeneratesDustEvent DustPublicKey) := Ser_CNightGeneratesDustEvent.
#[export] Instance event_deserializable_error :
  DeserializableError (CNightGeneratesDustEvent DustPublicKey) := De_CNightGeneratesDustEvent.
#[export] Instance LedgerParameters_serializable_error : SerializableError LedgerParameters :=
  Ser_LedgerParameters.
#[export] Instance MerkleTreeDigest_serializable_error : SerializableError MerkleTreeDigest :=
  Ser_MerkleTreeDigest.
End Errors.
Notation SystemTx := (SystemTransaction SystemPayload (CNightGeneratesDustEvent DustPublicKey)).

(** ** Costs: [ledger/helpers/src/versions/common/mod.rs] *)

Section Costs.
Context `{!MnLedger}.

(** [Ord::max]: the second argument unless the first is greater. *)
Definition fp_max (a b : FixedPoint) : FixedPoint :=
  match fp_cmp a b with Gt => a | _ => b end.

Definition compute_overall_fullness (normalized : NormalizedCost FixedPoint) : FixedPoint :=
  fp_max
    (fp_max (fp_max (n_read_time normalized) (n_compute_time normalized)) (n_block_usage normalized))
    (fp_max (n_bytes_written normalized) (n_bytes_churned normalized)).

Definition clamp (cost limits : SyntheticCost) : SyntheticCost :=
  {| read_time := Z.min (read_time cost) (read_time limits);
     compute_time := Z.min (compute_time cost) (compute_time limits);
     block_usage := Z.min (block_usage cost) (block_usage limits);
     bytes_written := Z.min (bytes_written cost) (bytes_written limits);
     bytes_churned := Z.min (bytes_churned cost) (bytes_churned limits) |}.

Definition clamp_and_normalize (cost limits : SyntheticCost) :
    outcome LedgerApiError (NormalizedCost FixedPoint) :=
  match normalize (clamp cost limits) limits with
  | Some n => Ok n
  | None => Panic
  end.

(** [max_fp.into_atomic_units(max_weight as u128).min(max_weight as u128) as u64]. *)
Definition scale_normalized_cost (normalized : NormalizedCost FixedPoint) (max_weight : Z) : Z :=
  let max_fp :=
    fp_max (fp_max (fp_max (fp_max (n_read_time normalized) (n_compute_time normalized))
      (n_block_usage normalized)) (n_bytes_written normalized)) (n_bytes_churned normalized) in
  wrap 64 (Z.min (into_atomic_units max_fp max_weight) max_weight).
End Costs.

(** ** The ledger in the arena: [api/ledger.rs] *)

Section LedgerOps.
Context `{!MnLedger}.

(** [Ledger::new]. *)
Definition ledger_new (s : LedgerState) : Ledger := {| state := s; block_fullness := cost_zero |}.

Inductive AppliedStage : Type :=
| AllApplied
| StagePartialSuccess (segs : gmap Z (option TransactionInvalid)).

(** [TryFrom<BlockContext>]: the parent hash must be 32 bytes long. *)
Definition block_context_try_from (c : BlockContext) : option BlockContext :=
  if bool_decide (length (parent_block_hash c) = 32%nat) then Some c else None.

Definition get_transaction_context (l : Ledger) (c : BlockContext) :
    outcome LedgerApiError (LedgerState * BlockContext) :=
  c' ← ok_or (block_context_try_from c) Api_GetTransactionContextError;
  Ok (state l, c').

Definition apply_verified_transaction (sp : Ledger) (tx : Transaction)
    (verified_tx : VerifiedTransaction) (ctx : LedgerState * BlockContext) :
    outcome LedgerApiError (Ledger * AppliedStage) :=
  cost ← ok_or (tx_cost tx (parameters (state sp))) Api_FeeCalculationError;
  let '(next_state, result) := ledger_apply (state sp) verified_tx ctx in
  let new_sp := {| state := next_state; block_fullness := cost_add cost (block_fullness sp) |} in
  match result with
  | Success => Ok (new_sp, AllApplied)
  | PartialSuccess segs => Ok (new_sp, StagePartialSuccess segs)
  | Failure reason => Err (Api_Transaction (Tx_Invalid (invalid_error_from reason)))
  end.

(** [Ledger::post_block_update]. *)
Definition ledger_post_block (sp : Ledger) (c : BlockContext) : outcome LedgerApiError Ledger :=
  normalized_fullness ←
    clamp_and_normalize (block_fullness sp) (block_limits (parameters (state sp)));
  let overall_fullness := compute_overall_fullness normalized_fullness in
  next_state ←
    ok_or (ledger_post_block_update (state sp) (tblock c) normalized_fullness overall_fullness)
      Api_BlockLimitExceededError;
  Ok {| state := next_state; block_fullness := cost_zero |}.

(** [Ledger::apply_system_tx]. *)
Definition ledger_apply_system (sp : Ledger) (tx : SystemTx) (t : Z) :
    outcome LedgerApiError Ledger :=
  let cost := system_tx_cost tx (parameters (state sp)) in
  match ledger_apply_system_tx (state sp) tx t with
  | inl e => Err (Api_Transaction (Tx_SystemTransaction (system_transaction_error_from e)))
  | inr next_state =>
      Ok {| state := next_state; block_fullness := cost_add cost (block_fullness sp) |}
  end.

Definition get_zswap_state (l : Ledger) (maybe_contract_address : option ContractAddress) :
    ZswapState :=
  zswap_state_of_coin_coms
    match maybe_contract_address with
    | Some a => zswap_filter (state l) [a]
    | None => zswap_coin_coms (state l)
    end.

(** [rehash().root().unwrap()]: a panic on an empty root. *)
Definition ledger_zswap_state_root (l : Ledger) : outcome LedgerApiError MerkleTreeDigest :=
  match coin_coms_rehash_root (zswap_coin_coms (state l)) with Some d => Ok d | None => Panic end.
End LedgerOps.

(** ** The host and its caches *)

Section Bridge.
Context `{!MnLedger} `{!Arena} `{!Twox} (W : Files).

(** [Arc<dyn Any + Send + Sync>]: what a downcast to [VerifiedTransaction] sees. *)
Inductive Erased : Type := AsVerified (vt : VerifiedTransaction) | OtherType.
Definition downcast_ref (e : Erased) : option VerifiedTransaction :=
  match e with AsVerified vt => Some vt | OtherType => None end.

(** Keys: the hash of the state and of the transaction, and of the transaction. *)
Definition StrictTxValidationKey : Type := list Z * list Z.
Definition SoftTxValidationKey : Type := list Z.

Record Host : Type := {
  storage : ArenaStore;
  STRICT_TX_VALIDATION_CACHE : gmap (list Z * list Z) Erased;
  SOFT_TX_VALIDATION_CACHE : gmap (list Z) (outcome LedgerApiError unit);
  ordering : Statics;
}.

Definition set_storage (f : ArenaStore → ArenaStore) (h : Host) : Host :=
  {| storage := f (storage h); STRICT_TX_VALIDATION_CACHE := STRICT_TX_VALIDATION_CACHE h;
     SOFT_TX_VALIDATION_CACHE := SOFT_TX_VALIDATION_CACHE h; ordering := ordering h |}.
Definition set_strict (k : StrictTxValidationKey) (e : Erased) (h : Host) : Host :=
  {| storage := storage h;
     STRICT_TX_VALIDATION_CACHE := <[k := e]> (STRICT_TX_VALIDATION_CACHE h);
     SOFT_TX_VALIDATION_CACHE := SOFT_TX_VALIDATION_CACHE h; ordering := ordering h |}.
Definition set_soft (f : gmap (list Z) (outcome LedgerApiError unit) →
                         gmap (list Z) (outcome LedgerApiError unit)) (h : Host) : Host :=
  {| storage := storage h; STRICT_TX_VALIDATION_CACHE := STRICT_TX_VALIDATION_CACHE h;
     SOFT_TX_VALIDATION_CACHE := f (SOFT_TX_VALIDATION_CACHE h); ordering := ordering h |}.
Definition set_ordering (f : Statics → Statics) (h : Host) : Host :=
  {| storage := storage h; STRICT_TX_VALIDATION_CACHE := STRICT_TX_VALIDATION_CACHE h;
     SOFT_TX_VALIDATION_CACHE := SOFT_TX_VALIDATION_CACHE h; ordering := f (ordering h) |}.

Notation HostM := (M Host LedgerApiError).

(** [runtime_version] is prepended in four little-endian bytes. *)
Definition tx_validation_cache_key (runtime_version : Z) (tx_serialized : list Z) : list Z :=
  wrapped_hash_from (twox_128 (to_le_bytes 4 runtime_version ++ tx_serialized)).

Definition get_ledger (state_key : list Z) : HostM Ledger :=
  key ← lift (tagged_deserialize (T := ArenaKey) state_key);
  h ← gets storage;
  lift (ok_or (get_lazy h key) Api_NoLedgerState).

(** A transaction verified from scratch. *)
Definition verify_fresh (l : Ledger) (tx : Transaction) (c : BlockContext) :
    outcome LedgerApiError VerifiedTransaction :=
  ctx ← get_transaction_context l c;
  match well_formed tx ctx.1 (tblock ctx.2) with
  | inl e => Err (Api_Transaction (Tx_Malformed (malformed_error_from e)))
  | inr vt => Ok vt
  end.

Definition get_verified_transaction (l : Ledger) (tx : Transaction) (c : BlockContext)
    (tx_hash : list Z) : HostM VerifiedTransaction :=
  let strict_key := (state_hash (state l), tx_hash) in
  cached ← gets (λ h, STRICT_TX_VALIDATION_CACHE h !! strict_key ≫= downcast_ref);
  match cached with
  | Some vt => mret vt
  | None =>
      verified_tx ← lift (verify_fresh l tx c);
      modify (set_strict strict_key (AsVerified verified_tx));;
      mret verified_tx
  end.

(** The dry run shared by the two validations: the error of a failing one. *)
Definition dry_run (l : Ledger) (c : BlockContext) (verified_tx : VerifiedTransaction) :
    outcome LedgerApiError unit :=
  ctx ← get_transaction_context l c;
  match (ledger_apply (state l) verified_tx ctx).2 with
  | Success | PartialSuccess _ => Ok tt
  | Failure reason => Err (Api_Transaction (Tx_Invalid (invalid_error_from reason)))
  end.

(** Whether the answer came from the soft cache. *)
Definition do_validate_transaction (l : Ledger) (tx : Transaction) (c : BlockContext)
    (tx_hash : list Z) : HostM bool :=
  cached ← gets (λ h, SOFT_TX_VALIDATION_CACHE h !! tx_hash);
  match cached with
  | Some r => lift (_ ← r; Ok true)
  | None =>
      verified_tx ← get_verified_transaction l tx c tx_hash;
      lift (dry_run l c verified_tx);;
      modify (set_soft <[tx_hash := Ok tt]>);;
      mret false
  end.

(** Whether the strict cache had the transaction. *)
Definition do_validate_guaranteed_execution (l : Ledger) (tx : Transaction) (c : BlockContext)
    (tx_hash : list Z) : HostM bool :=
  modify (set_soft (delete tx_hash));;
  was_cached ← gets (λ h, bool_decide
    (is_Some (STRICT_TX_VALIDATION_CACHE h !! (state_hash (state l), tx_hash))));
  verified_tx ← get_verified_transaction l tx c tx_hash;
  lift (dry_run l c verified_tx);;
  mret was_cached.

(** ** Applying transactions *)

(** The UTXOs to report and the segments to leave out of the operations. *)
Definition reported_utxos (tx : Transaction) (stage : AppliedStage) :
    UnshieldedUtxos * option (list Z) :=
  match stage with
  | StagePartialSuccess segs =>
      (remove_failed_segments ((λ '(k, e), (k, bool_decide (is_Some e))) <$>
         btree_to_list Z.compare segs) (unshielded_utxos tx),
       Some (btree_keys Z.compare segs))
  | AllApplied => (unshielded_utxos tx, None)
  end.

(** The [for op in operations] loop. *)
Definition add_operation (event : TransactionAppliedStateRoot) (op : Operation) :
    outcome LedgerApiError TransactionAppliedStateRoot :=
  match op with
  | OpCall address _ =>
      a ← tagged_serialize address;
      Ok {| state_root := state_root event; applied_tx_hash := applied_tx_hash event;
            all_applied := all_applied event; call_addresses := call_addresses event ++ [a];
            deploy_addresses := deploy_addresses event;
            maintain_addresses := maintain_addresses event; claim_rewards := claim_rewards event;
            unshielded_utxos_created := unshielded_utxos_created event;
            unshielded_utxos_spent := unshielded_utxos_spent event |}
  | OpDeploy address =>
      a ← tagged_serialize address;
      Ok {| state_root := state_root event; applied_tx_hash := applied_tx_hash event;
            all_applied := all_applied event; call_addresses := call_addresses event;
            deploy_addresses := deploy_addresses event ++ [a];
            maintain_addresses := maintain_addresses event; claim_rewards := claim_rewards event;
            unshielded_utxos_created := unshielded_utxos_created event;
            unshielded_utxos_spent := unshielded_utxos_spent event |}
  | OpMaintain address =>
      a ← tagged_serialize address;
      Ok {| state_root := state_root event; applied_tx_hash := applied_tx_hash event;
            all_applied := all_applied event; call_addresses := call_addresses event;
            deploy_addresses := deploy_addresses event;
            maintain_addresses := maintain_addresses event ++ [a];
            claim_rewards := claim_rewards event;
            unshielded_utxos_created := unshielded_utxos_created event;
            unshielded_utxos_spent := unshielded_utxos_spent event |}
  | OpClaimRewards reward =>
      Ok {| state_root := state_root event; applied_tx_hash := applied_tx_hash event;
            all_applied := all_applied event; call_addresses := call_addresses event;
            deploy_addresses := deploy_addresses event;
            maintain_addresses := maintain_addresses event;
            claim_rewards := claim_rewards event ++ [reward];
            unshielded_utxos_created := unshielded_utxos_created event;
            unshielded_utxos_spent := unshielded_utxos_spent event |}
  end.

Fixpoint add_operations (event : TransactionAppliedStateRoot) (ops : list Operation) :
    outcome LedgerApiError TransactionAppliedStateRoot :=
  match ops with
  | [] => Ok event
  | op :: ops => event ← add_operation event op; add_operations event ops
  end.

(** [utxo_ordering_override::get_override(&tx_hash)] and [ordering.apply]. *)
Definition reorder_utxos (tx_hash : list Z) (u : UnshieldedUtxos)
    (lists : list UtxoInfo * list UtxoInfo) : HostM (list UtxoInfo * list UtxoInfo) := λ h,
  let '(override, s) := get_override W tx_hash (ordering h) in
  (Ok match override with
      | Some o => UtxoOrdering.apply o lists.1 (Z.of_nat (size (outputs u)))
                    lists.2 (Z.of_nat (size (inputs u)))
      | None => lists
      end, set_ordering (λ _, s) h).

(** The body from the verified transaction up to [new_ledger.persist()]: the new
    ledger and the event. *)
Definition finish_transaction (ledger : Ledger) (tx : Transaction) (c : BlockContext)
    (should_skip_failed_segments : bool) (verified_tx : VerifiedTransaction) :
    HostM (Ledger * TransactionAppliedStateRoot) :=
  let initial_utxos_size := Z.of_nat (size (utxos (state ledger))) in
  tx_ctx ← lift (get_transaction_context ledger c);
  r ← lift (apply_verified_transaction ledger tx verified_tx tx_ctx);
  let us := (reported_utxos tx r.2).1 in
  let failed_segments := (reported_utxos tx r.2).2 in
  let operations :=
    calls_and_deploys tx (if should_skip_failed_segments then failed_segments else None) in
  lists ← lift (check_utxos_response_integrity us initial_utxos_size (utxos (state r.1)));
  lists ← reorder_utxos (transaction_hash tx) us lists;
  root ← lift (tagged_serialize (as_typed_key r.1));
  event ← lift (add_operations
    {| state_root := root; applied_tx_hash := transaction_hash tx;
       all_applied := match r.2 with AllApplied => true | _ => false end;
       call_addresses := []; deploy_addresses := []; maintain_addresses := [];
       claim_rewards := []; unshielded_utxos_created := lists.1;
       unshielded_utxos_spent := lists.2 |} operations);
  mret (r.1, event).

(** The body up to [new_ledger.persist()], over the way a verified transaction is
    obtained. *)
Definition prepare_transaction
    (verify : Ledger → Transaction → BlockContext → list Z → HostM VerifiedTransaction)
    (state_key tx_serialized : list Z) (c : BlockContext) (should_skip_failed_segments : bool)
    (runtime_version : Z) : HostM (Ledger * TransactionAppliedStateRoot) :=
  tx ← lift (tagged_deserialize (T := Transaction) tx_serialized);
  ledger ← get_ledger state_key;
  modify (set_ordering (set_network_id (network_id (state ledger))));;
  let cache_key := tx_validation_cache_key runtime_version tx_serialized in
  verified_tx ← verify ledger tx c cache_key;
  finish_transaction ledger tx c should_skip_failed_segments verified_tx.

Definition apply_transaction_with
    (verify : Ledger → Transaction → BlockContext → list Z → HostM VerifiedTransaction)
    (state_key tx_serialized : list Z) (c : BlockContext) (should_skip_failed_segments : bool)
    (runtime_version : Z) : HostM TransactionAppliedStateRoot :=
  r ← prepare_transaction verify state_key tx_serialized c should_skip_failed_segments
        runtime_version;
  modify (set_storage (persist r.1));;
  mret r.2.

Definition apply_transaction := apply_transaction_with get_verified_transaction.

Definition get_system_tx_type (tx : SystemTx) : string :=
  match tx with
  | OverwriteParameters _ => "overwrite_parameters"
  | DistributeNight Reward _ => "distribute_night_reward"
  | DistributeNight CardanoBridge _ => "distribute_night_cardano_bridge"
  | PayBlockRewardsToTreasury _ => "pay_block_rewards_to_treasury"
  | PayFromTreasuryShielded _ => "pay_from_treasury_shielded"
  | PayFromTreasuryUnshielded _ => "pay_from_treasury_unshielded"
  | DistributeReserve _ => "distribute_reserve"
  | CNightGeneratesDustUpdate _ => "cnight_generates_dust_update"
  | OtherSystemTransaction _ => "unknown"
  end%string.

Definition apply_system_transaction (state_key tx_serialized : list Z) (c : BlockContext) :
    HostM SystemTransactionAppliedStateRoot :=
  tx ← lift (tagged_deserialize (T := SystemTx) tx_serialized);
  ledger ← get_ledger state_key;
  ledger ← lift (ledger_apply_system ledger tx (tblock c));
  root ← lift (tagged_serialize (as_typed_key ledger));
  modify (set_storage (persist ledger));;
  mret {| sys_state_root := root; sys_tx_hash := system_transaction_hash tx;
          sys_tx_type := bytes_of_string (get_system_tx_type tx) |}.

(** An error of the update is reported as a missing ledger state. *)
Definition post_block_update (state_key : list Z) (c : BlockContext) : HostM (list Z) :=
  ledger ← get_ledger state_key;
  ledger ← lift (map_err (λ _, Api_NoLedgerState) (ledger_post_block ledger c));
  root ← lift (tagged_serialize (as_typed_key ledger));
  modify (set_storage (persist ledger));;
  mret root.

(** ** Validation *)

Definition get_transaction_cost (state_key tx : list Z) (max_weight : Z) : HostM Z :=
  tx ← lift (tagged_deserialize (T := Transaction) tx);
  ledger ← get_ledger state_key;
  cost ← lift (ok_or (tx_cost tx (parameters (state ledger))) Api_FeeCalculationError);
  normalized ← lift (ok_or (normalize cost (block_limits (parameters (state ledger))))
    Api_BlockLimitExceededError);
  mret (scale_normalized_cost normalized max_weight).

Definition validate_transaction (state_key tx_serialized : list Z) (c : BlockContext)
    (runtime_version max_weight : Z) (get_tx_details : bool) :
    HostM (list Z * option TransactionDetails) :=
  tx ← lift (tagged_deserialize (T := Transaction) tx_serialized);
  ledger ← get_ledger state_key;
  let wrapped_cache_key := tx_validation_cache_key runtime_version tx_serialized in
  _ ← do_validate_transaction ledger tx c wrapped_cache_key;
  tx_details ←
    (if get_tx_details then
       tx_gas_cost ← get_transaction_cost state_key tx_serialized max_weight;
       mret (Some (get_transaction_details tx tx_gas_cost))
     else mret None);
  mret (wrapped_cache_key, tx_details).

Definition validate_guaranteed_execution (state_key tx_serialized : list Z) (c : BlockContext)
    (runtime_version : Z) : HostM unit :=
  tx ← lift (tagged_deserialize (T := Transaction) tx_serialized);
  ledger ← get_ledger state_key;
  let cache_key := tx_validation_cache_key runtime_version tx_serialized in
  _ ← do_validate_guaranteed_execution ledger tx c cache_key;
  mret tt.

(** ** Queries *)

Inductive Op : Type :=
| Op_Call (address entry_point : list Z)
| Op_Deploy (address : list Z)
| Op_Maintain (address : list Z)
| Op_ClaimRewards (reward : Z).

Record Tx : Type := {
  tx_hash_of : list Z; operations_of : list Op; identifiers_of : list (list Z);
  has_fallible_coins_of : bool; has_guaranteed_coins_of : bool;
}.

Definition op_of_operation (cd : Operation) : outcome LedgerApiError Op :=
  match cd with
  | OpCall address entry_point => a ← tagged_serialize address; Ok (Op_Call a entry_point)
  | OpDeploy address => a ← tagged_serialize address; Ok (Op_Deploy a)
  | OpMaintain address => a ← tagged_serialize address; Ok (Op_Maintain a)
  | OpClaimRewards reward => Ok (Op_ClaimRewards reward)
  end.

Definition get_decoded_transaction (transaction_bytes : list Z) : outcome LedgerApiError Tx :=
  tx ← tagged_deserialize (T := Transaction) transaction_bytes;
  ops ← try_collect op_of_operation (calls_and_deploys tx None);
  ids ← try_collect tagged_serialize (identifiers tx);
  Ok {| tx_hash_of := transaction_hash tx; operations_of := ops; identifiers_of := ids;
        has_fallible_coins_of := has_fallible_coins tx;
        has_guaranteed_coins_of := has_guaranteed_coins tx |}.

(** An unknown contract is an empty answer. *)
Definition get_contract_state (state_key address : list Z) : HostM (list Z) :=
  addr ← lift (deserialize (T := ContractAddress) address);
  ledger ← get_ledger state_key;
  match state_index (state ledger) addr with
  | Some contract_state => lift (tagged_serialize contract_state)
  | None => mret []
  end.

Definition get_zswap_chain_state (state_key address : list Z) : HostM (list Z) :=
  addr ← lift (deserialize (T := ContractAddress) address);
  ledger ← get_ledger state_key;
  lift (tagged_serialize (get_zswap_state ledger (Some addr))).

Definition get_zswap_state_root (state_key : list Z) : HostM (list Z) :=
  ledger ← get_ledger state_key;
  digest ← lift (ledger_zswap_state_root ledger);
  lift (serialize digest).

Definition get_ledger_state_root (state_key : list Z) : HostM (list Z) :=
  ledger ← get_ledger state_key;
  lift (serialize (state_typed_key (state ledger))).

Definition get_unclaimed_amount (state_key beneficiary : list Z) : HostM Z :=
  night_addr ← lift (night_address beneficiary);
  ledger ← get_ledger state_key;
  mret (default 0 (unclaimed_block_rewards (state ledger) !! night_addr)).

Definition get_ledger_parameters (state_key : list Z) : HostM (list Z) :=
  ledger ← get_ledger state_key;
  lift (tagged_serialize (parameters (state ledger))).

(** ** System transactions of the runtime *)

Definition construct_cnight_generates_dust_event (v : Z) (own : list Z) (time action : Z)
    (nonce : list Z) : outcome LedgerApiError (list Z) :=
  o ← deserialize (T := DustPublicKey) own;
  a ← (if bool_decide (action = 0) then Ok Create
       else if bool_decide (action = 1) then Ok Destroy
       else Err (Api_Deserialization De_CNightGeneratesDustActionType));
  tagged_serialize (T := CNightGeneratesDustEvent DustPublicKey)
    {| event_value := v; event_owner := o; event_time := time; event_action := a;
       event_nonce := nonce |}.

Definition construct_cnight_generates_dust_system_tx (events : list (list Z)) :
    outcome LedgerApiError (list Z) :=
  es ← try_collect (tagged_deserialize (T := CNightGeneratesDustEvent DustPublicKey)) events;
  tagged_serialize (T := SystemTx) (CNightGeneratesDustUpdate es).

Definition is_governance_allowed_system_tx (tx_serialized : list Z) : bool :=
  match tagged_deserialize (T := SystemTx) tx_serialized with
  | Ok (OverwriteParameters _) => true
  | _ => false
  end.

(** ** Genesis: [storage.rs] *)

(** [expect] and [unwrap] on the two formats. *)
Definition alloc_with_initial_state (initial_state : list Z) : HostM (list Z) :=
  s ← expect (midnight_tagged_deserialize (T := LedgerState) initial_state);
  let ledger := ledger_new s in
  modify (set_storage (persist ledger));;
  expect (midnight_tagged_serialize (as_typed_key ledger)).

(** [get_root]: the key alone, nothing is persisted. *)
Definition get_root (initial_state : list Z) : outcome LedgerApiError (list Z) :=
  match midnight_tagged_deserialize (T := LedgerState) initial_state with
  | Some s =>
      match midnight_tagged_serialize (as_typed_key (ledger_new s)) with
      | Some bytes => Ok bytes
      | None => Panic
      end
  | None => Panic
  end.
End Bridge.

(** ** What the functions change *)

Section Frame.
Context `{!MnLedger} `{!Arena} `{!Twox} (W : Files).
Notation HostM := (M Host LedgerApiError).

Lemma get_ledger_keeps {B} (f : Host → B) key : keeps f (get_ledger key).
Proof. unfold get_ledger. solve_keeps. Qed.
#[local] Hint Resolve get_ledger_keeps : midnight.

Lemma get_verified_keeps {B} (f : Host → B) l tx c k :
  (∀ k e h, f (set_strict k e h) = f h) → keeps f (get_verified_transaction l tx c k).
Proof. intros Hf. unfold get_verified_transaction. solve_keeps; auto. Qed.

Lemma do_validate_keeps {B} (f : Host → B) l tx c k :
  (∀ k e h, f (set_strict k e h) = f h) → (∀ g h, f (set_soft g h) = f h) →
  keeps f (do_validate_transaction l tx c k).
Proof.
  intros Hf Hg. unfold do_validate_transaction. pose proof (get_verified_keeps f) as Hv.
  solve_keeps; auto.
Qed.

Lemma do_validate_guaranteed_keeps {B} (f : Host → B) l tx c k :
  (∀ k e h, f (set_strict k e h) = f h) → (∀ g h, f (set_soft g h) = f h) →
  keeps f (do_validate_guaranteed_execution l tx c k).
Proof.
  intros Hf Hg. unfold do_validate_guaranteed_execution. pose proof (get_verified_keeps f) as Hv.
  solve_keeps; auto.
Qed.

Lemma reorder_utxos_keeps {B} (f : Host → B) t u ls :
  (∀ g h, f (set_ordering g h) = f h) → keeps f (reorder_utxos W t u ls).
Proof. intros Hf h. unfold reorder_utxos. destruct (get_override _ _ _). simpl. apply Hf. Qed.

Lemma finish_keeps {B} (f : Host → B) l tx c skip vt :
  (∀ g h, f (set_ordering g h) = f h) → keeps f (finish_transaction W l tx c skip vt).
Proof.
  intros Hf. unfold finish_transaction. pose proof (reorder_utxos_keeps f) as Hr.
  solve_keeps; auto.
Qed.

Lemma prepare_keeps {B} (f : Host → B) verify key b c skip rv :
  (∀ l tx c k, keeps f (verify l tx c k)) → (∀ g h, f (set_ordering g h) = f h) →
  keeps f (prepare_transaction W verify key b c skip rv).
Proof.
  intros Hv Hf. unfold prepare_transaction. pose proof (finish_keeps f) as Hr.
  solve_keeps; auto.
Qed.

Lemma validate_keeps_storage key b c rv w d :
  keeps storage (validate_transaction key b c rv w d).
Proof.
  unfold validate_transaction, get_transaction_cost.
  pose proof (do_validate_keeps storage) as Hv. solve_keeps; auto.
Qed.

Lemma validate_guaranteed_keeps_storage key b c rv :
  keeps storage (validate_guaranteed_execution key b c rv).
Proof.
  unfold validate_guaranteed_execution.
  pose proof (do_validate_guaranteed_keeps storage) as Hv. solve_keeps; auto.
Qed.

(** The outcome of the last part depends on the host only through the overrides
    of the UTXO order. *)
Lemma finish_outcome l tx c skip vt h1 h2 :
  ordering h1 = ordering h2 →
  (finish_transaction W l tx c skip vt h1).1 = (finish_transaction W l tx c skip vt h2).1.
Proof.
  intros Ho. unfold finish_transaction, mbind, M_bind, lift, mret, M_ret, reorder_utxos.
  destruct (get_transaction_context l c); [|done..].
  destruct (apply_verified_transaction _ _ _ _); [|done..].
  destruct (check_utxos_response_integrity _ _ _); [|done..].
  rewrite Ho. destruct (get_override _ _ _). destruct (tagged_serialize _); [|done..].
  by destruct (add_operations _ _).
Qed.
End Frame.

(** ** Histories of the host

    The calls made so far, most recent first.  The caches start empty, and any
    entry may disappear between two calls. *)

Section Histories.
Context `{!MnLedger} `{!Arena} `{!Twox} (W : Files).

Inductive HostCall : Type :=
| CallApply (state_key tx : list Z) (c : BlockContext) (skip : bool) (rv : Z)
| CallApplySystem (state_key tx : list Z) (c : BlockContext)
| CallPostBlock (state_key : list Z) (c : BlockContext)
| CallValidate (state_key tx : list Z) (c : BlockContext) (rv max_weight : Z) (details : bool)
| CallValidateGuaranteed (state_key tx : list Z) (c : BlockContext) (rv : Z).

Definition run_call (call : HostCall) (h : Host) : Host :=
  match call with
  | CallApply key tx c skip rv => (apply_transaction W key tx c skip rv h).2
  | CallApplySystem key tx c => (apply_system_transaction key tx c h).2
  | CallPostBlock key c => (post_block_update key c h).2
  | CallValidate key tx c rv w d => (validate_transaction key tx c rv w d h).2
  | CallValidateGuaranteed key tx c rv => (validate_guaranteed_execution key tx c rv h).2
  end.

Definition evicts (h h' : Host) : Prop :=
  STRICT_TX_VALIDATION_CACHE h' ⊆ STRICT_TX_VALIDATION_CACHE h ∧
  SOFT_TX_VALIDATION_CACHE h' ⊆ SOFT_TX_VALIDATION_CACHE h ∧
  storage h' = storage h ∧ ordering h' = ordering h.

(** The state under a key, if there is one. *)
Definition loaded (key : list Z) (h : Host) : option LedgerState :=
  match (get_ledger key h).1 with Ok l => Some (state l) | _ => None end.
Definition key_of_call (call : HostCall) : list Z :=
  match call with
  | CallApply key _ _ _ _ | CallApplySystem key _ _ | CallPostBlock key _
  | CallValidate key _ _ _ _ _ | CallValidateGuaranteed key _ _ _ => key
  end.

(** The log has the calls, the last one first, each with the state that it loaded. *)
Definition Log : Type := list (HostCall * option LedgerState).
Definition log_call (call : HostCall) (h : Host) : HostCall * option LedgerState :=
  (call, loaded (key_of_call call) h).
Inductive host_reach : Log → Host → Prop :=
| reach_start h :
    STRICT_TX_VALIDATION_CACHE h = ∅ → SOFT_TX_VALIDATION_CACHE h = ∅ → host_reach [] h
| reach_call log h call : host_reach log h → host_reach (log_call call h :: log) (run_call call h)
| reach_evict log h h' : host_reach log h → evicts h h' → host_reach log h'.

(** The transaction, context, runtime version and state of a call that verifies. *)
Definition verifies (x : HostCall * option LedgerState) : option (list Z * BlockContext * Z * LedgerState) :=
  match x with
  | (CallApply _ tx c _ rv, Some st) | (CallValidate _ tx c rv _ _, Some st)
  | (CallValidateGuaranteed _ tx c rv, Some st) => Some (tx, c, rv, st)
  | _ => None
  end.

(** An entry of the strict cache comes from a call that verified the transaction
    against the state that it loaded, which has that hash, at the time of that call. *)
Definition verified_by (log : Log) (sh th : list Z) (vt : VerifiedTransaction) : Prop :=
  ∃ x b c rv (tx : Transaction) st, x ∈ log ∧ verifies x = Some (b, c, rv, st) ∧
    th = tx_validation_cache_key rv b ∧ tagged_deserialize b = Ok tx ∧ state_hash st = sh ∧
    well_formed tx st (tblock c) = inr vt.

(** An entry of the soft cache comes from a pool validation whose dry run went
    through. *)
Definition accepted_by (log : Log) (th : list Z) : Prop :=
  ∃ key b c rv w d (tx : Transaction) l vt, (CallValidate key b c rv w d, Some (state l)) ∈ log ∧
    th = tx_validation_cache_key rv b ∧ tagged_deserialize b = Ok tx ∧
    verified_by log (state_hash (state l)) th vt ∧ dry_run l c vt = Ok tt.

Definition caches_sound (log : Log) (h : Host) : Prop :=
  (∀ k e, STRICT_TX_VALIDATION_CACHE h !! k = Some e →
     ∃ vt, e = AsVerified vt ∧ verified_by log k.1 k.2 vt) ∧
  (∀ k r, SOFT_TX_VALIDATION_CACHE h !! k = Some r → r = Ok tt ∧ accepted_by log k).

Lemma verified_by_weaken log log' sh th vt :
  log ⊆ log' → verified_by log sh th vt → verified_by log' sh th vt.
Proof. intros Hsub (call & b & c & rv & tx & st & Hin & Hrest). exists call, b, c, rv, tx, st. auto. Qed.

Lemma accepted_by_weaken log log' th : log ⊆ log' → accepted_by log th → accepted_by log' th.
Proof.
  intros Hsub (key & b & c & rv & w & d & tx & l & vt & Hin & Hk & Hd & Hv & Hr).
  exists key, b, c, rv, w, d, tx, l, vt. split_and!; eauto using verified_by_weaken.
Qed.

Lemma caches_sound_weaken log log' h : log ⊆ log' → caches_sound log h → caches_sound log' h.
Proof.
  intros Hsub [Hs Hf]. split.
  - intros k e Hk. destruct (Hs k e Hk) as (vt & -> & Hv). eauto using verified_by_weaken.
  - intros k r Hk. destruct (Hf k r Hk) as (-> & Ha). eauto using accepted_by_weaken.
Qed.

(** A call that verifies the transaction [b] against this state is on the log. *)
Definition logged (log : Log) (b : list Z) (c : BlockContext) (rv : Z) (st : LedgerState) : Prop :=
  ∃ x, x ∈ log ∧ verifies x = Some (b, c, rv, st).

Lemma get_verified_sound log l tx b c rv h r h' :
  logged log b c rv (state l) → tagged_deserialize b = Ok tx → caches_sound log h →
  get_verified_transaction l tx c (tx_validation_cache_key rv b) h = (r, h') →
  caches_sound log h' ∧
  (∀ vt, r = Ok vt → verified_by log (state_hash (state l)) (tx_validation_cache_key rv b) vt).
Proof.
  intros (call & Hin & Hcall) Hd [Hs Hf]. unfold get_verified_transaction. mrun.
  destruct (STRICT_TX_VALIDATION_CACHE h !! _) as [e|] eqn:Hk.
  { destruct (Hs _ _ Hk) as (vt & -> & Hv). simpl. intros; simplify_eq.
    split; [done|]. intros vt' [= <-]. done. }
  simpl. unfold verify_fresh, get_transaction_context. mrun.
  destruct (block_context_try_from c) as [c'|] eqn:Hc; simpl; [|by intros; simplify_eq].
  assert (c' = c) as -> by (unfold block_context_try_from in Hc; by case_bool_decide; simplify_eq).
  destruct (well_formed tx (state l) (tblock c)) as [e|vt] eqn:Hw; simpl; intros; simplify_eq;
    [done|].
  assert (verified_by log (state_hash (state l)) (tx_validation_cache_key rv b) vt) as Hv.
  { exists call, b, c, rv, tx, (state l). done. }
  split; [|by intros ? [= <-]]. split; [|done].
  intros k e. cbn [STRICT_TX_VALIDATION_CACHE set_strict].
  destruct (decide (k = (state_hash (state l), tx_validation_cache_key rv b))) as [->|Hne].
  - rewrite lookup_insert_eq. intros; simplify_eq. eauto.
  - rewrite lookup_insert_ne by done. apply Hs.
Qed.

Lemma do_validate_sound log l tx key b c rv w d h r h' :
  (CallValidate key b c rv w d, Some (state l)) ∈ log → tagged_deserialize b = Ok tx → caches_sound log h →
  do_validate_transaction l tx c (tx_validation_cache_key rv b) h = (r, h') → caches_sound log h'.
Proof.
  intros Hin Hd Hh. unfold do_validate_transaction. unfold mbind at 1, M_bind at 1, gets.
  destruct (SOFT_TX_VALIDATION_CACHE h !! _) as [r0|] eqn:Hk.
  { unfold lift. by intros; simplify_eq. }
  unfold mbind at 1, M_bind at 1.
  destruct (get_verified_transaction _ _ _ _ h) as [rv1 h1] eqn:Hv.
  apply (get_verified_sound log l tx b c rv) in Hv as [Hh1 Hvt]; [|by eexists|done|done].
  destruct rv1 as [vt|e|]; [|by intros; simplify_eq..].
  specialize (Hvt vt eq_refl). unfold mbind, M_bind, lift.
  destruct (dry_run l c vt) as [[]|e|] eqn:Hdry; [|by intros; simplify_eq..].
  unfold modify, mret, M_ret. intros; simplify_eq. destruct Hh1 as [Hs Hf]. split; [exact Hs|].
  intros k r. cbn [SOFT_TX_VALIDATION_CACHE set_soft].
  destruct (decide (k = tx_validation_cache_key rv b)) as [->|Hne].
  - rewrite lookup_insert_eq. intros [= <-]. split; [done|].
    exists key, b, c, rv, w, d, tx, l, vt. done.
  - rewrite lookup_insert_ne by done. apply Hf.
Qed.

Lemma do_guaranteed_sound log l tx b c rv h r h' :
  logged log b c rv (state l) → tagged_deserialize b = Ok tx → caches_sound log h →
  do_validate_guaranteed_execution l tx c (tx_validation_cache_key rv b) h = (r, h') →
  caches_sound log h' ∧ SOFT_TX_VALIDATION_CACHE h' !! tx_validation_cache_key rv b = None.
Proof.
  intros Hlog Hd [Hs Hf]. unfold do_validate_guaranteed_execution.
  unfold mbind at 1, M_bind at 1, modify. cbn [fst snd].
  set (h0 := set_soft _ h).
  assert (caches_sound log h0) as Hsound.
  { split; [exact Hs|]. intros k e. cbn. rewrite lookup_delete_Some. intros [_ Hk]. by apply Hf. }
  unfold mbind at 1, M_bind at 1, gets, mbind at 1, M_bind at 1.
  pose proof (get_verified_keeps SOFT_TX_VALIDATION_CACHE l tx c
                (tx_validation_cache_key rv b) (λ _ _ _, eq_refl) h0) as Hsoft.
  destruct (get_verified_transaction _ _ _ _ h0) as [rv1 h1] eqn:Hv. cbn [snd] in Hsoft.
  apply (get_verified_sound log l tx b c rv) in Hv as [Hh1 _]; [|done..].
  assert (SOFT_TX_VALIDATION_CACHE h1 !! tx_validation_cache_key rv b = None) as Hnone.
  { rewrite Hsoft. cbn. apply lookup_delete_eq. }
  destruct rv1 as [vt|e|]; [|by intros; simplify_eq..].
  unfold mbind, M_bind, lift, mret, M_ret. destruct (dry_run l c vt) as [[]|e|]; by intros; simplify_eq.
Qed.

(** Soundness only looks at the caches. *)
Lemma caches_sound_same log h h' :
  STRICT_TX_VALIDATION_CACHE h' = STRICT_TX_VALIDATION_CACHE h →
  SOFT_TX_VALIDATION_CACHE h' = SOFT_TX_VALIDATION_CACHE h →
  caches_sound log h → caches_sound log h'.
Proof. intros Hs Hf. unfold caches_sound. by rewrite Hs, Hf. Qed.

Definition caches (h : Host) := (STRICT_TX_VALIDATION_CACHE h, SOFT_TX_VALIDATION_CACHE h).

Lemma caches_sound_keeps {A} log (m : M Host LedgerApiError A) h :
  keeps caches m → caches_sound log h → caches_sound log (m h).2.
Proof.
  intros Hm. specialize (Hm h). unfold caches in Hm. injection Hm as Hs Hf.
  by apply caches_sound_same.
Qed.

Lemma get_ledger_run key h : ∃ r, get_ledger key h = (r, h).
Proof.
  exists (get_ledger key h).1. rewrite (surjective_pairing (get_ledger key h)) at 1.
  f_equal. apply (get_ledger_keeps (λ h, h)).
Qed.

Lemma apply_sound log key b c skip rv h :
  (∀ st, loaded key h = Some st → logged log b c rv st) → caches_sound log h →
  caches_sound log (apply_transaction W key b c skip rv h).2.
Proof.
  intros Hlog Hh. unfold apply_transaction, apply_transaction_with, prepare_transaction.
  unfold mbind, M_bind, lift, modify, mret, M_ret.
  destruct (tagged_deserialize b) as [tx|e|] eqn:Hd; [|done..].
  destruct (get_ledger_run key h) as [r Hr]. rewrite Hr. destruct r as [l|e|]; [|done..].
  assert (loaded key h = Some (state l)) as Hst by (unfold loaded; by rewrite Hr).
  set (h0 := set_ordering _ h).
  destruct (get_verified_transaction l tx c (tx_validation_cache_key rv b) h0) as [rv1 h1] eqn:Hv.
  apply (get_verified_sound log l tx b c rv) in Hv as [Hh1 _]; [|by apply Hlog|done|exact Hh].
  destruct rv1 as [vt|e|]; [|done..].
  pose proof (caches_sound_keeps log (finish_transaction W l tx c skip vt) h1
    (finish_keeps W caches l tx c skip vt (λ _ _, eq_refl)) Hh1) as Hh2.
  by destruct (finish_transaction W l tx c skip vt h1) as [[[l' ev]|e|] h2].
Qed.

Lemma validate_sound log key b c rv w d h :
  (CallValidate key b c rv w d, loaded key h) ∈ log → caches_sound log h →
  caches_sound log (validate_transaction key b c rv w d h).2.
Proof.
  intros Hin Hh. unfold validate_transaction.
  unfold mbind at 1, M_bind at 1, lift at 1.
  destruct (tagged_deserialize b) as [tx|e|] eqn:Hd; [|done..].
  unfold mbind at 1, M_bind at 1.
  destruct (get_ledger_run key h) as [r Hr]. rewrite Hr. destruct r as [l|e|]; [|done..].
  assert (loaded key h = Some (state l)) as Hst by (unfold loaded; by rewrite Hr).
  unfold mbind at 1, M_bind at 1.
  destruct (do_validate_transaction l tx c (tx_validation_cache_key rv b) h) as [r1 h1] eqn:Hv.
  rewrite Hst in Hin. eapply (do_validate_sound log l tx) in Hv; [|done..].
  destruct r1 as [was|e|]; [|done..]. apply caches_sound_keeps; [|done].
  unfold get_transaction_cost. pose proof (@get_ledger_keeps _ _ _ caches) as Hk. solve_keeps.
Qed.

Lemma guaranteed_sound log key b c rv h :
  (∀ st, loaded key h = Some st → logged log b c rv st) → caches_sound log h →
  caches_sound log (validate_guaranteed_execution key b c rv h).2.
Proof.
  intros Hlog Hh. unfold validate_guaranteed_execution, mbind, M_bind, lift, mret, M_ret.
  destruct (tagged_deserialize b) as [tx|e|] eqn:Hd; [|done..].
  destruct (get_ledger_run key h) as [r Hr]. rewrite Hr. destruct r as [l|e|]; [|done..].
  assert (loaded key h = Some (state l)) as Hst by (unfold loaded; by rewrite Hr).
  destruct (do_validate_guaranteed_execution l tx c _ h) as [r1 h1] eqn:Hv.
  apply (do_guaranteed_sound log l tx b c rv) in Hv as [Hh1 _]; [|by apply Hlog|done..]. by destruct r1.
Qed.

Lemma host_reach_sound log h : host_reach log h → caches_sound log h.
Proof.
  induction 1 as [h Hs Hf|log h call Hreach IH|log h h' Hreach IH He].
  - split; [rewrite Hs|rewrite Hf]; intros ??; by rewrite lookup_empty.
  - assert (caches_sound (log_call call h :: log) h) as Hh
      by (apply (caches_sound_weaken log); [by apply list_subseteq_cons|done]).
    destruct call as [key b c skip rv|key b c|key c|key b c rv w d|key b c rv]; cbn [run_call].
    + apply apply_sound; [|done]. intros st Hst. eexists; split; [left|]. unfold log_call. cbn. by rewrite Hst.
    + apply caches_sound_keeps; [|done]. unfold apply_system_transaction.
      pose proof (@get_ledger_keeps _ _ _ caches) as Hk. solve_keeps.
    + apply caches_sound_keeps; [|done]. unfold post_block_update.
      pose proof (@get_ledger_keeps _ _ _ caches) as Hk. solve_keeps.
    + apply validate_sound; [left|done].
    + apply guaranteed_sound; [|done]. intros st Hst. eexists; split; [left|]. unfold log_call. cbn. by rewrite Hst.
  - destruct He as (Hs & Hf & _). destruct IH as [IHs IHf].
    split; [intros k e Hk; apply IHs|intros k r Hk; apply IHf]; by eapply lookup_weaken.
Qed.

(** ** The strict cache is transparent, up to the block time *)

(** The host function without a cache. *)
Definition verify_uncached (l : Ledger) (tx : Transaction) (c : BlockContext) (_ : list Z) :
    M Host LedgerApiError VerifiedTransaction := lift (verify_fresh l tx c).
Definition apply_transaction_uncached := apply_transaction_with W verify_uncached.

(** No earlier verification has the strict key of this transaction and state but one
    of the very same. *)
Definition no_key_collision (log : Log) (rv : Z) (b : list Z) (st : LedgerState) : Prop :=
  ∀ x b' c' rv' st', x ∈ log → verifies x = Some (b', c', rv', st') →
    state_hash st' = state_hash st → tx_validation_cache_key rv' b' = tx_validation_cache_key rv b →
    b' = b ∧ st' = st.

(** Every earlier verification of [b] against this state has the verdict of the time
    of [c]. *)
Definition time_agrees (log : Log) (b : list Z) (st : LedgerState) (c : BlockContext) : Prop :=
  ∀ x c' rv' tx, x ∈ log → verifies x = Some (b, c', rv', st) →
    tagged_deserialize b = Ok tx → well_formed tx st (tblock c') = well_formed tx st (tblock c).

(** The strict cache tells nothing wrong about [b] on the state under [key], at the time
    of [c]. *)
Definition cache_agrees (log : Log) (h : Host) (key b : list Z) (c : BlockContext) (rv : Z) : Prop :=
  ∀ st, loaded key h = Some st → no_key_collision log rv b st ∧ time_agrees log b st c.

Lemma verify_fresh_eq l tx c :
  verify_fresh l tx c
  = match block_context_try_from c with
    | None => Err Api_GetTransactionContextError
    | Some _ =>
        match well_formed tx (state l) (tblock c) with
        | inl e => Err (Api_Transaction (Tx_Malformed (malformed_error_from e)))
        | inr vt => Ok vt
        end
    end.
Proof.
  unfold verify_fresh, get_transaction_context, block_context_try_from. by case_bool_decide.
Qed.

Lemma apply_with_outcome verify key b c skip rv h :
  (∀ l tx c k, keeps storage (verify l tx c k)) →
  (apply_transaction_with W verify key b c skip rv h).1
    = match (prepare_transaction W verify key b c skip rv h).1 with
      | Ok r => Ok r.2 | Err e => Err e | Panic => Panic end ∧
  storage (apply_transaction_with W verify key b c skip rv h).2
    = match (prepare_transaction W verify key b c skip rv h).1 with
      | Ok r => persist r.1 (storage h) | _ => storage h end.
Proof.
  intros Hv. unfold apply_transaction_with, mbind, M_bind, modify, mret, M_ret.
  pose proof (prepare_keeps W storage verify key b c skip rv Hv (λ _ _, eq_refl) h) as Hk.
  destruct (prepare_transaction W verify key b c skip rv h) as [[[l ev]|e|] h1]; cbn in *;
    by rewrite Hk.
Qed.

Lemma get_verified_keeps_storage l tx c k : keeps storage (get_verified_transaction l tx c k).
Proof. by apply get_verified_keeps. Qed.

Lemma prepare_cached_uncached log h key b c skip rv :
  host_reach log h → cache_agrees log h key b c rv →
  (prepare_transaction W get_verified_transaction key b c skip rv h).1
  = (prepare_transaction W verify_uncached key b c skip rv h).1.
Proof.
  intros Hreach Hseen. unfold prepare_transaction, mbind, M_bind, lift, modify.
  destruct (tagged_deserialize b) as [tx|e|] eqn:Hd; [|done..].
  destruct (get_ledger_run key h) as [r Hr]. rewrite Hr. destruct r as [l|e|]; [|done..].
  destruct (Hseen (state l)) as [Hcol Htime]; [unfold loaded; by rewrite Hr|].
  set (h0 := set_ordering _ h). unfold verify_uncached, lift, get_verified_transaction, mbind,
    M_bind, gets. rewrite verify_fresh_eq.
  destruct (STRICT_TX_VALIDATION_CACHE h0 !! _) as [e|] eqn:Hk; cbn.
  - destruct (proj1 (host_reach_sound log h Hreach) _ _ Hk) as (vt & -> & Hv). cbn in Hv |- *.
    destruct Hv as (x & b' & c' & rv' & tx' & st & Hin & Hcall & Hkey & Hd' & Hst & Hw).
    destruct (Hcol _ _ _ _ _ Hin Hcall Hst (eq_sym Hkey)) as [-> ->]. rewrite Hd in Hd'. injection Hd' as <-.
    rewrite (Htime x c' rv' tx) in Hw by done.
    rewrite Hw. destruct (block_context_try_from c) as [c0|] eqn:Hc; [done|].
    unfold finish_transaction, get_transaction_context, mbind, M_bind, lift. by rewrite Hc.
  - destruct (block_context_try_from c); [|done].
    destruct (well_formed tx (state l) (tblock c)); [done|]. cbn. by apply finish_outcome.
Qed.

(** C26: The strict cache does not change what applying a transaction does: on any
    host reached by calls and evictions from empty caches, the result and the
    persisted ledgers are those of the host without a cache.  There are two
    conditions on the log of the calls and of the states they loaded.  Where an
    earlier call verified under the same key, the hash of the state and the hash of
    the transaction, it verified the same transaction against the same state: no
    collision on the inputs seen.  And an earlier verification of this transaction
    against this state had the verdict that it has at the time of this block. *)
Theorem strict_cache_transparent log h key b c skip rv :
  host_reach log h → cache_agrees log h key b c rv →
  (apply_transaction W key b c skip rv h).1 = (apply_transaction_uncached key b c skip rv h).1 ∧
  storage (apply_transaction W key b c skip rv h).2
    = storage (apply_transaction_uncached key b c skip rv h).2.
Proof.
  intros Hreach Hseen. unfold apply_transaction, apply_transaction_uncached.
  destruct (apply_with_outcome get_verified_transaction key b c skip rv h) as [-> ->].
  { intros; apply get_verified_keeps_storage. }
  destruct (apply_with_outcome verify_uncached key b c skip rv h) as [-> ->].
  { intros ? ? ? ?; apply keeps_lift. }
  by rewrite (prepare_cached_uncached log).
Qed.

(** ** From validation to application *)

Lemma get_verified_hit l tx c th h vt :
  STRICT_TX_VALIDATION_CACHE h !! (state_hash (state l), th) = Some (AsVerified vt) →
  get_verified_transaction l tx c th h = (Ok vt, h).
Proof. intros Hk. unfold get_verified_transaction. mrun. by rewrite Hk. Qed.

Lemma get_verified_miss l tx c th h :
  STRICT_TX_VALIDATION_CACHE h !! (state_hash (state l), th) = None →
  (get_verified_transaction l tx c th h).1 = verify_fresh l tx c.
Proof.
  intros Hk. unfold get_verified_transaction. mrun. rewrite Hk. cbn.
  by destruct (verify_fresh l tx c).
Qed.

Lemma get_verified_outcome l tx c th h h' :
  STRICT_TX_VALIDATION_CACHE h = STRICT_TX_VALIDATION_CACHE h' →
  (get_verified_transaction l tx c th h).1 = (get_verified_transaction l tx c th h').1.
Proof.
  intros Hs. unfold get_verified_transaction. mrun. rewrite Hs.
  destruct (STRICT_TX_VALIDATION_CACHE h' !! _) as [[vt|]|]; cbn;
    [done|by destruct (verify_fresh l tx c)..].
Qed.

Lemma get_verified_fills l tx c th h vt h' :
  get_verified_transaction l tx c th h = (Ok vt, h') →
  STRICT_TX_VALIDATION_CACHE h' !! (state_hash (state l), th) = Some (AsVerified vt).
Proof.
  unfold get_verified_transaction. mrun.
  destruct (STRICT_TX_VALIDATION_CACHE h !! _) as [[vt'|]|] eqn:Hk; cbn;
    [by intros; simplify_eq|..];
    (destruct (verify_fresh l tx c); intros; simplify_eq; apply lookup_insert_eq).
Qed.

Lemma get_ledger_storage key h h' : storage h' = storage h → (get_ledger key h').1 = (get_ledger key h).1.
Proof. intros Hs. unfold get_ledger. mrun. rewrite Hs. by destruct (tagged_deserialize key). Qed.

Lemma guaranteed_ok_inv key b c rv h h1 :
  validate_guaranteed_execution key b c rv h = (Ok tt, h1) →
  ∃ (tx : Transaction) l vt, tagged_deserialize b = Ok tx ∧ (get_ledger key h).1 = Ok l ∧
    STRICT_TX_VALIDATION_CACHE h1 !! (state_hash (state l), tx_validation_cache_key rv b)
      = Some (AsVerified vt) ∧
    dry_run l c vt = Ok tt ∧ storage h1 = storage h.
Proof.
  intros Hrun. assert (storage h1 = storage h) as Hst.
  { eapply (keeps_run storage); [|exact Hrun]. apply validate_guaranteed_keeps_storage. }
  revert Hrun. unfold validate_guaranteed_execution, do_validate_guaranteed_execution, mbind,
    M_bind, lift, modify, gets, mret, M_ret.
  destruct (tagged_deserialize b) as [tx|e|] eqn:Hd; [|done..].
  destruct (get_ledger_run key h) as [r Hr]. rewrite Hr. destruct r as [l|e|]; [|done..].
  destruct (get_verified_transaction _ _ _ _ _) as [[vt|e|] h2] eqn:Hv; [|done..].
  destruct (dry_run l c vt) as [[]|e|] eqn:Hdry; [|done..]. intros; simplify_eq.
  exists tx, l, vt. split_and!; try done. by eapply get_verified_fills.
Qed.

(** The errors that a transaction that passed the dry run can still meet. *)
Definition host_fault (e : LedgerApiError) : bool :=
  match e with
  | Api_FeeCalculationError | Api_HostApiError | Api_Serialization _ => true
  | _ => false
  end.

Lemma add_operations_outcome ops : ∀ ev,
  match add_operations ev ops with Ok _ => True | Err e => host_fault e = true | Panic => False end.
Proof.
  induction ops as [|op ops IH]; intros ev; cbn; [done|].
  destruct op; cbn; unfold tagged_serialize;
    try (destruct (midnight_tagged_serialize address); cbn; [|done]); apply IH.
Qed.

(** The last part fails as the dry run does, or for the host's own reasons. *)
Lemma finish_errors l tx c skip vt h :
  match (finish_transaction W l tx c skip vt h).1 with
  | Ok _ => True | Err e => host_fault e = true ∨ dry_run l c vt = Err e | Panic => False end.
Proof.
  unfold dry_run, finish_transaction, mbind, M_bind, outcome_bind, lift, mret, M_ret.
  destruct (get_transaction_context l c) as [ctx|e|] eqn:Hctx; [|by right|].
  2:{ unfold get_transaction_context in Hctx. by destruct (block_context_try_from c). }
  unfold apply_verified_transaction, mbind, outcome_bind, ok_or.
  destruct (tx_cost tx _) as [cost|]; [|by left].
  destruct (ledger_apply (state l) vt ctx) as [st res].
  destruct res as [|segs|reason]; [| |by right]; cbv zeta; cbn [fst snd].
  all: match goal with |- context [check_utxos_response_integrity ?u ?n ?us] =>
    pose proof (integrity_check_spec u n us) as [Hchk _];
    destruct (check_utxos_response_integrity u n us) as [lists|e|];
    [|rewrite !elem_of_cons, elem_of_nil in Hchk; naive_solver..] end.
  all: unfold reorder_utxos; destruct (get_override _ _ _) as [o s].
  all: unfold tagged_serialize at 1; destruct (midnight_tagged_serialize (as_typed_key _)); [|by left];
    cbn [ok_or].
  all: match goal with |- context [add_operations ?ev ?ops] =>
    pose proof (add_operations_outcome ops ev) as Hops;
    destruct (add_operations ev ops); [done|by left|done] end.
Qed.

Lemma dry_run_not_malformed l c vt e : dry_run l c vt ≠ Err (Api_Transaction (Tx_Malformed e)).
Proof.
  unfold dry_run, get_transaction_context, mbind, outcome_bind, ok_or.
  destruct (block_context_try_from c); [|done]. by destruct (ledger_apply _ _ _).2.
Qed.

Lemma apply_hit_outcome key b c skip rv h (tx : Transaction) l vt :
  tagged_deserialize b = Ok tx → (get_ledger key h).1 = Ok l →
  STRICT_TX_VALIDATION_CACHE h !! (state_hash (state l), tx_validation_cache_key rv b)
    = Some (AsVerified vt) →
  (apply_transaction W key b c skip rv h).1
  = match (finish_transaction W l tx c skip vt
             (set_ordering (set_network_id (network_id (state l))) h)).1 with
    | Ok r => Ok r.2 | Err e => Err e | Panic => Panic end.
Proof.
  intros Hd Hl Hk. unfold apply_transaction.
  destruct (apply_with_outcome get_verified_transaction key b c skip rv h) as [-> _].
  { intros; apply get_verified_keeps_storage. }
  unfold prepare_transaction, mbind, M_bind, lift, modify. rewrite Hd.
  destruct (get_ledger_run key h) as [r Hr]. rewrite Hr in Hl |- *. cbn in Hl. subst r.
  by rewrite (get_verified_hit l tx c _ _ vt).
Qed.

Lemma guaranteed_apply_outcome key b c rv skip h h1 :
  validate_guaranteed_execution key b c rv h = (Ok tt, h1) →
  match (apply_transaction W key b c skip rv h1).1 with
  | Ok _ => True
  | Err e => host_fault e = true
  | Panic => False
  end.
Proof.
  intros (tx & l & vt & Hd & Hl & Hk & Hdry & Hst)%guaranteed_ok_inv.
  rewrite (apply_hit_outcome key b c skip rv h1 tx l vt);
    [|done|by rewrite (get_ledger_storage key h h1)|done].
  pose proof (finish_errors l tx c skip vt
    (set_ordering (set_network_id (network_id (state l))) h1)) as Hf.
  rewrite Hdry in Hf. destruct (finish_transaction _ _ _ _ _ _ _).1; [done|naive_solver|done].
Qed.

(** A transaction that passes the check before its dispatch is not refused by
    the ledger when it is then applied to the same state in the same block
    context: applying it succeeds, or fails for the host's own reasons (the cost
    cannot be computed, the integrity check of the UTXOs, a value that does not
    serialize); it is neither malformed nor invalid. *)
Theorem guaranteed_execution_then_apply key b c rv skip h h1 :
  validate_guaranteed_execution key b c rv h = (Ok tt, h1) →
  match (apply_transaction W key b c skip rv h1).1 with
  | Ok _ => True
  | Err e => host_fault e = true
  | Panic => False
  end.
Proof. apply guaranteed_apply_outcome. Qed.

(** The key of the strict cache has no block time, but the verdict it stores
    may depend on one: a transaction that was verified in the context [c1] is not
    reported malformed in the context [c2] by a host that has the entry, while a
    host without it, on the same ledgers, refuses it as malformed. *)
Theorem strict_cache_ignores_block_time key b c1 c2 rv skip h h1 h0 e :
  validate_guaranteed_execution key b c1 rv h = (Ok tt, h1) →
  storage h0 = storage h → STRICT_TX_VALIDATION_CACHE h0 = ∅ →
  (∀ tx l, tagged_deserialize b = Ok tx → (get_ledger key h).1 = Ok l →
     verify_fresh l tx c2 = Err (Api_Transaction (Tx_Malformed e))) →
  (apply_transaction W key b c2 skip rv h0).1 = Err (Api_Transaction (Tx_Malformed e)) ∧
  ∀ e', (apply_transaction W key b c2 skip rv h1).1 ≠ Err (Api_Transaction (Tx_Malformed e')).
Proof.
  intros (tx & l & vt & Hd & Hl & Hk & Hdry & Hst)%guaranteed_ok_inv Hst0 Hempty Hbad. split.
  - unfold apply_transaction.
    destruct (apply_with_outcome get_verified_transaction key b c2 skip rv h0) as [-> _].
    { intros; apply get_verified_keeps_storage. }
    unfold prepare_transaction, mbind, M_bind, lift, modify. rewrite Hd.
    destruct (get_ledger_run key h0) as [r Hr].
    pose proof (get_ledger_storage key h h0 Hst0) as Hl0. rewrite Hr, Hl in Hl0. cbn in Hl0. subst r.
    rewrite Hr. set (h' := set_ordering _ h0).
    pose proof (get_verified_miss l tx c2 (tx_validation_cache_key rv b) h') as Hmiss.
    rewrite (Hbad tx l Hd Hl) in Hmiss.
    destruct (get_verified_transaction _ _ _ _ h') as [r1 h2]. cbn in Hmiss.
    rewrite Hmiss; [done|]. cbn. by rewrite Hempty, lookup_empty.
  - intros e'. rewrite (apply_hit_outcome key b c2 skip rv h1 tx l vt);
      [|done|by rewrite (get_ledger_storage key h h1)|done].
    pose proof (finish_errors l tx c2 skip vt
      (set_ordering (set_network_id (network_id (state l))) h1)) as Hf.
    destruct (finish_transaction _ _ _ _ _ _ _).1; [done| |done].
    intros [= ->]. destruct Hf as [Hf|Hf]; [done|]. by apply dry_run_not_malformed in Hf.
Qed.

(** ** What applying a transaction does *)

Lemma reorder_subset us expected i : i ∈ reorder us expected → i ∈ us.
Proof.
  unfold reorder. case_match; [done|].
  pose proof (reorder_loop_spec expected us []) as Hloop.
  destruct (reorder_loop expected us []) as [rest [r|]].
  - destruct Hloop as (taken & -> & _ & Hp). cbn. intros Hi. rewrite <-Hp. set_solver.
  - destruct Hloop as (taken & key & more & _ & Hp & _). intros Hi. rewrite <-Hp. set_solver.
Qed.

Lemma reorder_utxos_subset t u ls h ls' h' :
  reorder_utxos W t u ls h = (Ok ls', h') →
  (∀ i, i ∈ ls'.1 → i ∈ ls.1) ∧ (∀ i, i ∈ ls'.2 → i ∈ ls.2).
Proof.
  unfold reorder_utxos. destruct (get_override _ _ _) as [[o|] s]; intros [= <- _]; [|done].
  unfold UtxoOrdering.apply. cbn. split; intros i; case_bool_decide; eauto using reorder_subset.
Qed.

Lemma add_operations_keeps ops : ∀ ev ev', add_operations ev ops = Ok ev' →
  state_root ev' = state_root ev ∧ applied_tx_hash ev' = applied_tx_hash ev ∧
  all_applied ev' = all_applied ev ∧
  unshielded_utxos_created ev' = unshielded_utxos_created ev ∧
  unshielded_utxos_spent ev' = unshielded_utxos_spent ev.
Proof.
  induction ops as [|op ops IH]; intros ev ev'; cbn; [by intros [= <-]|].
  destruct op; cbn; unfold tagged_serialize;
    try (destruct (midnight_tagged_serialize address); cbn; [|done]); intros H'; apply IH in H'; done.
Qed.

(** A result of the last part, explained. *)
Lemma finish_ok_inv l tx c skip vt h l' ev h' :
  finish_transaction W l tx c skip vt h = (Ok (l', ev), h') →
  ∃ cost res, tx_cost tx (parameters (state l)) = Some cost ∧
    ledger_apply (state l) vt (state l, c) = (state l', res) ∧
    block_fullness l' = cost_add cost (block_fullness l) ∧
    (∀ reason, res ≠ Failure reason) ∧ (all_applied ev = true ↔ res = Success) ∧
    midnight_tagged_serialize (as_typed_key l') = Some (state_root ev) ∧
    applied_tx_hash ev = transaction_hash tx ∧
    (∀ i, i ∈ unshielded_utxos_created ev → utxo_of_info i ∈ utxos (state l')) ∧
    (∀ i, i ∈ unshielded_utxos_spent ev → utxo_of_info i ∉ utxos (state l')).
Proof.
  unfold finish_transaction. intros (ctx & h1 & Hctx & Hrun)%M_bind_ok.
  unfold lift, get_transaction_context, block_context_try_from in Hctx.
  case_bool_decide; [|done]. cbn in Hctx. simplify_eq.
  apply M_bind_ok in Hrun as (r & h2 & Happ & Hrun). unfold lift in Happ.
  apply (f_equal fst) in Happ as Happ1. apply (f_equal snd) in Happ. cbn in Happ, Happ1. subst h2.
  apply M_bind_ok in Hrun as (ls & h3 & Hchk & Hrun). unfold lift in Hchk.
  apply (f_equal fst) in Hchk as Hchk1. apply (f_equal snd) in Hchk. cbn in Hchk, Hchk1. subst h3.
  apply M_bind_ok in Hrun as (ls' & h4 & Hre & Hrun).
  apply M_bind_ok in Hrun as (root & h5 & Hroot & Hrun). unfold lift, tagged_serialize in Hroot.
  destruct (midnight_tagged_serialize (as_typed_key r.1)) as [bs|] eqn:Hbs; [|done].
  cbn in Hroot. injection Hroot as <- <-.
  apply M_bind_ok in Hrun as (ev0 & h6 & Hops & Hrun). unfold lift in Hops.
  injection Hrun as Hr1 Hr2 Hr3. injection Hops as Hops1 Hops2. subst.
  apply add_operations_keeps in Hops1 as (Hev1 & Hev2 & Hev3 & Hev4 & Hev5). cbn in *.
  apply reorder_utxos_subset in Hre as [Hs1 Hs2].
  pose proof (integrity_check_spec (reported_utxos tx r.2).1
    (Z.of_nat (size (utxos (state l)))) (utxos (state r.1))) as [Hres Hiff].
  rewrite Hchk1 in Hres, Hiff. destruct Hiff as [[Hin [Hout _]] _]; [done|].
  rewrite !elem_of_cons, elem_of_nil in Hres. destruct Hres as [[= ->]|[[=]|[]]].
  unfold apply_verified_transaction in Happ1.
  destruct (tx_cost tx _) as [cost|] eqn:Hcost; [|done]. cbn in Happ1.
  destruct (ledger_apply (state l) vt (state l, c)) as [st res] eqn:Hla.
  exists cost, res. rewrite Hev1, Hev2, Hev3, Hev4, Hev5.
  destruct res; simplify_eq/=; split_and!; try done; eauto.
Qed.

Lemma apply_effects key b c skip rv h :
  match apply_transaction W key b c skip rv h with
  | (Ok ev, h') => ∃ (tx : Transaction) l vt cost res l',
      tagged_deserialize b = Ok tx ∧ (get_ledger key h).1 = Ok l ∧
      (get_verified_transaction l tx c (tx_validation_cache_key rv b) h).1 = Ok vt ∧
      tx_cost tx (parameters (state l)) = Some cost ∧
      ledger_apply (state l) vt (state l, c) = (state l', res) ∧
      block_fullness l' = cost_add cost (block_fullness l) ∧
      storage h' = persist l' (storage h) ∧
      (∀ reason, res ≠ Failure reason) ∧ (all_applied ev = true ↔ res = Success) ∧
      midnight_tagged_serialize (as_typed_key l') = Some (state_root ev) ∧
      applied_tx_hash ev = transaction_hash tx ∧
      (∀ i, i ∈ unshielded_utxos_created ev → utxo_of_info i ∈ utxos (state l')) ∧
      (∀ i, i ∈ unshielded_utxos_spent ev → utxo_of_info i ∉ utxos (state l'))
  | (_, h') => storage h' = storage h
  end.
Proof.
  destruct (apply_with_outcome get_verified_transaction key b c skip rv h) as [Hout Hst].
  { intros; apply get_verified_keeps_storage. }
  unfold apply_transaction. destruct (apply_transaction_with _ _ _ _ _ _ _ _) as [r h'].
  cbn in Hout, Hst. subst r.
  destruct (prepare_transaction _ _ _ _ _ _ _ _) as [[[l' ev]|e|] h1] eqn:Hp; cbn in *; [|done..].
  unfold prepare_transaction in Hp. apply M_bind_ok in Hp as (tx & ? & Hd & Hp).
  unfold lift in Hd. injection Hd as Hd <-.
  apply M_bind_ok in Hp as (l & ? & Hl & Hp).
  assert ((get_ledger key h).1 = Ok l) as Hl1 by (by rewrite Hl).
  apply M_bind_ok in Hp as ([] & h2 & Hmod & Hp). apply M_bind_ok in Hp as (vt & ? & Hv & Hp).
  unfold modify in Hmod. injection Hmod as <-.
  destruct (get_ledger_run key h) as [? Hr]. rewrite Hr in Hl. injection Hl as -> <-.
  apply (f_equal fst) in Hv. rewrite (get_verified_outcome _ _ _ _ _ h) in Hv by done.
  apply finish_ok_inv in Hp as (cost & res & Hcost & Hla & Hfull & Hrest).
  exists tx, l, vt, cost, res, l'. by split_and!; try apply Hrest.
Qed.

(** C27: Applying a transaction either fails and leaves the stored ledgers as they
    were, or verifies the transaction and persists exactly the ledger that the
    library returns for the loaded one, with the cost of the transaction added to
    the fullness of the block.  The event then carries the key of that ledger and
    the transaction's hash, says whether every segment was applied, and reports
    as created only UTXOs that are in the new state and as spent only UTXOs that
    are not. *)
Theorem apply_transaction_effects key b c skip rv h :
  match apply_transaction W key b c skip rv h with
  | (Ok ev, h') => ∃ (tx : Transaction) l vt cost res l',
      tagged_deserialize b = Ok tx ∧ (get_ledger key h).1 = Ok l ∧
      (get_verified_transaction l tx c (tx_validation_cache_key rv b) h).1 = Ok vt ∧
      tx_cost tx (parameters (state l)) = Some cost ∧
      ledger_apply (state l) vt (state l, c) = (state l', res) ∧
      block_fullness l' = cost_add cost (block_fullness l) ∧
      storage h' = persist l' (storage h) ∧
      (∀ reason, res ≠ Failure reason) ∧ (all_applied ev = true ↔ res = Success) ∧
      midnight_tagged_serialize (as_typed_key l') = Some (state_root ev) ∧
      applied_tx_hash ev = transaction_hash tx ∧
      (∀ i, i ∈ unshielded_utxos_created ev → utxo_of_info i ∈ utxos (state l')) ∧
      (∀ i, i ∈ unshielded_utxos_spent ev → utxo_of_info i ∉ utxos (state l'))
  | (_, h') => storage h' = storage h
  end.
Proof. apply apply_effects. Qed.

(** ** Partial success *)

Lemma failed_segments_spec (segs : gmap Z (option TransactionInvalid)) s :
  (s, true) ∈ ((λ '(k, e), (k, bool_decide (is_Some e))) <$> btree_to_list Z.compare segs)
  ↔ ∃ e, segs !! s = Some (Some e).
Proof.
  rewrite list_elem_of_fmap. split.
  - intros ([k e] & Heq & Hin). apply elem_of_btree_to_list in Hin.
    injection Heq as -> He. symmetry in He. apply bool_decide_eq_true in He as [e' ->]. eauto.
  - intros [e He]. exists (s, Some e). split; [by rewrite bool_decide_true by eauto|].
    by apply elem_of_btree_to_list.
Qed.

(** On a partial success the UTXOs of exactly the failed segments are left out
    of the report, but the operations of every segment the library lists are,
    the succeeded ones included: the contract calls, deploys and maintenance
    updates of a segment that was applied do not appear in the event. *)
Theorem partial_success_omits_applied_operations tx segs :
  let '(us, failed_segments) := reported_utxos (Standard tx) (StagePartialSuccess segs) in
  (∀ s, outputs us !! s = match segs !! s with
                          | Some (Some _) => None
                          | _ => outputs (unshielded_utxos (Standard tx)) !! s end ∧
        inputs us !! s = match segs !! s with
                         | Some (Some _) => None
                         | _ => inputs (unshielded_utxos (Standard tx)) !! s end) ∧
  calls_and_deploys (Standard tx) failed_segments
    = (λ a, operation_of (ExtContractAction a.2)) <$> filter (λ a, segs !! a.1 = None) (actions tx).
Proof.
  cbn [reported_utxos]. split.
  - intros s. pose proof (failed_segments_spec segs s) as Hs.
    destruct (remove_failed_segments_lookup ((λ '(k, e), (k, bool_decide (is_Some e))) <$>
         btree_to_list Z.compare segs) (unshielded_utxos (Standard tx)) s) as [-> ->].
    destruct (segs !! s) as [[e|]|] eqn:He.
    + rewrite bool_decide_true; [done|]. apply Hs. eauto.
    + rewrite bool_decide_false; [done|]. rewrite Hs. naive_solver.
    + rewrite bool_decide_false; [done|]. rewrite Hs. naive_solver.
  - unfold calls_and_deploys. cbn [default from_option id]. unfold id.
    induction (actions tx) as [|[s a] acts IH]; [done|].
    rewrite omap_cons_eq, filter_cons. cbn [fst].
    destruct (decide (segs !! s = None)) as [Hn|Hn].
    + rewrite bool_decide_false.
      2:{ rewrite elem_of_btree_keys. rewrite Hn. by intros []. }
      rewrite !fmap_cons, IH. done.
    + rewrite bool_decide_true; [done|]. rewrite elem_of_btree_keys.
      by apply not_eq_None_Some.
Qed.
End Histories.

(** ** State keys stay loadable *)

(** What the host relies on of the arena and of the format of its keys: a
    persisted ledger is found under its key, and persisting another one does not
    lose it; a serialized key reads back. *)
Class ArenaLaws `{!MnLedger} `{!Arena} : Prop := {
  get_persist l s : get_lazy (persist l s) (as_typed_key l) = Some l;
  get_persist_old l s k l' : get_lazy s k = Some l' → get_lazy (persist l s) k = Some l';
  key_roundtrip (k : ArenaKey) bs :
    midnight_tagged_serialize k = Some bs → midnight_tagged_deserialize bs = Some k;
}.

Section Loadable.
Context `{!MnLedger} `{!Arena} `{!ArenaLaws} `{!Twox} (W : Files).

(** Histories from genesis, with the state keys handed out so far. *)
Inductive host_run : list (list Z) → Host → Prop :=
| run_genesis h initial_state k h' :
    alloc_with_initial_state initial_state h = (Ok k, h') → host_run [k] h'
| run_apply keys h key b c skip rv ev h' :
    host_run keys h → apply_transaction W key b c skip rv h = (Ok ev, h') →
    host_run (state_root ev :: keys) h'
| run_system keys h key b c ev h' :
    host_run keys h → apply_system_transaction key b c h = (Ok ev, h') →
    host_run (sys_state_root ev :: keys) h'
| run_post_block keys h key c k h' :
    host_run keys h → post_block_update key c h = (Ok k, h') → host_run (k :: keys) h'
| run_any keys h call : host_run keys h → host_run keys (run_call W call h)
| run_evict keys h h' : host_run keys h → evicts h h' → host_run keys h'.

Definition storage_grows (h h' : Host) : Prop :=
  ∀ k l, get_lazy (storage h) k = Some l → get_lazy (storage h') k = Some l.

Lemma storage_grows_persist h h' l :
  storage h' = persist l (storage h) ∨ storage h' = storage h → storage_grows h h'.
Proof. intros [Hs|Hs] k l' Hk; rewrite Hs; [by apply get_persist_old|done]. Qed.

Lemma get_ledger_loads key h l :
  (get_ledger key h).1 = Ok l ↔
    ∃ k, midnight_tagged_deserialize key = Some k ∧ get_lazy (storage h) k = Some l.
Proof.
  unfold get_ledger, tagged_deserialize, ok_or. mrun.
  destruct (midnight_tagged_deserialize key) as [k|]; [|naive_solver].
  destruct (get_lazy (storage h) k) as [l0|] eqn:Hg; naive_solver.
Qed.

Lemma get_ledger_grows key h h' l :
  storage_grows h h' → (get_ledger key h).1 = Ok l → (get_ledger key h').1 = Ok l.
Proof. intros Hg. rewrite !get_ledger_loads. intros (k & Hk & Hl). exists k. auto. Qed.

Lemma persisted_loads l h h' bs :
  storage h' = persist l (storage h) → midnight_tagged_serialize (as_typed_key l) = Some bs →
  (get_ledger bs h').1 = Ok l.
Proof.
  intros Hs Hbs. apply get_ledger_loads. exists (as_typed_key l).
  split; [by apply key_roundtrip|]. rewrite Hs. apply get_persist.
Qed.

Lemma system_storage key b c h r h' :
  apply_system_transaction key b c h = (r, h') →
  match r with
  | Ok ev => ∃ (tx : SystemTx) l l', tagged_deserialize b = Ok tx ∧ (get_ledger key h).1 = Ok l ∧
      ledger_apply_system l tx (tblock c) = Ok l' ∧ storage h' = persist l' (storage h) ∧
      midnight_tagged_serialize (as_typed_key l') = Some (sys_state_root ev) ∧
      sys_tx_hash ev = system_transaction_hash tx
  | _ => storage h' = storage h
  end.
Proof.
  unfold apply_system_transaction. unfold mbind, M_bind, lift, modify, mret, M_ret.
  destruct (tagged_deserialize b) as [tx|e|] eqn:Hd; [|by intros; simplify_eq..].
  destruct (get_ledger_run key h) as [r0 Hr]. rewrite Hr.
  destruct r0 as [l|e|]; [|by intros; simplify_eq..].
  destruct (ledger_apply_system l tx (tblock c)) as [l'|e|] eqn:Hl; [|by intros; simplify_eq..].
  unfold tagged_serialize. destruct (midnight_tagged_serialize (as_typed_key l')) as [bs|] eqn:Hbs;
    cbn; intros; simplify_eq/=; [|done].
  by exists tx, l, l'.
Qed.

Lemma post_block_storage key c h r h' :
  post_block_update key c h = (r, h') →
  match r with
  | Ok root => ∃ l l', (get_ledger key h).1 = Ok l ∧ ledger_post_block l c = Ok l' ∧
      storage h' = persist l' (storage h) ∧
      midnight_tagged_serialize (as_typed_key l') = Some root
  | _ => storage h' = storage h
  end.
Proof.
  unfold post_block_update. unfold mbind, M_bind, lift, modify, mret, M_ret.
  destruct (get_ledger_run key h) as [r0 Hr]. rewrite Hr.
  destruct r0 as [l|e|]; [|by intros; simplify_eq..].
  destruct (ledger_post_block l c) as [l'|e|] eqn:Hl; cbn; [|by intros; simplify_eq..].
  unfold tagged_serialize. destruct (midnight_tagged_serialize (as_typed_key l')) as [bs|] eqn:Hbs;
    cbn; intros; simplify_eq/=; [|done].
  by exists l, l'.
Qed.

Lemma run_call_grows call h : storage_grows h (run_call W call h).
Proof.
  destruct call as [key b c skip rv|key b c|key c|key b c rv w d|key b c rv]; cbn [run_call].
  - pose proof (apply_effects W key b c skip rv h) as He.
    destruct (apply_transaction W key b c skip rv h) as [[ev|e|] h']; cbn.
    + destruct He as (tx & l & vt & cost & res & l' & ?). apply (storage_grows_persist _ _ l'). tauto.
    + intros k l. by rewrite He.
    + intros k l. by rewrite He.
  - destruct (apply_system_transaction key b c h) as [r h'] eqn:Hr. apply system_storage in Hr.
    destruct r as [ev|e|]; cbn; [|intros k l; by rewrite Hr..].
    destruct Hr as (tx & l & l' & ?). apply (storage_grows_persist _ _ l'). tauto.
  - destruct (post_block_update key c h) as [r h'] eqn:Hr. apply post_block_storage in Hr.
    destruct r as [ev|e|]; cbn; [|intros k l; by rewrite Hr..].
    destruct Hr as (l & l' & ?). apply (storage_grows_persist _ _ l'). tauto.
  - intros k l. by rewrite (validate_keeps_storage key b c rv w d h).
  - intros k l. by rewrite (validate_guaranteed_keeps_storage key b c rv h).
Qed.

Lemma keys_grow (keys : list (list Z)) h h' :
  storage_grows h h' → (∀ k, k ∈ keys → ∃ l, (get_ledger k h).1 = Ok l) →
  ∀ k, k ∈ keys → ∃ l, (get_ledger k h').1 = Ok l.
Proof. intros Hg Hk k Hin. destruct (Hk k Hin) as [l Hl]. exists l. by eapply get_ledger_grows. Qed.

(** Every state key that the host has handed out (at genesis, for an applied
    transaction or system transaction, for a finished block) can still be loaded
    at any later moment, whatever calls, failures and cache evictions lie in
    between. *)
Theorem returned_state_keys_load keys h :
  host_run keys h → ∀ k, k ∈ keys → ∃ l, (get_ledger k h).1 = Ok l.
Proof.
  induction 1 as [h s k h' Hrun|keys h key b c skip rv ev h' Hh IH Hrun
    |keys h key b c ev h' Hh IH Hrun|keys h key c k h' Hh IH Hrun
    |keys h call Hh IH|keys h h' Hh IH (_ & _ & Hst & _)].
  - intros k' ->%list_elem_of_singleton. unfold alloc_with_initial_state in Hrun. mrun.
    destruct (midnight_tagged_deserialize s) as [st|]; [|done]. mrun.
    destruct (midnight_tagged_serialize (as_typed_key (ledger_new st))) as [bs|] eqn:Hbs; [|done]. simplify_eq/=.
    exists (ledger_new st). by apply (persisted_loads _ h).
  - pose proof (apply_effects W key b c skip rv h) as He. rewrite Hrun in He.
    destruct He as (tx & l & vt & cost & res & l' & He).
    intros k [->|Hk]%elem_of_cons; [exists l'; apply (persisted_loads _ h); tauto|].
    revert k Hk. eapply keys_grow; [|exact IH]. apply (storage_grows_persist _ _ l'). tauto.
  - apply system_storage in Hrun as (tx & l & l' & He).
    intros k [->|Hk]%elem_of_cons; [exists l'; apply (persisted_loads _ h); tauto|].
    revert k Hk. eapply keys_grow; [|exact IH]. apply (storage_grows_persist _ _ l'). tauto.
  - apply post_block_storage in Hrun as (l & l' & He).
    intros k' [->|Hk]%elem_of_cons; [exists l'; apply (persisted_loads _ h); tauto|].
    revert k' Hk. eapply keys_grow; [|exact IH]. apply (storage_grows_persist _ _ l'). tauto.
  - eapply keys_grow; [apply run_call_grows|exact IH].
  - eapply keys_grow; [|exact IH]. intros k l. by rewrite Hst.
Qed.
End Loadable.

(** ** Costs and the fullness of a block *)

(** The order on fixed-point numbers is total; a cost within its limits
    normalizes, as the comment on [clamp_and_normalize] has it; atomic units are
    unsigned and grow with the number. *)
Class CostLaws `{!MnLedger} : Prop := {
  fp_total :: TotalCmp fp_cmp;
  normalize_within c l :
    read_time c ≤ read_time l → compute_time c ≤ compute_time l → block_usage c ≤ block_usage l →
    bytes_written c ≤ bytes_written l → bytes_churned c ≤ bytes_churned l →
    is_Some (normalize c l);
  atomic_nonneg a w : 0 ≤ into_atomic_units a w;
  atomic_mono a b w : fp_cmp a b ≠ Gt → into_atomic_units a w ≤ into_atomic_units b w;
}.

Section CostTheorems.
Context `{!MnLedger} `{!CostLaws}.

Definition fp_le (a b : FixedPoint) : Prop := fp_cmp a b ≠ Gt.

Lemma fp_le_refl a : fp_le a a.
Proof. unfold fp_le. by rewrite (cmp_refl fp_cmp). Qed.

Lemma fp_le_trans a b c : fp_le a b → fp_le b c → fp_le a c.
Proof. apply (cmp_le_trans fp_cmp). Qed.

Lemma fp_max_le a b c : fp_le (fp_max a b) c ↔ fp_le a c ∧ fp_le b c.
Proof.
  unfold fp_max. destruct (fp_cmp a b) eqn:Hab.
  - split; [|by intros [_ ?]]. intros Hb. split; [|done].
    eapply fp_le_trans; [|exact Hb]. unfold fp_le. by rewrite Hab.
  - split; [|by intros [_ ?]]. intros Hb. split; [|done].
    eapply fp_le_trans; [|exact Hb]. unfold fp_le. by rewrite Hab.
  - split; [|by intros [? _]]. intros Ha. split; [done|].
    eapply fp_le_trans; [|exact Ha]. unfold fp_le. by rewrite (cmp_flip fp_cmp a b), Hab.
Qed.

Lemma fp_max_mono a b a' b' : fp_le a a' → fp_le b b' → fp_le (fp_max a b) (fp_max a' b').
Proof.
  intros Ha Hb. destruct (proj1 (fp_max_le a' b' _) (fp_le_refl _)) as [H1' H2'].
  apply fp_max_le. split; by eapply fp_le_trans.
Qed.

Definition dimensions (n : NormalizedCost FixedPoint) : list FixedPoint :=
  [n_read_time n; n_compute_time n; n_block_usage n; n_bytes_written n; n_bytes_churned n].

(** The fullness of a block is the least upper bound of its five dimensions,
    and the weight of a transaction is within [0 .. max_weight] and does not
    decrease when a dimension grows. *)
Theorem cost_takes_most_congested_dimension n n' w :
  0 ≤ w ≤ umax 64 →
  (∀ x, fp_le (compute_overall_fullness n) x ↔ Forall (λ d, fp_le d x) (dimensions n)) ∧
  0 ≤ scale_normalized_cost n w ≤ w ∧
  (Forall2 fp_le (dimensions n) (dimensions n') →
     scale_normalized_cost n w ≤ scale_normalized_cost n' w).
Proof.
  intros Hw.
  assert (∀ m, scale_normalized_cost m w = Z.min (into_atomic_units
    (fp_max (fp_max (fp_max (fp_max (n_read_time m) (n_compute_time m)) (n_block_usage m))
       (n_bytes_written m)) (n_bytes_churned m)) w) w) as Hscale.
  { intros m. apply wrap_small. unfold in_range.
    match goal with |- context [into_atomic_units ?a w] => pose proof (atomic_nonneg a w) end. lia. }
  split_and!.
  - intros x. unfold compute_overall_fullness, dimensions.
    rewrite !fp_max_le, !Forall_cons, Forall_nil. tauto.
  - rewrite Hscale.
    match goal with |- context [into_atomic_units ?a w] => pose proof (atomic_nonneg a w) end. lia.
  - rewrite Hscale. lia.
  - unfold dimensions. rewrite !Forall2_cons. intros (H1' & H2' & H3' & H4' & H5' & _).
    rewrite !Hscale. apply Z.min_le_compat_r, atomic_mono.
    match goal with |- fp_cmp ?a ?b ≠ Gt => change (fp_le a b) end.
    by repeat apply fp_max_mono.
Qed.

Lemma clamp_normalizes cost limits : ∃ n, clamp_and_normalize cost limits = Ok n.
Proof.
  unfold clamp_and_normalize.
  destruct (normalize_within (clamp cost limits) limits) as [n ->]; cbn; [lia..|eauto].
Qed.

(** Finishing a block never panics, however full the block: costs beyond the
    limits are clamped before they are normalized.  It resets the fullness to
    zero, on the state the library returns for the normalized fullness. *)
Theorem post_block_clamps_and_resets l c :
  ∃ n, normalize (clamp (block_fullness l) (block_limits (parameters (state l))))
         (block_limits (parameters (state l))) = Some n ∧
  ledger_post_block l c
  = match ledger_post_block_update (state l) (tblock c) n (compute_overall_fullness n) with
    | Some st => Ok (ledger_new st)
    | None => Err Api_BlockLimitExceededError
    end.
Proof.
  unfold ledger_post_block.
  destruct (clamp_normalizes (block_fullness l) (block_limits (parameters (state l)))) as [n Hn].
  exists n. rewrite Hn. unfold clamp_and_normalize in Hn.
  destruct (normalize _ _) as [n'|]; [|done]. injection Hn as ->. split; [done|]. cbn.
  by destruct (ledger_post_block_update _ _ _ _).
Qed.
End CostTheorems.

(** ** System transactions of the observation pallet *)

(** The formats read back what they wrote. *)
Class CodecLaws `{!MnLedger} : Prop := {
  event_roundtrip (e : CNightGeneratesDustEvent DustPublicKey) bs :
    midnight_tagged_serialize e = Some bs → midnight_tagged_deserialize bs = Some e;
  system_tx_roundtrip (tx : SystemTx) bs :
    midnight_tagged_serialize tx = Some bs → midnight_tagged_deserialize bs = Some tx;
}.

Section DustEvents.
Context `{!MnLedger} `{!CodecLaws}.

(** The arguments of [construct_cnight_generates_dust_event]. *)
Record DustArgs : Type :=
  { arg_value : Z; arg_owner : list Z; arg_time : Z; arg_action : Z; arg_nonce : list Z }.
Definition construct_event (a : DustArgs) : outcome LedgerApiError (list Z) :=
  construct_cnight_generates_dust_event (arg_value a) (arg_owner a) (arg_time a) (arg_action a)
    (arg_nonce a).

Definition event_matches (a : DustArgs) (e : CNightGeneratesDustEvent DustPublicKey) : Prop :=
  event_value _ e = arg_value a ∧ midnight_deserialize (arg_owner a) = Some (event_owner _ e) ∧
  event_time _ e = arg_time a ∧
  arg_action a = match event_action _ e with Create => 0 | Destroy => 1 end ∧
  event_nonce _ e = arg_nonce a.

Lemma construct_event_ok a bs :
  construct_event a = Ok bs →
  ∃ e : CNightGeneratesDustEvent DustPublicKey, event_matches a e ∧ tagged_deserialize bs = Ok e.
Proof.
  unfold construct_event, construct_cnight_generates_dust_event, deserialize, mbind, outcome_bind,
    ok_or.
  destruct (midnight_deserialize (arg_owner a)) as [o|] eqn:Ho; [|done].
  assert (∀ e, event_matches a e →
    tagged_serialize e = Ok bs → ∃ e : CNightGeneratesDustEvent DustPublicKey,
      event_matches a e ∧ tagged_deserialize bs = Ok e) as Hser.
  { intros e Hm Hs. exists e. split; [done|]. unfold tagged_serialize, ok_or in Hs.
    destruct (midnight_tagged_serialize e) as [bs'|] eqn:Hbs; [|done]. simplify_eq.
    unfold tagged_deserialize, ok_or. by rewrite (event_roundtrip e bs). }
  do 2 (case_bool_decide; [by apply Hser; unfold event_matches; cbn|]). done.
Qed.

(** Events built one by one and then put into a system transaction come out of
    it unchanged and in order, creations as creations and destructions as
    destructions, and governance cannot submit such a transaction: it is not one
    of the allowed system transactions. *)
Theorem dust_events_survive_encoding args event_bytes tx_bytes :
  try_collect construct_event args = Ok event_bytes →
  construct_cnight_generates_dust_system_tx event_bytes = Ok tx_bytes →
  ∃ es, tagged_deserialize (T := SystemTx) tx_bytes = Ok (CNightGeneratesDustUpdate es) ∧
    Forall2 event_matches args es ∧ is_governance_allowed_system_tx tx_bytes = false.
Proof.
  intros Hargs%try_collect_ok. unfold construct_cnight_generates_dust_system_tx, mbind, outcome_bind.
  destruct (try_collect _ event_bytes) as [es|e|] eqn:Hes; [|done..].
  apply try_collect_ok in Hes. intros Hs. exists es.
  assert (tagged_deserialize (T := SystemTx) tx_bytes = Ok (CNightGeneratesDustUpdate es)) as Hd.
  { unfold tagged_serialize, ok_or in Hs.
    destruct (midnight_tagged_serialize _) as [bs|] eqn:Hbs in Hs; [|done]. simplify_eq.
    unfold tagged_deserialize, ok_or. by rewrite (system_tx_roundtrip _ _ Hbs). }
  split_and!; [done| |unfold is_governance_allowed_system_tx; by rewrite Hd].
  clear Hs Hd. revert es Hes. induction Hargs as [|a bs args bss Ha Hargs IH]; intros es Hes.
  - inversion Hes. constructor.
  - inversion Hes as [|? e ? es' He Hes']; subst. constructor; [|by apply IH].
    apply construct_event_ok in Ha as (e' & Hm & He'). rewrite He in He'. by simplify_eq.
Qed.
End DustEvents.

(** ** Soundness of the caches *)

Section CacheInvariant.
Context `{!MnLedger} `{!Arena} `{!Twox} (W : Files).

(** In every reachable host the soft cache holds acceptances only, each the
    result of a pool validation of that transaction, and every entry of the
    strict cache is a verification that an earlier call made of that transaction
    against a state with that hash.  A check before dispatch that finds the
    transaction and the ledger removes the soft entry, so that the pool validates
    the transaction anew afterwards. *)
Theorem validation_caches_sound log h key b c rv :
  host_reach W log h →
  caches_sound log h ∧
  (is_ok (tagged_deserialize (T := Transaction) b) = true → is_ok (get_ledger key h).1 = true →
   SOFT_TX_VALIDATION_CACHE (validate_guaranteed_execution key b c rv h).2
     !! tx_validation_cache_key rv b = None).
Proof.
  intros Hreach. apply host_reach_sound in Hreach as Hsound. split; [done|].
  unfold validate_guaranteed_execution, mbind, M_bind, lift, mret, M_ret.
  destruct (tagged_deserialize b) as [tx|e|] eqn:Hd; [|done..]. intros _.
  destruct (get_ledger_run key h) as [r Hr]. rewrite Hr. destruct r as [l|e|]; [|done..]. intros _.
  destruct (do_validate_guaranteed_execution l tx c _ h) as [r1 h1] eqn:Hv.
  apply (do_guaranteed_sound (log_call (CallValidateGuaranteed key b c rv) h :: log) l tx b c rv) in Hv
    as [_ Hnone]; [by destruct r1| |done|].
  - eexists; split; [left|]. unfold log_call, loaded. cbn. by rewrite Hr.
  - apply (caches_sound_weaken log); [by apply list_subseteq_cons|done].
Qed.
End CacheInvariant.

(** ** A small ledger

    A state is a list of numbers, the UTXOs; a transaction creates one UTXO in a
    segment, is well formed up to a time, and may fail in part. *)

Module Concrete.
Record CTx : Type := {
  c_segments : list Z;
  c_intents : list (Z * (list UtxoOutput * list UtxoOutput));
  c_actions : list (Z * ContractAction ContractAddress);
  c_expiry : Z;
  c_creates : list Utxo;
  c_result : TransactionResult;
}.

#[export] Instance c_transactions : MnTransactions := {|
  UtxoSpend := Utxo; utxo_from_spend := id;
  Intent := list UtxoOutput * list UtxoOutput;
  intent_hash_at := λ _ s, [s];
  guaranteed_outputs := fst; guaranteed_inputs := λ _, [];
  fallible_outputs := snd; fallible_inputs := λ _, [];
  ContractDeploy := ContractAddress; deploy_address := id;
  Offer := unit; StandardTransaction := CTx;
  segments := c_segments; intents := c_intents; actions := c_actions;
  guaranteed_coins := λ _, None; fallible_coins := λ _, [];
  guaranteed_counts := λ _, (0, 0, 0)%nat; fallible_counts := λ _, (0, 0, 0)%nat;
  ClaimRewardsTransaction := Z; claim_value := id;
|}.

(** A transaction with one contract call in segment 1 and one output in segment 0;
    a second one whose segment 1 succeeds and whose segment 2 fails. *)
Definition addr (n : Z) : ContractAddress := {| contract_address := [n] |}.
Definition out (v : Z) : UtxoOutput := {| out_value := v; out_owner := [7]; out_type := [8] |}.
Definition utxo_at (s v n : Z) : Utxo :=
  {| value := v; owner := [7]; type_ := [8]; utxo_intent_hash := [s]; utxo_output_no := n |}.
Definition tx_full : CTx := {|
  c_segments := [0; 1]; c_intents := [(1, ([out 5], []))];
  c_actions := [(1, ActionCall (addr 1) [])]; c_expiry := 100;
  c_creates := [utxo_at 0 5 0]; c_result := Success |}.
Definition tx_partial : CTx := {|
  c_segments := [0; 1; 2]; c_intents := [(1, ([], [out 6])); (2, ([], [out 7]))];
  c_actions := [(1, ActionCall (addr 1) []); (2, ActionDeploy (addr 2))]; c_expiry := 100;
  c_creates := [utxo_at 1 6 0];
  c_result := PartialSuccess {[1 := None; 2 := Some Ti_Zswap]} |}.
Definition txs : list CTx := [tx_full; tx_partial].

Definition zip_cost (f : Z → Z → Z) (a b : SyntheticCost) : SyntheticCost :=
  {| read_time := f (read_time a) (read_time b); compute_time := f (compute_time a) (compute_time b);
     block_usage := f (block_usage a) (block_usage b);
     bytes_written := f (bytes_written a) (bytes_written b);
     bytes_churned := f (bytes_churned a) (bytes_churned b) |}.
Definition within (a b : SyntheticCost) : bool :=
  (read_time a <=? read_time b) && (compute_time a <=? compute_time b)
  && (block_usage a <=? block_usage b) && (bytes_written a <=? bytes_written b)
  && (bytes_churned a <=? bytes_churned b).
Definition unit_cost : SyntheticCost :=
  {| read_time := 1; compute_time := 1; block_usage := 1; bytes_written := 1; bytes_churned := 1 |}.
Definition limits : SyntheticCost := zip_cost (λ _ _, 100) unit_cost unit_cost.

#[export] Instance event_eq_dec : EqDecision (CNightGeneratesDustEvent Z).
Proof. solve_decision. Defined.
#[export] Instance event_countable : Countable (CNightGeneratesDustEvent Z).
Proof.
  apply (inj_countable'
    (λ e, (event_value _ e, event_owner _ e, event_time _ e,
           match event_action _ e with Create => true | Destroy => false end, event_nonce _ e))
    (λ '(v, o, t, a, n), {| event_value := v; event_owner := o; event_time := t;
       event_action := if a : bool then Create else Destroy; event_nonce := n |})).
  by intros [? ? ? [] ?].
Defined.

(** Numbers stand for encodings of a countable type. *)
Definition count_codec {A} `{Countable A} : TaggedCodec A := {|
  midnight_tagged_serialize := λ a, Some [Zpos (encode a)];
  midnight_tagged_deserialize := λ bs, match bs with [Zpos p] => decode p | _ => None end;
|}.
Definition no_codec {A} : TaggedCodec A :=
  {| midnight_tagged_serialize := λ _, None; midnight_tagged_deserialize := λ _, None |}.
Definition no_plain_codec {A} : PlainCodec A :=
  {| midnight_serialize := λ _, None; midnight_deserialize := λ _, None |}.

(** Of the system transactions, updates from Cardano and parameter changes. *)
Definition c_system_codec : TaggedCodec (SystemTransaction Z (CNightGeneratesDustEvent Z)) := {|
  midnight_tagged_serialize := λ tx,
    match tx with
    | CNightGeneratesDustUpdate es => Some [Zpos (encode (inl es : _ + Z))]
    | OverwriteParameters p =>
        Some [Zpos (encode (inr p : list (CNightGeneratesDustEvent Z) + Z))]
    | _ => None
    end;
  midnight_tagged_deserialize := λ bs,
    match bs with
    | [Zpos p] => (λ s, match s with
                        | inl es => CNightGeneratesDustUpdate es
                        | inr p => OverwriteParameters p
                        end) <$> (decode p : option (list (CNightGeneratesDustEvent Z) + Z))
    | _ => None
    end;
|}.

Definition apply_tx (s : list Utxo) (tx : Transaction) : list Utxo * TransactionResult :=
  match tx with
  | Standard tx => (s ++ c_creates tx, c_result tx)
  | ClaimRewards _ => (s, Failure Ti_InsufficientClaimable)
  end.

#[export] Instance c_ledger : MnLedger := {|
  mn_transactions := c_transactions;
  FixedPoint := Z; fp_cmp := Z.compare; into_atomic_units := λ a w, Z.max 0 (a * Z.max 0 w / 100);
  cost_add := zip_cost Z.add;
  normalize := λ c l, if within c l then Some {| n_read_time := read_time c;
    n_compute_time := compute_time c; n_block_usage := block_usage c;
    n_bytes_written := bytes_written c; n_bytes_churned := bytes_churned c |} else None;
  LedgerState := list Utxo; LedgerParameters := unit; ContractState := unit; CoinComs := unit;
  ZswapState := unit; MerkleTreeDigest := unit;
  state_hash := λ s, [Zpos (encode s)]; network_id := λ _, "undeployed"%string;
  utxos := list_to_set; parameters := λ _, tt; block_limits := λ _, limits;
  unclaimed_block_rewards := λ _, ∅; state_index := λ _ _, None;
  zswap_coin_coms := λ _, tt; zswap_filter := λ _ _, tt; zswap_state_of_coin_coms := λ _, tt;
  coin_coms_rehash_root := λ _, Some tt;
  TransactionIdentifier := unit; VerifiedTransaction := Transaction;
  transaction_hash := λ tx, match tx with Standard tx => [c_expiry tx] | ClaimRewards n => [n] end;
  identifiers := λ _, []; tx_cost := λ _ _, Some unit_cost;
  well_formed := λ tx _ t,
    match tx with
    | Standard tx' => if t <=? c_expiry tx' then inr tx else inl Mt_OutOfDustValidityWindow
    | ClaimRewards _ => inr tx
    end;
  ledger_apply := λ s vt _, apply_tx s vt;
  SystemPayload := Z; DustPublicKey := Z;
  system_transaction_hash := λ _, [0]; system_tx_cost := λ _ _, unit_cost;
  ledger_apply_system_tx := λ s _ _, inr s;
  ledger_post_block_update := λ s _ _ _, Some s;
  transaction_codec := {| midnight_tagged_serialize := λ _, None;
    midnight_tagged_deserialize := λ bs,
      match bs with [n] => Standard <$> txs !! Z.to_nat n | _ => None end |};
  system_transaction_codec := c_system_codec; event_codec := count_codec;
  ledger_state_codec := {| midnight_tagged_serialize := λ _, None;
    midnight_tagged_deserialize := λ bs, match bs with [] => Some [] | _ => None end |};
  contract_address_tagged_codec := {| midnight_tagged_serialize := λ a, Some (contract_address a);
    midnight_tagged_deserialize := λ bs, Some {| contract_address := bs |} |};
  contract_address_codec := no_plain_codec; contract_state_codec := no_codec;
  zswap_state_codec := no_codec; merkle_digest_codec := no_plain_codec;
  ledger_parameters_codec := no_codec; identifier_codec := no_codec;
  dust_public_key_codec := {| midnight_serialize := λ k, Some [k];
    midnight_deserialize := λ bs, match bs with [k] => Some k | _ => None end |};
|}.

(** Ledgers are their own keys. *)
Definition LedgerKey : Type := list Utxo * (Z * Z * Z * Z * Z).
Definition ledger_key (l : Ledger) : LedgerKey :=
  (state l, (read_time (block_fullness l), compute_time (block_fullness l),
    block_usage (block_fullness l), bytes_written (block_fullness l),
    bytes_churned (block_fullness l))).
Definition key_ledger (k : LedgerKey) : Ledger :=
  let '(s, (a, b, c, d, e)) := k in
  {| state := s : LedgerState; block_fullness := {| read_time := a; compute_time := b;
     block_usage := c; bytes_written := d; bytes_churned := e |} |}.

#[export] Instance c_arena : Arena := {|
  ArenaKey := LedgerKey; ArenaStore := gset LedgerKey;
  as_typed_key := ledger_key; state_typed_key := λ s, ledger_key (ledger_new s);
  get_lazy := λ st k, if bool_decide (k ∈ st) then Some (key_ledger k) else None;
  persist := λ l st, {[ledger_key l]} ∪ st;
  arena_key_tagged_codec := count_codec; arena_key_codec := no_plain_codec;
|}.

#[export] Instance c_twox : Twox := id.
Definition no_files : Files := {| read_to_string := λ _, None; from_json := λ _, None |}.

#[export] Instance c_arena_laws : ArenaLaws.
Proof.
  split.
  - intros l s. cbn. rewrite bool_decide_true by (apply elem_of_union_l, elem_of_singleton; done).
    by destruct l as [st []].
  - intros l s k l'. cbn. case_bool_decide as Hk; [|done]. intros [= <-].
    by rewrite bool_decide_true by (by apply elem_of_union_r).
  - intros k bs. cbn. intros [= <-]. apply decode_encode.
Qed.

#[export] Instance c_codec_laws : CodecLaws.
Proof.
  split.
  - intros e bs. cbn. intros [= <-]. apply decode_encode.
  - intros tx bs. cbn. destruct tx; intros [= <-]; rewrite decode_encode; done.
Qed.

#[export] Instance c_cost_laws : CostLaws.
Proof.
  split.
  - apply _.
  - intros c l ? ? ? ? ?. cbn. unfold within.
    rewrite !(proj2 (Z.leb_le _ _)) by done. cbn. eauto.
  - intros a w. cbn. lia.
  - intros a b w Hab. cbn in *. apply Z.max_le_compat_l, Z.div_le_mono; [lia|].
    apply Z.mul_le_mono_nonneg_r; [lia|]. destruct (Z.compare_spec a b); [lia|lia|done].
Qed.

Definition ctx (t : Z) : BlockContext :=
  {| tblock := t; tblock_err := 0; parent_block_hash := replicate 32 0; last_block_time := 0 |}.
Definition h_empty : Host := {| storage := ∅; STRICT_TX_VALIDATION_CACHE := ∅;
  SOFT_TX_VALIDATION_CACHE := ∅; ordering := {| NETWORK_ID := None; OVERRIDES := None |} |}.
Definition key0 : list Z := [Zpos (encode (ledger_key (ledger_new ([] : list Utxo))))].
Definition h0 : Host := (alloc_with_initial_state [] h_empty).2.
Definition apply_event (tx : Z) (t : Z) (h : Host) :=
  match (apply_transaction no_files key0 [tx] (ctx t) true 1 h).1 with
  | Ok ev => Some (all_applied ev, call_addresses ev, deploy_addresses ev,
                   unshielded_utxos_created ev)
  | _ => None
  end.

(** The call of the first transaction is reported.  The call of the second one,
    in a segment that succeeded, is not, though the UTXO of that segment is. *)
Lemma apply_examples :
  apply_event 0 50 h0 = Some (true, [[1]], [], [utxo_info_of_output (out 5) [0] 0]) ∧
  apply_event 1 50 h0 = Some (false, [], [], [utxo_info_of_output (out 6) [1] 0]) ∧
  apply_event 0 101 h0 = None.
Proof. vm_compute. auto. Qed.

Definition h1 : Host := (validate_guaranteed_execution key0 [0] (ctx 50) 1 h0).2.
Definition log1 : Log := [log_call (CallValidateGuaranteed key0 [0] (ctx 50) 1) h0].

(** Evaluating the result alone keeps the instances out of the computation. *)
Lemma run_eq {S E A} (m : M S E A) s r : (m s).1 = r → m s = (r, (m s).2).
Proof. destruct (m s); by intros <-. Qed.

Lemma h1_reach : host_reach no_files log1 h1.
Proof. apply (reach_call no_files [] h0 (CallValidateGuaranteed _ _ _ _)). by constructor. Qed.
End Concrete.

Section Witnesses.
Import Concrete.

Lemma guaranteed_execution_then_apply_witness :
  match (apply_transaction no_files key0 [0] (ctx 50) true 1 h1).1 with
  | Ok _ => True | Err e => host_fault e = true | Panic => False end.
Proof.
  apply (guaranteed_execution_then_apply no_files key0 [0] (ctx 50) 1 true h0 h1).
  apply run_eq. vm_compute; reflexivity.
Defined.

Lemma strict_cache_ignores_block_time_witness :
  (apply_transaction no_files key0 [0] (ctx 101) true 1 h0).1
    = Err (Api_Transaction (Tx_Malformed Malformed_OutOfDustValidityWindow)) ∧
  ∀ e', (apply_transaction no_files key0 [0] (ctx 101) true 1 h1).1
        ≠ Err (Api_Transaction (Tx_Malformed e')).
Proof.
  apply (strict_cache_ignores_block_time no_files key0 [0] (ctx 50) (ctx 101) 1 true h0 h1 h0).
  - apply run_eq. vm_compute; reflexivity.
  - reflexivity.
  - reflexivity.
  - intros tx l Hd Hl. cbn in Hd. injection Hd as <-. reflexivity.
Defined.

Lemma strict_cache_transparent_witness :
  (apply_transaction no_files key0 [0] (ctx 60) true 1 h1).1
    = (apply_transaction_uncached no_files key0 [0] (ctx 60) true 1 h1).1 ∧
  storage (apply_transaction no_files key0 [0] (ctx 60) true 1 h1).2
    = storage (apply_transaction_uncached no_files key0 [0] (ctx 60) true 1 h1).2.
Proof.
  apply (strict_cache_transparent no_files log1 h1 key0 [0] (ctx 60) true 1).
  - apply h1_reach.
  - intros st Hst. split.
    + intros x b' c' rv' st' ->%list_elem_of_singleton Hx Hh _. split; [cbn in Hx; by injection Hx as <- <- <- <-|].
      injection Hh as Hh. by apply (inj encode) in Hh.
    + intros x c' rv' tx ->%list_elem_of_singleton. cbn. intros [= <- <- <-] [= <-]. reflexivity.
Defined.

Lemma validation_caches_sound_witness :
  caches_sound log1 h1 ∧
  (is_ok (tagged_deserialize (T := Transaction) [0]) = true → is_ok (get_ledger key0 h1).1 = true →
   SOFT_TX_VALIDATION_CACHE (validate_guaranteed_execution key0 [0] (ctx 60) 1 h1).2
     !! tx_validation_cache_key 1 [0] = None).
Proof. apply (validation_caches_sound no_files log1 h1 key0 [0] (ctx 60) 1). apply h1_reach. Defined.

Lemma returned_state_keys_load_witness :
  ∃ l, (get_ledger key0 (run_call no_files (CallApply key0 [0] (ctx 50) true 1) h0)).1 = Ok l.
Proof.
  apply (returned_state_keys_load no_files [key0]
    (run_call no_files (CallApply key0 [0] (ctx 50) true 1) h0)); [|left].
  apply run_any, (run_genesis no_files h_empty [] key0). apply run_eq. vm_compute; reflexivity.
Defined.

Lemma cost_takes_most_congested_dimension_witness :
  let n := {| n_read_time := 10 : FixedPoint; n_compute_time := 20; n_block_usage := 90;
              n_bytes_written := 0; n_bytes_churned := 5 |} in
  (∀ x, fp_le (compute_overall_fullness n) x ↔ Forall (λ d, fp_le d x) (dimensions n)) ∧
  0 ≤ scale_normalized_cost n 1000 ≤ 1000 ∧
  (Forall2 fp_le (dimensions n) (dimensions n) →
     scale_normalized_cost n 1000 ≤ scale_normalized_cost n 1000).
Proof. intros n. apply (cost_takes_most_congested_dimension n n 1000). vm_compute. split; discriminate. Defined.

Lemma dust_events_survive_encoding_witness :
  let args := [{| arg_value := 5; arg_owner := [7]; arg_time := 1; arg_action := 0; arg_nonce := [1] |};
               {| arg_value := 5; arg_owner := [7]; arg_time := 2; arg_action := 1; arg_nonce := [1] |}] in
  ∃ es tx_bytes,
    tagged_deserialize (T := SystemTx) tx_bytes = Ok (CNightGeneratesDustUpdate es) ∧
    Forall2 event_matches args es ∧ is_governance_allowed_system_tx tx_bytes = false.
Proof.
  intros args.
  assert (is_ok (ebs ← try_collect construct_event args;
                 construct_cnight_generates_dust_system_tx ebs) = true) as Hok
    by (vm_compute; reflexivity).
  destruct (try_collect construct_event args) as [ebs|e|] eqn:He; [|discriminate Hok..].
  change (is_ok (construct_cnight_generates_dust_system_tx ebs) = true) in Hok.
  destruct (construct_cnight_generates_dust_system_tx ebs) as [bs|e|] eqn:Hb; [|discriminate Hok..].
  destruct (dust_events_survive_encoding args ebs bs He Hb) as (es & Hes). by exists es, bs.
Defined.

Lemma unshielded_utxos_by_segment_witness :
  default [] (outputs (unshielded_utxos (Standard tx_full)) !! 0) = segment_outputs tx_full 0 ∧
  segment_outputs tx_full 0 = [utxo_info_of_output (out 5) [0] 0].
Proof.
  split; [|vm_compute; reflexivity].
  apply (@unshielded_utxos_by_segment c_transactions tx_full 0).
  - apply (bool_decide_unpack _). vm_compute. exact I.
  - repeat constructor; vm_compute; discriminate.
Defined.

Lemma integrity_check_accepts_witness :
  let u := unshielded_utxos (Standard tx_full) in
  let before := {[utxo_at 9 9 9]} : gset Utxo in
  check_utxos_response_integrity u (Z.of_nat (size before))
    (before ∖ utxo_set (utxo_inputs u) ∪ utxo_set (utxo_outputs u))
  = Ok (utxo_outputs u, utxo_inputs u).
Proof.
  intros u before. apply (integrity_check_accepts u before).
  - apply (bool_decide_unpack _). vm_compute. exact I.
  - apply (bool_decide_unpack _). vm_compute. exact I.
  - apply (bool_decide_unpack _). vm_compute. exact I.
  - apply (bool_decide_unpack _). vm_compute. exact I.
  - vm_compute. discriminate.
Defined.

Lemma integrity_check_refuses_respent_witness :
  let i := utxo_info_of_output (out 5) [0] 0 in
  let u := {| outputs := {[0 := [i]]}; inputs := {[1 := [i]]} |} in
  check_utxos_response_integrity u 3 {[utxo_of_info i]} = Err Api_HostApiError.
Proof.
  intros i u. apply (integrity_check_refuses_respent u 3 _ i); apply (bool_decide_unpack _);
    vm_compute; exact I.
Defined.
End Witnesses.
