(* ===== verification/CNightObservation.v ===== *)
(** * pallet-cnight-observation: registrations and cNIGHT UTXOs seen on Cardano

    Models [pallets/cnight-observation/src/lib.rs]: the registration mappings, the
    owners of observed UTXOs, the inherent that feeds one batch of observed UTXOs
    per block and the call [process_tokens] that applies it.

    Hashing and the two constructors of the ledger API are parameters (they are
    provided by [sp_core] and by the Midnight ledger); the pallet that executes
    system transactions is used through the class
    [MidnightSystemTransactionExecutor] of [LedgerInterface]. *)

From stdpp Require Import prelude gmap.
From S2P Require Import Prelude Frame Weights CardanoTypes LedgerErrors LedgerInterface.

Open Scope Z_scope.

(** ** Data *)

Record CmstHeader : Type := { cmst_block_hash : list Z; cmst_tx_index_in_block : Z }.

Inductive UtxoActionType : Type := Create | Destroy.
(** [as u8]. *)
Definition utxo_action_code (a : UtxoActionType) : Z :=
  match a with Create => 0 | Destroy => 1 end.

Definition INITIAL_CARDANO_BLOCK_WINDOW_SIZE : Z := 1000.
Definition DEFAULT_CARDANO_TX_CAPACITY_PER_BLOCK : Z := 200.
Definition UTXO_PER_TX_OVERESTIMATE : Z := 64.
Definition MAX_UTXO_COUNT : Z :=
  wrap 32 (DEFAULT_CARDANO_TX_CAPACITY_PER_BLOCK * UTXO_PER_TX_OVERESTIMATE).

Record MappingEntry : Type := {
  cardano_reward_address : list Z;
  dust_public_key : list Z;
  entry_utxo_tx_hash : list Z;
  entry_utxo_index : Z;
}.
#[export] Instance MappingEntry_eq_dec : EqDecision MappingEntry.
Proof. solve_decision. Defined.

Record SystemTransactionApplied : Type :=
  { applied_header : CmstHeader; system_transaction_hash : list Z }.

Inductive Event : Type :=
| Event_Registration (cardano_reward_address dust_public_key : list Z)
| Event_Deregistration (cardano_reward_address dust_public_key : list Z)
| MappingAdded (m : MappingEntry)
| MappingRemoved (m : MappingEntry)
| Event_SystemTransactionApplied (t : SystemTransactionApplied).

Inductive Error : Type :=
| MaxCardanoAddrLengthExceeded
| MaxRegistrationsExceeded
| Error_LedgerApiError (e : LedgerApiError)
| InherentAlreadyExecuted
| CardanoPositionRegression
| TooManyUtxos.

Section CNightObservation.
(** [World]: the state of the other pallets; [F]: their dispatch errors. *)
Context {World F : Type}.

Record State : Type := {
  MainChainMappingValidatorAddress : list Z;
  MainChainAuthTokenAssetName : list Z;
  Mappings : gmap (list Z) (list MappingEntry);
  UtxoOwners : gmap (list Z) (list Z);
  NextCardanoPosition : CardanoPosition;
  CNightIdentifier : list Z * list Z;
  CardanoBlockWindowSize : Z;
  CardanoTxCapacityPerBlock : Z;
  InherentExecutedThisBlock : bool;
  events : list Event;
  world : World;
}.

Definition update (f_addr : list Z → list Z)
    (f_maps : gmap (list Z) (list MappingEntry) → gmap (list Z) (list MappingEntry))
    (f_owners : gmap (list Z) (list Z) → gmap (list Z) (list Z))
    (f_pos : CardanoPosition → CardanoPosition) (f_flag : bool → bool)
    (f_events : list Event → list Event) (f_world : World → World) (s : State) : State :=
  {| MainChainMappingValidatorAddress := f_addr (MainChainMappingValidatorAddress s);
     MainChainAuthTokenAssetName := MainChainAuthTokenAssetName s;
     Mappings := f_maps (Mappings s);
     UtxoOwners := f_owners (UtxoOwners s);
     NextCardanoPosition := f_pos (NextCardanoPosition s);
     CNightIdentifier := CNightIdentifier s;
     CardanoBlockWindowSize := CardanoBlockWindowSize s;
     CardanoTxCapacityPerBlock := CardanoTxCapacityPerBlock s;
     InherentExecutedThisBlock := f_flag (InherentExecutedThisBlock s);
     events := f_events (events s);
     world := f_world (world s) |}.
Definition set_address a : State → State := update (λ _, a) id id id id id id.
Definition set_Mappings m : State → State := update id (λ _, m) id id id id id.
Definition set_UtxoOwners o : State → State := update id id (λ _, o) id id id id.
Definition set_position p : State → State := update id id id (λ _, p) id id id.
Definition set_flag b : State → State := update id id id id (λ _, b) id id.
Definition set_world w : State → State := update id id id id id id (λ _, w).
Definition deposit_event {E} (e : Event) : M State E unit :=
  modify (update id id id id id (λ l, l ++ [e]) id).

(** ** Parameters from outside the sources *)

Record Externals : Type := {
  (** [T::Hashing::hash]. *)
  hash : list Z → list Z;
  (** [LedgerApi::construct_cnight_generates_dust_event(value, owner, time, action, nonce)]. *)
  construct_cnight_generates_dust_event : Z → list Z → Z → Z → list Z → option (list Z);
  (** [LedgerApi::construct_cnight_generates_dust_system_tx(events)]. *)
  construct_cnight_generates_dust_system_tx : list (list Z) → option (list Z);
  WeightInfo : CN_WeightInfo;
}.
Context (T : Externals) `{!MidnightSystemTransactionExecutor World F}.

(** ** Registrations *)

(** [Mappings::get], a [ValueQuery]. *)
Definition mappings_of (s : State) (wallet : list Z) : list MappingEntry :=
  default [] (Mappings s !! wallet).

Definition get_registration (s : State) (wallet : list Z) : option (list Z) :=
  match mappings_of s wallet with [m] => Some (dust_public_key m) | _ => None end.

Definition is_registered (s : State) (utxo_holder : list Z) : bool :=
  bool_decide (length (mappings_of s utxo_holder) = 1%nat).

Definition handle_registration {E} (h : ObservedUtxoHeader) (d : RegistrationData) :
    M State E (option (list Z * list MappingEntry)) :=
  let address := reg_cardano_reward_address d in
  let new_reg := {| cardano_reward_address := address;
                    dust_public_key := reg_dust_public_key d;
                    entry_utxo_tx_hash := utxo_tx_hash h;
                    entry_utxo_index := utxo_index h |} in
  previous_registration ← gets (λ s, get_registration s address);
  mappings ← gets (λ s, mappings_of s address);
  let mappings := mappings ++ [new_reg] in
  modify (λ s, set_Mappings (<[address := mappings]> (Mappings s)) s) ;;
  registered ← gets (λ s, is_registered s address);
  (if bool_decide (previous_registration = None) && registered
   then deposit_event (Event_Registration address (reg_dust_public_key d)) else mret tt) ;;
  match previous_registration with
  | Some previous_dust_public_key =>
      if negb registered
      then deposit_event (Event_Deregistration address previous_dust_public_key) else mret tt
  | None => mret tt
  end ;;
  deposit_event (MappingAdded new_reg) ;;
  mret (Some (address, mappings)).

(** [mappings.remove(index)]. *)
Definition vec_remove {A} (i : nat) (l : list A) : list A := take i l ++ drop (S i) l.

Definition handle_registration_removal {E} (h : ObservedUtxoHeader) (d : DeregistrationData) :
    M State E unit :=
  let address := dereg_cardano_reward_address d in
  let reg_entry := {| cardano_reward_address := address;
                      dust_public_key := dereg_dust_public_key d;
                      entry_utxo_tx_hash := utxo_tx_hash h;
                      entry_utxo_index := utxo_index h |} in
  was_registered ← gets (λ s, is_registered s address);
  mappings ← gets (λ s, mappings_of s address);
  let mappings :=
    match position (λ x, bool_decide (x = reg_entry)) mappings with
    | Some index => vec_remove index mappings
    | None => mappings
    end in
  (if bool_decide (mappings = [])
   then modify (λ s, set_Mappings (delete address (Mappings s)) s)
   else modify (λ s, set_Mappings (<[address := mappings]> (Mappings s)) s)) ;;
  registration ← gets (λ s, get_registration s address);
  match registration with
  | Some registered_dust_public_key =>
      if negb was_registered
      then deposit_event (Event_Registration address registered_dust_public_key) else mret tt
  | None => mret tt
  end ;;
  (if was_registered && bool_decide (registration = None)
   then deposit_event (Event_Deregistration address (dereg_dust_public_key d)) else mret tt) ;;
  deposit_event (MappingRemoved reg_entry).

(** ** cNIGHT UTXOs *)

(** [b"asset_create"]. *)
Definition asset_create_tag : list Z := [97; 115; 115; 101; 116; 95; 99; 114; 101; 97; 116; 101].
(** [u16::to_be_bytes]. *)
Definition u16_to_be_bytes (n : Z) : list Z := [n / 256; n mod 256].
Definition utxo_nonce (tx_hash : list Z) (index : Z) : list Z :=
  hash T (asset_create_tag ++ tx_hash ++ u16_to_be_bytes index).

Definition handle_create {E} (cur_time : Z) (d : CreateData) : M State E (option (list Z)) :=
  registration ← gets (λ s, get_registration s (create_owner d));
  match registration with
  | None => mret None
  | Some key =>
      let nonce := utxo_nonce (create_utxo_tx_hash d) (create_utxo_tx_index d) in
      match construct_cnight_generates_dust_event T (create_value d) key cur_time
              (utxo_action_code Create) nonce with
      | Some event_bytes =>
          modify (λ s, set_UtxoOwners (<[nonce := key]> (UtxoOwners s)) s) ;;
          mret (Some event_bytes)
      | None => mret None
      end
  end.

Definition handle_spend {E} (cur_time : Z) (d : SpendData) : M State E (option (list Z)) :=
  let nonce := utxo_nonce (spend_utxo_tx_hash d) (spend_utxo_tx_index d) in
  (* UtxoOwners::take(nonce) *)
  owner ← gets (λ s, UtxoOwners s !! nonce);
  modify (λ s, set_UtxoOwners (delete nonce (UtxoOwners s)) s) ;;
  match owner with
  | None => mret None
  | Some key =>
      mret (construct_cnight_generates_dust_event T (spend_value d) key cur_time
              (utxo_action_code Destroy) nonce)
  end.

(** ** [process_tokens] *)

(** The body of the loop over the observed UTXOs: [block_timestamp.0 as u64 / 1000]
    is the time, the result an event for the ledger. *)
Definition process_utxo {E} (u : ObservedUtxo) : M State E (option (list Z)) :=
  let now := wrap 64 (block_timestamp (tx_position (header u))) / 1000 in
  match data u with
  | Registration d => handle_registration (header u) d ;; mret None
  | Deregistration d => handle_registration_removal (header u) d ;; mret None
  | AssetCreate d => handle_create now d
  | AssetSpend d => handle_spend now d
  end.

Fixpoint process_utxos {E} (l : list ObservedUtxo) : M State E (list (list Z)) :=
  match l with
  | [] => mret []
  | u :: l =>
      event ← process_utxo u;
      events ← process_utxos l;
      mret (match event with Some e => e :: events | None => events end)
  end.

Definition process_tokens_body (origin : RawOrigin Z) (l : list ObservedUtxo)
    (next : CardanoPosition) : M State (ErrorWithPostInfo Error F) PostDispatchInfo :=
  into_post_info (ensure_none origin) ;;
  let utxo_count := wrap 32 (Z.of_nat (length l)) in
  capacity ← gets CardanoTxCapacityPerBlock;
  ensure (bool_decide (utxo_count ≤ sat_mul 32 capacity UTXO_PER_TX_OVERESTIMATE))
    (with_default_info (Module TooManyUtxos)) ;;
  executed ← gets InherentExecutedThisBlock;
  ensure (negb executed) (with_default_info (Module InherentAlreadyExecuted)) ;;
  modify (set_flag true) ;;
  prev ← gets NextCardanoPosition;
  ensure (position_ge next prev) (with_default_info (Module CardanoPositionRegression)) ;;
  ledger_events ← process_utxos l;
  modify (set_position next) ;;
  (if bool_decide (ledger_events = []) then mret tt
   else
     match construct_cnight_generates_dust_system_tx T ledger_events with
     | Some midnight_system_tx =>
         tx_hash ← with_err (λ f, with_default_info (Foreign f))
           (zoom world set_world (execute_system_transaction midnight_system_tx));
         deposit_event (Event_SystemTransactionApplied
           {| applied_header := {| cmst_block_hash := block_hash next;
                                   cmst_tx_index_in_block := tx_index_in_block next |};
              system_transaction_hash := tx_hash |})
     | None => mret tt
     end) ;;
  mret {| actual_weight := Some (cn_process_tokens (WeightInfo T) utxo_count);
          pays_fee := PaysNo |}.

Context `{StorageLayers}.

Definition process_tokens (origin : RawOrigin Z) (l : list ObservedUtxo) (next : CardanoPosition) :=
  with_storage_layer (process_tokens_body origin l next).

Definition process_tokens_weight (s : State) : Weight :=
  cn_process_tokens (WeightInfo T)
    (sat_mul 32 (CardanoTxCapacityPerBlock s) UTXO_PER_TX_OVERESTIMATE).

(** ** [set_mapping_validator_contract_address] *)

Definition set_mapping_validator_contract_address (origin : RawOrigin Z) (address : list Z) :
    M State (DispatchError Error F) unit :=
  with_storage_layer (
    ensure_root origin ;;
    a ← lift (ok_or (bounded_try_from CARDANO_BECH32_ADDRESS_MAX_LENGTH address)
                    (Module MaxCardanoAddrLengthExceeded));
    modify (set_address a)).

(** ** Hooks *)

Definition on_initialize (db : RuntimeDbWeight) : Weight := writes db 1.
Definition on_finalize (s : State) : State := set_flag false s.

(** ** Inherents *)

Inductive Call : Type :=
| Call_process_tokens (l : list ObservedUtxo) (next : CardanoPosition)
| Call_set_mapping_validator_contract_address (address : list Z).

Inductive InherentError : Type :=
| UnexpectedTokenObserveInherent (a b : option (list (list Z)))
| Missing
| Other.

Definition is_fatal_error (_ : InherentError) : bool := true.

(** What [InherentData::get_data] finds under the pallet's identifier: a codec
    error, nothing, or the token movement. *)
Inductive InherentData : Type :=
| CodecError
| Decoded (d : option MidnightObservationTokenMovement).

(** [.expect(..)]: a codec error is a panic. *)
Definition get_data_from_inherent_data {E} (d : InherentData) :
    outcome E (option MidnightObservationTokenMovement) :=
  match d with CodecError => Panic | Decoded m => Ok m end.

Definition create_inherent {E} (d : InherentData) : outcome E (option Call) :=
  m ← (get_data_from_inherent_data d : outcome E _);
  mret (option_map (λ m, Call_process_tokens (utxos m) (next_cardano_position m)) m).

Definition check_inherent (c : Call) (d : InherentData) : outcome InherentError unit :=
  match c with
  | Call_process_tokens l next =>
      parsed ← (get_data_from_inherent_data d : outcome InherentError _);
      parsed ← ok_or parsed Other;
      if bool_decide (utxos parsed ≠ l) || bool_decide (next_cardano_position parsed ≠ next)
      then Err Other else Ok tt
  | _ => Ok tt
  end.

Definition is_inherent (c : Call) : bool :=
  match c with Call_process_tokens _ _ => true | _ => false end.

Definition is_inherent_required (d : InherentData) : outcome InherentError (option InherentError) :=
  m ← (get_data_from_inherent_data d : outcome InherentError _);
  mret (match m with Some _ => Some Missing | None => None end).

(** ** Genesis *)

(** The parts of [CNightGenesis] the pallet reads; its two [BTreeMap]s as
    association lists. *)
Record CNightGenesis : Type := {
  genesis_mapping_validator_address : list Z;
  genesis_auth_token_asset_name : list Z;
  genesis_cnight_policy_id : list Z;
  genesis_cnight_asset_name : list Z;
  genesis_mappings : list (list Z * list MappingEntry);
  genesis_utxo_owners : list (list Z * list Z);
  genesis_next_cardano_position : CardanoPosition;
}.

(** [GenesisConfig::build] on empty storage; each [expect] panics when a field is
    longer than its bound. *)
Definition build (g : CNightGenesis) (w : World) : outcome Empty_set State :=
  match bounded_try_from CARDANO_BECH32_ADDRESS_MAX_LENGTH (genesis_mapping_validator_address g),
        bounded_try_from 28 (genesis_cnight_policy_id g),
        bounded_try_from 32 (genesis_cnight_asset_name g),
        bounded_try_from 32 (genesis_auth_token_asset_name g) with
  | Some address, Some policy_id, Some asset_name, Some auth_token =>
      Ok {| MainChainMappingValidatorAddress := address;
            MainChainAuthTokenAssetName := auth_token;
            Mappings := foldl (λ m kv, <[fst kv := snd kv]> m) ∅ (genesis_mappings g);
            UtxoOwners := foldl (λ m kv, <[fst kv := snd kv]> m) ∅ (genesis_utxo_owners g);
            NextCardanoPosition := genesis_next_cardano_position g;
            CNightIdentifier := (policy_id, asset_name);
            CardanoBlockWindowSize := INITIAL_CARDANO_BLOCK_WINDOW_SIZE;
            CardanoTxCapacityPerBlock := DEFAULT_CARDANO_TX_CAPACITY_PER_BLOCK;
            InherentExecutedThisBlock := false;
            events := [];
            world := w |}
  | _, _, _, _ => Panic
  end.

(** ** The handlers as equations *)

Definition registered_key (l : list MappingEntry) : option (list Z) :=
  match l with [m] => Some (dust_public_key m) | _ => None end.

Definition entry_of (address key : list Z) (h : ObservedUtxoHeader) : MappingEntry :=
  {| cardano_reward_address := address; dust_public_key := key;
     entry_utxo_tx_hash := utxo_tx_hash h; entry_utxo_index := utxo_index h |}.

(** The registration events for a change of an address's key. *)
Definition status_events (address : list Z) (old new : option (list Z)) : list Event :=
  match old, new with
  | None, Some k => [Event_Registration address k]
  | Some k, None => [Event_Deregistration address k]
  | _, _ => []
  end.

Definition put_mappings (address : list Z) (l : list MappingEntry) (s : State) : State :=
  set_Mappings (if decide (l = []) then delete address (Mappings s)
                else <[address := l]> (Mappings s)) s.
Definition add_events (l : list Event) : State → State := update id id id id id (λ es, es ++ l) id.

Lemma mappings_put a l s : mappings_of (put_mappings a l s) a = l.
Proof.
  unfold mappings_of, put_mappings; simpl.
  case_decide; subst; by rewrite ?lookup_delete_eq, ?lookup_insert_eq.
Qed.
Lemma mappings_put_ne a b l s : a ≠ b → mappings_of (put_mappings a l s) b = mappings_of s b.
Proof.
  intros. unfold mappings_of, put_mappings; simpl.
  case_decide; subst; by rewrite ?lookup_delete_ne, ?lookup_insert_ne.
Qed.
Lemma get_registration_eq s a : get_registration s a = registered_key (mappings_of s a).
Proof. done. Qed.
Lemma is_registered_spec s a :
  is_registered s a = bool_decide (is_Some (registered_key (mappings_of s a))).
Proof.
  unfold is_registered. apply bool_decide_ext.
  destruct (mappings_of s a) as [|x [|y l]]; simpl;
    (split; [intros; try done; by eexists|by intros [? ?]]).
Qed.

Lemma handle_registration_eq {E} h d s :
  let a := reg_cardano_reward_address d in
  let e := entry_of a (reg_dust_public_key d) h in
  let old := mappings_of s a in
  handle_registration (E := E) h d s =
    (Ok (Some (a, old ++ [e])),
     add_events (status_events a (registered_key old) (registered_key (old ++ [e]))
                 ++ [MappingAdded e])
       (put_mappings a (old ++ [e]) s)).
Proof.
  intros a e old. unfold handle_registration; mrun. fold a.
  change {| cardano_reward_address := a; dust_public_key := reg_dust_public_key d;
            entry_utxo_tx_hash := utxo_tx_hash h; entry_utxo_index := utxo_index h |} with e.
  fold old.
  assert (∀ s', set_Mappings (<[a := old ++ [e]]> (Mappings s)) s = s' →
    mappings_of s' a = old ++ [e]) as Hget.
  { intros s' <-. unfold mappings_of; simpl. by rewrite lookup_insert_eq. }
  rewrite is_registered_spec, (Hget _ eq_refl), get_registration_eq. fold old.
  unfold put_mappings. rewrite decide_False by (intros Hnil; by apply app_eq_nil in Hnil as [_ ?]).
  unfold add_events, deposit_event, set_Mappings, update, modify; simpl.
  destruct old as [|x [|y l]]; simpl; [| |destruct (l ++ [e]) eqn:?; [by destruct l|]];
    by rewrite <- ?app_assoc.
Qed.

(** Removing the first occurrence of an entry. *)
Fixpoint remove_entry (e : MappingEntry) (l : list MappingEntry) : list MappingEntry :=
  match l with
  | [] => []
  | x :: l => if decide (x = e) then l else x :: remove_entry e l
  end.

Lemma remove_entry_eq e l :
  match position (λ x, bool_decide (x = e)) l with
  | Some i => vec_remove i l
  | None => l
  end = remove_entry e l.
Proof.
  induction l as [|x l IH]; simpl; [done|]. case_bool_decide; case_decide; try done.
  rewrite <- IH. by destruct (position _ l).
Qed.

Lemma handle_registration_removal_eq {E} h d s :
  let a := dereg_cardano_reward_address d in
  let e := entry_of a (dereg_dust_public_key d) h in
  let old := mappings_of s a in
  let new := remove_entry e old in
  handle_registration_removal (E := E) h d s =
    (Ok tt,
     add_events (status_events a (registered_key old) (registered_key new) ++ [MappingRemoved e])
       (put_mappings a new s)).
Proof.
  intros a e old new. unfold handle_registration_removal; mrun. fold a.
  change {| cardano_reward_address := a; dust_public_key := dereg_dust_public_key d;
            entry_utxo_tx_hash := utxo_tx_hash h; entry_utxo_index := utxo_index h |} with e.
  fold old.
  rewrite remove_entry_eq. fold new.
  assert (∀ dec : Decision (new = []),
    (if @bool_decide _ dec then λ s, (@Ok E unit tt, set_Mappings (delete a (Mappings s)) s)
     else λ s, (Ok tt, set_Mappings (<[a := new]> (Mappings s)) s)) s
    = (Ok tt, put_mappings a new s)) as Hput.
  { intros dec. unfold put_mappings. case_bool_decide; by case_decide. }
  rewrite Hput, is_registered_spec, get_registration_eq, mappings_put. fold old.
  assert (∀ k, registered_key old = Some k → registered_key new = None → k = dereg_dust_public_key d) as Hk.
  { subst new. destruct old as [|x [|y l]]; simpl; try done.
    case_decide as Hx; [|done]. intros; simplify_eq. done. }
  unfold add_events, deposit_event, update, modify; simpl.
  destruct (registered_key old) as [k|] eqn:Ho, (registered_key new) as [k'|] eqn:Hn; simpl;
    rewrite <- ?app_assoc; try done. by rewrite (Hk k).
Qed.

(** ** An indexer's view of the registrations *)

(** What an observer of the event log knows about one address; an event that does
    not fit what is known is an inconsistency ([None]). *)
Definition replay_event (a : list Z) (r : option (list Z)) (e : Event) : option (option (list Z)) :=
  match e with
  | Event_Registration a' k =>
      if decide (a' = a) then (if decide (r = None) then Some (Some k) else None) else Some r
  | Event_Deregistration a' k =>
      if decide (a' = a) then (if decide (r = Some k) then Some None else None) else Some r
  | _ => Some r
  end.
Fixpoint replay (a : list Z) (r : option (list Z)) (l : list Event) : option (option (list Z)) :=
  match l with
  | [] => Some r
  | e :: l => match replay_event a r e with Some r' => replay a r' l | None => None end
  end.

(** From [s] to [s'] the log has grown by events that replay the registrations. *)
Definition tracks (s s' : State) : Prop :=
  ∃ l, events s' = events s ++ l ∧
    ∀ a, replay a (get_registration s a) l = Some (get_registration s' a).

Lemma replay_app a r r' l k :
  replay a r l = Some r' → replay a r (l ++ k) = replay a r' k.
Proof.
  revert r; induction l as [|e l IH]; intros r; simpl; [by intros [= ->]|].
  destruct (replay_event a r e); [apply IH|done].
Qed.

Lemma tracks_refl s s' :
  events s' = events s → Mappings s' = Mappings s → tracks s s'.
Proof.
  intros He Hm. exists []. rewrite app_nil_r. split; [done|]. intros a. simpl.
  unfold get_registration, mappings_of. by rewrite Hm.
Qed.

Lemma tracks_trans s1 s2 s3 : tracks s1 s2 → tracks s2 s3 → tracks s1 s3.
Proof.
  intros (l & He & Hr) (k & He' & Hr'). exists (l ++ k). split; [by rewrite He', He, app_assoc|].
  intros a. by rewrite (replay_app _ _ _ _ _ (Hr a)).
Qed.

(** A handler that replaces the mappings of one address and reports the change of
    its status. *)
Lemma tracks_put a l e s :
  (∀ r b, replay_event b r e = Some r) →
  (∀ k k', registered_key (mappings_of s a) = Some k → registered_key l = Some k' → k = k') →
  tracks s (add_events (status_events a (registered_key (mappings_of s a)) (registered_key l) ++ [e])
              (put_mappings a l s)).
Proof.
  intros He Hk. eexists; split; [done|]. intros b.
  transitivity (Some (registered_key (mappings_of (put_mappings a l s) b))); [|done].
  rewrite get_registration_eq. destruct (decide (a = b)) as [<-|Hne].
  - rewrite mappings_put.
    destruct (registered_key (mappings_of s a)) as [k|], (registered_key l) as [k'|]; simpl;
      rewrite ?decide_True by done; simpl; rewrite ?He; [|done..].
    by rewrite (Hk k k').
  - rewrite mappings_put_ne by done. erewrite replay_app; [simpl; by rewrite He|].
    destruct (registered_key (mappings_of s a)), (registered_key l); simpl;
      by rewrite ?decide_False.
Qed.

Lemma registered_key_app l e k : registered_key l = Some k → registered_key (l ++ [e]) = None.
Proof. by destruct l as [|x [|y l]]. Qed.
Lemma registered_key_remove e l k k' :
  registered_key l = Some k → registered_key (remove_entry e l) = Some k' → k = k'.
Proof.
  destruct l as [|x [|y l]]; simpl; try done. case_decide; simpl; congruence.
Qed.

(** ** Lemmas on the loop *)

(** One observed UTXO: the loop body always returns, keeps the log in step with
    the registrations and touches nothing but mappings, owners and the log. *)
Definition same_rest (s s' : State) : Prop :=
  MainChainMappingValidatorAddress s' = MainChainMappingValidatorAddress s ∧
  MainChainAuthTokenAssetName s' = MainChainAuthTokenAssetName s ∧
  NextCardanoPosition s' = NextCardanoPosition s ∧
  CNightIdentifier s' = CNightIdentifier s ∧
  CardanoBlockWindowSize s' = CardanoBlockWindowSize s ∧
  CardanoTxCapacityPerBlock s' = CardanoTxCapacityPerBlock s ∧
  InherentExecutedThisBlock s' = InherentExecutedThisBlock s ∧
  world s' = world s.

#[local] Instance same_rest_preorder : PreOrder same_rest.
Proof.
  split; [by intros s; unfold same_rest|].
  intros s1 s2 s3 H12 H23. unfold same_rest in *. destruct_and!. split_and!; congruence.
Qed.

Lemma process_utxo_ok {E} u s :
  ∃ e s', process_utxo (E := E) u s = (Ok e, s') ∧ tracks s s' ∧ same_rest s s'.
Proof.
  unfold process_utxo. destruct (data u) as [d|d|d|d]; mrun.
  - rewrite handle_registration_eq. eexists _, _; split_and!; [done| |done].
    apply tracks_put; [done|]. intros k k' Hk. by rewrite (registered_key_app _ _ _ Hk).
  - rewrite handle_registration_removal_eq. eexists _, _; split_and!; [done| |done].
    apply tracks_put; [done|]. apply registered_key_remove.
  - unfold handle_create; mrun. destruct (get_registration s _) as [k|];
      [destruct (construct_cnight_generates_dust_event _ _ _ _ _ _)|];
      (eexists _, _; split_and!; [done|by apply tracks_refl|done]).
  - unfold handle_spend; mrun. destruct (UtxoOwners s !! _) as [k|];
      (eexists _, _; split_and!; [done|by apply tracks_refl|done]).
Qed.

Lemma process_utxos_ok {E} l s :
  ∃ es s', process_utxos (E := E) l s = (Ok es, s') ∧ tracks s s' ∧ same_rest s s'.
Proof.
  revert s; induction l as [|u l IH]; intros s.
  { exists [], s. split_and!; [done|by apply tracks_refl|done]. }
  destruct (process_utxo_ok (E := E) u s) as (e & s1 & Hu & Ht & Hr).
  destruct (IH s1) as (es & s2 & Hl & Ht' & Hr').
  eexists _, s2. split_and!; [|by eapply tracks_trans|by etrans].
  simpl. unfold mbind, M_bind. rewrite Hu, Hl. done.
Qed.

(** The ledger system transaction made of the collected events, if any. *)
Definition system_tx_of (es : list (list Z)) : option (list Z) :=
  if bool_decide (es = []) then None else construct_cnight_generates_dust_system_tx T es.

Definition applied_event (p : CardanoPosition) (h : list Z) : Event :=
  Event_SystemTransactionApplied
    {| applied_header := {| cmst_block_hash := block_hash p;
                            cmst_tx_index_in_block := tx_index_in_block p |};
       system_transaction_hash := h |}.

(** What a [process_tokens] that returned has done. *)
Lemma process_tokens_inv o l p s r s' :
  process_tokens o l p s = (r, s') → r ≠ Panic →
  (∃ e, r = Err e ∧ s' = s) ∨
  (∃ es s1, r = Ok {| actual_weight := Some (cn_process_tokens (WeightInfo T)
                        (wrap 32 (Z.of_nat (length l)))); pays_fee := PaysNo |} ∧
     o = NoOrigin ∧ InherentExecutedThisBlock s = false ∧
     wrap 32 (Z.of_nat (length l)) ≤
       sat_mul 32 (CardanoTxCapacityPerBlock s) UTXO_PER_TX_OVERESTIMATE ∧
     position_ge p (NextCardanoPosition s) = true ∧
     process_utxos (E := ErrorWithPostInfo Error F) l (set_flag true s) = (Ok es, s1) ∧
     match system_tx_of es with
     | None => s' = set_position p s1
     | Some tx => ∃ h w, execute_system_transaction tx (world s1) = (Ok h, w) ∧
         s' = add_events [applied_event p h] (set_world w (set_position p s1))
     end).
Proof.
  intros Hp Hr. apply with_storage_layer_inv in Hp as [(info & -> & Hb)|(e & s1 & -> & -> & _)];
    [right|by eauto|done].
  unfold process_tokens_body in Hb. mrun. unfold into_post_info, with_err, ensure_none in Hb; mrun.
  destruct o; mrun; try done.
  case_bool_decide as Hcount; mrun; [|done].
  destruct (InherentExecutedThisBlock s) eqn:Hflag; mrun; [done|].
  destruct (position_ge p (NextCardanoPosition s)) eqn:Hpos; mrun; [|done].
  destruct (process_utxos_ok (E := ErrorWithPostInfo Error F) l (set_flag true s))
    as (es & s1 & Hl & _ & _).
  rewrite Hl in Hb. exists es, s1. unfold system_tx_of.
  case_bool_decide; [by simplify_eq|].
  destruct (construct_cnight_generates_dust_system_tx T es) as [tx|]; mrun; [|by simplify_eq].
  change (world (set_position p s1)) with (world s1) in Hb.
  destruct (execute_system_transaction tx (world s1)) as [[h|f|] w] eqn:Hx; simplify_eq/=.
  split_and!; try done. eauto.
Qed.

(** Once its guards hold, [process_tokens] fails only if the system transaction
    made of the collected events does. *)
Lemma process_tokens_fails_in_ledger l p s e s' :
  InherentExecutedThisBlock s = false →
  wrap 32 (Z.of_nat (length l)) ≤ sat_mul 32 (CardanoTxCapacityPerBlock s) UTXO_PER_TX_OVERESTIMATE →
  position_ge p (NextCardanoPosition s) = true →
  process_tokens NoOrigin l p s = (Err e, s') →
  ∃ es s1 tx f w, process_utxos (E := ErrorWithPostInfo Error F) l (set_flag true s) = (Ok es, s1) ∧
    system_tx_of es = Some tx ∧ execute_system_transaction tx (world s1) = (Err f, w) ∧
    e = with_default_info (Foreign f).
Proof.
  intros Hflag Hcount Hpos Hp.
  apply with_storage_layer_inv in Hp as [(info & ? & _)|(e' & s1 & [= <-] & -> & Hb)]; [done| |done].
  unfold process_tokens_body in Hb. mrun. unfold into_post_info, with_err, ensure_none in Hb; mrun.
  rewrite (bool_decide_true (wrap _ _ ≤ _)) in Hb by done. mrun.
  rewrite Hflag in Hb. mrun. rewrite Hpos in Hb. mrun.
  destruct (process_utxos_ok (E := ErrorWithPostInfo Error F) l (set_flag true s))
    as (es & s2 & Hl & _ & _).
  rewrite Hl in Hb. exists es, s2. unfold system_tx_of.
  case_bool_decide; [by simplify_eq|].
  destruct (construct_cnight_generates_dust_system_tx T es) as [tx|]; mrun; [|by simplify_eq].
  change (world (set_position p s2)) with (world s2) in Hb.
  destruct (execute_system_transaction tx (world s2)) as [[h|f|] w] eqn:Hx; simplify_eq/=.
  naive_solver.
Qed.

(** ** Properties *)

(** C24: an observer who follows the [Registration] and [Deregistration] events
    knows exactly which addresses are registered, and with which key: replaying
    the events of a [process_tokens] call over the registrations before it never
    meets an event that does not fit (a second registration, a deregistration of
    another key) and ends with the registrations after it, for every address. *)
Theorem registration_events_track_storage o l p s info s' :
  process_tokens o l p s = (Ok info, s') →
  ∃ new, events s' = events s ++ new ∧
    ∀ a, replay a (get_registration s a) new = Some (get_registration s' a).
Proof.
  intros Hp. apply process_tokens_inv in Hp as [(?&?&?)|(es&s1&_&_&_&_&_&Hl&Htx)]; [done| |done].
  destruct (process_utxos_ok (E := ErrorWithPostInfo Error F) l (set_flag true s))
    as (es' & s1' & Hl' & Ht & _). rewrite Hl in Hl'. simplify_eq.
  change (tracks s s'). eapply (tracks_trans _ s1'); [exact Ht|].
  destruct (system_tx_of es') as [tx|]; [|subst; by apply tracks_refl].
  destruct Htx as (h & w & _ & ->). by exists [applied_event p h].
Qed.

(** what [process_tokens] does to the rest of the pallet.  A call that
    fails, whatever the reason (origin, too many UTXOs, second inherent of the
    block, position regression, failed system transaction), leaves the whole
    state as it was.  A call that succeeds was an inherent (no origin), the first
    of its block, with a number of UTXOs within capacity; it moves the next
    Cardano position to the one given, which is not behind the previous one, and
    changes no parameter of the pallet. *)
Theorem process_tokens_guards o l p s r s' :
  process_tokens o l p s = (r, s') → r ≠ Panic →
  match r with
  | Ok info =>
      o = NoOrigin ∧ InherentExecutedThisBlock s = false ∧ InherentExecutedThisBlock s' = true ∧
      wrap 32 (Z.of_nat (length l)) ≤
        sat_mul 32 (CardanoTxCapacityPerBlock s) UTXO_PER_TX_OVERESTIMATE ∧
      NextCardanoPosition s' = p ∧ position_cmp (NextCardanoPosition s) p ≠ Gt ∧
      CardanoTxCapacityPerBlock s' = CardanoTxCapacityPerBlock s ∧
      CardanoBlockWindowSize s' = CardanoBlockWindowSize s ∧
      MainChainMappingValidatorAddress s' = MainChainMappingValidatorAddress s ∧
      MainChainAuthTokenAssetName s' = MainChainAuthTokenAssetName s ∧
      CNightIdentifier s' = CNightIdentifier s
  | _ => s' = s
  end.
Proof.
  intros Hp Hr.
  apply process_tokens_inv in Hp as [(e&->&->)|(es&s1&->&->&Hf&Hc&Hpos&Hl&Htx)]; [done| |done].
  destruct (process_utxos_ok (E := ErrorWithPostInfo Error F) l (set_flag true s))
    as (es' & s1' & Hl' & _ & Hsame). rewrite Hl in Hl'. simplify_eq.
  unfold same_rest in Hsame; simpl in Hsame. destruct_and!.
  apply position_ge_spec in Hpos.
  destruct (system_tx_of es') as [tx|]; [destruct Htx as (h & w & _ & ->)|subst];
    simpl; split_and!; try done; congruence.
Qed.

(** One step of the chain as this pallet sees it: its two calls, the end of a
    block, and changes elsewhere (the log is cleared between blocks). *)
Inductive in_block_step (s : State) : State → Prop :=
| step_process_tokens o l p r s' :
    process_tokens o l p s = (r, s') → r ≠ Panic → in_block_step s s'
| step_set_address o a r s' :
    set_mapping_validator_contract_address o a s = (r, s') → r ≠ Panic → in_block_step s s'
| step_elsewhere w es : in_block_step s (update id id id id id (λ _, es) (λ _, w) s).
Inductive chain_step (s : State) : State → Prop :=
| step_in_block s' : in_block_step s s' → chain_step s s'
| step_finalize : chain_step s (on_finalize s).

Lemma set_address_inv o a s r s' :
  set_mapping_validator_contract_address o a s = (r, s') → r ≠ Panic →
  NextCardanoPosition s' = NextCardanoPosition s ∧
  InherentExecutedThisBlock s' = InherentExecutedThisBlock s.
Proof.
  intros Hx Hr. apply with_storage_layer_inv in Hx as [(x & -> & Hb)|(e & s1 & -> & -> & _)];
    [|done|done].
  mrun. unfold ensure_root in Hb; mrun. destruct o; mrun; try done.
  destruct (bounded_try_from _ a); by simplify_eq/=.
Qed.

Lemma process_tokens_flag o l p s r s' :
  process_tokens o l p s = (r, s') → r ≠ Panic → InherentExecutedThisBlock s = true →
  (∃ e, r = Err e) ∧ s' = s.
Proof.
  intros Hp Hr Hf. apply process_tokens_inv in Hp as [(e&->&->)|(?&?&_&_&Hf'&_)]; [by eauto| |done].
  congruence.
Qed.

Lemma in_block_flag s s' :
  in_block_step s s' → InherentExecutedThisBlock s = true → InherentExecutedThisBlock s' = true.
Proof.
  intros [o l p r s1 Hp Hr|o a r s1 Hx Hr|w es] Hf; [| |done].
  - by destruct (process_tokens_flag _ _ _ _ _ _ Hp Hr Hf) as [_ ->].
  - by destruct (set_address_inv _ _ _ _ _ Hx Hr) as [_ ->].
Qed.

Lemma chain_step_position s s' :
  chain_step s s' → position_cmp (NextCardanoPosition s) (NextCardanoPosition s') ≠ Gt.
Proof.
  assert (∀ q, position_cmp q q ≠ Gt) as Hrefl by (intros q; by rewrite (cmp_refl position_cmp q)).
  intros [s1 [o l p r s2 Hp Hr|o a r s2 Hx Hr|w es]|]; [| |apply Hrefl|apply Hrefl].
  - apply process_tokens_inv in Hp as [(e&->&->)|(es&s3&->&->&_&_&Hpos&_&Htx)]; [done| |done].
    apply position_ge_spec in Hpos.
    destruct (system_tx_of es); [destruct Htx as (h & w & _ & ->)|subst]; done.
  - destruct (set_address_inv _ _ _ _ _ Hx Hr) as [-> _]. apply Hrefl.
Qed.

(** the pallet never looks back: along any run of the chain the next Cardano
    position never decreases. *)
Theorem cardano_position_monotone s s' :
  rtc chain_step s s' → position_cmp (NextCardanoPosition s) (NextCardanoPosition s') ≠ Gt.
Proof.
  induction 1 as [s|s s1 s2 H1 _ IH]; [by rewrite (cmp_refl position_cmp _)|].
  eapply (cmp_le_trans position_cmp); [by apply chain_step_position|done].
Qed.

(** one batch per block: after a [process_tokens] that succeeded, and until
    the block is finalized, every further [process_tokens] is refused and changes
    nothing; finalizing the block admits the next one. *)
Theorem one_batch_per_block o l p s info s1 s2 o' l' p' r s3 :
  process_tokens o l p s = (Ok info, s1) → rtc in_block_step s1 s2 →
  process_tokens o' l' p' s2 = (r, s3) → r ≠ Panic →
  (∃ e, r = Err e) ∧ s3 = s2 ∧ InherentExecutedThisBlock (on_finalize s2) = false.
Proof.
  intros Hp Hsteps Hp' Hr.
  assert (InherentExecutedThisBlock s1 = true) as Hf.
  { apply process_tokens_inv in Hp as [(?&?&?)|(es&s4&_&_&_&_&_&Hl&Htx)]; [done| |done].
    destruct (process_utxos_ok (E := ErrorWithPostInfo Error F) l (set_flag true s))
      as (es' & s4' & Hl' & _ & Hsame). rewrite Hl in Hl'. simplify_eq.
    unfold same_rest in Hsame; simpl in Hsame. destruct_and!.
    destruct (system_tx_of es'); [destruct Htx as (h & w & _ & ->)|subst]; done. }
  assert (InherentExecutedThisBlock s2 = true) as Hf2.
  { clear Hp Hp'. induction Hsteps as [|s1 s1' s2 Hs _ IH]; [done|]. by apply IH, (in_block_flag s1). }
  destruct (process_tokens_flag _ _ _ _ _ _ Hp' Hr Hf2). by split_and!.
Qed.

(** authors and verifiers agree on the inherent.  For inherent data that
    decodes, a [process_tokens] call passes [check_inherent] exactly when it is
    the call [create_inherent] builds from the same data, and the inherent is
    required exactly when there is one to build. *)
Theorem inherent_create_check_agree c d :
  is_inherent c = true →
  (check_inherent c (Decoded d) = Ok tt ↔
     create_inherent (E := InherentError) (Decoded d) = Ok (Some c)) ∧
  (is_inherent_required (Decoded d) = Ok None ↔
     create_inherent (E := InherentError) (Decoded d) = Ok None).
Proof.
  destruct c as [l p|]; [|done]. intros _.
  unfold check_inherent, create_inherent, is_inherent_required, mbind, outcome_bind; simpl.
  destruct d as [[l' p']|]; simpl; [|done].
  split; [|done]. unfold mret, outcome_ret.
  case_bool_decide as Hl; [split; [done|]; intros [= ? ?]; by subst|].
  case_bool_decide as Hp; [split; [done|]; intros [= ? ?]; by subst|].
  by subst.
Qed.

(** ** The events sent to the ledger *)

Record DustEvent : Type := {
  dust_value : Z; dust_key : list Z; dust_time : Z; dust_action : UtxoActionType;
  dust_nonce : list Z;
}.
Definition construct (d : DustEvent) : option (list Z) :=
  construct_cnight_generates_dust_event T (dust_value d) (dust_key d) (dust_time d)
    (utxo_action_code (dust_action d)) (dust_nonce d).

(** The ledger's account of live UTXOs: a destruction must name a live UTXO and
    the key it was created for. *)
Definition ledger_step (live : gmap (list Z) (list Z)) (d : DustEvent) :
    option (gmap (list Z) (list Z)) :=
  match dust_action d with
  | Create => Some (<[dust_nonce d := dust_key d]> live)
  | Destroy =>
      if decide (live !! dust_nonce d = Some (dust_key d))
      then Some (delete (dust_nonce d) live) else None
  end.
Fixpoint ledger_replay (live : gmap (list Z) (list Z)) (l : list DustEvent) :
    option (gmap (list Z) (list Z)) :=
  match l with
  | [] => Some live
  | d :: l => match ledger_step live d with Some live' => ledger_replay live' l | None => None end
  end.

(** One observed UTXO sends at most one event, which the ledger's account admits
    and which keeps the recorded owners within it. *)
Lemma process_utxo_dust {E} u s e s' live :
  process_utxo (E := E) u s = (Ok e, s') → UtxoOwners s ⊆ live →
  match e with
  | None => UtxoOwners s' ⊆ live
  | Some b => ∃ d live', construct d = Some b ∧ ledger_step live d = Some live' ∧
                UtxoOwners s' ⊆ live'
  end.
Proof.
  intros Hu Hsub. unfold process_utxo in Hu. destruct (data u) as [d|d|d|d]; mrun.
  - rewrite handle_registration_eq in Hu. by simplify_eq.
  - rewrite handle_registration_removal_eq in Hu. by simplify_eq.
  - unfold handle_create in Hu; mrun.
    destruct (get_registration s _) as [k|]; [|by simplify_eq].
    destruct (construct_cnight_generates_dust_event _ _ _ _ _ _) eqn:Hc; simplify_eq; [|done].
    eexists {| dust_action := Create |}, _. split_and!; [exact Hc|done|]. simpl.
    by apply insert_mono.
  - unfold handle_spend in Hu; mrun.
    assert (∀ n, delete n (UtxoOwners s) ⊆ live) as Hdel.
    { intros n. etrans; [apply delete_subseteq|done]. }
    destruct (UtxoOwners s !! _) as [k|] eqn:Hk; [|simplify_eq; apply Hdel].
    destruct (construct_cnight_generates_dust_event _ _ _ _ _ _) eqn:Hc; simplify_eq; [|apply Hdel].
    eexists {| dust_action := Destroy |}, _. split_and!; [exact Hc| |].
    + unfold ledger_step; simpl. rewrite decide_True; [done|]. by eapply lookup_weaken.
    + simpl. by apply delete_mono.
Qed.

(** C25: the DUST events of a batch are balanced.  If every recorded owner is a
    live UTXO of the ledger's account, then the events collected from any list of
    observed UTXOs are, in order, events the account admits: each destruction
    names a UTXO created before and not destroyed since, with the very key it was
    created for; and the owners recorded afterwards are again live. *)
Theorem dust_events_balanced {E} l s es s' live :
  process_utxos (E := E) l s = (Ok es, s') → UtxoOwners s ⊆ live →
  ∃ ds live', Forall2 (λ d b, construct d = Some b) ds es ∧
    ledger_replay live ds = Some live' ∧ UtxoOwners s' ⊆ live'.
Proof.
  revert s es live; induction l as [|u l IH]; intros s es live Hl Hsub.
  { simpl in Hl. unfold mret, M_ret in Hl. simplify_eq. by exists [], live. }
  simpl in Hl. apply M_bind_ok in Hl as (e & s1 & Hu & Hl).
  apply M_bind_ok in Hl as (es1 & s2 & Hl & Hret). unfold mret, M_ret in Hret. simplify_eq.
  pose proof (process_utxo_dust _ _ _ _ _ Hu Hsub) as He. destruct e as [b|].
  - destruct He as (d & live1 & Hc & Hstep & Hsub1).
    destruct (IH _ _ _ Hl Hsub1) as (ds & live2 & HF & Hrep & Hsub2).
    exists (d :: ds), live2. split_and!; [by constructor| |done]. simpl. by rewrite Hstep.
  - by apply (IH s1).
Qed.

(** ** The mappings invariant *)

(** No empty list is stored, and every entry is stored under its own address. *)
Definition mappings_wf (s : State) : Prop :=
  map_Forall (λ a l, l ≠ [] ∧ Forall (λ m, cardano_reward_address m = a) l) (Mappings s).

Lemma mappings_wf_of s a :
  mappings_wf s → Forall (λ m, cardano_reward_address m = a) (mappings_of s a).
Proof.
  intros Hs. unfold mappings_of. destruct (Mappings s !! a) as [l|] eqn:Hl; [|constructor].
  by destruct (Hs _ _ Hl).
Qed.

Lemma put_mappings_wf s a l es :
  mappings_wf s → Forall (λ m, cardano_reward_address m = a) l →
  mappings_wf (add_events es (put_mappings a l s)).
Proof.
  intros Hs Hl. unfold mappings_wf, put_mappings; simpl.
  case_decide; [by apply map_Forall_delete|]. by apply map_Forall_insert_2.
Qed.

Lemma remove_entry_Forall (P : MappingEntry → Prop) e l :
  Forall P l → Forall P (remove_entry e l).
Proof. induction 1 as [|x l]; simpl; [constructor|]. case_decide; by try constructor. Qed.

Lemma process_utxo_wf {E} u s e s' :
  process_utxo (E := E) u s = (Ok e, s') → mappings_wf s → mappings_wf s'.
Proof.
  intros Hu Hs. unfold process_utxo in Hu. destruct (data u) as [d|d|d|d]; mrun.
  - rewrite handle_registration_eq in Hu. simplify_eq. apply put_mappings_wf; [done|].
    apply Forall_app. split; [by apply mappings_wf_of|by repeat constructor].
  - rewrite handle_registration_removal_eq in Hu. simplify_eq. apply put_mappings_wf; [done|].
    by apply remove_entry_Forall, mappings_wf_of.
  - unfold handle_create in Hu; mrun. destruct (get_registration s _); [|by simplify_eq].
    destruct (construct_cnight_generates_dust_event _ _ _ _ _ _); by simplify_eq.
  - unfold handle_spend in Hu; mrun. destruct (UtxoOwners s !! _); by simplify_eq.
Qed.

Lemma process_utxos_wf {E} l s es s' :
  process_utxos (E := E) l s = (Ok es, s') → mappings_wf s → mappings_wf s'.
Proof.
  revert s es; induction l as [|u l IH]; intros s es Hl Hs; simpl in Hl.
  { unfold mret, M_ret in Hl. by simplify_eq. }
  apply M_bind_ok in Hl as (e & s1 & Hu & Hl). apply M_bind_ok in Hl as (es1 & s2 & Hl & Hret).
  unfold mret, M_ret in Hret. simplify_eq. eapply IH; [done|]. by eapply process_utxo_wf.
Qed.

(** the storage invariant of the mappings survives every batch: an address
    without mappings has no entry at all, and each mapping is stored under the
    address it is for; so an address is registered exactly when it has one
    mapping. *)
Theorem process_tokens_mappings_wf o l p s r s' :
  process_tokens o l p s = (r, s') → r ≠ Panic → mappings_wf s →
  mappings_wf s' ∧ ∀ a, is_registered s' a = true ↔ ∃ m, Mappings s' !! a = Some [m] ∧
    cardano_reward_address m = a.
Proof.
  intros Hp Hr Hs. assert (mappings_wf s') as Hs'.
  { apply process_tokens_inv in Hp as [(e&_&->)|(es&s1&_&_&_&_&_&Hl&Htx)]; [done| |done].
    apply process_utxos_wf in Hl; [|done].
    destruct (system_tx_of es); [destruct Htx as (h & w & _ & ->)|subst]; done. }
  split; [done|]. intros a. unfold is_registered, mappings_of. rewrite bool_decide_eq_true.
  destruct (Mappings s' !! a) as [[|m [|m' l']]|] eqn:Hm; simpl; split; try done; try naive_solver.
  intros _. exists m. split; [done|]. destruct (Hs' _ _ Hm) as [_ Hf]. by inversion_clear Hf.
Qed.

(** [MappingRemoved] does not mean that a mapping was removed: asked to
    remove an entry that is not stored, the pallet leaves the mappings and the
    registrations as they are and still deposits the event. *)
Theorem mapping_removed_without_removal {E} h d s :
  let a := dereg_cardano_reward_address d in
  let e := entry_of a (dereg_dust_public_key d) h in
  e ∉ mappings_of s a →
  ∃ s', handle_registration_removal (E := E) h d s = (Ok tt, s') ∧
    (∀ b, mappings_of s' b = mappings_of s b) ∧ events s' = events s ++ [MappingRemoved e].
Proof.
  intros a e He. rewrite handle_registration_removal_eq. fold a. fold e.
  assert (remove_entry e (mappings_of s a) = mappings_of s a) as ->.
  { induction (mappings_of s a) as [|x l IH]; simpl; [done|].
    rewrite decide_False by set_solver. by rewrite IH by set_solver. }
  eexists; split_and!; [done| |].
  - intros b. transitivity (mappings_of (put_mappings a (mappings_of s a) s) b); [done|].
    destruct (decide (a = b)) as [<-|]; [by rewrite mappings_put|by rewrite mappings_put_ne].
  - simpl. by destruct (registered_key (mappings_of s a)).
Qed.

(** ** Weight *)

Lemma cn_weight_mono db n k :
  0 ≤ db_read db → 0 ≤ db_write db → 0 ≤ n ≤ k →
  cn_process_tokens (CN_SubstrateWeight db) n ≤w cn_process_tokens (CN_SubstrateWeight db) k.
Proof.
  intros. simpl. repeat apply saturating_add_proper; try done.
  - apply saturating_mul_mono; simpl; lia.
  - split; simpl; [|done]. apply sat_mul_mono; [done|]. apply sat_mul_mono; lia.
  - split; simpl; [|done]. apply sat_mul_mono; [done|]. apply sat_mul_mono; lia.
Qed.

(** the weight [process_tokens] reports is within the weight it declared
    from the capacity in storage, in both components. *)
Theorem process_tokens_weight_within_declared db o l p s info s' w :
  WeightInfo T = CN_SubstrateWeight db → 0 ≤ db_read db → 0 ≤ db_write db →
  process_tokens o l p s = (Ok info, s') → actual_weight info = Some w →
  w ≤w process_tokens_weight s.
Proof.
  intros HW Hr Hw Hp Hinfo.
  apply process_tokens_inv in Hp as [(?&?&?)|(es&s1&Hi&_&_&Hc&_)]; [done| |done].
  simplify_eq/=. unfold process_tokens_weight. rewrite HW. apply cn_weight_mono; [done..|].
  pose proof (wrap_range 32 (Z.of_nat (length l)) ltac:(lia)) as [? _]. lia.
Qed.
End CNightObservation.

(** ** The properties at a concrete ledger

    The hash is the identity, an event is its fields, a system transaction the
    concatenation of its events, and executing it appends it to a list. *)
Module Concrete.
#[export] Instance executor : MidnightSystemTransactionExecutor (list (list Z)) unit :=
  {| execute_system_transaction := λ tx w, (Ok tx, w ++ [tx]) |}.
Definition db : RuntimeDbWeight := {| db_read := 8000; db_write := 50000 |}.
Definition ext : Externals := {|
  hash := λ l, l;
  construct_cnight_generates_dust_event := λ v k t a n, Some ([v; t; a] ++ k ++ n);
  construct_cnight_generates_dust_system_tx := λ es, Some (concat es);
  WeightInfo := CN_SubstrateWeight db;
|}.
Definition pos (b i : Z) : CardanoPosition :=
  {| block_hash := [b]; block_number := b; block_timestamp := 1000 * b; tx_index_in_block := i |}.
Definition St : Type := @State (list (list Z)).
Definition start : St := {|
  MainChainMappingValidatorAddress := []; MainChainAuthTokenAssetName := [];
  Mappings := ∅; UtxoOwners := ∅; NextCardanoPosition := pos 5 0; CNightIdentifier := ([], []);
  CardanoBlockWindowSize := 1000; CardanoTxCapacityPerBlock := 200;
  InherentExecutedThisBlock := false; events := []; world := [] |}.
Definition hdr (i : Z) (tx utxo_tx : list Z) : ObservedUtxoHeader :=
  {| tx_position := pos 6 i; tx_hash := tx; utxo_tx_hash := utxo_tx; utxo_index := 0 |}.
Definition alice : list Z := [1; 2; 3].
Definition alice_key : list Z := [42].
Definition batch : list ObservedUtxo :=
  [ {| header := hdr 0 [10] [10];
       data := Registration {| reg_cardano_reward_address := alice;
                               reg_dust_public_key := alice_key |} |};
    {| header := hdr 1 [11] [11];
       data := AssetCreate {| create_value := 100; create_owner := alice;
                              create_utxo_tx_hash := [11]; create_utxo_tx_index := 0 |} |};
    {| header := hdr 2 [12] [10];
       data := Deregistration {| dereg_cardano_reward_address := alice;
                                 dereg_dust_public_key := alice_key |} |};
    {| header := hdr 3 [13] [11];
       data := AssetSpend {| spend_value := 100; spend_owner := alice;
                             spend_utxo_tx_hash := [11]; spend_utxo_tx_index := 0;
                             spending_tx_hash := [13] |} |} ].
Definition result := process_tokens ext NoOrigin batch (pos 7 0) start.
Definition info : PostDispatchInfo :=
  {| actual_weight := Some (cn_process_tokens (CN_SubstrateWeight db) 4); pays_fee := PaysNo |}.
Definition after : St := snd result.
Lemma cnight_start_wf : mappings_wf start.
Proof. apply map_Forall_empty. Qed.
End Concrete.
Import Concrete.

Lemma registration_events_track_storage_witness :
  length (events after) = 5%nat ∧
  ∃ new, events after = events start ++ new ∧
    ∀ a, replay a (get_registration start a) new = Some (get_registration after a).
Proof.
  split; [vm_compute; reflexivity|].
  apply (registration_events_track_storage ext NoOrigin batch (pos 7 0) start info after).
  vm_compute. reflexivity.
Defined.

Lemma process_tokens_guards_witness :
  NextCardanoPosition after = pos 7 0 ∧ length (world after) = 1%nat.
Proof.
  split; [|vm_compute; reflexivity].
  apply (process_tokens_guards ext NoOrigin batch (pos 7 0) start (Ok info) after);
    [vm_compute; reflexivity|discriminate].
Defined.

Lemma cardano_position_monotone_witness :
  position_cmp (NextCardanoPosition start) (NextCardanoPosition (on_finalize after)) ≠ Gt.
Proof.
  apply (cardano_position_monotone ext).
  eapply rtc_l; [|eapply rtc_once, step_finalize].
  apply step_in_block. apply (step_process_tokens _ _ NoOrigin batch (pos 7 0) (Ok info));
    [vm_compute; reflexivity|discriminate].
Defined.

Lemma one_batch_per_block_witness :
  process_tokens ext NoOrigin [] (pos 8 0) after =
    (Err (with_default_info (Module InherentAlreadyExecuted)), after) ∧
  InherentExecutedThisBlock (on_finalize after) = false.
Proof.
  split; [vm_compute; reflexivity|].
  apply (one_batch_per_block ext NoOrigin batch (pos 7 0) start info after after NoOrigin [] (pos 8 0)
    (Err (with_default_info (Module InherentAlreadyExecuted))) after);
    [vm_compute; reflexivity|constructor|vm_compute; reflexivity|discriminate].
Defined.

Lemma inherent_create_check_agree_witness :
  check_inherent (Call_process_tokens batch (pos 7 0))
    (Decoded (Some {| utxos := batch; next_cardano_position := pos 7 0 |})) = Ok tt.
Proof. apply inherent_create_check_agree; reflexivity. Defined.

Lemma dust_events_balanced_witness :
  ∃ es s', process_utxos (E := unit) ext batch start = (Ok es, s') ∧ length es = 2%nat ∧
  ∃ ds live', Forall2 (λ d b, construct ext d = Some b) ds es ∧
    ledger_replay ∅ ds = Some live' ∧ UtxoOwners s' ⊆ live'.
Proof.
  destruct (process_utxos (E := unit) ext batch start) as [[es| |] s'] eqn:Hp;
    [|vm_compute in Hp; discriminate..].
  exists es, s'. split; [reflexivity|]. split; [vm_compute in Hp; by simplify_eq|].
  apply (dust_events_balanced ext batch start es s' ∅ Hp). reflexivity.
Defined.

Lemma process_tokens_mappings_wf_witness : mappings_wf after.
Proof.
  apply (process_tokens_mappings_wf ext NoOrigin batch (pos 7 0) start (Ok info) after);
    [vm_compute; reflexivity|discriminate|apply cnight_start_wf].
Defined.

Lemma mapping_removed_without_removal_witness :
  ∃ s', handle_registration_removal (E := unit) (hdr 2 [12] [10])
      {| dereg_cardano_reward_address := alice; dereg_dust_public_key := alice_key |} start
    = (Ok tt, s') ∧ (∀ b, mappings_of s' b = mappings_of start b) ∧
  events s' = [MappingRemoved (entry_of alice alice_key (hdr 2 [12] [10]))].
Proof.
  apply (mapping_removed_without_removal (hdr 2 [12] [10])
    {| dereg_cardano_reward_address := alice; dereg_dust_public_key := alice_key |} start).
  intros He. vm_compute in He. inversion He.
Defined.

Lemma process_tokens_weight_within_declared_witness :
  cn_process_tokens (CN_SubstrateWeight db) 4 ≤w process_tokens_weight ext start.
Proof.
  apply (process_tokens_weight_within_declared ext db NoOrigin batch (pos 7 0) start info after);
    [reflexivity|simpl; lia|simpl; lia|vm_compute; reflexivity|reflexivity].
Defined.
