(* ===== verification/FedAuthObservation.v ===== *)
(** * pallet-federated-authority-observation: governance members seen on Cardano

    Models [pallets/federated-authority-observation/src/lib.rs] and the data of
    [primitives/federated-authority-observation/src/lib.rs]: an inherent that
    carries the observed members of the council and of the technical committee,
    and the call [reset_members] that installs them.

    The membership pallets are reached through [ChangeMembers] and
    [SortedMembers], here the class [MembershipHandler]; [Governance] implements
    it the way the runtime does. *)

From Stdlib Require Import Sorting.Sorted.
From stdpp Require Import prelude gmap.
From S2P Require Import Prelude Frame Constants Weights.

Open Scope Z_scope.

(** ** [primitives/federated-authority-observation] *)

(** Account ids, public keys and policy ids are byte strings. *)
Definition AccountId : Type := list Z.
Definition MainchainMember : Type := list Z.

(** [ed25519_to_mainchain_member]: the first 28 bytes of the key. *)
Definition ed25519_to_mainchain_member (public : list Z) : MainchainMember := take 28 public.

Record GovernanceAuthorityDatumR0 : Type :=
  { r0_authorities : list (list Z * MainchainMember); r0_round : Z }.
Inductive GovernanceAuthorityDatums : Type := R0 (d : GovernanceAuthorityDatumR0).
Record AuthoritiesData : Type :=
  { authorities : list (list Z * MainchainMember); round : Z }.
(** [From<GovernanceAuthorityDatums> for AuthoritiesData]. *)
Definition authorities_data_from (datum : GovernanceAuthorityDatums) : AuthoritiesData :=
  match datum with R0 r0 => {| authorities := r0_authorities r0; round := r0_round r0 |} end.
Record FederatedAuthorityData : Type := {
  council_authorities : AuthoritiesData;
  technical_committee_authorities : AuthoritiesData;
  mc_block_hash : list Z;
}.
Inductive InherentError : Type :=
| DecodeFailed
| CouncilMembersMismatch
| TechnicalCommitteeMembersMismatch
| TooManyMembers
| Other (what : list Z).

(** ** The interface to the membership pallets *)

(** [ChangeMembers] and [SortedMembers] of one body: how to read its members, and
    how to install sorted members given the previous ones. *)
Record MembershipHandler (W : Type) : Type := {
  sorted_members : W → list AccountId;
  set_members_sorted : list AccountId → list AccountId → W → W;
}.
Arguments sorted_members {W} _ _.
Arguments set_members_sorted {W} _ _ _ _.

(** What the pallet may assume of the two handlers: at most [max] sorted members
    that are installed can be read back, and a body's members are its own. *)
Class MembershipLaws {W} (council tc : MembershipHandler W) (max_council max_tc : Z) : Prop := {
  council_get_set new w :
    StronglySorted (cmp_le bytes_cmp) new → Z.of_nat (length new) ≤ max_council →
    sorted_members council (set_members_sorted council new (sorted_members council w) w) = new;
  tc_get_set new w :
    StronglySorted (cmp_le bytes_cmp) new → Z.of_nat (length new) ≤ max_tc →
    sorted_members tc (set_members_sorted tc new (sorted_members tc w) w) = new;
  tc_set_council new old w :
    sorted_members tc (set_members_sorted council new old w) = sorted_members tc w;
  council_set_tc new old w :
    sorted_members council (set_members_sorted tc new old w) = sorted_members council w;
}.

(** ** The pallet *)

Inductive Event : Type :=
| CouncilMembersReset (members : list AccountId) (members_mainchain : list MainchainMember)
| TechnicalCommitteeMembersReset (members : list AccountId)
    (members_mainchain : list MainchainMember).

Inductive Error : Type := EmptyMembers | DuplicatedMembers | InherentAlreadyExecuted.

Section FedAuthObservation.
Context {World F : Type}.

Record State : Type := {
  MainChainCouncilAddress : list Z;
  MainChainCouncilPolicyId : list Z;
  MainChainTechnicalCommitteeAddress : list Z;
  MainChainTechnicalCommitteePolicyId : list Z;
  CouncilMainchainMembers : list MainchainMember;
  TechnicalCommitteeMainchainMembers : list MainchainMember;
  InherentExecutedThisBlock : bool;
  events : list Event;
  world : World;
}.

Definition update (f_ca f_cp f_ta f_tp : list Z → list Z)
    (f_cm f_tm : list MainchainMember → list MainchainMember) (f_flag : bool → bool)
    (f_ev : list Event → list Event) (f_w : World → World) (s : State) : State :=
  {| MainChainCouncilAddress := f_ca (MainChainCouncilAddress s);
     MainChainCouncilPolicyId := f_cp (MainChainCouncilPolicyId s);
     MainChainTechnicalCommitteeAddress := f_ta (MainChainTechnicalCommitteeAddress s);
     MainChainTechnicalCommitteePolicyId := f_tp (MainChainTechnicalCommitteePolicyId s);
     CouncilMainchainMembers := f_cm (CouncilMainchainMembers s);
     TechnicalCommitteeMainchainMembers := f_tm (TechnicalCommitteeMainchainMembers s);
     InherentExecutedThisBlock := f_flag (InherentExecutedThisBlock s);
     events := f_ev (events s);
     world := f_w (world s) |}.
Definition set_flag b : State → State := update id id id id id id (λ _, b) id id.
Definition set_council_mainchain l : State → State := update id id id id (λ _, l) id id id id.
Definition set_tc_mainchain l : State → State := update id id id id id (λ _, l) id id id.
Definition map_world f : State → State := update id id id id id id id id f.
Definition deposit_event {E} (e : Event) : M State E unit :=
  modify (update id id id id id id id (λ l, l ++ [e]) id).

Record Config : Type := {
  CouncilMaxMembers : Z;
  TechnicalCommitteeMaxMembers : Z;
  CouncilMembershipHandler : MembershipHandler World;
  TechnicalCommitteeMembershipHandler : MembershipHandler World;
  WeightInfo : FAO_WeightInfo;
  (** [T::AccountId::decode]. *)
  decode_account : list Z → option AccountId;
}.
Context (T : Config).

(** [sort_by(|a, b| a.0.cmp(&b.0))]. *)
Definition pair_cmp (a b : AccountId * MainchainMember) : comparison := bytes_cmp (fst a) (fst b).

Definition has_duplicated_members (members : list (AccountId * MainchainMember)) : bool :=
  let ids := members.*1 in
  let members_set : gset (list Z) := list_to_set ids in
  negb (bool_decide (size members_set = length ids)).

(** *** [reset_members] *)

(** The state changes for one body, a block the source has once for each of the
    two: install the members when they differ from the current ones, store the
    main chain identifiers when they differ, and report either.  The result says
    whether anything changed. *)
Definition reset_body {E} (h : MembershipHandler World) (max : Z)
    (get_mainchain : State → list MainchainMember)
    (set_mainchain : list MainchainMember → State → State)
    (event : list AccountId → list MainchainMember → Event)
    (members : list AccountId) (mainchain_members : list MainchainMember) : M State E bool :=
  current_members ← gets (λ s, sorted_members h (world s));
  let members_have_changed := bool_decide (current_members ≠ members) in
  (if members_have_changed
   then modify (map_world (set_members_sorted h members current_members)) else mret tt) ;;
  current_mainchain_members ← gets get_mainchain;
  let mainchain_members_have_changed := bool_decide (current_mainchain_members ≠ mainchain_members) in
  bound ← expect (bounded_try_from max mainchain_members);
  (if mainchain_members_have_changed then modify (set_mainchain bound) else mret tt) ;;
  let has_changed := members_have_changed || mainchain_members_have_changed in
  (if has_changed then deposit_event (event members mainchain_members) else mret tt) ;;
  mret has_changed.

Definition reset_council {E} : list AccountId → list MainchainMember → M State E bool :=
  reset_body (CouncilMembershipHandler T) (CouncilMaxMembers T)
    CouncilMainchainMembers set_council_mainchain CouncilMembersReset.
Definition reset_technical_committee {E} : list AccountId → list MainchainMember → M State E bool :=
  reset_body (TechnicalCommitteeMembershipHandler T) (TechnicalCommitteeMaxMembers T)
    TechnicalCommitteeMainchainMembers set_tc_mainchain TechnicalCommitteeMembersReset.

Definition no_fee (w : Weight) : PostDispatchInfo :=
  {| actual_weight := Some w; pays_fee := PaysNo |}.

Definition reset_members_body (origin : RawOrigin Z)
    (council tc : list (AccountId * MainchainMember)) :
    M State (ErrorWithPostInfo Error F) PostDispatchInfo :=
  into_post_info (ensure_none origin) ;;
  executed ← gets InherentExecutedThisBlock;
  ensure (negb executed) (with_default_info (Module InherentAlreadyExecuted)) ;;
  modify (set_flag true) ;;
  let council_pairs := sort_by pair_cmp council in
  let council_members := council_pairs.*1 in
  let council_mainchain_members := council_pairs.*2 in
  let tc_pairs := sort_by pair_cmp tc in
  let technical_committee_members := tc_pairs.*1 in
  let technical_committee_mainchain_members := tc_pairs.*2 in
  let council_members_len := Z.of_nat (length council_members) in
  let technical_committee_members_len := Z.of_nat (length technical_committee_members) in
  let early_return :=
    no_fee (fao_reset_members_none (WeightInfo T) council_members_len
              technical_committee_members_len) in
  (* duplicated members are logged and accepted *)
  if bool_decide (council_members = []) then mret early_return
  else if bool_decide (council_mainchain_members = []) then mret early_return
  else if bool_decide (technical_committee_members = []) then mret early_return
  else if bool_decide (technical_committee_mainchain_members = []) then mret early_return
  else
    council_has_changed ← reset_council council_members council_mainchain_members;
    let actual_weight :=
      if council_has_changed : bool
      then saturating_add weight_zero (fao_reset_members_only_council (WeightInfo T)
             council_members_len technical_committee_members_len)
      else weight_zero in
    technical_committee_has_changed ←
      reset_technical_committee technical_committee_members technical_committee_mainchain_members;
    let actual_weight :=
      if technical_committee_has_changed : bool
      then saturating_add actual_weight (fao_reset_members_only_technical_committee (WeightInfo T)
             council_members_len technical_committee_members_len)
      else actual_weight in
    mret (if negb council_has_changed && negb technical_committee_has_changed
          then early_return else no_fee actual_weight).

Context `{StorageLayers}.

Definition reset_members (origin : RawOrigin Z) (council tc : list (AccountId * MainchainMember)) :=
  with_storage_layer (reset_members_body origin council tc).

Definition reset_members_weight : Weight :=
  fao_reset_members (WeightInfo T) (CouncilMaxMembers T) (TechnicalCommitteeMaxMembers T).

(** *** The setters, all for [Root] *)

Definition set_council_address (origin : RawOrigin Z) (address : list Z) :
    M State (DispatchError Error F) unit :=
  with_storage_layer (ensure_root origin ;;
    modify (update (λ _, address) id id id id id id id id)).
Definition set_council_policy_id (origin : RawOrigin Z) (policy_id : list Z) :
    M State (DispatchError Error F) unit :=
  with_storage_layer (ensure_root origin ;;
    modify (update id (λ _, policy_id) id id id id id id id)).
Definition set_technical_committee_address (origin : RawOrigin Z) (address : list Z) :
    M State (DispatchError Error F) unit :=
  with_storage_layer (ensure_root origin ;;
    modify (update id id (λ _, address) id id id id id id)).
Definition set_technical_committee_policy_id (origin : RawOrigin Z) (policy_id : list Z) :
    M State (DispatchError Error F) unit :=
  with_storage_layer (ensure_root origin ;;
    modify (update id id id (λ _, policy_id) id id id id id)).

Definition on_initialize (db : RuntimeDbWeight) : Weight := writes db 1.
Definition on_finalize (s : State) : State := set_flag false s.

(** *** Inherents *)

Inductive Call : Type :=
| Call_reset_members (council tc : list (AccountId * MainchainMember))
| Call_other.

(** What is stored under the pallet's inherent identifier: bytes that do not
    decode, nothing, or the observed data. *)
Inductive InherentData : Type :=
| Undecodable
| Decoded (d : option FederatedAuthorityData).

Definition get_data_from_inherent_data (d : InherentData) :
    outcome InherentError (option FederatedAuthorityData) :=
  match d with Undecodable => Err DecodeFailed | Decoded x => Ok x end.

(** [collect::<Result<Vec<_>, _>>()] of the decoded keys. *)
Fixpoint decode_members (l : list (list Z * MainchainMember)) :
    outcome InherentError (list (AccountId * MainchainMember)) :=
  match l with
  | [] => Ok []
  | (key, mainchain_member) :: l =>
      match decode_account T key with
      | Some account_id => rest ← decode_members l; mret ((account_id, mainchain_member) :: rest)
      | None => Err DecodeFailed
      end
  end.
Definition decode_auth_members (max : Z) (auth_data : list (list Z * MainchainMember)) :
    outcome InherentError (list (AccountId * MainchainMember)) :=
  members ← decode_members auth_data;
  ok_or (bounded_try_from max members) TooManyMembers.

(** [.ok()] *)
Definition ok {E A} (r : outcome E A) : option A :=
  match r with Ok a => Some a | _ => None end.

Definition create_inherent (d : InherentData) : option Call :=
  fed_auth_data ← (match get_data_from_inherent_data d with Ok x => x | _ => None end);
  council ← ok (decode_auth_members (CouncilMaxMembers T)
                  (authorities (council_authorities fed_auth_data)));
  tc ← ok (decode_auth_members (TechnicalCommitteeMaxMembers T)
             (authorities (technical_committee_authorities fed_auth_data)));
  let has_empty_members := bool_decide (council = []) || bool_decide (tc = []) in
  let has_duplicated := has_duplicated_members council || has_duplicated_members tc in
  if negb has_empty_members && negb has_duplicated
  then Some (Call_reset_members council tc) else None.

Definition is_inherent (c : Call) : bool :=
  match c with Call_reset_members _ _ => true | _ => false end.

Definition check_inherent (c : Call) (d : InherentData) : outcome InherentError unit :=
  x ← get_data_from_inherent_data d;
  match x with
  | Some fed_auth_data =>
      council ← decode_auth_members (CouncilMaxMembers T)
                  (authorities (council_authorities fed_auth_data));
      tc ← decode_auth_members (TechnicalCommitteeMaxMembers T)
             (authorities (technical_committee_authorities fed_auth_data));
      match c with
      | Call_reset_members expected_council expected_tc =>
          if bool_decide (council ≠ expected_council) then Err CouncilMembersMismatch
          else if bool_decide (tc ≠ expected_tc) then Err TechnicalCommitteeMembersMismatch
          else Ok tt
      | _ => Ok tt
      end
  | None => Ok tt
  end.

(** *** Genesis *)

Record GenesisConfig : Type := {
  g_council_address : list Z;
  g_council_policy_id : list Z;
  g_technical_committee_address : list Z;
  g_technical_committee_policy_id : list Z;
  council_members_mainchain : list MainchainMember;
  technical_committee_members_mainchain : list MainchainMember;
}.
Definition build (g : GenesisConfig) (w : World) : outcome Empty_set State :=
  match bounded_try_from (CouncilMaxMembers T) (council_members_mainchain g),
        bounded_try_from (TechnicalCommitteeMaxMembers T) (technical_committee_members_mainchain g) with
  | Some council, Some tc =>
      Ok {| MainChainCouncilAddress := g_council_address g;
            MainChainCouncilPolicyId := g_council_policy_id g;
            MainChainTechnicalCommitteeAddress := g_technical_committee_address g;
            MainChainTechnicalCommitteePolicyId := g_technical_committee_policy_id g;
            CouncilMainchainMembers := council;
            TechnicalCommitteeMainchainMembers := tc;
            InherentExecutedThisBlock := false; events := []; world := w |}
  | _, _ => Panic
  end.

(** *** Lemmas *)

Definition add_events (l : list Event) : State → State :=
  update id id id id id id id (λ es, es ++ l) id.

(** Installing the members of one body, as a function of the state. *)
Definition install (h : MembershipHandler World) (get : State → list MainchainMember)
    (set : list MainchainMember → State → State)
    (event : list AccountId → list MainchainMember → Event)
    (members : list AccountId) (mc : list MainchainMember) (s : State) : bool * State :=
  let current := sorted_members h (world s) in
  if decide (current = members ∧ get s = mc) then (false, s)
  else (true, add_events [event members mc]
                (set mc (map_world (if decide (current = members) then id
                                    else set_members_sorted h members current) s))).

Definition install_council := install (CouncilMembershipHandler T)
  CouncilMainchainMembers set_council_mainchain CouncilMembersReset.
Definition install_tc := install (TechnicalCommitteeMembershipHandler T)
  TechnicalCommitteeMainchainMembers set_tc_mainchain TechnicalCommitteeMembersReset.

Lemma state_eta (s : State) :
  update id id id id id id id id id s = s.
Proof. by destruct s. Qed.

(** The two blocks of the source compute [install]. *)
Ltac solve_install :=
  unfold reset_body, install; mrun;
  match goal with |- context [bounded_try_from ?m ?mc] =>
    assert (bounded_try_from m mc = Some mc) as -> by (by apply bounded_try_from_Some) end;
  match goal with |- context [decide (?c = ?m ∧ ?g = ?mc)] =>
    destruct (decide (c = m)) as [<-|Hc], (decide (g = mc)) as [<-|Hg] end;
  repeat first
    [ rewrite (bool_decide_eq_false_2 (_ ≠ _)) by (by intros [])
    | rewrite (bool_decide_eq_true_2 (_ ≠ _)) by done
    | rewrite decide_True by tauto | rewrite decide_False by tauto | progress mrun ];
  done.

Lemma reset_council_eq {E} members mc s :
  Z.of_nat (length mc) ≤ CouncilMaxMembers T →
  reset_council (E := E) members mc s =
    (Ok (fst (install_council members mc s)), snd (install_council members mc s)).
Proof. intros Hb. unfold reset_council, install_council. destruct s. solve_install. Qed.

Lemma reset_tc_eq {E} members mc s :
  Z.of_nat (length mc) ≤ TechnicalCommitteeMaxMembers T →
  reset_technical_committee (E := E) members mc s =
    (Ok (fst (install_tc members mc s)), snd (install_tc members mc s)).
Proof. intros Hb. unfold reset_technical_committee, install_tc. destruct s. solve_install. Qed.

Lemma sort_pairs_nil l : (sort_by pair_cmp l).*1 = [] ↔ l = [].
Proof.
  split; [|by intros ->]. intros Hl. apply fmap_nil_inv in Hl.
  pose proof (sort_by_length pair_cmp l) as Hlen. rewrite Hl in Hlen. by destruct l.
Qed.
Lemma sort_pairs_nil2 l : (sort_by pair_cmp l).*2 = [] ↔ l = [].
Proof.
  split; [|by intros ->]. intros Hl. apply fmap_nil_inv in Hl.
  pose proof (sort_by_length pair_cmp l) as Hlen. rewrite Hl in Hlen. by destruct l.
Qed.
Lemma sort_pairs_len2 l : length (sort_by pair_cmp l).*2 = length l.
Proof. by rewrite length_fmap, sort_by_length. Qed.

(** The members of a list of pairs, in the order they are installed. *)
Definition ids (l : list (AccountId * MainchainMember)) : list AccountId := (sort_by pair_cmp l).*1.
Definition mcs (l : list (AccountId * MainchainMember)) : list MainchainMember :=
  (sort_by pair_cmp l).*2.

Definition reported (council tc : list (AccountId * MainchainMember)) (cc tcc : bool) : Weight :=
  let a := Z.of_nat (length (ids council)) in let b := Z.of_nat (length (ids tc)) in
  let w := if cc then saturating_add weight_zero (fao_reset_members_only_council (WeightInfo T) a b)
           else weight_zero in
  let w := if tcc then saturating_add w (fao_reset_members_only_technical_committee (WeightInfo T) a b)
           else w in
  if negb cc && negb tcc then fao_reset_members_none (WeightInfo T) a b else w.

(** The call arguments are bounded vectors. *)
Definition bounded (council tc : list (AccountId * MainchainMember)) : Prop :=
  Z.of_nat (length council) ≤ CouncilMaxMembers T ∧
  Z.of_nat (length tc) ≤ TechnicalCommitteeMaxMembers T.

(** What the body does past its guards. *)
Definition reset_result (council tc : list (AccountId * MainchainMember)) (s : State) :
    outcome (ErrorWithPostInfo Error F) PostDispatchInfo * State :=
  if decide (council = [] ∨ tc = [])
  then (Ok (no_fee (reported council tc false false)), set_flag true s)
  else
    let '(cc, s1) := install_council (ids council) (mcs council) (set_flag true s) in
    let '(tcc, s2) := install_tc (ids tc) (mcs tc) s1 in
    (Ok (no_fee (reported council tc cc tcc)), s2).

Lemma reset_members_body_eq council tc s :
  bounded council tc → InherentExecutedThisBlock s = false →
  reset_members_body NoOrigin council tc s = reset_result council tc s.
Proof.
  intros [Hc Ht] Hf. unfold reset_members_body, into_post_info, with_err, ensure_none; mrun.
  rewrite Hf; mrun. unfold reset_result. case_decide as Hnil.
  { case_bool_decide as H1; [done|]. case_bool_decide as H2; [done|]. case_bool_decide as H3; [done|].
    exfalso. rewrite sort_pairs_nil in H1, H3. tauto. }
  rewrite bool_decide_eq_false_2 by (rewrite sort_pairs_nil; tauto).
  rewrite bool_decide_eq_false_2 by (rewrite sort_pairs_nil2; tauto).
  rewrite bool_decide_eq_false_2 by (rewrite sort_pairs_nil; tauto).
  rewrite bool_decide_eq_false_2 by (rewrite sort_pairs_nil2; tauto).
  mrun. rewrite reset_council_eq by (by rewrite sort_pairs_len2). fold (ids council). fold (mcs council).
  destruct (install_council _ _ _) as [cc s1]; simpl.
  rewrite reset_tc_eq by (by rewrite sort_pairs_len2). fold (ids tc). fold (mcs tc).
  destruct (install_tc _ _ _) as [tcc s2]; simpl. by destruct cc, tcc.
Qed.

Lemma reset_members_eq o council tc s :
  bounded council tc →
  reset_members o council tc s =
  match o with
  | NoOrigin =>
      if InherentExecutedThisBlock s
      then (Err (with_default_info (Module InherentAlreadyExecuted)), s)
      else reset_result council tc s
  | _ => (Err (with_default_info BadOrigin), s)
  end.
Proof.
  intros Hb. unfold reset_members.
  assert (∀ e s', reset_members_body o council tc s = (Err e, s') →
    with_storage_layer (reset_members_body o council tc) s = (Err e, s)) as Herr
    by (intros; by eapply layer_rollback).
  destruct o; try (eapply Herr; reflexivity).
  destruct (InherentExecutedThisBlock s) eqn:Hf.
  - eapply Herr. unfold reset_members_body, into_post_info, with_err, ensure_none; mrun.
    by rewrite Hf.
  - assert (∃ i s', reset_result council tc s = (Ok i, s')) as (i & s' & Hr).
    { unfold reset_result. case_decide; [eauto|].
      destruct (install_council _ _ _), (install_tc _ _ _); eauto. }
    rewrite Hr. apply layer_commit. by rewrite reset_members_body_eq.
Qed.

(** What installing a body leaves behind. *)
Lemma install_council_same members mc s :
  sorted_members (CouncilMembershipHandler T) (world s) = members →
  CouncilMainchainMembers s = mc → install_council members mc s = (false, s).
Proof. intros. unfold install_council, install. by rewrite decide_True. Qed.
Lemma install_tc_same members mc s :
  sorted_members (TechnicalCommitteeMembershipHandler T) (world s) = members →
  TechnicalCommitteeMainchainMembers s = mc → install_tc members mc s = (false, s).
Proof. intros. unfold install_tc, install. by rewrite decide_True. Qed.

Context {Hlaws : MembershipLaws (CouncilMembershipHandler T)
  (TechnicalCommitteeMembershipHandler T) (CouncilMaxMembers T) (TechnicalCommitteeMaxMembers T)}.

#[local] Instance pair_cmp_total : TotalCmp pair_cmp.
Proof. apply (key_cmp_total fst), _. Qed.

Lemma ids_sorted l : StronglySorted (cmp_le bytes_cmp) (ids l).
Proof.
  unfold ids. pose proof (sort_by_sorted pair_cmp l) as Hs.
  induction Hs as [|x k Hk IH Hx]; simpl; constructor; [done|].
  clear -Hx. induction Hx; simpl; by constructor.
Qed.
Lemma ids_length l : length (ids l) = length l.
Proof. unfold ids. by rewrite length_fmap, sort_by_length. Qed.

(** The members on record. *)
Definition council_on_record (s : State) : list AccountId * list MainchainMember :=
  (sorted_members (CouncilMembershipHandler T) (world s), CouncilMainchainMembers s).
Definition tc_on_record (s : State) : list AccountId * list MainchainMember :=
  (sorted_members (TechnicalCommitteeMembershipHandler T) (world s),
   TechnicalCommitteeMainchainMembers s).

Lemma install_council_spec council s :
  Z.of_nat (length council) ≤ CouncilMaxMembers T →
  let s' := snd (install_council (ids council) (mcs council) s) in
  council_on_record s' = (ids council, mcs council) ∧ tc_on_record s' = tc_on_record s.
Proof.
  intros Hl. unfold install_council, install, council_on_record, tc_on_record.
  case_decide as Hd; simpl; [destruct Hd as [-> ->]; done|].
  case_decide as Hc; simpl; [by rewrite Hc|].
  rewrite council_get_set, tc_set_council; [done|apply ids_sorted|by rewrite ids_length].
Qed.
Lemma install_tc_spec tc s :
  Z.of_nat (length tc) ≤ TechnicalCommitteeMaxMembers T →
  let s' := snd (install_tc (ids tc) (mcs tc) s) in
  tc_on_record s' = (ids tc, mcs tc) ∧ council_on_record s' = council_on_record s.
Proof.
  intros Hl. unfold install_tc, install, council_on_record, tc_on_record.
  case_decide as Hd; simpl; [destruct Hd as [-> ->]; done|].
  case_decide as Hc; simpl; [by rewrite Hc|].
  rewrite tc_get_set, council_set_tc; [done|apply ids_sorted|by rewrite ids_length].
Qed.

(** Equal up to order, without a duplicated account: installed alike. *)
Lemma sort_pairs_perm l k :
  NoDup l.*1 → l ≡ₚ k → sort_by pair_cmp l = sort_by pair_cmp k.
Proof.
  intros Hnd Hp. apply (sort_by_unique pair_cmp); [|done].
  intros [a m] [b n] Ha Hb Heq. unfold pair_cmp in Heq; simpl in Heq.
  apply bytes_cmp_eq in Heq as <-. f_equal.
  apply list_elem_of_lookup in Ha as [i Hi]. apply list_elem_of_lookup in Hb as [j Hj].
  assert (i = j) as ->; [|congruence].
  eapply (NoDup_lookup l.*1); [done|by rewrite list_lookup_fmap, Hi|by rewrite list_lookup_fmap, Hj].
Qed.

(** *** Properties *)

(** [reset_members] installs what was observed.  Given non-empty bounded
    lists, the first inherent of the block leaves on record, for each body, the
    accounts in ascending order and, position by position, the main chain
    identifier observed with each of them (zipped back together they are a
    permutation of the argument), and nothing else of the pallet's configuration
    changes. *)
Theorem reset_members_installs council tc s :
  bounded council tc → council ≠ [] → tc ≠ [] → InherentExecutedThisBlock s = false →
  ∃ info s' cm cmc tm tmc, reset_members NoOrigin council tc s = (Ok info, s') ∧
    council_on_record s' = (cm, cmc) ∧ tc_on_record s' = (tm, tmc) ∧
    StronglySorted (cmp_le bytes_cmp) cm ∧ StronglySorted (cmp_le bytes_cmp) tm ∧
    zip cm cmc ≡ₚ council ∧ zip tm tmc ≡ₚ tc ∧ InherentExecutedThisBlock s' = true.
Proof.
  intros [Hc Ht] Hnc Hnt Hf. rewrite reset_members_eq by done. rewrite Hf.
  unfold reset_result. rewrite decide_False by tauto.
  destruct (install_council_spec council (set_flag true s) Hc) as [Hcr _].
  destruct (install_council _ _ _) as [cc s1] eqn:E1; simpl in *.
  destruct (install_tc_spec tc s1 Ht) as [Htr Hcr'].
  destruct (install_tc _ _ _) as [tcc s2] eqn:E2; simpl in *.
  assert (InherentExecutedThisBlock s2 = true) as Hflag.
  { revert E1 E2. unfold install_council, install_tc, install.
    repeat case_decide; intros; by simplify_eq/=. }
  eexists _, s2, (ids council), (mcs council), (ids tc), (mcs tc).
  split_and!; [done|congruence|done|apply ids_sorted|apply ids_sorted| | |done];
    (unfold ids, mcs; rewrite zip_fst_snd; apply sort_by_perm).
Qed.

(** observing the same members again changes nothing.  After a reset with
    lists free of duplicated accounts, an inherent of a later block that carries
    the same pairs in any order leaves the whole state as it is, but for the
    flag that an inherent ran: no event, no write to the memberships, and the
    weight of the no-change case. *)
Theorem reset_members_idempotent council tc council' tc' s info s1 :
  bounded council tc → NoDup council.*1 → NoDup tc.*1 → council ≠ [] → tc ≠ [] →
  council' ≡ₚ council → tc' ≡ₚ tc →
  reset_members NoOrigin council tc s = (Ok info, s1) →
  reset_members NoOrigin council' tc' (on_finalize s1) =
    (Ok (no_fee (fao_reset_members_none (WeightInfo T)
           (Z.of_nat (length council)) (Z.of_nat (length tc)))), s1).
Proof.
  intros [Hc Ht] Hdc Hdt Hnc Hnt Hpc Hpt Hr.
  rewrite reset_members_eq in Hr by done.
  destruct (InherentExecutedThisBlock s) eqn:Hf; [done|].
  unfold reset_result in Hr. rewrite decide_False in Hr by tauto.
  destruct (install_council_spec council (set_flag true s) Hc) as [Hcr _].
  destruct (install_council _ _ _) as [cc s2] eqn:E1; simpl in *.
  destruct (install_tc_spec tc s2 Ht) as [Htr Hcr'].
  destruct (install_tc _ _ _) as [tcc s3] eqn:E2; simplify_eq/=.
  assert (set_flag true (on_finalize s1) = s1) as Hs1.
  { assert (InherentExecutedThisBlock s1 = true) as Hflag.
    { revert E1 E2. unfold install_council, install_tc, install.
      repeat case_decide; intros; by simplify_eq/=. }
    destruct s1; simpl in *; by subst. }
  assert (bounded council' tc') as Hb by (split; by rewrite ?Hpc, ?Hpt).
  rewrite reset_members_eq by done. simpl. unfold reset_result.
  assert (council' ≠ []) as Hnc' by (intros ->; by apply Permutation_nil_l in Hpc).
  assert (tc' ≠ []) as Hnt' by (intros ->; by apply Permutation_nil_l in Hpt).
  rewrite decide_False by tauto. rewrite Hs1.
  injection Hcr as Hci Hcm. injection Htr as Hti Htm.
  assert (∀ l l', NoDup l.*1 → l' ≡ₚ l → ids l' = ids l ∧ mcs l' = mcs l) as Hsame.
  { intros l l' ??. unfold ids, mcs. by rewrite (sort_pairs_perm l l'). }
  destruct (Hsame council council') as [-> ->]; [done..|].
  destruct (Hsame tc tc') as [Hi' Hm']; [done..|]. rewrite Hi', Hm'.
  rewrite install_council_same by congruence. rewrite install_tc_same by done.
  unfold reported; simpl. by rewrite !ids_length, Hpc, Hpt.
Qed.

Lemma install_events h get set ev members mc s :
  (∀ l s, events (set l s) = events s) →
  events (snd (install h get set ev members mc s)) = events s ++
    (if decide ((sorted_members h (world s), get s) = (members, mc)) then [] else [ev members mc]).
Proof.
  intros Hset. unfold install.
  destruct (decide ((sorted_members h (world s), get s) = (members, mc))) as [[= <- <-]|Hne].
  - rewrite decide_True by done. simpl. by rewrite app_nil_r.
  - rewrite decide_False by (by intros [<- <-]). simpl. by rewrite Hset.
Qed.

(** guards and no-ops of [reset_members].  A call with an origin, or after
    the inherent of the block has run, fails and changes nothing; a call in which
    a body has no member succeeds but only marks the inherent as run; otherwise
    the log grows by a reset event for exactly those bodies whose record changes,
    carrying the new record. *)
Theorem reset_members_effects o council tc s r s' :
  bounded council tc → reset_members o council tc s = (r, s') →
  match r with
  | Ok _ =>
      o = NoOrigin ∧ InherentExecutedThisBlock s = false ∧
      (if decide (council = [] ∨ tc = []) then s' = set_flag true s
       else events s' = events s
         ++ (if decide (council_on_record s = (ids council, mcs council)) then []
             else [CouncilMembersReset (ids council) (mcs council)])
         ++ (if decide (tc_on_record s = (ids tc, mcs tc)) then []
             else [TechnicalCommitteeMembersReset (ids tc) (mcs tc)]))
  | Err _ => s' = s ∧ (o ≠ NoOrigin ∨ InherentExecutedThisBlock s = true)
  | Panic => False
  end.
Proof.
  intros Hb Hr. rewrite reset_members_eq in Hr by done.
  destruct o; [simplify_eq; naive_solver|simplify_eq; naive_solver|].
  destruct (InherentExecutedThisBlock s) eqn:Hf; [simplify_eq; naive_solver|].
  unfold reset_result in Hr. case_decide as Hnil; [by simplify_eq|].
  destruct (install_council_spec council (set_flag true s) (proj1 Hb)) as [_ Htc].
  destruct (install_council _ _ _) as [cc s1] eqn:E1; simpl in *.
  destruct (install_tc _ _ _) as [tcc s2] eqn:E2. injection Hr as <- <-. split_and!; try done.
  pose proof (install_events (CouncilMembershipHandler T) CouncilMainchainMembers
    set_council_mainchain CouncilMembersReset (ids council) (mcs council) (set_flag true s)) as He1.
  pose proof (install_events (TechnicalCommitteeMembershipHandler T)
    TechnicalCommitteeMainchainMembers set_tc_mainchain TechnicalCommitteeMembersReset
    (ids tc) (mcs tc) s1) as He2.
  unfold install_council in E1. unfold install_tc in E2. rewrite E1 in He1. rewrite E2 in He2.
  simpl in *. rewrite He2, He1 by done. rewrite <- app_assoc.
  change (tc_on_record s) with (tc_on_record (set_flag true s)). by rewrite <- Htc.
Qed.

Lemma has_duplicated_members_NoDup l : has_duplicated_members l = false ↔ NoDup l.*1.
Proof.
  clear Hlaws. unfold has_duplicated_members. rewrite negb_false_iff, bool_decide_eq_true.
  induction (l.*1) as [|x k IH]; [split; [constructor|done]|].
  rewrite NoDup_cons, <- IH. cbn [list_to_set length]. split.
  - intros Hs. pose proof (size_list_to_set_le (A := list Z) k) as Hk.
    destruct (decide (x ∈ k)) as [Hx|Hx].
    + assert ({[x]} ∪ list_to_set k = list_to_set (C := gset (list Z)) k) as Heq by set_solver.
      rewrite Heq in Hs. exfalso. apply (Nat.nle_succ_diag_l (length k)). etrans; [|exact Hk]. by apply Nat.eq_le_incl.
    + rewrite size_union, size_singleton in Hs by set_solver. split; [done|lia].
  - intros [Hx Hk]. rewrite size_union, size_singleton by set_solver. lia.
Qed.

Lemma create_inherent_checked d c : create_inherent d = Some c → check_inherent c d = Ok tt.
Proof.
  unfold create_inherent, check_inherent. destruct d as [|[x|]]; simpl; try done.
  destruct (decode_auth_members (CouncilMaxMembers T) _) as [council| |]; simpl; try done.
  destruct (decode_auth_members (TechnicalCommitteeMaxMembers T) _) as [tc| |]; simpl; try done.
  destruct (_ && _); [|done]. intros [= <-]. unfold mbind, outcome_bind; simpl.
  by rewrite bool_decide_eq_false_2, bool_decide_eq_false_2 by (by intros []).
Qed.

(** an inherent that an author creates is well formed and passes the check
    of every verifier with the same data: neither body is empty, neither has a
    duplicated account, both fit their bounds, and [check_inherent] accepts it;
    conversely the only [reset_members] calls a verifier accepts for given data
    are the decoded data itself. *)
Theorem created_inherent_passes_check fed d c :
  (create_inherent d = Some c →
     check_inherent c d = Ok tt ∧
     ∃ council tc, c = Call_reset_members council tc ∧ council ≠ [] ∧ tc ≠ [] ∧
       NoDup council.*1 ∧ NoDup tc.*1 ∧ bounded council tc) ∧
  (∀ council tc, d = Decoded (Some fed) → check_inherent (Call_reset_members council tc) d = Ok tt →
     decode_auth_members (CouncilMaxMembers T) (authorities (council_authorities fed)) = Ok council ∧
     decode_auth_members (TechnicalCommitteeMaxMembers T)
       (authorities (technical_committee_authorities fed)) = Ok tc).
Proof.
  clear Hlaws. assert (∀ max l k, decode_auth_members max l = Ok k → Z.of_nat (length k) ≤ max) as Hlen.
  { intros max l k. unfold decode_auth_members. unfold mbind, outcome_bind.
    destruct (decode_members l) as [m| |]; try done. unfold ok_or.
    destruct (bounded_try_from max m) eqn:Hb; [|done].
    apply bounded_try_from_Some in Hb as [-> ?]. intros; by simplify_eq. }
  split.
  - intros Hcreate. split; [by apply create_inherent_checked|]. revert Hcreate.
    unfold create_inherent. destruct d as [|[x|]]; simpl; try done.
    destruct (decode_auth_members (CouncilMaxMembers T) _) as [council| |] eqn:Hc; simpl; try done.
    destruct (decode_auth_members (TechnicalCommitteeMaxMembers T) _) as [tc| |] eqn:Ht; simpl; try done.
    destruct (_ && _) eqn:Hb; [|done]. intros [= <-].
    apply andb_true_iff in Hb as [He Hd].
    rewrite negb_true_iff, orb_false_iff, !bool_decide_eq_false in He.
    rewrite negb_true_iff, orb_false_iff, !has_duplicated_members_NoDup in Hd.
    exists council, tc. destruct He, Hd. split_and!; try done. split; by eapply Hlen.
  - intros council tc ->. unfold check_inherent, mbind, outcome_bind; simpl.
    destruct (decode_auth_members (CouncilMaxMembers T) _) as [council'| |]; try done.
    destruct (decode_auth_members (TechnicalCommitteeMaxMembers T) _) as [tc'| |]; try done.
    case_bool_decide; [done|]. case_bool_decide; [done|]. intros _. by subst.
Qed.
End FedAuthObservation.
