(* ===== verification/Governance.v ===== *)
(** * Governance wiring of the runtime

    Models [runtime/common/src/governance.rs]: the adapters between the
    observation pallet, the membership pallets and the collectives.
    [pallet_membership], [pallet_collective] and [frame_system]'s reference
    counters are dependencies: they appear as records of operations with classes
    that state their documented behaviour.

    The first part discharges [MembershipLaws], the interface
    [FedAuthObservation] is verified against, for the runtime's
    [MembershipObservationHandler]; the second shows that [MembershipHandler]
    keeps the accounts' reference counters in step with the memberships. *)

From Stdlib Require Import Sorting.Sorted.
From stdpp Require Import prelude gmap.
From S2P Require Import Prelude Frame Constants Weights FedAuthObservation.

Open Scope Z_scope.

(** ** [MembershipObservationHandler] *)

(** One instance of [pallet_membership]: its [Members] and its [reset_members],
    dispatched with [RawOrigin::None] as the runtime configures [ResetOrigin]. *)
Record MembershipPallet (W : Type) : Type := {
  Members : W → list AccountId;
  pallet_reset_members : list AccountId → M W unit unit;
}.
Arguments Members {W} _ _.
Arguments pallet_reset_members {W} _ _ _.

(** Documented behaviour: resetting to at most [max] sorted members succeeds and
    stores them; a failed dispatch leaves the state alone. *)
Class MembershipPalletSpec {W} (p : MembershipPallet W) (max : Z) : Prop := {
  pallet_reset_ok l w :
    StronglySorted (cmp_le bytes_cmp) l → Z.of_nat (length l) ≤ max →
    ∃ w', pallet_reset_members p l w = (Ok tt, w') ∧ Members p w' = l;
}.
(** Two instances keep their members in storage of their own. *)
Class MembershipPalletFrame {W} (p q : MembershipPallet W) : Prop := {
  pallet_reset_frame l w r w' : pallet_reset_members p l w = (r, w') → Members q w' = Members q w;
}.

Section Observation.
Context {W : Type} (p : MembershipPallet W).
(** [ChangeMembers::compute_members_diff_sorted], whose result the handler
    ignores. *)
Context (compute_members_diff_sorted :
  list AccountId → list AccountId → list AccountId * list AccountId).

(** [MembershipObservationHandler::change_members_sorted]: the outcome of the
    dispatch is dropped. *)
Definition observation_change_members_sorted
    (_incoming _outgoing sorted_new : list AccountId) (w : W) : W :=
  let '(_, w') := pallet_reset_members p sorted_new w in w'.

(** [ChangeMembers::set_members_sorted], the trait's provided method. *)
Definition observation_set_members_sorted (new old : list AccountId) (w : W) : W :=
  let '(incoming, outgoing) := compute_members_diff_sorted new old in
  observation_change_members_sorted incoming outgoing new w.

(** [SortedMembers::sorted_members] and [count]. *)
Definition observation_sorted_members (w : W) : list AccountId := Members p w.
Definition observation_count (w : W) : Z := Z.of_nat (length (Members p w)).

Definition MembershipObservationHandler : MembershipHandler W := {|
  sorted_members := observation_sorted_members;
  set_members_sorted := observation_set_members_sorted;
|}.

Lemma observation_set_eq new old w :
  observation_set_members_sorted new old w = snd (pallet_reset_members p new w).
Proof.
  unfold observation_set_members_sorted, observation_change_members_sorted.
  destruct (compute_members_diff_sorted new old). by destruct (pallet_reset_members p new w).
Qed.
End Observation.

(** The runtime's two handlers meet the laws the observation pallet relies on, as
    long as the bounds of the observation pallet do not exceed those of the
    membership pallets. *)
#[export] Instance observation_handler_laws {W} (council tc : MembershipPallet W) diff
    (max_council max_tc : Z)
    `{!MembershipPalletSpec council max_council, !MembershipPalletSpec tc max_tc}
    `{!MembershipPalletFrame council tc, !MembershipPalletFrame tc council} :
  MembershipLaws (MembershipObservationHandler council diff) (MembershipObservationHandler tc diff)
    max_council max_tc.
Proof.
  split; intros *; simpl; rewrite observation_set_eq; unfold observation_sorted_members.
  - intros Hs Hl. by destruct (pallet_reset_ok new w Hs Hl) as (w' & -> & ?).
  - intros Hs Hl. by destruct (pallet_reset_ok new w Hs Hl) as (w' & -> & ?).
  - destruct (pallet_reset_members council new w) eqn:E. by eapply pallet_reset_frame.
  - destruct (pallet_reset_members tc new w) eqn:E. by eapply pallet_reset_frame.
Qed.

(** ** [MembershipHandler] *)

(** The collective behind the handler, and [frame_system]'s counter of reasons
    for which an account is self-sufficient. *)
Record Collective (W : Type) : Type := {
  collective_initialize_members : list AccountId → W → W;
  collective_change_members_sorted : list AccountId → list AccountId → list AccountId → W → W;
  sufficients : W → AccountId → Z;
  inc_sufficients : AccountId → W → W;
  dec_sufficients : AccountId → W → W;
}.
Arguments collective_initialize_members {W} _ _ _.
Arguments collective_change_members_sorted {W} _ _ _ _ _.
Arguments sufficients {W} _ _ _.
Arguments inc_sufficients {W} _ _ _.
Arguments dec_sufficients {W} _ _ _.

(** Documented behaviour: the counter goes up by one, and down by one where it is
    positive; the collective leaves the counters alone. *)
Class CollectiveSpec {W} (c : Collective W) : Prop := {
  inc_spec a b w : sufficients c (inc_sufficients c a w) b =
    sufficients c w b + (if decide (b = a) then 1 else 0);
  dec_spec a b w : 0 < sufficients c w a → sufficients c (dec_sufficients c a w) b =
    sufficients c w b - (if decide (b = a) then 1 else 0);
  initialize_frame l b w :
    sufficients c (collective_initialize_members c l w) b = sufficients c w b;
  change_frame i o n b w :
    sufficients c (collective_change_members_sorted c i o n w) b = sufficients c w b;
}.

Section Sufficients.
Context {W : Type} (c : Collective W).

(** [for who in l { f(who) }]. *)
Definition for_all (f : AccountId → W → W) (l : list AccountId) (w : W) : W :=
  foldl (λ w a, f a w) w l.

Definition initialize_members (members : list AccountId) (w : W) : W :=
  let w := collective_initialize_members c members w in
  for_all (inc_sufficients c) members w.

Definition change_members_sorted (incoming outgoing new : list AccountId) (w : W) : W :=
  let w := collective_change_members_sorted c incoming outgoing new w in
  let w := for_all (inc_sufficients c) incoming w in
  for_all (dec_sufficients c) outgoing w.

(** [AlwaysNo::default_vote]. *)
Definition default_vote (_prime_vote : option bool) (_yes _no _len : Z) : bool := false.

Context `{!CollectiveSpec c}.

(** How often an account occurs in a list. *)
Definition occurrences (a : AccountId) (l : list AccountId) : Z :=
  Z.of_nat (length (filter (eq a) l)).

Lemma occurrences_cons a b l :
  occurrences a (b :: l) = (if decide (a = b) then 1 else 0) + occurrences a l.
Proof. unfold occurrences. rewrite filter_cons. case_decide; simpl; lia. Qed.
Lemma occurrences_nonneg a l : 0 ≤ occurrences a l.
Proof. unfold occurrences. lia. Qed.

Lemma inc_all l a w :
  sufficients c (for_all (inc_sufficients c) l w) a = sufficients c w a + occurrences a l.
Proof.
  unfold for_all. revert w; induction l as [|b l IH]; intros w; simpl.
  { unfold occurrences; simpl; lia. }
  rewrite IH, inc_spec, occurrences_cons. case_decide; lia.
Qed.

Lemma dec_all l a w :
  (∀ b, occurrences b l ≤ sufficients c w b) →
  sufficients c (for_all (dec_sufficients c) l w) a = sufficients c w a - occurrences a l.
Proof.
  unfold for_all. revert w; induction l as [|b l IH]; intros w Hw; simpl.
  { unfold occurrences; simpl; lia. }
  assert (0 < sufficients c w b) as Hb.
  { specialize (Hw b). rewrite occurrences_cons, decide_True in Hw by done.
    pose proof (occurrences_nonneg b l). lia. }
  rewrite IH.
  - rewrite (dec_spec b a w Hb), occurrences_cons. case_decide; lia.
  - intros d. rewrite (dec_spec b d w Hb). specialize (Hw d). rewrite occurrences_cons in Hw.
    case_decide; lia.
Qed.

(** C35: the reference counters follow the membership.  Suppose the members
    before a change each hold one reference, on top of whatever references
    accounts hold for other reasons.  When the collective's members change from
    [old] to [new] with [incoming] and [outgoing] the difference of the two lists,
    the members after it each hold one reference on top of the very same others,
    so nobody's account is kept or reaped by mistake. *)
Theorem sufficients_follow_membership incoming outgoing old new others w a :
  (∀ b, 0 ≤ others b) →
  (∀ b, sufficients c w b = others b + occurrences b old) →
  (∀ b, occurrences b old + occurrences b incoming =
        occurrences b new + occurrences b outgoing) →
  sufficients c (change_members_sorted incoming outgoing new w) a = others a + occurrences a new.
Proof.
  intros Ho Hw Hdiff. unfold change_members_sorted. rewrite dec_all.
  - rewrite inc_all, change_frame, Hw. specialize (Hdiff a). lia.
  - intros b. rewrite inc_all, change_frame, Hw. specialize (Hdiff b). specialize (Ho b).
    pose proof (occurrences_nonneg b new). lia.
Qed.

Lemma initialize_sufficients members w a :
  sufficients c (initialize_members members w) a = sufficients c w a + occurrences a members.
Proof. unfold initialize_members. by rewrite inc_all, initialize_frame. Qed.
End Sufficients.

(** ** A concrete runtime

    Two membership instances bounded by [MAX_MEMBERS] and a table of counters. *)
Module Concrete.
Record Wd : Type := { wc : list AccountId; wt : list AccountId; counters : gmap (list Z) Z }.
Definition council_pallet : MembershipPallet Wd := {|
  Members := wc;
  pallet_reset_members := λ l w,
    if decide (Z.of_nat (length l) ≤ MAX_MEMBERS)
    then (Ok tt, {| wc := l; wt := wt w; counters := counters w |}) else (Err tt, w);
|}.
Definition tc_pallet : MembershipPallet Wd := {|
  Members := wt;
  pallet_reset_members := λ l w,
    if decide (Z.of_nat (length l) ≤ MAX_MEMBERS)
    then (Ok tt, {| wc := wc w; wt := l; counters := counters w |}) else (Err tt, w);
|}.
#[export] Instance council_spec : MembershipPalletSpec council_pallet MAX_MEMBERS.
Proof. split. intros l w _ Hl. simpl. rewrite decide_True by done. eauto. Qed.
#[export] Instance tc_spec : MembershipPalletSpec tc_pallet MAX_MEMBERS.
Proof. split. intros l w _ Hl. simpl. rewrite decide_True by done. eauto. Qed.
#[export] Instance council_frame : MembershipPalletFrame council_pallet tc_pallet.
Proof. split. intros l w r w'. simpl. case_decide; intros; by simplify_eq. Qed.
#[export] Instance tc_frame : MembershipPalletFrame tc_pallet council_pallet.
Proof. split. intros l w r w'. simpl. case_decide; intros; by simplify_eq. Qed.

Definition add_counter (d : Z) (a : AccountId) (w : Wd) : Wd :=
  {| wc := wc w; wt := wt w;
     counters := <[a := default 0 (counters w !! a) + d]> (counters w) |}.
Definition collective : Collective Wd := {|
  collective_initialize_members := λ l w, {| wc := l; wt := wt w; counters := counters w |};
  collective_change_members_sorted := λ _ _ l w, {| wc := l; wt := wt w; counters := counters w |};
  sufficients := λ w a, default 0 (counters w !! a);
  inc_sufficients := add_counter 1;
  dec_sufficients := add_counter (-1);
|}.
#[export] Instance collective_spec : CollectiveSpec collective.
Proof.
  split; intros *; simpl; try done.
  - case_decide as Hd; [subst; by rewrite lookup_insert_eq|rewrite lookup_insert_ne by done; lia].
  - intros _. case_decide as Hd; [subst; rewrite lookup_insert_eq; simpl; lia|].
    rewrite lookup_insert_ne by done. lia.
Qed.

(** The observation pallet with the runtime's handlers. *)
Definition cfg : @Config Wd := {|
  CouncilMaxMembers := MAX_MEMBERS;
  TechnicalCommitteeMaxMembers := MAX_MEMBERS;
  CouncilMembershipHandler := MembershipObservationHandler council_pallet (λ n o, (n, o));
  TechnicalCommitteeMembershipHandler := MembershipObservationHandler tc_pallet (λ n o, (n, o));
  WeightInfo := FAO_UnitWeight {| db_read := 8000; db_write := 50000 |};
  decode_account := λ k, if decide (32 ≤ length k)%nat then Some (take 32 k) else None;
|}.
Definition start : @State Wd := {|
  MainChainCouncilAddress := []; MainChainCouncilPolicyId := [];
  MainChainTechnicalCommitteeAddress := []; MainChainTechnicalCommitteePolicyId := [];
  CouncilMainchainMembers := []; TechnicalCommitteeMainchainMembers := [];
  InherentExecutedThisBlock := false; events := [];
  world := {| wc := []; wt := []; counters := ∅ |} |}.
Definition council : list (AccountId * MainchainMember) := [([9], [90]); ([3], [30])].
Definition tc : list (AccountId * MainchainMember) := [([5], [50])].
Definition info : PostDispatchInfo :=
  no_fee (reported cfg council tc true true).
Definition after : @State Wd := snd (reset_members (F := unit) cfg NoOrigin council tc start).
End Concrete.
Import Concrete.

Lemma sufficients_follow_membership_witness :
  sufficients collective (change_members_sorted collective [[2]] [[1]] [[2]]
    {| wc := [[1]]; wt := []; counters := {[ [1] := 1 ]} |}) [2] = 1.
Proof.
  apply (sufficients_follow_membership collective [[2]] [[1]] [[1]] [[2]] (λ _, 0)).
  - done.
  - intros b. unfold occurrences. rewrite filter_cons. simpl. case_decide; simpl.
    + subst. by rewrite lookup_singleton_eq.
    + by rewrite lookup_singleton_ne.
  - intros b. lia.
Defined.

Lemma reset_members_installs_witness :
  ∃ info s' cm cmc tm tmc, reset_members (F := unit) cfg NoOrigin council tc start = (Ok info, s') ∧
    council_on_record cfg s' = (cm, cmc) ∧ tc_on_record cfg s' = (tm, tmc) ∧
    StronglySorted (cmp_le bytes_cmp) cm ∧ StronglySorted (cmp_le bytes_cmp) tm ∧
    zip cm cmc ≡ₚ council ∧ zip tm tmc ≡ₚ tc ∧ InherentExecutedThisBlock s' = true.
Proof.
  apply (reset_members_installs cfg council tc start);
    [split; vm_compute; discriminate|discriminate|discriminate|reflexivity].
Defined.

Lemma reset_members_idempotent_witness :
  reset_members (F := unit) cfg NoOrigin (reverse council) tc (on_finalize after) =
    (Ok (no_fee (fao_reset_members_none (WeightInfo cfg) 2 1)), after).
Proof.
  apply (reset_members_idempotent cfg council tc (reverse council) tc start info after).
  - split; vm_compute; discriminate.
  - apply (bool_decide_unpack _). vm_compute. exact I.
  - apply (bool_decide_unpack _). vm_compute. exact I.
  - discriminate.
  - discriminate.
  - apply reverse_Permutation.
  - reflexivity.
  - vm_compute. reflexivity.
Defined.

Lemma reset_members_effects_witness :
  events after = [CouncilMembersReset [[3]; [9]] [[30]; [90]];
                  TechnicalCommitteeMembersReset [[5]] [[50]]] ∧
  InherentExecutedThisBlock start = false.
Proof.
  split; [vm_compute; reflexivity|].
  apply (reset_members_effects (F := unit) cfg NoOrigin council tc start (Ok info) after);
    [split; vm_compute; discriminate|vm_compute; reflexivity].
Defined.
