(* ===== verification/Midnight.v ===== *)
(** * pallet-midnight: the ledger state on chain

    Models [pallets/midnight/src/lib.rs]: the key of the current ledger state,
    the block context handed to the ledger, the unsigned call
    [send_mn_transaction] with its validation, and the hooks that open and close
    a block.  The state includes the values of [frame_system] and
    [pallet_timestamp] the pallet reads.  The host-side cache of the ledger
    ([ensure_storage_initialized], [flush_storage]) has no effect on chain state
    and is left out. *)

From stdpp Require Import prelude.
From S2P Require Import Prelude Frame LedgerErrors LedgerInterface.

Open Scope Z_scope.

(** ** Constants, events, errors *)

Definition EXTRA_WEIGHT_TX_SIZE : Weight := from_parts 20000000000 0.
Definition StateKeyLength : Z := 1065.
Definition MaxNetworkIdLength : Z := 64.
Definition DefaultMaxSkippedSlots : Z := 1.

Inductive Event : Type :=
| ContractCall (tx_hash contract_address : list Z)
| ContractDeploy (tx_hash contract_address : list Z)
| TxApplied (tx_hash : list Z)
| ContractMaintain (tx_hash contract_address : list Z)
| PayoutMinted (amount : Z) (receiver : list Z)
| ClaimRewards (tx_hash : list Z) (value : Z)
| UnshieldedTokens (spent created : list UtxoInfo)
| TxPartialSuccess (tx_hash : list Z).

Inductive Error : Type :=
| NewStateOutOfBounds
| Deserialization (e : DeserializationError)
| Serialization (e : SerializationError)
| Transaction (e : TransactionError)
| LedgerCacheError
| NoLedgerState
| LedgerStateScaleDecodingError
| ContractCallCostError
| BlockLimitExceededError
| FeeCalculationError
| HostApiError
| NetworkIdNotString
| GetTransactionContextError.

(** [From<LedgerApiError> for Error<T>]. *)
Definition error_from (value : LedgerApiError) : Error :=
  match value with
  | Api_Deserialization error => Deserialization error
  | Api_Serialization error => Serialization error
  | Api_Transaction error => Transaction error
  | Api_LedgerCacheError => LedgerCacheError
  | Api_NoLedgerState => NoLedgerState
  | Api_LedgerStateScaleDecodingError => LedgerStateScaleDecodingError
  | Api_ContractCallCostError => ContractCallCostError
  | Api_BlockLimitExceededError => BlockLimitExceededError
  | Api_FeeCalculationError => FeeCalculationError
  | Api_HostApiError => HostApiError
  | Api_GetTransactionContextError => GetTransactionContextError
  end.

(** ** State *)

Record State : Type := {
  StateKey : option (list Z);
  ParentTimestamp : Z;
  NetworkId : option (list Z);
  ConfigurableTransactionSizeWeight : Weight;
  ConfigurableOnInitializeWeight : Weight;
  ConfigurableOnRuntimeUpgradeWeight : Weight;
  MaxSkippedSlots : Z;
  events : list Event;
  (** [frame_system::parent_hash], [pallet_timestamp::now] in milliseconds and
      the runtime's [spec_version]. *)
  parent_hash : list Z;
  now_ms : Z;
  spec_version : Z;
}.

Definition update (f_key : option (list Z) → option (list Z)) (f_ts : Z → Z)
    (f_net : option (list Z) → option (list Z)) (f_w : Weight → Weight)
    (f_ev : list Event → list Event) (s : State) : State :=
  {| StateKey := f_key (StateKey s); ParentTimestamp := f_ts (ParentTimestamp s);
     NetworkId := f_net (NetworkId s);
     ConfigurableTransactionSizeWeight := f_w (ConfigurableTransactionSizeWeight s);
     ConfigurableOnInitializeWeight := ConfigurableOnInitializeWeight s;
     ConfigurableOnRuntimeUpgradeWeight := ConfigurableOnRuntimeUpgradeWeight s;
     MaxSkippedSlots := MaxSkippedSlots s; events := f_ev (events s);
     parent_hash := parent_hash s; now_ms := now_ms s; spec_version := spec_version s |}.
Definition put_StateKey (k : list Z) : State → State := update (λ _, Some k) id id id id.
Definition add_events (l : list Event) : State → State := update id id id id (λ es, es ++ l).
Definition deposit_event {E} (e : Event) : M State E unit := modify (add_events [e]).

(** ** [LedgerBlockContextProvider] and [LedgerStateProviderMut] *)

Definition pallet_block_context (s : State) : BlockContext :=
  {| tblock := now_ms s / 1000; tblock_err := 30; parent_block_hash := parent_hash s;
     last_block_time := ParentTimestamp s |}.

Definition pallet_get_ledger_state_key {E} : M State E (list Z) :=
  k ← gets StateKey; expect k.

Definition pallet_mut_ledger_state {E R} (f : list Z → outcome E (list Z * R)) : M State E R :=
  k ← gets StateKey;
  state_key ← expect k;
  '(new_state_key, custom_result) ← lift (f state_key);
  new_state_key ← expect (bounded_try_from StateKeyLength new_state_key);
  modify (put_StateKey new_state_key) ;;
  mret custom_result.

#[export] Instance midnight_state_provider : LedgerStateProviderMut State := {|
  get_ledger_state_key := @pallet_get_ledger_state_key;
  mut_ledger_state := @pallet_mut_ledger_state;
|}.
#[export] Instance midnight_context_provider : LedgerBlockContextProvider State := {|
  get_block_context := pallet_block_context;
|}.

Section Midnight.
Context (Api : LedgerApi) `{StorageLayers}.
(** [T::SlotDuration] in milliseconds and [T::BlockWeights::max_block.ref_time()]. *)
Context (SlotDuration max_block_ref_time : Z) {F : Type}.

(** ** [send_mn_transaction] *)

(** The events of an applied transaction, in the order they are deposited. *)
Definition applied_events (r : TransactionAppliedStateRoot) : list Event :=
  let tx_hash := applied_tx_hash r in
  (ContractCall tx_hash <$> call_addresses r)
  ++ (ContractDeploy tx_hash <$> deploy_addresses r)
  ++ (ContractMaintain tx_hash <$> maintain_addresses r)
  ++ (ClaimRewards tx_hash <$> claim_rewards r)
  ++ (if bool_decide (unshielded_utxos_created r ≠ []) || bool_decide (unshielded_utxos_spent r ≠ [])
      then [UnshieldedTokens (unshielded_utxos_spent r) (unshielded_utxos_created r)] else [])
  ++ [if all_applied r then TxApplied tx_hash else TxPartialSuccess tx_hash].

Definition send_mn_transaction_body (_origin : RawOrigin Z) (midnight_tx : list Z) :
    M State (DispatchError Error F) unit :=
  k ← gets StateKey;
  state_key ← lift (ok_or k (Module NoLedgerState));
  block_context ← gets pallet_block_context;
  runtime_version ← gets spec_version;
  result ← lift (map_err (λ e, Module (error_from e))
    (apply_transaction Api state_key midnight_tx block_context runtime_version));
  state_key ← lift (ok_or (bounded_try_from StateKeyLength (state_root result))
                          (Module NewStateOutOfBounds));
  modify (put_StateKey state_key) ;;
  let tx_hash := applied_tx_hash result in
  for_each (call_addresses result) (λ address, deposit_event (ContractCall tx_hash address)) ;;
  for_each (deploy_addresses result) (λ address, deposit_event (ContractDeploy tx_hash address)) ;;
  for_each (maintain_addresses result) (λ address, deposit_event (ContractMaintain tx_hash address)) ;;
  for_each (claim_rewards result) (λ value, deposit_event (ClaimRewards tx_hash value)) ;;
  (if bool_decide (unshielded_utxos_created result ≠ [])
      || bool_decide (unshielded_utxos_spent result ≠ [])
   then deposit_event (UnshieldedTokens (unshielded_utxos_spent result)
                         (unshielded_utxos_created result))
   else mret tt) ;;
  if all_applied result then deposit_event (TxApplied tx_hash)
  else deposit_event (TxPartialSuccess tx_hash).

Definition send_mn_transaction (origin : RawOrigin Z) (midnight_tx : list Z) :=
  with_storage_layer (send_mn_transaction_body origin midnight_tx).

Definition set_tx_size_weight (origin : RawOrigin Z) (new_weight : Weight) :
    M State (DispatchError Error F) unit :=
  with_storage_layer (ensure_root origin ;; modify (update id id id (λ _, new_weight) id)).

(** ** Validation of unsigned transactions *)

Inductive Call : Type :=
| Call_send_mn_transaction (midnight_tx : list Z)
| Call_set_tx_size_weight (new_weight : Weight).

(** [TransactionValidityError::Invalid(InvalidTransaction::Custom(code))]. *)
Inductive TransactionValidityError : Type := Custom (code : Z).
Definition invalid_transaction (error_code : Z) : TransactionValidityError := Custom error_code.

Record ValidTransaction : Type := { tag_prefix : list Z; longevity : Z; provides : list Z }.
(** The bytes of the tag prefix [Midnight]. *)
Definition midnight_prefix : list Z := [77; 105; 100; 110; 105; 103; 104; 116].

Definition validate_unsigned_in (c : Call) (block_context : BlockContext) (s : State) :
    outcome TransactionValidityError ValidTransaction :=
  match c with
  | Call_send_mn_transaction midnight_tx =>
      state_key ← ok_or (StateKey s) (invalid_transaction 0);
      tx_hash ← map_err (λ e, invalid_transaction (error_code e))
        (validate_transaction Api state_key midnight_tx block_context (spec_version s)
           max_block_ref_time);
      mret {| tag_prefix := midnight_prefix; longevity := 600; provides := tx_hash |}
  | _ => Err (invalid_transaction 0)
  end.

(** The context a transaction is validated against in the pool: the time of the
    next block, with a margin for skipped slots. *)
Definition validation_context (s : State) : BlockContext :=
  let block_context := pallet_block_context s in
  let slot_duration_secs := SlotDuration / 1000 in
  let skipped_slots_margin := sat_mul 64 slot_duration_secs (MaxSkippedSlots s) in
  {| tblock := sat_add 64 (sat_add 64 (tblock block_context) slot_duration_secs) skipped_slots_margin;
     tblock_err := tblock_err block_context;
     parent_block_hash := parent_block_hash block_context;
     last_block_time := last_block_time block_context |}.

Definition validate_unsigned (c : Call) (s : State) :
    outcome TransactionValidityError ValidTransaction :=
  validate_unsigned_in c (validation_context s) s.

Definition pre_dispatch (c : Call) (s : State) : outcome TransactionValidityError unit :=
  match c with
  | Call_send_mn_transaction midnight_tx =>
      let block_context := pallet_block_context s in
      state_key ← ok_or (StateKey s) (invalid_transaction 0);
      map_err (λ e, invalid_transaction (error_code e))
        (validate_guaranteed_execution Api state_key midnight_tx block_context (spec_version s))
  | _ => Err (invalid_transaction 0)
  end.

(** ** Queries *)

Definition with_state_key {A} (s : State) (f : list Z → outcome LedgerApiError A) :
    outcome LedgerApiError A :=
  state_key ← ok_or (StateKey s) Api_NoLedgerState; f state_key.

Definition get_contract_state (s : State) (contract_address : list Z) :=
  with_state_key s (λ k, query_contract_state Api k contract_address).
Definition get_zswap_chain_state (s : State) (contract_address : list Z) :=
  with_state_key s (λ k, query_zswap_chain_state Api k contract_address).
Definition get_unclaimed_amount (s : State) (beneficiary : list Z) :=
  with_state_key s (λ k, query_unclaimed_amount Api k beneficiary).
Definition get_ledger_parameters (s : State) := with_state_key s (query_ledger_parameters Api).
Definition get_zswap_state_root (s : State) := with_state_key s (query_zswap_state_root Api).
Definition get_ledger_state_root (s : State) := with_state_key s (query_ledger_state_root Api).
Definition get_transaction_cost (s : State) (tx : list Z) : outcome LedgerApiError Z :=
  with_state_key s (λ k, get_transaction_cost_of Api k tx (pallet_block_context s) max_block_ref_time).

(** [Weight]'s [+], release-mode overflow. *)
Definition weight_add (a b : Weight) : Weight :=
  from_parts (wrap 64 (ref_time a + ref_time b)) (wrap 64 (proof_size a + proof_size b)).
Definition get_tx_weight (s : State) (tx : list Z) : Weight :=
  weight_add (match get_transaction_cost s tx with
              | Ok gas_cost => from_parts gas_cost 0
              | _ => EXTRA_WEIGHT_TX_SIZE
              end) (ConfigurableTransactionSizeWeight s).

(** ** Hooks *)

Definition on_initialize (s : State) : Weight * State :=
  let parent_s := now_ms s / 1000 in
  (ConfigurableOnInitializeWeight s, update id (λ _, parent_s) id id id s).

Definition on_finalize : M State Empty_set unit :=
  k ← gets StateKey;
  state_key ← expect k;
  block_context ← gets pallet_block_context;
  state_root ← match post_block_update Api state_key block_context with
               | Ok r => mret r | _ => panic end;
  new_state_key ← expect (bounded_try_from StateKeyLength state_root);
  modify (put_StateKey new_state_key).

Definition on_runtime_upgrade (s : State) : Weight := ConfigurableOnRuntimeUpgradeWeight s.

(** ** Genesis *)

Definition initialize_state (network_id state_key : list Z) : M State Empty_set unit :=
  genesis_state_key ← expect (bounded_try_from StateKeyLength state_key);
  modify (put_StateKey genesis_state_key) ;;
  network_id ← expect (bounded_try_from MaxNetworkIdLength network_id);
  modify (update id id (λ _, Some network_id) id id).

(** ** Lemmas *)

Lemma add_events_nil s : add_events [] s = s.
Proof. unfold add_events, update. rewrite app_nil_r. by destruct s. Qed.
Lemma add_events_app l k s : add_events k (add_events l s) = add_events (l ++ k) s.
Proof. unfold add_events, update; simpl. by rewrite <- app_assoc. Qed.

Lemma for_each_deposit {E A} (f : A → Event) l s :
  for_each (E := E) l (λ x, deposit_event (f x)) s = (Ok tt, add_events (f <$> l) s).
Proof.
  revert s; induction l as [|x l IH]; intros s; simpl; [by rewrite add_events_nil|].
  unfold mbind, M_bind. simpl. rewrite IH, add_events_app. done.
Qed.

Lemma send_mn_transaction_eq o tx s :
  (∀ k, StateKey s = Some k →
     apply_transaction Api k tx (pallet_block_context s) (spec_version s) ≠ Panic) →
  send_mn_transaction o tx s =
  match StateKey s with
  | None => (Err (Module NoLedgerState), s)
  | Some k =>
      match apply_transaction Api k tx (pallet_block_context s) (spec_version s) with
      | Ok r =>
          if decide (Z.of_nat (length (state_root r)) ≤ StateKeyLength)
          then (Ok tt, add_events (applied_events r) (put_StateKey (state_root r) s))
          else (Err (Module NewStateOutOfBounds), s)
      | Err e => (Err (Module (error_from e)), s)
      | Panic => (Panic, s)
      end
  end.
Proof.
  intros Hnp. unfold send_mn_transaction.
  destruct (StateKey s) as [k|] eqn:Hk.
  2:{ eapply layer_rollback. unfold send_mn_transaction_body; mrun. by rewrite Hk. }
  specialize (Hnp k eq_refl).
  destruct (apply_transaction Api k tx _ _) as [r|e|] eqn:Hr; [| |done].
  2:{ eapply layer_rollback. unfold send_mn_transaction_body; mrun. rewrite Hk; simpl. by rewrite Hr. }
  case_decide as Hb.
  - apply layer_commit. unfold send_mn_transaction_body, mbind, M_bind, lift, gets, modify; simpl.
    rewrite Hk; simpl. rewrite Hr; simpl.
    assert (bounded_try_from StateKeyLength (state_root r) = Some (state_root r)) as ->
      by (by apply bounded_try_from_Some). simpl.
    rewrite (for_each_deposit (ContractCall _)), (for_each_deposit (ContractDeploy _)),
      (for_each_deposit (ContractMaintain _)), (for_each_deposit (ClaimRewards _)).
    rewrite !add_events_app. unfold applied_events.
    destruct (_ || _); simpl; rewrite ?add_events_nil; destruct (all_applied r); simpl;
      unfold mret, M_ret, deposit_event, modify; rewrite !add_events_app; by rewrite <- !app_assoc.
  - eapply layer_rollback. unfold send_mn_transaction_body; mrun. rewrite Hk; simpl.
    rewrite Hr; simpl.
    assert (bounded_try_from StateKeyLength (state_root r) = None) as ->
      by (apply bounded_try_from_None; lia). done.
Qed.

(** A stored state key that fits its bound. *)
Definition has_key (s : State) : Prop :=
  ∃ k, StateKey s = Some k ∧ Z.of_nat (length k) ≤ StateKeyLength.

(** Everything that happens to the pallet's state: its calls, its hooks, writes of
    other pallets through [mut_ledger_state], and the environment (new parent hash
    and timestamp, cleared log). *)
Inductive step (s : State) : State → Prop :=
| step_send o tx r s' : send_mn_transaction o tx s = (r, s') → r ≠ Panic → step s s'
| step_weight o w r s' : set_tx_size_weight o w s = (r, s') → r ≠ Panic → step s s'
| step_initialize : step s (snd (on_initialize s))
| step_finalize s' : on_finalize s = (Ok tt, s') → step s s'
| step_mut {E R} (f : list Z → outcome E (list Z * R)) r s' :
    pallet_mut_ledger_state f s = (r, s') → r ≠ Panic → step s s'
| step_env h t es : now_ms s ≤ t →
    step s {| StateKey := StateKey s; ParentTimestamp := ParentTimestamp s;
              NetworkId := NetworkId s;
              ConfigurableTransactionSizeWeight := ConfigurableTransactionSizeWeight s;
              ConfigurableOnInitializeWeight := ConfigurableOnInitializeWeight s;
              ConfigurableOnRuntimeUpgradeWeight := ConfigurableOnRuntimeUpgradeWeight s;
              MaxSkippedSlots := MaxSkippedSlots s; events := es;
              parent_hash := h; now_ms := t; spec_version := spec_version s |}.

Lemma send_inv o tx s r s' :
  send_mn_transaction o tx s = (r, s') → r ≠ Panic →
  (∃ e, r = Err e ∧ s' = s) ∨
  (∃ k res, r = Ok tt ∧ StateKey s = Some k ∧
     apply_transaction Api k tx (pallet_block_context s) (spec_version s) = Ok res ∧
     Z.of_nat (length (state_root res)) ≤ StateKeyLength ∧
     s' = add_events (applied_events res) (put_StateKey (state_root res) s)).
Proof.
  intros Hs Hr.
  assert (∀ k, StateKey s = Some k →
    apply_transaction Api k tx (pallet_block_context s) (spec_version s) ≠ Panic) as Hnp.
  { intros k Hk Hp. apply Hr. pose proof (layer_panic (send_mn_transaction_body o tx) s) as Hl.
    unfold send_mn_transaction in Hs. rewrite Hs in Hl. apply Hl.
    unfold send_mn_transaction_body; mrun. rewrite Hk; simpl. by rewrite Hp. }
  rewrite send_mn_transaction_eq in Hs by done.
  destruct (StateKey s) as [k|] eqn:Hk; [|simplify_eq; eauto].
  destruct (apply_transaction Api k tx _ _) as [res|e|] eqn:Ha; [|simplify_eq; eauto|by destruct (Hnp k)].
  case_decide; simplify_eq; [right|eauto]. by exists k, res.
Qed.

Lemma mut_ledger_state_inv {E R} (f : list Z → outcome E (list Z * R)) s r s' :
  pallet_mut_ledger_state f s = (r, s') → r ≠ Panic →
  ∃ k, StateKey s = Some k ∧
    ((∃ e, r = Err e ∧ f k = Err e ∧ s' = s) ∨
     (∃ k' x, r = Ok x ∧ f k = Ok (k', x) ∧ Z.of_nat (length k') ≤ StateKeyLength ∧
        s' = put_StateKey k' s)).
Proof.
  unfold pallet_mut_ledger_state; mrun. intros Hm Hr.
  destruct (StateKey s) as [k|]; simpl in Hm; [|by simplify_eq]. exists k. split; [done|].
  destruct (f k) as [[k' x]|e|] eqn:Hf; simpl in Hm; [|simplify_eq; eauto|by simplify_eq].
  destruct (bounded_try_from StateKeyLength k') as [k''|] eqn:Hb; simpl in Hm; [|by simplify_eq].
  apply bounded_try_from_Some in Hb as [-> Hl]. simplify_eq. right. eauto 10.
Qed.

Lemma step_has_key s s' : step s s' → has_key s → has_key s'.
Proof.
  intros Hstep Hs. inversion Hstep as [o tx r s1 Hx Hr|o w r s1 Hx Hr| |s1 Hx|E R f r s1 Hx Hr|]; subst.
  - apply send_inv in Hx as [(?&?&->)|(k&res&_&_&_&Hl&->)]; [done| |done]. by eexists.
  - apply with_storage_layer_inv in Hx as [(x&_&Hb)|(e&s2&_&->&_)]; [|done|done].
    mrun. unfold ensure_root in Hb; mrun. destruct o; mrun; by simplify_eq.
  - done.
  - unfold on_finalize in Hx; mrun. destruct (StateKey s); mrun; [|done].
    destruct (post_block_update _ _ _) as [r|e|]; mrun; try done.
    destruct (bounded_try_from StateKeyLength r) eqn:Hb; mrun; [|done].
    apply bounded_try_from_Some in Hb as [-> ?]. simplify_eq. by eexists.
  - apply mut_ledger_state_inv in Hx as (k&_&[(?&_&_&->)|(k'&x&_&_&Hl&->)]); [done| |done].
    by eexists.
  - done.
Qed.

(** ** Properties *)

(** C21: [send_mn_transaction] is atomic.  Either it fails and the pallet's state,
    log included, is untouched; or the ledger accepted the transaction for the
    stored state key in the current block context, the new state key is the root
    the ledger returned (within its bound), and the log grows by exactly the
    events of the result, in their documented order; nothing else changes. *)
Theorem send_mn_transaction_atomic o tx s r s' :
  send_mn_transaction o tx s = (r, s') → r ≠ Panic →
  match r with
  | Ok _ =>
      ∃ k res, StateKey s = Some k ∧
        apply_transaction Api k tx (pallet_block_context s) (spec_version s) = Ok res ∧
        Z.of_nat (length (state_root res)) ≤ StateKeyLength ∧
        s' = add_events (applied_events res) (put_StateKey (state_root res) s)
  | _ => s' = s
  end.
Proof.
  intros Hs Hr. apply send_inv in Hs as [(e&->&->)|(k&res&->&?&?&?&->)]; [done| |done].
  by exists k, res.
Qed.

(** a chain that started with a state key keeps one.  In every state reached
    from one with a key within its bound there is such a key; so every query
    reaches the ledger instead of failing with [NoLedgerState], and closing the
    block succeeds whenever the ledger's update does and returns a key that
    fits. *)
Theorem state_key_persists s s' :
  has_key s → rtc step s s' →
  ∃ k, StateKey s' = Some k ∧ Z.of_nat (length k) ≤ StateKeyLength ∧
    (∀ A (q : list Z → outcome LedgerApiError A), with_state_key s' q = q k) ∧
    (∀ r, post_block_update Api k (pallet_block_context s') = Ok r →
       Z.of_nat (length r) ≤ StateKeyLength → on_finalize s' = (Ok tt, put_StateKey r s')).
Proof.
  intros Hs Hsteps. assert (has_key s') as (k & Hk & Hl).
  { revert Hs. induction Hsteps as [|s s1 s2 H1 _ IH]; [done|]. intros Hs. by apply IH, (step_has_key s). }
  exists k. split_and!; [done..| |].
  - intros A q. unfold with_state_key. by rewrite Hk.
  - intros r Hr Hb. unfold on_finalize; mrun. rewrite Hk; simpl. rewrite Hr; simpl.
    assert (bounded_try_from StateKeyLength r = Some r) as -> by (by apply bounded_try_from_Some).
    done.
Qed.

(** the pool validates for the right time.  If the block that will include
    the transaction is at most [1 + MaxSkippedSlots] slots away, its time lies
    between the current block's time and the time [validate_unsigned] used, so a
    transaction created within that window is not refused for a creation time in
    the future. *)
Theorem validation_time_covers_next_slots s s' :
  SlotDuration mod 1000 = 0 → 0 ≤ SlotDuration → 0 ≤ MaxSkippedSlots s → 0 ≤ now_ms s →
  now_ms s + (1 + MaxSkippedSlots s) * SlotDuration ≤ umax 64 →
  now_ms s ≤ now_ms s' ≤ now_ms s + (1 + MaxSkippedSlots s) * SlotDuration →
  tblock (pallet_block_context s) ≤ tblock (pallet_block_context s') ≤ tblock (validation_context s).
Proof.
  intros Hmod Hslot Hskip Hnow Hmax Ht. simpl.
  assert (SlotDuration = 1000 * (SlotDuration / 1000)) as Hd
    by (pose proof (Z.div_mod SlotDuration 1000); lia).
  set (d := SlotDuration / 1000) in *. set (k := MaxSkippedSlots s) in *.
  assert (0 ≤ d) by (apply Z.div_pos; lia).
  assert (now_ms s / 1000 + (1 + k) * d = (now_ms s + (1 + k) * SlotDuration) / 1000) as Hsum.
  { rewrite Hd. replace (now_ms s + (1 + k) * (1000 * d)) with (now_ms s + ((1 + k) * d) * 1000) by lia.
    by rewrite Z.div_add by lia. }
  assert (now_ms s / 1000 + (1 + k) * d ≤ umax 64) as Hle.
  { rewrite Hsum. apply Z.div_le_upper_bound; [lia|]. unfold umax in *. lia. }
  assert (0 ≤ k * d) by nia. assert (0 ≤ now_ms s / 1000) by (apply Z.div_pos; lia).
  split; [apply Z.div_le_mono; lia|].
  rewrite (sat_add_exact 64 (now_ms s / 1000) d) by lia.
  unfold sat_mul. rewrite Z.min_l by lia. rewrite sat_add_exact by lia.
  transitivity ((now_ms s + (1 + k) * SlotDuration) / 1000); [apply Z.div_le_mono; lia|lia].
Qed.
End Midnight.

(** ** The properties at a concrete ledger

    The state key is the list of the transactions applied so far; a transaction
    that starts with 0 is malformed. *)
Module Concrete.
Definition api : LedgerApi := {|
  apply_transaction := λ k tx _ _,
    match tx with
    | 0 :: _ => Err (Api_Deserialization De_Transaction)
    | _ => Ok {| state_root := k ++ [Z.of_nat (length tx)]; applied_tx_hash := tx;
                 all_applied := true; call_addresses := [[1]]; deploy_addresses := [];
                 maintain_addresses := []; claim_rewards := [5]; unshielded_utxos_created := [];
                 unshielded_utxos_spent := [] |}
    end;
  apply_system_transaction := λ k tx _ _,
    match tx with
    | 0 :: _ => Err (Api_Deserialization De_SystemTransaction)
    | _ => Ok {| sys_state_root := k ++ [Z.of_nat (length tx)]; sys_tx_hash := tx;
                 sys_tx_type := [] |}
    end;
  validate_transaction := λ _ tx _ _ _, Ok tx;
  validate_guaranteed_execution := λ _ _ _ _, Ok tt;
  post_block_update := λ k _, Ok k;
  get_transaction_cost_of := λ _ tx _ _, Ok (Z.of_nat (length tx));
  is_governance_allowed_system_tx := λ tx, bool_decide (tx ≠ []);
  query_contract_state := λ k _, Ok k; query_zswap_chain_state := λ k _, Ok k;
  query_unclaimed_amount := λ _ _, Ok 0; query_ledger_parameters := λ k, Ok k;
  query_zswap_state_root := λ k, Ok k; query_ledger_state_root := λ k, Ok k;
|}.
Definition start : State := {|
  StateKey := Some []; ParentTimestamp := 0; NetworkId := None;
  ConfigurableTransactionSizeWeight := EXTRA_WEIGHT_TX_SIZE;
  ConfigurableOnInitializeWeight := EXTRA_WEIGHT_TX_SIZE;
  ConfigurableOnRuntimeUpgradeWeight := EXTRA_WEIGHT_TX_SIZE;
  MaxSkippedSlots := DefaultMaxSkippedSlots; events := [];
  parent_hash := [7]; now_ms := 1700000000123; spec_version := 1 |}.
Definition after : State := snd (send_mn_transaction (F := unit) api NoOrigin [1; 2; 3] start).
Definition next_block : State := {|
  StateKey := Some []; ParentTimestamp := 0; NetworkId := None;
  ConfigurableTransactionSizeWeight := EXTRA_WEIGHT_TX_SIZE;
  ConfigurableOnInitializeWeight := EXTRA_WEIGHT_TX_SIZE;
  ConfigurableOnRuntimeUpgradeWeight := EXTRA_WEIGHT_TX_SIZE;
  MaxSkippedSlots := DefaultMaxSkippedSlots; events := [];
  parent_hash := [8]; now_ms := 1700000012000; spec_version := 1 |}.
End Concrete.
Import Concrete.

Lemma send_mn_transaction_atomic_witness :
  events after = [ContractCall [1; 2; 3] [1]; ClaimRewards [1; 2; 3] 5; TxApplied [1; 2; 3]] ∧
  ∃ k res, StateKey start = Some k ∧
    apply_transaction api k [1; 2; 3] (pallet_block_context start) (spec_version start) = Ok res ∧
    Z.of_nat (length (state_root res)) ≤ StateKeyLength ∧
    after = add_events (applied_events res) (put_StateKey (state_root res) start).
Proof.
  split; [vm_compute; reflexivity|].
  apply (send_mn_transaction_atomic (F := unit) api NoOrigin [1; 2; 3] start (Ok tt) after);
    [vm_compute; reflexivity|discriminate].
Defined.

Lemma state_key_persists_witness :
  StateKey after = Some [3] ∧ on_finalize api after = (Ok tt, after).
Proof.
  split; [vm_compute; reflexivity|].
  destruct (state_key_persists (F := unit) api start after) as (k & Hk & _ & _ & Hfin).
  - exists []. split; [reflexivity|]. vm_compute. discriminate.
  - apply rtc_once. apply (step_send _ _ NoOrigin [1; 2; 3] (Ok tt));
      [vm_compute; reflexivity|discriminate].
  - rewrite (Hfin k); [|reflexivity|].
    + vm_compute in Hk. injection Hk as <-. vm_compute. reflexivity.
    + vm_compute in Hk. injection Hk as <-. vm_compute. discriminate.
Defined.

Lemma validation_time_covers_next_slots_witness :
  tblock (pallet_block_context next_block) ≤ tblock (validation_context 6000 start).
Proof.
  apply (validation_time_covers_next_slots 6000 start next_block); vm_compute; repeat split; discriminate.
Defined.
