(* ===== verification/LedgerHost.v ===== *)
(** * The pallet on top of the host functions

    Models [ledger/src/host_api/ledger_8.rs]: the interface of the runtime to the
    [Bridge] of [LedgerBridge], as the record [LedgerApi] that [Midnight] is
    parametrized by, and composes the two: a chain is the state of the pallet
    together with the host of a node. *)

From stdpp Require Import prelude gmap.
From S2P Require Import Prelude Frame LedgerErrors LedgerInterface LedgerTransaction.
From S2P Require Import UtxoOrdering LedgerBridge Midnight.

Open Scope Z_scope.

Section Host.
Context `{!MnLedger} `{!Arena} `{!Twox} (W : Files).

(** The functions of [Ledger8Bridge], at a state of the host: what each returns.
    What it leaves behind in the host is [run_call]. *)
Definition host_api (h : Host) : LedgerApi := {|
  LedgerInterface.apply_transaction := λ state_key tx c rv,
    (LedgerBridge.apply_transaction W state_key tx c true rv h).1;
  LedgerInterface.apply_system_transaction := λ state_key tx c _,
    (LedgerBridge.apply_system_transaction state_key tx c h).1;
  LedgerInterface.validate_transaction := λ state_key tx c rv max_weight,
    '(hash, _) ← (LedgerBridge.validate_transaction state_key tx c rv max_weight false h).1;
    Ok hash;
  LedgerInterface.validate_guaranteed_execution := λ state_key tx c rv,
    (LedgerBridge.validate_guaranteed_execution state_key tx c rv h).1;
  LedgerInterface.post_block_update := λ state_key c,
    (LedgerBridge.post_block_update state_key c h).1;
  get_transaction_cost_of := λ state_key tx _ max_weight,
    (LedgerBridge.get_transaction_cost state_key tx max_weight h).1;
  LedgerInterface.is_governance_allowed_system_tx := LedgerBridge.is_governance_allowed_system_tx;
  query_contract_state := λ state_key a, (LedgerBridge.get_contract_state state_key a h).1;
  query_zswap_chain_state := λ state_key a, (LedgerBridge.get_zswap_chain_state state_key a h).1;
  query_unclaimed_amount := λ state_key a, (LedgerBridge.get_unclaimed_amount state_key a h).1;
  query_ledger_parameters := λ state_key, (LedgerBridge.get_ledger_parameters state_key h).1;
  query_zswap_state_root := λ state_key, (LedgerBridge.get_zswap_state_root state_key h).1;
  query_ledger_state_root := λ state_key, (LedgerBridge.get_ledger_state_root state_key h).1;
|}.

Context `{!StorageLayers} (SlotDuration max_block_ref_time : Z) {F : Type}.

(** The arguments with which the pallet calls the host for a transaction. *)
Definition call_context (s : State) : list Z * BlockContext * Z :=
  (default [] (StateKey s), pallet_block_context s, spec_version s).

(** Pallet and host together. *)
Inductive chain_step : State * Host → State * Host → Prop :=
| chain_send s h o tx r s' :
    send_mn_transaction (F := F) (host_api h) o tx s = (r, s') → r ≠ Panic →
    chain_step (s, h) (s', run_call W
      (CallApply (default [] (StateKey s)) tx (pallet_block_context s) true (spec_version s)) h)
| chain_system s h tx r s' :
    pallet_mut_ledger_state (λ k,
      ev ← LedgerInterface.apply_system_transaction (host_api h) k tx (pallet_block_context s)
             (spec_version s);
      Ok (sys_state_root ev, sys_tx_hash ev)) s = (r, s') → r ≠ Panic →
    chain_step (s, h) (s', run_call W
      (CallApplySystem (default [] (StateKey s)) tx (pallet_block_context s)) h)
| chain_finalize s h s' :
    on_finalize (host_api h) s = (Ok tt, s') →
    chain_step (s, h) (s', run_call W
      (CallPostBlock (default [] (StateKey s)) (pallet_block_context s)) h)
| chain_initialize s h : chain_step (s, h) (snd (on_initialize s), h)
| chain_host s h call : chain_step (s, h) (s, run_call W call h)
| chain_evict s h h' : evicts h h' → chain_step (s, h) (s, h')
| chain_environment s h s' : StateKey s' = StateKey s → chain_step (s, h) (s', h).

(** The ledger of the stored state key can be loaded. *)
Definition key_loads (x : State * Host) : Prop :=
  ∃ k l, StateKey x.1 = Some k ∧ (get_ledger k x.2).1 = Ok l.

Context `{!ArenaLaws}.

Lemma key_loads_grows s h h' s' :
  storage_grows h h' → StateKey s' = StateKey s → key_loads (s, h) → key_loads (s', h').
Proof.
  intros Hg Hk (k & l & Hs & Hl). exists k, l. cbn in *. rewrite Hk. split; [done|].
  by eapply get_ledger_grows.
Qed.

Lemma apply_root_loads key b c skip rv h ev h' :
  LedgerBridge.apply_transaction W key b c skip rv h = (Ok ev, h') →
  ∃ l, (get_ledger (state_root ev) h').1 = Ok l.
Proof.
  intros Hrun. pose proof (apply_effects W key b c skip rv h) as He. rewrite Hrun in He.
  destruct He as (tx & l & vt & cost & res & l' & He). exists l'. apply (persisted_loads _ h); tauto.
Qed.

Lemma chain_step_key_loads x y : chain_step x y → key_loads x → key_loads y.
Proof.
  intros Hstep Hx. pose proof Hx as (k & l & Hk & Hl).
  destruct Hstep as [s h o tx r s' Hr Hnp|s h tx r s' Hr Hnp|s h s' Hr|s h|s h call|s h h' He
    |s h s' Hs]; cbn in Hk, Hl.
  - apply send_inv in Hr as [(e & -> & ->)|(k' & res & -> & Hk' & Happ & _ & ->)]; [| |done].
    { eapply key_loads_grows; [|done|exact Hx]. apply run_call_grows. }
    rewrite Hk. cbn in Happ |- *. rewrite Hk in Hk'. injection Hk' as <-.
    destruct (LedgerBridge.apply_transaction W k tx (pallet_block_context s) true (spec_version s) h)
      as [r h'] eqn:Hrun. cbn in Happ. subst r. apply apply_root_loads in Hrun as [l' Hl'].
    exists (state_root res), l'. done.
  - apply mut_ledger_state_inv in Hr as (k' & Hk' & [(e & -> & _ & ->)|(k2 & x & -> & Hf & _ & ->)]);
      [| |done].
    { eapply key_loads_grows; [|done|exact Hx]. apply run_call_grows. }
    rewrite Hk in Hk' |- *. injection Hk' as <-. cbn in Hf |- *.
    destruct (LedgerBridge.apply_system_transaction k tx (pallet_block_context s) h) as [r h'] eqn:Hrun.
    cbn in Hf. destruct r as [ev|e|]; [|done..]. injection Hf as <- <-.
    apply system_storage in Hrun as (t & l0 & l' & He). exists (sys_state_root ev), l'.
    split; [done|]. apply (persisted_loads _ h); tauto.
  - unfold on_finalize in Hr. mrun. rewrite Hk in Hr |- *. mrun.
    destruct (LedgerBridge.post_block_update k (pallet_block_context s) h) as [r h'] eqn:Hrun.
    cbn in Hr. destruct r as [root|e|]; mrun; [|done..].
    destruct (bounded_try_from StateKeyLength root) as [root'|] eqn:Hb; mrun; [|done].
    apply bounded_try_from_Some in Hb as [-> _]. injection Hr as <-.
    apply post_block_storage in Hrun as (l0 & l' & He). exists root, l'.
    split; [done|]. apply (persisted_loads _ h); tauto.
  - eapply key_loads_grows; [|done|exact Hx]. by intros ??.
  - eapply key_loads_grows; [|done|exact Hx]. apply run_call_grows.
  - eapply key_loads_grows; [|done|exact Hx]. intros k' l'. destruct He as (_ & _ & -> & _). done.
  - eapply key_loads_grows; [|exact Hs|exact Hx]. by intros ??.
Qed.

(** C23: From a genesis whose state key the host can load, the state key of
    pallet-midnight can be loaded in every state the chain reaches: after applied
    and refused transactions, system transactions and finished blocks, and
    whatever the caches of the node hold. *)
Theorem chain_state_key_loads x y : key_loads x → rtc chain_step x y → key_loads y.
Proof.
  intros Hx Hsteps. induction Hsteps as [|x y z Hxy _ IH]; [done|].
  by apply IH, (chain_step_key_loads x).
Qed.

(** What a dispatched transaction that passed its check can still fail with. *)
Definition dispatch_fault (e : DispatchError Error F) : bool :=
  match e with
  | Module (NewStateOutOfBounds | FeeCalculationError | HostApiError | Serialization _) => true
  | _ => false
  end.

(** C22: A transaction that passes [pre_dispatch] is not refused by the ledger when
    it is dispatched in the same block on the same state: [send_mn_transaction]
    succeeds, or fails with an error of the host or a new state key out of
    bounds; it never fails as malformed or invalid. *)
Theorem pre_dispatched_transaction_applies s h o tx :
  pre_dispatch (host_api h) (Call_send_mn_transaction tx) s = Ok tt →
  let h' := run_call W (CallValidateGuaranteed (default [] (StateKey s)) tx
              (pallet_block_context s) (spec_version s)) h in
  match (send_mn_transaction (F := F) (host_api h') o tx s).1 with
  | Ok _ => True
  | Err e => dispatch_fault e = true
  | Panic => False
  end.
Proof.
  unfold pre_dispatch. destruct (StateKey s) as [k|] eqn:Hk; [|done]. cbn. intros Hpre.
  destruct (LedgerBridge.validate_guaranteed_execution k tx (pallet_block_context s)
    (spec_version s) h) as [r h'] eqn:Hv. cbn in Hpre |- *. destruct r as [[]|e|]; [|done..].
  pose proof (guaranteed_apply_outcome W k tx (pallet_block_context s) (spec_version s) true h h' Hv)
    as Happ.
  rewrite send_mn_transaction_eq; rewrite Hk; cbn; destruct
    (LedgerBridge.apply_transaction W k tx (pallet_block_context s) true (spec_version s) h').1
    as [res|e|] eqn:Hr; try done.
  - by case_decide.
  - cbn. by destruct e.
  - intros k' [= <-]. by rewrite Hr.
  - intros k' [= <-]. by rewrite Hr.
Qed.
End Host.

(** ** The small ledger on chain *)

Section Witnesses.
Import LedgerBridge.Concrete.

Definition chain_start : State := {|
  StateKey := Some key0; ParentTimestamp := 0; NetworkId := None;
  ConfigurableTransactionSizeWeight := EXTRA_WEIGHT_TX_SIZE;
  ConfigurableOnInitializeWeight := EXTRA_WEIGHT_TX_SIZE;
  ConfigurableOnRuntimeUpgradeWeight := EXTRA_WEIGHT_TX_SIZE;
  MaxSkippedSlots := DefaultMaxSkippedSlots; events := [];
  parent_hash := replicate 32 0; now_ms := 50000; spec_version := 1 |}.

Definition chain_after : State :=
  (send_mn_transaction (F := unit) (host_api no_files h0) NoOrigin [0] chain_start).2.

Lemma chain_state_key_loads_witness :
  key_loads (chain_after, run_call no_files (CallApply key0 [0] (ctx 50) true 1) h0).
Proof.
  apply (chain_state_key_loads (F := unit) no_files (chain_start, h0)).
  - exists key0, (@ledger_new c_ledger []). split; [reflexivity|]. reflexivity.
  - apply rtc_once. apply (chain_send no_files chain_start h0 NoOrigin [0] (Ok tt)); [|discriminate].
    apply run_eq. vm_compute. reflexivity.
Defined.

Lemma pre_dispatched_transaction_applies_witness :
  match (send_mn_transaction (F := unit) (host_api no_files h1) NoOrigin [0] chain_start).1 with
  | Ok _ => True | Err e => dispatch_fault e = true | Panic => False end.
Proof.
  apply (pre_dispatched_transaction_applies no_files chain_start h0 NoOrigin [0]).
  vm_compute. reflexivity.
Defined.
End Witnesses.
