(* ===== verification/MidnightSystem.v ===== *)
(** * pallet-midnight-system: system transactions

    Models [pallets/midnight-system/src/lib.rs]: the governance call
    [send_mn_system_transaction] and the executor through which the observation
    pallet has its system transactions applied.  The pallet is generic in the
    providers of the ledger state and of the block context
    ([LedgerStateProviderMut], [LedgerBlockContextProvider]); the last section
    composes the three pallets the way the runtime does: [CNightObservation]
    hands its transaction to this pallet, which changes the state key of
    [Midnight]. *)

From stdpp Require Import prelude gmap.
From S2P Require Import Prelude Frame Weights CardanoTypes LedgerErrors LedgerInterface.
From S2P Require Import Midnight CNightObservation.

Open Scope Z_scope.

(** ** The pallet *)

Record SystemTransactionApplied : Type :=
  { hash : list Z; serialized_system_transaction : list Z }.
Inductive Event : Type := Event_SystemTransactionApplied (t : SystemTransactionApplied).
Inductive Error : Type :=
| Error_LedgerApiError (e : LedgerApiError)
| SystemTransactionNotAllowedForGovernance.

Section MidnightSystem.
(** [W]: the state behind the ledger providers. *)
Context {W : Type} `{!LedgerStateProviderMut W, !LedgerBlockContextProvider W}.
Context (Api : LedgerApi) `{StorageLayers} {F : Type}.
(** [frame_system::runtime_version().spec_version]. *)
Context (runtime_version : W → Z).

Record State : Type := {
  ConfigurableSystemTxWeight : Weight;
  events : list Event;
  ledger : W;
}.
Definition set_ledger (w : W) (s : State) : State :=
  {| ConfigurableSystemTxWeight := ConfigurableSystemTxWeight s; events := events s; ledger := w |}.
Definition deposit_event {E} (e : Event) : M State E unit :=
  modify (λ s, {| ConfigurableSystemTxWeight := ConfigurableSystemTxWeight s;
                  events := events s ++ [e]; ledger := ledger s |}).

(** The closure both entry points give to [mut_ledger_state]. *)
Definition apply_system_tx (tx : list Z) (block_context : BlockContext) (version : Z)
    (state_key : list Z) : outcome Error (list Z * list Z) :=
  result ← map_err Error_LedgerApiError
    (apply_system_transaction Api state_key tx block_context version);
  mret (sys_state_root result, sys_tx_hash result).

Definition send_mn_system_transaction (origin : RawOrigin Z) (midnight_system_tx : list Z) :
    M State (DispatchError Error F) unit :=
  with_storage_layer (
    ensure_root origin ;;
    ensure (is_governance_allowed_system_tx Api midnight_system_tx)
      (Module SystemTransactionNotAllowedForGovernance) ;;
    version ← gets (λ s, runtime_version (ledger s));
    block_context ← gets (λ s, get_block_context (ledger s));
    h ← with_err Module (zoom ledger set_ledger
          (mut_ledger_state (apply_system_tx midnight_system_tx block_context version)));
    deposit_event (Event_SystemTransactionApplied
      {| hash := h; serialized_system_transaction := midnight_system_tx |})).

(** [MidnightSystemTransactionExecutor for Pallet<T>]. *)
Definition pallet_execute_system_transaction (tx : list Z) :
    M State (DispatchError Error F) (list Z) :=
  version ← gets (λ s, runtime_version (ledger s));
  block_context ← gets (λ s, get_block_context (ledger s));
  h ← with_err Module (zoom ledger set_ledger
        (mut_ledger_state (apply_system_tx tx block_context version)));
  deposit_event (Event_SystemTransactionApplied
    {| hash := h; serialized_system_transaction := tx |}) ;;
  mret h.

#[export] Instance midnight_system_executor :
  MidnightSystemTransactionExecutor State (DispatchError Error F) :=
  {| execute_system_transaction := pallet_execute_system_transaction |}.
End MidnightSystem.

(** ** On top of [Midnight] *)

Section OnMidnight.
Context (Api : LedgerApi) `{StorageLayers} {F : Type}.

Notation St := (@State Midnight.State).
Notation exec := (pallet_execute_system_transaction (F := F) Api Midnight.spec_version).

(** The state after a system transaction with the given result. *)
Definition system_tx_applied (tx : list Z) (r : SystemTransactionAppliedStateRoot) (s : St) : St :=
  {| ConfigurableSystemTxWeight := ConfigurableSystemTxWeight s;
     events := events s ++ [Event_SystemTransactionApplied
       {| hash := sys_tx_hash r; serialized_system_transaction := tx |}];
     ledger := put_StateKey (sys_state_root r) (ledger s) |}.

Lemma execute_inv tx (s : St) r s' :
  exec tx s = (r, s') → r ≠ Panic →
  ∃ k, StateKey (ledger s) = Some k ∧
    ((∃ e, r = Err (Module (Error_LedgerApiError e)) ∧ s' = s ∧
       apply_system_transaction Api k tx (pallet_block_context (ledger s))
         (Midnight.spec_version (ledger s)) = Err e) ∨
     (∃ res, r = Ok (sys_tx_hash res) ∧ s' = system_tx_applied tx res s ∧
       Z.of_nat (length (sys_state_root res)) ≤ StateKeyLength ∧
       apply_system_transaction Api k tx (pallet_block_context (ledger s))
         (Midnight.spec_version (ledger s)) = Ok res)).
Proof.
  unfold pallet_execute_system_transaction, mbind, M_bind, gets, with_err, zoom; simpl.
  destruct (pallet_mut_ledger_state _ (ledger s)) as [m w] eqn:Hm. intros Hx Hr.
  assert (m ≠ Panic) as Hmp by (intros ->; simplify_eq/=).
  apply mut_ledger_state_inv in Hm as (k & Hk & Hcase); [|done].
  exists k. split; [done|]. unfold apply_system_tx, mbind, outcome_bind, mret, outcome_ret in Hcase.
  destruct (apply_system_transaction Api k tx _ _) as [res|e|]; simpl in Hcase;
    destruct Hcase as [(e'&->&Hf&->)|(k'&x&->&Hf&Hl&->)]; simplify_eq/=.
  - right. exists res. unfold mret, M_ret in Hx. by simplify_eq.
  - left. exists e. split_and!; [done| |done]. by destruct s.
Qed.

(** *** Properties *)

(** governance can only push system transactions the ledger allows it, and
    nobody else can.  [send_mn_system_transaction] succeeds only for [Root] and a
    transaction on the governance list that the ledger applies; then the ledger's
    state key is the root the ledger returned and the log names the transaction
    and its hash.  Any failure leaves this pallet and the ledger state as they
    were. *)
Theorem send_mn_system_transaction_guarded o tx (s : St) r s' :
  send_mn_system_transaction (F := F) Api Midnight.spec_version o tx s = (r, s') → r ≠ Panic →
  match r with
  | Ok _ => o = Root ∧ is_governance_allowed_system_tx Api tx = true ∧
      ∃ k res, StateKey (ledger s) = Some k ∧ s' = system_tx_applied tx res s ∧
        apply_system_transaction Api k tx (pallet_block_context (ledger s))
          (Midnight.spec_version (ledger s)) = Ok res
  | _ => s' = s
  end.
Proof.
  intros Hx Hr. apply with_storage_layer_inv in Hx as [(x&->&Hb)|(e&s1&->&->&_)]; [|done|done].
  apply M_bind_ok in Hb as ([]&s1&Ho&Hb). destruct o; simpl in Ho; unfold mret, M_ret, throw in Ho;
    simplify_eq/=.
  apply M_bind_ok in Hb as ([]&s2&He&Hb). unfold ensure in He.
  destruct (is_governance_allowed_system_tx Api tx) eqn:Hg; unfold mret, M_ret, throw in He;
    simplify_eq/=.
  split; [done|]. split; [done|].
  destruct (exec tx s2) as [r2 s3] eqn:Hexec.
  assert (r2 ≠ Panic ∧ ∀ h, r2 = Ok h → s' = s3) as [Hnp Hs3].
  { revert Hb Hexec. unfold pallet_execute_system_transaction, mbind, M_bind, mret, M_ret, gets; simpl.
    unfold deposit_event, modify.
    destruct (with_err _ _ s2) as [[h|e|] s4]; simpl; intros; simplify_eq/=; done. }
  destruct r2 as [h|e|]; [|exfalso|done].
  - rewrite (Hs3 h eq_refl). apply execute_inv in Hexec as (k&Hk&[(?&?&?)|(res&_&->&_&Ha)]); [done| |done].
    by exists k, res.
  - revert Hb Hexec. unfold pallet_execute_system_transaction, mbind, M_bind, mret, M_ret, gets; simpl.
    destruct (with_err _ _ s2) as [[h|e'|] s4]; intros; by simplify_eq/=.
Qed.
End OnMidnight.

(** ** The observation pallet on top of both *)

Section Composition.
Context (Api : LedgerApi) `{StorageLayers} {F : Type}.
Context (T : Externals).

Notation SysState := (@State Midnight.State).
#[local] Instance executor :
  MidnightSystemTransactionExecutor SysState (DispatchError Error F) :=
  midnight_system_executor Api Midnight.spec_version.

(** C4: the observed tokens reach the ledger once and completely.  When
    [process_tokens] of the composed runtime succeeds, the events it collected
    are [es], and the ledger state is either exactly what it was (no event, or a
    transaction that could not be built), or the result of applying to it the one
    system transaction made of all of [es]; in that case the log of
    pallet-midnight-system and the log of this pallet name the same transaction
    hash, and the event of this pallet carries the position reached on Cardano.
    When it fails, ledger state, memberships and logs are all as before. *)
Theorem observed_tokens_reach_ledger o l p (s : @CNightObservation.State SysState) r s' :
  process_tokens T o l p s = (r, s') → r ≠ Panic →
  match r with
  | Ok _ =>
      ∃ es s1, process_utxos (E := ErrorWithPostInfo CNightObservation.Error (DispatchError Error F))
          T l (set_flag true s) = (Ok es, s1) ∧
        match system_tx_of T es with
        | None => world s' = world s
        | Some tx => ∃ k res,
            StateKey (ledger (world s)) = Some k ∧
            apply_system_transaction Api k tx (pallet_block_context (ledger (world s)))
              (Midnight.spec_version (ledger (world s))) = Ok res ∧
            StateKey (ledger (world s')) = Some (sys_state_root res) ∧
            events (world s') = events (world s) ++
              [Event_SystemTransactionApplied
                 {| hash := sys_tx_hash res; serialized_system_transaction := tx |}] ∧
            CNightObservation.events s' =
              CNightObservation.events s1 ++ [applied_event p (sys_tx_hash res)]
        end
  | _ => s' = s
  end.
Proof.
  intros Hp Hr. apply process_tokens_inv in Hp as [(e&->&->)|(es&s1&->&_&_&_&_&Hl&Htx)]; [done| |done].
  exists es, s1. split; [done|].
  destruct (process_utxos_ok (E := ErrorWithPostInfo CNightObservation.Error (DispatchError Error F))
    T l (set_flag true s)) as (es'&s1'&Hl'&_&Hsame). rewrite Hl in Hl'. simplify_eq.
  assert (world s1' = world s) as Hw by (unfold same_rest in Hsame; simpl in Hsame; tauto).
  destruct (system_tx_of T es') as [tx|]; [|by subst].
  destruct Htx as (h & w & Hx & ->). simpl in Hx. rewrite Hw in Hx.
  apply execute_inv in Hx as (k&Hk&[(?&?&?)|(res&Hh&->&_&Ha)]); [done| |done]. simplify_eq.
  exists k, res. by split_and!.
Qed.
End Composition.

(** ** The properties at the concrete ledger of [Midnight] *)

Module Concrete.
Definition sys : @State Midnight.State :=
  {| ConfigurableSystemTxWeight := EXTRA_WEIGHT_TX_SIZE; events := [];
     ledger := Midnight.Concrete.start |}.
Definition cnight : @CNightObservation.State (@State Midnight.State) := {|
  MainChainMappingValidatorAddress := []; MainChainAuthTokenAssetName := [];
  Mappings := ∅; UtxoOwners := ∅; NextCardanoPosition := CNightObservation.Concrete.pos 5 0;
  CNightIdentifier := ([], []);
  CardanoBlockWindowSize := 1000; CardanoTxCapacityPerBlock := 200;
  InherentExecutedThisBlock := false; CNightObservation.events := []; world := sys |}.
#[export] Instance concrete_executor :
  MidnightSystemTransactionExecutor (@State Midnight.State) (DispatchError Error unit) :=
  midnight_system_executor Midnight.Concrete.api Midnight.spec_version.
Definition cnight_after := snd (process_tokens CNightObservation.Concrete.ext NoOrigin
  CNightObservation.Concrete.batch (CNightObservation.Concrete.pos 7 0) cnight).
Definition sys_after := snd (send_mn_system_transaction (F := unit) Midnight.Concrete.api
  Midnight.spec_version Root [4; 5] sys).
End Concrete.

Lemma send_mn_system_transaction_guarded_witness :
  StateKey (ledger Concrete.sys_after) = Some [2] ∧
  ∃ k res, StateKey (ledger Concrete.sys) = Some k ∧
    Concrete.sys_after = system_tx_applied [4; 5] res Concrete.sys ∧
    apply_system_transaction Midnight.Concrete.api k [4; 5]
      (pallet_block_context (ledger Concrete.sys)) (Midnight.spec_version (ledger Concrete.sys))
      = Ok res.
Proof.
  split; [vm_compute; reflexivity|].
  apply (send_mn_system_transaction_guarded (F := unit) Midnight.Concrete.api Root [4; 5]
    Concrete.sys (Ok tt) Concrete.sys_after); [vm_compute; reflexivity|discriminate].
Defined.

Lemma observed_tokens_reach_ledger_witness :
  ∃ es s1, process_utxos
      (E := ErrorWithPostInfo CNightObservation.Error (DispatchError Error unit))
      CNightObservation.Concrete.ext CNightObservation.Concrete.batch (set_flag true Concrete.cnight)
    = (Ok es, s1) ∧ length (events (world Concrete.cnight_after)) = 1%nat.
Proof.
  pose proof (observed_tokens_reach_ledger (F := unit) Midnight.Concrete.api
    CNightObservation.Concrete.ext NoOrigin CNightObservation.Concrete.batch
    (CNightObservation.Concrete.pos 7 0) Concrete.cnight (Ok CNightObservation.Concrete.info)
    Concrete.cnight_after) as H.
  destruct H as (es & s1 & Hl & _); [vm_compute; reflexivity|discriminate|].
  exists es, s1. split; [exact Hl|vm_compute; reflexivity].
Defined.
