(* ===== verification/CNightFollower.v ===== *)
(** * The follower of the Cardano main chain: cNIGHT observation

    Models the data source that reads registrations and cNIGHT transfers from a
    db-sync database
    ([primitives/mainchain-follower/src/data_source/cnight_observation.rs] and
    [db/queries/cnight_observation.rs]) and the inherent data provider that hands
    a window of them to the block author
    ([primitives/mainchain-follower/src/idp/cnight_observation.rs]), down to the
    call of pallet-cnight-observation.  Strings are their UTF-8 bytes. *)

From Stdlib Require Import Sorting.Sorted.
From stdpp Require Import prelude gmap strings.
From S2P Require Import Prelude Frame Collections LedgerInterface CardanoTypes Weights.
From S2P Require Import CNightObservation.

Open Scope Z_scope.

(** ** Parameters from outside the sources *)

(** cardano-serialization-lib and chrono. *)
Record CardanoLib : Type := {
  Address : Type;
  Credential : Type;
  PlutusData : Type;
  NaiveDateTime : Type;
  (** [Address::from_bech32], with the text of its error. *)
  address_from_bech32 : list Z → outcome (list Z) Address;
  network_id : Address → option Z;
  (** [EnterpriseAddress::from_address(..).payment_cred()]. *)
  enterprise_payment_cred : Address → option Credential;
  (** [BaseAddress::from_address(..).stake_cred()]. *)
  base_stake_cred : Address → option Credential;
  to_scripthash : Credential → option (list Z);
  (** [Ed25519KeyHash::from_bytes] and [Credential::from_keyhash]. *)
  credential_from_keyhash_bytes : list Z → option Credential;
  (** [ScriptHash::from_bytes] and [Credential::from_scripthash]. *)
  credential_from_scripthash_bytes : list Z → option Credential;
  (** [RewardAddress::new(network, cred).to_address().to_bytes()]. *)
  reward_address_bytes : Z → Credential → list Z;
  (** The alternative and the fields of a constructor application. *)
  as_constr_plutus_data : PlutusData → option (Z * list PlutusData);
  as_bytes : PlutusData → option (list Z);
  (** [and_utc().timestamp_millis()]. *)
  timestamp_millis : NaiveDateTime → Z;
}.

(** ** Rows of the queries *)

Section Rows.
Context (L : CardanoLib).

Record Block : Type := {
  b_block_number : Z;
  b_hash : list Z;
  b_epoch_number : Z;
  b_slot_number : Z;
  b_time : NaiveDateTime L;
  (** [i64]. *)
  b_tx_count : Z;
}.

(** [From<Block> for CardanoPosition]: [tx_count as u32]. *)
Definition position_of_block (b : Block) : CardanoPosition :=
  {| block_hash := b_hash b; block_number := b_block_number b;
     block_timestamp := timestamp_millis L (b_time b);
     tx_index_in_block := wrap 32 (b_tx_count b) |}.

(** The columns every row starts with. *)
Record RowPosition : Type := {
  row_block_number : Z;
  row_block_hash : list Z;
  row_block_timestamp : NaiveDateTime L;
  row_tx_index_in_block : Z;
}.

Record RegistrationRow : Type := {
  rr_position : RowPosition;
  rr_full_datum : PlutusData L;
  rr_tx_hash : list Z;
  rr_utxo_index : Z;
}.

Record DeregistrationRow : Type := {
  dr_position : RowPosition;
  dr_full_datum : PlutusData L;
  dr_tx_hash : list Z;
  dr_utxo_tx_hash : list Z;
  dr_utxo_index : Z;
}.

Record AssetCreateRow : Type := {
  ac_position : RowPosition;
  ac_quantity : Z;
  ac_holder_address : list Z;
  ac_tx_hash : list Z;
  ac_utxo_index : Z;
}.

Record AssetSpendRow : Type := {
  as_position : RowPosition;
  as_quantity : Z;
  as_holder_address : list Z;
  as_utxo_tx_hash : list Z;
  as_utxo_index : Z;
  as_spending_tx_hash : list Z;
}.

(** [CardanoPosition] of a row. *)
Definition position_of_row (r : RowPosition) : CardanoPosition :=
  {| block_hash := row_block_hash r; block_number := row_block_number r;
     block_timestamp := timestamp_millis L (row_block_timestamp r);
     tx_index_in_block := row_tx_index_in_block r |}.

(** ** The database

    What Postgres and db-sync hold: for each query the rows of its joins that
    satisfy its conditions on address and asset, in no particular order, or an
    error of the connection; and Postgres' [ORDER BY], which may break ties as it
    likes. *)
Record Db : Type := {
  SqlxError : Type;
  registration_rows : list Z → list Z → list Z → outcome SqlxError (list RegistrationRow);
  deregistration_rows : list Z → outcome SqlxError (list DeregistrationRow);
  asset_create_rows : list Z → list Z → outcome SqlxError (list AssetCreateRow);
  asset_spend_rows : list Z → list Z → outcome SqlxError (list AssetSpendRow);
  block_rows : outcome SqlxError (list Block);
  order_by : ∀ {Row : Type}, (Row → Row → comparison) → list Row → list Row;
}.

(** The documented contract of [ORDER BY]. *)
Class OrderBySpec (D : Db) : Prop := {
  order_by_perm {Row} (cmp : Row → Row → comparison) l : order_by D cmp l ≡ₚ l;
  order_by_sorted {Row} (cmp : Row → Row → comparison) `{!TotalCmp cmp} l :
    StronglySorted (cmp_le cmp) (order_by D cmp l);
}.
End Rows.
Arguments position_of_row {L} r.
Arguments position_of_block {L} b.
Arguments order_by {L} D {Row} : rename.

(** ** Queries ([db/queries/cnight_observation.rs]) *)

(** [x as i32] for a [u32]. *)
Definition as_i32 (x : Z) : Z :=
  let y := wrap 32 x in if bool_decide (y < 2 ^ 31) then y else y - 2 ^ 32.
Definition I32_MAX : Z := 2 ^ 31 - 1.

(** The conditions on the position, common to the four queries. *)
Definition in_window (start end_ : CardanoPosition) {L} (r : RowPosition L) : bool :=
  let b := row_block_number L r in let i := row_tx_index_in_block L r in
  let sb := as_i32 (block_number start) in let si := as_i32 (tx_index_in_block start) in
  let eb := as_i32 (block_number end_) in let ei := as_i32 (tx_index_in_block end_) in
  bool_decide (sb ≤ b) && bool_decide (b ≤ eb) &&
  (bool_decide (sb < b) || bool_decide (b = sb) && bool_decide (si ≤ i)) &&
  (bool_decide (b < eb) || bool_decide (b = eb) && bool_decide (i < ei)).

(** [ORDER BY block_no, block_index]. *)
Definition row_position_cmp {L} (a b : RowPosition L) : comparison :=
  then_cmp (row_block_number L a ?= row_block_number L b)
           (row_tx_index_in_block L a ?= row_tx_index_in_block L b).

(** [LIMIT .. OFFSET ..]. *)
Definition page {A} (limit offset : Z) (l : list A) : list A :=
  take (Z.to_nat limit) (drop (Z.to_nat offset) l).

(** The two assertions every query starts with. *)
Definition with_page_asserts {E A} (limit offset : Z) (r : outcome E A) : outcome E A :=
  if bool_decide (limit < I32_MAX) && bool_decide (offset < I32_MAX) then r else Panic.

Section Queries.
Context {L : CardanoLib} (D : Db L).

Definition get_registrations (address policy_id asset_name : list Z)
    (start end_ : CardanoPosition) (limit offset : Z) :
    outcome (SqlxError L D) (list (RegistrationRow L)) :=
  with_page_asserts limit offset (
    rows ← registration_rows L D address policy_id asset_name;
    mret (page limit offset
      (order_by D (λ a b, row_position_cmp (rr_position L a) (rr_position L b))
        (filter (λ r, in_window start end_ (rr_position L r)) rows)))).

Definition get_deregistrations (address : list Z)
    (start end_ : CardanoPosition) (limit offset : Z) :
    outcome (SqlxError L D) (list (DeregistrationRow L)) :=
  with_page_asserts limit offset (
    rows ← deregistration_rows L D address;
    mret (page limit offset
      (order_by D (λ a b, row_position_cmp (dr_position L a) (dr_position L b))
        (filter (λ r, in_window start end_ (dr_position L r)) rows)))).

Definition get_asset_creates (policy_id asset_name : list Z)
    (start end_ : CardanoPosition) (limit offset : Z) :
    outcome (SqlxError L D) (list (AssetCreateRow L)) :=
  with_page_asserts limit offset (
    rows ← asset_create_rows L D policy_id asset_name;
    mret (page limit offset
      (order_by D (λ a b, then_cmp (row_position_cmp (ac_position L a) (ac_position L b))
                                   (ac_utxo_index L a ?= ac_utxo_index L b))
        (filter (λ r, in_window start end_ (ac_position L r)) rows)))).

Definition get_asset_spends (policy_id asset_name : list Z)
    (start end_ : CardanoPosition) (limit offset : Z) :
    outcome (SqlxError L D) (list (AssetSpendRow L)) :=
  with_page_asserts limit offset (
    rows ← asset_spend_rows L D policy_id asset_name;
    mret (page limit offset
      (order_by D (λ a b, then_cmp (row_position_cmp (as_position L a) (as_position L b))
                                   (as_utxo_index L a ?= as_utxo_index L b))
        (filter (λ r, in_window start end_ (as_position L r)) rows)))).

(** [fetch_optional]: the first row, if any. *)
Definition get_block_by_hash (hash : list Z) : outcome (SqlxError L D) (option (Block L)) :=
  rows ← block_rows L D;
  mret (head (filter (λ b, b_hash L b = hash) rows)).
End Queries.

(** ** The data source ([data_source/cnight_observation.rs]) *)

Record CNightAddresses : Type := {
  mapping_validator_address : list Z;
  auth_token_asset_name : list Z;
  cnight_policy_id : list Z;
  cnight_asset_name : list Z;
}.

Inductive RegistrationDatumDecodeError : Type :=
| CardanoCredentialNotBytes
| CardanoCredentialInvalidTag (tag : Z)
| CardanoCredentialInvalidKeyHash
| CardanoCredentialInvalidScriptHash
| DustAddressNotBytes
| DustAddressInvalidLength (len : Z).

Section DataSource.
Context {L : CardanoLib} (D : Db L).

Inductive MidnightCNightObservationDataSourceError : Type :=
| MissingBlockReference (hash : list Z)
| DBQueryError (e : SqlxError L D)
| CardanoNetworkError (s : list Z)
| MappingValidatorInvalidAddress (s : list Z).

(** [Box<dyn Error>], by what is in the box. *)
Inductive BoxedError : Type :=
| Boxed_Sqlx (e : SqlxError L D)
| Boxed_DataSource (e : MidnightCNightObservationDataSourceError).

Definition decode_registration_datum (datum : Z * list (PlutusData L)) :
    outcome RegistrationDatumDecodeError (Credential L * list Z) :=
  let list := datum.2 in
  match head list ≫= as_constr_plutus_data L with
  | None => Err CardanoCredentialNotBytes
  | Some cardano_credential =>
      let first_bytes := head cardano_credential.2 ≫= as_bytes L in
      credential ←
        (if bool_decide (cardano_credential.1 = 0) then
           ok_or (first_bytes ≫= credential_from_keyhash_bytes L) CardanoCredentialInvalidKeyHash
         else if bool_decide (cardano_credential.1 = 1) then
           ok_or (first_bytes ≫= credential_from_scripthash_bytes L)
             CardanoCredentialInvalidScriptHash
         else Err (CardanoCredentialInvalidTag cardano_credential.1));
      match list !! 1%nat ≫= as_bytes L with
      | None => Err DustAddressNotBytes
      | Some dust_address =>
          match dust_public_key_try_from dust_address with
          | None => Err (DustAddressInvalidLength (Z.of_nat (length dust_address)))
          | Some dust_address => Ok (credential, dust_address)
          end
      end
  end.

(** [RewardAddress::new(..).to_address().to_bytes().try_into().unwrap()]. *)
Definition reward_address {E} (cardano_network : Z) (cred : Credential L) : outcome E (list Z) :=
  match reward_address_try_from (reward_address_bytes L cardano_network cred) with
  | Some a => Ok a
  | None => Panic
  end.

(** The loop over the rows of a query; [None] is [continue]. *)
Fixpoint for_rows {E Row} (f : Row → outcome E (option ObservedUtxo)) (rows : list Row) :
    outcome E (list ObservedUtxo) :=
  match rows with
  | [] => mret []
  | row :: rows =>
      utxo ← f row;
      utxos ← for_rows f rows;
      mret (match utxo with Some u => u :: utxos | None => utxos end)
  end.

Definition registration_utxo {E} (cardano_network : Z) (row : RegistrationRow L) :
    outcome E (option ObservedUtxo) :=
  let h := {| tx_position := position_of_row (rr_position L row);
              tx_hash := rr_tx_hash L row; utxo_tx_hash := rr_tx_hash L row;
              utxo_index := rr_utxo_index L row |} in
  match as_constr_plutus_data L (rr_full_datum L row) with
  | None => mret None
  | Some constr =>
      match decode_registration_datum constr with
      | Ok (credential, dust_public_key) =>
          a ← reward_address cardano_network credential;
          mret (Some {| header := h;
                        data := Registration {| reg_cardano_reward_address := a;
                                                reg_dust_public_key := dust_public_key |} |})
      | Err _ => mret None
      | Panic => Panic
      end
  end.

Definition get_registration_utxos (cardano_network : Z) (policy_id address auth_asset_name : list Z)
    (start end_ : CardanoPosition) (limit offset : Z) :
    outcome MidnightCNightObservationDataSourceError (list ObservedUtxo) :=
  rows ← map_err DBQueryError
           (get_registrations D address policy_id auth_asset_name start end_ limit offset);
  for_rows (registration_utxo cardano_network) rows.

Definition deregistration_utxo {E} (cardano_network : Z) (row : DeregistrationRow L) :
    outcome E (option ObservedUtxo) :=
  let h := {| tx_position := position_of_row (dr_position L row);
              tx_hash := dr_tx_hash L row; utxo_tx_hash := dr_utxo_tx_hash L row;
              utxo_index := dr_utxo_index L row |} in
  match as_constr_plutus_data L (dr_full_datum L row) with
  | None => mret None
  | Some constr =>
      match decode_registration_datum constr with
      | Ok (credential, dust_public_key) =>
          a ← reward_address cardano_network credential;
          mret (Some {| header := h;
                        data := Deregistration {| dereg_cardano_reward_address := a;
                                                  dereg_dust_public_key := dust_public_key |} |})
      | Err _ => mret None
      | Panic => Panic
      end
  end.

Definition get_deregistration_utxos (cardano_network : Z) (address : list Z)
    (start end_ : CardanoPosition) (limit offset : Z) :
    outcome MidnightCNightObservationDataSourceError (list ObservedUtxo) :=
  rows ← map_err DBQueryError (get_deregistrations D address start end_ limit offset);
  for_rows (deregistration_utxo cardano_network) rows.

(** The stake credential of the holder of an output; [None] is [continue]. *)
Definition holder_stake_cred (holder_address : list Z) : option (Credential L) :=
  match address_from_bech32 L holder_address with
  | Ok a => base_stake_cred L a
  | _ => None
  end.

Definition asset_create_utxo {E} (cardano_network : Z) (row : AssetCreateRow L) :
    outcome E (option ObservedUtxo) :=
  let h := {| tx_position := position_of_row (ac_position L row);
              tx_hash := ac_tx_hash L row; utxo_tx_hash := ac_tx_hash L row;
              utxo_index := ac_utxo_index L row |} in
  match holder_stake_cred (ac_holder_address L row) with
  | None => mret None
  | Some cred =>
      owner ← reward_address cardano_network cred;
      mret (Some {| header := h;
                    data := AssetCreate {| create_value := wrap 128 (ac_quantity L row);
                                           create_owner := owner;
                                           create_utxo_tx_hash := ac_tx_hash L row;
                                           create_utxo_tx_index := ac_utxo_index L row |} |})
  end.

Definition get_asset_create_utxos (cardano_network : Z) (policy_id asset_name : list Z)
    (start end_ : CardanoPosition) (limit offset : Z) :
    outcome MidnightCNightObservationDataSourceError (list ObservedUtxo) :=
  rows ← map_err DBQueryError (get_asset_creates D policy_id asset_name start end_ limit offset);
  for_rows (asset_create_utxo cardano_network) rows.

Definition asset_spend_utxo {E} (cardano_network : Z) (row : AssetSpendRow L) :
    outcome E (option ObservedUtxo) :=
  let h := {| tx_position := position_of_row (as_position L row);
              tx_hash := as_spending_tx_hash L row; utxo_tx_hash := as_utxo_tx_hash L row;
              utxo_index := as_utxo_index L row |} in
  match holder_stake_cred (as_holder_address L row) with
  | None => mret None
  | Some cred =>
      owner ← reward_address cardano_network cred;
      mret (Some {| header := h;
                    data := AssetSpend {| spend_value := wrap 128 (as_quantity L row);
                                          spend_owner := owner;
                                          spend_utxo_tx_hash := as_utxo_tx_hash L row;
                                          spend_utxo_tx_index := as_utxo_index L row;
                                          spending_tx_hash := as_spending_tx_hash L row |} |})
  end.

Definition get_asset_spend_utxos (cardano_network : Z) (policy_id asset_name : list Z)
    (start end_ : CardanoPosition) (limit offset : Z) :
    outcome MidnightCNightObservationDataSourceError (list ObservedUtxo) :=
  rows ← map_err DBQueryError (get_asset_spends D policy_id asset_name start end_ limit offset);
  for_rows (asset_spend_utxo cardano_network) rows.

(** [a < b]. *)
Definition position_lt (a b : CardanoPosition) : bool :=
  match position_partial_cmp a b with Some Lt => true | _ => false end.

(** [utxos.sort()], with [Ord for ObservedUtxo]; [utxo_cmp] is never [None]
    ([utxo_cmp_total]). *)
Definition sort_utxos (l : list ObservedUtxo) : list ObservedUtxo :=
  sort_by (λ a b, default Eq (utxo_cmp a b)) l.

(** The loop that truncates the UTXOs but includes full transactions: the number
    of transactions counted and the UTXOs kept. *)
Fixpoint truncate_utxos (tx_capacity num_txs : Z) (cur_tx : option CardanoPosition)
    (l : list ObservedUtxo) : Z * list ObservedUtxo :=
  match l with
  | [] => (num_txs, [])
  | utxo :: l =>
      let new_tx := match cur_tx with
                    | None => true
                    | Some tx => position_lt tx (tx_position (header utxo))
                    end in
      let num_txs := if new_tx then num_txs + 1 else num_txs in
      let cur_tx := if new_tx then Some (tx_position (header utxo)) else cur_tx in
      if bool_decide (num_txs = tx_capacity) then (num_txs, [])
      else let '(n, kept) := truncate_utxos tx_capacity num_txs cur_tx l in (n, utxo :: kept)
  end.

(** The window cut from the sorted UTXOs. *)
Definition window (start end_ : CardanoPosition) (tx_capacity : Z) (l : list ObservedUtxo) :
    ObservedUtxos :=
  let '(num_txs, truncated) := truncate_utxos tx_capacity 0 None l in
  if bool_decide (num_txs < tx_capacity)
  then {| start := start; end_ := end_; observed := truncated |}
  else {| start := start;
          end_ := increment (from_option (λ u, tx_position (header u)) start (last truncated));
          observed := truncated |}.

(** What the configuration says about the mapping validator: the Cardano network
    and the policy of the auth token. *)
Definition mapping_validator (config : CNightAddresses) :
    outcome MidnightCNightObservationDataSourceError (Z * list Z) :=
  address ← map_err MappingValidatorInvalidAddress
              (address_from_bech32 L (mapping_validator_address config));
  cardano_network ← ok_or (network_id L address)
                      (CardanoNetworkError (mapping_validator_address config));
  cred ← ok_or (enterprise_payment_cred L address)
           (MappingValidatorInvalidAddress (bytes_of_string "Not EnterpriseAddress"));
  policy_id ← ok_or (to_scripthash L cred)
    (MappingValidatorInvalidAddress
       (bytes_of_string "MappingValidator address does not contain a script hash"));
  mret (cardano_network, policy_id).

Definition get_utxos_up_to_capacity (config : CNightAddresses) (start : CardanoPosition)
    (current_tip : list Z) (tx_capacity : Z) : outcome BoxedError ObservedUtxos :=
  '(cardano_network, policy_id) ← map_err Boxed_DataSource (mapping_validator config);
  block ← map_err Boxed_Sqlx (get_block_by_hash D current_tip);
  block ← ok_or block (Boxed_DataSource (MissingBlockReference current_tip));
  let end_ := increment (position_of_block block) in
  let utxo_capacity := wrap 64 (tx_capacity * 64) in
  registration_utxos ← map_err Boxed_DataSource
    (get_registration_utxos cardano_network policy_id (mapping_validator_address config)
       (auth_token_asset_name config) start end_ utxo_capacity 0);
  deregistration_utxos ← map_err Boxed_DataSource
    (get_deregistration_utxos cardano_network (mapping_validator_address config)
       start end_ utxo_capacity 0);
  asset_create_utxos ← map_err Boxed_DataSource
    (get_asset_create_utxos cardano_network (cnight_policy_id config) (cnight_asset_name config)
       start end_ utxo_capacity 0);
  asset_spend_utxos ← map_err Boxed_DataSource
    (get_asset_spend_utxos cardano_network (cnight_policy_id config) (cnight_asset_name config)
       start end_ utxo_capacity 0);
  mret (window start end_ tx_capacity
          (sort_utxos (registration_utxos ++ deregistration_utxos ++
                       asset_create_utxos ++ asset_spend_utxos))).
End DataSource.

(** ** The inherent data provider ([idp/cnight_observation.rs]) *)

(** [String::from_utf8]: the well-formed byte sequences of the Unicode standard. *)
Definition byte_in (lo hi b : Z) : bool := bool_decide (lo ≤ b) && bool_decide (b ≤ hi).
Fixpoint utf8_valid (l : list Z) : bool :=
  match l with
  | [] => true
  | a :: l1 =>
      if byte_in 0 127 a then utf8_valid l1 else
      match l1 with
      | [] => false
      | b :: l2 =>
          if byte_in 194 223 a then byte_in 128 191 b && utf8_valid l2 else
          match l2 with
          | [] => false
          | c :: l3 =>
              let c_ok := byte_in 128 191 c in
              if bool_decide (a = 224) then byte_in 160 191 b && c_ok && utf8_valid l3 else
              if bool_decide (a = 237) then byte_in 128 159 b && c_ok && utf8_valid l3 else
              if byte_in 225 239 a then byte_in 128 191 b && c_ok && utf8_valid l3 else
              match l3 with
              | [] => false
              | d :: l4 =>
                  let cd_ok := c_ok && byte_in 128 191 d in
                  if bool_decide (a = 240) then byte_in 144 191 b && cd_ok && utf8_valid l4 else
                  if byte_in 241 243 a then byte_in 128 191 b && cd_ok && utf8_valid l4 else
                  if bool_decide (a = 244) then byte_in 128 143 b && cd_ok && utf8_valid l4 else
                  false
              end
          end
      end
  end.
Definition from_utf8 (l : list Z) : option (list Z) := if utf8_valid l then Some l else None.

(** [<[u8; 28]>::try_from(Vec<u8>)]. *)
Definition policy_id_try_from (l : list Z) : option (list Z) :=
  if bool_decide (length l = 28%nat) then Some l else None.

(** The runtime API, as the client sees it at the parent block: each call may
    fail. *)
Record CNightObservationApi (ApiError : Type) : Type := {
  get_mapping_validator_address : outcome ApiError (list Z);
  get_auth_token_asset_name : outcome ApiError (list Z);
  get_cnight_token_identifier : outcome ApiError (list Z * list Z);
  get_next_cardano_position : outcome ApiError CardanoPosition;
  get_cardano_block_window_size : outcome ApiError Z;
  get_utxo_capacity_per_block : outcome ApiError Z;
}.

(** [impl CNightObservationApi for Runtime]. *)
Definition runtime_api {World ApiError} (s : @State World) : CNightObservationApi ApiError := {|
  get_mapping_validator_address := Ok (MainChainMappingValidatorAddress s);
  get_auth_token_asset_name := Ok (MainChainAuthTokenAssetName s);
  get_cnight_token_identifier := Ok (CNightIdentifier s);
  get_next_cardano_position := Ok (NextCardanoPosition s);
  get_cardano_block_window_size := Ok (CardanoBlockWindowSize s);
  get_utxo_capacity_per_block := Ok (CardanoTxCapacityPerBlock s);
|}.

Section Idp.
Context {L : CardanoLib} (D : Db L) {ApiErr : Type}.

Inductive IDPCreationError : Type :=
| DataSourceError (e : BoxedError D)
| DbSyncDataDiscrepancy
| ApiError (e : ApiErr)
| StringDecodeError
| McHashError
| InvalidOnchainStateCNight (what : string)
| AuthTokenAssetNameNotString.

Record MidnightCNightObservationInherentDataProvider : Type := {
  idp_utxos : list ObservedUtxo;
  idp_next_cardano_position : CardanoPosition;
}.

Definition idp_new (api : CNightObservationApi ApiErr) (mc_hash : list Z) :
    outcome IDPCreationError MidnightCNightObservationInherentDataProvider :=
  address ← map_err ApiError (get_mapping_validator_address _ api);
  address ← ok_or (from_utf8 address) StringDecodeError;
  utxo_capacity ← map_err ApiError (get_utxo_capacity_per_block _ api);
  '(policy_id, asset_name) ← map_err ApiError (get_cnight_token_identifier _ api);
  auth_name ← map_err ApiError (get_auth_token_asset_name _ api);
  auth_name ← ok_or (from_utf8 auth_name) AuthTokenAssetNameNotString;
  cardano_position_start ← map_err ApiError (get_next_cardano_position _ api);
  policy_id ← ok_or (policy_id_try_from policy_id) (InvalidOnchainStateCNight "cnight_policy_id");
  asset_name ← ok_or (from_utf8 asset_name) (InvalidOnchainStateCNight "cnight_asset_name");
  let config := {| mapping_validator_address := address; auth_token_asset_name := auth_name;
                   cnight_policy_id := policy_id; cnight_asset_name := asset_name |} in
  observed_utxos ← map_err DataSourceError
    (get_utxos_up_to_capacity D config cardano_position_start mc_hash utxo_capacity);
  mret {| idp_utxos := observed observed_utxos;
          idp_next_cardano_position := end_ observed_utxos |}.

(** [has_api] is the answer of [runtime_api().has_api(..)]. *)
Definition new_if_pallet_present (has_api : outcome ApiErr bool)
    (api : CNightObservationApi ApiErr) (mc_hash : list Z) :
    outcome IDPCreationError MidnightCNightObservationInherentDataProvider :=
  match has_api with
  | Ok true => idp_new api mc_hash
  | _ => mret {| idp_utxos := [];
                 idp_next_cardano_position :=
                   {| block_hash := repeat 0 32; block_number := 0;
                      block_timestamp := 0; tx_index_in_block := 0 |} |}
  end.

(** [provide_inherent_data]: what the pallet finds under its identifier. *)
Definition provide_inherent_data (p : MidnightCNightObservationInherentDataProvider) : InherentData :=
  Decoded (Some {| utxos := idp_utxos p; next_cardano_position := idp_next_cardano_position p |}).

(** [b"ntobsrve"]. *)
Definition INHERENT_IDENTIFIER : list Z := bytes_of_string "ntobsrve".

(** [try_handle_error]: [decode] reads an [InherentError]; the error is turned
    into an application error. *)
Definition try_handle_error (decode : list Z → option InherentError)
    (identifier error : list Z) : option (outcome InherentError unit) :=
  if bool_decide (identifier ≠ INHERENT_IDENTIFIER) then None
  else e ← decode error; Some (Err e).
End Idp.

(** ** What the database records

    The four queries as tables: rows with a position, an order and the UTXO a row
    stands for (none when it does not decode). *)

Record Table (L : CardanoLib) : Type := {
  Row : Type;
  row_position : Row → RowPosition L;
  row_cmp : Row → Row → comparison;
  row_utxo : Row → option ObservedUtxo;
  rows : list Row;
}.
Arguments Row {L} t.
Arguments row_position {L} t r.
Arguments row_cmp {L} t a b.
Arguments row_utxo {L} t r.
Arguments rows {L} t.

Definition ok_utxo (r : outcome Empty_set (option ObservedUtxo)) : option ObservedUtxo :=
  match r with Ok o => o | _ => None end.

Section Tables.
Context {L : CardanoLib} (D : Db L).

Definition tables (config : CNightAddresses) : outcome (BoxedError D) (list (Table L)) :=
  '(net, policy_id) ← map_err (Boxed_DataSource D) (mapping_validator D config);
  rs ← map_err (Boxed_Sqlx D) (registration_rows L D (mapping_validator_address config) policy_id
                                  (auth_token_asset_name config));
  ds ← map_err (Boxed_Sqlx D) (deregistration_rows L D (mapping_validator_address config));
  cs ← map_err (Boxed_Sqlx D) (asset_create_rows L D (cnight_policy_id config)
                                  (cnight_asset_name config));
  ss ← map_err (Boxed_Sqlx D) (asset_spend_rows L D (cnight_policy_id config)
                                  (cnight_asset_name config));
  mret [
    {| row_position := rr_position L;
       row_cmp a b := row_position_cmp (rr_position L a) (rr_position L b);
       row_utxo r := ok_utxo (registration_utxo net r); rows := rs |};
    {| row_position := dr_position L;
       row_cmp a b := row_position_cmp (dr_position L a) (dr_position L b);
       row_utxo r := ok_utxo (deregistration_utxo net r); rows := ds |};
    {| row_position := ac_position L;
       row_cmp a b := then_cmp (row_position_cmp (ac_position L a) (ac_position L b))
                               (ac_utxo_index L a ?= ac_utxo_index L b);
       row_utxo r := ok_utxo (asset_create_utxo net r); rows := cs |};
    {| row_position := as_position L;
       row_cmp a b := then_cmp (row_position_cmp (as_position L a) (as_position L b))
                               (as_utxo_index L a ?= as_utxo_index L b);
       row_utxo r := ok_utxo (asset_spend_utxo net r); rows := ss |} ].

(** All UTXOs of a table. *)
Definition table_utxos (t : Table L) : list ObservedUtxo := omap (row_utxo t) (rows t).

(** The rows a query selects, and the UTXOs it fetches. *)
Definition selected (start end_ : CardanoPosition) (t : Table L) : list (Row t) :=
  filter (λ r, in_window start end_ (row_position t r)) (rows t).
Definition fetched (start end_ : CardanoPosition) (limit : Z) (t : Table L) : list ObservedUtxo :=
  omap (row_utxo t) (page limit 0 (order_by D (row_cmp t) (selected start end_ t))).

(** The laws of [tables] that the arguments below use. *)
Record table_lawful (t : Table L) : Prop := {
  row_cmp_total : TotalCmp (row_cmp t);
  row_cmp_position a b :
    row_cmp t a b ≠ Gt → row_position_cmp (row_position t a) (row_position t b) ≠ Gt;
  row_utxo_position r u :
    row_utxo t r = Some u → tx_position (header u) = position_of_row (row_position t r);
}.
End Tables.

(** The contract of the library on reward addresses: a header byte and a hash of
    28 bytes. *)
Class CardanoLibSpec (L : CardanoLib) : Prop :=
  reward_address_bytes_length net cred :
    Z.of_nat (length (reward_address_bytes L net cred)) = CARDANO_REWARD_ADDRESS_LENGTH.

#[export] Instance row_position_cmp_total L : TotalCmp (@row_position_cmp L).
Proof.
  apply (then_cmp_total (λ a b, row_block_number L a ?= row_block_number L b)
                        (λ a b, row_tx_index_in_block L a ?= row_tx_index_in_block L b)).
Qed.

Lemma then_cmp_le c d : then_cmp c d ≠ Gt → c ≠ Gt.
Proof. by destruct c. Qed.

Section Fetching.
Context {L : CardanoLib} (D : Db L) `{!CardanoLibSpec L}.

Lemma reward_address_eq {E} net cred :
  reward_address (E := E) net cred = Ok (reward_address_bytes L net cred).
Proof.
  unfold reward_address, reward_address_try_from.
  by rewrite decide_True by apply reward_address_bytes_length.
Qed.

Lemma decode_registration_datum_returns d : decode_registration_datum (L := L) d ≠ Panic.
Proof.
  unfold decode_registration_datum. destruct (head _ ≫= _) as [[tag fs]|]; [|done]. simpl.
  destruct (_ !! 1%nat ≫= _) as [key|]; simpl; [destruct (dust_public_key_try_from key)|];
    repeat case_bool_decide; simpl; try done;
    by destruct (head fs ≫= _) as [b|]; simpl;
      [destruct (credential_from_keyhash_bytes L b), (credential_from_scripthash_bytes L b)|].
Qed.

(** Each row function is total, whatever the error type. *)
Lemma registration_utxo_eq {E} net (r : RegistrationRow L) :
  registration_utxo (E := E) net r = Ok (ok_utxo (registration_utxo net r)).
Proof.
  unfold registration_utxo. destruct (as_constr_plutus_data _ _) as [d|]; [|done].
  pose proof (decode_registration_datum_returns d).
  destruct (decode_registration_datum _) as [[cred key]|e|]; [|done|done].
  by rewrite !reward_address_eq.
Qed.

Lemma deregistration_utxo_eq {E} net (r : DeregistrationRow L) :
  deregistration_utxo (E := E) net r = Ok (ok_utxo (deregistration_utxo net r)).
Proof.
  unfold deregistration_utxo. destruct (as_constr_plutus_data _ _) as [d|]; [|done].
  pose proof (decode_registration_datum_returns d).
  destruct (decode_registration_datum _) as [[cred key]|e|]; [|done|done].
  by rewrite !reward_address_eq.
Qed.

Lemma asset_create_utxo_eq {E} net (r : AssetCreateRow L) :
  asset_create_utxo (E := E) net r = Ok (ok_utxo (asset_create_utxo net r)).
Proof.
  unfold asset_create_utxo. destruct (holder_stake_cred _); [|done]. by rewrite !reward_address_eq.
Qed.

Lemma asset_spend_utxo_eq {E} net (r : AssetSpendRow L) :
  asset_spend_utxo (E := E) net r = Ok (ok_utxo (asset_spend_utxo net r)).
Proof.
  unfold asset_spend_utxo. destruct (holder_stake_cred _); [|done]. by rewrite !reward_address_eq.
Qed.

Lemma for_rows_eq {E Row} (f : Row → outcome E (option ObservedUtxo)) g l :
  (∀ r, f r = Ok (g r)) → for_rows f l = Ok (omap g l).
Proof.
  intros Hf. induction l as [|r l IH]; simpl; [done|]. rewrite Hf, IH. simpl.
  by destruct (g r).
Qed.

(** The data source in closed form. *)
Lemma get_utxos_up_to_capacity_eq config start tip cap ts b :
  tables D config = Ok ts → get_block_by_hash D tip = Ok (Some b) →
  0 ≤ cap → cap * 64 < I32_MAX →
  let e := increment (position_of_block b) in
  get_utxos_up_to_capacity D config start tip cap =
    Ok (window start e cap (sort_utxos (concat (fetched D start e (cap * 64) <$> ts)))).
Proof.
  intros Ht Hb Hcap Hlim e. unfold tables in Ht. unfold get_utxos_up_to_capacity.
  destruct (mapping_validator D config) as [[net pol]|?|]; simplify_eq/=.
  rewrite Hb. simpl. fold e.
  rewrite wrap_small by (unfold in_range, I32_MAX, umax in *; lia).
  unfold get_registration_utxos, get_deregistration_utxos, get_asset_create_utxos,
    get_asset_spend_utxos, get_registrations, get_deregistrations, get_asset_creates,
    get_asset_spends, with_page_asserts.
  rewrite !(bool_decide_true (cap * 64 < I32_MAX)) by done. simpl.
  destruct (registration_rows L D _ _ _) as [rs|?|]; simplify_eq/=.
  destruct (deregistration_rows L D _) as [ds|?|]; simplify_eq/=.
  destruct (asset_create_rows L D _ _) as [cs|?|]; simplify_eq/=.
  destruct (asset_spend_rows L D _ _) as [ss|?|]; simplify_eq/=.
  rewrite (for_rows_eq _ _ _ (registration_utxo_eq net)). simpl.
  rewrite (for_rows_eq _ _ _ (deregistration_utxo_eq net)). simpl.
  rewrite (for_rows_eq _ _ _ (asset_create_utxo_eq net)). simpl.
  rewrite (for_rows_eq _ _ _ (asset_spend_utxo_eq net)). simpl.
  injection Ht as <-. simpl. by rewrite app_nil_r.
Qed.

Lemma tables_lawful config ts :
  tables D config = Ok ts → Forall (table_lawful (L := L)) ts.
Proof.
  unfold tables. intros Ht.
  destruct (mapping_validator D config) as [[net pol]|?|]; simplify_eq/=.
  destruct (registration_rows L D _ _ _) as [rs|?|]; simplify_eq/=.
  destruct (deregistration_rows L D _) as [ds|?|]; simplify_eq/=.
  destruct (asset_create_rows L D _ _) as [cs|?|]; simplify_eq/=.
  destruct (asset_spend_rows L D _ _) as [ss|?|]; simplify_eq/=.
  injection Ht as <-.
  rewrite !list.Forall_cons. split_and!; [..|constructor]; split; simpl;
    try typeclasses eauto; try done; try (intros a b; apply then_cmp_le); intros r u.
  - unfold registration_utxo. repeat (case_match; try done).
    rewrite reward_address_eq. by intros [= <-].
  - unfold deregistration_utxo. repeat (case_match; try done).
    rewrite reward_address_eq. by intros [= <-].
  - unfold asset_create_utxo. case_match; [|done]. rewrite reward_address_eq. by intros [= <-].
  - unfold asset_spend_utxo. case_match; [|done]. rewrite reward_address_eq. by intros [= <-].
Qed.
End Fetching.

(** ** Transactions and windows *)

Definition position_of (u : ObservedUtxo) : CardanoPosition := tx_position (header u).
(** The transaction a UTXO belongs to, and the transactions of a list. *)
Definition tx_of (u : ObservedUtxo) : Z * Z :=
  (block_number (position_of u), tx_index_in_block (position_of u)).
Definition txs (l : list ObservedUtxo) : gset (Z * Z) := list_to_set (tx_of <$> l).

(** The UTXOs in the half-open window from [a] to [b]. *)
Definition between (a b : CardanoPosition) (u : ObservedUtxo) : Prop :=
  position_cmp a (position_of u) ≠ Gt ∧ position_cmp (position_of u) b = Lt.
#[export] Instance between_dec a b u : Decision (between a b u).
Proof. unfold between. apply _. Defined.

Lemma position_lt_spec a b : position_lt a b = true ↔ position_cmp a b = Lt.
Proof. unfold position_lt. rewrite position_partial_cmp_total. by destruct (position_cmp a b). Qed.

Lemma tx_of_eq u v : tx_of u = tx_of v ↔ position_cmp (position_of u) (position_of v) = Eq.
Proof. rewrite position_cmp_eq. unfold tx_of. split; [by intros [=]|by intros [-> ->]]. Qed.

Lemma utxo_cmp_total a b : utxo_cmp a b = Some (observed_cmp a b).
Proof. apply header_partial_cmp_total. Qed.

Lemma sort_utxos_eq l : sort_utxos l = sort_by observed_cmp l.
Proof.
  unfold sort_utxos. induction l as [|x l IH]; simpl; [done|]. rewrite IH.
  generalize (sort_by observed_cmp l). intros k; induction k as [|y k IHk]; simpl; [done|].
  rewrite utxo_cmp_total. simpl. by rewrite IHk.
Qed.

Lemma observed_cmp_position u v :
  cmp_le observed_cmp u v → position_cmp (position_of u) (position_of v) ≠ Gt.
Proof. apply then_cmp_le. Qed.

Lemma observed_cmp_lt u v :
  position_cmp (position_of u) (position_of v) = Lt → observed_cmp u v = Lt.
Proof. unfold observed_cmp, header_cmp, position_of. by intros ->. Qed.

Lemma lt_increment p q :
  0 ≤ tx_index_in_block p < umax 32 →
  position_cmp q (increment p) = Lt ↔ position_cmp q p ≠ Gt.
Proof.
  intros Hp. unfold position_cmp, increment; simpl.
  rewrite wrap_small by (unfold in_range; lia).
  destruct (Z.compare_spec (block_number q) (block_number p)); simpl; [|done|done].
  rewrite Z.compare_lt_iff, Z.compare_le_iff. lia.
Qed.

Lemma txs_app l k : txs (l ++ k) = txs l ∪ txs k.
Proof. unfold txs. by rewrite fmap_app, list_to_set_app_L. Qed.

Lemma elem_of_txs t l : t ∈ txs l ↔ ∃ u, u ∈ l ∧ tx_of u = t.
Proof. unfold txs. rewrite elem_of_list_to_set, list_elem_of_fmap. naive_solver. Qed.

Lemma txs_subset l k : (∀ u, u ∈ l → u ∈ k) → txs l ⊆ txs k.
Proof. intros Hlk t. rewrite !elem_of_txs. naive_solver. Qed.

(** The transactions [seen] so far are all before [l] but for the current one. *)
Definition at_tx (seen : gset (Z * Z)) (cur : option CardanoPosition) (l : list ObservedUtxo) : Prop :=
  match cur with
  | None => seen = ∅
  | Some p => (block_number p, tx_index_in_block p) ∈ seen ∧
      (∀ u, u ∈ l → position_cmp p (position_of u) ≠ Gt) ∧
      (∀ u, u ∈ l → tx_of u ∈ seen → position_cmp p (position_of u) = Eq)
  end.
Definition starts_tx (cur : option CardanoPosition) (u : ObservedUtxo) : bool :=
  match cur with None => true | Some tx => position_lt tx (position_of u) end.

Lemma starts_tx_spec seen cur u l :
  at_tx seen cur (u :: l) → starts_tx cur u = negb (bool_decide (tx_of u ∈ seen)).
Proof.
  unfold at_tx, starts_tx. destruct cur as [p|]; [|intros ->; by rewrite bool_decide_false by set_solver].
  intros (Hp & Hle & Hc). specialize (Hle u ltac:(left)). specialize (Hc u ltac:(left)).
  case_bool_decide as Hin; simpl.
  - apply not_true_iff_false. rewrite position_lt_spec, Hc by done. done.
  - apply position_lt_spec. destruct (position_cmp p (position_of u)) eqn:Heq; [|done|done].
    destruct Hin. apply position_cmp_eq in Heq as [H1 H2]. unfold tx_of. by rewrite <-H1, <-H2.
Qed.

Lemma at_tx_step seen cur u l :
  StronglySorted (cmp_le observed_cmp) (u :: l) → at_tx seen cur (u :: l) →
  at_tx (seen ∪ {[tx_of u]}) (if starts_tx cur u then Some (position_of u) else cur) l.
Proof.
  intros [_ Hu]%StronglySorted_inv Hat. rewrite list.Forall_forall in Hu.
  pose proof (starts_tx_spec _ _ _ _ Hat) as Hstart.
  assert (∀ v, v ∈ l → position_cmp (position_of u) (position_of v) ≠ Gt) as Hul
    by (intros; by apply observed_cmp_position, Hu).
  destruct (starts_tx cur u) eqn:Hs.
  - split_and!; [set_solver|done|]. intros v Hv [Hin|Hin%elem_of_singleton]%elem_of_union;
      [|by apply tx_of_eq].
    destruct cur as [p|]; [|by unfold at_tx in Hat; set_solver]. destruct Hat as (_ & _ & Hc).
    exfalso. apply position_lt_spec in Hs.
    pose proof (cmp_lt_le_trans position_cmp _ _ _ Hs (Hul v Hv)) as Hpv.
    rewrite (Hc v (list_elem_of_further _ _ _ Hv) Hin) in Hpv. done.
  - destruct cur as [p|]; [|done]. destruct Hat as (Hp & Hle & Hc).
    case_bool_decide as Hu'; [|done]. split_and!; [by apply elem_of_union_l|intros; apply Hle; by right|].
    intros v Hv [Hin|Hin%elem_of_singleton]%elem_of_union; apply Hc; [by right|done|by right|].
    by rewrite Hin.
Qed.

(** The truncation loop, started after the transactions [seen]: either
    everything is kept, or what is kept are the UTXOs of the first transactions,
    one short of the capacity. *)
Lemma truncate_utxos_spec cap l : ∀ seen cur,
  StronglySorted (cmp_le observed_cmp) l → Z.of_nat (size seen) < cap → at_tx seen cur l →
  let '(n, kept) := truncate_utxos cap (Z.of_nat (size seen)) cur l in
  (kept = l ∧ n = Z.of_nat (size (seen ∪ txs l)) ∧ n < cap) ∨
  (∃ x rest, l = kept ++ x :: rest ∧ n = cap ∧ Z.of_nat (size (seen ∪ txs kept)) = cap - 1 ∧
     tx_of x ∉ seen ∪ txs kept).
Proof.
  induction l as [|u l IH]; intros seen cur Hl Hcap Hat; simpl.
  { left. unfold txs. simpl. by rewrite (right_id_L ∅ (∪)). }
  pose proof (at_tx_step _ _ _ _ Hl Hat) as Hat'.
  pose proof (starts_tx_spec _ _ _ _ Hat) as Hs.
  fold (position_of u) (starts_tx cur u).
  assert ((if starts_tx cur u then Z.of_nat (size seen) + 1 else Z.of_nat (size seen)) =
          Z.of_nat (size (seen ∪ {[tx_of u]}))) as ->.
  { rewrite Hs. case_bool_decide; simpl.
    - do 2 f_equal. set_solver.
    - rewrite size_union, size_singleton by set_solver. lia. }
  apply StronglySorted_inv in Hl as [Hl _].
  assert (∀ k, seen ∪ txs (u :: k) = seen ∪ {[tx_of u]} ∪ txs k) as Htxs.
  { intros k. unfold txs. simpl. by rewrite (assoc_L (∪)). }
  destruct (decide (tx_of u ∈ seen)) as [Hin|Hin].
  - assert (seen ∪ {[tx_of u]} = seen) as Heq by set_solver. rewrite !Heq in *.
    rewrite bool_decide_false by lia. specialize (IH _ _ Hl Hcap Hat').
    destruct (truncate_utxos _ _ _ _) as [n kept]. rewrite Htxs.
    destruct IH as [(-> & ? & ?)|(x & rest & -> & ? & ? & ?)]; [by left|].
    right. exists x, rest. by rewrite Htxs.
  - assert (size (seen ∪ {[tx_of u]}) = size seen + 1)%nat as Hsz
      by (rewrite size_union, size_singleton by set_solver; lia).
    clear Hs. case_bool_decide.
    + right. exists u, l. unfold txs; simpl. rewrite (right_id_L ∅ (∪)). split_and!; [done|done|lia|done].
    + assert (Z.of_nat (size (seen ∪ {[tx_of u]})) < cap) as Hlt by lia.
      specialize (IH _ _ Hl Hlt Hat').
      destruct (truncate_utxos _ _ _ _) as [n kept]. rewrite Htxs.
      destruct IH as [(-> & ? & ?)|(x & rest & -> & ? & ? & ?)]; [by left|].
      right. exists x, rest. by rewrite Htxs.
Qed.

(** The window cut from a sorted list that ends before [e]: it holds what is
    before its end; and it reaches [e], or holds one transaction less than the
    capacity and ends just after the last of them. *)
Lemma window_spec s e cap l :
  2 ≤ cap → StronglySorted (cmp_le observed_cmp) l →
  (∀ u, u ∈ l → position_cmp (position_of u) e = Lt ∧
     0 ≤ tx_index_in_block (position_of u) < umax 32) →
  let w := window s e cap l in
  observed w = filter (λ u, position_cmp (position_of u) (end_ w) = Lt) l ∧
  position_cmp (end_ w) e ≠ Gt ∧
  (end_ w = e ∧ Z.of_nat (size (txs l)) < cap ∨
   Z.of_nat (size (txs (observed w))) = cap - 1 ∧
   ∃ u, u ∈ observed w ∧ end_ w = increment (position_of u)).
Proof.
  intros Hcap Hl Hu. unfold window.
  pose proof (truncate_utxos_spec cap l ∅ None Hl ltac:(rewrite size_empty; lia) eq_refl) as Htr.
  rewrite size_empty in Htr. change (Z.of_nat 0) with 0 in Htr.
  destruct (truncate_utxos cap 0 None l) as [n kept].
  rewrite (left_id_L ∅ (∪)) in Htr. destruct Htr as [(-> & -> & Hn)|(x & rest & -> & -> & Hsz & Hx)].
  { rewrite bool_decide_true by done. simpl. split_and!; [|by rewrite cmp_refl by apply _|by left].
    symmetry. apply filter_all. intros u Hin. by apply Hu. }
  rewrite (left_id_L ∅ (∪)) in Hsz, Hx. rewrite bool_decide_false by lia. simpl.
  destruct (last kept) as [u|] eqn:Hlast.
  2:{ apply last_None in Hlast as ->. change (size (txs [])) with 0%nat in Hsz. lia. }
  simpl. fold (position_of u). apply last_Some in Hlast as [init ->].
  assert (u ∈ init ++ [u]) as Hin by set_solver.
  assert (0 ≤ tx_index_in_block (position_of u) < umax 32) as Hidx by (apply Hu; set_solver).
  apply StronglySorted_app_inv in Hl as (Hkept & Hrest & Hcross).
  apply StronglySorted_app_inv in Hkept as (_ & _ & Hinit).
  assert (∀ v, v ∈ x :: rest → position_cmp (position_of u) (position_of v) = Lt) as Hafter.
  { intros v Hv. pose proof (observed_cmp_position _ _ (Hcross u x Hin ltac:(left))) as Hux.
    assert (tx_of u ≠ tx_of x) as Hne by (intros Heq; apply Hx, elem_of_txs; eauto).
    rewrite tx_of_eq in Hne.
    assert (position_cmp (position_of u) (position_of x) = Lt) as Hlt
      by by destruct (position_cmp (position_of u) (position_of x)).
    apply elem_of_cons in Hv as [->|Hv]; [done|].
    apply StronglySorted_inv in Hrest as [_ Hxr]. rewrite list.Forall_forall in Hxr.
    by eapply (cmp_lt_le_trans position_cmp), observed_cmp_position, Hxr. }
  assert (∀ v, v ∈ x :: rest → position_cmp (position_of v) (increment (position_of u)) ≠ Lt) as Hout.
  { intros v Hv. rewrite lt_increment by done. rewrite (cmp_flip position_cmp (position_of u)), Hafter by done.
    simpl. tauto. }
  split_and!; [..|right; split; [done|by eauto]].
  - rewrite list.filter_app. rewrite (filter_none _ (x :: rest)) by done.
    rewrite app_nil_r. symmetry. apply filter_all. intros v Hv. apply lt_increment; [done|].
    apply elem_of_app in Hv as [Hv|Hv%list_elem_of_singleton];
      [|subst; by rewrite cmp_refl by apply _].
    apply observed_cmp_position, Hinit; [done|by left].
  - specialize (Hout x ltac:(left)). assert (position_cmp (position_of x) e = Lt) as Hxe by (apply Hu; set_solver).
    eapply (cmp_le_trans position_cmp _ (position_of x)); [|by rewrite Hxe].
    by apply (cmp_not_lt position_cmp).
Qed.

(** Fewer transactions than the capacity: nothing is cut. *)
Lemma window_uncut s e cap l :
  1 ≤ cap → StronglySorted (cmp_le observed_cmp) l → Z.of_nat (size (txs l)) < cap →
  end_ (window s e cap l) = e ∧ observed (window s e cap l) = l.
Proof.
  intros Hcap Hl Hsz. unfold window.
  pose proof (truncate_utxos_spec cap l ∅ None Hl ltac:(rewrite size_empty; lia) eq_refl) as Htr.
  rewrite size_empty in Htr. change (Z.of_nat 0) with 0 in Htr.
  destruct (truncate_utxos cap 0 None l) as [n kept].
  destruct Htr as [(-> & -> & Hn)|(x & rest & -> & -> & Hkept & Hx)].
  - by rewrite bool_decide_true by done.
  - exfalso. rewrite (left_id_L ∅ (∪)) in Hkept, Hx.
    assert (size ({[tx_of x]} ∪ txs kept) ≤ size (txs (kept ++ x :: rest)))%nat as Hle.
    { apply subseteq_size. intros t. rewrite elem_of_union, elem_of_singleton, !elem_of_txs.
      intros [->|(u & Hu & <-)]; [exists x|exists u]; split; try done;
        apply elem_of_app; [right; left|by left]. }
    rewrite size_union, size_singleton in Hle by (by apply disjoint_singleton_l). lia.
Qed.

(** ** Completeness of the window *)

(** A position whose numbers survive the casts to [i32] of the queries. *)
Definition i32_position (p : CardanoPosition) : Prop :=
  0 ≤ block_number p ≤ I32_MAX ∧ 0 ≤ tx_index_in_block p ≤ I32_MAX.

Section Completeness.
Context {L : CardanoLib} (D : Db L) `{!CardanoLibSpec L, !OrderBySpec L D}.

(** What db-sync guarantees of the rows of a query: the numbers are
    non-negative [integer]s, and an output is created or spent once, so no two
    rows of a query stand for the same UTXO event. *)
Record table_sound (t : Table L) : Prop := {
  sound_positions r : r ∈ rows t → i32_position (position_of_row (row_position t r));
  sound_distinct u v : u ∈ table_utxos t → v ∈ table_utxos t → observed_cmp u v = Eq → u = v;
}.

(** The limit of a query does not bite: either it fetched all it selected, or what
    it fetched spans the capacity of transactions by itself. *)
Definition adequate (s e : CardanoPosition) (cap : Z) (t : Table L) : Prop :=
  Z.of_nat (length (selected s e t)) ≤ cap * 64 ∨
  cap ≤ Z.of_nat (size (txs (fetched D s e (cap * 64) t))).

Lemma as_i32_id x : 0 ≤ x ≤ I32_MAX → as_i32 x = x.
Proof.
  unfold as_i32, I32_MAX. intros Hx. rewrite wrap_small by (unfold in_range, umax; lia).
  by rewrite bool_decide_true by lia.
Qed.

Lemma in_window_between s e (t : Table L) r u :
  i32_position s → i32_position e → table_lawful t → row_utxo t r = Some u →
  in_window s e (row_position t r) = true ↔ between s e u.
Proof.
  intros [??] [??] Ht Hu. unfold in_window, between, position_of.
  rewrite (row_utxo_position _ Ht _ _ Hu). unfold position_cmp, position_of_row; simpl.
  rewrite !as_i32_id by done.
  generalize (row_block_number L (row_position t r)), (row_tx_index_in_block L (row_position t r)).
  intros b i. rewrite !andb_true_iff, !orb_true_iff, !andb_true_iff, !bool_decide_eq_true.
  destruct (Z.compare_spec (block_number s) b), (Z.compare_spec b (block_number e)); simpl;
    rewrite ?Z.compare_le_iff, ?Z.compare_lt_iff;
    (split; [intros (? & ?); split; (done || lia)|intros [? ?]; try done; lia]).
Qed.

Lemma selected_utxos s e (t : Table L) :
  i32_position s → i32_position e → table_lawful t →
  omap (row_utxo t) (selected s e t) = filter (between s e) (table_utxos t).
Proof.
  intros Hs He Ht. unfold selected, table_utxos.
  induction (rows t) as [|r l IH]; [done|]. rewrite filter_cons, omap_cons_eq.
  destruct (row_utxo t r) as [u|] eqn:Hu.
  - pose proof (in_window_between s e t r u Hs He Ht Hu) as Hw. rewrite filter_cons.
    destruct (decide (between s e u)) as [Hb|Hb].
    + rewrite decide_True by (by apply Is_true_true, Hw). by rewrite omap_cons_eq, Hu, IH.
    + by rewrite decide_False, IH by (rewrite Is_true_true; tauto).
  - case_decide; by rewrite ?omap_cons_eq, ?Hu, IH.
Qed.

(** What a query fetches, and the rest it would have fetched without the limit. *)
Lemma fetched_split s e lim (t : Table L) :
  i32_position s → i32_position e → table_lawful t → 0 ≤ lim →
  ∃ rest, fetched D s e lim t ++ rest ≡ₚ filter (between s e) (table_utxos t) ∧
    (Z.of_nat (length (selected s e t)) ≤ lim → rest = []) ∧
    ∀ u v, u ∈ fetched D s e lim t → v ∈ rest → position_cmp (position_of u) (position_of v) ≠ Gt.
Proof.
  intros Hs He Ht Hlim. unfold fetched, page. simpl. rewrite drop_0.
  pose proof (row_cmp_total _ Ht).
  set (ord := order_by D (row_cmp t) (selected s e t)).
  assert (ord ≡ₚ selected s e t) as Hperm by apply order_by_perm, _.
  assert (StronglySorted (cmp_le (row_cmp t)) ord) as Hsort by (by apply order_by_sorted).
  exists (omap (row_utxo t) (drop (Z.to_nat lim) ord)). split_and!.
  - rewrite <-omap_app, take_drop, <-(selected_utxos s e t) by done. by rewrite Hperm.
  - intros Hlen. rewrite drop_ge; [done|]. rewrite Hperm. lia.
  - rewrite <-(take_drop (Z.to_nat lim) ord) in Hsort.
    apply StronglySorted_app_inv in Hsort as (_ & _ & Hcross).
    intros u v (r & Hr & Hu)%list_elem_of_omap (q & Hq & Hv)%list_elem_of_omap.
    pose proof (row_cmp_position _ Ht _ _ (Hcross r q Hr Hq)) as Hle.
    unfold position_of. rewrite (row_utxo_position _ Ht _ _ Hu), (row_utxo_position _ Ht _ _ Hv).
    exact Hle.
Qed.

Section Cut.
Context (s e : CardanoPosition) (cap : Z) (ts : list (Table L)).
Context (Hs : i32_position s) (He : i32_position e) (Hcap : 2 ≤ cap).
Context (Hlawful : Forall table_lawful ts) (Hsound : Forall table_sound ts).
Context (Hadequate : Forall (adequate s e cap) ts).

Let found : list ObservedUtxo := concat (fetched D s e (cap * 64) <$> ts).
Let w : ObservedUtxos := window s e cap (sort_utxos found).

Lemma found_recorded u :
  u ∈ found → ∃ t r, t ∈ ts ∧ r ∈ rows t ∧ row_utxo t r = Some u ∧ between s e u.
Proof.
  unfold found. rewrite elem_of_concat. intros (l & (t & -> & Ht)%list_elem_of_fmap & Hu).
  rewrite list.Forall_forall in Hlawful.
  destruct (fetched_split s e (cap * 64) t Hs He (Hlawful t Ht) ltac:(lia)) as (rest & Hperm & _ & _).
  assert (u ∈ filter (between s e) (table_utxos t)) as [Hb Hin]%list_elem_of_filter
    by (rewrite <-Hperm; apply elem_of_app; by left).
  apply list_elem_of_omap in Hin as (r & Hr & Hru). by exists t, r.
Qed.

Lemma found_spec u :
  u ∈ found → between s e u ∧ 0 ≤ tx_index_in_block (position_of u) < umax 32.
Proof.
  intros (t & r & Ht & Hr & Hru & Hb)%found_recorded. split; [done|].
  rewrite list.Forall_forall in Hlawful, Hsound.
  destruct (sound_positions _ (Hsound t Ht) r Hr) as [_ Hi].
  unfold position_of. rewrite (row_utxo_position _ (Hlawful t Ht) _ _ Hru).
  unfold umax, I32_MAX in *. lia.
Qed.

Lemma cut_spec :
  observed w = filter (λ u, position_cmp (position_of u) (end_ w) = Lt) (sort_utxos found) ∧
  position_cmp (end_ w) e ≠ Gt ∧
  (end_ w = e ∨ position_cmp s (end_ w) = Lt) ∧
  Z.of_nat (size (txs (observed w))) < cap.
Proof.
  destruct (window_spec s e cap (sort_utxos found)) as (Hobs & Hle & Hcase).
  - done.
  - rewrite sort_utxos_eq. apply sort_by_sorted, _.
  - intros u. rewrite sort_utxos_eq, sort_by_perm. intros [[??]?]%found_spec. done.
  - fold w in Hobs, Hle, Hcase. split_and!; [done|done|..].
    + destruct Hcase as [[? _]|(_ & u & Hu & Hend)]; [by left|right]. rewrite Hend.
      rewrite Hobs, list_elem_of_filter, sort_utxos_eq, sort_by_perm in Hu.
      destruct Hu as [_ [[Hsu _] Hi]%found_spec]. by apply lt_increment.
    + destruct Hcase as [[_ Hsz]|[Hsz _]]; [|lia].
      eapply Z.le_lt_trans; [|exact Hsz]. apply inj_le, subseteq_size, txs_subset.
      intros u. rewrite Hobs. by intros [_ ?]%list_elem_of_filter.
Qed.

(** A window that does not reach [e] ends just after a recorded UTXO. *)
Lemma cut_progress :
  end_ w = e ∨
  ∃ t r u, t ∈ ts ∧ r ∈ rows t ∧ row_utxo t r = Some u ∧ between s e u ∧
    end_ w = increment (position_of u).
Proof.
  destruct (window_spec s e cap (sort_utxos found)) as (Hobs & _ & Hcase).
  - done.
  - rewrite sort_utxos_eq. apply sort_by_sorted, _.
  - intros u. rewrite sort_utxos_eq, sort_by_perm. intros [[??]?]%found_spec. done.
  - destruct Hcase as [[? _]|(_ & u & Hu & Hend)]; [by left|right].
    fold w in Hobs, Hu, Hend. rewrite Hobs, list_elem_of_filter, sort_utxos_eq, sort_by_perm in Hu.
    destruct Hu as [_ (t & r & ? & ? & ? & ?)%found_recorded]. by exists t, r, u.
Qed.

(** Below the end of the window a query missed nothing. *)
Lemma fetched_below_end t :
  t ∈ ts →
  filter (λ u, position_cmp (position_of u) (end_ w) = Lt) (fetched D s e (cap * 64) t) ≡ₚ
  filter (between s (end_ w)) (table_utxos t).
Proof.
  intros Ht. destruct cut_spec as (Hobs & Hle & _ & Hsz).
  rewrite list.Forall_forall in Hlawful, Hadequate.
  destruct (fetched_split s e (cap * 64) t Hs He (Hlawful t Ht) ltac:(lia))
    as (rest & Hperm & Hall & Hlater).
  assert (filter (λ u, position_cmp (position_of u) (end_ w) = Lt) rest = []) as Hrest.
  { apply filter_none. intros v Hv Hlt.
    destruct (Hadequate t Ht) as [Had|Had]; [by rewrite (Hall Had) in Hv; apply elem_of_nil in Hv|].
    assert (size (txs (fetched D s e (cap * 64) t)) ≤ size (txs (observed w)))%nat; [|lia].
    apply subseteq_size, txs_subset. intros u Hu. rewrite Hobs, list_elem_of_filter, sort_utxos_eq,
      sort_by_perm. split.
    - by eapply (cmp_le_lt_trans position_cmp); [apply Hlater|].
    - apply elem_of_concat. exists (fetched D s e (cap * 64) t).
      split; [|done]. by apply list_elem_of_fmap_2. }
  rewrite <-(app_nil_r (filter _ (fetched _ _ _ _ _))), <-Hrest, <-list.filter_app, Hperm.
  rewrite list_filter_filter. rewrite (list_filter_iff _ (between s (end_ w))); [done|]. intros u. unfold between.
  split; [naive_solver|]. intros [? ?]. split_and!; [done|done|].
  by eapply (cmp_lt_le_trans position_cmp).
Qed.

Lemma window_exact :
  observed w = sort_utxos (filter (between s (end_ w)) (concat (table_utxos <$> ts))).
Proof.
  destruct cut_spec as (Hobs & _). rewrite Hobs, !sort_utxos_eq, (filter_sort_by observed_cmp).
  - unfold found. rewrite !filter_concat. apply sort_by_parts; [apply _|].
    rewrite <-!list_fmap_compose. apply Forall2_fmap, Forall_Forall2_diag, list.Forall_forall.
    intros t Ht. simpl. split; [by apply fetched_below_end|]. intros u v Hu Hv.
    rewrite (fetched_below_end t Ht) in Hu, Hv. rewrite list.Forall_forall in Hsound.
    apply list_elem_of_filter in Hu as [_ Hu], Hv as [_ Hv].
    by apply (sound_distinct _ (Hsound t Ht)).
  - intros u v _ _ Hu Hv. apply observed_cmp_lt.
    eapply (cmp_lt_le_trans position_cmp); [exact Hu|]. by apply (cmp_not_lt position_cmp).
Qed.
End Cut.

(** A run of the follower: window after window from the position reached, each
    read at its own tip and capacity and accepted by the pallet (the position
    does not regress). *)
Inductive follows (config : CNightAddresses) (ts : list (Table L)) :
    CardanoPosition → list ObservedUtxo → CardanoPosition → Prop :=
| follows_done p : follows config ts p [] p
| follows_window p tip b cap w l q :
    get_block_by_hash D tip = Ok (Some b) →
    i32_position p → i32_position (increment (position_of_block b)) →
    2 ≤ cap → cap * 64 < I32_MAX →
    Forall (adequate p (increment (position_of_block b)) cap) ts →
    get_utxos_up_to_capacity D config p tip cap = Ok w →
    position_cmp p (end_ w) ≠ Gt →
    follows config ts (end_ w) l q →
    follows config ts p (observed w ++ l) q.

(** What the window holds, for use below. *)
Lemma get_utxos_exact config ts s tip b cap w :
  tables D config = Ok ts → Forall table_sound ts → get_block_by_hash D tip = Ok (Some b) →
  i32_position s → i32_position (increment (position_of_block b)) →
  2 ≤ cap → cap * 64 < I32_MAX →
  Forall (adequate s (increment (position_of_block b)) cap) ts →
  get_utxos_up_to_capacity D config s tip cap = Ok w →
  observed w = sort_utxos (filter (between s (end_ w)) (concat (table_utxos <$> ts))) ∧
  Z.of_nat (size (txs (observed w))) < cap.
Proof.
  intros Hts Hsound Hb Hs He Hcap Hlim Had Hget.
  pose proof (tables_lawful D config ts Hts) as Hlaw.
  rewrite (get_utxos_up_to_capacity_eq D config s tip cap ts b Hts Hb ltac:(lia) Hlim) in Hget.
  injection Hget as <-. split; [by apply window_exact|by apply cut_spec].
Qed.

(** The window is complete: if the limit of no query bites, the data source succeeds
    and returns exactly the recorded UTXOs from the start position on that lie before
    the end it announces; the end is just after the tip, or lies strictly beyond the
    start and not beyond the tip. *)
Lemma window_complete config ts s tip b cap :
  tables D config = Ok ts → Forall table_sound ts → get_block_by_hash D tip = Ok (Some b) →
  let e := increment (position_of_block b) in
  i32_position s → i32_position e → 2 ≤ cap → cap * 64 < I32_MAX →
  Forall (adequate s e cap) ts →
  ∃ w, get_utxos_up_to_capacity D config s tip cap = Ok w ∧
    observed w = sort_utxos (filter (between s (end_ w)) (concat (table_utxos <$> ts))) ∧
    position_cmp (end_ w) e ≠ Gt ∧ (end_ w = e ∨ position_cmp s (end_ w) = Lt).
Proof.
  intros Hts Hsound Hb e Hs He Hcap Hlim Had.
  pose proof (tables_lawful D config ts Hts) as Hlaw. eexists.
  split; [by apply (get_utxos_up_to_capacity_eq D config s tip cap ts b); [..|lia|]|].
  split; [by apply window_exact|].
  by destruct (cut_spec s e cap ts Hs He Hcap Hlaw Hsound) as (_ & ? & ? & _).
Qed.

(** The windows of a run together. *)
Lemma follows_partition config ts p l q :
  tables D config = Ok ts → Forall table_sound ts → follows config ts p l q →
  l = sort_utxos (filter (between p q) (concat (table_utxos <$> ts))) ∧ position_cmp p q ≠ Gt.
Proof.
  intros Hts Hsound. induction 1 as [p|p tip b cap w l q Hb Hp He Hcap Hlim Had Hget Hle _ [-> Hle']].
  { split; [|by rewrite cmp_refl by apply _]. rewrite filter_none; [done|].
    intros u _ [H1 H2]. rewrite (cmp_flip position_cmp (position_of u) p), H2 in H1. done. }
  split; [|by eapply (cmp_le_trans position_cmp)].
  destruct (get_utxos_exact config ts p tip b cap w) as [-> _]; [done..|].
  rewrite !sort_utxos_eq.
  rewrite (sort_by_split observed_cmp (λ u, position_cmp (position_of u) (end_ w) = Lt)
             (filter (between p q) _)), !list_filter_filter.
  - f_equal; f_equal; apply list_filter_iff; intros u; unfold between; split.
    + intros [? H]. split_and!; [done|done|]. by eapply (cmp_lt_le_trans position_cmp).
    + naive_solver.
    + intros [H ?]. split_and!; [..|done].
      * by apply (cmp_not_lt position_cmp).
      * by eapply (cmp_le_trans position_cmp).
    + intros (H & ? & ?). split; [|done]. by apply (cmp_not_lt position_cmp).
  - intros u v _ _ Hu Hv. apply observed_cmp_lt. eapply (cmp_lt_le_trans position_cmp); [exact Hu|].
    by apply (cmp_not_lt position_cmp).
Qed.

(** C6: while the limits of the queries do not bite, nothing is lost and nothing is
    seen twice.  In a run of windows under one configuration each starts where the one
    before it has ended, and each is read with a capacity of at least two transactions
    (and below 2^25), at positions that fit [i32], without regress, and with every
    query within its limit: it selects at most 64 rows per transaction of the capacity,
    or those it fetches fill the capacity alone.  Then the windows, one after the
    other, are together the recorded UTXOs from the first position on that lie before
    the last, each once and in order.  Of db-sync it takes that no query has two rows
    for one event of a UTXO. *)
Theorem windows_partition config ts p l q :
  tables D config = Ok ts → Forall table_sound ts → follows config ts p l q →
  l = sort_utxos (filter (between p q) (concat (table_utxos <$> ts))) ∧ position_cmp p q ≠ Gt.
Proof. apply follows_partition. Qed.

(** ** From the database to the pallet *)

(** The configuration [idp_new] reads from the parent state. *)
Definition config_of {World} (s : @State World) : option CNightAddresses :=
  a ← from_utf8 (MainChainMappingValidatorAddress s);
  n ← from_utf8 (MainChainAuthTokenAssetName s);
  p ← policy_id_try_from (CNightIdentifier s).1;
  c ← from_utf8 (CNightIdentifier s).2;
  Some {| mapping_validator_address := a; auth_token_asset_name := n;
          cnight_policy_id := p; cnight_asset_name := c |}.

Lemma idp_new_eq {World ApiErr} (s : @State World) config tip w :
  config_of s = Some config →
  get_utxos_up_to_capacity D config (NextCardanoPosition s) tip (CardanoTxCapacityPerBlock s) = Ok w →
  idp_new D (runtime_api (ApiError := ApiErr) s) tip =
    Ok {| idp_utxos := observed w; idp_next_cardano_position := end_ w |}.
Proof.
  unfold config_of, idp_new, runtime_api. intros Hc Hget. simpl.
  destruct (from_utf8 (MainChainMappingValidatorAddress s)) as [a|]; simplify_eq/=.
  destruct (CNightIdentifier s) as [pol name]. simpl in *.
  destruct (from_utf8 (MainChainAuthTokenAssetName s)) as [n|]; simplify_eq/=.
  destruct (policy_id_try_from pol) as [p|]; simplify_eq/=.
  destruct (from_utf8 name) as [c|]; simplify_eq/=.
  by rewrite Hget.
Qed.

(** C5: the window that a provider proposes is complete.  Conditions: the parent state
    has a readable configuration and a capacity of at least two transactions (and below
    2^25); the Cardano tip is recorded and the positions fit [i32]; no query has two
    rows for one event of a UTXO; and the limit of no query bites, that is, it selects
    at most 64 rows per transaction of the capacity, or the rows it fetches fill the
    capacity alone.  Then the provider is built.  It holds exactly the recorded UTXOs
    from the next position of the pallet on that lie before the next position it
    proposes, in the order of [ObservedUtxo], whatever order Postgres gives to rows of
    the same transaction.  The proposed position is just after the tip, or strictly
    beyond the old one and not beyond the tip. *)
Theorem provider_window_complete {World ApiErr} (s : @State World) config ts tip b :
  config_of s = Some config → tables D config = Ok ts → Forall table_sound ts →
  get_block_by_hash D tip = Ok (Some b) →
  let p := NextCardanoPosition s in let e := increment (position_of_block b) in
  let cap := CardanoTxCapacityPerBlock s in
  i32_position p → i32_position e → 2 ≤ cap → cap * 64 < I32_MAX → Forall (adequate p e cap) ts →
  ∃ provider, idp_new D (runtime_api (ApiError := ApiErr) s) tip = Ok provider ∧
    let next := idp_next_cardano_position provider in
    idp_utxos provider = sort_utxos (filter (between p next) (concat (table_utxos <$> ts))) ∧
    position_cmp next e ≠ Gt ∧ (next = e ∨ position_cmp p next = Lt).
Proof.
  intros Hc Hts Hsound Hb p e cap Hp He Hcap Hlim Had.
  destruct (window_complete config ts p tip b cap) as (w & Hget & Hw); [done..|].
  eexists. split; [by eapply idp_new_eq|]. exact Hw.
Qed.

(** At most [k] UTXOs per transaction bound the length by the transactions. *)
Lemma length_by_txs (k : nat) (X : gset (Z * Z)) : ∀ l : list ObservedUtxo,
  (∀ t, length (filter (λ u, tx_of u = t) l) ≤ k)%nat → (∀ u, u ∈ l → tx_of u ∈ X) →
  (length l ≤ k * size X)%nat.
Proof.
  induction X as [|t X Ht IH] using set_ind_L; intros l Hk Hl.
  { destruct l as [|u l]; [simpl; lia|]. specialize (Hl u ltac:(left)). set_solver. }
  rewrite size_union, size_singleton by set_solver.
  assert (length l = length (filter (λ u, tx_of u = t) l) + length (filter (λ u, tx_of u ≠ t) l))%nat
    as ->.
  { clear. induction l as [|u l IHl]; [done|]. rewrite !filter_cons.
    destruct (decide (tx_of u = t)) as [H|H].
    - rewrite decide_False by tauto. simpl. lia.
    - rewrite decide_True by done. simpl. lia. }
  specialize (Hk t) as Hkt. assert (length (filter (λ u, tx_of u ≠ t) l) ≤ k * size X)%nat; [|lia].
  apply IH.
  - intros t'. etrans; [apply filter_filter_length|apply (Hk t')].
  - intros u [Hut Hu]%list_elem_of_filter. specialize (Hl u Hu). set_solver.
Qed.

Section Accepted.
Context {World F ApiErr : Type} (T : Externals).
Context `{!MidnightSystemTransactionExecutor World F} `{StorageLayers}.

(** C7: the pallet accepts what the follower provides.  If the limit of no query
    bites, no Cardano transaction has more than 64 relevant UTXOs and the tip is
    not behind the position reached, then the provider can be built from the
    parent state, the pallet creates a [process_tokens] call from it that passes
    its own check, and executing the call in a block without one can only fail if
    the ledger refuses the system transaction. *)
Theorem provided_inherent_accepted (s : @State World) config ts tip b :
  config_of s = Some config → tables D config = Ok ts → Forall table_sound ts →
  get_block_by_hash D tip = Ok (Some b) →
  let e := increment (position_of_block b) in let cap := CardanoTxCapacityPerBlock s in
  i32_position (NextCardanoPosition s) → i32_position e →
  position_cmp (NextCardanoPosition s) e ≠ Gt →
  2 ≤ cap → cap * 64 < I32_MAX → Forall (adequate (NextCardanoPosition s) e cap) ts →
  (∀ t, length (filter (λ u, tx_of u = t) (concat (table_utxos <$> ts))) ≤ 64)%nat →
  InherentExecutedThisBlock s = false →
  ∃ provider l p, idp_new D (runtime_api (ApiError := ApiErr) s) tip = Ok provider ∧
    create_inherent (E := InherentError) (provide_inherent_data provider) =
      Ok (Some (Call_process_tokens l p)) ∧
    check_inherent (Call_process_tokens l p) (provide_inherent_data provider) = Ok tt ∧
    ∀ err s', process_tokens T NoOrigin l p s = (Err err, s') →
      ∃ f, err = with_default_info (Foreign f).
Proof.
  intros Hc Hts Hsound Hb e cap Hs He Htip Hcap Hlim Had Hfan Hflag.
  pose proof (get_utxos_up_to_capacity_eq D config (NextCardanoPosition s) tip cap ts b
                Hts Hb ltac:(lia) Hlim) as Hget.
  pose proof (tables_lawful D config ts Hts) as Hlaw.
  destruct (cut_spec (NextCardanoPosition s) e cap ts Hs He Hcap Hlaw Hsound) as (_ & _ & Hend & Hsz).
  pose proof (window_exact (NextCardanoPosition s) e cap ts Hs He Hcap Hlaw Hsound Had) as Hobs.
  simpl in Hget. fold e in Hget. set (w := window _ _ _ _) in *.
  eexists _, (observed w), (end_ w). split; [by eapply idp_new_eq|]. split; [done|]. split.
  { simpl. by rewrite !bool_decide_false by naive_solver. }
  intros err s' Hp.
  assert (Z.of_nat (length (observed w)) ≤ cap * 64) as Hlen.
  { assert (length (observed w) ≤ 64 * size (txs (observed w)))%nat; [|lia].
    apply length_by_txs; [|by intros u Hu; apply elem_of_txs; eauto].
    intros t. rewrite Hobs, sort_utxos_eq, sort_by_perm.
    etrans; [apply filter_filter_length|apply (Hfan t)]. }
  apply process_tokens_fails_in_ledger in Hp as (_ & _ & _ & f & _ & _ & _ & _ & ->); [by eauto|done|..].
  - rewrite wrap_small by (unfold in_range, umax, I32_MAX in *; lia).
    unfold sat_mul, UTXO_PER_TX_OVERESTIMATE, umax, I32_MAX in *. lia.
  - apply position_ge_spec. destruct Hend as [->|Hlt]; [done|by rewrite Hlt].
Qed.
End Accepted.

(**  what happens when the limit bites.  If the queries together fetch fewer
    transactions than the capacity, the window is announced up to the tip; so
    when one of them selected more rows than its limit (each standing for a
    UTXO), recorded UTXOs inside the announced window are missing from it, and
    since the next window starts at the announced end they are never observed. *)
Theorem overfull_window_skips_utxos config ts s tip b cap t :
  tables D config = Ok ts → get_block_by_hash D tip = Ok (Some b) →
  let e := increment (position_of_block b) in
  i32_position s → i32_position e → 1 ≤ cap → cap * 64 < I32_MAX →
  Z.of_nat (size (txs (concat (fetched D s e (cap * 64) <$> ts)))) < cap →
  t ∈ ts → (∀ r, r ∈ rows t → is_Some (row_utxo t r)) →
  cap * 64 < Z.of_nat (length (selected s e t)) →
  ∃ w, get_utxos_up_to_capacity D config s tip cap = Ok w ∧ end_ w = e ∧
    (length (observed w) < length (filter (between s (end_ w)) (concat (table_utxos <$> ts))))%nat.
Proof.
  intros Hts Hb e Hs He Hcap Hlim Hsz Ht Hdec Hover.
  pose proof (tables_lawful D config ts Hts) as Hlaw. rewrite list.Forall_forall in Hlaw.
  rewrite (get_utxos_up_to_capacity_eq D config s tip cap ts b Hts Hb ltac:(lia) Hlim). fold e.
  set (found := concat _) in *. eexists. split; [done|].
  destruct (window_uncut s e cap (sort_utxos found)) as [-> ->].
  - done.
  - rewrite sort_utxos_eq. apply sort_by_sorted, _.
  - eapply Z.le_lt_trans; [|exact Hsz]. apply inj_le, subseteq_size, txs_subset.
    intros u. by rewrite sort_utxos_eq, sort_by_perm.
  - split; [done|]. rewrite sort_utxos_eq, sort_by_length, filter_concat, <-list_fmap_compose.
    apply length_concat_lt.
    + intros t' Ht'. simpl.
      destruct (fetched_split s e (cap * 64) t' Hs He (Hlaw t' Ht') ltac:(lia)) as (rest & Hp & _).
      rewrite <-Hp, length_app. lia.
    + exists t. split; [done|]. simpl. rewrite <-(selected_utxos s e t) by auto.
      rewrite omap_length_all by (intros r [_ ?]%list_elem_of_filter; auto).
      unfold fetched, page. eapply Nat.le_lt_trans; [apply omap_length_le|].
      rewrite length_take. lia.
Qed.
End Completeness.

#[export] Instance i32_position_dec p : Decision (i32_position p).
Proof. unfold i32_position. apply _. Defined.

(** [table_sound], decided. *)
Lemma table_sound_check {L} (t : Table L) :
  bool_decide (Forall (λ r, i32_position (position_of_row (row_position t r))) (rows t) ∧
    Forall (λ u, Forall (λ v, observed_cmp u v = Eq → u = v) (table_utxos t)) (table_utxos t)) = true →
  table_sound t.
Proof.
  rewrite bool_decide_eq_true, !list.Forall_forall. intros [Hp Hd]. split; [done|].
  intros u v Hu Hv. specialize (Hd u Hu). rewrite list.Forall_forall in Hd. auto.
Qed.

(** ** A concrete database *)

Module Concrete.
Inductive Plutus : Type :=
| Constr (tag : Z) (fields : list Plutus)
| Bytes (b : list Z).

(** Addresses are byte strings: 1 starts the address of a script, 2 one with a
    stake part. *)
Definition lib : CardanoLib := {|
  Address := list Z; Credential := list Z; PlutusData := Plutus; NaiveDateTime := Z;
  address_from_bech32 := λ a, Ok a;
  network_id := λ _, Some 0;
  enterprise_payment_cred := λ a, match a with 1 :: c => Some c | _ => None end;
  base_stake_cred := λ a, match a with 2 :: c => Some c | _ => None end;
  to_scripthash := λ c, Some c;
  credential_from_keyhash_bytes := λ b, Some b;
  credential_from_scripthash_bytes := λ b, Some b;
  reward_address_bytes := λ net c, take 29 (net :: c ++ repeat 0 29);
  as_constr_plutus_data := λ d, match d with Constr t fs => Some (t, fs) | Bytes _ => None end;
  as_bytes := λ d, match d with Bytes b => Some b | Constr _ _ => None end;
  timestamp_millis := λ t, 1000 * t;
|}.
#[export] Instance lib_spec : CardanoLibSpec lib.
Proof.
  intros net cred. unfold CARDANO_REWARD_ADDRESS_LENGTH.
  change (reward_address_bytes lib net cred) with (take 29 (net :: (cred : list Z) ++ repeat 0 29)).
  rewrite length_take, length_cons, length_app, repeat_length. lia.
Qed.

Definition at_ (b i : Z) : RowPosition lib :=
  {| row_block_number := b; row_block_hash := [b]; row_block_timestamp := b : NaiveDateTime lib;
     row_tx_index_in_block := i |}.
Definition alice_datum : Plutus := Constr 0 [Constr 0 [Bytes [7]]; Bytes [42]].
Definition create_row (b i : Z) (n : Z) : AssetCreateRow lib :=
  {| ac_position := at_ b i; ac_quantity := 100; ac_holder_address := [2; 7];
     ac_tx_hash := [b; i]; ac_utxo_index := n |}.
Definition db_of (creates : list (AssetCreateRow lib)) : Db lib := {|
  SqlxError := unit;
  registration_rows := λ _ _ _, Ok [
    {| rr_position := at_ 5 1; rr_full_datum := alice_datum : PlutusData lib;
       rr_tx_hash := [5; 1]; rr_utxo_index := 0 |}];
  deregistration_rows := λ _, Ok [];
  asset_create_rows := λ _ _, Ok creates;
  asset_spend_rows := λ _ _, Ok [
    {| as_position := at_ 6 2; as_quantity := 100; as_holder_address := [2; 7];
       as_utxo_tx_hash := [5; 2]; as_utxo_index := 0; as_spending_tx_hash := [6; 2] |}];
  block_rows := Ok [
    {| b_block_number := 6; b_hash := [6]; b_epoch_number := 1; b_slot_number := 60;
       b_time := 6 : NaiveDateTime lib; b_tx_count := 3 |}];
  order_by := λ _ cmp l, sort_by cmp l;
|}.
#[export] Instance db_spec creates : OrderBySpec lib (db_of creates).
Proof. split; intros; [by apply sort_by_perm|by apply sort_by_sorted]. Qed.

Definition block6 : Block lib :=
  {| b_block_number := 6; b_hash := [6]; b_epoch_number := 1; b_slot_number := 60;
     b_time := 6 : NaiveDateTime lib; b_tx_count := 3 |}.
Definition small_db : Db lib := db_of [create_row 5 2 0].
(** One transaction with 193 outputs: one more than three transactions may have. *)
Definition big_db : Db lib := db_of (create_row 6 1 <$> seqZ 0 193).
Definition big_creates : Table lib :=
  {| row_position := ac_position lib;
     row_cmp a b := then_cmp (row_position_cmp (ac_position lib a) (ac_position lib b))
                             (ac_utxo_index lib a ?= ac_utxo_index lib b);
     row_utxo r := ok_utxo (asset_create_utxo 0 r); rows := create_row 6 1 <$> seqZ 0 193 |}.
Definition policy : list Z := repeat 3 28.
Definition cfg : CNightAddresses :=
  {| mapping_validator_address := [1; 9]; auth_token_asset_name := [65];
     cnight_policy_id := policy; cnight_asset_name := [66] |}.
Definition tables_of (D : Db lib) : list (Table lib) :=
  match tables D cfg with Ok ts => ts | _ => [] end.
Definition start : @State (list (list Z)) := {|
  MainChainMappingValidatorAddress := [1; 9]; MainChainAuthTokenAssetName := [65];
  Mappings := ∅; UtxoOwners := ∅; NextCardanoPosition := CNightObservation.Concrete.pos 5 0;
  CNightIdentifier := (policy, [66]);
  CardanoBlockWindowSize := 1000; CardanoTxCapacityPerBlock := 2;
  InherentExecutedThisBlock := false; events := []; world := [] |}.
Definition first_window : ObservedUtxos :=
  match get_utxos_up_to_capacity small_db cfg (NextCardanoPosition start) [6] 2 with
  | Ok w => w | _ => {| CardanoTypes.start := NextCardanoPosition start;
                        end_ := NextCardanoPosition start; observed := [] |} end.
End Concrete.
Import Concrete.
#[local] Existing Instance CNightObservation.Concrete.executor.

Ltac solve_tables tac := repeat (apply List.Forall_cons; [tac|]); apply List.Forall_nil.
Ltac solve_adequate := solve_tables ltac:(left; vm_compute; discriminate).
Ltac solve_sound := solve_tables ltac:(apply table_sound_check; vm_compute; reflexivity).
Ltac solve_i32 := unfold i32_position, I32_MAX; simpl; vm_compute; split; split; discriminate.

Lemma provider_window_complete_witness :
  ∃ provider, idp_new small_db (runtime_api (ApiError := unit) start) [6] = Ok provider ∧
    idp_utxos provider = sort_utxos (filter (between (NextCardanoPosition start) (idp_next_cardano_position provider))
      (concat (table_utxos <$> tables_of small_db))).
Proof.
  destruct (provider_window_complete (ApiErr := unit) small_db start cfg (tables_of small_db) [6] block6)
    as (provider & Hget & Hobs & _).
  - vm_compute. reflexivity.
  - reflexivity.
  - solve_sound.
  - vm_compute. reflexivity.
  - solve_i32.
  - solve_i32.
  - vm_compute. discriminate.
  - vm_compute. reflexivity.
  - solve_adequate.
  - exists provider. split; [exact Hget|exact Hobs].
Defined.

Lemma windows_partition_witness :
  let s := NextCardanoPosition start in
  observed first_window =
    sort_utxos (filter (between s (end_ first_window)) (concat (table_utxos <$> tables_of small_db))) ∧
  length (observed first_window) = 1%nat.
Proof.
  split; [|vm_compute; reflexivity].
  rewrite <-(app_nil_r (observed first_window)) at 1.
  apply (windows_partition small_db cfg (tables_of small_db)).
  - reflexivity.
  - solve_sound.
  - apply (follows_window small_db cfg (tables_of small_db) _ [6] block6 2).
    + vm_compute. reflexivity.
    + solve_i32.
    + solve_i32.
    + lia.
    + vm_compute. reflexivity.
    + solve_adequate.
    + vm_compute. reflexivity.
    + vm_compute. discriminate.
    + apply follows_done.
Defined.

Lemma provided_inherent_accepted_witness :
  ∃ provider l p, idp_new small_db (runtime_api (ApiError := unit) start) [6] = Ok provider ∧
    create_inherent (E := InherentError) (provide_inherent_data provider) =
      Ok (Some (Call_process_tokens l p)).
Proof.
  destruct (provided_inherent_accepted (F := unit) (ApiErr := unit) small_db CNightObservation.Concrete.ext start cfg
              (tables_of small_db) [6] block6) as (provider & l & p & Hidp & Hcreate & _).
  - vm_compute. reflexivity.
  - reflexivity.
  - solve_sound.
  - vm_compute. reflexivity.
  - solve_i32.
  - solve_i32.
  - vm_compute. discriminate.
  - simpl. lia.
  - vm_compute. reflexivity.
  - solve_adequate.
  - intros t. etrans; [apply length_filter|]. vm_compute. lia.
  - reflexivity.
  - exists provider, l, p. split; [exact Hidp|exact Hcreate].
Defined.

Lemma overfull_window_skips_utxos_witness :
  let s := CNightObservation.Concrete.pos 6 0 in
  ∃ w, get_utxos_up_to_capacity big_db cfg s [6] 3 = Ok w ∧
    (length (observed w) <
     length (filter (between s (end_ w)) (concat (table_utxos <$> tables_of big_db))))%nat.
Proof.
  destruct (overfull_window_skips_utxos big_db cfg (tables_of big_db)
              (CNightObservation.Concrete.pos 6 0) [6] block6 3 big_creates) as (w & Hget & _ & Hlen).
  - reflexivity.
  - vm_compute. reflexivity.
  - solve_i32.
  - solve_i32.
  - lia.
  - vm_compute. reflexivity.
  - vm_compute. reflexivity.
  - apply (list_elem_of_lookup_2 _ 2). reflexivity.
  - intros r (n & -> & _)%list_elem_of_fmap. eexists. reflexivity.
  - vm_compute. reflexivity.
  - exists w. split; [exact Hget|exact Hlen].
Defined.
