(* ===== verification/FedAuthFollower.v ===== *)
(** * The follower of the Cardano main chain: governance members

    Models the data source that reads the council and the technical committee
    from their governance UTXOs
    ([primitives/mainchain-follower/src/data_source/federated_authority_observation.rs]
    and [db/queries/federated_authority_observation.rs]) and the inherent data
    provider ([idp/federated_authority_observation.rs]), down to the inherent of
    pallet-federated-authority-observation. *)

From Stdlib Require Import Sorting.Sorted.
From stdpp Require Import prelude.
From S2P Require Import Prelude Frame Constants Weights FedAuthObservation Governance.
From S2P Require Import CardanoTypes CNightFollower.

Open Scope Z_scope.

(** ** Parameters from outside the sources *)

(** The rest of cardano-serialization-lib's Plutus data; a [BigInt] is an
    integer. *)
Record PlutusLib (L : CardanoLib) : Type := {
  PlutusMap : Type;
  as_list : PlutusData L → option (list (PlutusData L));
  as_integer : PlutusData L → option Z;
  as_map : PlutusData L → option PlutusMap;
  bigint_as_u64 : Z → option Z;
  map_keys : PlutusMap → list (PlutusData L);
  (** [PlutusMap::get]: the values of a key. *)
  map_get : PlutusMap → PlutusData L → option (list (PlutusData L));
}.

Record GovernanceBodyUtxoRow (L : CardanoLib) : Type := {
  gr_position : RowPosition L;
  gr_full_datum : PlutusData L;
  gr_tx_hash : list Z;
  gr_utxo_index : Z;
}.

(** The database with the rows of the governance query: the outputs at an
    address that hold a token of a policy. *)
Record GovDb (L : CardanoLib) : Type := {
  gov_db : Db L;
  governance_rows : list Z → list Z → outcome (SqlxError L gov_db) (list (GovernanceBodyUtxoRow L));
}.

(** ** Errors, by their messages *)

Inductive DatumError : Type :=
| VersionedMultisig_not_a_list
| VersionedMultisig_too_short (n : Z)
| Multisig_not_a_list
| Multisig_too_short (n : Z)
| Round_not_an_integer
| Round_not_u64
| Round_not_u8
| Key_length (n : Z)
| Sr25519_length (n : Z)
| Members_not_a_map.

(** [block_no <= $n ORDER BY block_no DESC, block_index DESC LIMIT 1]. *)
Definition newest_row {L : CardanoLib} (D : Db L) (rows : list (GovernanceBodyUtxoRow L))
    (block_number : Z) : option (GovernanceBodyUtxoRow L) :=
  head (order_by D
    (λ a b, row_position_cmp (gr_position L b) (gr_position L a))
    (filter (λ r, row_block_number L (gr_position L r) ≤ as_i32 block_number) rows)).

Section Newest.
Context {L : CardanoLib}.

(** The governance UTXO in force at a block: the last one created up to it. *)
Definition latest_row (rows : list (GovernanceBodyUtxoRow L)) (block_number : Z)
    (r : GovernanceBodyUtxoRow L) : Prop :=
  r ∈ rows ∧ row_block_number L (gr_position L r) ≤ block_number ∧
  ∀ q, q ∈ rows → row_block_number L (gr_position L q) ≤ block_number →
    row_position_cmp (gr_position L q) (gr_position L r) ≠ Gt.

Context (D : Db L) `{!OrderBySpec L D}.

#[local] Instance latest_cmp_total :
  TotalCmp (λ a b, row_position_cmp (gr_position L b) (gr_position L a)).
Proof.
  split.
  - intros x y. apply (cmp_flip row_position_cmp).
  - intros x y z Hxy Hyz. by eapply (cmp_le_trans row_position_cmp).
Qed.

Lemma newest_row_latest rows n r :
  0 ≤ n ≤ I32_MAX → newest_row D rows n = Some r → latest_row rows n r.
Proof.
  unfold newest_row. intros Hn. rewrite as_i32_id by done. intros Hhead.
  set (l := order_by _ _ _) in Hhead.
  assert (l ≡ₚ filter (λ r, row_block_number L (gr_position L r) ≤ n) rows) as Hperm
    by apply order_by_perm, _.
  assert (StronglySorted (cmp_le (λ a b, row_position_cmp (gr_position L b) (gr_position L a))) l)
    as Hsort by (apply order_by_sorted; apply _).
  destruct l as [|x l]; simplify_eq/=.
  assert (r ∈ filter (λ r, row_block_number L (gr_position L r) ≤ n) rows) as Hr
    by (rewrite <-Hperm; left).
  apply list_elem_of_filter in Hr as [??]. split_and!; [done|done|]. intros q Hq Hqn.
  assert (q ∈ r :: l) as [->|Hin]%elem_of_cons
    by (rewrite Hperm; by apply list_elem_of_filter).
  - by rewrite cmp_refl by apply _.
  - apply StronglySorted_inv in Hsort as [_ Hall]. rewrite list.Forall_forall in Hall. by apply Hall.
Qed.
End Newest.

Section Source.
Context {L : CardanoLib} (P : PlutusLib L) (G : GovDb L).
Notation D := (gov_db L G).

Definition get_governance_body_utxo (address policy_id : list Z) (block_number : Z) :
    outcome (SqlxError L D) (option (GovernanceBodyUtxoRow L)) :=
  rows ← governance_rows L G address policy_id;
  mret (newest_row D rows block_number).

(** One key of the members map: [Ok None] is [continue]. *)
Definition decode_member (members_map : PlutusMap L P) (key : PlutusData L) :
    outcome DatumError (option (list Z * list Z)) :=
  match as_bytes L key with
  | None => mret None
  | Some key_bytes =>
      if bool_decide (length key_bytes ≠ 32%nat)
      then Err (Key_length (Z.of_nat (length key_bytes)))
      else
        let mainchain_member := drop 4 key_bytes in
        match map_get L P members_map key with
        | None => mret None
        | Some values =>
            match head values with
            | None => mret None
            | Some value_data =>
                match as_bytes L value_data with
                | None => mret None
                | Some sr25519_key_data =>
                    if bool_decide (length sr25519_key_data ≠ 32%nat)
                    then Err (Sr25519_length (Z.of_nat (length sr25519_key_data)))
                    else mret (Some (sr25519_key_data, mainchain_member))
                end
            end
        end
  end.

Fixpoint decode_member_keys (members_map : PlutusMap L P) (keys : list (PlutusData L)) :
    outcome DatumError (list (list Z * list Z)) :=
  match keys with
  | [] => mret []
  | key :: keys =>
      member ← decode_member members_map key;
      members ← decode_member_keys members_map keys;
      mret (match member with Some m => m :: members | None => members end)
  end.

Definition decode_governance_datum (datum : PlutusData L) :
    outcome DatumError GovernanceAuthorityDatums :=
  versioned_list ← ok_or (as_list L P datum) VersionedMultisig_not_a_list;
  match versioned_list with
  | data_field :: round_field :: _ =>
      data_list ← ok_or (as_list L P data_field) Multisig_not_a_list;
      match data_list with
      | _ :: members_data :: _ =>
          round_bigint ← ok_or (as_integer L P round_field) Round_not_an_integer;
          round_u64 ← ok_or (bigint_as_u64 L P round_bigint) Round_not_u64;
          round ← ok_or (if bool_decide (round_u64 ≤ 255) then Some round_u64 else None) Round_not_u8;
          members_map ← ok_or (as_map L P members_data) Members_not_a_map;
          authority_members ← decode_member_keys members_map (map_keys L P members_map);
          mret (R0 {| r0_authorities := authority_members; r0_round := round |})
      | _ => Err (Multisig_too_short (Z.of_nat (length data_list)))
      end
  | _ => Err (VersionedMultisig_too_short (Z.of_nat (length versioned_list)))
  end.

Record AuthBodyConfig : Type := { address : list Z; policy_id : list Z }.
Record FederatedAuthorityObservationConfig : Type :=
  { council : AuthBodyConfig; technical_committee : AuthBodyConfig }.

(** [Box<dyn Error>] of the data source and of the provider. *)
Inductive GovSourceError (ApiErr : Type) : Type :=
| Gov_Sqlx (e : SqlxError L D)
| Gov_BlockNotFound (hash : list Z)
| Gov_Api (e : ApiErr)
| Gov_Utf8.
Arguments Gov_Sqlx {ApiErr} e.
Arguments Gov_BlockNotFound {ApiErr} hash.
Arguments Gov_Api {ApiErr} e.
Arguments Gov_Utf8 {ApiErr}.

Definition no_authorities : AuthoritiesData := {| authorities := []; round := 0 |}.

(** The authorities of a body from its UTXO: none, with a warning, when there is
    no UTXO or its datum does not decode. *)
Definition body_authorities (utxo : option (GovernanceBodyUtxoRow L)) : AuthoritiesData :=
  match utxo with
  | Some utxo =>
      match decode_governance_datum (gr_full_datum L utxo) with
      | Ok datum => authorities_data_from datum
      | _ => no_authorities
      end
  | None => no_authorities
  end.

Definition get_federated_authority_data {ApiErr} (config : FederatedAuthorityObservationConfig)
    (mc_block_hash : list Z) : outcome (GovSourceError ApiErr) FederatedAuthorityData :=
  block ← map_err Gov_Sqlx (get_block_by_hash D mc_block_hash);
  block ← ok_or block (Gov_BlockNotFound mc_block_hash);
  let block_number := b_block_number L block in
  council_utxo ← map_err Gov_Sqlx
    (get_governance_body_utxo (address (council config)) (policy_id (council config)) block_number);
  technical_committee_utxo ← map_err Gov_Sqlx
    (get_governance_body_utxo (address (technical_committee config))
       (policy_id (technical_committee config)) block_number);
  mret {| council_authorities := body_authorities council_utxo;
          technical_committee_authorities := body_authorities technical_committee_utxo;
          mc_block_hash := mc_block_hash |}.

(** ** The inherent data provider *)

Record FederatedAuthorityObservationApi (ApiErr : Type) : Type := {
  get_council_address : outcome ApiErr (list Z);
  get_council_policy_id : outcome ApiErr (list Z);
  get_technical_committee_address : outcome ApiErr (list Z);
  get_technical_committee_policy_id : outcome ApiErr (list Z);
}.

(** [impl FederatedAuthorityObservationApi for Runtime]. *)
Definition fao_runtime_api {World ApiErr} (s : @State World) :
    FederatedAuthorityObservationApi ApiErr := {|
  get_council_address := Ok (MainChainCouncilAddress s);
  get_council_policy_id := Ok (MainChainCouncilPolicyId s);
  get_technical_committee_address := Ok (MainChainTechnicalCommitteeAddress s);
  get_technical_committee_policy_id := Ok (MainChainTechnicalCommitteePolicyId s);
|}.

Definition gov_idp_new {ApiErr} (api : FederatedAuthorityObservationApi ApiErr)
    (mc_block_hash : list Z) : outcome (GovSourceError ApiErr) FederatedAuthorityData :=
  council_address ← map_err Gov_Api (get_council_address _ api);
  council_address ← ok_or (from_utf8 council_address) Gov_Utf8;
  council_policy_id ← map_err Gov_Api (get_council_policy_id _ api);
  tc_address ← map_err Gov_Api (get_technical_committee_address _ api);
  tc_address ← ok_or (from_utf8 tc_address) Gov_Utf8;
  tc_policy_id ← map_err Gov_Api (get_technical_committee_policy_id _ api);
  get_federated_authority_data
    {| council := {| address := council_address; policy_id := council_policy_id |};
       technical_committee := {| address := tc_address; policy_id := tc_policy_id |} |}
    mc_block_hash.

(** [provide_inherent_data]. *)
Definition gov_provide_inherent_data (d : FederatedAuthorityData) : InherentData := Decoded (Some d).

(** ** Lemmas *)

Lemma from_utf8_Some l l' : from_utf8 l = Some l' → l' = l.
Proof. unfold from_utf8. by destruct (utf8_valid l); intros [= <-]. Qed.

Context `{!OrderBySpec L D}.

Lemma get_governance_body_utxo_latest a p n r :
  0 ≤ n ≤ I32_MAX → get_governance_body_utxo a p n = Ok (Some r) →
  ∃ rows, governance_rows L G a p = Ok rows ∧ latest_row rows n r.
Proof.
  unfold get_governance_body_utxo. intros Hn.
  destruct (governance_rows L G a p) as [rows|?|]; [|done|done]. simpl.
  intros [= Hhead]. exists rows. split; [done|]. apply (newest_row_latest D); [lia|done].
Qed.

Lemma decode_member_keys_lengths m keys l :
  decode_member_keys m keys = Ok l → Forall (λ k, length k.1 = 32%nat ∧ length k.2 = 28%nat) l.
Proof.
  revert l; induction keys as [|key keys IH]; intros l; simpl; [intros [= <-]; constructor|].
  destruct (decode_member m key) as [o|?|] eqn:Hm; [|done|done]. simpl.
  destruct (decode_member_keys m keys) as [ls|?|]; [|done|done]. simpl.
  intros [= <-]. specialize (IH ls eq_refl). destruct o as [k|]; [|done].
  constructor; [|done]. revert Hm. unfold decode_member.
  destruct (as_bytes L key) as [kb|]; [|done]. case_bool_decide as Hkb; [done|].
  destruct (map_get L P m key) as [[|v vs]|]; simpl; try done.
  destruct (as_bytes L v) as [sr|]; [|done]. case_bool_decide as Hsr; [done|].
  intros [= <-]. simpl. by rewrite length_drop, Hkb.
Qed.

Lemma decode_governance_datum_lengths d r :
  decode_governance_datum d = Ok (R0 r) →
  Forall (λ k, length k.1 = 32%nat ∧ length k.2 = 28%nat) (r0_authorities r) ∧ r0_round r ≤ 255.
Proof.
  unfold decode_governance_datum.
  destruct (as_list L P d) as [[|x [|y vl]]|]; try done. simpl.
  destruct (as_list L P x) as [[|a [|b dl]]|]; try done. simpl.
  destruct (as_integer L P y) as [z|]; [|done]. simpl.
  destruct (bigint_as_u64 L P z) as [n|]; [|done]. simpl.
  case_bool_decide; [|done]. simpl. destruct (as_map L P b) as [m|]; [|done]. simpl.
  destruct (decode_member_keys m _) as [l|?|] eqn:Hl; [|done|done]. simpl. intros [= <-].
  split; [by eapply decode_member_keys_lengths|done].
Qed.

(** A body with authorities got them from a datum that decodes. *)
Lemma body_authorities_inv o :
  authorities (body_authorities o) ≠ [] →
  ∃ r d, o = Some r ∧ decode_governance_datum (gr_full_datum L r) = Ok (R0 d) ∧
    authorities (body_authorities o) = r0_authorities d.
Proof.
  destruct o as [r|]; [|done]. simpl.
  destruct (decode_governance_datum (gr_full_datum L r)) as [[d]|?|] eqn:Hd; simpl; [|done|done].
  intros _. by exists r, d.
Qed.

(** The members in force of a body at a block, and what they decode to. *)
Definition in_force (a p : list Z) (n : Z) (members : list (list Z * list Z)) : Prop :=
  ∃ rows r d, governance_rows L G a p = Ok rows ∧ latest_row rows n r ∧
    decode_governance_datum (gr_full_datum L r) = Ok (R0 d) ∧ members = r0_authorities d ∧
    Forall (λ k, length k.1 = 32%nat ∧ length k.2 = 28%nat) members.

Lemma body_in_force a p n o :
  0 ≤ n ≤ I32_MAX → get_governance_body_utxo a p n = Ok o →
  authorities (body_authorities o) ≠ [] → in_force a p n (authorities (body_authorities o)).
Proof.
  intros Hn Hget (r & d & -> & Hd & ->)%body_authorities_inv.
  destruct (get_governance_body_utxo_latest a p n r Hn Hget) as (rows & Hrows & Hlatest).
  exists rows, r, d. split_and!; try done. by eapply decode_governance_datum_lengths.
Qed.

Section Inherent.
Context {World ApiErr : Type} (T : @Config World) (s : @State World).

Lemma decode_auth_members_Ok max l k :
  decode_auth_members T max l = Ok k → decode_members T l = Ok k ∧ (k ≠ [] → l ≠ []).
Proof.
  unfold decode_auth_members.
  destruct (decode_members T l) as [k'|?|] eqn:Hl; [|done|done]. simpl.
  destruct (bounded_try_from max k') as [k''|] eqn:Hb; [|done].
  apply bounded_try_from_Some in Hb as [-> _]. intros [= <-]. split; [done|].
  intros Hk ->. simpl in Hl. by simplify_eq.
Qed.

Lemma create_inherent_inv d c :
  create_inherent T (Decoded (Some d)) = Some c →
  ∃ council tc, c = Call_reset_members council tc ∧ council ≠ [] ∧ tc ≠ [] ∧
    decode_auth_members T (CouncilMaxMembers T) (authorities (council_authorities d)) = Ok council ∧
    decode_auth_members T (TechnicalCommitteeMaxMembers T)
      (authorities (technical_committee_authorities d)) = Ok tc.
Proof.
  unfold create_inherent. simpl.
  destruct (decode_auth_members T (CouncilMaxMembers T) _) as [cm|?|]; [|done|done]. simpl.
  destruct (decode_auth_members T (TechnicalCommitteeMaxMembers T) _) as [tm|?|]; [|done|done]. simpl.
  repeat case_bool_decide; simpl; try done. case_match; [|done]. intros [= <-]. by exists cm, tm.
Qed.

(** C34: a reset of the governance bodies comes from the governance UTXOs in
    force.  If the provider was built from the parent state for a Cardano block,
    and the pallet creates a call from it, then for each body the last governance
    UTXO up to that block has a datum that decodes, with keys of 32 bytes and
    main chain identifiers of 28, and the call carries exactly these members.  So
    a body without UTXO, or with a datum that does not decode, resets nothing. *)
Theorem reset_from_governance_utxos mc b data c :
  get_block_by_hash D mc = Ok (Some b) → 0 ≤ b_block_number L b ≤ I32_MAX →
  gov_idp_new (fao_runtime_api (ApiErr := ApiErr) s) mc = Ok data →
  create_inherent T (gov_provide_inherent_data data) = Some c →
  ∃ cm tm council tc, c = Call_reset_members council tc ∧
    in_force (MainChainCouncilAddress s) (MainChainCouncilPolicyId s) (b_block_number L b) cm ∧
    in_force (MainChainTechnicalCommitteeAddress s) (MainChainTechnicalCommitteePolicyId s)
      (b_block_number L b) tm ∧
    decode_members T cm = Ok council ∧ decode_members T tm = Ok tc.
Proof.
  intros Hb Hn Hidp Hc. unfold gov_idp_new, fao_runtime_api in Hidp. simpl in Hidp.
  destruct (from_utf8 (MainChainCouncilAddress s)) as [ca|] eqn:Hca; [|done].
  destruct (from_utf8 (MainChainTechnicalCommitteeAddress s)) as [ta|] eqn:Hta; [|done].
  simpl in Hidp. apply from_utf8_Some in Hca as ->, Hta as ->.
  unfold get_federated_authority_data in Hidp. rewrite Hb in Hidp. simpl in Hidp.
  destruct (get_governance_body_utxo (MainChainCouncilAddress s) _ _) as [co|?|] eqn:Hco;
    simplify_eq/=.
  destruct (get_governance_body_utxo (MainChainTechnicalCommitteeAddress s) _ _) as [to|?|] eqn:Hto;
    simplify_eq/=.
  injection Hidp as <-.
  apply create_inherent_inv in Hc as (cm & tm & -> & Hcm & Htm & Hdc & Hdt).
  apply decode_auth_members_Ok in Hdc as [Hdc Hcne], Hdt as [Hdt Htne]. simpl in *.
  exists (authorities (body_authorities co)), (authorities (body_authorities to)), cm, tm.
  split_and!; [done|apply body_in_force; auto|apply body_in_force; auto|done|done].
Qed.
End Inherent.
End Source.

(** ** A concrete database *)

Module Concrete.
Notation Plutus := CNightFollower.Concrete.Plutus.
Notation Constr := CNightFollower.Concrete.Constr.
Notation Bytes := CNightFollower.Concrete.Bytes.
Notation lib := CNightFollower.Concrete.lib.

(** Tags of this example: 100 a list, 101 an integer (its digit as a byte), 102 a
    map whose fields are keys and values by turns. *)
Fixpoint pairs_of (l : list Plutus) : list (Plutus * Plutus) :=
  match l with k :: v :: l => (k, v) :: pairs_of l | _ => [] end.
Definition same_bytes (a b : Plutus) : bool :=
  match a, b with Bytes x, Bytes y => bool_decide (x = y) | _, _ => false end.
Definition plutus : PlutusLib lib :=
  Build_PlutusLib lib (list (Plutus * Plutus))
    (λ d : Plutus, match d with Constr 100 l => Some l | _ => None end)
    (λ d : Plutus, match d with Constr 101 [Bytes [n]] => Some n | _ => None end)
    (λ d : Plutus, match d with Constr 102 l => Some (pairs_of l) | _ => None end)
    (λ z, if bool_decide (0 ≤ z < 2 ^ 64) then Some z else None)
    (λ m, m.*1)
    (λ m k, match filter (λ p, same_bytes p.1 k) m with [] => None | l => Some (l.*2) end).
Definition member (n : Z) : list Plutus := [Bytes (repeat n 32); Bytes (repeat (100 + n) 32)].
Definition datum (n : Z) : Plutus :=
  Constr 100 [Constr 100 [Constr 101 [Bytes [1]]; Constr 102 (member n)]; Constr 101 [Bytes [0]]].
Definition row (b : Z) (d : Plutus) : GovernanceBodyUtxoRow lib :=
  {| gr_position := CNightFollower.Concrete.at_ b 0; gr_full_datum := d : PlutusData lib;
     gr_tx_hash := [b]; gr_utxo_index := 0 |}.
(** The council of address [1] was replaced in block 5; a later UTXO, in block 7,
    is beyond the block asked for. *)
Definition gdb : GovDb lib :=
  Build_GovDb lib CNightFollower.Concrete.small_db (λ a _,
    Ok (if bool_decide (a = [1]) then [row 4 (Bytes []); row 7 (Bytes []); row 5 (datum 3)]
        else [row 2 (datum 4)])).
#[export] Instance gdb_spec : OrderBySpec lib (gov_db lib gdb).
Proof. apply CNightFollower.Concrete.db_spec. Qed.
Definition start : @State Governance.Concrete.Wd := {|
  MainChainCouncilAddress := [1]; MainChainCouncilPolicyId := [];
  MainChainTechnicalCommitteeAddress := [2]; MainChainTechnicalCommitteePolicyId := [];
  CouncilMainchainMembers := []; TechnicalCommitteeMainchainMembers := [];
  InherentExecutedThisBlock := false; events := [];
  world := world Governance.Concrete.start |}.
Definition data : FederatedAuthorityData := {|
  council_authorities := {| authorities := [(repeat 103 32, repeat 3 28)]; round := 0 |};
  technical_committee_authorities := {| authorities := [(repeat 104 32, repeat 4 28)]; round := 0 |};
  mc_block_hash := [6] |}.
End Concrete.
Import Concrete.

Lemma reset_from_governance_utxos_witness :
  ∃ cm, in_force plutus gdb [1] [] 6 cm ∧
    decode_members Governance.Concrete.cfg cm = Ok [(repeat 103 32, repeat 3 28)].
Proof.
  destruct (reset_from_governance_utxos (ApiErr := unit) plutus gdb Governance.Concrete.cfg start
              [6] CNightFollower.Concrete.block6 data
              (Call_reset_members [(repeat 103 32, repeat 3 28)] [(repeat 104 32, repeat 4 28)]))
    as (cm & tm & council & tc & Hc & Hcm & _ & Hdc & _).
  - vm_compute. reflexivity.
  - simpl. unfold I32_MAX. lia.
  - vm_compute. reflexivity.
  - vm_compute. reflexivity.
  - exists cm. split; [exact Hcm|]. injection Hc as Hc _. rewrite Hdc, <-Hc. reflexivity.
Defined.
