(* ===== verification/InherentData.v ===== *)
(** * Proposing and verifying inherent data

    Models [node/src/inherent_data.rs]: the providers an author builds for the block
    it proposes ([ProposalCIDP]) and those a node builds to check a block it
    receives ([VerifierCIDP]), around the providers of [CNightFollower] and
    [FedAuthFollower].

    The client, the clock and the providers of the partner-chains toolkit (main
    chain reference, committee selection, token bridge) are parameters. *)

From stdpp Require Import prelude strings.
From S2P Require Import Prelude Frame CardanoTypes CNightObservation FedAuthObservation.
From S2P Require Import CNightFollower FedAuthFollower.

Open Scope Z_scope.

(** ** Parameters *)

Class PartnerChains : Type := {
  Hash : Type;
  Header : Type;
  header_number : Header → Z;
  ClientError : Type;
  (** [HeaderBackend::header]; [expect_header] errs where this gives nothing. *)
  client_header : Hash → outcome ClientError (option Header);
  unknown_block : Hash → ClientError;
  find_pre_digest : Header → outcome ClientError Z;
  (** [McHashIDP]. *)
  McHashError : Type;
  McHashIDP : Type;
  mc_hash : McHashIDP → list Z;
  mc_epoch : McHashIDP → Z;
  mc_new_proposal : Header → Z → Z → outcome McHashError McHashIDP;
  (** [new_verification] gives the state reference, of which the epoch is read. *)
  mc_new_verification : Header → option Z → Z → list Z → Z → outcome McHashError Z;
  (** [AriadneIDP::new] by parent, slot and main chain epoch. *)
  AriadneError : Type;
  AriadneIDP : Type;
  ariadne_new : Hash → Z → Z → outcome AriadneError AriadneIDP;
  BridgeError : Type;
  TokenBridgeIDP : Type;
  token_bridge_new : Hash → list Z → outcome BridgeError TokenBridgeIDP;
}.

(** The epoch of a main chain reference is that of the block it names, whoever
    reads it. *)
Class McHashLaws `{!PartnerChains} : Prop :=
  mc_verified_epoch parent slot duration m parent_slot epoch :
    mc_new_proposal parent slot duration = Ok m →
    mc_new_verification parent parent_slot slot (mc_hash m) duration = Ok epoch →
    epoch = mc_epoch m.

Section Cidp.
Context `{!PartnerChains} {L : CardanoLib} (D : Db L) (P : PlutusLib L) (G : GovDb L) {ApiErr : Type}.
(** The runtime APIs at a block. *)
Context (cnight_api : Hash → CNightObservationApi ApiErr).
Context (fao_api : Hash → FederatedAuthorityObservationApi ApiErr).

Inductive CidpError : Type :=
| Cidp_Client (e : ClientError)
| Cidp_MissingParentHeader (h : Hash)
| Cidp_McHash (e : McHashError)
| Cidp_Ariadne (e : AriadneError)
| Cidp_CNight (e : IDPCreationError D (ApiErr := ApiErr))
| Cidp_FederatedAuthority (e : GovSourceError G ApiErr)
| Cidp_Bridge (e : BridgeError).

(** ** Slots and time *)

Record CreateInherentDataConfig : Type := { slot_duration : Z; get_current_time_millis : Z }.

(** The slot of a time, in milliseconds, and the time itself. *)
Definition timestamp_and_slot_cidp (config : CreateInherentDataConfig) : Z * Z :=
  let timestamp := get_current_time_millis config in
  (timestamp / slot_duration config, timestamp).

Definition slot_from_predigest (header : Header) : outcome CidpError (option Z) :=
  if bool_decide (header_number header = 0) then mret None
  else slot ← map_err Cidp_Client (find_pre_digest header); mret (Some slot).

Definition expect_header (h : Hash) : outcome ClientError Header :=
  header ← client_header h; ok_or header (unknown_block h).

(** ** The providers of an author *)

Record ProposalProviders : Type := {
  pp_slot : Z;
  pp_timestamp : Z;
  pp_mc_hash : McHashIDP;
  pp_ariadne : AriadneIDP;
  pp_cnight_observation : MidnightCNightObservationInherentDataProvider;
  pp_federated_authority : FederatedAuthorityData;
  pp_bridge : TokenBridgeIDP;
}.

Definition proposal_create_inherent_data_providers (config : CreateInherentDataConfig)
    (parent_hash : Hash) : outcome CidpError ProposalProviders :=
  let '(slot, timestamp) := timestamp_and_slot_cidp config in
  parent_header ← map_err Cidp_Client (client_header parent_hash);
  parent_header ← ok_or parent_header (Cidp_MissingParentHeader parent_hash);
  mc ← map_err Cidp_McHash (mc_new_proposal parent_header slot (slot_duration config));
  ariadne_data_provider ← map_err Cidp_Ariadne (ariadne_new parent_hash slot (mc_epoch mc));
  cnight_observation ← map_err Cidp_CNight (idp_new D (cnight_api parent_hash) (mc_hash mc));
  federated_authority ←
    map_err Cidp_FederatedAuthority (gov_idp_new P G (fao_api parent_hash) (mc_hash mc));
  bridge ← map_err Cidp_Bridge (token_bridge_new parent_hash (mc_hash mc));
  mret {| pp_slot := slot; pp_timestamp := timestamp; pp_mc_hash := mc;
          pp_ariadne := ariadne_data_provider; pp_cnight_observation := cnight_observation;
          pp_federated_authority := federated_authority; pp_bridge := bridge |}.

(** ** The providers of a verifier *)

Record VerifierProviders : Type := {
  vp_timestamp : Z;
  vp_ariadne : AriadneIDP;
  vp_cnight_observation : MidnightCNightObservationInherentDataProvider;
  vp_federated_authority : FederatedAuthorityData;
  vp_bridge : TokenBridgeIDP;
}.

Definition verifier_create_inherent_data_providers (config : CreateInherentDataConfig)
    (parent_hash : Hash) (verified_block_slot : Z) (block_mc_hash : list Z) :
    outcome CidpError VerifierProviders :=
  let timestamp := get_current_time_millis config in
  parent_header ← map_err Cidp_Client (expect_header parent_hash);
  parent_slot ← slot_from_predigest parent_header;
  epoch ← map_err Cidp_McHash
    (mc_new_verification parent_header parent_slot verified_block_slot block_mc_hash
       (slot_duration config));
  ariadne_data_provider ← map_err Cidp_Ariadne (ariadne_new parent_hash verified_block_slot epoch);
  cnight_observation ← map_err Cidp_CNight (idp_new D (cnight_api parent_hash) block_mc_hash);
  federated_authority ←
    map_err Cidp_FederatedAuthority (gov_idp_new P G (fao_api parent_hash) block_mc_hash);
  bridge ← map_err Cidp_Bridge (token_bridge_new parent_hash block_mc_hash);
  mret {| vp_timestamp := timestamp; vp_ariadne := ariadne_data_provider;
          vp_cnight_observation := cnight_observation;
          vp_federated_authority := federated_authority; vp_bridge := bridge |}.

(** ** Author and verifier *)

Context `{!McHashLaws}.

Lemma proposal_inv config parent p :
  proposal_create_inherent_data_providers config parent = Ok p →
  ∃ header, client_header parent = Ok (Some header) ∧
    pp_slot p = get_current_time_millis config / slot_duration config ∧
    mc_new_proposal header (pp_slot p) (slot_duration config) = Ok (pp_mc_hash p) ∧
    ariadne_new parent (pp_slot p) (mc_epoch (pp_mc_hash p)) = Ok (pp_ariadne p) ∧
    idp_new D (cnight_api parent) (mc_hash (pp_mc_hash p)) = Ok (pp_cnight_observation p) ∧
    gov_idp_new P G (fao_api parent) (mc_hash (pp_mc_hash p)) = Ok (pp_federated_authority p) ∧
    token_bridge_new parent (mc_hash (pp_mc_hash p)) = Ok (pp_bridge p).
Proof.
  unfold proposal_create_inherent_data_providers. simpl. set (slot := _ / _).
  destruct (client_header parent) as [[header|]|?|]; simpl; try done.
  destruct (mc_new_proposal header slot _) as [mc|?|] eqn:Hmc; simpl; try done.
  destruct (ariadne_new parent slot _) as [ar|?|] eqn:Har; simpl; try done.
  destruct (idp_new D _ _) as [cn|?|] eqn:Hcn; simpl; try done.
  destruct (gov_idp_new P G _ _) as [fa|?|] eqn:Hfa; simpl; try done.
  destruct (token_bridge_new parent _) as [br|?|] eqn:Hbr; simpl; try done.
  intros [= <-]. exists header. by split_and!.
Qed.

Lemma verifier_agrees config config' parent p parent_slot epoch header :
  proposal_create_inherent_data_providers config parent = Ok p →
  slot_duration config' = slot_duration config →
  client_header parent = Ok (Some header) → slot_from_predigest header = Ok parent_slot →
  mc_new_verification header parent_slot (pp_slot p) (mc_hash (pp_mc_hash p)) (slot_duration config) =
    Ok epoch →
  verifier_create_inherent_data_providers config' parent (pp_slot p) (mc_hash (pp_mc_hash p)) =
    Ok {| vp_timestamp := get_current_time_millis config'; vp_ariadne := pp_ariadne p;
          vp_cnight_observation := pp_cnight_observation p;
          vp_federated_authority := pp_federated_authority p; vp_bridge := pp_bridge p |}.
Proof.
  intros (h & Hh & Hslot & Hmc & Har & Hcn & Hfa & Hbr)%proposal_inv Hd Hheader Hdigest Hver.
  assert (h = header) as -> by congruence.
  pose proof (mc_verified_epoch _ _ _ _ _ _ Hmc Hver) as ->.
  unfold verifier_create_inherent_data_providers, expect_header.
  rewrite Hheader. simpl. rewrite Hdigest. simpl. rewrite Hd, Hver. simpl.
  rewrite Har. simpl. rewrite Hcn. simpl. rewrite Hfa. simpl. rewrite Hbr. done.
Qed.

(** C9: a block made from an author's providers verifies.  A verifier with the same
    Cardano data that accepts the block's main chain reference builds the same
    providers (its own clock aside), and the calls that the two observation pallets
    create from the author's data pass their checks against the verifier's. *)
Theorem proposed_inherents_verify {World} (T : @FedAuthObservation.Config World)
    config config' parent p parent_slot epoch header c :
  proposal_create_inherent_data_providers config parent = Ok p →
  slot_duration config' = slot_duration config →
  client_header parent = Ok (Some header) → slot_from_predigest header = Ok parent_slot →
  mc_new_verification header parent_slot (pp_slot p) (mc_hash (pp_mc_hash p)) (slot_duration config) =
    Ok epoch →
  ∃ v, verifier_create_inherent_data_providers config' parent (pp_slot p) (mc_hash (pp_mc_hash p)) = Ok v ∧
    vp_ariadne v = pp_ariadne p ∧ vp_bridge v = pp_bridge p ∧
    (∃ l pos, CNightObservation.create_inherent (E := CNightObservation.InherentError)
        (provide_inherent_data (pp_cnight_observation p)) = Ok (Some (Call_process_tokens l pos)) ∧
      CNightObservation.check_inherent (Call_process_tokens l pos)
        (provide_inherent_data (vp_cnight_observation v)) = Ok tt) ∧
    (FedAuthObservation.create_inherent T (gov_provide_inherent_data (pp_federated_authority p)) = Some c →
     FedAuthObservation.check_inherent T c (gov_provide_inherent_data (vp_federated_authority v)) = Ok tt).
Proof.
  intros Hp Hd Hheader Hdigest Hver. eexists. split; [by eapply verifier_agrees|].
  split_and!; [done|done| |].
  - do 2 eexists. split; [done|]. simpl. by rewrite !bool_decide_false by naive_solver.
  - apply create_inherent_checked.
Qed.
End Cidp.

(** ** A concrete chain *)

Module CidpConcrete.
#[export] Instance chain : PartnerChains := {|
  Hash := unit; Header := Z; header_number := λ h, h; ClientError := unit;
  client_header := λ _, Ok (Some 3); unknown_block := λ _, tt; find_pre_digest := λ _, Ok 9;
  McHashError := unit; McHashIDP := list Z; mc_hash := λ m, m; mc_epoch := λ _, 1;
  mc_new_proposal := λ _ _ _, Ok [6]; mc_new_verification := λ _ _ _ _ _, Ok 1;
  AriadneError := unit; AriadneIDP := Z; ariadne_new := λ _ slot epoch, Ok (slot + epoch);
  BridgeError := unit; TokenBridgeIDP := list Z; token_bridge_new := λ _ h, Ok h;
|}.
#[export] Instance chain_laws : McHashLaws.
Proof. intros parent slot duration m parent_slot epoch _ [= <-]. done. Qed.
Definition config0 (now : Z) : CreateInherentDataConfig :=
  {| slot_duration := 6000; get_current_time_millis := now |}.
Definition cnight_api0 (_ : Hash) : CNightObservationApi unit := runtime_api CNightFollower.Concrete.start.
Definition fao_api0 (_ : Hash) : FederatedAuthorityObservationApi unit :=
  fao_runtime_api FedAuthFollower.Concrete.start.
End CidpConcrete.
Import CidpConcrete.

Notation small_db := CNightFollower.Concrete.small_db.
Notation plutus := FedAuthFollower.Concrete.plutus.
Notation gdb := FedAuthFollower.Concrete.gdb.
Definition proposed : outcome (CidpError small_db gdb (ApiErr := unit)) ProposalProviders :=
  proposal_create_inherent_data_providers small_db plutus gdb cnight_api0 fao_api0 (config0 60_000) tt.
Lemma proposed_inherents_verify_witness :
  ∃ p v c, proposed = Ok p ∧
    verifier_create_inherent_data_providers small_db plutus gdb cnight_api0 fao_api0 (config0 61_000) tt
      (pp_slot p) (mc_hash (pp_mc_hash p)) = Ok v ∧
    FedAuthObservation.check_inherent Governance.Concrete.cfg c
      (gov_provide_inherent_data (vp_federated_authority v)) = Ok tt.
Proof.
  assert (match proposed with
          | Ok p => bool_decide (is_Some (FedAuthObservation.create_inherent Governance.Concrete.cfg
                      (gov_provide_inherent_data (pp_federated_authority p))))
          | _ => false end = true) as Hok by vm_cast_no_check (eq_refl true).
  destruct proposed as [p|e|] eqn:Hp; [|discriminate Hok..].
  apply bool_decide_eq_true in Hok as [c Hc].
  destruct (proposed_inherents_verify small_db plutus gdb cnight_api0 fao_api0 Governance.Concrete.cfg
    (config0 60_000) (config0 61_000) tt p (Some 9) 1 3 c) as (v & Hv & _ & _ & _ & Hcheck).
  - exact Hp.
  - reflexivity.
  - reflexivity.
  - reflexivity.
  - reflexivity.
  - exists p, v, c. split; [reflexivity|]. split; [exact Hv|exact (Hcheck Hc)].
Defined.
