(* ===== verification/SystemParameters.v ===== *)
(** * pallet-system-parameters

    Models [pallets/system-parameters/src/lib.rs]: the terms and conditions of the
    network and the D-parameter that steers the selection of authorities. *)

From stdpp Require Import prelude strings.
From S2P Require Import Prelude Frame Collections CNightFollower.

Open Scope Z_scope.

Definition MAX_URL_SIZE : Z := 256.

Record TermsAndConditions : Type := { hash : list Z; url : list Z }.

(** [sidechain_domain::DParameter]: two [u16]. *)
Record DParameter : Type :=
  { num_permissioned_candidates : Z; num_registered_candidates : Z }.

Inductive Event : Type :=
| TermsAndConditionsUpdated (hash url : list Z)
| DParameterUpdated (num_permissioned num_registered : Z).

Inductive Error : Type := UrlTooLong.

Record State : Type := {
  TermsAndConditionsStorage : option TermsAndConditions;
  (** [(u16, u16)], [ValueQuery] with default [(0, 0)]. *)
  DParameterStorage : Z * Z;
  events : list Event;
}.

Definition put_terms (t : TermsAndConditions) (s : State) : State :=
  {| TermsAndConditionsStorage := Some t; DParameterStorage := DParameterStorage s;
     events := events s |}.
Definition put_d_parameter (d : Z * Z) (s : State) : State :=
  {| TermsAndConditionsStorage := TermsAndConditionsStorage s; DParameterStorage := d;
     events := events s |}.
Definition deposit_event {E} (e : Event) : M State E unit :=
  modify (λ s, {| TermsAndConditionsStorage := TermsAndConditionsStorage s;
                  DParameterStorage := DParameterStorage s; events := events s ++ [e] |}).

(** ** Genesis *)

Definition DEFAULT_TERMS_AND_CONDITIONS_URL : string := "https://www.midnight.gd/global-terms-txt".
Definition DEFAULT_TERMS_AND_CONDITIONS_HASH_BYTES : list Z :=
  [202; 133; 237; 119; 188; 230; 130; 136; 229; 83; 0; 240; 6; 204; 213;
   204; 229; 212; 148; 13; 195; 159; 196; 17; 115; 169; 194; 236; 209; 235;
   97; 110].

Record TermsAndConditionsGenesisConfig : Type :=
  { genesis_hash : option (list Z); genesis_url : option (list Z) }.
Record DParameterGenesisConfig : Type :=
  { genesis_num_permissioned : option Z; genesis_num_registered : option Z }.
Record GenesisConfig : Type :=
  { terms_and_conditions : TermsAndConditionsGenesisConfig; d_parameter : DParameterGenesisConfig }.

(** [Default], for a hash type of [hash_len] bytes. *)
Definition default_terms (hash_len : nat) : TermsAndConditionsGenesisConfig :=
  let len := (hash_len `min` length DEFAULT_TERMS_AND_CONDITIONS_HASH_BYTES)%nat in
  {| genesis_hash := Some (take len DEFAULT_TERMS_AND_CONDITIONS_HASH_BYTES ++
                           replicate (hash_len - len) 0);
     genesis_url := Some (bytes_of_string DEFAULT_TERMS_AND_CONDITIONS_URL) |}.

(** [BuildGenesisConfig::build]; each [expect] is a panic. *)
Definition build (g : GenesisConfig) : M State Empty_set unit :=
  h ← expect (genesis_hash (terms_and_conditions g));
  u ← expect (genesis_url (terms_and_conditions g));
  u ← expect (bounded_try_from MAX_URL_SIZE u);
  modify (put_terms {| hash := h; url := u |}) ;;
  match genesis_num_permissioned (d_parameter g), genesis_num_registered (d_parameter g) with
  | Some p, Some r => modify (put_d_parameter (p, r))
  | _, _ => mret tt
  end.

Section Calls.
Context {A F : Type} `{StorageLayers}.
(** [T::SystemOrigin]. *)
Context (SystemOrigin : RawOrigin A → bool).

Definition ensure_system_origin (o : RawOrigin A) : M State (DispatchError Error F) unit :=
  ensure (SystemOrigin o) BadOrigin.

Definition update_terms_and_conditions (origin : RawOrigin A) (h u : list Z) :
    M State (DispatchError Error F) unit :=
  with_storage_layer (
    ensure_system_origin origin ;;
    url_bounded ← lift (ok_or (bounded_try_from MAX_URL_SIZE u) (Module UrlTooLong));
    modify (put_terms {| hash := h; url := url_bounded |}) ;;
    deposit_event (TermsAndConditionsUpdated h url_bounded)).

Definition update_d_parameter (origin : RawOrigin A) (num_permissioned num_registered : Z) :
    M State (DispatchError Error F) unit :=
  with_storage_layer (
    ensure_system_origin origin ;;
    modify (put_d_parameter (num_permissioned, num_registered)) ;;
    deposit_event (DParameterUpdated num_permissioned num_registered)).

Definition get_terms_and_conditions (s : State) : option TermsAndConditions :=
  TermsAndConditionsStorage s.
Definition get_d_parameter (s : State) : DParameter :=
  {| num_permissioned_candidates := (DParameterStorage s).1;
     num_registered_candidates := (DParameterStorage s).2 |}.

(**  the parameters change only at the hands of the system origin, and what
    is set is what is read.  A refused call (another origin, or a URL over its
    bound) changes nothing; an accepted one is logged, is what the runtime API
    then answers, and leaves the other parameter alone. *)
Theorem system_parameters_guarded o h u p r s :
  (update_terms_and_conditions o h u s =
     if SystemOrigin o then
       if decide (Z.of_nat (length u) ≤ MAX_URL_SIZE) then
         (Ok tt, {| TermsAndConditionsStorage := Some {| hash := h; url := u |};
                    DParameterStorage := DParameterStorage s;
                    events := events s ++ [TermsAndConditionsUpdated h u] |})
       else (Err (Module UrlTooLong), s)
     else (Err BadOrigin, s)) ∧
  (∀ res s', update_d_parameter o p r s = (res, s') →
     if SystemOrigin o then
       res = Ok tt ∧ get_d_parameter s' =
         {| num_permissioned_candidates := p; num_registered_candidates := r |} ∧
       get_terms_and_conditions s' = get_terms_and_conditions s ∧
       events s' = events s ++ [DParameterUpdated p r]
     else res = Err BadOrigin ∧ s' = s).
Proof.
  unfold update_terms_and_conditions, update_d_parameter, ensure_system_origin, ensure.
  split.
  - rewrite with_storage_layer_eq.
    + unfold bounded_try_from. destruct (SystemOrigin o); [|done]. by case_decide.
    + unfold bounded_try_from. destruct (SystemOrigin o); [|done]. by case_decide.
  - intros res s'. rewrite with_storage_layer_eq by by destruct (SystemOrigin o).
    destruct (SystemOrigin o); by intros [= <- <-].
Qed.
End Calls.

(** The runtime's choice: [EnsureRoot]. *)
Definition EnsureRoot {A} (o : RawOrigin A) : bool := match o with Root => true | _ => false end.
