(* ===== verification/GenesisCNight.v ===== *)
(** * The cNIGHT genesis file

    Models [node/src/genesis/creation/cnight_genesis.rs]: the command that reads
    every cNIGHT event of Cardano up to a chosen tip, drops those that cannot
    matter, replays the rest through the observation pallet and writes the state
    the new chain starts from; with the test runtime it replays them in
    ([pallets/cnight-observation/mock/src/mock_with_capture.rs]).

    The data source is the one of [CNightFollower], the pallet the one of
    [CNightObservation]; the JSON encoding of the result and the output file are
    left to the caller.  The loop over the windows takes fuel; it is shown to end
    with as much fuel as there are recorded UTXOs, plus one. *)

From stdpp Require Import prelude gmap.
From S2P Require Import Prelude Frame Weights Collections CardanoTypes LedgerErrors.
From S2P Require Import LedgerInterface CNightObservation CNightFollower.

Open Scope Z_scope.

(** ** The test runtime *)

(** [CAPTURED_SYSTEM_TXS]: executing a system transaction records it and returns
    [Hash::default()]. *)
#[export] Instance MidnightSystemTx : MidnightSystemTransactionExecutor (list (list Z)) Empty_set :=
  {| execute_system_transaction := λ tx captured, (Ok (replicate 32 0), captured ++ [tx]) |}.
#[local] Existing Instance MidnightSystemTx.

(** [drain(..).collect()]: what was captured, and what is left. *)
Definition pop_captured_system_txs (captured : list (list Z)) : list (list Z) * list (list Z) :=
  (captured, []).

Definition default_position : CardanoPosition :=
  {| block_hash := replicate 32 0; block_number := 0; block_timestamp := 0; tx_index_in_block := 0 |}.

(** [CNightGenesis::default()]. *)
Definition default_genesis : CNightGenesis := {|
  genesis_mapping_validator_address := []; genesis_auth_token_asset_name := [];
  genesis_cnight_policy_id := replicate 28 0; genesis_cnight_asset_name := [];
  genesis_mappings := []; genesis_utxo_owners := [];
  genesis_next_cardano_position := default_position |}.

(** [new_test_ext]: the storage built from the default configuration. *)
Definition new_test_ext (captured : list (list Z)) : outcome Empty_set (@State (list (list Z))) :=
  build default_genesis captured.

(** ** The command *)

Definition UTXO_CAPACITY : Z := 1000.

Section Genesis.
Context {L : CardanoLib} (D : Db L) (T : Externals) `{StorageLayers}.

Inductive CNightGenesisError : Type :=
| UtxoQueryError (e : BoxedError D).

Record PalletExecResult : Type := {
  exec_mappings : gmap (list Z) (list MappingEntry);
  exec_utxo_owners : gmap (list Z) (list Z);
  exec_next_cardano_position : CardanoPosition;
  exec_system_tx : option (list Z);
}.

(** The [create_inherent] of the file: the batch under the pallet's identifier. *)
Definition inherent_of (l : list ObservedUtxo) (next : CardanoPosition) : InherentData :=
  Decoded (Some {| utxos := l; next_cardano_position := next |}).

(** Both [expect]s and the [assert!] panic. *)
Definition exec_pallet {E} (captured : list (list Z)) (u : ObservedUtxos) :
    outcome E PalletExecResult :=
  match new_test_ext captured with
  | Ok s =>
      match CNightObservation.create_inherent (E := E) (inherent_of (observed u) (end_ u)) with
      | Ok (Some (Call_process_tokens l next)) =>
          match process_tokens (F := Empty_set) T NoOrigin l next s with
          | (Ok _, s') =>
              Ok {| exec_mappings := Mappings s'; exec_utxo_owners := UtxoOwners s';
                    exec_next_cardano_position := NextCardanoPosition s';
                    exec_system_tx := last (fst (pop_captured_system_txs (world s'))) |}
          | _ => Panic
          end
      | _ => Panic
      end
  | _ => Panic
  end.

(** The loop: window after window until the position is in the tip's block;
    [None] is out of fuel. *)
Fixpoint fetch_utxos (fuel : nat) (addresses : CNightAddresses) (cardano_tip : list Z)
    (current_position : CardanoPosition) (all_utxos : list ObservedUtxo) :
    option (outcome CNightGenesisError (list ObservedUtxo * CardanoPosition)) :=
  match fuel with
  | O => None
  | S fuel =>
      match get_utxos_up_to_capacity D addresses current_position cardano_tip UTXO_CAPACITY with
      | Ok w =>
          let current_position := end_ w in
          let all_utxos := all_utxos ++ observed w in
          if bool_decide (block_hash current_position = cardano_tip)
          then Some (Ok (all_utxos, current_position))
          else fetch_utxos fuel addresses cardano_tip current_position all_utxos
      | Err e => Some (Err (UtxoQueryError e))
      | Panic => Some Panic
      end
  end.

(** The addresses of any registration or deregistration. *)
Definition registered_address (u : ObservedUtxo) : option (list Z) :=
  match data u with
  | Registration d => Some (reg_cardano_reward_address d)
  | Deregistration d => Some (dereg_cardano_reward_address d)
  | _ => None
  end.
Definition registered_addresses (l : list ObservedUtxo) : gset (list Z) :=
  list_to_set (omap registered_address l).

(** The closure of [retain]. *)
Definition is_relevant (registered : gset (list Z)) (u : ObservedUtxo) : bool :=
  match data u with
  | Registration _ | Deregistration _ => true
  | AssetCreate d => bool_decide (create_owner d ∈ registered)
  | AssetSpend d => bool_decide (spend_owner d ∈ registered)
  end.
Definition retain_registered (l : list ObservedUtxo) : list ObservedUtxo :=
  filter (λ u, is_relevant (registered_addresses l) u) l.

(** What is written: the part of [CNightGenesis] the pallet's genesis reads, and
    the rest. *)
Record GenesisFile : Type := {
  file_config : CNightGenesis;
  file_observed_utxos : ObservedUtxos;
  file_system_tx : option (list Z);
}.

Definition file_of (addresses : CNightAddresses) (u : ObservedUtxos) (r : PalletExecResult) :
    GenesisFile := {|
  file_config := {|
    genesis_mapping_validator_address := mapping_validator_address addresses;
    genesis_auth_token_asset_name := auth_token_asset_name addresses;
    genesis_cnight_policy_id := cnight_policy_id addresses;
    genesis_cnight_asset_name := cnight_asset_name addresses;
    genesis_mappings := btree_to_list bytes_cmp (exec_mappings r);
    genesis_utxo_owners := btree_to_list bytes_cmp (exec_utxo_owners r);
    genesis_next_cardano_position := exec_next_cardano_position r |};
  file_observed_utxos := u;
  file_system_tx := exec_system_tx r |}.

Definition generate_cnight_genesis (fuel : nat) (captured : list (list Z))
    (addresses : CNightAddresses) (cardano_tip : list Z) :
    option (outcome CNightGenesisError GenesisFile) :=
  match fetch_utxos fuel addresses cardano_tip default_position [] with
  | None => None
  | Some fetched => Some (
      '(all_utxos, current_position) ← fetched;
      let observed_utxos := {| start := default_position; end_ := current_position;
                               observed := retain_registered all_utxos |} in
      r ← exec_pallet captured observed_utxos;
      mret (file_of addresses observed_utxos r))
  end.

(** ** The loop ends *)

Definition all_utxos (ts : list (Table L)) : list ObservedUtxo := concat (table_utxos <$> ts).

(** The recorded UTXOs at or after a position. *)
Definition remaining (ts : list (Table L)) (p : CardanoPosition) : nat :=
  length (filter (λ u, position_cmp p (position_of u) ≠ Gt) (all_utxos ts)).

(** No block has [i32::MAX] transactions. *)
Definition small_blocks (t : Table L) : Prop :=
  ∀ r, r ∈ rows t → row_tx_index_in_block L (row_position t r) < I32_MAX.

Lemma get_block_by_hash_hash tip b : get_block_by_hash D tip = Ok (Some b) → b_hash L b = tip.
Proof.
  unfold get_block_by_hash. destruct (block_rows L D) as [rows|?|]; [|done..].
  intros [= Hhead]. apply head_Some_elem_of in Hhead.
  by apply list_elem_of_filter in Hhead as [? _].
Qed.

Lemma remaining_decreases ts p q u :
  u ∈ all_utxos ts → position_cmp p (position_of u) ≠ Gt → position_cmp (position_of u) q = Lt →
  position_cmp p q ≠ Gt → (remaining ts q < remaining ts p)%nat.
Proof.
  intros Hu Hpu Huq Hpq. unfold remaining. generalize dependent (all_utxos ts). intros l Hu.
  assert (∀ k : list ObservedUtxo,
    (length (filter (λ u, position_cmp q (position_of u) ≠ Gt) k) ≤
     length (filter (λ u, position_cmp p (position_of u) ≠ Gt) k))%nat) as Hle.
  { induction k as [|v k IH]; [done|]. rewrite !filter_cons.
    destruct (decide (position_cmp q (position_of v) ≠ Gt)) as [Hq|Hq].
    - rewrite decide_True by (by eapply (cmp_le_trans position_cmp)). simpl. lia.
    - case_decide; simpl; lia. }
  apply list_elem_of_split in Hu as (l1 & l2 & ->).
  rewrite !list.filter_app, !length_app, !filter_cons.
  rewrite (decide_True _ _ Hpu), decide_False; [|by rewrite (cmp_flip position_cmp), Huq; simpl; tauto].
  pose proof (Hle l1). pose proof (Hle l2). simpl. lia.
Qed.

Section Fetch.
Context `{!CardanoLibSpec L, !OrderBySpec L D}.
Context (addresses : CNightAddresses) (ts : list (Table L)) (tip : list Z) (b : Block L).
Context (Hts : tables D addresses = Ok ts) (Hsound : Forall table_sound ts)
  (Hsmall : Forall small_blocks ts) (Hb : get_block_by_hash D tip = Ok (Some b)).
Let e : CardanoPosition := increment (position_of_block b).
Context (He : i32_position e).

(** One window: the loop is done, or a recorded UTXO is behind. *)
Lemma fetch_window p :
  i32_position p → position_cmp p e ≠ Gt →
  ∃ w, get_utxos_up_to_capacity D addresses p tip UTXO_CAPACITY = Ok w ∧
    i32_position (end_ w) ∧ position_cmp p (end_ w) ≠ Gt ∧ position_cmp (end_ w) e ≠ Gt ∧
    (block_hash (end_ w) = tip ∨ (remaining ts (end_ w) < remaining ts p)%nat).
Proof.
  intros Hp Hpe. pose proof (tables_lawful D addresses ts Hts) as Hlaw.
  assert (2 ≤ UTXO_CAPACITY) as Hcap by by unfold UTXO_CAPACITY.
  pose proof (get_utxos_up_to_capacity_eq D addresses p tip UTXO_CAPACITY ts b Hts Hb
                ltac:(lia) ltac:(done)) as Hget.
  cbv zeta in Hget. fold e in Hget. eexists. split; [exact Hget|]. clear Hget.
  destruct (cut_spec D p e UTXO_CAPACITY ts Hp He Hcap Hlaw Hsound) as (_ & Hle & Hge & _).
  destruct (cut_progress D p e UTXO_CAPACITY ts Hp He Hcap Hlaw Hsound)
    as [Hend|(t & r & u & Ht & Hr & Hru & [Hpu _] & Hend)].
  { rewrite Hend. split_and!; [done..| |].
    - by rewrite cmp_refl by apply _.
    - left. by apply get_block_by_hash_hash. }
  rewrite Hend in Hle |- *. rewrite list.Forall_forall in Hlaw, Hsound, Hsmall.
  destruct (sound_positions _ (Hsound t Ht) r Hr) as [Hn Hi]. pose proof (Hsmall t Ht r Hr) as Hlt.
  assert (position_of u = position_of_row (row_position t r)) as Hpos
    by (unfold position_of; by rewrite (row_utxo_position _ (Hlaw t Ht) _ _ Hru)).
  assert (0 ≤ tx_index_in_block (position_of u) < umax 32) as Hidx
    by (rewrite Hpos; simpl in *; unfold umax, I32_MAX in *; lia).
  assert (position_cmp p (increment (position_of u)) = Lt) as Hlater by by apply lt_increment.
  split_and!; [|by rewrite Hlater|done|right].
  - rewrite Hpos. split; [exact Hn|]. simpl in *. unfold I32_MAX in *.
    rewrite wrap_small by (unfold in_range, umax; lia). lia.
  - apply (remaining_decreases ts p _ u); [|done|..|by rewrite Hlater].
    + apply elem_of_concat. exists (table_utxos t). split; [by apply list_elem_of_fmap_2|].
      apply list_elem_of_omap. by exists r.
    + apply lt_increment; [done|]. by rewrite cmp_refl by apply _.
Qed.

(** The limit of no query bites, from whichever position. *)
Definition limits_hold : Prop :=
  ∀ p, i32_position p → Forall (adequate D p e UTXO_CAPACITY) ts.

Lemma fetch_utxos_ok fuel : ∀ p acc,
  i32_position p → position_cmp p e ≠ Gt → (remaining ts p < fuel)%nat →
  ∃ l q, fetch_utxos fuel addresses tip p acc = Some (Ok (acc ++ l, q)) ∧
    block_hash q = tip ∧ i32_position q ∧ (limits_hold → follows D addresses ts p l q).
Proof.
  induction fuel as [|fuel IH]; intros p acc Hp Hpe Hfuel; [lia|]. simpl.
  destruct (fetch_window p Hp Hpe) as (w & Hget & Hi & Hge & Hle & Hcase). rewrite Hget.
  assert (∀ l q, limits_hold → follows D addresses ts (end_ w) l q →
    follows D addresses ts p (observed w ++ l) q) as Hstep.
  { intros l q Hlim Hl. specialize (Hlim p Hp).
    by apply (follows_window D addresses ts p tip b UTXO_CAPACITY w). }
  case_bool_decide as Htip.
  - exists (observed w), (end_ w). split_and!; [done..|]. intros Hlim.
    rewrite <-(app_nil_r (observed w)). apply Hstep; [done|apply follows_done].
  - destruct Hcase as [?|Hdec]; [done|].
    destruct (IH (end_ w) (acc ++ observed w) Hi Hle ltac:(lia)) as (l & q & Hf & Hq & Hqi & Hl).
    exists (observed w ++ l), q. rewrite app_assoc. split_and!; [done..|]. intros Hlim.
    by apply Hstep; [|apply Hl].
Qed.

Lemma default_position_first p : i32_position p → position_cmp default_position p ≠ Gt.
Proof.
  intros [??]. unfold position_cmp. change (block_number default_position) with 0.
  destruct (Z.compare_spec 0 (block_number p)); cbn [then_cmp]; [|done|lia]. apply Z.compare_le_iff.
  simpl. lia.
Qed.

Lemma remaining_le p : (remaining ts p ≤ length (all_utxos ts))%nat.
Proof. apply length_filter. Qed.

Lemma fetch_from_genesis fuel :
  (length (all_utxos ts) < fuel)%nat →
  ∃ l q, fetch_utxos fuel addresses tip default_position [] = Some (Ok (l, q)) ∧
    block_hash q = tip ∧ i32_position q ∧
    (limits_hold → l = sort_utxos (filter (between default_position q) (all_utxos ts))).
Proof.
  intros Hfuel. assert (i32_position default_position) as Hd
    by (unfold i32_position, I32_MAX; simpl; lia).
  destruct (fetch_utxos_ok fuel default_position [] Hd) as (l & q & Hf & Hq & Hi & Hl).
  - by apply default_position_first.
  - pose proof (remaining_le default_position). lia.
  - exists l, q. split_and!; [done..|]. intros Hlim.
    by destruct (follows_partition D addresses ts default_position l q Hts Hsound (Hl Hlim)).
Qed.
End Fetch.

(** ** The filter loses nothing *)

Definition owner_of (u : ObservedUtxo) : option (list Z * list Z) :=
  match data u with
  | AssetCreate d => Some (utxo_nonce T (create_utxo_tx_hash d) (create_utxo_tx_index d), create_owner d)
  | AssetSpend d => Some (utxo_nonce T (spend_utxo_tx_hash d) (spend_utxo_tx_index d), spend_owner d)
  | _ => None
  end.

(** An output has one owner: what Cardano guarantees of outputs and their spends,
    and the hash of nonces. *)
Definition owners_agree (l : list ObservedUtxo) : Prop :=
  ∀ u v n a b, u ∈ l → v ∈ l → owner_of u = Some (n, a) → owner_of v = Some (n, b) → a = b.

Section Retain.
Context {World : Type} (l : list ObservedUtxo) (Hagree : owners_agree l).
Let R : gset (list Z) := registered_addresses l.

(** Only registered addresses have mappings, and only their UTXOs are known. *)
Definition only_registered (s : @State World) : Prop :=
  (∀ a m, Mappings s !! a = Some m → a ∈ R) ∧
  (∀ n k, UtxoOwners s !! n = Some k → ∃ u a, u ∈ l ∧ owner_of u = Some (n, a) ∧ a ∈ R).

Lemma registered_address_in u a : u ∈ l → registered_address u = Some a → a ∈ R.
Proof.
  intros Hu Ha. apply elem_of_list_to_set, list_elem_of_omap. eauto.
Qed.

Lemma unregistered_mappings s a : only_registered s → a ∉ R → mappings_of s a = [].
Proof.
  intros [Hm _] Ha. unfold mappings_of. destruct (Mappings s !! a) eqn:Hl; [|done].
  by apply Hm in Hl.
Qed.

Lemma put_mappings_only a m es s :
  only_registered s → a ∈ R → only_registered (add_events es (put_mappings a m s)).
Proof.
  intros [Hm Ho] Ha. split; [|exact Ho]. intros b m'. simpl. case_decide.
  - intros [_ Hb]%lookup_delete_Some. by eapply Hm.
  - intros [[<- _]|[_ Hb]]%lookup_insert_Some; [done|by eapply Hm].
Qed.

Lemma process_utxo_only {E} u s :
  u ∈ l → only_registered s → only_registered (process_utxo (E := E) T u s).2.
Proof.
  intros Hu Hs. pose proof (registered_address_in u) as Hr. pose proof Hs as [Hm Ho].
  unfold process_utxo, registered_address in *. destruct (data u) as [d|d|d|d] eqn:Hd; mrun.
  - rewrite handle_registration_eq. by apply put_mappings_only; [|apply Hr].
  - rewrite handle_registration_removal_eq. by apply put_mappings_only; [|apply Hr].
  - unfold handle_create; mrun. destruct (get_registration s _) as [k|] eqn:Hk; [|done].
    destruct (construct_cnight_generates_dust_event _ _ _ _ _ _); [|done]. simpl.
    split; [exact Hm|]. intros n k'. simpl.
    intros [[<- _]|[_ Hn]]%lookup_insert_Some; [|by eapply Ho].
    exists u, (create_owner d). unfold owner_of. rewrite Hd. split_and!; [done..|].
    destruct (decide (create_owner d ∈ R)); [done|].
    by rewrite get_registration_eq, unregistered_mappings in Hk.
  - unfold handle_spend; mrun.
    assert (only_registered (set_UtxoOwners
      (delete (utxo_nonce T (spend_utxo_tx_hash d) (spend_utxo_tx_index d)) (UtxoOwners s)) s)).
    { split; [exact Hm|]. intros n k. simpl. intros [_ Hn]%lookup_delete_Some. by eapply Ho. }
    by destruct (UtxoOwners s !! _).
Qed.

(** A UTXO the filter drops changes nothing. *)
Lemma irrelevant_utxo {E} u s :
  u ∈ l → only_registered s → is_relevant R u = false →
  process_utxo (E := E) T u s = (Ok None, s).
Proof.
  intros Hu Hs Hr. unfold process_utxo, is_relevant in *. destruct (data u) as [d|d|d|d] eqn:Hd; try done.
  - apply bool_decide_eq_false in Hr. unfold handle_create; mrun.
    by rewrite get_registration_eq, unregistered_mappings.
  - apply bool_decide_eq_false in Hr. unfold handle_spend; mrun.
    destruct (UtxoOwners s !! _) as [k|] eqn:Ho.
    { exfalso. destruct Hs as [_ Hs]. destruct (Hs _ _ Ho) as (v & a & Hv & Hva & Ha).
      apply Hr. rewrite <-(Hagree v u _ a (spend_owner d) Hv Hu Hva); [done|].
      unfold owner_of. by rewrite Hd. }
    simpl. rewrite delete_id by done. by destruct s.
Qed.

Lemma process_relevant {E} k s :
  (∀ u, u ∈ k → u ∈ l) → only_registered s →
  process_utxos (E := E) T (filter (λ u, is_relevant R u) k) s = process_utxos T k s.
Proof.
  revert s. induction k as [|u k IH]; intros s Hk Hs; [done|].
  assert (u ∈ l) as Hu by (apply Hk; left).
  assert (∀ v, v ∈ k → v ∈ l) as Hk' by (intros v Hv; apply Hk; by right).
  pose proof (process_utxo_only (E := E) u s Hu Hs) as Hs'.
  rewrite filter_cons. destruct (is_relevant R u) eqn:Hr; simpl; unfold mbind, M_bind; simpl.
  - destruct (process_utxo T u s) as [[e|?|] s1]; [|done..]. by rewrite IH.
  - rewrite (irrelevant_utxo u s Hu Hs Hr). rewrite IH by done.
    by destruct (process_utxos T k s) as [[]?].
Qed.
End Retain.

Lemma retain_registered_same {World E} l (s : @State World) :
  owners_agree l → Mappings s = ∅ → UtxoOwners s = ∅ →
  process_utxos (E := E) T (retain_registered l) s = process_utxos T l s.
Proof.
  intros Hagree Hm Ho. apply (process_relevant l Hagree); [done|].
  split; [rewrite Hm|rewrite Ho]; intros ??; by rewrite lookup_empty.
Qed.

(** ** The pallet on an empty chain *)

(** The storage of the test runtime. *)
Definition empty_state (captured : list (list Z)) : @State (list (list Z)) := {|
  MainChainMappingValidatorAddress := []; MainChainAuthTokenAssetName := [];
  Mappings := ∅; UtxoOwners := ∅; NextCardanoPosition := default_position;
  CNightIdentifier := (replicate 28 0, []);
  CardanoBlockWindowSize := INITIAL_CARDANO_BLOCK_WINDOW_SIZE;
  CardanoTxCapacityPerBlock := DEFAULT_CARDANO_TX_CAPACITY_PER_BLOCK;
  InherentExecutedThisBlock := false; events := []; world := captured |}.

Lemma new_test_ext_eq captured : new_test_ext captured = Ok (empty_state captured).
Proof. reflexivity. Qed.

(** What observing [l] from the empty state gives. *)
Definition observe (captured : list (list Z)) (l : list ObservedUtxo) :
    outcome (ErrorWithPostInfo Error Empty_set) (list (list Z)) * @State (list (list Z)) :=
  process_utxos T l (set_flag true (empty_state captured)).

Definition exec_result (captured : list (list Z)) (es : list (list Z)) (s : @State (list (list Z)))
    (p : CardanoPosition) : PalletExecResult := {|
  exec_mappings := Mappings s; exec_utxo_owners := UtxoOwners s; exec_next_cardano_position := p;
  exec_system_tx := last (captured ++ option_list (system_tx_of T es)) |}.

Lemma observe_ok captured l :
  ∃ es s, observe captured l = (Ok es, s) ∧ world s = captured.
Proof.
  destruct (process_utxos_ok (E := ErrorWithPostInfo Error Empty_set) T l
    (set_flag true (empty_state captured))) as (es & s & Hl & _ & Hrest).
  exists es, s. split; [done|]. unfold same_rest in Hrest. by destruct_and!.
Qed.

Lemma process_tokens_captured l p captured es s :
  Z.of_nat (length l) ≤ 12800 → i32_position p →
  observe captured l = (Ok es, s) → world s = captured →
  ∃ info s', process_tokens (F := Empty_set) T NoOrigin l p (empty_state captured) = (Ok info, s') ∧
    Mappings s' = Mappings s ∧ UtxoOwners s' = UtxoOwners s ∧ NextCardanoPosition s' = p ∧
    world s' = captured ++ option_list (system_tx_of T es).
Proof.
  intros Hlen Hp Hes Hw. unfold observe in Hes.
  assert (wrap 32 (Z.of_nat (length l)) = Z.of_nat (length l)) as Hcount
    by (apply wrap_small; unfold in_range, umax; lia).
  assert (position_ge p default_position = true) as Hge.
  { unfold position_ge. rewrite position_partial_cmp_total.
    pose proof (default_position_first p Hp) as Hle. rewrite (cmp_flip position_cmp) in Hle.
    by destruct (position_cmp p default_position). }
  assert (∃ info s', process_tokens_body (F := Empty_set) T NoOrigin l p (empty_state captured) =
      (Ok info, s') ∧
    Mappings s' = Mappings s ∧ UtxoOwners s' = UtxoOwners s ∧ NextCardanoPosition s' = p ∧
    world s' = captured ++ option_list (system_tx_of T es)) as (info & s' & Hb & Hrest).
  2:{ exists info, s'. split; [by apply layer_commit|done]. }
  unfold process_tokens_body. unfold into_post_info, with_err, ensure_none; mrun.
  rewrite Hcount, bool_decide_true by (simpl; unfold sat_mul, umax, UTXO_PER_TX_OVERESTIMATE,
    DEFAULT_CARDANO_TX_CAPACITY_PER_BLOCK; lia).
  mrun. rewrite Hge. mrun. rewrite Hes. unfold system_tx_of. case_bool_decide; simpl.
  { eexists _, _. split; [done|]. by rewrite app_nil_r. }
  destruct (construct_cnight_generates_dust_system_tx T es) as [tx|]; simpl;
    (eexists _, _; split; [done|]; simpl; by rewrite ?app_nil_r, ?Hw).
Qed.

Lemma exec_pallet_eq {E} captured u es s :
  Z.of_nat (length (observed u)) ≤ 12800 → i32_position (end_ u) →
  observe captured (observed u) = (Ok es, s) → world s = captured →
  exec_pallet (E := E) captured u = Ok (exec_result captured es s (end_ u)).
Proof.
  intros Hlen Hend Hes Hw. unfold exec_pallet. rewrite new_test_ext_eq. simpl.
  destruct (process_tokens_captured (observed u) (end_ u) captured es s)
    as (info & s' & -> & Hm & Ho & Hp & Hw'); [done..|].
  unfold exec_result. simpl. by rewrite Hm, Ho, Hp, Hw'.
Qed.

Lemma exec_pallet_too_many {E} captured u :
  12800 < Z.of_nat (length (observed u)) ≤ umax 32 → exec_pallet (E := E) captured u = Panic.
Proof.
  intros Hlen. unfold exec_pallet. rewrite new_test_ext_eq. simpl.
  destruct (process_tokens T NoOrigin (observed u) (end_ u) (empty_state captured))
    as [[info|e|] s'] eqn:Hp; [|done..].
  apply process_tokens_inv in Hp as [(? & ? & _)|(es & s1 & _ & _ & _ & Hcount & _)]; [done| |done].
  rewrite wrap_small in Hcount by (unfold in_range; lia).
  unfold sat_mul, umax, UTXO_PER_TX_OVERESTIMATE in Hcount. simpl in Hcount.
  unfold DEFAULT_CARDANO_TX_CAPACITY_PER_BLOCK in Hcount. lia.
Qed.

(** ** Properties *)

(** an asset UTXO whose owner never registers or deregisters can be dropped
    before the replay: observing the retained UTXOs on an empty chain gives the
    same ledger events, the same mappings, the same owners and the same log as
    observing all of them. *)
Theorem unregistered_utxos_have_no_effect {World E} l (s : @State World) :
  owners_agree l → Mappings s = ∅ → UtxoOwners s = ∅ →
  process_utxos (E := E) T (retain_registered l) s = process_utxos T l s.
Proof. apply retain_registered_same. Qed.

(** the replay only takes a genesis of 12,800 retained UTXOs: the command
    panics on more, since one [process_tokens] of the test runtime accepts
    [200 * 64] of them, although the loop before it fetches without bound. *)
Theorem genesis_panics_above_pallet_limit l :
  12800 < Z.of_nat (length (retain_registered l)) ≤ umax 32 →
  ∀ fuel captured addresses tip q,
    fetch_utxos fuel addresses tip default_position [] = Some (Ok (l, q)) →
    generate_cnight_genesis fuel captured addresses tip = Some Panic.
Proof.
  intros Hlen fuel captured addresses tip q Hf. unfold generate_cnight_genesis. rewrite Hf. simpl.
  by rewrite exec_pallet_too_many.
Qed.

Section Complete.
Context `{!CardanoLibSpec L, !OrderBySpec L D}.
Context (addresses : CNightAddresses) (ts : list (Table L)) (tip : list Z) (b : Block L).

(** C30: the loop over the windows ends.  With fuel for one window per recorded
    UTXO, and one more, it returns the UTXOs and a position in the block of the
    tip, whatever the limits of the queries cut off; if they cut nothing off it
    returns exactly the recorded UTXOs before that position, in order. *)
Theorem genesis_fetch_terminates fuel :
  tables D addresses = Ok ts → Forall table_sound ts → Forall small_blocks ts →
  get_block_by_hash D tip = Ok (Some b) → i32_position (increment (position_of_block b)) →
  (length (all_utxos ts) < fuel)%nat →
  ∃ l q, fetch_utxos fuel addresses tip default_position [] = Some (Ok (l, q)) ∧
    block_hash q = tip ∧ i32_position q ∧
    (limits_hold ts b → l = sort_utxos (filter (between default_position q) (all_utxos ts))).
Proof. intros. by apply fetch_from_genesis. Qed.

(** The genesis builder accepts the addresses. *)
Definition addresses_fit : Prop :=
  Z.of_nat (length (mapping_validator_address addresses)) ≤ CARDANO_BECH32_ADDRESS_MAX_LENGTH ∧
  Z.of_nat (length (cnight_policy_id addresses)) ≤ 28 ∧
  Z.of_nat (length (cnight_asset_name addresses)) ≤ 32 ∧
  Z.of_nat (length (auth_token_asset_name addresses)) ≤ 32.

Lemma build_file_of {World} u r (w : World) :
  addresses_fit →
  ∃ g, build (file_config (file_of addresses u r)) w = Ok g ∧
    Mappings g = exec_mappings r ∧ UtxoOwners g = exec_utxo_owners r ∧
    NextCardanoPosition g = exec_next_cardano_position r.
Proof.
  intros (Ha & Hp & Hn & Ht). unfold build. simpl.
  rewrite !(proj2 (bounded_try_from_Some _ _ _)) by done.
  eexists. split; [done|]. simpl. by rewrite !foldl_insert_btree by apply _.
Qed.

(** Of fewer UTXOs fewer are retained. *)
Lemma retain_registered_mono (P : ObservedUtxo → Prop) `{∀ u, Decision (P u)} l k :
  l ≡ₚ filter P k → (length (retain_registered l) ≤ length (retain_registered k))%nat.
Proof.
  intros Hl. unfold retain_registered.
  assert (registered_addresses l ⊆ registered_addresses k) as Hsub.
  { unfold registered_addresses. intros a. rewrite !elem_of_list_to_set, !list_elem_of_omap.
    intros (u & Hu & Ha). exists u. rewrite Hl, list_elem_of_filter in Hu. by destruct Hu. }
  trans (length (filter (λ u, is_relevant (registered_addresses k) u) l)).
  - generalize (registered_addresses l) (registered_addresses k) Hsub. clear. intros X Y Hsub.
    induction l as [|u l IH]; [done|]. rewrite !filter_cons.
    assert (is_relevant X u → is_relevant Y u) as Hr.
    { unfold is_relevant. destruct (data u); [done..| |]; rewrite !bool_decide_spec; set_solver. }
    destruct (decide (is_relevant X u)) as [Hx|Hx].
    + rewrite decide_True by auto. simpl. lia.
    + case_decide; simpl; lia.
  - rewrite Hl. apply filter_filter_length.
Qed.

(** C8: the chain starts where an observer of all of Cardano up to the tip would be.
    Conditions: the tip is recorded and its position fits [i32], every block has fewer
    transactions than [i32] counts, and no query has two rows for one event of a UTXO;
    from no position does the limit of a query bite; an output has one owner wherever
    it occurs; at most 12,800 UTXOs belong to addresses that register (with more the
    command panics); the configured addresses and names are within the bounds of the
    pallet; the command starts with no captured transaction, and has a step for each
    recorded UTXO and one more.  Then the command succeeds, and the storage the pallet
    builds from its file has the mappings, the UTXO owners and the next position (in the
    block of the tip) that
    observing every recorded UTXO before that position on an empty chain gives; the
    file's system transaction is made of that observation's ledger events. *)
Theorem genesis_file_replays_cardano {World} fuel (w : World) :
  tables D addresses = Ok ts → Forall table_sound ts → Forall small_blocks ts →
  get_block_by_hash D tip = Ok (Some b) → i32_position (increment (position_of_block b)) →
  (length (all_utxos ts) < fuel)%nat → limits_hold ts b → owners_agree (all_utxos ts) →
  Z.of_nat (length (retain_registered (all_utxos ts))) ≤ 12800 → addresses_fit →
  ∃ file q es s g,
    generate_cnight_genesis fuel [] addresses tip = Some (Ok file) ∧ block_hash q = tip ∧
    observe [] (sort_utxos (filter (between default_position q) (all_utxos ts))) = (Ok es, s) ∧
    build (file_config file) w = Ok g ∧ Mappings g = Mappings s ∧ UtxoOwners g = UtxoOwners s ∧
    NextCardanoPosition g = q ∧ file_system_tx file = system_tx_of T es.
Proof.
  intros Hts Hsound Hsmall Hb He Hfuel Hlim Hagree Hcount Hfit.
  destruct (fetch_from_genesis addresses ts tip b Hts Hsound Hsmall Hb He fuel Hfuel)
    as (l & q & Hf & Hq & Hqi & Hl). specialize (Hl Hlim).
  assert (l ≡ₚ filter (between default_position q) (all_utxos ts)) as Hperm
    by (by rewrite Hl, sort_utxos_eq, sort_by_perm).
  assert (owners_agree l) as Hagree'.
  { intros u v n x y Hu Hv. rewrite Hperm, list_elem_of_filter in Hu, Hv.
    destruct Hu, Hv. by apply Hagree. }
  pose proof (retain_registered_mono _ _ _ Hperm) as Hlen.
  destruct (observe_ok [] l) as (es & s & Hes & Hw).
  set (u := {| start := default_position; end_ := q; observed := retain_registered l |}).
  assert (exec_pallet (E := CNightGenesisError) [] u = Ok (exec_result [] es s q)) as Hexec.
  { apply (exec_pallet_eq [] u es s); simpl; [lia|done| |done].
    unfold observe in *. by rewrite retain_registered_same. }
  destruct (build_file_of u (exec_result [] es s q) w Hfit) as (g & Hg & Hm & Ho & Hn).
  exists (file_of addresses u (exec_result [] es s q)), q, es, s, g. split_and!; try done.
  - unfold generate_cnight_genesis. rewrite Hf. simpl. fold u. by rewrite Hexec.
  - by rewrite <-Hl.
  - simpl. by destruct (system_tx_of T es).
Qed.
End Complete.
End Genesis.

(** ** At the concrete database and ledger *)

Module GenesisConcrete.
Import CNightFollower.Concrete.

Definition bob_create : ObservedUtxo :=
  {| header := CNightObservation.Concrete.hdr 4 [14] [14];
     data := AssetCreate {| create_value := 7; create_owner := [9; 9];
                            create_utxo_tx_hash := [14]; create_utxo_tx_index := 0 |} |}.
Definition with_bob : list ObservedUtxo := CNightObservation.Concrete.batch ++ [bob_create].
(** The same output registered again and again. *)
Definition crowd : list ObservedUtxo :=
  replicate (Z.to_nat 12801)
    {| header := CNightObservation.Concrete.hdr 0 [10] [10];
       data := Registration {| reg_cardano_reward_address := [1]; reg_dust_public_key := [2] |} |}.

(** Deciding that owners agree. *)
Lemma owners_agree_check T l :
  forallb (λ u, forallb (λ v,
    match owner_of T u, owner_of T v with
    | Some (n, a), Some (m, b) => bool_decide (n ≠ m) || bool_decide (a = b)
    | _, _ => true
    end) l) l = true → owners_agree T l.
Proof.
  rewrite forallb_forall. intros Hl u v n a b Hu%list_elem_of_In Hv%list_elem_of_In Ha Hb.
  specialize (Hl u Hu). rewrite forallb_forall in Hl. specialize (Hl v Hv).
  rewrite Ha, Hb, orb_true_iff, !bool_decide_eq_true in Hl. by destruct Hl.
Qed.

Lemma selected_small p e (t : Table lib) :
  Z.of_nat (length (rows t)) ≤ 1000 * 64 → Z.of_nat (length (selected p e t)) ≤ 1000 * 64.
Proof. intros Ht. etrans; [apply inj_le, length_filter|exact Ht]. Qed.
End GenesisConcrete.
Import GenesisConcrete CNightFollower.Concrete.

Lemma unregistered_utxos_have_no_effect_witness :
  let s := empty_state [] in
  process_utxos (E := unit) CNightObservation.Concrete.ext (retain_registered with_bob) s =
    process_utxos CNightObservation.Concrete.ext with_bob s ∧
  length (retain_registered with_bob) = 4%nat ∧ length with_bob = 5%nat.
Proof.
  split; [|split; vm_compute; reflexivity].
  apply (unregistered_utxos_have_no_effect CNightObservation.Concrete.ext with_bob (empty_state []));
    [|reflexivity|reflexivity].
  apply owners_agree_check. vm_compute. reflexivity.
Defined.

Lemma genesis_panics_above_pallet_limit_witness :
  length (retain_registered crowd) = length crowd ∧
  ∀ fuel addresses tip q,
    fetch_utxos small_db fuel addresses tip default_position [] = Some (Ok (crowd, q)) →
    generate_cnight_genesis small_db CNightObservation.Concrete.ext fuel [] addresses tip = Some Panic.
Proof.
  assert (retain_registered crowd = crowd) as Hall.
  { apply filter_all. intros u Hu. by apply elem_of_replicate in Hu as [-> _]. }
  split; [by rewrite Hall|]. intros fuel addresses tip q.
  apply (genesis_panics_above_pallet_limit small_db CNightObservation.Concrete.ext crowd).
  rewrite Hall. unfold crowd. rewrite length_replicate. unfold umax. lia.
Defined.

Ltac solve_small_blocks :=
  solve_tables ltac:(intros r Hr; repeat (apply elem_of_cons in Hr as [->|Hr]; [vm_compute; reflexivity|]);
                     by apply elem_of_nil in Hr).
Ltac solve_limits :=
  intros p Hp; solve_tables ltac:(left; apply selected_small; vm_compute; discriminate).

Lemma genesis_fetch_terminates_witness :
  ∃ l q, fetch_utxos small_db 4 cfg [6] default_position [] = Some (Ok (l, q)) ∧ block_hash q = [6].
Proof.
  destruct (genesis_fetch_terminates small_db cfg (tables_of small_db) [6] block6 4)
    as (l & q & Hf & Hq & _).
  - reflexivity.
  - solve_sound.
  - solve_small_blocks.
  - vm_compute. reflexivity.
  - solve_i32.
  - vm_compute. lia.
  - exists l, q. split; [exact Hf|exact Hq].
Defined.

Lemma genesis_file_replays_cardano_witness :
  ∃ file g, generate_cnight_genesis small_db CNightObservation.Concrete.ext 4 [] cfg [6] = Some (Ok file) ∧
    build (file_config file) tt = Ok g.
Proof.
  destruct (genesis_file_replays_cardano small_db CNightObservation.Concrete.ext cfg
              (tables_of small_db) [6] block6 4 tt) as (file & q & es & s & g & Hgen & _ & _ & Hb & _).
  - reflexivity.
  - solve_sound.
  - solve_small_blocks.
  - vm_compute. reflexivity.
  - solve_i32.
  - vm_compute. lia.
  - solve_limits.
  - apply owners_agree_check. vm_compute. reflexivity.
  - vm_compute. discriminate.
  - split; [|split; [|split]]; vm_compute; discriminate.
  - exists file, g. split; [exact Hgen|exact Hb].
Defined.
