(* ===== verification/Committee.v ===== *)
(** * The block-producing committee

    Models the parts of [runtime/src] that turn the committee kept by
    pallet-session-validator-management into validators and authors:
    [session_manager.rs] (when a session ends and who validates the next one),
    [authorship.rs] (who authored the block), the conversions of the session keys
    ([opaque] in [lib.rs]) and [select_authorities_optionally_overriding], which
    puts the governed D-parameter into the selection of the next committee.  The
    pallet itself is a dependency: a class with the documented behaviour of the
    operations the runtime calls. *)

From Stdlib Require Import ZArith Lia.
From stdpp Require Import prelude gmap strings.
From S2P Require Import Prelude Frame Collections SystemParameters.

Open Scope Z_scope.

(** ** Keys *)

(** [KeyTypeId]: four bytes. *)
Definition KeyTypeId : Type := list Z.
Definition AURA : KeyTypeId := bytes_of_string "aura".
Definition GRANDPA : KeyTypeId := bytes_of_string "gran".
Definition CROSS_CHAIN : KeyTypeId := bytes_of_string "crch".

(** [cross_chain_app::Public]: an ECDSA public key of 33 bytes. *)
Record CrossChainPublic : Type := { cross_chain_inner : list Z }.
#[export] Instance CrossChainPublic_eq_dec : EqDecision CrossChainPublic.
Proof. solve_decision. Defined.

(** [opaque::SessionKeys]. *)
Record SessionKeys : Type := { aura : list Z; grandpa : list Z }.
#[export] Instance SessionKeys_eq_dec : EqDecision SessionKeys.
Proof. solve_decision. Defined.

(** [opaque::CrossChainKey]. *)
Record CrossChainKey : Type := { account : CrossChainPublic }.

(** [sidechain_domain::CandidateKey] and [CandidateKeys]. *)
Record CandidateKey : Type := { key_id : KeyTypeId; key_bytes : list Z }.

(** [Vec<u8>::try_into::<[u8; n]>]. *)
Definition try_into_array (n : nat) (bs : list Z) : option (list Z) :=
  if decide (length bs = n) then Some bs else None.

(** [CandidateKeys::find]. *)
Class CandidateKeysFind : Type := {
  find : list CandidateKey → KeyTypeId → option (list Z);
  (** the bytes of the first key of that type *)
  find_first ks id : find ks id = key_bytes ∘ snd <$> list_find (λ k, key_id k = id) ks;
}.

Section Keys.
Context `{CandidateKeysFind}.

(** [MaybeFromCandidateKeys for SessionKeys]. *)
Definition session_keys_maybe_from (keys : list CandidateKey) : option SessionKeys :=
  a ← find keys AURA;
  a ← try_into_array 32 a;
  g ← find keys GRANDPA;
  g ← try_into_array 32 g;
  Some {| aura := a; grandpa := g |}.

(** [From<SessionKeys> for CandidateKeys]. *)
Definition candidate_keys_from (value : SessionKeys) : list CandidateKey :=
  [ {| key_id := AURA; key_bytes := aura value |};
    {| key_id := GRANDPA; key_bytes := grandpa value |} ].

(** [MaybeFromCandidateKeys for CrossChainKey]; [Public::try_from] takes a slice
    of 33 bytes. *)
Definition cross_chain_key_maybe_from (keys : list CandidateKey) : option CrossChainKey :=
  key ← find keys CROSS_CHAIN;
  account ← try_into_array 33 key;
  Some {| account := {| cross_chain_inner := account |} |}.

(** session keys survive the trip through the candidate keys that are
    registered on Cardano, also when keys of other types follow them; and whatever
    candidate keys are read, the session keys that come back have 32 bytes each. *)
Theorem session_keys_roundtrip (k : SessionKeys) (others ks : list CandidateKey) :
  length (aura k) = 32%nat → length (grandpa k) = 32%nat →
  session_keys_maybe_from (candidate_keys_from k ++ others) = Some k ∧
  ∀ k', session_keys_maybe_from ks = Some k' →
    length (aura k') = 32%nat ∧ length (grandpa k') = 32%nat.
Proof.
  intros Ha Hg. split.
  - unfold session_keys_maybe_from. rewrite !find_first. cbn [candidate_keys_from app].
    cbn [list_find key_id]. rewrite (decide_True (P := AURA = AURA)) by done.
    rewrite (decide_False (P := AURA = GRANDPA)) by done.
    rewrite (decide_True (P := GRANDPA = GRANDPA)) by done. cbn.
    unfold try_into_array. rewrite !decide_True by done. by destruct k.
  - intros k'. unfold session_keys_maybe_from, try_into_array.
    intros (a & Ha' & Hk)%bind_Some. repeat (case_decide || simplify_option_eq); eauto.
Qed.
End Keys.

(** ** The committee *)

(** [authority_selection_inherents::CommitteeMember]. *)
Inductive CommitteeMember : Type :=
| Permissioned (id : CrossChainPublic) (keys : SessionKeys)
| Registered (id : CrossChainPublic) (keys : SessionKeys) (stake_pool_pub_key : list Z).

Definition authority_id (m : CommitteeMember) : CrossChainPublic :=
  match m with Permissioned id _ | Registered id _ _ => id end.
Definition authority_keys (m : CommitteeMember) : SessionKeys :=
  match m with Permissioned _ keys | Registered _ keys _ => keys end.

(** [pallet_session_validator_management::CommitteeInfo]. *)
Record CommitteeInfo : Type := { epoch : Z; committee : list CommitteeMember }.

(** What the runtime calls of pallet-session-validator-management. *)
Class CommitteePallet : Type := {
  CommitteeState : Type;
  current_committee_storage : CommitteeState → CommitteeInfo;
  next_committee_storage : CommitteeState → option CommitteeInfo;
  rotate_committee_to_next_epoch : CommitteeState → option (list CommitteeMember) * CommitteeState;
  get_current_authority_round_robin : CommitteeState → nat → option CommitteeMember;
}.

(** Its documentation: "If [NextCommittee] is defined, it moves its value to
    [CurrentCommittee] storage. Returns the value taken from [NextCommittee]"; the
    round robin "returns current committee member for given index, repeating them
    in order infinitely if needed or [None] if the committee is empty". *)
Class CommitteePalletLaws (P : CommitteePallet) : Prop := {
  rotate_defined s c :
    next_committee_storage s = Some c →
    (rotate_committee_to_next_epoch s).1 = Some (committee c) ∧
    current_committee_storage (rotate_committee_to_next_epoch s).2 = c ∧
    next_committee_storage (rotate_committee_to_next_epoch s).2 = None;
  rotate_undefined s :
    next_committee_storage s = None → rotate_committee_to_next_epoch s = (None, s);
  round_robin_nth s i :
    get_current_authority_round_robin s i =
      let members := committee (current_committee_storage s) in
      members !! (i `mod` length members)%nat;
}.

Section SessionManager.
Context `{P : CommitteePallet}.
(** [From<Public> for AccountId32]: the account of an ECDSA signer. *)
Context {AccountId : Type} (into_account : list Z → AccountId).

Definition account_id (id : CrossChainPublic) : AccountId := into_account (cross_chain_inner id).

(** [Pallet::next_committee]. *)
Definition next_committee (s : CommitteeState) : option (list CommitteeMember) :=
  committee <$> next_committee_storage s.

Definition validators_of (ms : list CommitteeMember) : list (AccountId * SessionKeys) :=
  (λ member, (account_id (authority_id member), authority_keys member)) <$> ms.

Definition new_session_genesis (_new_index : Z) (s : CommitteeState) :
    option (list (AccountId * SessionKeys)) :=
  Some (validators_of (committee (current_committee_storage s))).

(** [new_session]; the [expect] is a panic. *)
Definition new_session (_new_index : Z) :
    M CommitteeState Empty_set (option (list (AccountId * SessionKeys))) := λ s,
  let '(rotated, s') := rotate_committee_to_next_epoch s in
  (expect rotated ≫= λ ms, mret (M := M CommitteeState Empty_set) (Some (validators_of ms))) s'.

(** [end_session] and [start_session] only log. *)
Definition end_session (_end_index : Z) : M CommitteeState Empty_set unit := mret tt.
Definition start_session (_start_index : Z) : M CommitteeState Empty_set unit := mret tt.

Definition should_end_session (current_epoch_number : Z) (s : CommitteeState) : bool :=
  bool_decide (current_epoch_number > epoch (current_committee_storage s)) &&
  bool_decide (is_Some (next_committee s)).

Context `{!CommitteePalletLaws P}.

Lemma should_end_session_next n s :
  should_end_session n s = true ↔
  n > epoch (current_committee_storage s) ∧ ∃ c, next_committee_storage s = Some c.
Proof.
  unfold should_end_session, next_committee. rewrite andb_true_iff, !bool_decide_eq_true.
  by rewrite fmap_is_Some.
Qed.

Lemma new_session_eq i s c :
  next_committee_storage s = Some c →
  new_session i s =
    (Ok (Some (validators_of (committee c))), (rotate_committee_to_next_epoch s).2).
Proof.
  intros Hc. unfold new_session. pose proof (rotate_defined s c Hc) as (Hr & _).
  destruct (rotate_committee_to_next_epoch s) as [r s']. by simpl in *; subst.
Qed.

Lemma new_session_panics i s : next_committee_storage s = None → (new_session i s).1 = Panic.
Proof. intros Hn. unfold new_session. by rewrite (rotate_undefined s Hn). Qed.

(** C39: Sessions and committees, given that pallet-session-validator-management rotates as
    documented (it moves the next committee, if there is one, to the current one and returns
    it).  A session should end exactly when the sidechain epoch is strictly past that of the
    running committee and the next committee is known.  A new session has as validators the
    members of the next committee in order, each with its account and session keys; that
    committee is then the running one, none is known to follow it, and so no session should
    end, in any epoch.  Without a next committee it panics.  The genesis session has the
    members of the running committee. *)
Theorem sessions_follow_committees n i s :
  let validators ms :=
    (λ m, (into_account (cross_chain_inner (authority_id m)), authority_keys m)) <$> ms in
  (should_end_session n s = true ↔
     epoch (current_committee_storage s) < n ∧ ∃ c, next_committee_storage s = Some c)
  ∧ match next_committee_storage s with
    | Some c => ∃ s', new_session i s = (Ok (Some (validators (committee c))), s')
        ∧ current_committee_storage s' = c ∧ next_committee_storage s' = None
        ∧ ∀ m, should_end_session m s' = false
    | None => (new_session i s).1 = Panic
    end
  ∧ new_session_genesis i s = Some (validators (committee (current_committee_storage s))).
Proof.
  intros validators. split_and!.
  - rewrite should_end_session_next. by rewrite Z.gt_lt_iff.
  - destruct (next_committee_storage s) as [c|] eqn:Hc; [|by apply new_session_panics].
    pose proof (rotate_defined s c Hc) as (_ & Hcur & Hnext).
    exists (rotate_committee_to_next_epoch s).2. rewrite (new_session_eq _ _ _ Hc).
    split_and!; [done..|]. intros m. apply not_true_iff_false.
    rewrite should_end_session_next. naive_solver.
  - done.
Qed.

(** ** Authorship *)

(** The digest items of a header that matter here. *)
Inductive DigestItem : Type :=
| PreRuntime (engine : list Z) (data : list Z)
| OtherItem.
Definition as_pre_runtime (d : DigestItem) : option (list Z * list Z) :=
  match d with PreRuntime e x => Some (e, x) | OtherItem => None end.

(** [pallet_aura::find_author], a [u32]. *)
Context (find_author : list (list Z * list Z) → option Z).

Definition current_block_author_aura_index (logs : list DigestItem) : option nat :=
  Z.to_nat <$> find_author (omap as_pre_runtime logs).

(** [current_block_author]; each [expect] is a panic. *)
Definition current_block_author (logs : list DigestItem) (s : CommitteeState) :
    outcome Empty_set CrossChainPublic :=
  match current_block_author_aura_index logs with
  | None => Panic
  | Some author =>
      match get_current_authority_round_robin s author with
      | None => Panic
      | Some member => Ok (authority_id member)
      end
  end.

(** the author of a block is the member of the running committee whose
    turn the Aura slot is, wrapping around at its end; it is found whenever the
    digest names an author and the committee is not empty, and only then. *)
Theorem block_author_is_current_member logs s :
  current_block_author logs s =
    match find_author (omap as_pre_runtime logs), committee (current_committee_storage s) with
    | None, _ | _, [] => Panic
    | Some a, m :: ms =>
        Ok (authority_id (nth (Z.to_nat a `mod` length (m :: ms)) (m :: ms) m))
    end.
Proof.
  unfold current_block_author, current_block_author_aura_index.
  destruct (find_author _) as [a|]; [|done]. cbn [fmap option_fmap option_map]. rewrite round_robin_nth. cbv zeta.
  destruct (committee _) as [|m ms]; [done|].
  assert (Z.to_nat a `mod` length (m :: ms) < length (m :: ms))%nat as Hlt
    by (apply Nat.mod_upper_bound; simpl; lia).
  apply lookup_lt_is_Some in Hlt as [x Hx]. rewrite Hx.
  by rewrite (nth_lookup_Some _ _ _ _ Hx).
Qed.
End SessionManager.

(** ** Selection of the next committee *)

Section Selection.
Context {Candidate Registration UtxoId : Type}.

(** [authority_selection_inherents::AuthoritySelectionInputs]. *)
Record AuthoritySelectionInputs : Type := {
  input_d_parameter : DParameter;
  permissioned_candidates : list Candidate;
  registered_candidates : list Registration;
  epoch_nonce : list Z;
}.

(** The Ariadne selection of the partner-chains library. *)
Context (select_authorities :
  UtxoId → AuthoritySelectionInputs → Z → option (list CommitteeMember)).
(** [Sidechain::genesis_utxo]. *)
Context (genesis_utxo : UtxoId).

Definition select_authorities_optionally_overriding (params : SystemParameters.State)
    (input : AuthoritySelectionInputs) (sidechain_epoch : Z) : option (list CommitteeMember) :=
  let d := get_d_parameter params in
  let input :=
    {| input_d_parameter :=
         {| num_permissioned_candidates := num_permissioned_candidates d;
            num_registered_candidates := num_registered_candidates d |};
       permissioned_candidates := permissioned_candidates input;
       registered_candidates := registered_candidates input;
       epoch_nonce := epoch_nonce input |} in
  select_authorities genesis_utxo input sidechain_epoch.

(** the seats of the committee are governed on chain.  The D-parameter that
    arrives with the inputs observed on Cardano is of no effect; once the system
    origin has set a D-parameter, every selection is made with exactly that one. *)
Theorem governed_d_parameter_selects {A F} `{StorageLayers} SystemOrigin (o : RawOrigin A)
    p r (s s' : SystemParameters.State) input d e :
  update_d_parameter (F := F) SystemOrigin o p r s = (Ok tt, s') →
  let selection d := {| input_d_parameter := d;
       permissioned_candidates := permissioned_candidates input;
       registered_candidates := registered_candidates input;
       epoch_nonce := epoch_nonce input |} in
  select_authorities_optionally_overriding s' (selection d) e =
    select_authorities genesis_utxo
      (selection {| num_permissioned_candidates := p; num_registered_candidates := r |}) e ∧
  select_authorities_optionally_overriding s (selection d) e =
    select_authorities_optionally_overriding s input e.
Proof.
  intros Hup. cbv zeta. split; [|done].
  unfold update_d_parameter, ensure_system_origin, ensure in Hup.
  rewrite with_storage_layer_eq in Hup by by destruct (SystemOrigin o).
  destruct (SystemOrigin o); [|done]. by injection Hup as <-.
Qed.
End Selection.
Arguments AuthoritySelectionInputs : clear implicits.

(** ** A concrete committee *)

Module Concrete.
#[export] Instance c_find : CandidateKeysFind :=
  { find ks id := key_bytes ∘ snd <$> list_find (λ k, key_id k = id) ks; find_first _ _ := eq_refl }.

#[export] Instance c_committee : CommitteePallet := {
  CommitteeState := CommitteeInfo * option CommitteeInfo;
  current_committee_storage := fst;
  next_committee_storage := snd;
  rotate_committee_to_next_epoch s :=
    match s.2 with Some c => (Some (committee c), (c, None)) | None => (None, s) end;
  get_current_authority_round_robin s i :=
    committee s.1 !! (i `mod` length (committee s.1))%nat;
}.

#[export] Instance c_committee_laws : CommitteePalletLaws c_committee.
Proof.
  split.
  - intros [cur [nxt|]] c; cbn; intros; by simplify_eq.
  - intros [cur [nxt|]]; cbn; by intros; simplify_eq.
  - done.
Qed.

Definition key (n : Z) : CrossChainPublic := {| cross_chain_inner := replicate 33 n |}.
Definition keys (n : Z) : SessionKeys := {| aura := replicate 32 n; grandpa := replicate 32 (n + 1) |}.
Definition alice : CommitteeMember := Permissioned (key 1) (keys 1).
Definition bob : CommitteeMember := Registered (key 2) (keys 3) [7].
(** Epoch 4 with Alice alone; both are announced for epoch 5. *)
Definition c0 : CommitteeInfo * option CommitteeInfo :=
  ({| epoch := 4; committee := [alice] |}, Some {| epoch := 5; committee := [bob; alice] |}).

Lemma session_keys_roundtrip_witness :
  session_keys_maybe_from (candidate_keys_from (keys 1) ++ [{| key_id := AURA; key_bytes := [] |}])
    = Some (keys 1).
Proof. apply (session_keys_roundtrip (keys 1) _ []); reflexivity. Defined.

Lemma sessions_follow_committees_witness :
  should_end_session (P := c_committee) 5 c0 = true ∧ should_end_session (P := c_committee) 4 c0 = false ∧
  ∃ s', new_session (P := c_committee) id 2 c0 =
    (Ok (Some [(replicate 33 2, keys 3); (replicate 33 1, keys 1)]), s').
Proof.
  destruct (sessions_follow_committees (P := c_committee) id 5 2 c0) as (Hends & (s' & Hnew & _) & _).
  split; [apply Hends; split; [reflexivity|eexists; reflexivity]|]. split; [reflexivity|].
  exists s'. exact Hnew.
Defined.

Lemma block_author_is_current_member_witness :
  current_block_author (P := c_committee) (λ l, if l then None else Some 2)
    [OtherItem; PreRuntime [1] [2]] ({| epoch := 5; committee := [bob; alice] |}, None)
    = Ok (key 2).
Proof.
  rewrite block_author_is_current_member. reflexivity.
Defined.

Definition p0 : SystemParameters.State :=
  {| TermsAndConditionsStorage := None; DParameterStorage := (0, 0); events := [] |}.

Lemma governed_d_parameter_selects_witness :
  let input : AuthoritySelectionInputs unit unit :=
    {| input_d_parameter := {| num_permissioned_candidates := 9; num_registered_candidates := 9 |};
       permissioned_candidates := []; registered_candidates := []; epoch_nonce := [] |} in
  ∃ s', update_d_parameter (A := unit) (F := unit) EnsureRoot Root 1 0 p0 = (Ok tt, s') ∧
  select_authorities_optionally_overriding
    (λ (_ : unit) i _, Some (replicate (Z.to_nat (num_permissioned_candidates (input_d_parameter i))) alice))
    tt s' input 5 = Some [alice].
Proof.
  intros input. eexists. split; [reflexivity|].
  refine (eq_trans (proj1 (governed_d_parameter_selects (F := unit) _ tt EnsureRoot
    (Root : RawOrigin unit) 1 0 p0 _ input (input_d_parameter input) 5 _)) _); reflexivity.
Defined.
End Concrete.
