(* ===== verification/GenesisSnapshots.v ===== *)
(** * Genesis snapshots of Cardano

    Models the commands that read the rest of the genesis from Cardano:
    [node/src/genesis/creation/ics_genesis.rs] and [reserve_genesis.rs] (the cNIGHT
    locked at two contracts, with the checks of
    [primitives/ics-observation/src/lib.rs] and [primitives/reserve-observation/src/lib.rs]),
    [federated_authority_genesis.rs] (the governance members) and
    [permissioned_candidates_genesis.rs] (the first committee).

    The SQL of the first two is a comprehension over the tables of db-sync;
    Postgres' [ORDER BY] and the connection are parameters.  JSON and the output
    files are left to the caller. *)

From stdpp Require Import prelude strings.
From S2P Require Import Prelude Frame Collections Constants Weights UtxoOrdering.
From S2P Require Import FedAuthObservation Governance CNightFollower FedAuthFollower Committee.

Open Scope Z_scope.

(** ** Hexadecimal *)

Definition hex_char (d : Z) : Z := if bool_decide (d < 10) then 48 + d else 87 + d.
(** [hex::encode] and Postgres' [encode(_, 'hex')]: two lower-case digits a byte. *)
Definition hex_encode (l : list Z) : list Z := concat ((λ b, [hex_char (b / 16); hex_char (b mod 16)]) <$> l).

Definition byte (b : Z) : Prop := 0 ≤ b < 256.
#[export] Instance byte_dec b : Decision (byte b) := _ : Decision (0 ≤ b < 256).

Lemma hex_digit_char d : 0 ≤ d < 16 → hex_digit (hex_char d) = Some d.
Proof.
  intros Hd. unfold hex_digit, hex_char. destruct (decide (d < 10)).
  - rewrite (bool_decide_true (d < 10)) by done. rewrite bool_decide_true by lia. f_equal. lia.
  - rewrite (bool_decide_false (d < 10)) by done. rewrite bool_decide_false, bool_decide_true by lia. f_equal. lia.
Qed.

Lemma hex_decode_encode l : Forall byte l → hex_decode (hex_encode l) = Some l.
Proof.
  induction 1 as [|b l [Hlo Hhi] _ IH]; [done|]. unfold hex_encode in *. rewrite fmap_cons.
  cbn [concat app hex_decode].
  pose proof (Z.mod_pos_bound b 16 ltac:(lia)). pose proof (Z.div_mod b 16 ltac:(lia)).
  rewrite !hex_digit_char by lia. cbn [mbind option_bind]. rewrite IH. cbn [mbind option_bind].
  do 2 f_equal. lia.
Qed.

Lemma hex_encode_inj l k : Forall byte l → Forall byte k → hex_encode l = hex_encode k → l = k.
Proof.
  intros Hl Hk Heq. apply hex_decode_encode in Hl, Hk. rewrite Heq in Hl. congruence.
Qed.

(** ** cNIGHT locked at a contract: [ics_genesis.rs], [reserve_genesis.rs] *)

(** The tables of db-sync the query joins, with the columns it reads.  The number
    of a block may be [NULL]. *)
Record BlockRow : Type := { bl_id : Z; bl_hash : list Z; bl_block_no : option Z }.
Record TxRow : Type := { tx_id : Z; txr_hash : list Z; tx_block_id : Z; tx_block_index : Z }.
Record TxOutRow : Type := { txo_id : Z; txo_tx_id : Z; txo_index : Z; txo_address : list Z }.
Record MaTxOutRow : Type := { ma_tx_out_id : Z; ma_ident : Z; ma_quantity : Z }.
Record MultiAssetRow : Type := { asset_id : Z; asset_policy : list Z; asset_name_of : list Z }.
Record TxInRow : Type := { ti_tx_in_id : Z; ti_tx_out_id : Z; ti_tx_out_index : Z }.
Record Tables : Type := {
  t_block : list BlockRow; t_tx : list TxRow; t_tx_out : list TxOutRow;
  t_ma_tx_out : list MaTxOutRow; t_multi_asset : list MultiAssetRow; t_tx_in : list TxInRow;
}.

(** A row of the result, with the columns it is ordered by. *)
Record LockedRow : Type := {
  lr_block_no : Z; lr_block_index : Z; lr_index : Z; lr_tx_hash : list Z; lr_quantity : Z;
}.
Definition locked_row_cmp (a b : LockedRow) : comparison :=
  then_cmp (lr_block_no a ?= lr_block_no b)
    (then_cmp (lr_block_index a ?= lr_block_index b) (lr_index a ?= lr_index b)).

(** The pool: the tables each of the two queries sees, or an error of the
    connection; the error of a cast that does not fit; [ORDER BY]. *)
Record LockedDb : Type := {
  LockedSqlxError : Type;
  block_query : outcome LockedSqlxError Tables;
  utxo_query : outcome LockedSqlxError Tables;
  bigint_out_of_range : LockedSqlxError;
  locked_order_by : list LockedRow → list LockedRow;
}.
Class LockedOrderSpec (D : LockedDb) : Prop :=
  locked_order_perm l : locked_order_by D l ≡ₚ l.

(** [a <= b] in SQL: not true when either is [NULL]. *)
Definition sql_le (a b : option Z) : bool :=
  match a, b with Some a, Some b => bool_decide (a ≤ b) | _, _ => false end.

(** The [EXISTS (SELECT 1 FROM tx_in ..)] of the query. *)
Definition spent_by (t : Tables) (txo : TxOutRow) (ref_no : option Z) : bool :=
  existsb (λ ti, existsb (λ spend_tx, existsb (λ spend_block,
    bool_decide (tx_id spend_tx = ti_tx_in_id ti) &&
    bool_decide (bl_id spend_block = tx_block_id spend_tx) &&
    bool_decide (ti_tx_out_id ti = txo_tx_id txo) &&
    bool_decide (ti_tx_out_index ti = txo_index txo) &&
    sql_le (bl_block_no spend_block) ref_no) (t_block t)) (t_tx t)) (t_tx_in t).

(** The joins and the conditions of the query. *)
Definition locked_rows (t : Tables) (block_hash_hex address policy_id asset_name : list Z) :
    list LockedRow :=
  txo ← t_tx_out t;
  x ← filter (λ x, tx_id x = txo_tx_id txo) (t_tx t);
  b ← filter (λ b, bl_id b = tx_block_id x) (t_block t);
  ref_block ← filter (λ r, hex_decode block_hash_hex = Some (bl_hash r)) (t_block t);
  ma ← filter (λ ma, ma_tx_out_id ma = txo_id txo) (t_ma_tx_out t);
  asset ← filter (λ a, asset_id a = ma_ident ma) (t_multi_asset t);
  if bool_decide (txo_address txo = address) &&
     bool_decide (hex_encode (asset_policy asset) = policy_id) &&
     bool_decide (hex_encode (asset_name_of asset) = asset_name) &&
     sql_le (bl_block_no b) (bl_block_no ref_block) &&
     negb (spent_by t txo (bl_block_no ref_block))
  then [{| lr_block_no := default 0 (bl_block_no b); lr_block_index := tx_block_index x;
           lr_index := txo_index txo; lr_tx_hash := hex_encode (txr_hash x);
           lr_quantity := ma_quantity ma |}]
  else [].

(** [IcsAsset] / [ReserveAsset], [IcsUtxo] / [ReserveUtxo], [IcsConfig] /
    [ReserveConfig]: the two crates declare the same types. *)
Record LockedAsset : Type := { la_policy_id : list Z; la_asset_name : list Z }.
Record LockedUtxo : Type := { lu_tx_hash : list Z; lu_output_index : Z; lu_amount : Z }.
Record LockedConfig : Type := {
  lc_validator_address : list Z; lc_asset : LockedAsset;
  lc_utxos : list LockedUtxo; lc_total_amount : Z;
}.
Record LockedAddresses : Type := { lad_validator_address : list Z; lad_asset : LockedAsset }.

Section Locked.
Context (D : LockedDb).

Inductive LockedGenesisError : Type :=
| DatabaseError (e : LockedSqlxError D)
| BlockNotFound (hash : list Z)
| EmptyAddress.

(** [ma.quantity::BIGINT]. *)
Definition bigint (q : Z) : outcome (LockedSqlxError D) Z :=
  if bool_decide (- 2 ^ 63 ≤ q < 2 ^ 63) then Ok q else Err (bigint_out_of_range D).

(** A row as the code takes it: [output_index as u16], [amount as u64]. *)
Definition locked_utxo (r : LockedRow) : outcome (LockedSqlxError D) LockedUtxo :=
  amount ← bigint (lr_quantity r);
  mret {| lu_tx_hash := lr_tx_hash r; lu_output_index := wrap 16 (lr_index r);
          lu_amount := wrap 64 amount |}.

Definition query_ics_utxos (ics_address policy_id asset_name at_block : list Z) :
    outcome LockedGenesisError (list LockedUtxo) :=
  let block_hash_hex := hex_encode at_block in
  t ← map_err DatabaseError (block_query D);
  match head (filter (λ b, hex_decode block_hash_hex = Some (bl_hash b)) (t_block t)) with
  | None => Err (BlockNotFound block_hash_hex)
  | Some _ =>
      t ← map_err DatabaseError (utxo_query D);
      map_err DatabaseError (try_collect locked_utxo
        (locked_order_by D (locked_rows t block_hash_hex ics_address policy_id asset_name)))
  end.

Definition generate_ics_genesis (addresses : LockedAddresses) (cardano_tip : list Z) :
    outcome LockedGenesisError LockedConfig :=
  if bool_decide (lad_validator_address addresses = []) then Err EmptyAddress
  else
    let policy_id_hex := hex_encode (la_policy_id (lad_asset addresses)) in
    let asset_name_hex := hex_encode (la_asset_name (lad_asset addresses)) in
    utxos ← query_ics_utxos (lad_validator_address addresses) policy_id_hex asset_name_hex cardano_tip;
    (* a [u128] sum *)
    let total_amount := wrap 128 (zsum lu_amount utxos) in
    mret {| lc_validator_address := lad_validator_address addresses; lc_asset := lad_asset addresses;
            lc_utxos := utxos; lc_total_amount := total_amount |}.

(** [query_reserve_utxos] and [generate_reserve_genesis] are the same text. *)
Definition query_reserve_utxos := query_ics_utxos.
Definition generate_reserve_genesis := generate_ics_genesis.
End Locked.

Inductive LockedConfigError : Type :=
| TotalMismatch (configured computed : Z)
| Overflow.

(** [try_fold(0u128, |acc, utxo| acc.checked_add(utxo.amount as u128))]. *)
Definition checked_total (l : list LockedUtxo) : option Z :=
  foldl (λ acc u, a ← acc; if bool_decide (a + lu_amount u ≤ umax 128) then Some (a + lu_amount u) else None)
    (Some 0) l.

Definition validate (c : LockedConfig) : outcome LockedConfigError unit :=
  computed ← ok_or (checked_total (lc_utxos c)) Overflow;
  if bool_decide (computed ≠ lc_total_amount c)
  then Err (TotalMismatch (lc_total_amount c) computed) else mret tt.
Definition treasury_amount (c : LockedConfig) : Z := lc_total_amount c.
Definition reserve_amount (c : LockedConfig) : Z := lc_total_amount c.

(** *** The query against the outputs themselves *)

Definition find_by {A} (key : A → Z) (k : Z) (l : list A) : option A :=
  head (filter (λ x, key x = k) l).

(** The block an output was created in. *)
Definition created_in (t : Tables) (txo : TxOutRow) : option BlockRow :=
  x ← find_by tx_id (txo_tx_id txo) (t_tx t); find_by bl_id (tx_block_id x) (t_block t).
(** The block an input was spent in. *)
Definition spent_in (t : Tables) (ti : TxInRow) : option BlockRow :=
  x ← find_by tx_id (ti_tx_in_id ti) (t_tx t); find_by bl_id (tx_block_id x) (t_block t).
Definition spent_up_to (t : Tables) (ref_no : option Z) (txo : TxOutRow) : bool :=
  existsb (λ ti,
    bool_decide (ti_tx_out_id ti = txo_tx_id txo) && bool_decide (ti_tx_out_index ti = txo_index txo) &&
    match spent_in t ti with Some b => sql_le (bl_block_no b) ref_no | None => false end) (t_tx_in t).
(** An output at the address, created and not spent up to a block. *)
Definition locked_at (t : Tables) (ref_no : option Z) (address : list Z) (txo : TxOutRow) : bool :=
  bool_decide (txo_address txo = address) &&
  match created_in t txo with Some b => sql_le (bl_block_no b) ref_no | None => false end &&
  negb (spent_up_to t ref_no txo).
Definition is_asset (t : Tables) (policy name : list Z) (ma : MaTxOutRow) : bool :=
  match find_by asset_id (ma_ident ma) (t_multi_asset t) with
  | Some a => bool_decide (asset_policy a = policy) && bool_decide (asset_name_of a = name)
  | None => false
  end.
(** What an output holds of the asset. *)
Definition holding (t : Tables) (policy name : list Z) (txo : TxOutRow) : Z :=
  zsum (λ ma, if is_asset t policy name ma then ma_quantity ma else 0)
    (filter (λ ma, ma_tx_out_id ma = txo_id txo) (t_ma_tx_out t)).
Definition locked_supply (t : Tables) (ref_no : option Z) (address policy name : list Z) : Z :=
  zsum (λ txo, if locked_at t ref_no address txo then holding t policy name txo else 0) (t_tx_out t).

(** What db-sync guarantees of its tables: primary keys, block hashes without
    repetition, byte strings, quantities that are not negative. *)
Record tables_sound (t : Tables) : Prop := {
  sound_tx_ids : NoDup (tx_id <$> t_tx t);
  sound_block_ids : NoDup (bl_id <$> t_block t);
  sound_block_hashes : NoDup (bl_hash <$> t_block t);
  sound_asset_ids : NoDup (asset_id <$> t_multi_asset t);
  sound_assets : Forall (λ a, Forall byte (asset_policy a) ∧ Forall byte (asset_name_of a)) (t_multi_asset t);
  sound_quantities : Forall (λ ma, 0 ≤ ma_quantity ma) (t_ma_tx_out t);
}.

Lemma zsum_bind {A B} (f : B → Z) (g : A → list B) (l : list A) :
  zsum f (l ≫= g) = zsum (λ x, zsum f (g x)) l.
Proof. induction l as [|x l IH]; [done|]. rewrite bind_cons, zsum_app, IH. done. Qed.

Lemma filter_unique {A B} `{EqDecision B} (key : A → B) k (l : list A) :
  NoDup (key <$> l) → filter (λ x, key x = k) l = option_list (head (filter (λ x, key x = k) l)).
Proof.
  induction l as [|x l IH]; intros Hnd; [done|]. rewrite fmap_cons in Hnd.
  apply NoDup_cons in Hnd as [Hx Hnd]. rewrite filter_cons. case_decide as Hk; [|by apply IH].
  rewrite (filter_none _ l); [done|]. intros y Hy Hy'. apply Hx, list_elem_of_fmap. exists y. by subst.
Qed.
Lemma zsum_filter_key {A} (key : A → Z) k (f : A → Z) (l : list A) :
  NoDup (key <$> l) →
  zsum f (filter (λ x, key x = k) l) = match find_by key k l with Some x => f x | None => 0 end.
Proof.
  intros Hnd. rewrite filter_unique by done. unfold find_by. destruct (head _); simpl; lia.
Qed.

Lemma find_by_Some {A} (key : A → Z) k (l : list A) x :
  NoDup (key <$> l) → find_by key k l = Some x ↔ x ∈ l ∧ key x = k.
Proof.
  intros Hnd. assert (x ∈ filter (λ x, key x = k) l ↔ find_by key k l = Some x) as <-.
  - rewrite (filter_unique key k l Hnd). unfold find_by. destruct (head _) as [y|]; simpl.
    + rewrite list_elem_of_singleton. split; congruence.
    + split; [by intros ?%elem_of_nil|done].
  - rewrite list_elem_of_filter. tauto.
Qed.

Lemma spent_by_eq t txo ref_no : tables_sound t → spent_by t txo ref_no = spent_up_to t ref_no txo.
Proof.
  intros Ht. apply eq_iff_eq_true. unfold spent_by, spent_up_to. rewrite !existsb_exists.
  assert (∀ ti b, spent_in t ti = Some b ↔ ∃ x, x ∈ t_tx t ∧ b ∈ t_block t ∧
    tx_id x = ti_tx_in_id ti ∧ bl_id b = tx_block_id x) as Hin.
  { intros ti b. unfold spent_in. rewrite bind_Some.
    setoid_rewrite (find_by_Some tx_id _ _ _ (sound_tx_ids t Ht)).
    setoid_rewrite (find_by_Some bl_id _ _ _ (sound_block_ids t Ht)). naive_solver. }
  apply exist_proper. intros ti. apply and_iff_compat_l. rewrite existsb_exists. split.
  - intros (x & Hx & Hb). apply existsb_exists in Hb as (b & Hb & Hc).
    rewrite !andb_true_iff, !bool_decide_eq_true in Hc. destruct Hc as ((((H1 & H2) & H3) & H4) & H5).
    rewrite (proj2 (Hin ti b)); [|exists x; rewrite !list_elem_of_In; done].
    by rewrite !andb_true_iff, !bool_decide_eq_true.
  - destruct (spent_in t ti) as [b|] eqn:Hs; [|by rewrite andb_false_r].
    apply Hin in Hs as (x & Hx & Hb & H1 & H2). rewrite !andb_true_iff, !bool_decide_eq_true.
    intros [[H3 H4] H5]. exists x. rewrite <-list_elem_of_In. split; [done|].
    apply existsb_exists. exists b. rewrite <-list_elem_of_In. split; [done|].
    by rewrite !andb_true_iff, !bool_decide_eq_true.
Qed.

Section Reference.
Context (t : Tables) (Ht : tables_sound t).
Context (ref : BlockRow) (Href : ref ∈ t_block t) (tip address policy name : list Z).
Context (Hhash : bl_hash ref = tip) (Htip : Forall byte tip).
Context (Hpolicy : Forall byte policy) (Hname : Forall byte name).

Lemma ref_unique : filter (λ r, hex_decode (hex_encode tip) = Some (bl_hash r)) (t_block t) = [ref].
Proof.
  rewrite hex_decode_encode by done.
  rewrite (list_filter_iff _ (λ r, bl_hash r = tip)) by (intros r; split; congruence).
  rewrite (filter_unique bl_hash tip) by apply Ht.
  destruct (filter (λ r, bl_hash r = tip) (t_block t)) as [|r l] eqn:Hf.
  - assert (ref ∈ filter (λ r, bl_hash r = tip) (t_block t)) as Hin by (by apply list_elem_of_filter).
    rewrite Hf in Hin. by apply elem_of_nil in Hin.
  - simpl. assert (r ∈ filter (λ r, bl_hash r = tip) (t_block t)) as Hr by (rewrite Hf; left).
    apply list_elem_of_filter in Hr as [Hr Hin]. f_equal.
    destruct (proj1 (list_elem_of_lookup _ _) Hin) as [i Hi].
    destruct (proj1 (list_elem_of_lookup _ _) Href) as [j Hj].
    assert (i = j) as -> by (eapply (NoDup_lookup _ _ _ tip (sound_block_hashes t Ht));
      rewrite list_lookup_fmap, ?Hi, ?Hj; simpl; congruence).
    congruence.
Qed.

Lemma asset_matches a :
  a ∈ t_multi_asset t →
  bool_decide (hex_encode (asset_policy a) = hex_encode policy) &&
  bool_decide (hex_encode (asset_name_of a) = hex_encode name) =
  bool_decide (asset_policy a = policy) && bool_decide (asset_name_of a = name).
Proof.
  intros Ha. pose proof (sound_assets t Ht) as Hs. rewrite list.Forall_forall in Hs.
  destruct (Hs a Ha) as [Hp Hn].
  f_equal; apply bool_decide_ext; (split; [by apply hex_encode_inj|by intros ->]).
Qed.

Lemma zsum_if {A} (c : bool) (f : A → Z) l :
  (if c then zsum f l else 0) = zsum (λ x, if c then f x else 0) l.
Proof. destruct c; [done|]. induction l as [|x l IH]; [done|]. simpl. by rewrite <-IH. Qed.

Lemma find_by_elem {A} (key : A → Z) k (l : list A) x : find_by key k l = Some x → x ∈ l.
Proof. intros Hx%head_Some_elem_of. by apply list_elem_of_filter in Hx as [_ ?]. Qed.

Lemma locked_rows_sum :
  zsum lr_quantity (locked_rows t (hex_encode tip) address (hex_encode policy) (hex_encode name)) =
  locked_supply t (bl_block_no ref) address policy name.
Proof.
  unfold locked_rows, locked_supply. rewrite zsum_bind. apply zsum_ext. intros txo _.
  rewrite zsum_bind, (zsum_filter_key tx_id) by apply Ht.
  unfold locked_at, created_in. destruct (find_by tx_id _ _) as [x|]; simpl;
    [|by destruct (bool_decide _)].
  rewrite zsum_bind, (zsum_filter_key bl_id) by apply Ht.
  destruct (find_by bl_id _ _) as [b|]; [|by destruct (bool_decide _)].
  rewrite ref_unique, zsum_bind. cbn [zsum]. rewrite Z.add_0_r, zsum_bind.
  unfold holding. rewrite zsum_if. apply zsum_ext. intros ma _.
  rewrite zsum_bind, (zsum_filter_key asset_id) by apply Ht. unfold is_asset.
  rewrite (spent_by_eq t txo _ Ht).
  destruct (find_by asset_id _ _) as [a|] eqn:Ha; [|by destruct (_ && _)].
  rewrite <-!andb_assoc, (andb_assoc (bool_decide (hex_encode _ = _))).
  rewrite asset_matches by (by eapply find_by_elem).
  destruct (bool_decide (txo_address txo = address)), (sql_le _ _), (spent_up_to _ _ _),
    (bool_decide (asset_policy a = policy)), (bool_decide (asset_name_of a = name)); simpl; lia.
Qed.

Lemma locked_rows_quantities r :
  r ∈ locked_rows t (hex_encode tip) address (hex_encode policy) (hex_encode name) →
  0 ≤ lr_quantity r.
Proof.
  unfold locked_rows. pose proof (sound_quantities t Ht) as Hq. rewrite list.Forall_forall in Hq.
  rewrite list_elem_of_bind. intros (txo & Hr & _). revert Hr.
  rewrite list_elem_of_bind. intros (x & Hr & _). revert Hr.
  rewrite list_elem_of_bind. intros (b & Hr & _). revert Hr.
  rewrite list_elem_of_bind. intros (rb & Hr & _). revert Hr.
  rewrite list_elem_of_bind. intros (ma & Hr & [_ Hma]%list_elem_of_filter). revert Hr.
  rewrite list_elem_of_bind. intros (a & Hr & _). revert Hr.
  case_match; [|by intros ?%elem_of_nil]. intros ->%list_elem_of_singleton. simpl. by apply Hq.
Qed.
End Reference.

(** *** Totals *)

#[local] Arguments wrap : simpl never.

Lemma locked_utxo_amounts D rows us :
  (∀ r, r ∈ rows → 0 ≤ lr_quantity r) → try_collect (locked_utxo D) rows = Ok us →
  zsum lu_amount us = zsum lr_quantity rows ∧ (∀ u, u ∈ us → 0 ≤ lu_amount u ≤ 2 ^ 63).
Proof.
  intros Hq Hus%try_collect_ok. induction Hus as [|r u rows us Hru _ IH]; [split; [done|by intros ? ?%elem_of_nil]|].
  destruct IH as [Hsum Hle]; [intros; apply Hq; by right|]. specialize (Hq r ltac:(left)).
  unfold locked_utxo, bigint in Hru. case_bool_decide; [|done].
  assert (wrap 64 (lr_quantity r) = lr_quantity r) as Hw
    by (apply wrap_small; unfold in_range, umax; lia).
  injection Hru as <-. cbn [zsum lu_amount]. rewrite Hw. split; [lia|].
  intros v [->|Hv]%elem_of_cons; [cbn [lu_amount]; lia|by apply Hle].
Qed.

Lemma checked_total_exact l : ∀ acc,
  0 ≤ acc → (∀ u, u ∈ l → 0 ≤ lu_amount u) → acc + zsum lu_amount l ≤ umax 128 →
  foldl (λ acc u, a ← acc; if bool_decide (a + lu_amount u ≤ umax 128) then Some (a + lu_amount u) else None)
    (Some acc) l = Some (acc + zsum lu_amount l).
Proof.
  induction l as [|u l IH]; intros acc Hacc Hl Hle; cbn [foldl zsum] in *; [f_equal; lia|].
  assert (0 ≤ zsum lu_amount l) as Hpos.
  { clear -Hl. induction l as [|v l IH]; simpl; [lia|].
    assert (0 ≤ lu_amount v) by (apply Hl; right; left).
    assert (0 ≤ zsum lu_amount l); [|lia]. apply IH. intros w [->|Hw]%elem_of_cons; apply Hl;
      [left|by right; right]. }
  pose proof (Hl u ltac:(left)). simpl. rewrite bool_decide_true by lia.
  rewrite IH; [f_equal; lia|lia|intros; apply Hl; by right|lia].
Qed.

(** the treasury and the reserve of the genesis are what the contracts hold.
    A configuration generated for a known block has as its total the cNIGHT of
    every output at the contract's address that was created up to the block and
    not spent up to it, each counted once whatever the joins; the toolkit's
    validation of the configuration accepts it. *)
Theorem generated_total_is_locked_supply D `{!LockedOrderSpec D} t addresses ref config :
  block_query D = Ok t → utxo_query D = Ok t → tables_sound t → ref ∈ t_block t →
  Forall byte (bl_hash ref) → Forall byte (la_policy_id (lad_asset addresses)) →
  Forall byte (la_asset_name (lad_asset addresses)) →
  generate_ics_genesis D addresses (bl_hash ref) = Ok config →
  Z.of_nat (length (lc_utxos config)) ≤ umax 64 →
  lc_total_amount config =
    locked_supply t (bl_block_no ref) (lad_validator_address addresses)
      (la_policy_id (lad_asset addresses)) (la_asset_name (lad_asset addresses)) ∧
  validate config = Ok tt.
Proof.
  intros Hq1 Hq2 Ht Href Hh Hp Hn Hgen Hlen. unfold generate_ics_genesis, query_ics_utxos in Hgen.
  case_bool_decide; [done|]. rewrite Hq1 in Hgen. simpl in Hgen.
  rewrite (ref_unique t Ht ref Href) in Hgen by done. simpl in Hgen. rewrite Hq2 in Hgen. simpl in Hgen.
  destruct (try_collect _ _) as [us|?|] eqn:Hus; [|done|done].
  injection Hgen as <-. cbn [lc_utxos lc_total_amount] in *.
  apply locked_utxo_amounts in Hus as [Hsum Hle].
  2:{ intros r. rewrite locked_order_perm. by apply (locked_rows_quantities t Ht). }
  rewrite (zsum_perm _ _ _ (locked_order_perm _)) in Hsum.
  rewrite (locked_rows_sum t Ht ref) in Hsum by done.
  pose proof (zsum_bounds lu_amount us 0 (2 ^ 63) Hle) as [Hlo Hhi].
  assert (in_range 128 (zsum lu_amount us)) as Hrange by (unfold in_range, umax in *; lia).
  rewrite wrap_small by done. split; [done|].
  unfold validate, checked_total. cbn [lc_utxos lc_total_amount].
  rewrite checked_total_exact; [|lia|intros u Hu; by destruct (Hle u Hu)|unfold in_range in Hrange; lia].
  simpl. by rewrite bool_decide_false by (intros Hne; by apply Hne).
Qed.

(** ** Governance members: [federated_authority_genesis.rs] *)

Record AuthBody : Type := {
  body_config : AuthBodyConfig;
  members : list (list Z);
  members_mainchain : list MainchainMember;
}.
Record FederatedGenesis : Type := { fg_council : AuthBody; fg_technical_committee : AuthBody }.
Record FederatedAuthorityAddresses : Type := {
  council_address : list Z; council_policy_id : list Z;
  technical_committee_address : list Z; technical_committee_policy_id : list Z;
}.

(** [sr25519::Public::from_slice]. *)
Definition public_from_slice (l : list Z) : option (list Z) :=
  if decide (length l = 32%nat) then Some l else None.

(** A key that does not convert is logged and left out; its main chain member is
    kept. *)
Definition add_member (acc : list (list Z) * list MainchainMember) (m : list Z * MainchainMember) :
    list (list Z) * list MainchainMember :=
  (match public_from_slice m.1 with Some k => acc.1 ++ [k] | None => acc.1 end, acc.2 ++ [m.2]).
Definition get_members_and_mainchain_members (l : list (list Z * MainchainMember)) :
    list (list Z) * list MainchainMember := foldl add_member ([], []) l.

Section Federated.
Context {L : CardanoLib} (P : PlutusLib L) (G : GovDb L).

Inductive FederatedAuthorityGenesisError : Type :=
| DatasourceError (e : GovSourceError G Empty_set).

Definition generate_federated_authority_genesis (a : FederatedAuthorityAddresses)
    (cardano_tip : list Z) : outcome FederatedAuthorityGenesisError FederatedGenesis :=
  let council := {| address := council_address a; policy_id := council_policy_id a |} in
  let technical_committee :=
    {| address := technical_committee_address a; policy_id := technical_committee_policy_id a |} in
  data ← map_err DatasourceError (get_federated_authority_data P G
    {| FedAuthFollower.council := council; FedAuthFollower.technical_committee := technical_committee |} cardano_tip);
  let '(council_members, council_mainchain_members) :=
    get_members_and_mainchain_members (authorities (council_authorities data)) in
  let '(technical_committee_members, technical_committee_mainchain_members) :=
    get_members_and_mainchain_members (authorities (technical_committee_authorities data)) in
  mret {|
    fg_council := {| body_config := council; members := council_members;
                     members_mainchain := council_mainchain_members |};
    fg_technical_committee := {| body_config := technical_committee;
      members := technical_committee_members;
      members_mainchain := technical_committee_mainchain_members |} |}.

(** *** The bodies of the first block *)

Lemma get_members_spec l acc :
  Forall (λ m, length m.1 = 32%nat) l → foldl add_member acc l = (acc.1 ++ l.*1, acc.2 ++ l.*2).
Proof.
  intros Hl. revert acc. induction Hl as [|m l Hm _ IH]; intros acc; simpl.
  { rewrite !app_nil_r. by destruct acc. }
  rewrite IH. unfold add_member, public_from_slice. rewrite decide_True by done. simpl.
  by rewrite <-!app_assoc.
Qed.

Lemma body_keys o : Forall (λ m, length m.1 = 32%nat) (authorities (body_authorities P o)).
Proof.
  destruct (decide (authorities (body_authorities P o) = [])) as [->|Hne]; [constructor|].
  apply body_authorities_inv in Hne as (r & d & -> & Hd & ->).
  apply decode_governance_datum_lengths in Hd as [Hl _]. eapply Forall_impl; [exact Hl|]. by intros ? [].
Qed.

(** The data source's bodies become the configuration's, member by member. *)
Lemma generate_federated_authority_genesis_eq a tip data :
  let config := {|
    FedAuthFollower.council := {| address := council_address a; policy_id := council_policy_id a |};
    FedAuthFollower.technical_committee := {| address := technical_committee_address a;
      policy_id := technical_committee_policy_id a |} |} in
  get_federated_authority_data P G (ApiErr := Empty_set) config tip = Ok data →
  let c := authorities (council_authorities data) in
  let t := authorities (technical_committee_authorities data) in
  generate_federated_authority_genesis a tip = Ok {|
    fg_council := {| body_config := FedAuthFollower.council config; members := c.*1; members_mainchain := c.*2 |};
    fg_technical_committee := {| body_config := FedAuthFollower.technical_committee config;
                                 members := t.*1; members_mainchain := t.*2 |} |}.
Proof.
  intros config Hdata c t. unfold generate_federated_authority_genesis. fold config.
  rewrite Hdata. simpl. unfold get_members_and_mainchain_members.
  assert (Forall (λ m, length m.1 = 32%nat) c ∧ Forall (λ m, length m.1 = 32%nat) t) as [Hc Ht].
  { revert Hdata. unfold c, t, get_federated_authority_data.
    destruct (get_block_by_hash _ _) as [[b|]|?|]; simpl; try done.
    destruct (get_governance_body_utxo G (council_address a) _ _) as [u|?|]; simpl; try done.
    destruct (get_governance_body_utxo G (technical_committee_address a) _ _) as [v|?|]; simpl; try done.
    intros [= <-]. split; apply body_keys. }
  by rewrite !get_members_spec.
Qed.

(** The part of [genesis_config] in [node/src/chain_spec/mod.rs] that configures
    the observation pallet; [MainchainAddress::from_str] is a parameter, its
    [expect] a panic. *)
Definition federated_authority_observation_config (from_str : list Z → option (list Z))
    (g : FederatedGenesis) : outcome Empty_set FedAuthObservation.GenesisConfig :=
  match from_str (address (body_config (fg_council g))),
        from_str (address (body_config (fg_technical_committee g))) with
  | Some council_address, Some technical_committee_address => Ok {|
      g_council_address := council_address;
      g_council_policy_id := policy_id (body_config (fg_council g));
      g_technical_committee_address := technical_committee_address;
      g_technical_committee_policy_id := policy_id (body_config (fg_technical_committee g));
      council_members_mainchain := members_mainchain (fg_council g);
      technical_committee_members_mainchain := members_mainchain (fg_technical_committee g) |}
  | _, _ => Panic
  end.

Lemma sort_by_fmap {A B} (f : A → B) (cmp : B → B → comparison) (l : list A) :
  f <$> sort_by (λ a b, cmp (f a) (f b)) l = sort_by cmp (f <$> l).
Proof.
  assert (∀ x k, f <$> insert_by (λ a b, cmp (f a) (f b)) x k = insert_by cmp (f x) (f <$> k)) as Hins.
  { intros x k. induction k as [|y k IH]; [done|]. rewrite fmap_cons. cbn [insert_by].
    destruct (cmp (f x) (f y)); rewrite ?fmap_cons, ?IH; done. }
  induction l as [|x l IH]; [done|]. rewrite fmap_cons. cbn [sort_by]. by rewrite Hins, IH.
Qed.

Section FirstBlock.
Context {World F : Type} (T : @FedAuthObservation.Config World) `{StorageLayers}.

(**  the genesis and the first block see the same members, but not in the same
    order.  When the chain starts from the bodies read at the tip, and the
    membership pallets hold their members sorted, the first observation of the
    same data finds the members it would install; it leaves the state alone
    exactly if the data list each body in the order of the accounts, and reports a
    reset otherwise, because the genesis stores the main chain identifiers in the
    order of the datum and the pallet in the order of the accounts. *)
Theorem first_observation_of_genesis from_str a tip data g w s :
  let c := authorities (council_authorities data) in
  let t := authorities (technical_committee_authorities data) in
  get_federated_authority_data P G (ApiErr := Empty_set) {|
    FedAuthFollower.council := {| address := council_address a; policy_id := council_policy_id a |};
    FedAuthFollower.technical_committee := {| address := technical_committee_address a;
      policy_id := technical_committee_policy_id a |} |} tip = Ok data →
  c ≠ [] → t ≠ [] → bounded T c t →
  (f ← generate_federated_authority_genesis a tip;
   map_err (λ e : Empty_set, match e with end) (federated_authority_observation_config from_str f)) = Ok g →
  FedAuthObservation.build T g w = Ok s →
  sorted_members (CouncilMembershipHandler T) w = sort_by bytes_cmp c.*1 →
  sorted_members (TechnicalCommitteeMembershipHandler T) w = sort_by bytes_cmp t.*1 →
  ∃ info s', reset_members (F := F) T NoOrigin c t s = (Ok info, s') ∧ world s' = w ∧
    (FedAuthObservation.events s' = [] ↔ mcs c = c.*2 ∧ mcs t = t.*2).
Proof.
  intros c t Hdata Hc Ht Hb Hg Hs Hcm Htm.
  rewrite (generate_federated_authority_genesis_eq a tip data Hdata) in Hg. fold c t in Hg.
  unfold federated_authority_observation_config in Hg. simpl in Hg.
  destruct (from_str (council_address a)) as [ca|]; [|done].
  destruct (from_str (technical_committee_address a)) as [ta|]; [|done]. simpl in Hg.
  injection Hg as <-. unfold FedAuthObservation.build in Hs. simpl in Hs.
  destruct (bounded_try_from (CouncilMaxMembers T) c.*2) as [cm|] eqn:Hbc; [|done].
  destruct (bounded_try_from (TechnicalCommitteeMaxMembers T) t.*2) as [tm|] eqn:Hbt; [|done].
  apply bounded_try_from_Some in Hbc as [-> _], Hbt as [-> _]. injection Hs as <-.
  rewrite reset_members_eq by done. simpl. unfold reset_result. rewrite decide_False by tauto.
  assert (∀ l : list (AccountId * MainchainMember), sort_by bytes_cmp l.*1 = ids l) as Hids
    by (intros l; symmetry; apply (sort_by_fmap fst)).
  rewrite Hids in Hcm, Htm.
  unfold install_council, install_tc, install. simpl. rewrite Hcm.
  destruct (decide (ids c = ids c ∧ c.*2 = mcs c)) as [[_ Hmc]|Hmc]; simpl.
  - rewrite Htm. destruct (decide (ids t = ids t ∧ t.*2 = mcs t)) as [[_ Hmt]|Hmt]; simpl.
    + eexists _, _. split_and!; [done..|]. by rewrite <-Hmc, <-Hmt.
    + rewrite (decide_True (P := ids t = ids t)) by done. eexists _, _. split_and!; [done..|]. split; [done|]. intros [_ Heq].
      by destruct Hmt.
  - rewrite (decide_True (P := ids c = ids c)) by done. simpl. rewrite Htm.
    destruct (decide (ids t = ids t ∧ t.*2 = mcs t)) as [[_ Hmt]|Hmt]; simpl;
      rewrite ?(decide_True (P := ids t = ids t)) by done;
      (eexists _, _; split_and!; [done..|]; split; [done|]; intros [Heq _]; by destruct Hmc).
Qed.
End FirstBlock.
End Federated.

(** ** Permissioned candidates: [permissioned_candidates_genesis.rs] *)

Definition BEEFY : KeyTypeId := bytes_of_string "beef".

Record PermissionedCandidateData : Type :=
  { pc_sidechain_public_key : list Z; pc_keys : list CandidateKey }.
Record PermissionedCandidateEntry : Type := {
  aura_pub_key : list Z; grandpa_pub_key : list Z; sidechain_pub_key : list Z; beefy_pub_key : list Z;
}.

(** [format!("0x{}", hex::encode(..))]. *)
Definition hex_0x (l : list Z) : list Z := bytes_of_string "0x" ++ hex_encode l.

Definition serialize_policy_id (policy_id : list Z) : list Z := hex_0x policy_id.
Definition deserialize_policy_id (s : list Z) : option (list Z) :=
  bytes ← hex_decode (strip_0x s);
  if decide (length bytes = 28%nat) then Some bytes else None.

Section Permissioned.
Context `{CandidateKeysFind}.

Definition candidate_entry (c : PermissionedCandidateData) : option PermissionedCandidateEntry :=
  let aura_key := hex_0x <$> find (pc_keys c) AURA in
  let grandpa_key := hex_0x <$> find (pc_keys c) GRANDPA in
  let sidechain_key := hex_0x (pc_sidechain_public_key c) in
  let beefy_key :=
    match hex_0x <$> find (pc_keys c) BEEFY with
    | Some k => k
    | None => default sidechain_key (hex_0x <$> find (pc_keys c) CROSS_CHAIN)
    end in
  match aura_key, grandpa_key with
  | Some aura, Some grandpa =>
      Some {| aura_pub_key := aura; grandpa_pub_key := grandpa;
              sidechain_pub_key := sidechain_key; beefy_pub_key := beefy_key |}
  | _, _ => None (* logged and skipped *)
  end.

Inductive PermissionedCandidatesGenesisError (SourceError : Type) : Type :=
| Candidates_DatasourceError (e : SourceError)
| NoCandidatesFound.

(** The data source [get_ariadne_parameters] is given by its answer: the
    permissioned candidates of the epoch, if any. *)
Definition generate_permissioned_candidates_genesis {SourceError}
    (get_ariadne_parameters : Z → list Z → list Z → outcome SourceError (option (list PermissionedCandidateData)))
    (policy_id : list Z) (epoch : Z) :
    outcome (PermissionedCandidatesGenesisError SourceError) (list Z * list PermissionedCandidateEntry) :=
  permissioned_candidates ← (map_err (Candidates_DatasourceError SourceError)
    (get_ariadne_parameters epoch policy_id policy_id)
    : outcome (PermissionedCandidatesGenesisError SourceError) (option (list PermissionedCandidateData)));
  permissioned_candidates ← ok_or permissioned_candidates (NoCandidatesFound SourceError);
  mret (policy_id, omap candidate_entry (permissioned_candidates : list PermissionedCandidateData)).

(** an entry of the first committee shows, in hexadecimal that
    reads back, the AURA and GRANDPA keys, the sidechain key, and a BEEFY key that
    is the candidate's own, else its cross-chain key, else its sidechain key. *)
Theorem permissioned_entries_read_back c e :
  candidate_entry c = Some e → Forall byte (pc_sidechain_public_key c) →
  (∀ id k, find (pc_keys c) id = Some k → Forall byte k) →
  hex_decode (strip_0x (aura_pub_key e)) = find (pc_keys c) AURA ∧
  hex_decode (strip_0x (grandpa_pub_key e)) = find (pc_keys c) GRANDPA ∧
  hex_decode (strip_0x (sidechain_pub_key e)) = Some (pc_sidechain_public_key c) ∧
  hex_decode (strip_0x (beefy_pub_key e)) =
    match find (pc_keys c) BEEFY, find (pc_keys c) CROSS_CHAIN with
    | Some k, _ | None, Some k => Some k
    | None, None => Some (pc_sidechain_public_key c)
    end.
Proof.
  intros He Hs Hk.
  assert (∀ l, Forall byte l → hex_decode (strip_0x (hex_0x l)) = Some l) as Hread
    by (intros l Hl; by apply hex_decode_encode).
  unfold candidate_entry in He.
  destruct (find (pc_keys c) AURA) as [ka|] eqn:Ha; [|done].
  destruct (find (pc_keys c) GRANDPA) as [kg|] eqn:Hg; [|done]. simpl in He. injection He as <-.
  cbn [aura_pub_key grandpa_pub_key sidechain_pub_key beefy_pub_key].
  split_and!; [by apply Hread; eapply Hk..|by apply Hread|].
  destruct (find (pc_keys c) BEEFY) as [kb|] eqn:Hb; [by apply Hread; eapply Hk|].
  destruct (find (pc_keys c) CROSS_CHAIN) as [kc|] eqn:Hc; [by apply Hread; eapply Hk|by apply Hread].
Qed.
End Permissioned.

(** the policy id survives its JSON form. *)
Theorem policy_id_roundtrip p :
  Forall byte p → length p = 28%nat → deserialize_policy_id (serialize_policy_id p) = Some p.
Proof.
  intros Hp Hl. unfold deserialize_policy_id, serialize_policy_id.
  change (strip_0x (hex_0x p)) with (hex_encode p).
  rewrite hex_decode_encode by done. simpl. by rewrite decide_True.
Qed.

(** ** At concrete tables *)

Module SnapshotConcrete.
Definition tables0 : Tables := {|
  t_block := [{| bl_id := 1; bl_hash := [7]; bl_block_no := Some 5 |};
              {| bl_id := 2; bl_hash := [8]; bl_block_no := Some 6 |};
              {| bl_id := 3; bl_hash := [9]; bl_block_no := Some 7 |}];
  t_tx := [{| tx_id := 10; txr_hash := [1; 2]; tx_block_id := 1; tx_block_index := 0 |};
           {| tx_id := 11; txr_hash := [1; 3]; tx_block_id := 2; tx_block_index := 0 |};
           {| tx_id := 12; txr_hash := [1; 4]; tx_block_id := 3; tx_block_index := 0 |}];
  (* two outputs of block 5, one spent in block 6, the other in block 7 *)
  t_tx_out := [{| txo_id := 20; txo_tx_id := 10; txo_index := 0; txo_address := [65] |};
               {| txo_id := 21; txo_tx_id := 10; txo_index := 1; txo_address := [65] |}];
  t_ma_tx_out := [{| ma_tx_out_id := 20; ma_ident := 30; ma_quantity := 100 |};
                  {| ma_tx_out_id := 21; ma_ident := 30; ma_quantity := 23 |}];
  t_multi_asset := [{| asset_id := 30; asset_policy := [3; 3]; asset_name_of := [78] |}];
  t_tx_in := [{| ti_tx_in_id := 11; ti_tx_out_id := 10; ti_tx_out_index := 0 |};
              {| ti_tx_in_id := 12; ti_tx_out_id := 10; ti_tx_out_index := 1 |}] |}.
Definition ref0 : BlockRow := {| bl_id := 2; bl_hash := [8]; bl_block_no := Some 6 |}.
Definition db0 : LockedDb := {|
  LockedSqlxError := unit; block_query := Ok tables0; utxo_query := Ok tables0;
  bigint_out_of_range := tt; locked_order_by := λ l, sort_by locked_row_cmp l |}.
#[export] Instance db0_order : LockedOrderSpec db0.
Proof. intros l. apply sort_by_perm. Qed.
Definition addresses0 : LockedAddresses :=
  {| lad_validator_address := [65]; lad_asset := {| la_policy_id := [3; 3]; la_asset_name := [78] |} |}.
Definition config0 : LockedConfig := {|
  lc_validator_address := [65]; lc_asset := lad_asset addresses0;
  lc_utxos := [{| lu_tx_hash := hex_encode [1; 2]; lu_output_index := 1; lu_amount := 23 |}];
  lc_total_amount := 23 |}.
Lemma tables0_sound : tables_sound tables0.
Proof.
  split; [apply (bool_decide_unpack _); vm_compute; exact I..|apply (bool_decide_unpack _); vm_compute; exact I].
Qed.
End SnapshotConcrete.
Import SnapshotConcrete.

Lemma generated_total_is_locked_supply_witness :
  generate_ics_genesis db0 addresses0 [8] = Ok config0 ∧
  lc_total_amount config0 = locked_supply tables0 (Some 6) [65] [3; 3] [78] ∧ validate config0 = Ok tt.
Proof.
  split; [vm_compute; reflexivity|].
  apply (generated_total_is_locked_supply db0 tables0 addresses0 ref0 config0).
  - reflexivity.
  - reflexivity.
  - exact tables0_sound.
  - right. left.
  - repeat constructor; lia.
  - repeat constructor; lia.
  - repeat constructor; lia.
  - vm_compute. reflexivity.
  - vm_compute. discriminate.
Defined.

(** A council of two listed against the order of their accounts. *)
Module FederatedConcrete.
Import FedAuthFollower.Concrete.
Definition datum2 : Plutus :=
  Constr 100 [Constr 100 [Constr 101 [Bytes [1]]; Constr 102 (member 9 ++ member 3)];
              Constr 101 [Bytes [0]]].
Definition gdb2 : GovDb lib :=
  Build_GovDb lib CNightFollower.Concrete.small_db (λ a _,
    Ok (if bool_decide (a = [1]) then [row 5 datum2] else [row 2 (datum 4)])).
Definition fed0 : FederatedAuthorityAddresses := {|
  council_address := [1]; council_policy_id := [];
  technical_committee_address := [2]; technical_committee_policy_id := [] |}.
Definition c2 : list (list Z * MainchainMember) :=
  [(repeat 109 32, repeat 9 28); (repeat 103 32, repeat 3 28)].
Definition t2 : list (list Z * MainchainMember) := [(repeat 104 32, repeat 4 28)].
Definition data2 : FederatedAuthorityData := {|
  council_authorities := {| authorities := c2; round := 0 |};
  technical_committee_authorities := {| authorities := t2; round := 0 |};
  mc_block_hash := [6] |}.
Definition g2 : FedAuthObservation.GenesisConfig := {|
  g_council_address := [1]; g_council_policy_id := [];
  g_technical_committee_address := [2]; g_technical_committee_policy_id := [];
  council_members_mainchain := c2.*2; technical_committee_members_mainchain := t2.*2 |}.
Definition w2 : Governance.Concrete.Wd :=
  {| Governance.Concrete.wc := [repeat 103 32; repeat 109 32];
     Governance.Concrete.wt := [repeat 104 32]; Governance.Concrete.counters := ∅ |}.
Definition s2 : @FedAuthObservation.State Governance.Concrete.Wd :=
  match FedAuthObservation.build Governance.Concrete.cfg g2 w2 with
  | Ok s => s | _ => Governance.Concrete.start end.
End FederatedConcrete.
Import FederatedConcrete.

Lemma first_observation_of_genesis_witness :
  ∃ info s', reset_members (F := unit) Governance.Concrete.cfg NoOrigin c2 t2 s2 = (Ok info, s') ∧
    FedAuthObservation.events s' ≠ [].
Proof.
  destruct (first_observation_of_genesis (F := unit) FedAuthFollower.Concrete.plutus gdb2
              Governance.Concrete.cfg Some fed0 [6] data2 g2 w2 s2) as (info & s' & Hr & _ & Hev).
  - vm_compute. reflexivity.
  - discriminate.
  - discriminate.
  - split; vm_compute; discriminate.
  - vm_compute. reflexivity.
  - reflexivity.
  - vm_compute. reflexivity.
  - vm_compute. reflexivity.
  - exists info, s'. split; [exact Hr|]. rewrite Hev. intros [Heq _]. vm_compute in Heq. discriminate Heq.
Defined.

#[local] Existing Instance Committee.Concrete.c_find.
Lemma permissioned_entries_read_back_witness :
  let c := {| pc_sidechain_public_key := [1];
              pc_keys := candidate_keys_from {| aura := [2]; grandpa := [3] |} |} in
  ∃ e, candidate_entry c = Some e ∧ hex_decode (strip_0x (beefy_pub_key e)) = Some [1].
Proof.
  intros c. destruct (candidate_entry c) as [e|] eqn:He; [|vm_compute in He; discriminate He].
  exists e. split; [reflexivity|].
  destruct (permissioned_entries_read_back c e) as (_ & _ & _ & Hb).
  - exact He.
  - repeat constructor; lia.
  - intros id k Hk. rewrite find_first in Hk. cbn in Hk.
    repeat case_decide; simplify_eq/=; repeat constructor; lia.
  - rewrite Hb. vm_compute. reflexivity.
Defined.

Lemma policy_id_roundtrip_witness :
  deserialize_policy_id (serialize_policy_id (repeat 171 28)) = Some (repeat 171 28).
Proof. apply (policy_id_roundtrip (repeat 171 28)); [apply (bool_decide_unpack _); vm_compute; exact I|reflexivity]. Defined.
