(* ===== verification/CandidatesSource.v ===== *)
(** * The source of committee candidates

    Models [primitives/mainchain-follower/src/data_source/candidates_data_source/]:
    the queries on db-sync ([db_model.rs]), the source that reads the permissioned
    candidates, the registrations and the stakes for the selection of a committee
    ([mod.rs]), and the cache in front of it ([cached.rs]).

    The queries are comprehensions over the tables of db-sync; every query of a
    request sees the tables at its own moment.  The formats (Plutus data, [UtxoId])
    and the sorting of Postgres are parameters.  The iteration order of a [HashMap]
    is not specified; here it is the order of first insertion. *)

From stdpp Require Import prelude gmap strings.
From S2P Require Import Prelude Frame Collections Committee GenesisSnapshots.

Open Scope Z_scope.

(** ** The tables of db-sync *)

Record CBlock : Type := {
  cb_id : Z; cb_hash : list Z; cb_no : option Z; cb_epoch : option Z; cb_slot : option Z;
}.
Record CTx : Type := { cx_id : Z; cx_hash : list Z; cx_block_id : Z; cx_block_index : Z }.
Record CTxOut : Type := {
  co_id : Z; co_tx_id : Z; co_index : Z; co_address : list Z; co_data_hash : option (list Z);
  co_consumed_by_tx_id : option Z;
}.
Record CTxIn : Type := { ci_tx_in_id : Z; ci_tx_out_id : Z; ci_tx_out_index : Z }.
Record CEpochStake : Type := { es_pool_id : Z; es_epoch_no : Z; es_amount : Z }.
Record CPoolHash : Type := { ph_id : Z; ph_hash_raw : list Z }.
Record CEpochParam : Type := { ep_epoch_no : Z; ep_nonce : list Z }.

Record UtxoId : Type := { uid_tx_hash : list Z; uid_index : Z }.
Definition StakePoolPublicKey : Type := list Z.

(** [RegisterValidatorDatum]. *)
Inductive RegisterValidatorDatum : Type :=
| V0 (pub_key signature sidechain_pub_key sidechain_signature : list Z) (registration_utxo : UtxoId)
    (own_pkh aura_pub_key grandpa_pub_key : list Z)
| V1 (pub_key signature sidechain_pub_key sidechain_signature : list Z) (registration_utxo : UtxoId)
    (own_pkh : list Z) (keys : list CandidateKey).

(** Formats, and [ORDER BY]. *)
Class CandidatesLib : Type := {
  CSqlxError : Type;
  sqlx_decode_error : CSqlxError;
  JsonValue : Type;
  json_eq_dec :: EqDecision JsonValue;
  CPlutusData : Type;
  encode_json_value_to_plutus_datum : JsonValue → option CPlutusData;
  register_validator_try_from : CPlutusData → option RegisterValidatorDatum;
  permissioned_candidates_try_from : CPlutusData → option (list PermissionedCandidateData);
  utxo_id_from_str : list Z → option UtxoId;
  decimal : Z → list Z;
  key_hash_from_vkey : StakePoolPublicKey → list Z;
  (** The epoch whose data is used in an epoch, or the least epoch that has one. *)
  offset_data_epoch : Z → Z + Z;
  (** [EpochNumber::from] of a row. *)
  epoch_number_from : Z → Z;
  c_order_by : ∀ {Row : Type}, (Row → Row → comparison) → list Row → list Row;
}.

Record CDatum `{!CandidatesLib} : Type := { cd_hash : list Z; cd_value : JsonValue }.
Record CTables `{!CandidatesLib} : Type := {
  ct_block : list CBlock; ct_tx : list CTx; ct_tx_out : list CTxOut; ct_tx_in : list CTxIn;
  ct_datum : list CDatum; ct_ma_tx_out : list MaTxOutRow; ct_multi_asset : list MultiAssetRow;
  ct_epoch_stake : list CEpochStake; ct_pool_hash : list CPoolHash;
  ct_epoch_param : list CEpochParam;
  (** Whether there is a table [tx_in] at all. *)
  ct_has_tx_in : bool;
}.

(** [LEFT JOIN]. *)
Definition left_join {A} (l : list A) : list (option A) :=
  match l with [] => [None] | _ => Some <$> l end.
Definition on {A B} (x : option A) (f : A → list B) : list B :=
  match x with Some a => f a | None => [] end.
(** [a < b] in SQL. *)
Definition sql_lt (a b : option Z) : bool :=
  match a, b with Some a, Some b => bool_decide (a < b) | _, _ => false end.
(** [concat_ws('#', ..)] leaves out what is [NULL]. *)
Definition concat_ws (a b : option (list Z)) : list Z :=
  match a, b with
  | Some a, Some b => a ++ bytes_of_string "#" ++ b
  | Some a, None => a
  | None, Some b => b
  | None, None => []
  end.
(** [GROUP BY]. *)
Fixpoint group_insert {K V} `{!EqDecision K} (k : K) (v : V) (l : list (K * list V)) :
    list (K * list V) :=
  match l with
  | [] => [(k, [v])]
  | (k', vs) :: l => if decide (k' = k) then (k', vs ++ [v]) :: l else (k', vs) :: group_insert k v l
  end.
Definition group_by {K V} `{!EqDecision K} (l : list (K * V)) : list (K * list V) :=
  foldl (λ acc kv, group_insert kv.1 kv.2 acc) [] l.

Section Queries.
Context `{!CandidatesLib}.

Inductive TxInConfiguration : Type := Enabled | Consumed.

Definition from_connection (exists_query populated_query : outcome CSqlxError CTables) :
    outcome CSqlxError TxInConfiguration :=
  t ← exists_query;
  if negb (ct_has_tx_in t) then mret Consumed else
  t ← populated_query;
  mret (if bool_decide (ct_tx_in t = []) then Consumed else Enabled).

Record EpochBlock : Type := { eb_block_no : Z; eb_epoch_no : Z; eb_slot_no : Z }.
(** The filters make the columns that are read non-null. *)
Definition epoch_block (b : CBlock) : option EpochBlock :=
  n ← cb_no b; e ← cb_epoch b; s ← cb_slot b;
  Some {| eb_block_no := n; eb_epoch_no := e; eb_slot_no := s |}.
Definition get_latest_block_for_epoch (q : outcome CSqlxError CTables) (epoch : Z) :
    outcome CSqlxError (option EpochBlock) :=
  t ← q;
  mret (head (c_order_by (λ a b, eb_slot_no b ?= eb_slot_no a)
    (filter (λ b, eb_epoch_no b ≤ epoch) (omap epoch_block (ct_block t))))).

(** Pairs of the number of a block and the epoch of the one [k] before it. *)
Definition stable_rows (t : CTables) (k : Z) : list (Z * option Z) :=
  b ← ct_block t;
  s ← ct_block t;
  match cb_no b, cb_no s with
  | Some n, Some m => if bool_decide (n - k = m) then [(n, option_map (λ e, e - 1) (cb_epoch s))] else []
  | _, _ => []
  end.
Definition get_latest_stable_epoch (q : outcome CSqlxError CTables) (security_parameter : Z) :
    outcome CSqlxError (option Z) :=
  t ← q;
  match head (c_order_by (λ a b, b.1 ?= a.1) (stable_rows t security_parameter)) with
  | None => mret None
  | Some r => e ← ok_or r.2 sqlx_decode_error; mret (Some (epoch_number_from e))
  end.

Record StakePoolEntry : Type := { pool_hash : list Z; stake : Z }.
(** The hash of a pool and an amount staked to it. *)
Definition stake_rows (t : CTables) (epoch : Z) : list (list Z * Z) :=
  es ← filter (λ es, es_epoch_no es = epoch) (ct_epoch_stake t);
  ph ← filter (λ ph, ph_id ph = es_pool_id es) (ct_pool_hash t);
  [(ph_hash_raw ph, es_amount es)].
Definition get_stake_distribution (q : outcome CSqlxError CTables) (epoch : Z) :
    outcome CSqlxError (list StakePoolEntry) :=
  t ← q;
  mret ((λ g, {| pool_hash := g.1; stake := zsum (λ a, a) g.2 |}) <$> group_by (stake_rows t epoch)).

(** A datum that does not decode is an error of the query. *)
Definition decode_datum (v : option JsonValue) : outcome CSqlxError (option CPlutusData) :=
  match v with
  | None => mret None
  | Some v => d ← ok_or (encode_json_value_to_plutus_datum v) sqlx_decode_error; mret (Some d)
  end.

(** The rows of [get_token_utxo_for_epoch]: position, slot and datum. *)
Definition token_utxo_rows (t : CTables) (policy name : list Z) (epoch : Z) :
    list (option Z * Z * option Z * option JsonValue) :=
  m ← ct_ma_tx_out t;
  _ ← (filter (λ a, asset_id a = ma_ident m ∧ asset_policy a = policy ∧ asset_name_of a = name)
        (ct_multi_asset t) : list MultiAssetRow);
  o ← filter (λ o, co_id o = ma_tx_out_id m) (ct_tx_out t);
  x ← filter (λ x, cx_id x = co_tx_id o) (ct_tx t);
  b ← filter (λ b, cb_id b = cx_block_id x ∧ sql_le (cb_epoch b) (Some epoch)) (ct_block t);
  d ← left_join (filter (λ d, co_data_hash o = Some (cd_hash d)) (ct_datum t));
  [(cb_no b, cx_block_index x, cb_slot b, option_map cd_value d)].
(** [DESC]: what is [NULL] comes first. *)
Definition desc_cmp (a b : option Z) : comparison :=
  match a, b with
  | Some a, Some b => b ?= a
  | Some _, None => Gt
  | None, Some _ => Lt
  | None, None => Eq
  end.
(** Of the result only the datum is used, but the rest has to decode. *)
Definition get_token_utxo_for_epoch (q : outcome CSqlxError CTables) (policy name : list Z) (epoch : Z) :
    outcome CSqlxError (option (option CPlutusData)) :=
  t ← q;
  match head (c_order_by (λ a b, then_cmp (desc_cmp a.1.1.1 b.1.1.1) (b.1.1.2 ?= a.1.1.2))
                (token_utxo_rows t policy name epoch)) with
  | None => mret None
  | Some r =>
      ok_or r.1.1.1 sqlx_decode_error ;;
      ok_or r.1.2 sqlx_decode_error ;;
      d ← decode_datum r.2; mret (Some d)
  end.

Definition get_epoch_nonce_row (q : outcome CSqlxError CTables) (epoch : Z) :
    outcome CSqlxError (option (list Z)) :=
  t ← q;
  mret (head (ep_nonce <$> filter (λ p, ep_epoch_no p = epoch) (ct_epoch_param t))).

(** [get_epoch_for_block_hash]; a [NULL] does not decode. *)
Definition get_epoch_for_block_hash (q : outcome CSqlxError CTables) (block_hash : list Z) :
    outcome CSqlxError (option Z) :=
  t ← q;
  match head (filter (λ b, cb_hash b = block_hash) (ct_block t)) with
  | None => mret None
  | Some b => e ← ok_or (cb_epoch b) sqlx_decode_error; mret (Some (epoch_number_from e))
  end.

(** ** [get_utxos_for_address], in the two configurations

    The conditions stand at the first table they mention. *)

(** What may consume an output: whether there is nothing ([NULL]), and the number
    of the consuming block. *)
Definition consuming_of_tx (t : CTables) (x : option CTx) : list (option Z) :=
  b ← left_join (on x (λ x, filter (λ b, cb_id b = cx_block_id x) (ct_block t)));
  [match b with Some b => cb_no b | None => None end].
Definition consuming_enabled (t : CTables) (o : CTxOut) : list (bool * option Z) :=
  i ← left_join (filter (λ i, ci_tx_out_id i = co_tx_id o ∧ ci_tx_out_index i = co_index o) (ct_tx_in t));
  x ← left_join (on i (λ i, filter (λ x, cx_id x = ci_tx_in_id i) (ct_tx t)));
  n ← consuming_of_tx t x;
  [(match i with Some _ => false | None => true end, n)].
Definition consuming_consumed (t : CTables) (o : CTxOut) : list (bool * option Z) :=
  x ← left_join (filter (λ x, co_consumed_by_tx_id o = Some (cx_id x)) (ct_tx t));
  n ← consuming_of_tx t x;
  [(match co_consumed_by_tx_id o with Some _ => false | None => true end, n)].

(** The inputs of a transaction, as text. *)
Definition hash_of_output (t : CTables) (o : option CTxOut) : list (option CTx) :=
  left_join (on o (λ o, filter (λ x, cx_id x = co_tx_id o) (ct_tx t))).
Definition hex_of_tx (x : option CTx) : option (list Z) :=
  match x with Some x => Some (hex_encode (cx_hash x)) | None => None end.
Definition inputs_enabled (t : CTables) (origin_tx : CTx) : list (list Z) :=
  i ← left_join (filter (λ i, ci_tx_in_id i = cx_id origin_tx) (ct_tx_in t));
  o ← left_join (on i (λ i, filter (λ o, co_tx_id o = ci_tx_out_id i ∧ co_index o = ci_tx_out_index i)
                              (ct_tx_out t)));
  x ← hash_of_output t o;
  [concat_ws (hex_of_tx x) (match i with Some i => Some (decimal (ci_tx_out_index i)) | None => None end)].
Definition inputs_consumed (t : CTables) (origin_tx : CTx) : list (list Z) :=
  o ← left_join (filter (λ o, co_consumed_by_tx_id o = Some (cx_id origin_tx)) (ct_tx_out t));
  x ← hash_of_output t o;
  [concat_ws (hex_of_tx x) (match o with Some o => Some (decimal (co_index o)) | None => None end)].

(** The columns the rows are grouped by. *)
Record UtxoKey : Type := {
  uk_tx_hash : list Z; uk_index : Z; uk_block_no : option Z; uk_slot_no : option Z;
  uk_epoch_no : option Z; uk_tx_index : Z; uk_address : list Z; uk_datum : option JsonValue;
}.
#[export] Instance UtxoKey_eq_dec : EqDecision UtxoKey.
Proof. solve_decision. Defined.

Definition utxo_rows (consuming : CTxOut → list (bool * option Z)) (inputs : CTx → list (list Z))
    (t : CTables) (address : list Z) (block : Z) : list (UtxoKey * list Z) :=
  o ← filter (λ o, co_address o = address) (ct_tx_out t);
  x ← filter (λ x, cx_id x = co_tx_id o) (ct_tx t);
  b ← filter (λ b, cb_id b = cx_block_id x ∧ sql_le (cb_no b) (Some block)) (ct_block t);
  _ ← (filter (λ c, c.1 = true ∨ sql_lt (Some block) c.2) (consuming o) : list (bool * option Z));
  input ← inputs x;
  d ← left_join (filter (λ d, co_data_hash o = Some (cd_hash d)) (ct_datum t));
  [({| uk_tx_hash := cx_hash x; uk_index := co_index o; uk_block_no := cb_no b; uk_slot_no := cb_slot b;
       uk_epoch_no := cb_epoch b; uk_tx_index := cx_block_index x; uk_address := co_address o;
       uk_datum := option_map cd_value d |}, input)].
Definition address_rows (config : TxInConfiguration) (t : CTables) (address : list Z) (block : Z) :
    list (UtxoKey * list Z) :=
  match config with
  | Enabled => utxo_rows (consuming_enabled t) (inputs_enabled t) t address block
  | Consumed => utxo_rows (consuming_consumed t) (inputs_consumed t) t address block
  end.

Record MainchainTxOutput : Type := {
  mo_utxo_id : UtxoId; mo_block_no : Z; mo_slot_no : Z; mo_epoch_no : Z; mo_tx_index : Z;
  mo_address : list Z; mo_datum : option CPlutusData; mo_tx_inputs : list UtxoId;
}.
Definition output_from_row (r : UtxoKey * list (list Z)) : outcome CSqlxError MainchainTxOutput :=
  n ← ok_or (uk_block_no r.1) sqlx_decode_error;
  s ← ok_or (uk_slot_no r.1) sqlx_decode_error;
  e ← ok_or (uk_epoch_no r.1) sqlx_decode_error;
  d ← decode_datum (uk_datum r.1);
  tx_inputs ← try_collect (λ i, ok_or (utxo_id_from_str i) sqlx_decode_error) r.2;
  mret {| mo_utxo_id := {| uid_tx_hash := uk_tx_hash r.1; uid_index := uk_index r.1 |};
          mo_block_no := n; mo_slot_no := s; mo_epoch_no := e; mo_tx_index := uk_tx_index r.1;
          mo_address := uk_address r.1; mo_datum := d; mo_tx_inputs := tx_inputs |}.
Definition get_utxos_for_address (q : outcome CSqlxError CTables) (address : list Z) (block : Z)
    (config : TxInConfiguration) : outcome CSqlxError (list MainchainTxOutput) :=
  t ← q;
  try_collect output_from_row (group_by (address_rows config t address block)).

(** ** The data source ([mod.rs]) *)

Record ParsedCandidate : Type := {
  pc_output : MainchainTxOutput; pc_datum : RegisterValidatorDatum;
}.
(** [utxo_info] is taken from the output as it is. *)
Record RegisteredCandidate : Type := {
  rc_stake_pool_pub_key : StakePoolPublicKey;
  rc_registration_utxo : UtxoId;
  rc_tx_inputs : list UtxoId;
  rc_sidechain_signature : list Z;
  rc_mainchain_signature : list Z;
  rc_cross_chain_signature : list Z;
  rc_sidechain_pub_key : list Z;
  rc_cross_chain_pub_key : list Z;
  rc_keys : list CandidateKey;
  rc_utxo_info : UtxoId * Z * Z * Z * Z;
}.

Definition parse_candidates (outputs : list MainchainTxOutput) : list ParsedCandidate :=
  omap (λ output, datum ← mo_datum output; d ← register_validator_try_from datum;
                  Some {| pc_output := output; pc_datum := d |}) outputs.

Definition utxo_info (o : MainchainTxOutput) : UtxoId * Z * Z * Z * Z :=
  (mo_utxo_id o, mo_epoch_no o, mo_block_no o, mo_slot_no o, mo_tx_index o).
Definition convert_candidate (c : ParsedCandidate) : RegisteredCandidate :=
  let info := utxo_info (pc_output c) in let inputs := mo_tx_inputs (pc_output c) in
  match pc_datum c with
  | V0 pub_key signature sidechain_pub_key sidechain_signature registration_utxo _ aura grandpa =>
      {| rc_stake_pool_pub_key := pub_key; rc_registration_utxo := registration_utxo;
         rc_tx_inputs := inputs; rc_sidechain_signature := sidechain_signature;
         rc_mainchain_signature := signature; rc_cross_chain_signature := sidechain_signature;
         rc_sidechain_pub_key := sidechain_pub_key; rc_cross_chain_pub_key := sidechain_pub_key;
         rc_keys := [{| key_id := AURA; key_bytes := aura |}; {| key_id := GRANDPA; key_bytes := grandpa |}];
         rc_utxo_info := info |}
  | V1 pub_key signature sidechain_pub_key sidechain_signature registration_utxo _ keys =>
      {| rc_stake_pool_pub_key := pub_key; rc_registration_utxo := registration_utxo;
         rc_tx_inputs := inputs; rc_sidechain_signature := sidechain_signature;
         rc_mainchain_signature := signature; rc_cross_chain_signature := sidechain_signature;
         rc_sidechain_pub_key := sidechain_pub_key; rc_cross_chain_pub_key := sidechain_pub_key;
         rc_keys := keys; rc_utxo_info := info |}
  end.
Definition convert_utxos_to_candidates (outputs : list MainchainTxOutput) : list RegisteredCandidate :=
  convert_candidate <$> parse_candidates outputs.

Definition group_candidates_by_mc_pub_key (candidates : list RegisteredCandidate) :
    list (StakePoolPublicKey * list RegisteredCandidate) :=
  group_by ((λ c, (rc_stake_pool_pub_key c, c)) <$> candidates).

Definition make_stake_map (l : list StakePoolEntry) : gmap (list Z) Z :=
  foldl (λ m e, <[pool_hash e := stake e]> m) ∅ l.
Definition get_stake_delegation (stake_map : gmap (list Z) Z) (key : StakePoolPublicKey) : option Z :=
  if bool_decide (stake_map = ∅) then None
  else Some (default 0 (stake_map !! key_hash_from_vkey key)).

(** [make_registration_data] keeps every field but the key of the pool. *)
Record CandidateRegistrationData : Type := {
  rd_registration_utxo : UtxoId; rd_tx_inputs : list UtxoId; rd_sidechain_signature : list Z;
  rd_mainchain_signature : list Z; rd_cross_chain_signature : list Z; rd_sidechain_pub_key : list Z;
  rd_cross_chain_pub_key : list Z; rd_keys : list CandidateKey; rd_utxo_info : UtxoId * Z * Z * Z * Z;
}.
Definition make_registration_data (c : RegisteredCandidate) : CandidateRegistrationData := {|
  rd_registration_utxo := rc_registration_utxo c; rd_tx_inputs := rc_tx_inputs c;
  rd_sidechain_signature := rc_sidechain_signature c; rd_mainchain_signature := rc_mainchain_signature c;
  rd_cross_chain_signature := rc_cross_chain_signature c; rd_sidechain_pub_key := rc_sidechain_pub_key c;
  rd_cross_chain_pub_key := rc_cross_chain_pub_key c; rd_keys := rc_keys c;
  rd_utxo_info := rc_utxo_info c |}.
Record CandidateRegistrations : Type := {
  cr_stake_pool_public_key : StakePoolPublicKey;
  cr_registrations : list CandidateRegistrationData;
  cr_stake_delegation : option Z;
}.
(** The D parameter is a constant and unused. *)
Record AriadneParameters : Type := {
  num_permissioned_candidates : Z; num_registered_candidates : Z;
  permissioned_candidates : option (list PermissionedCandidateData);
}.

Inductive CandidatesError : Type :=
| Cand_Sqlx (e : CSqlxError)
| Cand_Internal (e : CSqlxError)
| Cand_BadRequest (offset : Z)
| Cand_ExpectedDataNotFound
| Cand_InvalidData.

(** What the queries of one request see. *)
Record Snapshots : Type := {
  sn_stable : outcome CSqlxError CTables;
  sn_token : outcome CSqlxError CTables;
  sn_block : outcome CSqlxError CTables;
  sn_exists : outcome CSqlxError CTables;
  sn_populated : outcome CSqlxError CTables;
  sn_utxos : outcome CSqlxError CTables;
  sn_stake : outcome CSqlxError CTables;
}.

Definition get_epoch_of_data_storage (epoch : Z) : outcome CandidatesError Z :=
  match offset_data_epoch epoch with inr e => Ok e | inl offset => Err (Cand_BadRequest offset) end.

Definition get_epoch_nonce (q : outcome CSqlxError CTables) (epoch : Z) :
    outcome CandidatesError (option (list Z)) :=
  epoch ← get_epoch_of_data_storage epoch;
  map_err Cand_Sqlx (get_epoch_nonce_row q epoch).

Definition get_ariadne_parameters (w : Snapshots) (epoch : Z) (policy : list Z) :
    outcome CandidatesError AriadneParameters :=
  epoch ← get_epoch_of_data_storage epoch;
  candidates_output_opt ← map_err Cand_Sqlx (get_token_utxo_for_epoch (sn_token w) policy [] epoch);
  permissioned ←
    match candidates_output_opt with
    | None => mret None
    | Some datum =>
        candidates_datum ← ok_or datum Cand_ExpectedDataNotFound;
        l ← ok_or (permissioned_candidates_try_from candidates_datum) Cand_InvalidData;
        mret (Some l)
    end;
  mret {| num_permissioned_candidates := 0; num_registered_candidates := 0;
          permissioned_candidates := permissioned |}.

(** [DbSyncConfigurationProvider::get_tx_in_config]: a cell that is set once. *)
Definition get_tx_in_config (w : Snapshots) : M (option TxInConfiguration) CandidatesError TxInConfiguration :=
  cell ← gets (λ c, c);
  match cell with
  | Some c => mret c
  | None =>
      c ← lift (map_err Cand_Internal (from_connection (sn_exists w) (sn_populated w)));
      modify (λ _, Some c) ;; mret c
  end.

Definition get_registered_candidates (w : Snapshots) (epoch : Z) (address : list Z) :
    M (option TxInConfiguration) CandidatesError (list RegisteredCandidate) :=
  block ← lift (map_err Cand_Sqlx (get_latest_block_for_epoch (sn_block w) epoch));
  active_utxos ←
    match block with
    | Some b =>
        config ← get_tx_in_config w;
        lift (map_err Cand_Sqlx (get_utxos_for_address (sn_utxos w) address (eb_block_no b) config))
    | None => mret []
    end;
  mret (convert_utxos_to_candidates active_utxos).

Definition get_candidates (w : Snapshots) (epoch : Z) (address : list Z) :
    M (option TxInConfiguration) CandidatesError (list CandidateRegistrations) :=
  epoch ← lift (get_epoch_of_data_storage epoch);
  candidates ← get_registered_candidates w epoch address;
  stakes ← lift (map_err Cand_Sqlx (get_stake_distribution (sn_stake w) epoch));
  let stake_map := make_stake_map stakes in
  mret ((λ g, {| cr_stake_pool_public_key := g.1;
                 cr_registrations := make_registration_data <$> g.2;
                 cr_stake_delegation := get_stake_delegation stake_map g.1 |})
          <$> group_candidates_by_mc_pub_key candidates).

(** ** The cache ([cached.rs]) *)

(** [LruCache]: the most recently used entry first. *)
Definition lru_get {K V} `{!EqDecision K} (k : K) (l : list (K * V)) : option (V * list (K * V)) :=
  match filter (λ e, e.1 = k) l with
  | e :: _ => Some (e.2, e :: filter (λ e, e.1 ≠ k) l)
  | [] => None
  end.
Definition lru_put {K V} `{!EqDecision K} (cap : nat) (k : K) (v : V) (l : list (K * V)) : list (K * V) :=
  take cap ((k, v) :: filter (λ e, e.1 ≠ k) l).

(** The cached source, with the cell of the inner one. *)
Record CandidateDataSourceCached : Type := {
  ariadne_cache : list ((Z * list Z * list Z) * AriadneParameters);
  candidates_cache : list ((Z * list Z) * list CandidateRegistrations);
  highest_seen_stable_epoch : option Z;
  tx_in_cell : option TxInConfiguration;
}.
Definition set_ariadne_cache c (s : CandidateDataSourceCached) : CandidateDataSourceCached :=
  {| ariadne_cache := c; candidates_cache := candidates_cache s;
     highest_seen_stable_epoch := highest_seen_stable_epoch s; tx_in_cell := tx_in_cell s |}.
Definition set_candidates_cache c (s : CandidateDataSourceCached) : CandidateDataSourceCached :=
  {| ariadne_cache := ariadne_cache s; candidates_cache := c;
     highest_seen_stable_epoch := highest_seen_stable_epoch s; tx_in_cell := tx_in_cell s |}.
Definition set_stable_epoch e (s : CandidateDataSourceCached) : CandidateDataSourceCached :=
  {| ariadne_cache := ariadne_cache s; candidates_cache := candidates_cache s;
     highest_seen_stable_epoch := e; tx_in_cell := tx_in_cell s |}.
Definition set_tx_in_cell c (s : CandidateDataSourceCached) : CandidateDataSourceCached :=
  {| ariadne_cache := ariadne_cache s; candidates_cache := candidates_cache s;
     highest_seen_stable_epoch := highest_seen_stable_epoch s; tx_in_cell := c |}.

(** A size of zero does not make a [NonZeroUsize]. *)
Definition cached_new (cache_size : Z) : outcome CandidatesError CandidateDataSourceCached :=
  if bool_decide (cache_size = 0) then Panic
  else Ok {| ariadne_cache := []; candidates_cache := []; highest_seen_stable_epoch := None;
             tx_in_cell := None |}.

Context (cache_size : Z) (security_parameter : Z).
Notation CM := (M CandidateDataSourceCached CandidatesError).

Definition can_use_caching_for_request (w : Snapshots) (request_epoch : Z) : CM bool :=
  data_epoch ← lift (get_epoch_of_data_storage request_epoch);
  seen ← gets highest_seen_stable_epoch;
  if match seen with Some stable_epoch => bool_decide (data_epoch ≤ stable_epoch) | None => false end
  then mret true else
  latest ← lift (map_err Cand_Sqlx (get_latest_stable_epoch (sn_stable w) security_parameter));
  match latest with
  | Some stable_epoch =>
      modify (set_stable_epoch (Some stable_epoch)) ;;
      mret (bool_decide (data_epoch ≤ stable_epoch))
  | None => mret false
  end.

Definition inner_get_candidates (w : Snapshots) (epoch : Z) (address : list Z) :
    CM (list CandidateRegistrations) :=
  zoom tx_in_cell set_tx_in_cell (get_candidates w epoch address).

Definition get_candidates_with_caching (w : Snapshots) (epoch : Z) (address : list Z) :
    CM (list CandidateRegistrations) :=
  let key := (epoch, address) in
  cache ← gets candidates_cache;
  match lru_get key cache with
  | Some (resp, cache) => modify (set_candidates_cache cache) ;; mret resp
  | None =>
      response ← inner_get_candidates w epoch address;
      cache ← gets candidates_cache;
      modify (set_candidates_cache (lru_put (Z.to_nat cache_size) key response cache)) ;;
      mret response
  end.

Definition get_ariadne_parameters_with_caching (w : Snapshots) (epoch : Z) (d_policy policy : list Z) :
    CM AriadneParameters :=
  let key := (epoch, d_policy, policy) in
  cache ← gets ariadne_cache;
  match lru_get key cache with
  | Some (resp, cache) => modify (set_ariadne_cache cache) ;; mret resp
  | None =>
      response ← lift (get_ariadne_parameters w epoch policy);
      cache ← gets ariadne_cache;
      modify (set_ariadne_cache (lru_put (Z.to_nat cache_size) key response cache)) ;;
      mret response
  end.

Definition cached_get_candidates (w : Snapshots) (epoch : Z) (address : list Z) :
    CM (list CandidateRegistrations) :=
  use ← can_use_caching_for_request w epoch;
  if (use : bool) then get_candidates_with_caching w epoch address
  else inner_get_candidates w epoch address.
Definition cached_get_ariadne_parameters (w : Snapshots) (epoch : Z) (d_policy policy : list Z) :
    CM AriadneParameters :=
  use ← can_use_caching_for_request w epoch;
  if (use : bool) then get_ariadne_parameters_with_caching w epoch d_policy policy
  else lift (get_ariadne_parameters w epoch policy).
End Queries.

(** ** Grouping *)

Lemma group_insert_keys {K V} `{!EqDecision K} (k : K) (v : V) l k' :
  k' ∈ (group_insert k v l).*1 ↔ k' = k ∨ k' ∈ l.*1.
Proof.
  induction l as [|[k0 vs] l IH]; simpl.
  { rewrite list_elem_of_singleton, elem_of_nil. tauto. }
  case_decide as Hk; simpl; rewrite !elem_of_cons; [subst; tauto|]. rewrite IH. tauto.
Qed.
Lemma group_insert_elem {K V} `{!EqDecision K} (k : K) (v : V) l k' vs :
  NoDup l.*1 →
  (k', vs) ∈ group_insert k v l ↔
  (k' ≠ k ∧ (k', vs) ∈ l) ∨
  (k' = k ∧ ((k ∉ l.*1 ∧ vs = [v]) ∨ ∃ ws, (k, ws) ∈ l ∧ vs = ws ++ [v])).
Proof.
  induction l as [|[k0 ws] l IH]; simpl; intros Hnd.
  { rewrite list_elem_of_singleton, elem_of_nil. split.
    - intros [= -> ->]. right. split; [done|]. left. split; [apply not_elem_of_nil|done].
    - intros [[_ []]|[-> [[_ ->]|(? & []%elem_of_nil & _)]]]; done. }
  apply NoDup_cons in Hnd as [Hk0 Hnd]. case_decide as Hk; simpl.
  - subst k0. setoid_rewrite elem_of_cons. split.
    + intros [[= -> ->]|Hin].
      * right. split; [done|]. right. exists ws. split; [by left|done].
      * destruct (decide (k' = k)) as [->|Hne]; [|left; auto]. destruct Hk0.
        apply list_elem_of_fmap. by exists (k, vs).
    + intros [[Hne [Heq|Hin]]|[-> [[Hno _]|(ws' & [Heq|Hin] & ->)]]]; simplify_eq; [by right|..].
      * destruct Hno. by left.
      * by left.
      * destruct Hk0. apply list_elem_of_fmap. by exists (k, ws').
  - setoid_rewrite elem_of_cons. rewrite (IH Hnd). split.
    + intros [[= -> ->]|[[Hne Hin]|[-> [[Hno ->]|(ws' & Hin & ->)]]]].
      * left. split; [congruence|by left].
      * left. split; [done|by right].
      * right. split; [done|]. left. split; [|done]. intros [->|?]; done.
      * right. split; [done|]. right. exists ws'. split; [by right|done].
    + intros [[Hne [Heq|Hin]]|[-> [[Hno ->]|(ws' & [Heq|Hin] & ->)]]]; simplify_eq; [by left|..].
      * right. by left.
      * right. right. split; [done|]. left. split; [|done]. intros Hin. apply Hno. by right.
      * right. right. split; [done|]. right. by exists ws'.
Qed.

Lemma group_by_spec {K V} `{!EqDecision K} (l : list (K * V)) :
  NoDup (group_by l).*1 ∧
  ∀ k vs, (k, vs) ∈ group_by l ↔ vs ≠ [] ∧ vs = (filter (λ kv, kv.1 = k) l).*2.
Proof.
  unfold group_by. induction l as [|[k v] l IH] using rev_ind; simpl.
  { split; [constructor|]. intros k vs. rewrite elem_of_nil. split; [done|intros [? ->]; done]. }
  rewrite foldl_app. simpl. destruct IH as [Hnd Hin]. set (g := foldl _ [] l) in *. split.
  - clear -Hnd. induction g as [|[k0 ws] g IH]; simpl; [apply NoDup_singleton|].
    apply NoDup_cons in Hnd as [Hk0 Hnd]. case_decide; simpl; apply NoDup_cons; [done|].
    split; [|auto]. rewrite group_insert_keys. intros [->|?]; done.
  - intros k' vs. rewrite (group_insert_elem _ _ _ _ _ Hnd), filter_app, fmap_app, filter_cons. simpl.
    assert (∀ q, q ∈ g.*1 ↔ (filter (λ kv, kv.1 = q) l).*2 ≠ []) as Hkeys.
    { intros q. rewrite list_elem_of_fmap. split.
      - intros ([q' ws] & -> & [? ->]%Hin). done.
      - intros Hne. exists (q, (filter (λ kv, kv.1 = q) l).*2). split; [done|]. by apply Hin. }
    case_decide as Hk; simpl.
    + subst k'. split.
      * intros [[[] _]|[_ [[Hno ->]|(ws & [_ ->]%Hin & ->)]]]; [done| |].
        -- rewrite Hkeys in Hno. apply dec_stable in Hno. by rewrite Hno.
        -- split; [by destruct (_.*2)|done].
      * intros [_ ->]. right. split; [done|].
        destruct (decide (k ∈ g.*1)) as [Hk|Hk].
        -- right. eexists; split; [|done]. apply Hin. split; [by apply Hkeys|done].
        -- left. split; [done|]. rewrite Hkeys in Hk. apply dec_stable in Hk. by rewrite Hk.
    + rewrite app_nil_r, Hin. split; [intros [[_ ?]|[? _]]; [done|congruence]|]. auto.
Qed.

(** ** The chain up to a block

    What the tables hold of the blocks up to number [n]: the stake of an epoch
    counts as known once there is a block of a later one. *)

Lemma bind_filter {A B} (Q : A → Prop) `{!∀ x, Decision (Q x)} (f : A → list B) (l : list A) :
  (∀ x, x ∈ l → f x ≠ [] → Q x) → l ≫= f = filter Q l ≫= f.
Proof.
  induction l as [|x l IH]; intros Hf; [done|]. rewrite filter_cons, bind_cons.
  rewrite IH by (intros y Hy; apply Hf; by right). case_decide as HQ; [done|].
  destruct (f x) eqn:Hx; [done|]. destruct HQ. apply Hf; [left|]. by rewrite Hx.
Qed.
Lemma bind_ext {A B} (f g : A → list B) (l : list A) : (∀ x, x ∈ l → f x = g x) → l ≫= f = l ≫= g.
Proof.
  induction l as [|x l IH]; intros Hf; [done|]. rewrite !bind_cons, (Hf x) by left.
  f_equal. apply IH. intros y Hy. apply Hf. by right.
Qed.
Lemma bind_fmap {A B C} (g : A → B) (f : B → list C) (l : list A) : (g <$> l) ≫= f = l ≫= (f ∘ g).
Proof. induction l as [|x l IH]; [done|]. rewrite fmap_cons, !bind_cons. by rewrite IH. Qed.
Lemma filter_fmap {A B} (f : A → B) (P : B → Prop) `{!∀ x, Decision (P x)} (l : list A) :
  filter P (f <$> l) = f <$> filter (λ x, P (f x)) l.
Proof.
  induction l as [|x l IH]; [done|]. rewrite fmap_cons, !filter_cons, IH. by case_decide.
Qed.
Lemma filter_sub {A} (P Q : A → Prop) `{!∀ x, Decision (P x)} `{!∀ x, Decision (Q x)} (l : list A) :
  (∀ x, x ∈ l → P x → Q x) → filter P (filter Q l) = filter P l.
Proof.
  induction l as [|x l IH]; intros HPQ; [done|]. rewrite !filter_cons.
  pose proof (IH (λ y Hy, HPQ y (list_elem_of_further _ _ _ Hy))) as IH'.
  destruct (decide (Q x)) as [HQ|HQ]; rewrite ?filter_cons; destruct (decide (P x)) as [HP|HP]; try congruence.
  destruct HQ. apply HPQ; [left|done].
Qed.
Lemma bind_constant {A B C} (l : list A) (k : list B) (c : list C) :
  length l = length k → (l ≫= λ _, c) = (k ≫= λ _, c).
Proof.
  revert k. induction l as [|x l IH]; intros [|y k] Hl; [done..|].
  rewrite !bind_cons. f_equal. apply IH. by injection Hl.
Qed.
Lemma bind_not_nil {A B} (f : A → list B) l : l ≫= f ≠ [] → ∃ x, x ∈ l ∧ f x ≠ [].
Proof.
  induction l as [|x l IH]; [done|]. rewrite bind_cons. destruct (f x) eqn:Hx.
  - intros (y & ? & ?)%IH. exists y. split; [by right|done].
  - intros _. exists x. split; [left|]. by rewrite Hx.
Qed.

Lemma filter_by_key {A B} `{!EqDecision B} (f : A → B) (l : list A) x :
  NoDup (f <$> l) → x ∈ l → filter (λ y, f y = f x) l = [x].
Proof.
  induction l as [|y l IH]; [by intros _ ?%elem_of_nil|].
  rewrite fmap_cons. intros [Hy Hnd]%NoDup_cons [->|Hx]%elem_of_cons; rewrite filter_cons.
  - rewrite decide_True by done. f_equal. apply filter_none. intros z Hz Heq. apply Hy.
    rewrite <-Heq. by apply list_elem_of_fmap_2.
  - rewrite decide_False; [by apply IH|]. intros Heq. apply Hy. rewrite Heq.
    by apply list_elem_of_fmap_2.
Qed.
Lemma left_join_fmap {A B} (f : A → B) (l : list A) : left_join (f <$> l) = option_map f <$> left_join l.
Proof. destruct l as [|x l]; [done|]. unfold left_join. rewrite fmap_cons, !fmap_cons. simpl. f_equal. by rewrite <-!list_fmap_compose. Qed.
Lemma left_join_elem {A} (P : A → Prop) `{!∀ x, Decision (P x)} (l : list A) x :
  Some x ∈ left_join (filter P l) → P x ∧ x ∈ l.
Proof.
  unfold left_join. destruct (filter P l) eqn:Hf; [by intros ?%list_elem_of_singleton|].
  rewrite <-Hf. by intros (y & [= <-] & ?%list_elem_of_filter)%list_elem_of_fmap.
Qed.

Section Prefix.
Context `{!CandidatesLib}.

Definition block_upto (n : Z) (b : CBlock) : bool :=
  match cb_no b with Some m => bool_decide (m ≤ n) | None => true end.
Definition tx_upto (t : CTables) (n id : Z) : bool :=
  existsb (λ x, bool_decide (cx_id x = id) &&
    existsb (λ b, bool_decide (cb_id b = cx_block_id x) && block_upto n b) (ct_block t)) (ct_tx t).
Definition out_upto (t : CTables) (n : Z) (o : CTxOut) : CTxOut :=
  {| co_id := co_id o; co_tx_id := co_tx_id o; co_index := co_index o; co_address := co_address o;
     co_data_hash := co_data_hash o;
     co_consumed_by_tx_id :=
       match co_consumed_by_tx_id o with
       | Some id => if tx_upto t n id then Some id else None
       | None => None
       end |}.
Definition outs_upto (t : CTables) (n : Z) : list CTxOut := filter (λ o, tx_upto t n (co_tx_id o)) (ct_tx_out t).
Definition mas_upto (t : CTables) (n : Z) : list MaTxOutRow :=
  filter (λ m, existsb (λ o, bool_decide (co_id o = ma_tx_out_id m)) (outs_upto t n)) (ct_ma_tx_out t).
Definition stakes_upto (t : CTables) (n : Z) : list CEpochStake :=
  filter (λ s, existsb (λ b, sql_le (cb_no b) (Some n) && sql_lt (Some (es_epoch_no s)) (cb_epoch b)) (ct_block t))
    (ct_epoch_stake t).
Definition upto (n : Z) (t : CTables) : CTables := {|
  ct_block := filter (λ b, block_upto n b) (ct_block t);
  ct_tx := filter (λ x, tx_upto t n (cx_id x)) (ct_tx t);
  ct_tx_out := out_upto t n <$> outs_upto t n;
  ct_tx_in := filter (λ i, tx_upto t n (ci_tx_in_id i)) (ct_tx_in t);
  ct_datum := filter (λ d, existsb (λ o, bool_decide (co_data_hash o = Some (cd_hash d))) (outs_upto t n)) (ct_datum t);
  ct_ma_tx_out := mas_upto t n;
  ct_multi_asset := filter (λ a, existsb (λ m, bool_decide (ma_ident m = asset_id a)) (mas_upto t n)) (ct_multi_asset t);
  ct_epoch_stake := stakes_upto t n;
  ct_pool_hash := filter (λ p, existsb (λ s, bool_decide (es_pool_id s = ph_id p)) (stakes_upto t n)) (ct_pool_hash t);
  ct_epoch_param := [];
  ct_has_tx_in := false |}.

(** What db-sync guarantees: keys are unique and refer to rows; an output is
    consumed once, by a later or the same block; epochs do not decrease. *)
Record tables_wf (t : CTables) : Prop := {
  wf_block_ids : NoDup (cb_id <$> ct_block t);
  wf_tx_ids : NoDup (cx_id <$> ct_tx t);
  wf_tx_block x : x ∈ ct_tx t → ∃ b, b ∈ ct_block t ∧ cb_id b = cx_block_id x;
  wf_in_tx i : i ∈ ct_tx_in t → ∃ x, x ∈ ct_tx t ∧ cx_id x = ci_tx_in_id i;
  wf_in_once : NoDup ((λ i, (ci_tx_out_id i, ci_tx_out_index i)) <$> ct_tx_in t);
  wf_in_past n i : i ∈ ct_tx_in t → tx_upto t n (ci_tx_in_id i) → tx_upto t n (ci_tx_out_id i);
  wf_consumed_tx o id : o ∈ ct_tx_out t → co_consumed_by_tx_id o = Some id →
    ∃ x, x ∈ ct_tx t ∧ cx_id x = id;
  wf_consumed_past n o id : o ∈ ct_tx_out t → co_consumed_by_tx_id o = Some id →
    tx_upto t n id → tx_upto t n (co_tx_id o);
  wf_epochs b c m n e f : b ∈ ct_block t → c ∈ ct_block t → cb_no b = Some m → cb_no c = Some n →
    cb_epoch b = Some e → cb_epoch c = Some f → m ≤ n → e ≤ f;
}.

(** Some block up to [n] is of a later epoch than [e]. *)
Definition past_epoch (t : CTables) (n e : Z) : Prop :=
  ∃ b m f, b ∈ ct_block t ∧ cb_no b = Some m ∧ m ≤ n ∧ cb_epoch b = Some f ∧ e < f.

Lemma past_epoch_blocks t n e b :
  tables_wf t → past_epoch t n e → b ∈ ct_block t → sql_le (cb_epoch b) (Some e) → block_upto n b.
Proof.
  intros Hwf (c & m & f & Hc & Hm & Hmn & Hf & He) Hb. unfold block_upto, sql_le.
  destruct (cb_epoch b) as [g|] eqn:Hg; [|done]. intros Hge%bool_decide_unpack.
  destruct (cb_no b) as [k|] eqn:Hk; [|done]. apply bool_decide_pack.
  destruct (decide (k ≤ n)); [done|].
  pose proof (wf_epochs t Hwf c b m k f g Hc Hb Hm Hk Hf Hg ltac:(lia)). lia.
Qed.

Lemma tx_upto_spec t n id :
  tx_upto t n id ↔ ∃ x b, x ∈ ct_tx t ∧ cx_id x = id ∧ b ∈ ct_block t ∧ cb_id b = cx_block_id x ∧ block_upto n b.
Proof.
  unfold tx_upto. rewrite Is_true_true, existsb_exists. setoid_rewrite <-list_elem_of_In.
  setoid_rewrite andb_true_iff. setoid_rewrite existsb_exists. setoid_rewrite <-list_elem_of_In.
  setoid_rewrite andb_true_iff. setoid_rewrite bool_decide_eq_true. setoid_rewrite <-Is_true_true.
  naive_solver.
Qed.

Lemma epoch_blocks_upto (l : list CBlock) n e :
  (∀ b, b ∈ l → sql_le (cb_epoch b) (Some e) → block_upto n b) →
  filter (λ b, eb_epoch_no b ≤ e) (omap epoch_block (filter (λ b, block_upto n b) l)) =
  filter (λ b, eb_epoch_no b ≤ e) (omap epoch_block l).
Proof.
  induction l as [|b l IH]; intros Hl; [done|].
  pose proof (IH (λ c Hc, Hl c (list_elem_of_further _ _ _ Hc))) as IH'.
  rewrite filter_cons, omap_cons_eq. destruct (decide (block_upto n b)) as [Hb|Hb].
  - rewrite omap_cons_eq. destruct (epoch_block b); [|done]. rewrite !filter_cons. by rewrite IH'.
  - destruct (epoch_block b) as [eb|] eqn:Heb; [|done]. rewrite filter_cons, decide_False; [done|].
    intros Hle. destruct Hb. apply Hl; [left|]. unfold epoch_block in Heb.
    destruct (cb_no b), (cb_epoch b), (cb_slot b); simplify_eq/=. by apply bool_decide_pack.
Qed.

Lemma latest_block_upto t n e :
  tables_wf t → past_epoch t n e →
  get_latest_block_for_epoch (Ok (upto n t)) e = get_latest_block_for_epoch (Ok t) e.
Proof.
  intros Hwf Hpast. unfold get_latest_block_for_epoch. simpl. do 3 f_equal.
  apply epoch_blocks_upto. intros b Hb He. by eapply past_epoch_blocks.
Qed.

Lemma stakes_upto_eq t n e :
  past_epoch t n e → filter (λ es, es_epoch_no es = e) (stakes_upto t n) =
                     filter (λ es, es_epoch_no es = e) (ct_epoch_stake t).
Proof.
  intros (b & m & f & Hb & Hm & Hmn & Hf & He). apply filter_sub. intros s _ ->.
  apply Is_true_true, existsb_exists. exists b. split; [by apply list_elem_of_In|].
  rewrite Hm, Hf. simpl. by rewrite !bool_decide_true by done.
Qed.

Lemma stake_distribution_upto t n e :
  past_epoch t n e → get_stake_distribution (Ok (upto n t)) e = get_stake_distribution (Ok t) e.
Proof.
  intros Hpast. unfold get_stake_distribution. cbn [mbind outcome_bind]. do 3 f_equal.
  unfold stake_rows. cbn [ct_epoch_stake upto]. rewrite stakes_upto_eq by done. apply bind_ext. intros s [He Hs]%list_elem_of_filter. subst e.
  f_equal. apply filter_sub. intros p _ Hp. apply Is_true_true, existsb_exists. exists s. split.
  - apply list_elem_of_In. pose proof (stakes_upto_eq t n (es_epoch_no s) Hpast) as Heq.
    assert (s ∈ filter (λ es, es_epoch_no es = es_epoch_no s) (stakes_upto t n)) as Hin.
    { rewrite Heq. by apply list_elem_of_filter. }
    by apply list_elem_of_filter in Hin as [_ ?].
  - by apply bool_decide_eq_true.
Qed.

(** Joins with a row of the prefix give the same rows. *)
Lemma txs_upto t n id :
  tx_upto t n id →
  filter (λ x, cx_id x = id) (ct_tx (upto n t)) = filter (λ x, cx_id x = id) (ct_tx t).
Proof. intros Hid. apply filter_sub. by intros x _ ->. Qed.
Lemma datums_upto t n o :
  o ∈ outs_upto t n →
  filter (λ d, co_data_hash o = Some (cd_hash d)) (ct_datum (upto n t)) =
  filter (λ d, co_data_hash o = Some (cd_hash d)) (ct_datum t).
Proof.
  intros Ho. apply filter_sub. intros d _ Hd. apply Is_true_true, existsb_exists.
  exists o. split; [by apply list_elem_of_In|by apply bool_decide_eq_true].
Qed.
(** Blocks that satisfy a condition on old blocks only. *)
Lemma blocks_upto t n (P : CBlock → Prop) `{!∀ b, Decision (P b)} :
  (∀ b, b ∈ ct_block t → P b → block_upto n b) → filter P (ct_block (upto n t)) = filter P (ct_block t).
Proof. intros HP. by apply filter_sub. Qed.

Lemma tx_upto_intro t n x b :
  x ∈ ct_tx t → b ∈ ct_block t → cb_id b = cx_block_id x → block_upto n b → tx_upto t n (cx_id x).
Proof. intros. apply tx_upto_spec. eauto 10. Qed.

Lemma token_utxo_rows_upto t n policy name e :
  tables_wf t → past_epoch t n e →
  token_utxo_rows (upto n t) policy name e = token_utxo_rows t policy name e.
Proof.
  intros Hwf Hpast. unfold token_utxo_rows.
  assert (∀ x b, x ∈ ct_tx t → b ∈ filter (λ b, cb_id b = cx_block_id x ∧ sql_le (cb_epoch b) (Some e)) (ct_block t) →
    tx_upto t n (cx_id x)) as Hold.
  { intros x b Hx [[Hid He] Hb]%list_elem_of_filter.
    eapply tx_upto_intro; eauto using past_epoch_blocks. }
  symmetry. rewrite (bind_filter (λ m, existsb (λ o, bool_decide (co_id o = ma_tx_out_id m)) (outs_upto t n))).
  2:{ intros m _ (a & _ & (o & [Ho Hoin]%list_elem_of_filter & (x & [Hx Hxin]%list_elem_of_filter &
        (b & Hb & _)%bind_not_nil)%bind_not_nil)%bind_not_nil)%bind_not_nil.
      apply Is_true_true, existsb_exists. exists o. split; [|by apply bool_decide_eq_true].
      apply list_elem_of_In, list_elem_of_filter. split; [|done]. rewrite <-Hx. by eapply Hold. }
  fold (mas_upto t n). cbn [ct_ma_tx_out upto]. apply bind_ext. intros m Hm.
  assert (filter (λ a, asset_id a = ma_ident m ∧ asset_policy a = policy ∧ asset_name_of a = name)
    (ct_multi_asset (upto n t)) =
    filter (λ a, asset_id a = ma_ident m ∧ asset_policy a = policy ∧ asset_name_of a = name)
    (ct_multi_asset t)) as ->.
  { apply filter_sub. intros a _ (Ha & _). apply Is_true_true, existsb_exists. exists m.
    split; [by apply list_elem_of_In|by apply bool_decide_eq_true]. }
  apply bind_ext. intros a _. cbn [ct_tx_out upto].
  rewrite filter_fmap, bind_fmap.
  rewrite (bind_filter (λ o, tx_upto t n (co_tx_id o))).
  2:{ intros o [_ Ho]%list_elem_of_filter (x & [Hx Hxin]%list_elem_of_filter & (b & Hb & _)%bind_not_nil)%bind_not_nil.
      rewrite <-Hx. by eapply Hold. }
  replace (filter (λ o, tx_upto t n (co_tx_id o)) (filter (λ o, co_id o = ma_tx_out_id m) (ct_tx_out t)))
    with (filter (λ o, co_id (out_upto t n o) = ma_tx_out_id m) (outs_upto t n)).
  2:{ unfold outs_upto. rewrite !list_filter_filter. apply list_filter_iff. simpl. tauto. }
  apply bind_ext. intros o [_ Ho]%list_elem_of_filter.
  assert (tx_upto t n (co_tx_id o)) as Htx by (by apply list_elem_of_filter in Ho as [? _]).
  unfold compose. cbn [co_tx_id co_data_hash out_upto]. rewrite txs_upto by done.
  apply bind_ext. intros x [Hx Hxin]%list_elem_of_filter.
  rewrite blocks_upto by (intros b Hb [_ He]; by eapply past_epoch_blocks).
  apply bind_ext. intros b _. by rewrite datums_upto.
Qed.

Lemma token_utxo_upto t n policy name e :
  tables_wf t → past_epoch t n e →
  get_token_utxo_for_epoch (Ok (upto n t)) policy name e = get_token_utxo_for_epoch (Ok t) policy name e.
Proof. intros. unfold get_token_utxo_for_epoch. simpl. by rewrite token_utxo_rows_upto. Qed.

(** The block of a transaction. *)
Lemma consuming_of_tx_eq t x b :
  tables_wf t → b ∈ ct_block t → cb_id b = cx_block_id x → consuming_of_tx t (Some x) = [cb_no b].
Proof.
  intros Hwf Hb Hid. unfold consuming_of_tx. simpl. rewrite <-Hid.
  by rewrite (filter_by_key cb_id) by (apply Hwf || done).
Qed.
Lemma tx_upto_block t n x b :
  tables_wf t → x ∈ ct_tx t → b ∈ ct_block t → cb_id b = cx_block_id x →
  tx_upto t n (cx_id x) ↔ block_upto n b.
Proof.
  intros Hwf Hx Hb Hid. rewrite tx_upto_spec. split; [|eauto 10].
  intros (y & c & Hy & Hyx & Hc & Hcy & Hup).
  assert (y = x) as ->.
  { pose proof (filter_by_key cx_id _ x (wf_tx_ids t Hwf) Hx) as Heq.
    assert (y ∈ filter (λ z, cx_id z = cx_id x) (ct_tx t)) as Hin by (by apply list_elem_of_filter).
    rewrite Heq in Hin. by apply list_elem_of_singleton in Hin. }
  assert (c = b) as ->; [|done].
  pose proof (filter_by_key cb_id _ b (wf_block_ids t Hwf) Hb) as Heq.
  assert (c ∈ filter (λ z, cb_id z = cb_id b) (ct_block t)) as Hin.
  { apply list_elem_of_filter. split; [congruence|done]. }
  rewrite Heq in Hin. by apply list_elem_of_singleton in Hin.
Qed.
Lemma consuming_of_tx_upto t n x :
  tables_wf t → x ∈ ct_tx t → tx_upto t n (cx_id x) →
  consuming_of_tx (upto n t) (Some x) = consuming_of_tx t (Some x).
Proof.
  intros Hwf Hx Hup. destruct (wf_tx_block t Hwf x Hx) as (b & Hb & Hid).
  rewrite (tx_upto_block t n x b) in Hup by done. unfold consuming_of_tx. cbn [on]. rewrite <-Hid.
  rewrite blocks_upto; [done|]. intros c Hc Heq.
  pose proof (filter_by_key cb_id _ b (wf_block_ids t Hwf) Hb) as Hu.
  assert (c ∈ filter (λ z, cb_id z = cb_id b) (ct_block t)) as Hin by (by apply list_elem_of_filter).
  rewrite Hu in Hin. by apply list_elem_of_singleton in Hin as ->.
Qed.

(** Outputs consumed after block [n] are not consumed at an earlier one. *)
Definition alive (block : Z) (l : list (bool * option Z)) : list (bool * option Z) :=
  filter (λ c, c.1 = true ∨ sql_lt (Some block) c.2) l.
Lemma alive_later t n block x b :
  tables_wf t → x ∈ ct_tx t → b ∈ ct_block t → cb_id b = cx_block_id x → ¬ tx_upto t n (cx_id x) →
  block ≤ n → alive block [(false, cb_no b)] = [(false, cb_no b)].
Proof.
  intros Hwf Hx Hb Hid Hup Hn. rewrite (tx_upto_block t n x b) in Hup by done.
  unfold alive. rewrite filter_cons, decide_True; [done|]. right. unfold block_upto in Hup.
  destruct (cb_no b) as [m|]; [|done]. simpl. apply bool_decide_pack.
  destruct (decide (m ≤ n)) as [?|?]; [|simpl; lia]. destruct Hup. by apply bool_decide_pack.
Qed.

Lemma consuming_consumed_upto t n block o :
  tables_wf t → o ∈ ct_tx_out t → block ≤ n →
  length (alive block (consuming_consumed (upto n t) (out_upto t n o))) =
  length (alive block (consuming_consumed t o)).
Proof.
  intros Hwf Ho Hn. unfold consuming_consumed. cbn [co_consumed_by_tx_id out_upto].
  destruct (co_consumed_by_tx_id o) as [id|] eqn:Hc.
  2:{ rewrite !filter_none by done. done. }
  destruct (wf_consumed_tx t Hwf o id Ho Hc) as (x & Hx & <-).
  assert (filter (λ y, Some (cx_id x) = Some (cx_id y)) (ct_tx t) = [x]) as Hxs.
  { rewrite <-(filter_by_key cx_id _ x (wf_tx_ids t Hwf) Hx). apply list_filter_iff.
    intros y. split; congruence. }
  rewrite Hxs. cbn [left_join fmap list_fmap].
  destruct (wf_tx_block t Hwf x Hx) as (b & Hb & Hid).
  destruct (tx_upto t n (cx_id x)) eqn:Hup.
  - assert (filter (λ y, Some (cx_id x) = Some (cx_id y)) (ct_tx (upto n t)) = [x]) as ->.
    { rewrite <-Hxs. apply filter_sub. intros y _ [= <-]. by apply Is_true_true. }
    cbn [left_join fmap list_fmap mbind list_bind]. by rewrite consuming_of_tx_upto by (done || by apply Is_true_true).
  - rewrite (filter_none _ (ct_tx (upto n t))) by done. rewrite bind_cons, app_nil_r.
    rewrite (consuming_of_tx_eq t x b) by done. simpl.
    assert (¬ tx_upto t n (cx_id x)) as Hno by (rewrite Hup; intros []).
    by rewrite (alive_later t n block x b Hwf Hx Hb Hid Hno Hn).
Qed.

Lemma consuming_enabled_upto t n block o :
  tables_wf t → o ∈ ct_tx_out t → block ≤ n →
  length (alive block (consuming_enabled (upto n t) (out_upto t n o))) =
  length (alive block (consuming_enabled t o)).
Proof.
  intros Hwf Ho Hn. unfold consuming_enabled. cbn [co_tx_id co_index out_upto].
  set (P := λ i, ci_tx_out_id i = co_tx_id o ∧ ci_tx_out_index i = co_index o).
  destruct (filter P (ct_tx_in t)) as [|i l] eqn:Hf.
  { rewrite (filter_none P (ct_tx_in (upto n t))); [done|].
    intros i [_ Hi]%list_elem_of_filter HP. apply (not_elem_of_nil i). rewrite <-Hf.
    by apply list_elem_of_filter. }
  assert (i ∈ filter P (ct_tx_in t)) as [HP Hi]%list_elem_of_filter by (rewrite Hf; left).
  assert (l = []) as ->.
  { pose proof (filter_by_key (λ i, (ci_tx_out_id i, ci_tx_out_index i)) _ i (wf_in_once t Hwf) Hi) as Hu.
    rewrite (list_filter_iff _ P) in Hu; [by rewrite Hf in Hu; injection Hu|].
    intros j. unfold P. destruct HP as [-> ->]. split; [by intros [= ? ?]|by intros [-> ->]]. }
  destruct (wf_in_tx t Hwf i Hi) as (x & Hx & Hxi).
  destruct (wf_tx_block t Hwf x Hx) as (b & Hb & Hid).
  assert (filter (λ y, cx_id y = ci_tx_in_id i) (ct_tx t) = [x]) as Hxs.
  { rewrite <-Hxi. apply (filter_by_key cx_id); [apply Hwf|done]. }
  destruct (tx_upto t n (ci_tx_in_id i)) eqn:Hup.
  - assert (filter P (ct_tx_in (upto n t)) = [i]) as ->.
    { rewrite <-Hf. apply filter_sub. intros j Hj HPj. apply Is_true_true. rewrite <-Hup. f_equal.
      assert (j ∈ filter P (ct_tx_in t)) as Hin by (by apply list_elem_of_filter).
      rewrite Hf in Hin. by apply list_elem_of_singleton in Hin as ->. }
    cbn [left_join fmap list_fmap mbind list_bind on]. rewrite txs_upto by (by apply Is_true_true).
    rewrite Hxs. cbn [left_join fmap list_fmap mbind list_bind]. rewrite consuming_of_tx_upto; [done..|].
    rewrite Hxi. by apply Is_true_true.
  - assert (filter P (ct_tx_in (upto n t)) = []) as ->.
    { apply filter_none. intros j [Hjup Hj]%list_elem_of_filter HPj.
      assert (j ∈ filter P (ct_tx_in t)) as Hin by (by apply list_elem_of_filter).
      rewrite Hf in Hin. apply list_elem_of_singleton in Hin as ->. by rewrite Hup in Hjup. }
    cbn [left_join fmap list_fmap mbind list_bind on]. rewrite Hxs.
    cbn [left_join fmap list_fmap mbind list_bind]. rewrite (consuming_of_tx_eq t x b) by done.
    cbn [mbind list_bind app].
    assert (¬ tx_upto t n (cx_id x)) as Hno by (rewrite Hxi, Hup; intros []).
    by rewrite (alive_later t n block x b Hwf Hx Hb Hid Hno Hn).
Qed.

Lemma hash_of_output_upto t n o :
  tx_upto t n (co_tx_id o) → hash_of_output (upto n t) (Some o) = hash_of_output t (Some o).
Proof. intros Hup. unfold hash_of_output, on. by rewrite txs_upto. Qed.

Lemma inputs_enabled_upto t n x :
  tables_wf t → tx_upto t n (cx_id x) → inputs_enabled (upto n t) x = inputs_enabled t x.
Proof.
  intros Hwf Hup. unfold inputs_enabled.
  assert (filter (λ i, ci_tx_in_id i = cx_id x) (ct_tx_in (upto n t)) =
          filter (λ i, ci_tx_in_id i = cx_id x) (ct_tx_in t)) as ->.
  { apply filter_sub. by intros i _ ->. }
  apply bind_ext. intros [i|] Hi; [|done]. apply left_join_elem in Hi as [Hi Hin].
  assert (tx_upto t n (ci_tx_out_id i)) as Hpast.
  { apply (wf_in_past t Hwf); [done|by rewrite Hi]. }
  cbn [on ct_tx_out upto]. rewrite filter_fmap, left_join_fmap, bind_fmap. unfold outs_upto.
  rewrite (filter_sub (λ o, co_tx_id (out_upto t n o) = ci_tx_out_id i ∧ co_index (out_upto t n o) = ci_tx_out_index i))
    by (intros o _ [Ho _]; simpl in Ho; by rewrite Ho).
  apply bind_ext. intros [o|] Ho; [|done]. unfold compose. cbn [option_map].
  apply left_join_elem in Ho as [[Ho _] _].
  rewrite (hash_of_output_upto t n (out_upto t n o)); [done|]. cbn [co_tx_id out_upto]. by rewrite Ho.
Qed.
Lemma inputs_consumed_upto t n x :
  tables_wf t → tx_upto t n (cx_id x) → inputs_consumed (upto n t) x = inputs_consumed t x.
Proof.
  intros Hwf Hup. unfold inputs_consumed. cbn [ct_tx_out upto].
  rewrite filter_fmap, left_join_fmap, bind_fmap. unfold outs_upto.
  assert (∀ o, co_consumed_by_tx_id (out_upto t n o) = Some (cx_id x) ↔ co_consumed_by_tx_id o = Some (cx_id x)) as Hsame.
  { intros o. simpl. destruct (co_consumed_by_tx_id o) as [id|]; [|done].
    destruct (tx_upto t n id) eqn:Hid; [done|]. split; [done|]. intros [= ->].
    by rewrite Hid in Hup. }
  rewrite (list_filter_iff _ (λ o, co_consumed_by_tx_id o = Some (cx_id x))) by done.
  rewrite filter_sub by (intros o Ho Hc; exact (wf_consumed_past t Hwf n o _ Ho Hc Hup)).
  apply bind_ext. intros [o|] Ho; [|done]. unfold compose. cbn [option_map].
  apply left_join_elem in Ho as [Hc Ho].
  rewrite (hash_of_output_upto t n (out_upto t n o)); [done|]. exact (wf_consumed_past t Hwf n o _ Ho Hc Hup).
Qed.

(** A query for a block of the prefix sees only the prefix. *)
Lemma utxo_rows_upto t n consuming consuming' inputs inputs' address block :
  tables_wf t → block ≤ n →
  (∀ o, o ∈ ct_tx_out t →
    length (alive block (consuming' (out_upto t n o))) = length (alive block (consuming o))) →
  (∀ x, tx_upto t n (cx_id x) → inputs' x = inputs x) →
  utxo_rows consuming' inputs' (upto n t) address block = utxo_rows consuming inputs t address block.
Proof.
  intros Hwf Hn Hcons Hins. unfold utxo_rows.
  assert (∀ x b, b ∈ filter (λ b, cb_id b = cx_block_id x ∧ sql_le (cb_no b) (Some block)) (ct_block t) →
    b ∈ ct_block t ∧ cb_id b = cx_block_id x ∧ block_upto n b) as Hold.
  { intros x b [[Hid He] Hb]%list_elem_of_filter. split_and!; [done..|]. unfold block_upto.
    destruct (cb_no b); [|done]. apply bool_decide_unpack in He. apply bool_decide_pack. lia. }
  symmetry. rewrite (bind_filter (λ o, tx_upto t n (co_tx_id o))).
  2:{ intros o _ (x & [Hx Hxin]%list_elem_of_filter & (b & (? & ? & ?)%Hold & _)%bind_not_nil)%bind_not_nil.
      rewrite <-Hx. by eapply tx_upto_intro. }
  cbn [ct_tx_out upto]. rewrite filter_fmap, bind_fmap.
  replace (filter (λ o, tx_upto t n (co_tx_id o)) (filter (λ o, co_address o = address) (ct_tx_out t)))
    with (filter (λ o, co_address (out_upto t n o) = address) (outs_upto t n)).
  2:{ unfold outs_upto. rewrite !list_filter_filter. apply list_filter_iff. simpl. tauto. }
  apply bind_ext. intros o [_ Ho]%list_elem_of_filter.
  pose proof Ho as [Htx Hoin]%list_elem_of_filter.
  unfold compose. cbn [co_tx_id out_upto]. rewrite txs_upto by done.
  apply bind_ext. intros x [Hx Hxin]%list_elem_of_filter.
  rewrite blocks_upto by (intros b Hb Hle; apply (Hold x b); by apply list_elem_of_filter).
  apply bind_ext. intros b _. rewrite Hins by (by rewrite Hx). cbn [co_data_hash co_index co_address out_upto].
  rewrite datums_upto by done. apply bind_constant. symmetry. by apply Hcons.
Qed.

Lemma utxos_for_address_upto t n address block config :
  tables_wf t → block ≤ n →
  get_utxos_for_address (Ok (upto n t)) address block config =
  get_utxos_for_address (Ok t) address block config.
Proof.
  intros Hwf Hn. unfold get_utxos_for_address. cbn [mbind outcome_bind]. do 2 f_equal.
  destruct config; apply utxo_rows_upto; auto using consuming_enabled_upto, consuming_consumed_upto,
    inputs_enabled_upto, inputs_consumed_upto.
Qed.
End Prefix.

(** ** A chain that grows

    [final_block] is the number up to which blocks are not rolled back. *)

Section Chain.
Context `{!CandidatesLib}.
Context (security_parameter : Z).

Record Chain : Type := { final_block : Z; db_tables : CTables }.
(** The security parameter is one: what is that far below a block is final.  The
    latest stable epoch is a number. *)
Record chain_wf (c : Chain) : Prop := {
  chain_tables : tables_wf (db_tables c);
  chain_final b m : b ∈ ct_block (db_tables c) → cb_no b = Some m → m - security_parameter ≤ final_block c;
  chain_stable r :
    head (c_order_by (λ a b, b.1 ?= a.1) (stable_rows (db_tables c) security_parameter)) = Some r →
    ∃ e, r.2 = Some e ∧ 0 ≤ e;
}.
(** Blocks may come and go above the final one.  What is recorded of the final
    ones, their datums included, stays. *)
Definition advance (c c' : Chain) : Prop :=
  chain_wf c' ∧ final_block c ≤ final_block c' ∧
  upto (final_block c) (db_tables c') = upto (final_block c) (db_tables c).

(** The documented behaviour of the parameters. *)
Record CandidatesLaws : Prop := {
  c_order_by_perm {Row} (cmp : Row → Row → comparison) l : c_order_by cmp l ≡ₚ l;
  epoch_number_from_eq z : 0 ≤ z → epoch_number_from z = z;
}.
Context (Hlaws : CandidatesLaws).

(** Tables that answer the queries for an epoch alike. *)
Record same_answers (e : Z) (t t' : CTables) : Prop := {
  same_block : get_latest_block_for_epoch (Ok t) e = get_latest_block_for_epoch (Ok t') e;
  same_utxos b address config : get_latest_block_for_epoch (Ok t) e = Ok (Some b) →
    get_utxos_for_address (Ok t) address (eb_block_no b) config =
    get_utxos_for_address (Ok t') address (eb_block_no b) config;
  same_stake : get_stake_distribution (Ok t) e = get_stake_distribution (Ok t') e;
  same_token policy name :
    get_token_utxo_for_epoch (Ok t) policy name e = get_token_utxo_for_epoch (Ok t') policy name e;
}.
#[export] Instance same_answers_equivalence e : Equivalence (same_answers e).
Proof.
  split.
  - done.
  - intros t t' [Hb Hu Hs Ht]. split; [done| |done|done]. intros b a cf Hb'. symmetry. apply Hu. by rewrite Hb.
  - intros t t' t'' [Hb Hu Hs Ht] [Hb' Hu' Hs' Ht']. split; [congruence| |congruence|by intros; rewrite Ht].
    intros b a cf Hl. rewrite Hu by done. apply Hu'. by rewrite <-Hb.
Qed.

Definition settled (c : Chain) (e : Z) : Prop := past_epoch (db_tables c) (final_block c) e.

Lemma settled_le c e f : settled c e → f ≤ e → settled c f.
Proof. intros (b & m & g & ? & ? & ? & ? & ?) ?. exists b, m, g. split_and!; try done. lia. Qed.

Lemma head_ordered {Row} (cmp : Row → Row → comparison) l r : head (c_order_by cmp l) = Some r → r ∈ l.
Proof. intros Hr%head_Some_elem_of. by rewrite (c_order_by_perm Hlaws cmp l) in Hr. Qed.

Lemma upto_same_answers t n e :
  tables_wf t → past_epoch t n e → same_answers e (upto n t) t.
Proof.
  intros Hwf Hpast. split; auto using latest_block_upto, stake_distribution_upto, token_utxo_upto.
  intros b address config Hb. apply utxos_for_address_upto; [done|].
  unfold get_latest_block_for_epoch in Hb. injection Hb as Hb%head_ordered.
  apply list_elem_of_filter in Hb as [_ (k & [Hk _]%list_elem_of_filter & Hblk)%list_elem_of_omap].
  unfold block_upto in Hk. unfold epoch_block in Hblk.
  destruct (cb_no k), (cb_epoch k), (cb_slot k); simplify_eq/=. by apply bool_decide_unpack in Hk.
Qed.

Lemma past_epoch_upto t n e : past_epoch (upto n t) n e ↔ past_epoch t n e.
Proof.
  split; intros (b & m & f & Hb & Hm & Hmn & Hf & He); exists b, m, f; split_and!; try done.
  - by apply list_elem_of_filter in Hb as [_ ?].
  - apply list_elem_of_filter. split; [|done]. unfold block_upto. rewrite Hm. by apply bool_decide_pack.
Qed.

Lemma advance_settled c c' e :
  chain_wf c → advance c c' → settled c e → settled c' e ∧ same_answers e (db_tables c) (db_tables c').
Proof.
  intros Hwf (Hwf' & Hle & Hup) Hs. unfold settled in *.
  assert (past_epoch (db_tables c') (final_block c) e) as Hs'.
  { apply past_epoch_upto. rewrite Hup. by apply past_epoch_upto. }
  split.
  - destruct Hs' as (b & m & f & ? & ? & ? & ? & ?). exists b, m, f. split_and!; try done. lia.
  - transitivity (upto (final_block c) (db_tables c)).
    + symmetry. apply upto_same_answers; [apply Hwf|done].
    + rewrite <-Hup. apply upto_same_answers; [apply Hwf'|done].
Qed.

Lemma advances_settled c c' e :
  rtc advance c c' → chain_wf c → settled c e →
  chain_wf c' ∧ settled c' e ∧ same_answers e (db_tables c) (db_tables c').
Proof.
  induction 1 as [c|c c1 c2 Hadv _ IH]; intros Hwf Hs; [done|].
  destruct (advance_settled c c1 e Hwf Hadv Hs) as [Hs1 Hsame].
  destruct (IH (proj1 Hadv) Hs1) as (? & ? & ?). split_and!; [done..|]. by transitivity (db_tables c1).
Qed.
Lemma advances_wf c c' : rtc advance c c' → chain_wf c → chain_wf c'.
Proof. induction 1 as [|c c1 c2 Hadv _ IH]; intros Hwf; [done|]. apply IH, Hadv. Qed.

(** What the query for the latest stable epoch returns is settled. *)
Lemma latest_stable_settled c e :
  chain_wf c → get_latest_stable_epoch (Ok (db_tables c)) security_parameter = Ok (Some e) → settled c e.
Proof.
  intros Hwf He. unfold get_latest_stable_epoch in He. cbn [mbind outcome_bind] in He.
  destruct (head _) as [r|] eqn:Hr; [|done].
  destruct (chain_stable c Hwf r Hr) as (e' & Hr2 & Hpos). rewrite Hr2 in He. injection He as <-.
  rewrite (epoch_number_from_eq Hlaws) by done. apply head_ordered in Hr. unfold stable_rows in Hr.
  apply list_elem_of_bind in Hr as (b & (s & Hr & Hs)%list_elem_of_bind & Hb).
  destruct (cb_no b) as [n|] eqn:Hn; [|by apply elem_of_nil in Hr].
  destruct (cb_no s) as [m|] eqn:Hm; [|by apply elem_of_nil in Hr].
  case_bool_decide as Heq; [|by apply elem_of_nil in Hr]. apply list_elem_of_singleton in Hr as ->.
  simpl in Hr2. destruct (cb_epoch s) as [f|] eqn:Hf; [|done]. injection Hr2 as <-.
  exists s, m, f. split_and!; [done..| |done|lia].
  rewrite <-Heq. by apply (chain_final c Hwf b).
Qed.

(** ** Requests to the cached source *)

(** Every query answered from the same tables. *)
Definition all_queries (q : outcome CSqlxError CTables) : Snapshots :=
  {| sn_stable := q; sn_token := q; sn_block := q; sn_exists := q; sn_populated := q;
     sn_utxos := q; sn_stake := q |}.
(** A query fails or sees the chain at a moment between [c] and [c']. *)
Definition sees (c c' : Chain) (q : outcome CSqlxError CTables) : Prop :=
  (∃ e, q = Err e) ∨ ∃ d, rtc advance c d ∧ rtc advance d c' ∧ q = Ok (db_tables d).
(** The stable epoch is queried before everything else. *)
Definition observed (c : Chain) (w : Snapshots) (c' : Chain) : Prop :=
  ∃ d, rtc advance c d ∧ ((∃ e, sn_stable w = Err e) ∨ sn_stable w = Ok (db_tables d)) ∧
    rtc advance d c' ∧
    Forall (sees d c') [sn_token w; sn_block w; sn_exists w; sn_populated w; sn_utxos w; sn_stake w].

(** A cell that is not set may still become anything. *)
Definition compatible (cell : option TxInConfiguration) (config : TxInConfiguration) : Prop :=
  cell = None ∨ cell = Some config.

(** A query whose answer the settled tables have too. *)
Definition answers (e : Z) (t : CTables) (q : outcome CSqlxError CTables) : Prop :=
  ∀ t', q = Ok t' → same_answers e t' t.

Definition assemble (stakes : list StakePoolEntry) (l : list RegisteredCandidate) : list CandidateRegistrations :=
  (λ g, {| cr_stake_pool_public_key := g.1;
           cr_registrations := make_registration_data <$> g.2;
           cr_stake_delegation := get_stake_delegation (make_stake_map stakes) g.1 |})
    <$> group_candidates_by_mc_pub_key l.

Lemma tx_in_config_ok w cell config cell' :
  get_tx_in_config w cell = (Ok config, cell') → cell' = Some config ∧ (cell = None ∨ cell = Some config).
Proof.
  unfold get_tx_in_config, mbind, M_bind, gets, lift, modify, mret, M_ret. destruct cell as [c|].
  - intros [= -> <-]. auto.
  - destruct (map_err _ _); [|done..]. intros [= -> <-]. auto.
Qed.
Lemma map_err_ok {E E' A} (f : E → E') (r : outcome E A) a : map_err f r = Ok a ↔ r = Ok a.
Proof. destruct r; naive_solver. Qed.

Lemma registered_ok w e address cell r cell' :
  get_registered_candidates w e address cell = (Ok r, cell') ↔
  ∃ b, get_latest_block_for_epoch (sn_block w) e = Ok b ∧
    match b with
    | None => r = [] ∧ cell' = cell
    | Some b => ∃ config u, get_tx_in_config w cell = (Ok config, cell') ∧
        get_utxos_for_address (sn_utxos w) address (eb_block_no b) config = Ok u ∧
        r = convert_utxos_to_candidates u
    end.
Proof.
  unfold get_registered_candidates, mbind, M_bind, lift, mret, M_ret.
  destruct (get_latest_block_for_epoch _ _) as [[b|]|e'|]; cbn [map_err]; [|naive_solver..].
  destruct (get_tx_in_config w cell) as [[config|?|] cell1]; [|naive_solver..].
  destruct (get_utxos_for_address _ _ _ _) as [u|?|] eqn:Hu; cbn [map_err]; (split;
    [intros [= <- <-]; exists (Some b); eauto 10|intros (b' & [= <-] & c & u' & [= <- <-] & Hu' & ->); congruence]).
Qed.
Lemma candidates_ok w epoch address cell r cell' :
  get_candidates w epoch address cell = (Ok r, cell') ↔
  ∃ e l st, get_epoch_of_data_storage epoch = Ok e ∧ get_registered_candidates w e address cell = (Ok l, cell') ∧
    get_stake_distribution (sn_stake w) e = Ok st ∧ r = assemble st l.
Proof.
  unfold get_candidates, mbind, M_bind, lift, mret, M_ret.
  destruct (get_epoch_of_data_storage epoch) as [e|?|]; [|naive_solver..].
  destruct (get_registered_candidates w e address cell) as [[l|?|] c1] eqn:Hl.
  2,3: split; [done|]; intros (e' & l' & st' & [= <-] & Hl' & _); congruence.
  destruct (get_stake_distribution _ _) as [st|?|] eqn:Hst; cbn [map_err]; (split;
    [intros [= <- <-]; eauto 10|intros (e' & l' & st' & [= <-] & Hl' & Hst' & ->); rewrite Hl in Hl'; rewrite Hst in Hst'; by simplify_eq]).
Qed.

(** A query that succeeded has the answer of tables that agree with it. *)
Lemma answered {A} e t q (f : outcome CSqlxError CTables → outcome CSqlxError A) a :
  answers e t q → (∀ t', same_answers e t' t → f (Ok t') = f (Ok t)) →
  (∀ x, f (Err x) = Err x) → f Panic = Panic → f q = Ok a → f (Ok t) = Ok a.
Proof.
  intros Hq Hf He Hp Ha. destruct q as [t'|x|]; [|by rewrite He in Ha|by rewrite Hp in Ha].
  by rewrite <-(Hf t') by auto.
Qed.

Lemma get_candidates_answers w e t epoch address cell r cell' config :
  get_epoch_of_data_storage epoch = Ok e →
  answers e t (sn_block w) → answers e t (sn_utxos w) → answers e t (sn_stake w) →
  get_candidates w epoch address cell = (Ok r, cell') → compatible cell' config →
  get_candidates (all_queries (Ok t)) epoch address (Some config) = (Ok r, Some config).
Proof.
  intros He Hblock Hutxos Hstake (e' & l & st & He' & (b & Hb & Hl)%registered_ok & Hst & ->)%candidates_ok Hc.
  rewrite He in He'. injection He' as <-. apply candidates_ok. exists e, l, st. split; [done|].
  cbn [sn_stake all_queries].
  apply (answered e t _ (λ q, get_stake_distribution q e)) in Hst; [|done|auto using same_stake|done..].
  split; [|done]. apply registered_ok. exists b. cbn [sn_block sn_utxos all_queries].
  apply (answered e t _ (λ q, get_latest_block_for_epoch q e)) in Hb; [|done|auto using same_block|done..].
  split; [done|]. destruct b as [b|]; [|by destruct Hl as [-> _]].
  destruct Hl as (config' & u & [Hcell _]%tx_in_config_ok & Hu & ->).
  assert (config' = config) as ->. { destruct Hc; congruence. }
  exists config, u. split; [done|]. split; [|done].
  apply (answered e t _ (λ q, get_utxos_for_address q address (eb_block_no b) config)) in Hu; try done.
  intros t' Hs. apply same_utxos with e; [done|]. rewrite <-Hb. by apply same_block.
Qed.

Lemma get_ariadne_answers w e t epoch policy r :
  get_epoch_of_data_storage epoch = Ok e → answers e t (sn_token w) →
  get_ariadne_parameters w epoch policy = Ok r →
  get_ariadne_parameters (all_queries (Ok t)) epoch policy = Ok r.
Proof.
  intros He Htoken. unfold get_ariadne_parameters. rewrite He. cbn [mbind outcome_bind sn_token all_queries].
  destruct (get_token_utxo_for_epoch (sn_token w) policy [] e) as [x|?|] eqn:Hx; [|done..].
  apply (answered e t _ (λ q, get_token_utxo_for_epoch q policy [] e)) in Hx; [|done|auto using same_token|done..].
  by rewrite Hx.
Qed.

(** ** The cached source over the life of a chain *)

Context (cache_size : Z).
Notation cached_candidates := (cached_get_candidates cache_size security_parameter).
Notation cached_ariadne := (cached_get_ariadne_parameters cache_size security_parameter).

(** Requests are answered one after the other. *)
Inductive run : Chain → CandidateDataSourceCached → Prop :=
| run_new c s : chain_wf c → cached_new cache_size = Ok s → run c s
| run_advance c c' s : run c s → advance c c' → run c' s
| run_candidates c w c' s epoch address :
    run c s → observed c w c' → run c' (cached_candidates w epoch address s).2
| run_ariadne c w c' s epoch d_policy policy :
    run c s → observed c w c' → run c' (cached_ariadne w epoch d_policy policy s).2.

Record cache_inv (c : Chain) (s : CandidateDataSourceCached) : Prop := {
  inv_wf : chain_wf c;
  inv_seen e : highest_seen_stable_epoch s = Some e → settled c e;
  inv_candidates epoch address r : ((epoch, address), r) ∈ candidates_cache s →
    ∃ e, get_epoch_of_data_storage epoch = Ok e ∧ settled c e ∧
      ∀ config, compatible (tx_in_cell s) config →
        get_candidates (all_queries (Ok (db_tables c))) epoch address (Some config) = (Ok r, Some config);
  inv_ariadne epoch d_policy policy r : ((epoch, d_policy, policy), r) ∈ ariadne_cache s →
    ∃ e, get_epoch_of_data_storage epoch = Ok e ∧ settled c e ∧
      get_ariadne_parameters (all_queries (Ok (db_tables c))) epoch policy = Ok r;
}.

Lemma answers_one e t t' : same_answers e t' t → answers e t (Ok t').
Proof. by intros ? t'' [= <-]. Qed.

Lemma sees_answers c c' e q :
  chain_wf c → settled c e → sees c c' q → answers e (db_tables c') q.
Proof.
  intros Hwf Hset [[x ->]|(d & Hcd & Hdc & ->)]; [done|]. apply answers_one.
  destruct (advances_settled c d e Hcd Hwf Hset) as (Hwfd & Hsetd & _).
  by destruct (advances_settled d c' e Hdc Hwfd Hsetd) as (_ & _ & ?).
Qed.

Lemma inv_advances c c' s : rtc advance c c' → cache_inv c s → cache_inv c' s.
Proof.
  intros Hadv Hinv. pose proof (inv_wf c s Hinv) as Hwf. split.
  - by apply (advances_wf c).
  - intros e He. by apply (advances_settled c c' e), Hinv.
  - intros epoch address r (e & He & Hs & Hr)%(inv_candidates c s Hinv).
    destruct (advances_settled c c' e Hadv Hwf Hs) as (_ & Hs' & Hsame).
    exists e. split_and!; [done..|]. intros config Hc.
    eapply (get_candidates_answers (all_queries (Ok (db_tables c))) e);
      [done|by apply answers_one..|by apply Hr|by right].
  - intros epoch d_policy policy r (e & He & Hs & Hr)%(inv_ariadne c s Hinv).
    destruct (advances_settled c c' e Hadv Hwf Hs) as (_ & Hs' & Hsame).
    exists e. split_and!; [done..|].
    by eapply (get_ariadne_answers (all_queries (Ok (db_tables c))) e), Hr; [|apply answers_one].
Qed.

(** A permission to cache means that the epoch of the data is settled. *)
Lemma can_use_caching_ok d w s epoch r s' :
  cache_inv d s → (∃ e, sn_stable w = Err e) ∨ sn_stable w = Ok (db_tables d) →
  can_use_caching_for_request security_parameter w epoch s = (r, s') →
  cache_inv d s' ∧ candidates_cache s' = candidates_cache s ∧ ariadne_cache s' = ariadne_cache s ∧
  tx_in_cell s' = tx_in_cell s ∧
  (r = Ok true → ∃ e, get_epoch_of_data_storage epoch = Ok e ∧ settled d e).
Proof.
  intros Hinv Hw. unfold can_use_caching_for_request, mbind, M_bind, lift, gets, modify, mret, M_ret.
  destruct (get_epoch_of_data_storage epoch) as [e|?|] eqn:He; [|by intros [= <- <-]..].
  destruct (match highest_seen_stable_epoch s with Some _ => _ | None => _ end) eqn:Hseen.
  { intros [= <- <-]. split_and!; [done..|]. intros _. exists e. split; [done|].
    destruct (highest_seen_stable_epoch s) as [h|] eqn:Hh; [|done].
    apply bool_decide_eq_true in Hseen. by apply (settled_le d h), Hseen; apply Hinv. }
  destruct Hw as [[x ->]| ->]; [by intros [= <- <-]|].
  destruct (get_latest_stable_epoch _ _) as [[h|]|?|] eqn:Hh; [|by intros [= <- <-]..].
  apply latest_stable_settled in Hh; [|apply Hinv]. cbn. intros [= <- <-].
  split_and!; [|done..|].
  - split; [apply Hinv|by intros ? [= <-]|apply Hinv..].
  - intros [= Hle%bool_decide_eq_true]. exists e. split; [done|]. by apply (settled_le d h).
Qed.

Lemma lru_get_elem {K V} `{!EqDecision K} (k : K) (l : list (K * V)) v l' :
  lru_get k l = Some (v, l') → (k, v) ∈ l ∧ ∀ x, x ∈ l' → x ∈ l.
Proof.
  unfold lru_get. destruct (filter _ l) as [|[k1 v1] f] eqn:Hf; [done|]. intros [= <- <-].
  assert ((k1, v1) ∈ filter (λ e, e.1 = k) l) as [Hk Hin]%list_elem_of_filter by (rewrite Hf; left).
  simpl in Hk. subst k1. split; [done|].
  intros x [->|[_ ?]%list_elem_of_filter]%elem_of_cons; done.
Qed.
Lemma lru_put_elem {K V} `{!EqDecision K} cap (k : K) (v : V) l x :
  x ∈ lru_put cap k v l → x = (k, v) ∨ x ∈ l.
Proof.
  unfold lru_put. intros (i & Hi%list_elem_of_lookup_2 & _)%elem_of_take.
  apply elem_of_cons in Hi as [?|[_ ?]%list_elem_of_filter]; auto.
Qed.

Lemma lru_get_again {K V} `{!EqDecision K} (k : K) (l : list (K * V)) v l' :
  lru_get k l = Some (v, l') → ∃ l'', lru_get k l' = Some (v, l'').
Proof.
  unfold lru_get. destruct (filter _ l) as [|[k1 v1] f] eqn:Hf; [done|]. intros [= <- <-].
  assert ((k1, v1) ∈ filter (λ e, e.1 = k) l) as [Hk _]%list_elem_of_filter by (rewrite Hf; left).
  rewrite filter_cons, decide_True by done. eauto.
Qed.
Lemma lru_get_put {K V} `{!EqDecision K} cap (k : K) (v : V) l :
  (1 ≤ cap)%nat → ∃ l', lru_get k (lru_put cap k v l) = Some (v, l').
Proof.
  intros Hcap. unfold lru_get, lru_put. destruct cap as [|cap]; [lia|]. simpl.
  rewrite filter_cons, decide_True by done. eauto.
Qed.

(** A set cell stays as it is. *)
Lemma candidates_cell w epoch address cell r cell' config :
  get_candidates w epoch address cell = (r, cell') → compatible cell' config → compatible cell config.
Proof.
  destruct cell as [c|]; [|by left].
  intros Hr. enough (cell' = Some c) as ->; [done|]. revert Hr.
  unfold get_candidates, get_registered_candidates, get_tx_in_config, mbind, M_bind, lift, gets, mret, M_ret.
  destruct (get_epoch_of_data_storage epoch) as [e|?|]; [|naive_solver..].
  destruct (get_latest_block_for_epoch _ _) as [[b|]|?|]; cbn [map_err]; [| |naive_solver..].
  - destruct (get_utxos_for_address _ _ _ _); cbn [map_err]; [|naive_solver..].
    destruct (get_stake_distribution _ _); cbn [map_err]; naive_solver.
  - destruct (get_stake_distribution _ _); cbn [map_err]; naive_solver.
Qed.

Lemma inner_inv c w epoch address s r s' :
  cache_inv c s → inner_get_candidates w epoch address s = (r, s') →
  cache_inv c s' ∧ s' = set_tx_in_cell (tx_in_cell s') s.
Proof.
  intros Hinv. unfold inner_get_candidates, zoom.
  destruct (get_candidates w epoch address (tx_in_cell s)) as [r1 cell'] eqn:Hr. intros [= <- <-].
  split; [|done]. split; [apply Hinv..| |apply Hinv].
  intros ep a r' (e & He & Hs & Hr')%(inv_candidates c s Hinv). exists e. split_and!; [done..|].
  intros config Hc. apply Hr'. by eapply candidates_cell.
Qed.

Lemma cached_with_inv c c' w e epoch address s r s' :
  cache_inv c s → rtc advance c c' → settled c e → get_epoch_of_data_storage epoch = Ok e →
  Forall (sees c c') [sn_block w; sn_utxos w; sn_stake w] →
  get_candidates_with_caching cache_size w epoch address s = (r, s') → cache_inv c' s'.
Proof.
  intros Hinv Hadv Hset He Hsees. unfold get_candidates_with_caching, mbind, M_bind, gets, modify, mret, M_ret.
  destruct (lru_get (epoch, address) (candidates_cache s)) as [[v l]|] eqn:Hget.
  { apply lru_get_elem in Hget as [_ Hl]. intros [= <- <-]. apply (inv_advances c); [done|].
    split; [apply Hinv..| |apply Hinv]. intros ep a r' Hin. by apply Hinv, Hl. }
  destruct (inner_get_candidates w epoch address s) as [r1 s1] eqn:Hr.
  pose proof (inner_inv c w epoch address s r1 s1 Hinv Hr) as [Hinv1%(inv_advances c c' s1 Hadv) _].
  destruct r1 as [v|?|]; [|by intros [= <- <-]..]. intros [= <- <-].
  split; [apply Hinv1..| |apply Hinv1].
  intros ep a r' [[= -> -> ->]|Hin]%lru_put_elem; [|by apply Hinv1].
  destruct (advances_settled c c' e Hadv (inv_wf c s Hinv) Hset) as (_ & Hset' & _).
  exists e. split_and!; [done..|]. intros config Hc.
  pose proof (sees_answers c c' e) as Hans.
  unfold inner_get_candidates, zoom in Hr.
  destruct (get_candidates w epoch address (tx_in_cell s)) as [r2 cell'] eqn:Hg. injection Hr as -> <-.
  apply Forall_cons in Hsees as [? [? [? _]%Forall_cons]%Forall_cons].
  eapply (get_candidates_answers w e); eauto using inv_wf.
Qed.
Lemma cached_ariadne_with_inv c c' w e epoch d_policy policy s r s' :
  cache_inv c s → rtc advance c c' → settled c e → get_epoch_of_data_storage epoch = Ok e →
  sees c c' (sn_token w) →
  get_ariadne_parameters_with_caching cache_size w epoch d_policy policy s = (r, s') → cache_inv c' s'.
Proof.
  intros Hinv Hadv Hset He Hsees.
  unfold get_ariadne_parameters_with_caching, mbind, M_bind, gets, lift, modify, mret, M_ret.
  pose proof (inv_advances c c' s Hadv Hinv) as Hinv1.
  destruct (lru_get (epoch, d_policy, policy) (ariadne_cache s)) as [[v l]|] eqn:Hget.
  { apply lru_get_elem in Hget as [_ Hl]. intros [= <- <-].
    split; [apply Hinv1..|]. intros ep dp po r' Hin. by eapply inv_ariadne, Hl. }
  destruct (get_ariadne_parameters w epoch policy) as [v|?|] eqn:Hr; [|by intros [= <- <-]..].
  intros [= <- <-]. split; [apply Hinv1..|].
  intros ep dp po r' [[= -> -> -> ->]|Hin]%lru_put_elem; [|by eapply inv_ariadne].
  destruct (advances_settled c c' e Hadv (inv_wf c s Hinv) Hset) as (_ & Hset' & _).
  exists e. split_and!; [done..|]. eapply (get_ariadne_answers w e); eauto using sees_answers, inv_wf.
Qed.

Lemma request_inv {A} c w c' epoch (with_cache without : M CandidateDataSourceCached CandidatesError A) s :
  cache_inv c s → observed c w c' →
  (∀ d e s r s', rtc advance d c' →
    Forall (sees d c') [sn_token w; sn_block w; sn_exists w; sn_populated w; sn_utxos w; sn_stake w] →
    cache_inv d s → settled d e → get_epoch_of_data_storage epoch = Ok e →
    with_cache s = (r, s') → cache_inv c' s') →
  (∀ s r s', cache_inv c' s → without s = (r, s') → cache_inv c' s') →
  cache_inv c' ((use ← can_use_caching_for_request security_parameter w epoch;
                 if (use : bool) then with_cache else without) s).2.
Proof.
  intros Hinv (d & Hcd & Hst & Hdc & Hsees) Hwith Hwithout. apply (inv_advances c d) in Hinv; [|done].
  unfold mbind, M_bind.
  destruct (can_use_caching_for_request security_parameter w epoch s) as [r s1] eqn:Huse.
  destruct (can_use_caching_ok d w s epoch r s1 Hinv Hst Huse) as (Hinv1 & _ & _ & _ & Hset).
  destruct r as [[|]|?|]; try by apply (inv_advances d c').
  - destruct (Hset eq_refl) as (e & He & Hse). destruct (with_cache s1) as [r2 s2] eqn:Hr. by eapply Hwith.
  - destruct (without s1) as [r2 s2] eqn:Hr. eapply Hwithout; [|done]. by apply (inv_advances d c').
Qed.

Lemma run_inv c s : run c s → cache_inv c s.
Proof.
  induction 1 as [c s Hwf Hnew|c c' s _ IH Hadv|c w c' s epoch address _ IH Hobs|c w c' s epoch dp po _ IH Hobs].
  - unfold cached_new in Hnew. case_bool_decide; [done|]. injection Hnew as <-.
    split; [done|done|by intros ? ? ? ?%elem_of_nil|by intros ? ? ? ? ?%elem_of_nil].
  - apply (inv_advances c); [by apply rtc_once|done].
  - apply (request_inv c w c'); [done..| |].
    + intros d e s1 r s2 Hdc Hsees Hinv1 Hset He Hr.
      apply (cached_with_inv d c' w e epoch address s1 r s2); [done..| |done].
      rewrite !Forall_cons in Hsees. rewrite !Forall_cons. tauto.
    + intros s1 r s2 Hinv1 Hr. by eapply inner_inv.
  - apply (request_inv c w c'); [done..| |].
    + intros d e s1 r s2 Hdc Hsees Hinv1 Hset He Hr.
      apply (cached_ariadne_with_inv d c' w e epoch dp po s1 r s2); [done..| |done].
      by apply Forall_cons in Hsees as [? _].
    + by intros s1 r s2 Hinv1 [= <- <-].
Qed.

(** A source whose cell is not set answers as with the setting it reads. *)
Lemma candidates_config t epoch address cell :
  ∃ config, compatible cell config ∧
    (get_candidates (all_queries (Ok t)) epoch address cell).1 =
    (get_candidates (all_queries (Ok t)) epoch address (Some config)).1.
Proof.
  destruct cell as [c|]; [exists c; split; [by right|done]|].
  assert (∃ c, from_connection (Ok t) (Ok t) = Ok c) as [c Hc].
  { unfold from_connection. simpl. destruct (ct_has_tx_in t); simpl; eauto. }
  exists c. split; [by left|].
  unfold get_candidates, get_registered_candidates, get_tx_in_config, mbind, M_bind, lift, gets, modify, mret, M_ret.
  cbn [sn_block sn_exists sn_populated sn_utxos sn_stake all_queries].
  destruct (get_epoch_of_data_storage epoch) as [e|?|]; [|done..].
  destruct (get_latest_block_for_epoch _ _) as [[b|]|?|]; cbn [map_err]; [|by destruct (get_stake_distribution _ _)|done..].
  rewrite Hc. cbn [map_err]. destruct (get_utxos_for_address _ _ _ _); cbn [map_err]; [|done..].
  by destruct (get_stake_distribution _ _).
Qed.

(** With its queries answered, the check fails only where the request does. *)
Lemma caching_total c epoch s r s' :
  chain_wf c →
  can_use_caching_for_request security_parameter (all_queries (Ok (db_tables c))) epoch s = (r, s') →
  (∃ use, r = Ok use) ∨ ∃ x, r = Err x ∧ get_epoch_of_data_storage epoch = Err x.
Proof.
  intros Hwf. unfold can_use_caching_for_request, mbind, M_bind, lift, gets, modify, mret, M_ret.
  unfold get_epoch_of_data_storage. destruct (offset_data_epoch epoch) as [x|e].
  { intros [= <- _]. eauto. }
  destruct (match highest_seen_stable_epoch s with Some _ => _ | None => _ end); [intros [= <- _]; eauto|].
  cbn [sn_stable all_queries]. unfold get_latest_stable_epoch. cbn [mbind outcome_bind].
  destruct (head _) as [row|] eqn:Hrow; [|intros [= <- _]; eauto].
  destruct (chain_stable c Hwf row Hrow) as (e' & -> & _). intros [= <- _]. eauto.
Qed.

(** C10: At every point of the life of a chain, after any requests before, some of
    them with failing queries and with the chain moving under them, the cached
    source answers what the source without a cache answers from the tables as they
    are now.  Blocks that are not final may be rolled back; what is recorded of the
    final ones has to stay. *)
Theorem cache_is_transparent c s epoch address d_policy policy :
  run c s →
  (cached_candidates (all_queries (Ok (db_tables c))) epoch address s).1 =
    (get_candidates (all_queries (Ok (db_tables c))) epoch address (tx_in_cell s)).1 ∧
  (cached_ariadne (all_queries (Ok (db_tables c))) epoch d_policy policy s).1 =
    get_ariadne_parameters (all_queries (Ok (db_tables c))) epoch policy.
Proof.
  intros Hinv%run_inv. unfold cached_get_candidates, cached_get_ariadne_parameters.
  destruct (can_use_caching_for_request security_parameter (all_queries (Ok (db_tables c))) epoch s)
    as [r s1] eqn:Huse.
  unfold mbind, M_bind. rewrite Huse.
  destruct (can_use_caching_ok c (all_queries (Ok (db_tables c))) s epoch r s1 Hinv (or_intror eq_refl) Huse)
    as (Hinv1 & Hcc & Hac & Hcell & Hset).
  assert (∀ s, (inner_get_candidates (all_queries (Ok (db_tables c))) epoch address s).1 =
    (get_candidates (all_queries (Ok (db_tables c))) epoch address (tx_in_cell s)).1) as Hinner.
  { intros s0. unfold inner_get_candidates, zoom. by destruct (get_candidates _ _ _ _). }
  rewrite <-Hcell.
  destruct (caching_total _ _ _ _ _ (inv_wf c s Hinv) Huse) as [[[|] ->]|(x & -> & Hx)]; cycle 2.
  { unfold get_candidates, get_ariadne_parameters. by rewrite Hx. }
  - unfold get_candidates_with_caching, get_ariadne_parameters_with_caching, mbind, M_bind, gets, modify, lift, mret, M_ret.
    split.
    + destruct (lru_get _ (candidates_cache s1)) as [[v l]|] eqn:Hget.
      * apply lru_get_elem in Hget as [(e & _ & _ & Hr)%(inv_candidates c s1 Hinv1) _].
        destruct (candidates_config (db_tables c) epoch address (tx_in_cell s1)) as (config & Hc & ->).
        by rewrite Hr.
      * rewrite <-Hinner. by destruct (inner_get_candidates _ _ _ _) as [[]].
    + destruct (lru_get _ (ariadne_cache s1)) as [[v l]|] eqn:Hget.
      * by apply lru_get_elem in Hget as [(e & _ & _ & Hr)%(inv_ariadne c s1 Hinv1) _].
      * by destruct (get_ariadne_parameters _ _ _).
  - split; [apply Hinner|done].
Qed.

Lemma caching_seen w epoch e h s :
  get_epoch_of_data_storage epoch = Ok e → highest_seen_stable_epoch s = Some h → e ≤ h →
  can_use_caching_for_request security_parameter w epoch s = (Ok true, s).
Proof.
  intros He Hh Hle. unfold can_use_caching_for_request, mbind, M_bind, lift, gets, mret, M_ret.
  rewrite He, Hh. by rewrite bool_decide_true.
Qed.
Lemma caching_allowed w epoch s s' :
  can_use_caching_for_request security_parameter w epoch s = (Ok true, s') →
  ∃ e h, get_epoch_of_data_storage epoch = Ok e ∧ highest_seen_stable_epoch s' = Some h ∧ e ≤ h.
Proof.
  unfold can_use_caching_for_request, mbind, M_bind, lift, gets, modify, mret, M_ret.
  destruct (get_epoch_of_data_storage epoch) as [e|?|]; [|done..].
  destruct (highest_seen_stable_epoch s) as [h|] eqn:Hh; [case_bool_decide|].
  { intros [= <-]. eauto. }
  all: destruct (get_latest_stable_epoch _ _) as [[g|]|?|]; cbn [map_err]; [|done..].
  all: intros [= Hle%bool_decide_eq_true <-]; cbn; eauto.
Qed.

(** Once a request for candidates was allowed to use the cache and answered,
    the same request again is answered alike, whatever its queries return: a
    failing database does not reach it. *)
Theorem repeated_request_needs_no_query w w' epoch address s r s' :
  1 ≤ cache_size →
  (can_use_caching_for_request security_parameter w epoch s).1 = Ok true →
  cached_candidates w epoch address s = (Ok r, s') →
  (cached_candidates w' epoch address s').1 = Ok r.
Proof.
  intros Hsize Huse. unfold cached_get_candidates, mbind, M_bind.
  destruct (can_use_caching_for_request security_parameter w epoch s) as [u s1] eqn:Hcan.
  simpl in Huse. subst u. destruct (caching_allowed _ _ _ _ Hcan) as (e & h & He & Hh & Hle).
  unfold get_candidates_with_caching, mbind, M_bind, gets, modify, mret, M_ret.
  destruct (lru_get (epoch, address) (candidates_cache s1)) as [[v l]|] eqn:Hget.
  - intros [= <- <-]. rewrite (caching_seen w' epoch e h) by done. cbn [candidates_cache set_candidates_cache].
    by destruct (lru_get_again _ _ _ _ Hget) as [l' ->].
  - destruct (inner_get_candidates w epoch address s1) as [[v|?|] s2] eqn:Hi; [|done..].
    intros [= <- <-]. rewrite (caching_seen w' epoch e h); [|done| |done].
    2:{ unfold inner_get_candidates, zoom in Hi. destruct (get_candidates _ _ _ _). by simplify_eq. }
    cbn [candidates_cache set_candidates_cache].
    by destruct (lru_get_put (Z.to_nat cache_size) (epoch, address) v (candidates_cache s2)) as [l' ->]; [lia|].
Qed.
End Chain.

(** ** What the candidates of an epoch are *)

Section Grouping.
Context `{!CandidatesLib}.

Lemma make_stake_map_lookup (l : list StakePoolEntry) k v :
  NoDup (pool_hash <$> l) →
  make_stake_map l !! k = Some v ↔ {| pool_hash := k; stake := v |} ∈ l.
Proof.
  unfold make_stake_map. induction l as [|x l IH] using rev_ind.
  { intros _. simpl. by rewrite lookup_empty, elem_of_nil. }
  rewrite fmap_app, foldl_app. intros (Hnd & Hx & _)%NoDup_app. simpl.
  rewrite elem_of_app, list_elem_of_singleton. destruct (decide (pool_hash x = k)) as [<-|Hne].
  - rewrite lookup_insert_eq. split; [intros [= <-]; right; by destruct x|].
    intros [Hin|<-]; [|done]. destruct (Hx (pool_hash x)); [|by left].
    apply list_elem_of_fmap. by exists {| pool_hash := pool_hash x; stake := v |}.
  - rewrite lookup_insert_ne, IH by done. split; [by left|]. intros [?|<-]; done.
Qed.

(** A pool has the sum of what is staked to it, and no pool has any stake when
    the epoch has no rows. *)
Lemma stake_delegation_sum t e key :
  get_stake_delegation (make_stake_map
    ((λ g, {| pool_hash := g.1; stake := zsum (λ a, a) g.2 |}) <$> group_by (stake_rows t e))) key =
  if bool_decide (stake_rows t e = []) then None
  else Some (zsum (λ a, a) (filter (λ r, r.1 = key_hash_from_vkey key) (stake_rows t e)).*2).
Proof.
  generalize (stake_rows t e). intros rows. destruct (group_by_spec rows) as [Hnd Hin].
  set (l := (λ g, {| pool_hash := g.1; stake := zsum (λ a, a) g.2 |}) <$> group_by rows).
  assert (NoDup (pool_hash <$> l)) as Hnd'.
  { unfold l. by rewrite <-list_fmap_compose. }
  unfold get_stake_delegation. destruct (decide (rows = [])) as [->|Hrows]; [done|].
  rewrite (bool_decide_false (rows = [])) by done.
  set (vs h := (filter (λ r, r.1 = h) rows).*2).
  assert (∀ h, vs h ≠ [] → make_stake_map l !! h = Some (zsum (λ a, a) (vs h))) as Hlook.
  { intros h Hne. apply make_stake_map_lookup; [done|]. apply list_elem_of_fmap.
    exists (h, vs h). split; [done|]. by apply Hin. }
  rewrite bool_decide_false.
  2:{ intros Hempty. destruct rows as [|r rows]; [done|]. specialize (Hlook r.1).
      rewrite Hempty, lookup_empty in Hlook. discriminate Hlook.
      unfold vs. by rewrite filter_cons, decide_True by done. }
  f_equal. destruct (decide (vs (key_hash_from_vkey key) = [])) as [Hnone|Hsome]; [|by rewrite Hlook].
  unfold vs in Hnone. rewrite Hnone. destruct (make_stake_map l !! _) as [v|] eqn:Hv; [|done].
  apply make_stake_map_lookup in Hv; [|done].
  apply list_elem_of_fmap in Hv as ([h ws] & [= <- ->] & [Hws ->]%Hin). by destruct Hws.
Qed.

(** The candidates of an epoch are the registrations found at the address,
    each under the key of its pool: no pool is listed twice, none is listed without
    a registration, none of its registrations is left out, and its stake is the sum
    of what is delegated to it in the epoch, unknown when the epoch has no stakes. *)
Theorem candidates_are_the_registrations w t epoch address cell r cell' :
  sn_stake w = Ok t →
  get_candidates w epoch address cell = (Ok r, cell') →
  ∃ e block outputs, get_epoch_of_data_storage epoch = Ok e ∧
    get_latest_block_for_epoch (sn_block w) e = Ok block ∧
    match block with
    | Some b => ∃ config, cell' = Some config ∧
        get_utxos_for_address (sn_utxos w) address (eb_block_no b) config = Ok outputs
    | None => outputs = []
    end ∧
    NoDup (cr_stake_pool_public_key <$> r) ∧
    ∀ key registrations delegation,
      {| cr_stake_pool_public_key := key; cr_registrations := registrations;
         cr_stake_delegation := delegation |} ∈ r ↔
      registrations ≠ [] ∧
      registrations = make_registration_data <$>
        filter (λ c, rc_stake_pool_pub_key c = key) (convert_utxos_to_candidates outputs) ∧
      delegation = if bool_decide (stake_rows t e = []) then None
        else Some (zsum (λ a, a) (filter (λ r, r.1 = key_hash_from_vkey key) (stake_rows t e)).*2).
Proof.
  intros Ht (e & l & st & He & (b & Hb & Hl)%registered_ok & Hst & ->)%candidates_ok.
  rewrite Ht in Hst. injection Hst as <-.
  assert (∃ outputs, l = convert_utxos_to_candidates outputs ∧
    match b with
    | Some b => ∃ config, cell' = Some config ∧
        get_utxos_for_address (sn_utxos w) address (eb_block_no b) config = Ok outputs
    | None => outputs = []
    end) as (outputs & -> & Hout).
  { destruct b as [b|]; [|destruct Hl as [-> _]; by exists []].
    destruct Hl as (config & u & [-> _]%tx_in_config_ok & Hu & ->). eauto. }
  exists e, b, outputs. split_and!; [done..| |].
  - unfold assemble. rewrite <-list_fmap_compose. unfold compose. simpl. apply group_by_spec.
  - intros key registrations delegation. unfold assemble, group_candidates_by_mc_pub_key.
    rewrite list_elem_of_fmap. setoid_rewrite stake_delegation_sum.
    set (cs := convert_utxos_to_candidates outputs).
    assert (∀ k, (filter (λ kv, kv.1 = k) ((λ c, (rc_stake_pool_pub_key c, c)) <$> cs)).*2 =
      filter (λ c, rc_stake_pool_pub_key c = k) cs) as Hf.
    { intros k. rewrite filter_fmap, <-list_fmap_compose. apply list_fmap_id. }
    split.
    + intros ([k vs] & [= -> -> ->] & [Hne Hvs]%group_by_spec). rewrite Hf in Hvs. simpl in *. subst vs.
      split_and!; [|done..]. by intros ?%fmap_nil_inv.
    + intros (Hne & -> & ->). eexists (key, _). split; [done|]. apply group_by_spec. rewrite Hf. split; [|done].
      intros Hnil. apply Hne. exact (f_equal (fmap make_registration_data) Hnil).
Qed.
End Grouping.

(** ** A small chain *)

Module CandidatesConcrete.
#[export] Instance candidates_lib : CandidatesLib := {|
  CSqlxError := unit; sqlx_decode_error := tt; JsonValue := list Z; CPlutusData := list Z;
  encode_json_value_to_plutus_datum := Some;
  register_validator_try_from := λ d, Some (V1 d [] [] [] {| uid_tx_hash := [1]; uid_index := 0 |} [] []);
  permissioned_candidates_try_from := λ _, Some [];
  utxo_id_from_str := λ l, Some {| uid_tx_hash := l; uid_index := 0 |};
  decimal := λ z, [z]; key_hash_from_vkey := λ k, k;
  offset_data_epoch := λ e, if bool_decide (e < 2) then inl 2 else inr (e - 2);
  epoch_number_from := λ z, z; c_order_by := λ _, sort_by;
|}.
Lemma candidates_laws : CandidatesLaws.
Proof. split; [intros; apply sort_by_perm|done]. Qed.

(** A registration in block 1 of epoch 1; block 4 may consume it.  The datum may
    be recorded with the output or not. *)
Definition block_row (n e : Z) : CBlock :=
  {| cb_id := n; cb_hash := [n]; cb_no := Some n; cb_epoch := Some e; cb_slot := Some (10 * n) |}.
Definition tx_row (id block : Z) : CTx :=
  {| cx_id := id; cx_hash := [id]; cx_block_id := block; cx_block_index := 0 |}.
Definition small_tables (consumed datum : bool) : CTables := {|
  ct_block := [block_row 0 0; block_row 1 1; block_row 2 2; block_row 3 3] ++
    (if consumed then [block_row 4 3] else []);
  ct_tx := [tx_row 1 1] ++ (if consumed then [tx_row 2 4] else []);
  ct_tx_out := [{| co_id := 1; co_tx_id := 1; co_index := 0; co_address := [7]; co_data_hash := Some [5];
    co_consumed_by_tx_id := if consumed then Some 2 else None |}];
  ct_tx_in := if consumed then [{| ci_tx_in_id := 2; ci_tx_out_id := 1; ci_tx_out_index := 0 |}] else [];
  ct_datum := if datum then [{| cd_hash := [5]; cd_value := [9] : JsonValue |}] else [];
  ct_ma_tx_out := []; ct_multi_asset := [];
  ct_epoch_stake := [{| es_pool_id := 1; es_epoch_no := 1; es_amount := 100 |}];
  ct_pool_hash := [{| ph_id := 1; ph_hash_raw := [9] |}];
  ct_epoch_param := []; ct_has_tx_in := true |}.
Definition small_chain (consumed datum : bool) : Chain :=
  {| final_block := if consumed then 3 else 2; db_tables := small_tables consumed datum |}.

Ltac in_cases := repeat match goal with
  | H : _ ∈ [] |- _ => by apply elem_of_nil in H
  | H : _ ∈ _ :: _ |- _ => apply elem_of_cons in H as [->|H]
  end.
Lemma small_consumed_later n datum :
  tx_upto (small_tables true datum) n 2 → tx_upto (small_tables true datum) n 1.
Proof.
  intros (x & b & Hx & Hid & Hb & Hbx & Hup)%tx_upto_spec.
  apply (tx_upto_intro _ n (tx_row 1 1) (block_row 1 1)); [left|right; left|done|].
  apply bool_decide_pack. cbn [ct_tx ct_block small_tables app] in Hx, Hb.
  in_cases; try discriminate; apply bool_decide_unpack in Hup; lia.
Qed.
Lemma small_tables_wf consumed datum : tables_wf (small_tables consumed datum).
Proof.
  split; unfold small_tables at 1; cbn [ct_block ct_tx ct_tx_in ct_tx_out app].
  - destruct consumed; apply (bool_decide_unpack _); reflexivity.
  - destruct consumed; apply (bool_decide_unpack _); reflexivity.
  - intros x Hx. destruct consumed; in_cases;
      first [exists (block_row 1 1); split; [|reflexivity]|exists (block_row 4 3); split; [|reflexivity]];
      cbn [ct_block small_tables app]; rewrite !elem_of_cons; auto 10.
  - intros i Hi. destruct consumed; in_cases. exists (tx_row 2 4). split; [right; left|done].
  - destruct consumed; apply (bool_decide_unpack _); reflexivity.
  - intros n i Hi. destruct consumed; in_cases. apply small_consumed_later.
  - intros o id Ho Hid. destruct consumed; in_cases; simplify_eq/=. exists (tx_row 2 4). split; [right; left|done].
  - intros n o id Ho Hid. destruct consumed; in_cases; simplify_eq/=. apply small_consumed_later.
  - intros b c m n e f Hb Hc Hm Hn He Hf Hle. cbn [ct_block small_tables app] in Hc. destruct consumed; in_cases; simplify_eq/=; lia.
Qed.
Lemma small_chain_wf consumed datum : chain_wf 1 (small_chain consumed datum).
Proof.
  split; [apply small_tables_wf| |].
  - intros b m Hb Hm. destruct consumed; cbn in Hb; in_cases; simplify_eq/=; lia.
  - intros r. destruct consumed; vm_compute; intros [= <-]; eexists; (split; [reflexivity|discriminate]).
Qed.
End CandidatesConcrete.
Import CandidatesConcrete.

Lemma small_advance : advance 1 (small_chain false true) (small_chain true true).
Proof. split; [apply small_chain_wf|]. split; [done|reflexivity]. Qed.

(** The first request is cached, then a block consumes the registration. *)
Lemma cache_is_transparent_witness :
  ∃ s r, run 1 8 (small_chain true true) s ∧ candidates_cache s = [((3, [7]), r)] ∧
    (cached_get_candidates 8 1 (all_queries (Ok (small_tables true true))) 3 [7] s).1 = Ok r.
Proof.
  destruct (cached_new (H := candidates_lib) 8) as [s0| |] eqn:Hnew; [|discriminate Hnew..].
  pose (w := all_queries (Ok (small_tables false true))).
  assert (observed 1 (small_chain false true) w (small_chain false true)) as Hobs.
  { exists (small_chain false true). split_and!; [apply rtc_refl|by right|apply rtc_refl|].
    repeat (apply Forall_cons; split; [right; exists (small_chain false true); split_and!; [apply rtc_refl..|done]|]).
    apply Forall_nil; exact I. }
  pose proof (run_new 1 8 _ s0 (small_chain_wf false true) Hnew) as Hrun.
  pose proof (run_candidates 1 8 _ w _ s0 3 [7] Hrun Hobs) as Hrun1. clear Hrun.
  pose proof (run_advance 1 8 _ _ _ Hrun1 small_advance) as Hrun. clear Hrun1.
  vm_compute in Hnew. injection Hnew as <-.
  eexists; eexists. split; [exact Hrun|]. split; [vm_compute; reflexivity|].
  etransitivity; [exact (proj1 (cache_is_transparent 1 candidates_laws 8 _ _ 3 [7] [] [] Hrun))|].
  vm_compute. reflexivity.
Defined.

Definition empty_cache : CandidateDataSourceCached :=
  {| ariadne_cache := []; candidates_cache := []; highest_seen_stable_epoch := None; tx_in_cell := None |}.
Lemma repeated_request_needs_no_query_witness :
  ∃ r s, cached_get_candidates 1 1 (all_queries (Ok (small_tables false true))) 3 [7] empty_cache = (Ok r, s) ∧
    length r = 1%nat ∧
    (cached_get_candidates 1 1 (all_queries (Err tt)) 3 [7] s).1 = Ok r.
Proof.
  destruct (cached_get_candidates 1 1 (all_queries (Ok (small_tables false true))) 3 [7] empty_cache)
    as [r s] eqn:Hr.
  destruct r as [r| |]; [|vm_compute in Hr; discriminate Hr..]. exists r, s. split; [reflexivity|]. split.
  - vm_compute in Hr. injection Hr as <- _. reflexivity.
  - refine (repeated_request_needs_no_query 1 1 _ (all_queries (Err tt)) 3 [7] _ r s _ _ Hr); [lia|].
    vm_compute. reflexivity.
Defined.

Lemma candidates_are_the_registrations_witness :
  ∃ r, (get_candidates (all_queries (Ok (small_tables false true))) 3 [7] None).1 = Ok r ∧
    NoDup (cr_stake_pool_public_key <$> r) ∧
    ∃ c, c ∈ r ∧ cr_stake_pool_public_key c = [9] ∧ cr_stake_delegation c = Some 100.
Proof.
  destruct (get_candidates (all_queries (Ok (small_tables false true))) 3 [7] None) as [r cell'] eqn:Hr.
  destruct r as [r| |]; [|vm_compute in Hr; discriminate Hr..].
  destruct (candidates_are_the_registrations (all_queries (Ok (small_tables false true))) (small_tables false true) 3 [7] None r cell' eq_refl Hr)
    as (e & b & outputs & He & Hb & Hout & Hnd & Hin).
  exists r. split; [reflexivity|]. split; [exact Hnd|].
  vm_compute in Hr. injection Hr as <- <-. eexists. split; [left|]. split; vm_compute; reflexivity.
Defined.

(** An output may carry the hash of a datum only.  When a later transaction
    reveals the datum, the candidates of an epoch that was stable before change,
    although the final blocks, their transactions and outputs are the same: the
    query returns none before and one after, and a cache keeps the answer from
    before. *)
Theorem revealed_datum_changes_candidates :
  chain_wf 1 (small_chain false false) ∧ chain_wf 1 (small_chain true true) ∧
  settled (small_chain false false) 1 ∧
  ct_block (upto 2 (small_tables true true)) = ct_block (upto 2 (small_tables false false)) ∧
  ct_tx (upto 2 (small_tables true true)) = ct_tx (upto 2 (small_tables false false)) ∧
  ct_tx_out (upto 2 (small_tables true true)) = ct_tx_out (upto 2 (small_tables false false)) ∧
  ∃ s r,
    cached_get_candidates 8 1 (all_queries (Ok (small_tables false false))) 3 [7] empty_cache = (Ok [], s) ∧
    (get_candidates (all_queries (Ok (small_tables true true))) 3 [7] (tx_in_cell s)).1 = Ok [r] ∧
    (cached_get_candidates 8 1 (all_queries (Ok (small_tables true true))) 3 [7] s).1 = Ok [].
Proof.
  do 2 (split; [apply small_chain_wf|]). split; [|do 3 (split; [reflexivity|])].
  - exists (block_row 2 2), 2, 2. split_and!; [right; right; left|done..|lia].
  - eexists; eexists. split; [vm_compute; reflexivity|]. split; vm_compute; reflexivity.
Qed.
