(* ===== verification/GenesisSpec.v ===== *)
(** * The chain specification and the checks on it

    Models the genesis extrinsics of [node/src/chain_spec/mod.rs] and the commands
    that check a specification before a launch:
    [node/src/genesis/verification/verify_genesis_timestamp.rs],
    [verify_genesis_message.rs], and the four [verify_*_auth_script.rs] with
    [verify_auth_script_common.rs].

    SCALE, Blake2, [AssetName::decode_hex] and the database are parameters; reading
    files and JSON is left to the caller, which passes what was read. *)

From stdpp Require Import prelude countable strings.
From S2P Require Import Prelude Frame Collections CardanoTypes UtxoOrdering CNightFollower.
From S2P Require Import FedAuthFollower GenesisSnapshots.

Open Scope Z_scope.

(** ** Genesis extrinsics *)

(** The calls among the genesis extrinsics, all bare. *)
Inductive GenesisCall : Type :=
| Genesis_send_mn_transaction (midnight_tx : list Z)
| Genesis_send_mn_system_transaction (midnight_system_tx : list Z)
| Genesis_timestamp_set (now : Z)
| Genesis_remark (remark : list Z)
| Genesis_process_tokens (utxos : list ObservedUtxo) (next_cardano_position : CardanoPosition)
| Genesis_other.

(** SCALE of [UncheckedExtrinsic::new_bare(call)]. *)
Class ExtrinsicCodec : Type := {
  encode_bare : GenesisCall → list Z;
  decode_extrinsic : list Z → option GenesisCall;
}.
Class ExtrinsicCodecLaws (C : ExtrinsicCodec) : Prop := {
  encode_bytes c : Forall byte (encode_bare c);
  decode_encode c : decode_extrinsic (encode_bare c) = Some c;
}.

Inductive RawTransaction : Type := Raw_Midnight (tx : list Z) | Raw_System (tx : list Z).
(** [SerializedTx]; of its context only [tblock], in seconds, is read. *)
Record SerializedTx : Type := { raw_tx : RawTransaction; context_tblock : Z }.

Section Spec.
Context `{ExtrinsicCodec}.

Definition call_of_raw (tx : RawTransaction) : GenesisCall :=
  match tx with
  | Raw_Midnight midnight_tx => Genesis_send_mn_transaction midnight_tx
  | Raw_System midnight_system_tx => Genesis_send_mn_system_transaction midnight_system_tx
  end.
Definition extrinsic_hex (c : GenesisCall) : list Z := hex_encode (encode_bare c).

(** The loop over the transactions: their extrinsics, and the block time they
    share; a second time is a panic. *)
Fixpoint tx_extrinsics (block_context : option Z) (txs : list SerializedTx) :
    outcome Empty_set (list (list Z) * option Z) :=
  match txs with
  | [] => mret ([], block_context)
  | tx :: txs =>
      let extrinsic := extrinsic_hex (call_of_raw (raw_tx tx)) in
      match block_context with
      | Some tblock => if bool_decide (tblock ≠ context_tblock tx) then Panic else Ok tt
      | None => Ok tt
      end ;;
      rest ← tx_extrinsics (Some (default (context_tblock tx) block_context)) txs;
      mret (extrinsic :: rest.1, rest.2)
  end.

(** [genesis_block] is the parsed list of batches; [tip_timestamp] the number in
    [res/mainnet/cardano-tip.json], read only when there is no transaction, [None]
    when it cannot be read or parsed.  Products are [u64]s. *)
Definition get_chainspec_extrinsics (genesis_block : list (list SerializedTx))
    (tip_timestamp : option Z) (observed_utxos_cnight : ObservedUtxos)
    (genesis_remark : option (list Z)) : outcome Empty_set (list (list Z)) :=
  txs ← tx_extrinsics None (concat genesis_block);
  timestamp_millis ←
    match txs.2 with
    | Some tblock => Ok (wrap 64 (tblock * 1000))
    | None => match tip_timestamp with Some t => Ok (wrap 64 (t * 1000)) | None => Panic end
    end;
  mret (txs.1 ++ [extrinsic_hex (Genesis_timestamp_set timestamp_millis)] ++
    match genesis_remark with Some remark => [extrinsic_hex (Genesis_remark remark)] | None => [] end ++
    (if bool_decide (observed observed_utxos_cnight = []) then []
     else [extrinsic_hex (Genesis_process_tokens (observed observed_utxos_cnight)
                            (end_ observed_utxos_cnight))])).

(** ** [verify_genesis_timestamp.rs] *)

Definition extract_timestamp_from_extrinsic (hex_str : list Z) : option Z :=
  bytes ← hex_decode hex_str; extrinsic ← decode_extrinsic bytes;
  match extrinsic with Genesis_timestamp_set now => Some now | _ => None end.

Record TimestampResult : Type := { timestamp_found : bool; timestamp_matches : bool }.
Definition timestamp_all_passed (r : TimestampResult) : bool :=
  timestamp_found r && timestamp_matches r.

Definition verify_genesis_timestamp {E} (load_genesis_extrinsics : outcome E (list (list Z)))
    (load_expected_timestamp_secs : outcome E Z) : outcome E TimestampResult :=
  extrinsic_hexes ← load_genesis_extrinsics;
  expected_timestamp_secs ← load_expected_timestamp_secs;
  let expected_timestamp_millis := wrap 64 (expected_timestamp_secs * 1000) in
  let timestamps := omap extract_timestamp_from_extrinsic (extrinsic_hexes : list (list Z)) in
  mret {| timestamp_found := negb (bool_decide (timestamps = []));
          timestamp_matches := bool_decide (expected_timestamp_millis ∈ timestamps) |}.

(** ** [verify_genesis_message.rs] *)

Definition extract_remark_from_extrinsic (hex_str : list Z) : option (list Z) :=
  bytes ← hex_decode hex_str; extrinsic ← decode_extrinsic bytes;
  match extrinsic with Genesis_remark remark => Some remark | _ => None end.

(** [String::from_utf8_lossy]: each maximal invalid sequence becomes U+FFFD. *)
Definition replacement : list Z := [239; 191; 189].
Definition is_continuation (b : Z) : bool := byte_in 128 191 b.
Definition second_of_three (a b : Z) : bool :=
  bool_decide (a = 224) && byte_in 160 191 b || byte_in 225 236 a && byte_in 128 191 b ||
  bool_decide (a = 237) && byte_in 128 159 b || byte_in 238 239 a && byte_in 128 191 b.
Definition second_of_four (a b : Z) : bool :=
  bool_decide (a = 240) && byte_in 144 191 b || byte_in 241 243 a && byte_in 128 191 b ||
  bool_decide (a = 244) && byte_in 128 143 b.
Fixpoint from_utf8_lossy (l : list Z) : list Z :=
  match l with
  | [] => []
  | a :: l1 =>
      if byte_in 0 127 a then a :: from_utf8_lossy l1 else
      match l1 with
      | [] => replacement
      | b :: l2 =>
          if byte_in 194 223 a && is_continuation b then a :: b :: from_utf8_lossy l2 else
          if second_of_three a b then
            match l2 with
            | [] => replacement
            | c :: l3 => if is_continuation c then a :: b :: c :: from_utf8_lossy l3
                         else replacement ++ from_utf8_lossy l2
            end
          else if second_of_four a b then
            match l2 with
            | [] => replacement
            | c :: l3 =>
                if is_continuation c then
                  match l3 with
                  | [] => replacement
                  | d :: l4 => if is_continuation d then a :: b :: c :: d :: from_utf8_lossy l4
                               else replacement ++ from_utf8_lossy l3
                  end
                else replacement ++ from_utf8_lossy l2
            end
          else replacement ++ from_utf8_lossy l1
      end
  end.

(** [if s.len() > 80 { &s[..80] .. }]: slicing inside a character is a panic. *)
Definition preview {E} (s : list Z) : outcome E (list Z) :=
  match s !! 80%nat with
  | Some b => if is_continuation b then Panic else Ok (take 80 s)
  | None => Ok s
  end.

Record MessageResult : Type := { message_found : bool; message_matches : bool }.
Definition message_all_passed (r : MessageResult) : bool := message_found r && message_matches r.

(** The texts of the result are left out, but not the slices they take. *)
Definition verify_genesis_message {E} (load_genesis_extrinsics : outcome E (list (list Z)))
    (load_message_config : outcome E (list Z)) : outcome E MessageResult :=
  extrinsic_hexes ← load_genesis_extrinsics;
  expected_message ← load_message_config;
  let remarks := omap extract_remark_from_extrinsic (extrinsic_hexes : list (list Z)) in
  let found := negb (bool_decide (remarks = [])) in
  let matches_ := bool_decide (expected_message ∈ remarks) in
  (if matches_ then preview (from_utf8_lossy expected_message) ;; mret tt
   else if found then try_collect (λ r, preview (from_utf8_lossy r)) remarks ;; mret tt
   else mret tt) ;;
  mret {| message_found := found; message_matches := matches_ |}.

(** ** A specification passes its checks *)

Context `{!ExtrinsicCodecLaws _}.

Definition decode_hex_extrinsic (hex_str : list Z) : option GenesisCall :=
  bytes ← hex_decode hex_str; decode_extrinsic bytes.
Lemma decode_extrinsic_hex c : decode_hex_extrinsic (extrinsic_hex c) = Some c.
Proof.
  unfold decode_hex_extrinsic, extrinsic_hex. rewrite hex_decode_encode by apply encode_bytes.
  simpl. apply decode_encode.
Qed.
Lemma decode_extrinsics (l : list GenesisCall) : omap decode_hex_extrinsic (extrinsic_hex <$> l) = l.
Proof.
  induction l as [|c l IH]; [done|]. rewrite fmap_cons, omap_cons_eq, decode_extrinsic_hex. by rewrite IH.
Qed.

(** The calls of a specification, in order. *)
Definition genesis_calls (txs : list SerializedTx) (secs : Z) (u : ObservedUtxos)
    (genesis_remark : option (list Z)) : list GenesisCall :=
  (call_of_raw ∘ raw_tx <$> txs) ++ [Genesis_timestamp_set (wrap 64 (secs * 1000))] ++
  match genesis_remark with Some remark => [Genesis_remark remark] | None => [] end ++
  (if bool_decide (observed u = []) then [] else [Genesis_process_tokens (observed u) (end_ u)]).

Lemma tx_extrinsics_ok ctx txs t :
  (∀ tx, tx ∈ txs → context_tblock tx = t) → (ctx = None ∨ ctx = Some t) →
  tx_extrinsics ctx txs =
    Ok (extrinsic_hex <$> (call_of_raw ∘ raw_tx <$> txs), if decide (txs = []) then ctx else Some t).
Proof.
  revert ctx. induction txs as [|tx txs IH]; intros ctx Htx Hctx; [done|]. simpl.
  assert (context_tblock tx = t) as Ht by (apply Htx; left).
  assert (match ctx with
    | Some tblock => if bool_decide (tblock ≠ context_tblock tx) then Panic else Ok tt
    | None => Ok tt end = @Ok Empty_set unit tt) as ->.
  { destruct Hctx as [->| ->]; [done|]. by rewrite bool_decide_false by (rewrite Ht; tauto). }
  rewrite IH; [|intros; apply Htx; by right|right; destruct Hctx as [->| ->]; simpl; congruence].
  simpl. do 3 f_equal. case_decide; [|done]. destruct Hctx as [->| ->]; simpl; congruence.
Qed.

Lemma tx_extrinsics_times ctx txs r :
  tx_extrinsics ctx txs = Ok r →
  ∃ t, (∀ tx, tx ∈ txs → context_tblock tx = t) ∧ (ctx = None ∨ ctx = Some t).
Proof.
  revert ctx r. induction txs as [|tx txs IH]; intros ctx r.
  { intros _. exists (default 0 ctx). split; [by intros ? ?%elem_of_nil|].
    destruct ctx; [by right|by left]. }
  simpl. destruct (tx_extrinsics _ txs) as [r'|e|] eqn:Hr; [|by destruct e|].
  2:{ destruct ctx; [case_bool_decide|]; done. }
  apply IH in Hr as (t & Htx & Hctx). destruct Hctx as [?|Hctx]; [done|]. injection Hctx as Hctx.
  intros Hok. exists t. destruct ctx as [t'|]; simpl in *.
  - case_bool_decide as Hne; [done|]. subst.
    split; [|by right]. intros x [->|Hx]%elem_of_cons; auto.
  - split; [|by left]. intros x [->|Hx]%elem_of_cons; auto.
Qed.

Lemma chainspec_extrinsics_eq gb tip u remark t :
  (∀ tx, tx ∈ concat gb → context_tblock tx = t) → (concat gb = [] → tip = Some t) →
  get_chainspec_extrinsics gb tip u remark =
    Ok (extrinsic_hex <$> genesis_calls (concat gb) t u remark).
Proof.
  intros Htx Htip. unfold get_chainspec_extrinsics.
  rewrite (tx_extrinsics_ok None _ t) by auto. unfold genesis_calls. simpl.
  rewrite !fmap_app, !fmap_cons. case_decide as Hnil; simpl.
  - rewrite Htip by done. simpl. destruct remark; case_bool_decide; done.
  - destruct remark; case_bool_decide; done.
Qed.

Lemma extract_eq {A} (f : GenesisCall → option A) (l : list GenesisCall) :
  omap (λ h, bytes ← hex_decode h; c ← decode_extrinsic bytes; f c) (extrinsic_hex <$> l) = omap f l.
Proof.
  induction l as [|c l IH]; [done|]. rewrite fmap_cons, !omap_cons_eq, IH.
  unfold extrinsic_hex. rewrite hex_decode_encode by apply encode_bytes. simpl.
  by rewrite decode_encode.
Qed.

(** Valid text is kept. *)
Lemma byte_in_true lo hi b : byte_in lo hi b = true ↔ lo ≤ b ≤ hi.
Proof. unfold byte_in. rewrite andb_true_iff, !bool_decide_eq_true. tauto. Qed.
Lemma byte_in_false lo hi b : byte_in lo hi b = false ↔ ¬ (lo ≤ b ≤ hi).
Proof. rewrite <-byte_in_true. by destruct (byte_in lo hi b). Qed.

Ltac bytes_in :=
  repeat match goal with
  | H : byte_in _ _ _ = true |- _ => apply byte_in_true in H
  | H : byte_in _ _ _ = false |- _ => apply byte_in_false in H
  | H : _ && _ = true |- _ => apply andb_true_iff in H as [? ?]
  end.

Lemma second_of_three_true a b :
  a = 224 ∧ 160 ≤ b ≤ 191 ∨ a = 237 ∧ 128 ≤ b ≤ 159 ∨
    225 ≤ a ≤ 239 ∧ a ≠ 237 ∧ 128 ≤ b ≤ 191 →
  second_of_three a b = true.
Proof.
  intros Hab. unfold second_of_three. rewrite !orb_true_iff, !andb_true_iff, !byte_in_true, !bool_decide_eq_true. lia.
Qed.
Lemma second_of_four_true a b :
  a = 240 ∧ 144 ≤ b ≤ 191 ∨ a = 244 ∧ 128 ≤ b ≤ 143 ∨ 241 ≤ a ≤ 243 ∧ 128 ≤ b ≤ 191 →
  second_of_three a b = false ∧ second_of_four a b = true.
Proof.
  intros Hab. split.
  - apply not_true_iff_false. unfold second_of_three.
    rewrite !orb_true_iff, !andb_true_iff, !byte_in_true, !bool_decide_eq_true. lia.
  - unfold second_of_four. rewrite !orb_true_iff, !andb_true_iff, !byte_in_true, !bool_decide_eq_true. lia.
Qed.

Ltac lossy_three IH :=
  intros ?; bytes_in; rewrite second_of_three_true by lia;
  unfold is_continuation; rewrite (proj2 (byte_in_true _ _ _)) by lia;
  do 3 f_equal; apply IH; [lia|done].
Ltac lossy_four IH :=
  intros ?; bytes_in;
  match goal with |- context [second_of_three ?a ?b] =>
    destruct (second_of_four_true a b) as [-> ->]; [lia|] end;
  unfold is_continuation; rewrite !(proj2 (byte_in_true _ _ _)) by lia;
  do 4 f_equal; apply IH; [lia|done].

Lemma from_utf8_lossy_valid l : utf8_valid l = true → from_utf8_lossy l = l.
Proof.
  remember (length l) as n eqn:Hn. assert (length l ≤ n)%nat as Hle by lia. clear Hn.
  revert l Hle. induction n as [|n IH]; intros [|a l1] Hle; simpl in Hle; [done|lia|done|].
  cbn [utf8_valid from_utf8_lossy].
  destruct (byte_in 0 127 a) eqn:Ha0; [intros ?; f_equal; apply IH; [lia|done]|].
  destruct l1 as [|b l2]; [done|]. simpl in Hle.
  destruct (byte_in 194 223 a) eqn:Ha2.
  { intros [Hb Hl]%andb_true_iff. unfold is_continuation. rewrite Hb. simpl. do 2 f_equal.
    apply IH; [lia|done]. }
  cbn [andb]. destruct l2 as [|c l3]; [done|]. simpl in Hle.
  repeat (case_bool_decide; [by lossy_three IH|]).
  destruct (byte_in 225 239 a) eqn:Ha3; [by lossy_three IH|].
  destruct l3 as [|d l4]; [done|]. simpl in Hle.
  case_bool_decide; [by lossy_four IH|].
  destruct (byte_in 241 243 a) eqn:Ha4; [by lossy_four IH|].
  case_bool_decide; [by lossy_four IH|done].
Qed.

Lemma timestamps_of_calls txs t u remark :
  omap (λ c, match c with Genesis_timestamp_set now => Some now | _ => None end)
    (genesis_calls txs t u remark) = [wrap 64 (t * 1000)].
Proof.
  unfold genesis_calls. rewrite !omap_app. 
  assert (omap (λ c, match c with Genesis_timestamp_set now => Some now | _ => None end)
    (call_of_raw ∘ raw_tx <$> txs) = []) as ->.
  { induction txs as [|[[] ?] txs IH]; [done|..]; exact IH. }
  destruct remark, (bool_decide _); done.
Qed.
Lemma remarks_of_calls txs t u remark :
  omap (λ c, match c with Genesis_remark remark => Some remark | _ => None end)
    (genesis_calls txs t u remark) = option_list remark.
Proof.
  unfold genesis_calls. rewrite !omap_app. 
  assert (omap (λ c, match c with Genesis_remark remark => Some remark | _ => None end)
    (call_of_raw ∘ raw_tx <$> txs) = []) as ->.
  { induction txs as [|[[] ?] txs IH]; [done|..]; exact IH. }
  destruct remark, (bool_decide _); done.
Qed.

Lemma timestamp_check_passes {E} txs t u remark :
  ∃ r, verify_genesis_timestamp (E:=E) (Ok (extrinsic_hex <$> genesis_calls txs t u remark)) (Ok t) = Ok r ∧
    timestamp_all_passed r = true.
Proof.
  unfold verify_genesis_timestamp, extract_timestamp_from_extrinsic. simpl.
  rewrite extract_eq, timestamps_of_calls. eexists; split; [done|]. unfold timestamp_all_passed. simpl.
  by rewrite bool_decide_true by left.
Qed.

(** the genesis extrinsics of a specification can be built exactly when the
    transactions of the genesis block share one block time (and, without any
    transaction, when the Cardano tip can be read). *)
Theorem chain_spec_built_iff gb tip u remark :
  (∃ exts, get_chainspec_extrinsics gb tip u remark = Ok exts) ↔
  ∃ t, (∀ tx, tx ∈ concat gb → context_tblock tx = t) ∧ (concat gb = [] → tip = Some t).
Proof.
  split; [|intros (t & Htx & Htip); eexists; by apply chainspec_extrinsics_eq].
  intros [exts Hexts]. unfold get_chainspec_extrinsics in Hexts.
  destruct (decide (concat gb = [])) as [Hnil|Hnil].
  - rewrite Hnil in Hexts |- *. simpl in Hexts. destruct tip as [t|]; [|done].
    exists t. split; [by intros ? ?%elem_of_nil|done].
  - destruct (tx_extrinsics None (concat gb)) as [r|[]|] eqn:Hr; [|done].
    apply tx_extrinsics_times in Hr as (t & Htx & _). by exists t.
Qed.

(** the extrinsics of a specification decode, in order, to the transactions of
    the genesis block, the timestamp, the message and the observed tokens; the
    timestamp check accepts it, and the message check accepts it unless it panics
    cutting its preview inside a character. *)
Theorem chain_spec_passes_its_checks {E} gb tip u msg t :
  (∀ tx, tx ∈ concat gb → context_tblock tx = t) → (concat gb = [] → tip = Some t) →
  utf8_valid msg = true →
  ∃ exts, get_chainspec_extrinsics gb tip u (Some msg) = Ok exts ∧
    omap decode_hex_extrinsic exts = genesis_calls (concat gb) t u (Some msg) ∧
    (∃ r, verify_genesis_timestamp (E:=E) (Ok exts) (Ok t) = Ok r ∧ timestamp_all_passed r = true) ∧
    (if bool_decide (is_continuation <$> msg !! 80%nat = Some true)
     then verify_genesis_message (E:=E) (Ok exts) (Ok msg) = Panic
     else ∃ r, verify_genesis_message (E:=E) (Ok exts) (Ok msg) = Ok r ∧ message_all_passed r = true).
Proof.
  intros Htx Htip Hmsg. rewrite (chainspec_extrinsics_eq gb tip u (Some msg) t) by done.
  eexists; split; [done|]. split; [apply decode_extrinsics|]. split.
  - apply timestamp_check_passes.
  - unfold verify_genesis_message, extract_remark_from_extrinsic. simpl.
    rewrite extract_eq, remarks_of_calls. simpl. rewrite (bool_decide_true (msg ∈ [msg])) by left.
    rewrite from_utf8_lossy_valid by done. unfold preview.
    destruct (msg !! 80%nat) as [b|]; simpl; [|eauto].
    destruct (is_continuation b); simpl; [done|eauto].
Qed.
End Spec.

(** ** Asset names of the configuration *)

Section AssetNames.
(** [AssetName::decode_hex]: at most 32 bytes. *)
Context (decode_hex : list Z → option (list Z)).

Definition parse_asset_name (s : list Z) : outcome Empty_set (list Z) :=
  match decode_hex s with
  | Some asset_name => Ok asset_name
  | None =>
      let hex_string := hex_encode s in
      match decode_hex hex_string with Some asset_name => Ok asset_name | None => Panic end
  end.

Lemma parse_asset_name_hex b :
  decode_hex (hex_encode b) = Some b → parse_asset_name (hex_encode b) = Ok b.
Proof. unfold parse_asset_name. by intros ->. Qed.
Lemma parse_asset_name_text s :
  decode_hex s = None → decode_hex (hex_encode s) = Some s → parse_asset_name s = Ok s.
Proof. unfold parse_asset_name. by intros -> ->. Qed.
End AssetNames.

(** ** Authorization scripts ([verify_auth_script_common.rs]) *)

(** The database with the outputs that hold a token, by policy and name, and the
    number of a block, an [i32], by hash. *)
Record AuthDb (L : CardanoLib) : Type := {
  auth_db : Db L;
  token_rows : list Z → list Z → outcome (SqlxError L auth_db) (list (GovernanceBodyUtxoRow L));
  block_no_by_hash : list Z → outcome (SqlxError L auth_db) (option Z);
}.

Inductive DatumDecodeError : Type :=
| Datum_not_a_list
| Datum_too_short (n : Z)
| Authorization_not_bytes
| Authorization_length (n : Z).

Record CheckResult : Type := { passed : bool }.
Definition optional_passed (c : option CheckResult) : bool :=
  match c with Some c => passed c | None => true end.

(** [slice::windows]. *)
Definition windows {A} (n : nat) (l : list A) : list (list A) :=
  (λ i, take n (drop i l)) <$> seq 0 (length l + 1 - n).

Record IcsAddressesWithCode : Type := {
  ics_policy_id : list Z;
  ics_compiled_code : list Z;
  ics_two_stage_policy_id : list Z;
}.
Record IcsVerificationResult : Type := {
  policy_hash_check : CheckResult;
  two_stage_embedded_check : CheckResult;
  authorization_script_check : option CheckResult;
}.
Definition ics_all_passed (r : IcsVerificationResult) : bool :=
  passed (policy_hash_check r) && passed (two_stage_embedded_check r) &&
  optional_passed (authorization_script_check r).

Record FederatedAuthorityAddressesWithCode : Type := {
  fac_council_policy_id : list Z;
  fac_council_compiled_code : list Z;
  fac_council_two_stage_policy_id : list Z;
  fac_technical_committee_policy_id : list Z;
  fac_technical_committee_compiled_code : list Z;
  fac_technical_committee_two_stage_policy_id : list Z;
}.
Record FederatedVerificationResult : Type := {
  council_policy_hash_check : CheckResult;
  council_two_stage_embedded_check : CheckResult;
  technical_committee_policy_hash_check : CheckResult;
  technical_committee_two_stage_embedded_check : CheckResult;
  fed_authorization_script_check : option CheckResult;
}.
Definition federated_all_passed (r : FederatedVerificationResult) : bool :=
  passed (council_policy_hash_check r) && passed (council_two_stage_embedded_check r) &&
  passed (technical_committee_policy_hash_check r) &&
  passed (technical_committee_two_stage_embedded_check r) &&
  optional_passed (fed_authorization_script_check r).

Section Auth.
Context {L : CardanoLib} (P : PlutusLib L) (A : AuthDb L).
Context (blake2b_224 : list Z → list Z).
Notation D := (auth_db L A).

Inductive VerifyAuthScriptError : Type :=
| Auth_IoError
| Auth_JsonError
| Auth_DatabaseError (e : SqlxError L D)
| Auth_BlockNotFound (block_hash : list Z)
| Auth_UtxoNotFound (two_stage_policy_id : list Z)
| Auth_DatumDecodeError (e : DatumDecodeError).

Definition plutus_v3_script_hash (script_bytes : list Z) : list Z := blake2b_224 (3 :: script_bytes).

Definition is_policy_id_embedded (compiled_code policy_id : list Z) : bool :=
  existsb (λ window, bool_decide (window = policy_id)) (windows 28 compiled_code).

(** The [authorization_policy_id] of the JSON file; empty is none.  [decode_hex] is
    [PolicyId::decode_hex]. *)
Definition hex_to_optional_policy_id (decode_hex : list Z → option (list Z)) (s : list Z) :
    outcome VerifyAuthScriptError (option (list Z)) :=
  match s with
  | [] => mret None
  | _ => match decode_hex s with Some id => mret (Some id) | None => Err Auth_JsonError end
  end.

Definition decode_authorization_from_datum (datum : PlutusData L) :
    outcome DatumDecodeError (list Z) :=
  match as_list L P datum with
  | None => Err Datum_not_a_list
  | Some l =>
      if bool_decide (length l < 3)%nat then Err (Datum_too_short (Z.of_nat (length l))) else
      match l !! 2%nat with
      | None => Panic
      | Some auth_script_data =>
          match as_bytes L auth_script_data with
          | None => Err Authorization_not_bytes
          | Some auth_bytes =>
              if bool_decide (length auth_bytes ≠ 28%nat)
              then Err (Authorization_length (Z.of_nat (length auth_bytes)))
              else mret auth_bytes
          end
      end
  end.

Definition get_authorization_script_from_datum (two_stage_policy_id : list Z) (block_number : Z) :
    outcome VerifyAuthScriptError (list Z) :=
  rows ← map_err Auth_DatabaseError (token_rows L A two_stage_policy_id (bytes_of_string "main"));
  row ← ok_or (newest_row D rows block_number) (Auth_UtxoNotFound two_stage_policy_id);
  map_err Auth_DatumDecodeError (decode_authorization_from_datum (gr_full_datum L row)).

(** [block_number as u32]. *)
Definition get_block_number (block_hash : list Z) : outcome VerifyAuthScriptError Z :=
  row ← map_err Auth_DatabaseError (block_no_by_hash L A block_hash);
  n ← ok_or row (Auth_BlockNotFound block_hash);
  mret (wrap 32 n).

Definition verify_policy_hash (compiled_code_hex expected_policy_id : list Z) : CheckResult :=
  match hex_decode compiled_code_hex with
  | Some code_bytes => {| passed := bool_decide (plutus_v3_script_hash code_bytes = expected_policy_id) |}
  | None => {| passed := false |}
  end.
Definition verify_two_stage_embedded (compiled_code_hex two_stage_policy_id : list Z) : CheckResult :=
  match hex_decode compiled_code_hex with
  | Some code_bytes => {| passed := is_policy_id_embedded code_bytes two_stage_policy_id |}
  | None => {| passed := false |}
  end.
Definition verify_authorization_script (two_stage_policy_id expected_auth_policy_id : list Z)
    (block_number : Z) : outcome VerifyAuthScriptError CheckResult :=
  match get_authorization_script_from_datum two_stage_policy_id block_number with
  | Ok observed => mret {| passed := bool_decide (observed = expected_auth_policy_id) |}
  | Err _ => mret {| passed := false |}
  | Panic => Panic
  end.

(** The last check of each command; [authorization_addresses] is what
    [load_authorization_addresses] gives when a path was given. *)
Definition authorization_check
    (authorization_addresses : option (outcome VerifyAuthScriptError (option (list Z))))
    (two_stage_policy_id cardano_tip : list Z) :
    outcome VerifyAuthScriptError (option CheckResult) :=
  match authorization_addresses with
  | Some load =>
      authorization_policy_id ← load;
      match authorization_policy_id with
      | Some expected_auth_policy_id =>
          block_number ← get_block_number cardano_tip;
          check ← verify_authorization_script two_stage_policy_id expected_auth_policy_id block_number;
          mret (Some check)
      | None => mret None
      end
  | None => mret None
  end.

Definition verify_ics_auth_script (load_ics_addresses : outcome VerifyAuthScriptError IcsAddressesWithCode)
    (authorization_addresses : option (outcome VerifyAuthScriptError (option (list Z))))
    (cardano_tip : list Z) : outcome VerifyAuthScriptError IcsVerificationResult :=
  addresses ← load_ics_addresses;
  check ← authorization_check authorization_addresses (ics_two_stage_policy_id addresses) cardano_tip;
  mret {| policy_hash_check :=
            verify_policy_hash (ics_compiled_code addresses) (ics_policy_id addresses);
          two_stage_embedded_check :=
            verify_two_stage_embedded (ics_compiled_code addresses) (ics_two_stage_policy_id addresses);
          authorization_script_check := check |}.
(** The commands for the reserve and the permissioned candidates do the same. *)
Definition verify_reserve_auth_script := verify_ics_auth_script.
Definition verify_permissioned_candidates_auth_script := verify_ics_auth_script.

Definition verify_federated_authority_auth_script
    (load_federated_authority_addresses :
       outcome VerifyAuthScriptError FederatedAuthorityAddressesWithCode)
    (authorization_addresses : option (outcome VerifyAuthScriptError (option (list Z))))
    (cardano_tip : list Z) : outcome VerifyAuthScriptError FederatedVerificationResult :=
  a ← load_federated_authority_addresses;
  check ← authorization_check authorization_addresses (fac_council_two_stage_policy_id a) cardano_tip;
  mret {| council_policy_hash_check :=
            verify_policy_hash (fac_council_compiled_code a) (fac_council_policy_id a);
          council_two_stage_embedded_check :=
            verify_two_stage_embedded (fac_council_compiled_code a) (fac_council_two_stage_policy_id a);
          technical_committee_policy_hash_check :=
            verify_policy_hash (fac_technical_committee_compiled_code a)
              (fac_technical_committee_policy_id a);
          technical_committee_two_stage_embedded_check :=
            verify_two_stage_embedded (fac_technical_committee_compiled_code a)
              (fac_technical_committee_two_stage_policy_id a);
          fed_authorization_script_check := check |}.

(** ** What the checks show *)

(** A validator's code is the one of its policy and names the two-stage token. *)
Definition code_bound (code_hex policy two_stage : list Z) : Prop :=
  ∃ code pre post, hex_decode code_hex = Some code ∧ blake2b_224 (3 :: code) = policy ∧
    code = pre ++ two_stage ++ post ∧ length two_stage = 28%nat.

(** The third field of the two-stage datum in force at a block. *)
Definition authorized (n : Z) (two_stage auth : list Z) : Prop :=
  ∃ rows row l d, token_rows L A two_stage (bytes_of_string "main") = Ok rows ∧
    latest_row rows n row ∧ as_list L P (gr_full_datum L row) = Some l ∧
    l !! 2%nat = Some d ∧ as_bytes L d = Some auth ∧ length auth = 28%nat.

Lemma elem_of_windows {X} n (l w : list X) :
  w ∈ windows n l ↔ ∃ pre post, l = pre ++ w ++ post ∧ length w = n.
Proof.
  unfold windows. rewrite list_elem_of_fmap. setoid_rewrite elem_of_seq. split.
  - intros (i & -> & Hi). exists (take i l), (drop n (drop i l)). rewrite !take_drop. split; [done|].
    rewrite length_take, length_drop. lia.
  - intros (pre & post & -> & <-). exists (length pre).
    rewrite drop_app_length, take_app_length, !length_app. split; [done|lia].
Qed.

Lemma is_policy_id_embedded_spec code id :
  is_policy_id_embedded code id = true ↔ ∃ pre post, code = pre ++ id ++ post ∧ length id = 28%nat.
Proof.
  unfold is_policy_id_embedded. rewrite existsb_exists, <-elem_of_windows. split.
  - intros (w & Hw & ->%bool_decide_eq_true). by apply list_elem_of_In.
  - intros Hid. exists id. split; [by apply list_elem_of_In|by apply bool_decide_eq_true].
Qed.

Lemma code_checks_spec code_hex policy two_stage :
  passed (verify_policy_hash code_hex policy) && passed (verify_two_stage_embedded code_hex two_stage)
    = true ↔ code_bound code_hex policy two_stage.
Proof.
  unfold verify_policy_hash, verify_two_stage_embedded, code_bound. rewrite andb_true_iff.
  destruct (hex_decode code_hex) as [code|]; simpl; [|naive_solver].
  rewrite bool_decide_eq_true, is_policy_id_embedded_spec. unfold plutus_v3_script_hash. naive_solver.
Qed.

Lemma decode_authorization_inv d auth :
  decode_authorization_from_datum d = Ok auth →
  ∃ l x, as_list L P d = Some l ∧ l !! 2%nat = Some x ∧ as_bytes L x = Some auth ∧
    length auth = 28%nat.
Proof.
  unfold decode_authorization_from_datum. destruct (as_list L P d) as [l|]; [|done].
  case_bool_decide; [done|]. destruct (l !! 2%nat) as [x|] eqn:Hx; [|done].
  destruct (as_bytes L x) as [b|] eqn:Hb; [|done]. case_bool_decide as Hl; [done|].
  intros [= <-]. by exists l, x.
Qed.

Context `{!OrderBySpec L D}.

Lemma authorization_check_sound auth two_stage tip n c :
  block_no_by_hash L A tip = Ok (Some n) → 0 ≤ n ≤ I32_MAX →
  authorization_check (Some (Ok (Some auth))) two_stage tip = Ok c → optional_passed c = true →
  authorized n two_stage auth.
Proof.
  intros Hblock Hn. unfold authorization_check, get_block_number. simpl. rewrite Hblock. simpl.
  rewrite wrap_small by (unfold in_range, umax; unfold I32_MAX in Hn; lia).
  unfold verify_authorization_script, get_authorization_script_from_datum.
  destruct (token_rows L A two_stage _) as [rows|e|] eqn:Hrows; simpl; [|by intros [= <-]|done].
  destruct (newest_row D rows n) as [row|] eqn:Hrow; simpl; [|by intros [= <-]].
  destruct (decode_authorization_from_datum (gr_full_datum L row)) as [o|e|] eqn:Hd; simpl;
    [|by intros [= <-]|done].
  intros [= <-]. simpl. intros ->%bool_decide_eq_true.
  apply decode_authorization_inv in Hd as (l & x & ? & ? & ? & ?).
  exists rows, row, l, x. split_and!; try done. by apply (newest_row_latest D).
Qed.

(** when the authorization check of the illiquid circulation supply (or of the
    reserve or the permissioned candidates) passes, the validator's code hashes to
    its policy and contains the two-stage policy, and the two-stage datum in force
    at the Cardano tip names the expected authorization script. *)
Theorem auth_script_check_sound addresses auth tip n r :
  block_no_by_hash L A tip = Ok (Some n) → 0 ≤ n ≤ I32_MAX →
  verify_ics_auth_script (Ok addresses) (Some (Ok (Some auth))) tip = Ok r →
  ics_all_passed r = true →
  code_bound (ics_compiled_code addresses) (ics_policy_id addresses) (ics_two_stage_policy_id addresses) ∧
  authorized n (ics_two_stage_policy_id addresses) auth.
Proof.
  intros Hblock Hn. unfold verify_ics_auth_script. cbn [mbind outcome_bind].
  destruct (authorization_check _ _ _) as [c|e|] eqn:Hc; [|done|done].
  intros [= <-]. unfold ics_all_passed. cbn [policy_hash_check two_stage_embedded_check authorization_script_check].
  intros [Hcode Hauth]%andb_true_iff. split; [by apply code_checks_spec|].
  by eapply authorization_check_sound.
Qed.

(** when the authorization check of the federated authorities passes, both
    validators are bound to their policies and two-stage tokens, and the Council's
    two-stage datum in force at the Cardano tip names the expected script. *)
Theorem federated_auth_check_sound a auth tip n r :
  block_no_by_hash L A tip = Ok (Some n) → 0 ≤ n ≤ I32_MAX →
  verify_federated_authority_auth_script (Ok a) (Some (Ok (Some auth))) tip = Ok r →
  federated_all_passed r = true →
  code_bound (fac_council_compiled_code a) (fac_council_policy_id a)
    (fac_council_two_stage_policy_id a) ∧
  code_bound (fac_technical_committee_compiled_code a) (fac_technical_committee_policy_id a)
    (fac_technical_committee_two_stage_policy_id a) ∧
  authorized n (fac_council_two_stage_policy_id a) auth.
Proof.
  intros Hblock Hn. unfold verify_federated_authority_auth_script. cbn [mbind outcome_bind].
  destruct (authorization_check _ _ _) as [c|e|] eqn:Hc; [|done|done].
  intros [= <-]. unfold federated_all_passed.
  cbn [council_policy_hash_check council_two_stage_embedded_check technical_committee_policy_hash_check
       technical_committee_two_stage_embedded_check fed_authorization_script_check].
  rewrite !andb_true_iff. intros [[[[? ?] ?] ?] ?].
  split_and!; [apply code_checks_spec, andb_true_iff; tauto..|].
  by eapply authorization_check_sound.
Qed.
End Auth.

(** the check of the federated authorities never reads the Technical
    Committee's two-stage datum: databases that agree on the Council's token and on
    the tip give the same result, whatever the Committee's token says. *)
Theorem technical_committee_authorization_unread {L} (P : PlutusLib L) (D : Db L) blake rows1 rows2
    block_no a auth tip :
  rows1 (fac_council_two_stage_policy_id a) (bytes_of_string "main") =
    rows2 (fac_council_two_stage_policy_id a) (bytes_of_string "main") →
  let passes rows := ∃ r,
    verify_federated_authority_auth_script P (Build_AuthDb L D rows block_no) blake (Ok a)
      (Some (Ok (Some auth))) tip = Ok r ∧ federated_all_passed r = true in
  passes rows1 ↔ passes rows2.
Proof.
  intros Heq passes. unfold passes, verify_federated_authority_auth_script, authorization_check,
    get_block_number, verify_authorization_script, get_authorization_script_from_datum; clear passes.
  simpl. destruct (block_no tip) as [[n|]|?|]; simpl; [|by split; intros (? & ? & _)..].
  rewrite Heq. destruct (rows2 _ _) as [rows|?|]; simpl;
    [|by split; intros (r & [= <-] & ?); eauto|by split; intros (? & ? & _)].
  destruct (newest_row D rows (wrap 32 n)) as [row|]; simpl;
    [|by split; intros (r & [= <-] & ?); eauto].
  destruct (decode_authorization_from_datum P (gr_full_datum L row)); simpl;
    [by split; intros (r & [= <-] & ?); eauto..|by split; intros (? & ? & _)].
Qed.

(** ** Concrete specifications *)

Module SpecConcrete.
#[export] Instance position_countable : Countable CardanoPosition.
Proof.
  by refine (inj_countable' (λ p, (block_hash p, block_number p, block_timestamp p, tx_index_in_block p))
    (λ '(h, n, t, i), Build_CardanoPosition h n t i) _); intros [].
Defined.
#[export] Instance header_countable : Countable ObservedUtxoHeader.
Proof.
  by refine (inj_countable' (λ h, (tx_position h, CardanoTypes.tx_hash h, utxo_tx_hash h, utxo_index h))
    (λ '(p, a, b, i), Build_ObservedUtxoHeader p a b i) _); intros [].
Defined.
#[export] Instance data_countable : Countable ObservedUtxoData.
Proof.
  refine (inj_countable'
    (λ d, match d with
          | Registration (Build_RegistrationData a k) => inl (inl (a, k))
          | Deregistration (Build_DeregistrationData a k) => inl (inr (a, k))
          | AssetCreate (Build_CreateData v o h i) => inr (inl (v, o, h, i))
          | AssetSpend (Build_SpendData v o h i s) => inr (inr (v, o, h, i, s))
          end)
    (λ x, match x with
          | inl (inl (a, k)) => Registration (Build_RegistrationData a k)
          | inl (inr (a, k)) => Deregistration (Build_DeregistrationData a k)
          | inr (inl (v, o, h, i)) => AssetCreate (Build_CreateData v o h i)
          | inr (inr (v, o, h, i, s)) => AssetSpend (Build_SpendData v o h i s)
          end) _).
  by intros [[]|[]|[]|[]].
Defined.
#[export] Instance utxo_countable : Countable ObservedUtxo.
Proof.
  by refine (inj_countable' (λ u, (header u, data u)) (λ '(h, d), Build_ObservedUtxo h d) _); intros [].
Defined.
#[export] Instance call_eq_dec : EqDecision GenesisCall.
Proof. solve_decision. Defined.
#[export] Instance call_countable : Countable GenesisCall.
Proof.
  refine (inj_countable'
    (λ c, match c with
          | Genesis_send_mn_transaction t => inl (inl t)
          | Genesis_send_mn_system_transaction t => inl (inr t)
          | Genesis_timestamp_set n => inr (inl (inl n))
          | Genesis_remark r => inr (inl (inr r))
          | Genesis_process_tokens u p => inr (inr (Some (u, p)))
          | Genesis_other => inr (inr None)
          end)
    (λ x, match x with
          | inl (inl t) => Genesis_send_mn_transaction t
          | inl (inr t) => Genesis_send_mn_system_transaction t
          | inr (inl (inl n)) => Genesis_timestamp_set n
          | inr (inl (inr r)) => Genesis_remark r
          | inr (inr (Some (u, p))) => Genesis_process_tokens u p
          | inr (inr None) => Genesis_other
          end) _).
  by intros [].
Defined.

(** The number of a call, a bit in each byte. *)
Fixpoint bits (p : positive) : list Z :=
  match p with xH => [] | xO p => 0 :: bits p | xI p => 1 :: bits p end.
Fixpoint of_bits (l : list Z) : positive :=
  match l with [] => xH | 0 :: l => xO (of_bits l) | _ :: l => xI (of_bits l) end.
#[export] Instance codec : ExtrinsicCodec := {|
  encode_bare := λ c, bits (countable.encode c);
  decode_extrinsic := λ l, countable.decode (of_bits l) |}.
#[export] Instance codec_laws : ExtrinsicCodecLaws codec.
Proof.
  split; intros c; simpl.
  - generalize (countable.encode c). intros p. induction p; simpl; repeat constructor; done || lia.
  - assert (∀ p, of_bits (bits p) = p) as -> by (intros p; induction p; simpl; congruence).
    apply countable.decode_encode.
Qed.

Definition position0 : CardanoPosition :=
  {| block_hash := [1]; block_number := 4; block_timestamp := 9; tx_index_in_block := 0 |}.
Definition utxos0 : ObservedUtxos := {| start := position0; end_ := position0; observed := [] |}.
Definition block0 : list (list SerializedTx) :=
  [[{| raw_tx := Raw_System [1]; context_tblock := 7 |}];
   [{| raw_tx := Raw_Midnight [2]; context_tblock := 7 |}]].
(** 79 letters and a letter with an accent. *)
Definition long_message : list Z := repeat 97 79 ++ [195; 169].

Notation lib := CNightFollower.Concrete.lib.
Notation Bytes := CNightFollower.Concrete.Bytes.
Notation plutus := FedAuthFollower.Concrete.plutus.
(** A hash that is the script's last 28 bytes; the code embeds its token. *)
Definition blake0 (l : list Z) : list Z := drop (length l - 28) l.
Definition id (n : Z) : list Z := repeat n 28.
Definition code0 (two_stage policy : Z) : list Z := hex_encode (5 :: id two_stage ++ id policy).
Definition auth_datum (auth : Z) : PlutusData lib :=
  CNightFollower.Concrete.Constr 100 [Bytes [0]; Bytes [0]; Bytes (id auth)].
Definition rows0 (committee : Z) (policy name : list Z) :
    outcome (SqlxError lib CNightFollower.Concrete.small_db) (list (GovernanceBodyUtxoRow lib)) :=
  Ok (if bool_decide (policy = id 1)
      then [FedAuthFollower.Concrete.row 4 (auth_datum 8); FedAuthFollower.Concrete.row 5 (auth_datum 9)]
      else [FedAuthFollower.Concrete.row 3 (auth_datum committee)]).
Definition adb (committee : Z) : AuthDb lib :=
  Build_AuthDb lib CNightFollower.Concrete.small_db (rows0 committee) (λ _, Ok (Some 6)).
#[export] Instance adb_spec committee : OrderBySpec lib (auth_db lib (adb committee)).
Proof. apply CNightFollower.Concrete.db_spec. Qed.
Definition ics0 : IcsAddressesWithCode := {|
  ics_policy_id := id 2; ics_compiled_code := code0 1 2; ics_two_stage_policy_id := id 1 |}.
Definition fac0 : FederatedAuthorityAddressesWithCode := {|
  fac_council_policy_id := id 2; fac_council_compiled_code := code0 1 2;
  fac_council_two_stage_policy_id := id 1;
  fac_technical_committee_policy_id := id 4; fac_technical_committee_compiled_code := code0 3 4;
  fac_technical_committee_two_stage_policy_id := id 3 |}.
End SpecConcrete.
Import SpecConcrete.

Lemma chain_spec_passes_its_checks_witness :
  ∃ exts, get_chainspec_extrinsics block0 None utxos0 (Some long_message) = Ok exts ∧
    omap decode_hex_extrinsic exts =
      [Genesis_send_mn_system_transaction [1]; Genesis_send_mn_transaction [2];
       Genesis_timestamp_set 7000; Genesis_remark long_message] ∧
    verify_genesis_message (E := unit) (Ok exts) (Ok long_message) = Panic.
Proof.
  destruct (chain_spec_passes_its_checks (E := unit) block0 None utxos0 long_message 7)
    as (exts & Hexts & Hcalls & _ & Hmsg).
  - intros tx. cbn. rewrite !elem_of_cons, elem_of_nil. intros [->|[->|[]]]; reflexivity.
  - discriminate.
  - vm_compute. reflexivity.
  - exists exts. split; [exact Hexts|]. split; [exact Hcalls|exact Hmsg].
Defined.

Lemma auth_script_check_sound_witness : authorized plutus (adb 9) 6 (id 1) (id 9).
Proof.
  eapply (auth_script_check_sound plutus (adb 9) blake0 ics0 (id 9) [6] 6
    {| policy_hash_check := {| passed := true |}; two_stage_embedded_check := {| passed := true |};
       authorization_script_check := Some {| passed := true |} |}).
  - reflexivity.
  - split; vm_compute; discriminate.
  - vm_compute. reflexivity.
  - reflexivity.
Defined.

Definition federated_passed : FederatedVerificationResult := {|
  council_policy_hash_check := {| passed := true |};
  council_two_stage_embedded_check := {| passed := true |};
  technical_committee_policy_hash_check := {| passed := true |};
  technical_committee_two_stage_embedded_check := {| passed := true |};
  fed_authorization_script_check := Some {| passed := true |} |}.
Lemma federated_auth_check_sound_witness :
  code_bound blake0 (code0 3 4) (id 4) (id 3) ∧ authorized plutus (adb 9) 6 (id 1) (id 9).
Proof.
  destruct (federated_auth_check_sound plutus (adb 9) blake0 fac0 (id 9) [6] 6 federated_passed)
    as (_ & Hcode & Hauth).
  - reflexivity.
  - split; vm_compute; discriminate.
  - vm_compute. reflexivity.
  - reflexivity.
  - split; [exact Hcode|exact Hauth].
Defined.

(** The Committee's datum names another script than the expected one. *)
Lemma technical_committee_authorization_unread_witness :
  ∃ r, verify_federated_authority_auth_script plutus (adb 0) blake0 (Ok fac0)
    (Some (Ok (Some (id 9)))) [6] = Ok r ∧ federated_all_passed r = true.
Proof.
  apply (technical_committee_authorization_unread plutus CNightFollower.Concrete.small_db blake0
    (rows0 9) (rows0 0) (λ _, Ok (Some 6)) fac0 (id 9) [6]).
  - reflexivity.
  - exists federated_passed. split; vm_compute; reflexivity.
Defined.
