(* ===== verification/GenesisGenerator.v ===== *)
(** * The genesis generator

    Models [util/toolkit/src/genesis_generator.rs]: the pools of NIGHT of a new
    ledger state, the funding of the faucet wallets of a test network, the
    transactions that go into the genesis block and the update that closes it.

    The ledger library, the wallets, the random numbers and the prover are
    parameters ([GenesisLib], [GenesisWallets]); what the theorems use of them is in
    [GenesisLibLaws]. *)

From stdpp Require Import prelude gmap strings.
From S2P Require Import Prelude Frame Collections LedgerErrors LedgerInterface LedgerTransaction.
From S2P Require Import UtxoOrdering LedgerBridge CardanoTypes CNightFollower GenesisSnapshots GenesisSpec.

Open Scope Z_scope.

Definition MINT_AMOUNT : Z := 50_000_000_000_000.
Definition BEGINNING : Z := 1754395200.

(** ** The ledger library *)

Record FeePrices (FixedPoint : Type) : Type := {
  overall_price : FixedPoint; read_factor : FixedPoint; compute_factor : FixedPoint;
  block_usage_factor : FixedPoint; write_factor : FixedPoint;
}.
Arguments overall_price {FixedPoint} _.
Arguments read_factor {FixedPoint} _.
Arguments compute_factor {FixedPoint} _.
Arguments block_usage_factor {FixedPoint} _.
Arguments write_factor {FixedPoint} _.

Record OutputInstructionUnshielded : Type :=
  { amount : Z; target_address : UserAddress; nonce : list Z }.

(** What the generator uses beyond [MnLedger]. *)
Class GenesisLib `{!MnLedger} : Type := {
  LEDGER_MAX_SUPPLY : Z;
  INITIAL_PARAMETERS : LedgerParameters;
  with_genesis_settings :
    string → LedgerParameters → Z → Z → Z → LedgerSystemTransactionError + LedgerState;
  (** [well_formed] with [enforce_balancing], and [cost(.., false)]. *)
  well_formed_with : bool → Transaction → LedgerState → Z → MalformedTransaction + VerifiedTransaction;
  genesis_tx_cost : Transaction → LedgerParameters → option SyntheticCost;
  fp_zero : FixedPoint;
  fp_one : FixedPoint;
  fee_prices : LedgerParameters → FeePrices FixedPoint;
  with_fee_prices : FeePrices FixedPoint → LedgerParameters → LedgerParameters;
  (** Payloads of the system transactions. *)
  parameters_payload : LedgerParameters → SystemPayload;
  reserve_payload : Z → SystemPayload;
  night_payload : list OutputInstructionUnshielded → SystemPayload;
}.

(** Wallets, random numbers, coins, intents and the prover.  A function that draws
    random numbers gives the generator back. *)
Class GenesisWallets `{!MnLedger} : Type := {
  Rng : Type;
  rng_from_seed : list Z → Rng;
  gen_nonce : Rng → list Z * Rng;
  split : Rng → Rng * Rng;
  WalletSeed : Type;
  Wallet : Type;
  wallet_default : WalletSeed → LedgerState → Wallet;
  VerifyingKey : Type;
  verifying_key : Wallet → option VerifyingKey;
  address_from_key : VerifyingKey → UserAddress;
  wallet_user_address : Wallet → list Z;
  wallet_dust_key : Wallet → DustPublicKey;
  Signature : Type;
  sign_with : Wallet → list Z → Rng → Signature * Rng;
  claim_data_to_sign : string → Z → VerifyingKey → list Z → ClaimKind → list Z;
  claim_rewards_transaction :
    string → Z → VerifyingKey → list Z → Signature → ClaimKind → ClaimRewardsTransaction;
  ShieldedTokenType : Type;
  shielded_token_eq_dec :: EqDecision ShieldedTokenType;
  t_token : ShieldedTokenType;
  CoinInfo : Type;
  coin_new : Rng → Z → ShieldedTokenType → CoinInfo * Rng;
  ShieldedOutput : Type;
  output_new : Rng → CoinInfo → Wallet → option ShieldedOutput * Rng;
  ShieldedOffer : Type;
  (** An offer without inputs, normalized. *)
  normalized_offer : list ShieldedOutput → list (ShieldedTokenType * Z) → ShieldedOffer;
  utxo_output_cmp : UtxoOutput → UtxoOutput → comparison;
  DustIntent : Type;
  intent_empty : Rng → Z → DustIntent * Rng;
  with_guaranteed_unshielded : list UtxoOutput → DustIntent → DustIntent;
  intent_data_to_sign : DustIntent → Z → list Z;
  with_dust_registrations :
    list (VerifyingKey * DustPublicKey * Signature) → Z → DustIntent → DustIntent;
  (** Proving and sealing a transaction with one intent. *)
  prove_and_seal :
    string → option string → Z → DustIntent → option ShieldedOffer → Rng → LedgerParameters →
    Transaction;
}.

Record FundingArgs `{!MnLedger} `{!GenesisWallets} : Type := {
  shielded_mint_amount : Z;
  shielded_num_funding_outputs : Z;
  shielded_alt_token_types : list ShieldedTokenType;
  unshielded_mint_amount : Z;
  unshielded_num_funding_outputs : Z;
  unshielded_alt_token_types : list (list Z);
}.

Inductive GenesisGeneratorError : Type :=
| GenesisSystemValidation (e : LedgerSystemTransactionError)
| GenesisValidation (e : MalformedTransaction)
| TxPartialSuccess (failures : gmap Z (option TransactionInvalid))
| TxFailed (e : TransactionInvalid)
| GenFeeCalculationError
| GenBlockLimitExceeded
| GenSerializationError
| MissingVerifyingKey.

(** Splits the first step off a computation that succeeded. *)
Ltac bind_ok H :=
  match type of H with
  | mbind _ ?m = Ok _ =>
      let Hm := fresh "Hm" in destruct m as [?|?|] eqn:Hm; [cbn [mbind outcome_bind] in H|discriminate H|discriminate H]
  end.

(** ** The generator *)

Section Generator.
Context `{!MnLedger} `{!GenesisLib} `{!GenesisWallets}.

Record GenesisGenerator : Type := {
  gen_state : LedgerState;
  gen_txs : list (list SerializedTx);
  gen_fullness : SyntheticCost;
}.

Definition from_sum {A B} (f : A → GenesisGeneratorError) (r : A + B) :
    outcome GenesisGeneratorError B :=
  match r with inl e => Err (f e) | inr b => Ok b end.

(** [self.txs.batches[0].push(..)]: an index out of range is a panic. *)
Definition push_tx (tx : SerializedTx) (batches : list (list SerializedTx)) :
    outcome GenesisGeneratorError (list (list SerializedTx)) :=
  match batches with b :: rest => Ok ((b ++ [tx]) :: rest) | [] => Panic end.

Definition apply_standard_tx (g : GenesisGenerator) (tx : Transaction) (c : BlockContext) :
    outcome GenesisGeneratorError GenesisGenerator :=
  let enforce_balancing := bool_decide (parent_block_hash c ≠ repeat 0 32) in
  valid_tx ← from_sum GenesisValidation (well_formed_with enforce_balancing tx (gen_state g) (tblock c));
  cost ← ok_or (genesis_tx_cost tx (parameters (gen_state g))) GenFeeCalculationError;
  let '(s, result) := ledger_apply (gen_state g) valid_tx (gen_state g, c) in
  match result with
  | Success =>
      raw ← ok_or (midnight_tagged_serialize tx) GenSerializationError;
      txs ← push_tx {| raw_tx := Raw_Midnight raw; context_tblock := tblock c |} (gen_txs g);
      mret {| gen_state := s; gen_txs := txs; gen_fullness := cost_add (gen_fullness g) cost |}
  | PartialSuccess failures => Err (TxPartialSuccess failures)
  | Failure e => Err (TxFailed e)
  end.

Definition apply_system_tx (g : GenesisGenerator) (tx : SystemTx) (c : BlockContext) :
    outcome GenesisGeneratorError GenesisGenerator :=
  s ← from_sum GenesisSystemValidation (ledger_apply_system_tx (gen_state g) tx (tblock c));
  raw ← ok_or (midnight_tagged_serialize tx) GenSerializationError;
  txs ← push_tx {| raw_tx := Raw_System raw; context_tblock := tblock c |} (gen_txs g);
  mret {| gen_state := s; gen_txs := txs;
          gen_fullness := cost_add (gen_fullness g) (system_tx_cost tx (parameters (gen_state g))) |}.

Definition set_parameters (g : GenesisGenerator) (p : LedgerParameters) (c : BlockContext) :
    outcome GenesisGeneratorError GenesisGenerator :=
  apply_system_tx g (OverwriteParameters (parameters_payload p)) c.

Definition without_fees (params : LedgerParameters) : LedgerParameters :=
  with_fee_prices {| overall_price := fp_zero; read_factor := fp_one; compute_factor := fp_one;
                     block_usage_factor := fp_one; write_factor := fp_one |} params.

(** The inner loop of [distribute_night]. *)
Fixpoint reward_outputs (n : nat) (value : Z) (address : UserAddress) (rng : Rng) :
    list OutputInstructionUnshielded * Rng :=
  match n with
  | O => ([], rng)
  | S n =>
      let '(nonce_, rng) := gen_nonce rng in
      let '(rest, rng) := reward_outputs n value address rng in
      ({| amount := value; target_address := address; nonce := nonce_ |} :: rest, rng)
  end.
Fixpoint night_distribution_instructions (funding : FundingArgs) (wallets : list Wallet) (rng : Rng) :
    outcome GenesisGeneratorError (list OutputInstructionUnshielded * Rng) :=
  match wallets with
  | [] => mret ([], rng)
  | wallet :: wallets =>
      key ← ok_or (verifying_key wallet) MissingVerifyingKey;
      let '(outs, rng) :=
        reward_outputs (Z.to_nat (unshielded_num_funding_outputs funding))
          (unshielded_mint_amount funding) (address_from_key key) rng in
      rest ← night_distribution_instructions funding wallets rng;
      mret (outs ++ rest.1, rest.2)
  end.

(** The NIGHT that is moved out of the reserve; the products are [u128]s. *)
Definition reserve_to_distribute (funding : FundingArgs) (wallets : list Wallet) : Z :=
  wrap 128 (wrap 128 (unshielded_mint_amount funding * unshielded_num_funding_outputs funding) *
            Z.of_nat (length wallets)).

Definition distribute_night (g : GenesisGenerator) (c : BlockContext) (funding : FundingArgs)
    (wallets : list Wallet) (rng : Rng) : outcome GenesisGeneratorError (GenesisGenerator * Rng) :=
  g ← apply_system_tx g (DistributeReserve (reserve_payload (reserve_to_distribute funding wallets))) c;
  r ← night_distribution_instructions funding wallets rng;
  g ← apply_system_tx g (DistributeNight Reward (night_payload r.1)) c;
  mret (g, r.2).

Definition build_claim_rewards_tx (g : GenesisGenerator) (wallet : Wallet) (rewards : Z) (rng : Rng) :
    outcome GenesisGeneratorError (Transaction * Rng) :=
  match verifying_key wallet with
  | None => Panic
  | Some owner =>
      let '(nonce_, rng) := gen_nonce rng in
      let net := LedgerBridge.network_id (gen_state g) in
      let '(signature, rng) := sign_with wallet (claim_data_to_sign net rewards owner nonce_ Reward) rng in
      mret (ClaimRewards (claim_rewards_transaction net rewards owner nonce_ signature Reward), rng)
  end.

Fixpoint claim_times (n : nat) (g : GenesisGenerator) (c : BlockContext) (value : Z) (wallet : Wallet)
    (rng : Rng) : outcome GenesisGeneratorError (GenesisGenerator * Rng) :=
  match n with
  | O => mret (g, rng)
  | S n =>
      r ← build_claim_rewards_tx g wallet value rng;
      g ← apply_standard_tx g r.1 c;
      claim_times n g c value wallet r.2
  end.
Fixpoint claim_rewards (g : GenesisGenerator) (c : BlockContext) (funding : FundingArgs)
    (wallets : list Wallet) (rng : Rng) : outcome GenesisGeneratorError (GenesisGenerator * Rng) :=
  match wallets with
  | [] => mret (g, rng)
  | wallet :: wallets =>
      r ← claim_times (Z.to_nat (unshielded_num_funding_outputs funding)) g c
            (unshielded_mint_amount funding) wallet rng;
      claim_rewards r.1 c funding wallets r.2
  end.

(** ** The transaction that registers the dust addresses *)

(** One output per token type of the list; an output that cannot be made is a
    panic. *)
Fixpoint shielded_outputs (value : Z) (tokens : list ShieldedTokenType) (wallet : Wallet) (rng : Rng) :
    outcome GenesisGeneratorError (list ShieldedOutput * Rng) :=
  match tokens with
  | [] => mret ([], rng)
  | token :: tokens =>
      let '(coin, rng) := coin_new rng value token in
      let '(out, rng) := output_new rng coin wallet in
      match out with
      | None => Panic
      | Some out =>
          rest ← shielded_outputs value tokens wallet rng;
          mret (out :: rest.1, rest.2)
      end
  end.
(** For each wallet the loop over [0..num] and the one over the other tokens. *)
Definition minted_tokens (funding : FundingArgs) : list ShieldedTokenType :=
  repeat t_token (Z.to_nat (shielded_num_funding_outputs funding)) ++ shielded_alt_token_types funding.
Fixpoint all_shielded_outputs (funding : FundingArgs) (wallets : list Wallet) (rng : Rng) :
    outcome GenesisGeneratorError (list ShieldedOutput * Rng) :=
  match wallets with
  | [] => mret ([], rng)
  | wallet :: wallets =>
      outs ← shielded_outputs (shielded_mint_amount funding) (minted_tokens funding) wallet rng;
      rest ← all_shielded_outputs funding wallets outs.2;
      mret (outs.1 ++ rest.1, rest.2)
  end.

(** [x as i128] of a [u128], and its negation. *)
Definition as_i128 (x : Z) : Z := if bool_decide (x < 2 ^ 127) then x else x - 2 ^ 128.
Definition neg_i128 (x : Z) : Z := if bool_decide (x = - 2 ^ 127) then x else - x.
Definition shielded_deltas (funding : FundingArgs) (wallets : list Wallet) :
    list (ShieldedTokenType * Z) :=
  let len := Z.of_nat (length wallets) in
  (t_token, neg_i128 (as_i128 (wrap 128
     (wrap 128 (shielded_mint_amount funding * shielded_num_funding_outputs funding) * len)))) ::
  ((λ token, (token, neg_i128 (as_i128 (wrap 128 (shielded_mint_amount funding * len)))))
     <$> shielded_alt_token_types funding).

Definition shielded_offer (wallets : list Wallet) (funding : FundingArgs) (rng : Rng) :
    outcome GenesisGeneratorError (option ShieldedOffer * Rng) :=
  if bool_decide (shielded_mint_amount funding = 0) then mret (None, rng) else
  outs ← all_shielded_outputs funding wallets rng;
  mret (Some (normalized_offer outs.1 (shielded_deltas funding wallets)), outs.2).

Definition unshielded_offer (wallets : list Wallet) (funding : FundingArgs) : list UtxoOutput :=
  sort_by utxo_output_cmp (concat ((λ wallet,
    (λ token, {| out_value := unshielded_mint_amount funding; out_owner := wallet_user_address wallet;
                 out_type := token |}) <$> unshielded_alt_token_types funding) <$> wallets)).

Fixpoint dust_registrations (data_to_sign : list Z) (wallets : list Wallet) (rng : Rng) :
    outcome GenesisGeneratorError (list (VerifyingKey * DustPublicKey * Signature) * Rng) :=
  match wallets with
  | [] => mret ([], rng)
  | wallet :: wallets =>
      let '(signature, rng) := sign_with wallet data_to_sign rng in
      match verifying_key wallet with
      | None => Panic
      | Some night_key =>
          rest ← dust_registrations data_to_sign wallets rng;
          mret ((night_key, wallet_dust_key wallet, signature) :: rest.1, rest.2)
      end
  end.
Definition add_dust_actions (intent : DustIntent) (wallets : list Wallet) (segment_id : Z) (rng : Rng)
    (timestamp : Z) : outcome GenesisGeneratorError (DustIntent * Rng) :=
  regs ← dust_registrations (intent_data_to_sign intent segment_id) wallets rng;
  match regs.1 with
  | [] => mret (intent, regs.2)
  | registrations => mret (with_dust_registrations registrations timestamp intent, regs.2)
  end.

(** [Segment::Fallible]. *)
Definition FALLIBLE_SEGMENT : Z := 1.

Definition register_dust_addresses (g : GenesisGenerator) (c : BlockContext) (funding : FundingArgs)
    (wallets : list Wallet) (rng : Rng) (network : string) (proof_server : option string) :
    outcome GenesisGeneratorError (GenesisGenerator * Rng) :=
  offer ← shielded_offer wallets funding rng;
  let '(intent, rng) := intent_empty offer.2 (tblock c) in
  let intent := with_guaranteed_unshielded (unshielded_offer wallets funding) intent in
  actions ← add_dust_actions intent wallets FALLIBLE_SEGMENT rng (tblock c);
  let '(split_rng, rng) := split actions.2 in
  let genesis_tx := prove_and_seal network proof_server FALLIBLE_SEGMENT actions.1 offer.1 split_rng
                      (parameters (gen_state g)) in
  g ← apply_standard_tx g genesis_tx c;
  mret (g, rng).

(** ** [init] and [new] *)

Definition genesis_block_context (genesis_timestamp : option Z) : BlockContext :=
  let beginning := default BEGINNING genesis_timestamp in
  {| tblock := beginning; tblock_err := 30; parent_block_hash := repeat 0 32;
     last_block_time := beginning |}.

Definition fund_wallets (g : GenesisGenerator) (c : BlockContext) (network : string)
    (proof_server : option string) (funding : FundingArgs) (wallets : list Wallet)
    (original_parameters : LedgerParameters) (rng : Rng) :
    outcome GenesisGeneratorError GenesisGenerator :=
  r ← distribute_night g c funding wallets rng;
  g ← set_parameters r.1 (without_fees original_parameters) c;
  r ← register_dust_addresses g c funding wallets r.2 network proof_server;
  r ← claim_rewards r.1 c funding wallets r.2;
  set_parameters r.1 original_parameters c.

(** The closing [post_block_update]. *)
Definition close_block (g : GenesisGenerator) (c : BlockContext) :
    outcome GenesisGeneratorError GenesisGenerator :=
  normalized_fullness ←
    match clamp_and_normalize (gen_fullness g) (block_limits (parameters (gen_state g))) with
    | Ok n => Ok n | _ => Panic end;
  s ← ok_or (ledger_post_block_update (gen_state g) (tblock c) normalized_fullness
               (compute_overall_fullness normalized_fullness)) GenBlockLimitExceeded;
  mret {| gen_state := s; gen_txs := gen_txs g; gen_fullness := gen_fullness g |}.

Definition init (g : GenesisGenerator) (seed : list Z) (network : string)
    (proof_server : option string) (funding : FundingArgs) (seeds : option (list WalletSeed))
    (cnight_system_tx : option SystemTx) (original_parameters : LedgerParameters)
    (genesis_timestamp : option Z) : outcome GenesisGeneratorError GenesisGenerator :=
  let wallets := (λ seed, wallet_default seed (gen_state g)) <$> default [] seeds in
  let rng := rng_from_seed seed in
  let c := genesis_block_context genesis_timestamp in
  g ← match wallets with
      | [] => mret g
      | _ => fund_wallets g c network proof_server funding wallets original_parameters rng
      end;
  g ← match cnight_system_tx with Some tx => apply_system_tx g tx c | None => mret g end;
  close_block g c.

(** The pools; the differences are [u128]s. *)
Definition genesis_pools (ics_config reserve_config : option LockedConfig) : Z * Z * Z :=
  let treasury := default 0 (lc_total_amount <$> ics_config) in
  let reserve_pool := default 0 (lc_total_amount <$> reserve_config) in
  let reserve_pool :=
    if bool_decide (reserve_pool = 0) then wrap 128 (LEDGER_MAX_SUPPLY - treasury) else reserve_pool in
  let locked_pool := wrap 128 (wrap 128 (LEDGER_MAX_SUPPLY - reserve_pool) - treasury) in
  (locked_pool, reserve_pool, treasury).

Definition generator_new (seed : list Z) (network : string) (proof_server : option string)
    (funding : FundingArgs) (seeds : option (list WalletSeed)) (cnight_system_tx : option SystemTx)
    (ics_config reserve_config : option LockedConfig) (ledger_parameters : option LedgerParameters)
    (genesis_timestamp : option Z) : outcome GenesisGeneratorError GenesisGenerator :=
  let '(locked_pool, reserve_pool, treasury) := genesis_pools ics_config reserve_config in
  let original_parameters := default INITIAL_PARAMETERS ledger_parameters in
  s ← from_sum GenesisSystemValidation
        (with_genesis_settings network original_parameters locked_pool reserve_pool treasury);
  init {| gen_state := s; gen_txs := [[]]; gen_fullness := cost_zero |} seed network proof_server funding
    seeds cnight_system_tx original_parameters genesis_timestamp.

(** ** Runs of the generator

    Every change to a generator before the block is closed applies a transaction. *)
Inductive applied (c : BlockContext) : GenesisGenerator → GenesisGenerator → Prop :=
| applied_refl g : applied c g g
| applied_system g g1 g2 tx :
    applied c g g1 → apply_system_tx g1 tx c = Ok g2 → applied c g g2
| applied_standard g g1 g2 tx :
    applied c g g1 → apply_standard_tx g1 tx c = Ok g2 → applied c g g2.
#[local] Hint Constructors applied : core.

Lemma set_parameters_applied c g g1 p g2 :
  applied c g g1 → set_parameters g1 p c = Ok g2 → applied c g g2.
Proof. unfold set_parameters. eauto. Qed.

Lemma distribute_night_applied c g g1 funding wallets rng r :
  applied c g g1 → distribute_night g1 c funding wallets rng = Ok r → applied c g r.1.
Proof.
  unfold distribute_night. intros Hg Hr. bind_ok Hr. bind_ok Hr. bind_ok Hr. injection Hr as <-. simpl. eauto.
Qed.

Lemma claim_times_applied n c g g1 v w rng r :
  applied c g g1 → claim_times n g1 c v w rng = Ok r → applied c g r.1.
Proof.
  revert g1 rng. induction n as [|n IH]; intros g1 rng Hg Hr; simpl in Hr; [by injection Hr as <-|].
  bind_ok Hr. bind_ok Hr. eauto.
Qed.
Lemma claim_rewards_applied c g g1 funding wallets rng r :
  applied c g g1 → claim_rewards g1 c funding wallets rng = Ok r → applied c g r.1.
Proof.
  revert g1 rng. induction wallets as [|w wallets IH]; intros g1 rng Hg Hr; simpl in Hr;
    [by injection Hr as <-|].
  bind_ok Hr. eapply IH; [|exact Hr]. by eapply claim_times_applied.
Qed.

Lemma register_dust_applied c g g1 funding wallets rng net server r :
  applied c g g1 → register_dust_addresses g1 c funding wallets rng net server = Ok r →
  applied c g r.1.
Proof.
  unfold register_dust_addresses. intros Hg Hr. bind_ok Hr. destruct (intent_empty _ _) as [i rng1].
  bind_ok Hr. destruct (split _) as [r1 r2]. bind_ok Hr. injection Hr as <-. simpl. eauto.
Qed.

Lemma fund_wallets_applied c g g1 net server funding wallets p rng g2 :
  applied c g g1 → fund_wallets g1 c net server funding wallets p rng = Ok g2 → applied c g g2.
Proof.
  unfold fund_wallets. intros Hg Hr. do 4 bind_ok Hr.
  eapply set_parameters_applied; [|exact Hr]. eapply claim_rewards_applied; [|done].
  eapply register_dust_applied; [|done]. eapply set_parameters_applied; [|done].
  by eapply distribute_night_applied.
Qed.

(** Generation is a run from the new state, then the closing of the block. *)
Lemma generator_new_inv seed net server funding seeds cnight ics reserve params ts g :
  generator_new seed net server funding seeds cnight ics reserve params ts = Ok g →
  ∃ s g1, with_genesis_settings net (default INITIAL_PARAMETERS params) (genesis_pools ics reserve).1.1
            (genesis_pools ics reserve).1.2 (genesis_pools ics reserve).2 = inr s ∧
    applied (genesis_block_context ts) {| gen_state := s; gen_txs := [[]]; gen_fullness := cost_zero |} g1 ∧
    close_block g1 (genesis_block_context ts) = Ok g.
Proof.
  unfold generator_new. destruct (genesis_pools ics reserve) as [[l r] t]. simpl. intros Hr.
  destruct (with_genesis_settings _ _ _ _ _) as [?|s]; [done|]. cbn [from_sum mbind outcome_bind] in Hr.
  unfold init in Hr. bind_ok Hr. bind_ok Hr.
  eexists s, _. split; [done|]. split; [|exact Hr].
  destruct cnight as [tx|]; [eapply applied_system; [|done]|injection Hm0 as <-];
    (destruct (_ <$> default [] seeds); [injection Hm as <-; constructor|];
     eapply fund_wallets_applied; [|done]; constructor).
Qed.

(** ** The genesis block has one time *)

Lemma apply_system_tx_inv g tx c g' :
  apply_system_tx g tx c = Ok g' →
  ledger_apply_system_tx (gen_state g) tx (tblock c) = inr (gen_state g') ∧
  ∃ raw, push_tx {| raw_tx := Raw_System raw; context_tblock := tblock c |} (gen_txs g) = Ok (gen_txs g').
Proof.
  unfold apply_system_tx. intros Hr. destruct (ledger_apply_system_tx _ _ _) as [?|s]; [done|].
  cbn [from_sum mbind outcome_bind] in Hr. do 2 bind_ok Hr. injection Hr as <-. simpl. eauto.
Qed.
Lemma apply_standard_tx_inv g tx c g' :
  apply_standard_tx g tx c = Ok g' →
  (∃ v, ledger_apply (gen_state g) v (gen_state g, c) = (gen_state g', Success)) ∧
  ∃ raw, push_tx {| raw_tx := Raw_Midnight raw; context_tblock := tblock c |} (gen_txs g) = Ok (gen_txs g').
Proof.
  unfold apply_standard_tx. intros Hr. bind_ok Hr. bind_ok Hr.
  destruct (ledger_apply _ _ _) as [s []] eqn:Hs; [|done|done].
  do 2 bind_ok Hr. injection Hr as <-. simpl. eauto.
Qed.

Definition block_at (t : Z) (batches : list (list SerializedTx)) : Prop :=
  ∃ b, batches = [b] ∧ ∀ tx, tx ∈ b → context_tblock tx = t.
Lemma push_tx_block_at t raw batches batches' :
  block_at t batches → push_tx {| raw_tx := raw; context_tblock := t |} batches = Ok batches' →
  block_at t batches'.
Proof.
  intros (b & -> & Hb) [= <-]. eexists; split; [done|].
  intros tx [Htx| ->%list_elem_of_singleton]%elem_of_app; auto.
Qed.
Lemma applied_block_at c g g' :
  applied c g g' → block_at (tblock c) (gen_txs g) → block_at (tblock c) (gen_txs g').
Proof.
  induction 1 as [|g g1 g2 tx _ IH Htx|g g1 g2 tx _ IH Htx]; intros Hb; [done|..].
  - apply apply_system_tx_inv in Htx as (_ & raw & Htx). by apply (push_tx_block_at _ _ _ _ (IH Hb) Htx).
  - apply apply_standard_tx_inv in Htx as (_ & raw & Htx). by apply (push_tx_block_at _ _ _ _ (IH Hb) Htx).
Qed.
Lemma close_block_inv g c g' :
  close_block g c = Ok g' →
  gen_txs g' = gen_txs g ∧ ∃ n o, ledger_post_block_update (gen_state g) (tblock c) n o = Some (gen_state g').
Proof.
  unfold close_block. intros Hr. bind_ok Hr.
  destruct (ledger_post_block_update _ _ _ _) eqn:Hs; [|done]. injection Hr as <-. simpl. eauto.
Qed.

(** C33: the transactions of a generated genesis block share the genesis time, so
    that a chain specification can be built from it (when the block is empty, from
    a Cardano tip of that time), and the specification passes the timestamp check. *)
Theorem generated_block_gives_chain_spec `{!ExtrinsicCodec} `{!ExtrinsicCodecLaws _} {E}
    seed net server funding seeds cnight ics reserve params ts g tip u remark :
  generator_new seed net server funding seeds cnight ics reserve params ts = Ok g →
  (concat (gen_txs g) = [] → tip = Some (default BEGINNING ts)) →
  ∃ exts, get_chainspec_extrinsics (gen_txs g) tip u remark = Ok exts ∧
    ∃ r, verify_genesis_timestamp (E := E) (Ok exts) (Ok (default BEGINNING ts)) = Ok r ∧
      timestamp_all_passed r = true.
Proof.
  intros (s & g1 & _ & Happ & Hclose)%generator_new_inv Htip.
  apply close_block_inv in Hclose as (Htxs & _).
  assert (block_at (default BEGINNING ts) (gen_txs g)) as (b & Hb & Htimes).
  { rewrite Htxs. apply (applied_block_at _ _ _ Happ). eexists; split; [done|]. by intros ? ?%elem_of_nil. }
  eexists; split; [|apply timestamp_check_passes].
  apply chainspec_extrinsics_eq; [|done]. rewrite Hb. simpl. by rewrite app_nil_r.
Qed.

(** ** Funding balances *)

Lemma reward_outputs_spec n v a rng outs rng' :
  reward_outputs n v a rng = (outs, rng') →
  length outs = n ∧ ∀ o, o ∈ outs → amount o = v ∧ target_address o = a.
Proof.
  revert rng outs. induction n as [|n IH]; intros rng outs Hr; simpl in Hr.
  { injection Hr as <- _. split; [done|]. by intros ? ?%elem_of_nil. }
  destruct (gen_nonce rng) as [nn r1]. destruct (reward_outputs n v a r1) as [rest r2] eqn:Hrest.
  injection Hr as <- <-. apply IH in Hrest as [Hlen Hall]. split; [simpl; lia|].
  intros o [->|Ho]%elem_of_cons; [done|auto].
Qed.
Lemma zsum_constant {A} (f : A → Z) l v : (∀ x, x ∈ l → f x = v) → zsum f l = Z.of_nat (length l) * v.
Proof.
  induction l as [|x l IH]; intros Hf; [done|]. rewrite length_cons. simpl.
  rewrite (Hf x) by left. rewrite IH by (intros; apply Hf; by right). lia.
Qed.
Lemma instructions_sum funding wallets rng r :
  night_distribution_instructions funding wallets rng = Ok r →
  0 ≤ unshielded_num_funding_outputs funding →
  zsum amount r.1 = unshielded_mint_amount funding * unshielded_num_funding_outputs funding *
                    Z.of_nat (length wallets).
Proof.
  intros Hr Hn. revert rng r Hr. induction wallets as [|w wallets IH]; intros rng r Hr; simpl in Hr.
  { injection Hr as <-. simpl. lia. }
  bind_ok Hr. destruct (reward_outputs _ _ _ _) as [outs rng1] eqn:Houts. bind_ok Hr.
  injection Hr as <-. apply IH in Hm0. apply reward_outputs_spec in Houts as [Hlen Hall].
  cbn [fst]. rewrite zsum_app, Hm0, (zsum_constant _ _ (unshielded_mint_amount funding)), Hlen
    by (intros; by apply Hall).
  rewrite length_cons, Nat2Z.inj_succ, Z2Nat.id by done. ring.
Qed.
Lemma instructions_targets funding wallets rng r :
  night_distribution_instructions funding wallets rng = Ok r →
  ∃ keys, verifying_key <$> wallets = Some <$> keys ∧
    target_address <$> r.1 =
      concat ((λ k, repeat (address_from_key k) (Z.to_nat (unshielded_num_funding_outputs funding))) <$> keys).
Proof.
  revert rng r. induction wallets as [|w wallets IH]; intros rng r Hr; simpl in Hr.
  { injection Hr as <-. by exists []. }
  destruct (verifying_key w) as [k|] eqn:Hk; [|done]. cbn [ok_or mbind outcome_bind] in Hr.
  destruct (reward_outputs _ _ _ _) as [outs rng1] eqn:Houts. bind_ok Hr. injection Hr as <-.
  apply IH in Hm as (keys & Hkeys & Htargets). apply reward_outputs_spec in Houts as [Hlen Hall].
  exists (k :: keys). rewrite !fmap_cons, Hkeys, Hk. split; [done|].
  simpl. rewrite fmap_app, Htargets. f_equal. rewrite <-Hlen. clear -Hall.
  induction outs as [|o outs IH]; [done|]. rewrite fmap_cons. simpl. f_equal.
  - apply Hall. left.
  - apply IH. intros; apply Hall. by right.
Qed.

(** the rewards given to the faucet wallets, as many as were asked for to each
    wallet in turn, add up to exactly the amount moved out of the reserve, as long
    as that amount fits a [u128]. *)
Theorem distribution_is_balanced g c funding wallets rng g' rng' :
  distribute_night g c funding wallets rng = Ok (g', rng') →
  0 ≤ unshielded_mint_amount funding → 0 ≤ unshielded_num_funding_outputs funding →
  unshielded_mint_amount funding * unshielded_num_funding_outputs funding < 2 ^ 128 →
  unshielded_mint_amount funding * unshielded_num_funding_outputs funding *
    Z.of_nat (length wallets) < 2 ^ 128 →
  ∃ total instructions s keys,
    ledger_apply_system_tx (gen_state g) (DistributeReserve (reserve_payload total)) (tblock c) = inr s ∧
    ledger_apply_system_tx s (DistributeNight Reward (night_payload instructions)) (tblock c) =
      inr (gen_state g') ∧
    zsum amount instructions = total ∧
    verifying_key <$> wallets = Some <$> keys ∧
    target_address <$> instructions =
      concat ((λ k, repeat (address_from_key k) (Z.to_nat (unshielded_num_funding_outputs funding))) <$> keys).
Proof.
  intros Hr Hb0 Hb1 Hb2 Hb3. unfold distribute_night in Hr. bind_ok Hr. bind_ok Hr. bind_ok Hr.
  injection Hr as <- <-.
  apply apply_system_tx_inv in Hm as (Hreserve & _). apply apply_system_tx_inv in Hm1 as (Hnight & _).
  pose proof (instructions_sum _ _ _ _ Hm0 Hb1) as Hsum.
  apply instructions_targets in Hm0 as (keys & Hkeys & Htargets).
  do 4 eexists. split_and!; [exact Hreserve|exact Hnight| |exact Hkeys|exact Htargets].
  rewrite Hsum. unfold reserve_to_distribute.
  rewrite !wrap_small; [done|..]; unfold in_range, umax; rewrite ?wrap_small by (unfold in_range, umax; lia); lia.
Qed.

(** ** The shielded offer balances

    [coin_value] and [coin_type] read a coin; [output_coin] is the coin an output
    commits to. *)
Section Offer.
Context (coin_value : CoinInfo → Z) (coin_type : CoinInfo → ShieldedTokenType).
Context (output_coin : ShieldedOutput → CoinInfo).
Context (coin_new_spec : ∀ rng v t, coin_value (coin_new rng v t).1 = v ∧ coin_type (coin_new rng v t).1 = t).
Context (output_new_spec : ∀ rng coin w out, (output_new rng coin w).1 = Some out → output_coin out = coin).

Definition minted (token : ShieldedTokenType) (o : ShieldedOutput) : Z :=
  if bool_decide (coin_type (output_coin o) = token) then coin_value (output_coin o) else 0.
Definition owed (token : ShieldedTokenType) (d : ShieldedTokenType * Z) : Z :=
  if bool_decide (d.1 = token) then d.2 else 0.
Definition copies (token : ShieldedTokenType) (l : list ShieldedTokenType) : Z :=
  zsum (λ t, if bool_decide (t = token) then 1 else 0) l.

Lemma shielded_outputs_minted token v tokens w rng r :
  shielded_outputs v tokens w rng = Ok r → zsum (minted token) r.1 = v * copies token tokens.
Proof.
  revert rng r. induction tokens as [|t tokens IH]; intros rng r Hr; simpl in Hr.
  { injection Hr as <-. unfold copies. simpl. lia. }
  pose proof (coin_new_spec rng v t) as [Hv Ht]. destruct (coin_new rng v t) as [coin rng1].
  pose proof (output_new_spec rng1 coin w) as Hout. destruct (output_new rng1 coin w) as [[o|] rng2]; [|done].
  bind_ok Hr. injection Hr as <-. apply IH in Hm. cbn [fst zsum]. rewrite Hm. simpl in Hv, Ht.
  change (copies token (t :: tokens)) with ((if bool_decide (t = token) then 1 else 0) + copies token tokens).
  unfold minted. rewrite (Hout o eq_refl), Ht, Hv. case_bool_decide; ring.
Qed.
Lemma all_outputs_minted token funding wallets rng r :
  all_shielded_outputs funding wallets rng = Ok r →
  zsum (minted token) r.1 =
    shielded_mint_amount funding * copies token (minted_tokens funding) * Z.of_nat (length wallets).
Proof.
  revert rng r. induction wallets as [|w wallets IH]; intros rng r Hr; simpl in Hr.
  { injection Hr as <-. simpl. lia. }
  bind_ok Hr. bind_ok Hr. injection Hr as <-. apply IH in Hm0.
  apply (shielded_outputs_minted token) in Hm. cbn [fst]. rewrite zsum_app, Hm, Hm0.
  rewrite length_cons, Nat2Z.inj_succ. ring.
Qed.
Lemma copies_app token l k : copies token (l ++ k) = copies token l + copies token k.
Proof. apply zsum_app. Qed.
Lemma copies_repeat token t n :
  copies token (repeat t n) = if bool_decide (t = token) then Z.of_nat n else 0.
Proof.
  induction n as [|n IH]; [by case_bool_decide|]. unfold copies in *. simpl. rewrite IH.
  case_bool_decide; lia.
Qed.
Lemma neg_as_small x : 0 ≤ x < 2 ^ 127 → neg_i128 (as_i128 (wrap 128 x)) = - x.
Proof.
  intros Hx. rewrite wrap_small by (unfold in_range, umax; lia). unfold as_i128, neg_i128.
  rewrite (bool_decide_true (x < 2 ^ 127)) by lia. by rewrite bool_decide_false by lia.
Qed.
Lemma deltas_owed token funding wallets :
  0 ≤ shielded_mint_amount funding → 0 ≤ shielded_num_funding_outputs funding →
  shielded_mint_amount funding * shielded_num_funding_outputs funding < 2 ^ 128 →
  shielded_mint_amount funding * shielded_num_funding_outputs funding * Z.of_nat (length wallets) < 2 ^ 127 →
  shielded_mint_amount funding * Z.of_nat (length wallets) < 2 ^ 127 →
  zsum (owed token) (shielded_deltas funding wallets) =
    - (shielded_mint_amount funding * copies token (minted_tokens funding) * Z.of_nat (length wallets)).
Proof.
  intros Hb0 Hb1 Hb2 Hb3 Hb4. unfold shielded_deltas. cbn [zsum]. unfold owed at 1. cbn [fst snd].
  rewrite (wrap_small 128 (_ * shielded_num_funding_outputs funding)) by (unfold in_range, umax; lia).
  rewrite !neg_as_small by lia. unfold minted_tokens. rewrite copies_app, copies_repeat, Z2Nat.id by done.
  assert (zsum (owed token) ((λ t, (t, - (shielded_mint_amount funding * Z.of_nat (length wallets))))
    <$> shielded_alt_token_types funding) =
    - (shielded_mint_amount funding * Z.of_nat (length wallets)) * copies token (shielded_alt_token_types funding)) as ->.
  { unfold copies. induction (shielded_alt_token_types funding) as [|t l IH]; [simpl; lia|].
    rewrite fmap_cons. cbn [zsum]. rewrite IH. unfold owed at 1. cbn [fst snd]. case_bool_decide; ring. }
  case_bool_decide; ring.
Qed.

(** the deltas of the shielded offer owe, for every token, exactly what its
    outputs mint, whatever tokens are asked for (the amounts fitting an [i128]). *)
Theorem shielded_offer_balances token funding wallets rng offer rng' :
  shielded_offer wallets funding rng = Ok (Some offer, rng') →
  0 ≤ shielded_mint_amount funding → 0 ≤ shielded_num_funding_outputs funding →
  shielded_mint_amount funding * shielded_num_funding_outputs funding < 2 ^ 128 →
  shielded_mint_amount funding * shielded_num_funding_outputs funding * Z.of_nat (length wallets) < 2 ^ 127 →
  shielded_mint_amount funding * Z.of_nat (length wallets) < 2 ^ 127 →
  ∃ outputs deltas, offer = normalized_offer outputs deltas ∧
    zsum (minted token) outputs + zsum (owed token) deltas = 0.
Proof.
  unfold shielded_offer. intros Hr ? ? ? ? ?. destruct (bool_decide _); [done|]. bind_ok Hr.
  injection Hr as <- <-. do 2 eexists. split; [done|].
  rewrite deltas_owed by done. apply (all_outputs_minted token) in Hm. rewrite Hm. ring.
Qed.
End Offer.
End Generator.
