(* ===== verification/GenesisLedger.v ===== *)
(** * The ledger state of the genesis block

    Models [node/src/genesis/verification/verify_ledger_state_genesis.rs], the
    command that checks the ledger state in a raw chain specification before a
    launch, and composes it with the generator of that state.

    The ledger state is a parameter, seen through [GenesisState]; [GenesisLaws] says
    what the library documents of it.  Files are passed as what was read of them,
    and floating point numbers are those of the Standard Library's [SpecFloat]. *)

From Stdlib Require Import SpecFloat.
From stdpp Require Import prelude gmap strings.
From S2P Require Import Prelude Frame Collections LedgerErrors LedgerInterface LedgerTransaction.
From S2P Require Import UtxoOrdering LedgerBridge GenesisSnapshots GenesisSpec GenesisGenerator.

Open Scope Z_scope.

Definition STARS_PER_NIGHT : Z := 1_000_000.
Definition MAX_SUPPLY : Z := 24_000_000_000 * STARS_PER_NIGHT.
Definition EXPECTED_RESERVE_VALUE : Z := 6_000_000_000_873_988.
Definition EXPECTED_ICS_VALUE : Z := 1_200_000_000_000_000.

(** ** What the checks read of the ledger *)

Class GenesisState `{!MnLedger} : Type := {
  (** [LedgerState::new]. *)
  state_new : string → LedgerState;
  (** NIGHT, in stars ([u128]). *)
  treasury_night : LedgerState → option Z;
  reserve_pool : LedgerState → Z;
  block_reward_pool : LedgerState → Z;
  locked_pool : LedgerState → Z;
  utxo_value : LedgerState → Z;
  contract_value : LedgerState → Z;
  nullifiers_is_empty : LedgerState → bool;
  contract_is_empty : LedgerState → bool;
  DustState : Type;
  dust : LedgerState → DustState;
  dust_hash : DustState → list Z;
  address_delegation_len : DustState → Z;
  generating_tree_first_free : DustState → Z;
  (** [TimeFilterMap::get(t).is_some()]. *)
  RootHistory : Type;
  history_get : RootHistory → Z → bool;
  past_roots : LedgerState → RootHistory;
  utxo_root_history : DustState → RootHistory;
  generation_root_history : DustState → RootHistory;
  (** [f64::from], and [PartialEq] of the fields other than the prices. *)
  f64_from : FixedPoint → spec_float;
  limits_eqb : LedgerParameters → LedgerParameters → bool;
  dust_parameters_eqb : LedgerParameters → LedgerParameters → bool;
  cost_model_eqb : LedgerParameters → LedgerParameters → bool;
  global_ttl : LedgerParameters → Z;
  bridge_fee_basis_points : LedgerParameters → Z;
  bridge_min_amount : LedgerParameters → Z;
}.

Inductive VerifyLedgerStateGenesisError : Type :=
| State_IoError
| State_JsonError
| MissingGenesisState
| State_InvalidHex
| State_DeserializationError.

Record LedgerStateResult : Type := {
  dust_state_ok : bool;
  empty_state_ok : bool;
  supply_invariant_ok : bool;
  ledger_parameters_ok : bool;
  timestamp_in_state_ok : bool;
}.
Definition state_all_passed (r : LedgerStateResult) : bool :=
  dust_state_ok r && empty_state_ok r && supply_invariant_ok r && ledger_parameters_ok r &&
  timestamp_in_state_ok r.

(** ** [f64] *)

Definition f64_sub := SFsub 53 1024.
Definition f64_mul := SFmul 53 1024.
Definition f64_div := SFdiv 53 1024.
Definition f64_zero : spec_float := S754_zero false.
Definition f64_hundred : spec_float := S754_finite false 7036874417766400 (-46).
(** [MAX_DEVIATION_PCT]: 5.0. *)
Definition MAX_DEVIATION_PCT : spec_float := S754_finite false 5629499534213120 (-50).

Definition deviation_pct (actual expected : spec_float) : spec_float :=
  if SFeqb expected f64_zero then
    if SFeqb actual f64_zero then f64_zero else S754_infinity false
  else f64_mul (SFabs (f64_div (f64_sub actual expected) expected)) f64_hundred.
(** [deviation_pct > MAX_DEVIATION_PCT]. *)
Definition deviates (actual expected : spec_float) : bool :=
  SFltb MAX_DEVIATION_PCT (deviation_pct actual expected).

Section Checks.
Context `{!MnLedger} `{!GenesisLib} `{!GenesisState}.

(** ** Loading; the arguments are the fields that were read *)

Definition load_ledger_state
    (genesis_state_hex : outcome VerifyLedgerStateGenesisError (option (list Z))) :
    outcome VerifyLedgerStateGenesisError LedgerState :=
  field ← genesis_state_hex;
  hex ← ok_or field MissingGenesisState;
  bytes ← ok_or (hex_decode (strip_0x hex)) State_InvalidHex;
  ok_or (midnight_tagged_deserialize bytes) State_DeserializationError.

Definition load_cnight_system_tx
    (config_system_tx : outcome VerifyLedgerStateGenesisError (option (list Z))) :
    outcome VerifyLedgerStateGenesisError (option SystemTx) :=
  field ← config_system_tx;
  match field with
  | Some system_tx =>
      tx ← ok_or (midnight_tagged_deserialize system_tx) State_DeserializationError;
      mret (Some tx)
  | None => mret None
  end.

(** ** The checks; their messages are left out *)

Definition is_mainnet (network : option string) : bool := bool_decide (network = Some "mainnet"%string).

Definition verify_dust_state (s : LedgerState)
    (cnight_config : option (outcome VerifyLedgerStateGenesisError (option (list Z))))
    (network : option string) (genesis_timestamp : Z) : bool :=
  match cnight_config with
  | None => false
  | Some config =>
      match load_cnight_system_tx config with
      | Ok (Some system_tx) =>
          let fresh_state := state_new (network_id s) in
          match ledger_apply_system_tx fresh_state system_tx genesis_timestamp with
          | inr expected_state =>
              let genesis_dust := dust s in
              let expected_dust := dust expected_state in
              if is_mainnet network then
                bool_decide (address_delegation_len genesis_dust = address_delegation_len expected_dust) &&
                bool_decide (generating_tree_first_free genesis_dust =
                             generating_tree_first_free expected_dust) &&
                bool_decide (dust_hash genesis_dust = dust_hash expected_dust)
              else
                negb (bool_decide (generating_tree_first_free genesis_dust <
                                   generating_tree_first_free expected_dust))
          | inl _ => false
          end
      | Ok None =>
          let has_delegations := negb (bool_decide (address_delegation_len (dust s) = 0)) in
          let has_generating_entries := bool_decide (generating_tree_first_free (dust s) > 0) in
          if is_mainnet network then negb (has_delegations || has_generating_entries) else true
      | _ => false
      end
  end.

Definition verify_empty_state (s : LedgerState) (network : option string) : bool :=
  match network with
  | None => false
  | Some net =>
      if bool_decide (net ≠ "mainnet"%string) then true else
      bool_decide (utxos s = ∅) && bool_decide (utxo_value s = 0) && nullifiers_is_empty s &&
      contract_is_empty s && bool_decide (contract_value s = 0)
  end.

Definition unclaimed_rewards (s : LedgerState) : Z :=
  map_fold (λ _ amount acc, wrap 128 (acc + amount)) 0 (unclaimed_block_rewards s).
Definition supply_total (s : LedgerState) : Z :=
  sat_add 128 (sat_add 128 (sat_add 128 (sat_add 128 (sat_add 128 (sat_add 128
    (utxo_value s) (locked_pool s)) (reserve_pool s)) (block_reward_pool s))
    (default 0 (treasury_night s))) (unclaimed_rewards s)) (contract_value s).
Definition verify_supply_invariant (s : LedgerState) : bool :=
  bool_decide (supply_total s = MAX_SUPPLY) &&
  bool_decide (reserve_pool s = EXPECTED_RESERVE_VALUE) &&
  bool_decide (default 0 (treasury_night s) = EXPECTED_ICS_VALUE).

Definition fee_fields (p : FeePrices FixedPoint) : list spec_float :=
  f64_from <$> [overall_price p; read_factor p; compute_factor p; block_usage_factor p; write_factor p].
Definition verify_ledger_parameters (s : LedgerState)
    (ledger_params : option (outcome VerifyLedgerStateGenesisError LedgerParameters)) : bool :=
  match ledger_params with
  | Some (Ok expected_params) =>
      let state_params := parameters s in
      forallb (λ f, negb (deviates f.1 f.2))
        (zip (fee_fields (fee_prices state_params)) (fee_fields (fee_prices expected_params))) &&
      limits_eqb state_params expected_params && dust_parameters_eqb state_params expected_params &&
      cost_model_eqb state_params expected_params &&
      bool_decide (global_ttl state_params = global_ttl expected_params) &&
      bool_decide (bridge_fee_basis_points state_params = bridge_fee_basis_points expected_params) &&
      bool_decide (bridge_min_amount state_params = bridge_min_amount expected_params)
  | _ => false
  end.

(** [expected_secs - 1] is a [u64]. *)
Definition verify_genesis_timestamp_in_state (s : LedgerState) (genesis_timestamp : Z) : bool :=
  let before_ts := wrap 64 (genesis_timestamp - 1) in
  forallb (λ h, history_get h genesis_timestamp && negb (history_get h before_ts))
    [past_roots s; utxo_root_history (dust s); generation_root_history (dust s)].

Definition verify_ledger_state_genesis
    (genesis_state_hex : outcome VerifyLedgerStateGenesisError (option (list Z)))
    (cnight_config : option (outcome VerifyLedgerStateGenesisError (option (list Z))))
    (ledger_params : option (outcome VerifyLedgerStateGenesisError LedgerParameters))
    (network : option string) (genesis_timestamp : Z) :
    outcome VerifyLedgerStateGenesisError LedgerStateResult :=
  s ← load_ledger_state genesis_state_hex;
  mret {| dust_state_ok := verify_dust_state s cnight_config network genesis_timestamp;
          empty_state_ok := verify_empty_state s network;
          supply_invariant_ok := verify_supply_invariant s;
          ledger_parameters_ok := verify_ledger_parameters s ledger_params;
          timestamp_in_state_ok := verify_genesis_timestamp_in_state s genesis_timestamp |}.
End Checks.

(** ** What the library documents *)

(** The amounts of NIGHT of a state, and what the empty state check looks at. *)
Record Accounts : Type := {
  acc_locked : Z; acc_reserve : Z; acc_treasury : Z; acc_block_reward : Z;
  acc_unclaimed : gmap UserAddress Z; acc_utxo_value : Z; acc_contract_value : Z;
  acc_utxos : gset Utxo; acc_no_nullifiers : bool; acc_no_contracts : bool;
}.
Definition accounts `{!MnLedger} `{!GenesisState} (s : LedgerState) : Accounts := {|
  acc_locked := locked_pool s; acc_reserve := reserve_pool s; acc_treasury := default 0 (treasury_night s);
  acc_block_reward := block_reward_pool s; acc_unclaimed := unclaimed_block_rewards s;
  acc_utxo_value := utxo_value s; acc_contract_value := contract_value s;
  acc_utxos := utxos s; acc_no_nullifiers := nullifiers_is_empty s; acc_no_contracts := contract_is_empty s |}.
Definition genesis_accounts (locked reserve treasury : Z) : Accounts := {|
  acc_locked := locked; acc_reserve := reserve; acc_treasury := treasury; acc_block_reward := 0;
  acc_unclaimed := ∅; acc_utxo_value := 0; acc_contract_value := 0; acc_utxos := ∅;
  acc_no_nullifiers := true; acc_no_contracts := true |}.
Definition histories `{!MnLedger} `{!GenesisState} (s : LedgerState) : list RootHistory :=
  [past_roots s; utxo_root_history (dust s); generation_root_history (dust s)].

Class GenesisLaws `{!MnLedger} `{!GenesisLib} `{!GenesisState} : Type := {
  (** A history is a set of times; [get] looks for the last one up to a time. *)
  history_times : RootHistory → list Z;
  history_get_spec h t : history_get h t = true ↔ ∃ k, k ∈ history_times h ∧ k ≤ t;
  ledger_max_supply : LEDGER_MAX_SUPPLY = 24_000_000_000_000_000;
  (** A new state has the pools it is given and nothing else. *)
  settings_accounts net p l r t s :
    with_genesis_settings net p l r t = inr s → accounts s = genesis_accounts l r t;
  settings_dust net p l r t s :
    with_genesis_settings net p l r t = inr s →
    address_delegation_len (dust s) = 0 ∧ generating_tree_first_free (dust s) = 0;
  settings_histories net p l r t s h :
    with_genesis_settings net p l r t = inr s → h ∈ histories s → history_times h = [];
  (** An update from Cardano changes the generation of DUST only. *)
  dust_update_accounts s es t s' :
    ledger_apply_system_tx s (CNightGeneratesDustUpdate es) t = inr s' →
    accounts s' = accounts s ∧ history_times <$> histories s' = history_times <$> histories s;
  (** The end of a block adds its time to the histories and adjusts the prices. *)
  post_block_accounts s t n o s' :
    ledger_post_block_update s t n o = Some s' → accounts s' = accounts s;
  post_block_dust s t n o s' :
    ledger_post_block_update s t n o = Some s' →
    address_delegation_len (dust s') = address_delegation_len (dust s) ∧
    generating_tree_first_free (dust s') = generating_tree_first_free (dust s);
  post_block_histories s t n o s' :
    ledger_post_block_update s t n o = Some s' →
    history_times <$> histories s' = (λ h, t :: history_times h) <$> histories s;
}.

(** ** What the checks show *)

Section Theorems.
Context `{!MnLedger} `{!GenesisLib} `{!GenesisState}.

Lemma unclaimed_rewards_sum s :
  unclaimed_rewards s = wrap 128 (zsum snd (map_to_list (unclaimed_block_rewards s))).
Proof.
  unfold unclaimed_rewards. induction (unclaimed_block_rewards s) as [|a v m Ha Hfold IH] using map_first_key_ind.
  - by rewrite map_fold_empty, map_to_list_empty.
  - rewrite map_fold_insert_first_key, map_to_list_insert_first_key by done. simpl. rewrite IH. unfold wrap. 
    rewrite Zplus_mod_idemp_l. f_equal. lia.
Qed.

(** the supply check is exact: although it adds with saturation, it accepts a
    state just when the NIGHT of all pools, outputs, contracts and (up to the
    wrap-around of their sum) unclaimed rewards is 24 billion, the reserve and the
    treasury being those of the launch. *)
Theorem supply_check_exact s :
  0 ≤ utxo_value s → 0 ≤ locked_pool s → 0 ≤ block_reward_pool s → 0 ≤ contract_value s →
  verify_supply_invariant s = true ↔
  utxo_value s + locked_pool s + reserve_pool s + block_reward_pool s + default 0 (treasury_night s) +
    wrap 128 (zsum snd (map_to_list (unclaimed_block_rewards s))) + contract_value s
      = 24_000_000_000_000_000 ∧
  reserve_pool s = 6_000_000_000_873_988 ∧ default 0 (treasury_night s) = 1_200_000_000_000_000.
Proof.
  intros ? ? ? ?. unfold verify_supply_invariant, supply_total.
  rewrite unclaimed_rewards_sum, !andb_true_iff, !bool_decide_eq_true.
  pose proof (wrap_range 128 (zsum snd (map_to_list (unclaimed_block_rewards s)))) as Hw.
  change MAX_SUPPLY with 24_000_000_000_000_000. unfold EXPECTED_RESERVE_VALUE, EXPECTED_ICS_VALUE.
  unfold sat_add, in_range in *. change (umax 128) with 340282366920938463463374607431768211455 in *. lia.
Qed.

Section Laws.
Context `{!GenesisLaws}.

Lemma history_check h t :
  0 < t < 2 ^ 64 → history_get h t && negb (history_get h (wrap 64 (t - 1))) = true ↔
    t ∈ history_times h ∧ ∀ k, k ∈ history_times h → t ≤ k.
Proof.
  intros Ht. rewrite wrap_small by (unfold in_range, umax; lia).
  rewrite andb_true_iff, negb_true_iff, <-not_true_iff_false, !history_get_spec. split.
  - intros [(k & Hk & Hle) Hno]. assert (∀ k, k ∈ history_times h → t ≤ k) as Hmin.
    { intros k' Hk'. destruct (decide (t ≤ k')); [done|]. destruct Hno. exists k'. split; [done|lia]. }
    assert (k = t) as -> by (specialize (Hmin k Hk); lia). done.
  - intros [Hin Hmin]. split; [by exists t|]. intros (k & Hk & Hle). specialize (Hmin k Hk). lia.
Qed.

Lemma timestamp_in_state_spec s t :
  0 < t < 2 ^ 64 →
  verify_genesis_timestamp_in_state s t = true ↔
  ∀ ts, ts ∈ history_times <$> histories s → t ∈ ts ∧ ∀ k, k ∈ ts → t ≤ k.
Proof.
  intros Ht. unfold verify_genesis_timestamp_in_state. rewrite forallb_forall.
  setoid_rewrite <-list_elem_of_In. fold (histories s). setoid_rewrite history_check; [|done].
  split.
  - intros Hall ts (h & -> & Hh)%list_elem_of_fmap. by apply Hall.
  - intros Hall h Hh. apply (Hall (history_times h)). by apply list_elem_of_fmap_2.
Qed.

(** the timestamp check accepts a state just when the genesis time is the first
    time in each of the three root histories. *)
Theorem timestamp_in_state_exact s t :
  0 < t < 2 ^ 64 →
  verify_genesis_timestamp_in_state s t = true ↔
  ∀ ts, ts ∈ history_times <$> [past_roots s; utxo_root_history (dust s); generation_root_history (dust s)] →
    t ∈ ts ∧ ∀ k, k ∈ ts → t ≤ k.
Proof. apply timestamp_in_state_spec. Qed.

(** ** A launch *)

Context `{!GenesisWallets}.

(** The state of a network without faucet wallets: the settings, the update from
    Cardano, the end of the block. *)
Lemma launch_inv seed net server funding cnight ics reserve params t g :
  generator_new seed net server funding None (CNightGeneratesDustUpdate <$> cnight)
    ics reserve params (Some t) = Ok g →
  ∃ s0 s1 n o, with_genesis_settings net (default INITIAL_PARAMETERS params)
      (genesis_pools ics reserve).1.1 (genesis_pools ics reserve).1.2 (genesis_pools ics reserve).2 = inr s0 ∧
    match cnight with
    | Some es => ledger_apply_system_tx s0 (CNightGeneratesDustUpdate es) t = inr s1
    | None => s1 = s0
    end ∧ ledger_post_block_update s1 t n o = Some (gen_state g).
Proof.
  unfold generator_new. destruct (genesis_pools ics reserve) as [[l r] tr]. simpl. intros Hr.
  destruct (with_genesis_settings _ _ _ _ _) as [?|s0]; [done|].
  cbn [from_sum mbind outcome_bind] in Hr. unfold init in Hr. simpl in Hr. bind_ok Hr.
  apply close_block_inv in Hr as (_ & n & o & Hpost). exists s0, (gen_state a), n, o.
  split; [done|]. split; [|exact Hpost]. destruct cnight as [es|]; simpl in Hm.
  - by apply apply_system_tx_inv in Hm as [Hm _].
  - by injection Hm as <-.
Qed.

Lemma launch_pools ics reserve :
  lc_total_amount <$> ics = Some EXPECTED_ICS_VALUE →
  lc_total_amount <$> reserve = Some EXPECTED_RESERVE_VALUE →
  genesis_pools ics reserve = (MAX_SUPPLY - EXPECTED_RESERVE_VALUE - EXPECTED_ICS_VALUE,
                               EXPECTED_RESERVE_VALUE, EXPECTED_ICS_VALUE).
Proof. unfold genesis_pools. intros -> ->. rewrite ledger_max_supply. by vm_compute. Qed.

Lemma launch_empty s l r tr :
  accounts s = genesis_accounts l r tr → verify_empty_state s (Some "mainnet"%string) = true.
Proof.
  unfold accounts, genesis_accounts. intros [= Hl Hr Ht Hb Hu Huv Hcv Hus Hn Hc].
  unfold verify_empty_state. rewrite bool_decide_false by tauto.
  by rewrite Hus, Huv, Hcv, Hn, Hc, !bool_decide_true.
Qed.

Lemma launch_supply s :
  accounts s = genesis_accounts (MAX_SUPPLY - EXPECTED_RESERVE_VALUE - EXPECTED_ICS_VALUE)
                 EXPECTED_RESERVE_VALUE EXPECTED_ICS_VALUE →
  verify_supply_invariant s = true.
Proof.
  unfold accounts, genesis_accounts. intros [= Hl Hr Ht Hb Hu Huv Hcv Hus Hn Hc].
  unfold verify_supply_invariant, supply_total, unclaimed_rewards.
  by rewrite Hl, Hr, Ht, Hb, Hu, Huv, Hcv, map_fold_empty.
Qed.

(** What every generated state has in common with the one of the settings. *)
Lemma launch_common seed net server funding cnight ics reserve params t g :
  generator_new seed net server funding None (CNightGeneratesDustUpdate <$> cnight) ics reserve params (Some t) = Ok g →
  accounts (gen_state g) = genesis_accounts (genesis_pools ics reserve).1.1
    (genesis_pools ics reserve).1.2 (genesis_pools ics reserve).2 ∧
  history_times <$> histories (gen_state g) = [[t]; [t]; [t]].
Proof.
  intros (s0 & s1 & n & o & Hset & Hstep & Hpost)%launch_inv.
  assert (accounts s1 = accounts s0 ∧ history_times <$> histories s1 = history_times <$> histories s0)
    as [Hacc1 Hhist1].
  { destruct cnight; [by eapply dust_update_accounts|by rewrite Hstep]. }
  split.
  - rewrite (post_block_accounts _ _ _ _ _ Hpost), Hacc1. by eapply settings_accounts.
  - rewrite (post_block_histories _ _ _ _ _ Hpost).
    change (cons t ∘ history_times <$> histories s1 = [[t]; [t]; [t]]).
    rewrite list_fmap_compose, Hhist1. unfold histories. cbn.
    by rewrite !(settings_histories _ _ _ _ _ _ _ Hset) by (unfold histories; set_solver).
Qed.

(** C32: A genesis state that is generated at a time [t] for mainnet without faucet
    wallets, with any snapshots of ICS and reserve and with or without an update from
    Cardano, passes the check that the state is empty, and the timestamp check for the
    time [t] and for no other (positive, 64-bit) time; without an update from Cardano, and
    none in the cNIGHT file, it passes the dust check.  Assumed of the ledger library: a
    new state has nothing but the pools it is given; an update from Cardano changes only
    the generation of DUST; the end of a block adds its time to the root histories; a
    history finds the last of its times up to a given one. *)
Theorem launch_state_passes seed net server funding cnight ics reserve params t g :
  generator_new seed net server funding None (CNightGeneratesDustUpdate <$> cnight)
    ics reserve params (Some t) = Ok g →
  verify_empty_state (gen_state g) (Some "mainnet"%string) = true ∧
  (∀ t', 0 < t' < 2 ^ 64 → verify_genesis_timestamp_in_state (gen_state g) t' = true ↔ t' = t) ∧
  (cnight = None → verify_dust_state (gen_state g) (Some (Ok None)) (Some "mainnet"%string) t = true).
Proof.
  intros Hg. destruct (launch_common _ _ _ _ _ _ _ _ _ _ Hg) as [Hacc Hhist]. split_and!.
  - by eapply launch_empty.
  - intros t' Ht'. rewrite timestamp_in_state_spec, Hhist by done. split.
    + intros Hall. destruct (Hall [t] ltac:(left)) as [?%list_elem_of_singleton _]. done.
    + intros ->. intros ts Hts. assert (ts = [t]) as -> by set_solver.
      split; [left|]. by intros k ->%list_elem_of_singleton.
  - intros ->. apply launch_inv in Hg as (s0 & s1 & n & o & Hset & -> & Hpost).
    unfold verify_dust_state. simpl. destruct (post_block_dust _ _ _ _ _ Hpost) as [-> ->].
    by destruct (settings_dust _ _ _ _ _ _ Hset) as [-> ->].
Qed.

(** With the totals of the launch it passes the supply check. *)
Theorem launch_supply_passes seed net server funding cnight ics reserve params t g :
  generator_new seed net server funding None (CNightGeneratesDustUpdate <$> cnight)
    (Some ics) (Some reserve) params (Some t) = Ok g →
  lc_total_amount ics = EXPECTED_ICS_VALUE → lc_total_amount reserve = EXPECTED_RESERVE_VALUE →
  verify_supply_invariant (gen_state g) = true.
Proof.
  intros [Hacc _]%launch_common Hics Hres. rewrite launch_pools in Hacc by (simpl; congruence).
  by apply launch_supply.
Qed.
End Laws.

(** ** The dust check of mainnet *)

(** on mainnet, with a system transaction in the cNIGHT file, no state passes
    both the dust check and the timestamp check, provided that replaying the
    transaction leaves the root histories alone: the former asks for the same hash
    as the replayed state, the latter for a time in the histories under that hash. *)
Theorem mainnet_dust_check_excludes_timestamp s tx_bytes tx t :
  (∀ d d', dust_hash d = dust_hash d' → d = d') →
  (∀ net s', ledger_apply_system_tx (state_new net) tx t = inr s' →
     history_get (utxo_root_history (dust s')) t = false) →
  midnight_tagged_deserialize tx_bytes = Some tx →
  verify_dust_state s (Some (Ok (Some tx_bytes))) (Some "mainnet"%string) t = true →
  verify_genesis_timestamp_in_state s t = false.
Proof.
  intros Hhash Hreplay Htx. unfold verify_dust_state. simpl. rewrite Htx. simpl.
  destruct (ledger_apply_system_tx _ tx t) as [?|s'] eqn:Hs'; [done|].
  change (is_mainnet (Some "mainnet"%string)) with true.
  rewrite !andb_true_iff, !bool_decide_eq_true. intros [_ Heq%Hhash].
  unfold verify_genesis_timestamp_in_state. simpl. rewrite Heq, (Hreplay _ _ Hs').
  by rewrite andb_false_r.
Qed.

(** ** The fee prices *)

Definition is_number (x : spec_float) : bool :=
  match x with S754_zero _ | S754_finite _ _ _ => true | _ => false end.
Lemma deviates_self x : is_number x = true → deviates x x = false.
Proof.
  unfold deviates, deviation_pct. destruct x as [[]|?| |sx m e]; try done. intros _.
  replace (SFeqb (S754_finite sx m e) f64_zero) with false by (by destruct sx).
  replace (f64_sub (S754_finite sx m e) (S754_finite sx m e)) with (S754_zero false); [by destruct sx|].
  unfold f64_sub, SFsub. by rewrite Z.sub_diag.
Qed.
Lemma deviates_from_zero x : is_number x = true → deviates x f64_zero = negb (SFeqb x f64_zero).
Proof. by destruct x as [?|?| |[] ? ?]. Qed.

(** prices that are numbers: the parameters check accepts the very parameters
    of the state, and when a price is expected to be zero, only the price zero. *)
Theorem parameters_check_bounds s expected :
  (∀ q, is_number (f64_from q) = true) →
  limits_eqb (parameters s) (parameters s) = true →
  dust_parameters_eqb (parameters s) (parameters s) = true →
  cost_model_eqb (parameters s) (parameters s) = true →
  verify_ledger_parameters s (Some (Ok (parameters s))) = true ∧
  (f64_from (overall_price (fee_prices expected)) = f64_zero →
   verify_ledger_parameters s (Some (Ok expected)) = true →
   SFeqb (f64_from (overall_price (fee_prices (parameters s)))) f64_zero = true).
Proof.
  intros Hnum Hl Hd Hc. split.
  - unfold verify_ledger_parameters. rewrite Hl, Hd, Hc, !bool_decide_true by done. simpl.
    by rewrite !deviates_self by apply Hnum.
  - intros Hzero. unfold verify_ledger_parameters, fee_fields. simpl.
    rewrite Hzero, deviates_from_zero, negb_involutive by apply Hnum.
    by destruct (SFeqb _ f64_zero).
Qed.
End Theorems.

(** ** A concrete ledger *)

Module LaunchConcrete.
Import LedgerBridge.Concrete.
Record CState : Type := {
  cs_net : string; cs_price : Z; cs_locked : Z; cs_reserve : Z; cs_treasury : Z; cs_reward : Z;
  cs_unclaimed : gmap UserAddress Z; cs_utxo_value : Z; cs_delegations : Z;
  cs_roots : list Z; cs_utxo_roots : list Z; cs_generation_roots : list Z;
}.
Inductive Payload : Type :=
| Pay_price (p : Z) | Pay_reserve (a : Z) | Pay_night (l : list OutputInstructionUnshielded).
Notation CSys := (SystemTransaction Payload (CNightGeneratesDustEvent Z)).

Definition reward (m : gmap UserAddress Z) (o : OutputInstructionUnshielded) : gmap UserAddress Z :=
  <[target_address o := default 0 (m !! target_address o) + amount o]> m.
Definition c_system (s : CState) (tx : CSys) : LedgerSystemTransactionError + CState :=
  match tx with
  | OverwriteParameters (Pay_price p) => inr {| cs_net := cs_net s; cs_price := p;
      cs_locked := cs_locked s; cs_reserve := cs_reserve s; cs_treasury := cs_treasury s;
      cs_reward := cs_reward s; cs_unclaimed := cs_unclaimed s; cs_utxo_value := cs_utxo_value s;
      cs_delegations := cs_delegations s; cs_roots := cs_roots s; cs_utxo_roots := cs_utxo_roots s;
      cs_generation_roots := cs_generation_roots s |}
  | DistributeReserve (Pay_reserve a) => inr {| cs_net := cs_net s; cs_price := cs_price s;
      cs_locked := cs_locked s; cs_reserve := cs_reserve s - a; cs_treasury := cs_treasury s;
      cs_reward := cs_reward s + a; cs_unclaimed := cs_unclaimed s; cs_utxo_value := cs_utxo_value s;
      cs_delegations := cs_delegations s; cs_roots := cs_roots s; cs_utxo_roots := cs_utxo_roots s;
      cs_generation_roots := cs_generation_roots s |}
  | DistributeNight Reward (Pay_night l) => inr {| cs_net := cs_net s; cs_price := cs_price s;
      cs_locked := cs_locked s; cs_reserve := cs_reserve s; cs_treasury := cs_treasury s;
      cs_reward := cs_reward s - zsum amount l; cs_unclaimed := foldl reward (cs_unclaimed s) l;
      cs_utxo_value := cs_utxo_value s; cs_delegations := cs_delegations s; cs_roots := cs_roots s;
      cs_utxo_roots := cs_utxo_roots s; cs_generation_roots := cs_generation_roots s |}
  | CNightGeneratesDustUpdate es => inr {| cs_net := cs_net s; cs_price := cs_price s;
      cs_locked := cs_locked s; cs_reserve := cs_reserve s; cs_treasury := cs_treasury s;
      cs_reward := cs_reward s; cs_unclaimed := cs_unclaimed s; cs_utxo_value := cs_utxo_value s;
      cs_delegations := cs_delegations s + Z.of_nat (length es); cs_roots := cs_roots s;
      cs_utxo_roots := cs_utxo_roots s; cs_generation_roots := cs_generation_roots s |}
  | _ => inr s
  end.
Definition c_post (s : CState) (t : Z) : CState := {|
  cs_net := cs_net s; cs_price := cs_price s; cs_locked := cs_locked s; cs_reserve := cs_reserve s;
  cs_treasury := cs_treasury s; cs_reward := cs_reward s; cs_unclaimed := cs_unclaimed s;
  cs_utxo_value := cs_utxo_value s; cs_delegations := cs_delegations s; cs_roots := t :: cs_roots s;
  cs_utxo_roots := t :: cs_utxo_roots s; cs_generation_roots := t :: cs_generation_roots s |}.
Definition c_new (net : string) (price l r t : Z) : CState := {|
  cs_net := net; cs_price := price; cs_locked := l; cs_reserve := r; cs_treasury := t; cs_reward := 0;
  cs_unclaimed := ∅; cs_utxo_value := 0; cs_delegations := 0; cs_roots := []; cs_utxo_roots := [];
  cs_generation_roots := [] |}.

#[export] Instance l_ledger : MnLedger := {|
  mn_transactions := c_transactions;
  FixedPoint := Z; fp_cmp := Z.compare; into_atomic_units := λ a w, a * w;
  cost_add := zip_cost Z.add;
  normalize := λ c l, if within c l then Some {| n_read_time := read_time c;
    n_compute_time := compute_time c; n_block_usage := block_usage c;
    n_bytes_written := bytes_written c; n_bytes_churned := bytes_churned c |} else None;
  LedgerState := CState; LedgerParameters := Z; ContractState := unit; CoinComs := unit;
  ZswapState := unit; MerkleTreeDigest := unit;
  state_hash := λ _, []; LedgerBridge.network_id := cs_net; utxos := λ _, ∅; parameters := cs_price;
  block_limits := λ _, limits; unclaimed_block_rewards := cs_unclaimed; state_index := λ _ _, None;
  zswap_coin_coms := λ _, tt; zswap_filter := λ _ _, tt; zswap_state_of_coin_coms := λ _, tt;
  coin_coms_rehash_root := λ _, None;
  TransactionIdentifier := unit; VerifiedTransaction := Transaction;
  transaction_hash := λ _, []; identifiers := λ _, []; tx_cost := λ _ _, Some unit_cost;
  well_formed := λ tx _ _, inr tx;
  ledger_apply := λ s _ _, (s, Success);
  SystemPayload := Payload; DustPublicKey := Z;
  system_transaction_hash := λ _, []; system_tx_cost := λ _ _, unit_cost;
  ledger_apply_system_tx := λ s tx _, c_system s tx;
  ledger_post_block_update := λ s t _ _, Some (c_post s t);
  transaction_codec := {| midnight_tagged_serialize := λ _, Some [2];
    midnight_tagged_deserialize := λ _, None |};
  system_transaction_codec := {| midnight_tagged_serialize := λ _, Some [1];
    midnight_tagged_deserialize := λ _, Some (CNightGeneratesDustUpdate []) |};
  event_codec := no_codec; ledger_state_codec := no_codec;
  contract_address_tagged_codec := no_codec; contract_address_codec := no_plain_codec;
  contract_state_codec := no_codec; zswap_state_codec := no_codec;
  merkle_digest_codec := no_plain_codec; ledger_parameters_codec := no_codec;
  identifier_codec := no_codec; dust_public_key_codec := no_plain_codec;
|}.

#[export] Instance l_lib : GenesisLib := {|
  LEDGER_MAX_SUPPLY := 24_000_000_000_000_000;
  INITIAL_PARAMETERS := 10 : @LedgerParameters l_ledger;
  with_genesis_settings := λ net p l r t, inr (c_new net p l r t);
  well_formed_with := λ _ tx _ _, inr tx;
  genesis_tx_cost := λ _ _, Some unit_cost;
  fp_zero := 0 : @FixedPoint l_ledger; fp_one := 1 : @FixedPoint l_ledger;
  fee_prices := λ p, Build_FeePrices Z p 1 1 1 1 : FeePrices (@FixedPoint l_ledger);
  with_fee_prices := λ f _, overall_price f : @LedgerParameters l_ledger;
  parameters_payload := Pay_price : @LedgerParameters l_ledger → @SystemPayload l_ledger;
  reserve_payload := Pay_reserve : Z → @SystemPayload l_ledger;
  night_payload := Pay_night : list OutputInstructionUnshielded → @SystemPayload l_ledger;
|}.

(** Small numbers are exact. *)
Definition c_f64 (q : Z) : spec_float :=
  let x := binary_normalize 53 1024 q 0 false in if is_number x then x else f64_zero.
(** The dust state is part of the state; its hash lists its fields. *)
Definition dust_of (s : CState) : Z * list Z * list Z :=
  (cs_delegations s, cs_utxo_roots s, cs_generation_roots s).
#[export] Instance l_state : GenesisState := {|
  state_new := λ net, c_new net 10 0 0 0 : @LedgerState l_ledger;
  treasury_night := λ s : CState, Some (cs_treasury s); reserve_pool := cs_reserve;
  block_reward_pool := cs_reward; locked_pool := cs_locked; utxo_value := cs_utxo_value;
  contract_value := λ _, 0; nullifiers_is_empty := λ _, true; contract_is_empty := λ _, true;
  DustState := Z * list Z * list Z; dust := dust_of;
  dust_hash := λ d, [Zpos (countable.encode d)];
  address_delegation_len := λ d, d.1.1; generating_tree_first_free := λ d, d.1.1;
  RootHistory := list Z; history_get := λ h t, bool_decide (Exists (λ k, k ≤ t) h);
  past_roots := cs_roots; utxo_root_history := λ d, d.1.2; generation_root_history := snd;
  f64_from := c_f64;
  limits_eqb := λ _ _, true; dust_parameters_eqb := λ _ _, true; cost_model_eqb := λ _ _, true;
  global_ttl := λ _, 0; bridge_fee_basis_points := λ _, 0; bridge_min_amount := λ _, 0;
|}.

#[export, program] Instance l_laws : GenesisLaws := {| history_times := λ h : list Z, h |}.
Next Obligation. intros h t. simpl. by rewrite bool_decide_eq_true, Exists_exists. Qed.
Next Obligation. done. Qed.
Next Obligation. by intros net p l r t s [= <-]. Qed.
Next Obligation. by intros net p l r t s [= <-]. Qed.
Next Obligation.
  intros net p l r t s h [= <-]. unfold histories. simpl.
  rewrite !elem_of_cons, elem_of_nil. by intros [->|[->|[->|[]]]].
Qed.
Next Obligation. by intros s es t s' [= <-]. Qed.
Next Obligation. by intros s t n o s' [= <-]. Qed.
Next Obligation. by intros s t n o s' [= <-]. Qed.
Next Obligation. by intros s t n o s' [= <-]. Qed.

#[export] Instance l_wallets : GenesisWallets := {|
  Rng := Z; rng_from_seed := λ _, 0; gen_nonce := λ r, ([r], r + 1); split := λ r, (r, r + 1);
  WalletSeed := Z; Wallet := Z; wallet_default := λ n _, n;
  VerifyingKey := Z; verifying_key := Some; address_from_key := λ k, {| user_address := [k] |};
  wallet_user_address := λ k, [k]; wallet_dust_key := λ k, k : @DustPublicKey l_ledger;
  Signature := unit; sign_with := λ _ _ r, (tt, r);
  claim_data_to_sign := λ _ _ _ _ _, [];
  claim_rewards_transaction := λ _ v _ _ _ _, v : @ClaimRewardsTransaction c_transactions;
  ShieldedTokenType := Z; shielded_token_eq_dec := _; t_token := 0;
  CoinInfo := Z * Z; coin_new := λ r v t, ((v, t), r + 1);
  ShieldedOutput := Z * Z; output_new := λ r c _, (Some c, r + 1);
  ShieldedOffer := list (Z * Z) * list (Z * Z); normalized_offer := pair;
  utxo_output_cmp := λ a b, out_value a ?= out_value b;
  DustIntent := list Z; intent_empty := λ r t, ([t], r + 1);
  with_guaranteed_unshielded := λ _ i, i; intent_data_to_sign := λ i _, i;
  with_dust_registrations := λ regs _ i, i ++ ((λ r, r.1.1) <$> regs);
  prove_and_seal := λ _ _ _ _ _ _ _, ClaimRewards (0 : @ClaimRewardsTransaction c_transactions) : @Transaction (@mn_transactions l_ledger);
|}.

Definition funding0 : FundingArgs := {|
  shielded_mint_amount := 7; shielded_num_funding_outputs := 2; shielded_alt_token_types := [1; 1; 2];
  unshielded_mint_amount := MINT_AMOUNT; unshielded_num_funding_outputs := 2;
  unshielded_alt_token_types := [] |}.
Definition locked0 (total : Z) : LockedConfig := {|
  lc_validator_address := []; lc_asset := {| la_policy_id := []; la_asset_name := [] |};
  lc_utxos := []; lc_total_amount := total |}.
End LaunchConcrete.
Import LaunchConcrete.

#[local] Existing Instances GenesisSpec.SpecConcrete.codec GenesisSpec.SpecConcrete.codec_laws.

(** A faucet wallet, then an update from Cardano. *)
Definition funded : outcome GenesisGeneratorError GenesisGenerator :=
  generator_new [] "undeployed" None funding0 (Some [5]) (Some (CNightGeneratesDustUpdate [])) None None None
    (Some 9).
Definition funded_gen : GenesisGenerator :=
  match funded with Ok g => g | _ => {| gen_state := c_new "" 0 0 0 0 : LedgerState; gen_txs := []; gen_fullness := cost_zero |} end.
Lemma generated_block_gives_chain_spec_witness :
  ∃ exts, get_chainspec_extrinsics (gen_txs funded_gen) None GenesisSpec.SpecConcrete.utxos0 None = Ok exts ∧
    length (concat (gen_txs funded_gen)) = 8%nat ∧
    ∃ r, verify_genesis_timestamp (E := unit) (Ok exts) (Ok 9) = Ok r ∧ timestamp_all_passed r = true.
Proof.
  destruct (generated_block_gives_chain_spec (E := unit) [] "undeployed" None funding0 (Some [5])
    (Some (CNightGeneratesDustUpdate [])) None None None (Some 9) funded_gen None GenesisSpec.SpecConcrete.utxos0 None)
    as (exts & Hexts & Hr).
  - vm_cast_no_check (@eq_refl (outcome GenesisGeneratorError GenesisGenerator) (Ok funded_gen)).
  - vm_compute. discriminate.
  - exists exts. split; [exact Hexts|]. split; [vm_compute; reflexivity|exact Hr].
Defined.

Definition gen0 : GenesisGenerator := {|
  gen_state := c_new "" 10 0 (10 ^ 15) 0 : LedgerState; gen_txs := [[]]; gen_fullness := cost_zero |}.
Definition context0 : BlockContext := genesis_block_context (Some 9).
Definition distributed : GenesisGenerator :=
  match distribute_night gen0 context0 funding0 [5; 6] 0 with Ok r => r.1 | _ => gen0 end.
Lemma distribution_is_balanced_witness :
  ∃ total instructions, zsum amount instructions = total ∧
    target_address <$> instructions =
      [{| user_address := [5] |}; {| user_address := [5] |}; {| user_address := [6] |}; {| user_address := [6] |}].
Proof.
  destruct (distribution_is_balanced gen0 context0 funding0 [5; 6] 0 distributed 4)
    as (total & l & s & keys & _ & _ & Hsum & Hkeys & Htargets).
  - reflexivity.
  - vm_compute. discriminate.
  - vm_compute. discriminate.
  - vm_compute. reflexivity.
  - vm_compute. reflexivity.
  - exists total, l. split; [exact Hsum|]. assert (keys = [5; 6]) as ->; [|exact Htargets].
    destruct keys as [|a [|b [|]]]; try discriminate Hkeys. injection Hkeys as <- <-. reflexivity.
Defined.

Definition coin_value0 : CoinInfo → Z := fst.
Definition coin_type0 : CoinInfo → ShieldedTokenType := snd.
Definition output_coin0 : ShieldedOutput → CoinInfo := λ c, c.
Definition offer0 : ShieldedOffer :=
  match shielded_offer [5; 6] funding0 0 with Ok (Some offer, _) => offer | _ => normalized_offer [] [] end.
Lemma shielded_offer_balances_witness :
  ∃ outputs deltas, offer0 = normalized_offer outputs deltas ∧
    zsum (minted coin_value0 coin_type0 output_coin0 1) outputs + zsum (owed 1) deltas = 0.
Proof.
  apply (shielded_offer_balances coin_value0 coin_type0 output_coin0) with
    (funding := funding0) (wallets := [5; 6]) (rng := 0) (rng' := 20).
  - intros; split; reflexivity.
  - intros rng coin w out [= <-]. reflexivity.
  - vm_compute. reflexivity.
  - vm_compute. discriminate.
  - vm_compute. discriminate.
  - vm_compute. reflexivity.
  - vm_compute. reflexivity.
  - vm_compute. reflexivity.
Defined.

Definition launch_state : LedgerState :=
  c_post (c_new "mainnet" 10 16_799_999_999_126_012 6_000_000_000_873_988 1_200_000_000_000_000) 9.
Lemma supply_check_exact_witness :
  verify_supply_invariant launch_state = true ∧ reserve_pool launch_state = 6_000_000_000_873_988.
Proof.
  assert (verify_supply_invariant launch_state = true) as Hok by (vm_compute; reflexivity).
  split; [exact Hok|]. apply (supply_check_exact launch_state); [vm_compute; discriminate..|exact Hok].
Defined.

Lemma timestamp_in_state_exact_witness :
  verify_genesis_timestamp_in_state launch_state 9 = true.
Proof.
  apply (timestamp_in_state_exact launch_state 9).
  - split; reflexivity.
  - intros ts. cbn. rewrite !elem_of_cons, elem_of_nil.
    intros [->|[->|[->|[]]]]; (split; [left|]; intros k; rewrite list_elem_of_singleton; intros ->; apply Z.le_refl).
Defined.

Definition launch_gen (cnight : option (list (CNightGeneratesDustEvent Z))) : GenesisGenerator :=
  match generator_new [] "mainnet" None funding0 None (CNightGeneratesDustUpdate <$> cnight)
          (Some (locked0 EXPECTED_ICS_VALUE)) (Some (locked0 EXPECTED_RESERVE_VALUE)) None (Some 9) with
  | Ok g => g
  | _ => gen0
  end.
Lemma launch_generated cnight : cnight = None ∨ cnight = Some [] →
  generator_new [] "mainnet" None funding0 None (CNightGeneratesDustUpdate <$> cnight)
    (Some (locked0 EXPECTED_ICS_VALUE)) (Some (locked0 EXPECTED_RESERVE_VALUE)) None (Some 9) = Ok (launch_gen cnight).
Proof.
  intros [->| ->].
  - vm_cast_no_check (@eq_refl (outcome GenesisGeneratorError GenesisGenerator) (Ok (launch_gen None))).
  - vm_cast_no_check (@eq_refl (outcome GenesisGeneratorError GenesisGenerator) (Ok (launch_gen (Some [])))).
Qed.
Lemma launch_state_passes_witness :
  verify_genesis_timestamp_in_state (gen_state (launch_gen (Some []))) 9 = true ∧
  verify_dust_state (gen_state (launch_gen None)) (Some (Ok None)) (Some "mainnet"%string) 9 = true.
Proof.
  destruct (launch_state_passes [] "mainnet" None funding0 None (Some (locked0 EXPECTED_ICS_VALUE))
    (Some (locked0 EXPECTED_RESERVE_VALUE)) None 9 (launch_gen None) (launch_generated None ltac:(by left)))
    as (_ & _ & Hdust).
  destruct (launch_state_passes [] "mainnet" None funding0 (Some []) (Some (locked0 EXPECTED_ICS_VALUE))
    (Some (locked0 EXPECTED_RESERVE_VALUE)) None 9 (launch_gen (Some [])) (launch_generated (Some []) ltac:(by right)))
    as (_ & Htime & _).
  split; [apply Htime; [split; reflexivity|reflexivity]|exact (Hdust eq_refl)].
Defined.
Lemma launch_supply_passes_witness : verify_supply_invariant (gen_state (launch_gen None)) = true.
Proof.
  exact (launch_supply_passes [] "mainnet" None funding0 None (locked0 EXPECTED_ICS_VALUE)
    (locked0 EXPECTED_RESERVE_VALUE) None 9 (launch_gen None) (launch_generated None ltac:(by left)) eq_refl eq_refl).
Defined.

Definition open_state : LedgerState := c_new "mainnet" 10 0 0 0.
(** The state before the end of the block passes the dust check. *)
Lemma mainnet_dust_check_excludes_timestamp_witness :
  verify_genesis_timestamp_in_state open_state 9 = false.
Proof.
  apply (mainnet_dust_check_excludes_timestamp open_state [1]
    (CNightGeneratesDustUpdate []) 9).
  - intros d d' [= Hd]. exact (inj countable.encode d d' Hd).
  - intros net s' [= <-]. reflexivity.
  - reflexivity.
  - vm_compute. reflexivity.
Defined.

Lemma parameters_check_bounds_witness :
  verify_ledger_parameters launch_state (Some (Ok (parameters launch_state))) = true.
Proof.
  apply (parameters_check_bounds launch_state (parameters launch_state)).
  - intros q. change (is_number (c_f64 q) = true). unfold c_f64.
    destruct (is_number (binary_normalize 53 1024 q 0 false)) eqn:Hq; [exact Hq|reflexivity].
  - reflexivity.
  - reflexivity.
  - reflexivity.
Defined.
