(* ===== verification/Beefy.v ===== *)
(** * BEEFY stakes, authority sets and payloads

    Models [runtime/src/beefy.rs] (the stake of every validator and the Merkle
    commitment to the validators with their stakes), [primitives/beefy/src/lib.rs]
    (identifiers of the payload entries) and [node/src/payload.rs], which asks the
    runtime for both at a block and puts them, with the MMR root, into the payload
    that the validators sign.  SCALE, the Merkle tree, the payload container and the
    runtime API host are dependencies. *)

From Stdlib Require Import ZArith Lia.
From stdpp Require Import prelude gmap strings.
From S2P Require Import Prelude Frame Collections Committee.

Open Scope Z_scope.

(** ** Data *)

(** [ecdsa_crypto::AuthorityId]: an ECDSA public key of 33 bytes. *)
Record BeefyId : Type := { beefy_inner : list Z }.
#[export] Instance BeefyId_eq_dec : EqDecision BeefyId.
Proof. solve_decision. Defined.

(** [Stake] is a [u64]. *)
Definition Stake : Type := Z.
Definition BeefyStake : Type := BeefyId * Stake.
Definition BeefyStakes : Type := list BeefyStake.

(** [sp_consensus_beefy::mmr::BeefyAuthoritySet<H256>]. *)
Record BeefyAuthoritySet : Type :=
  { set_id : Z; set_len : Z; keyset_commitment : list Z }.

(** [sp_consensus_beefy::ValidatorSet]. *)
Record ValidatorSet : Type := { validators : list BeefyId; validator_set_id : Z }.

(** [BeefyPayloadId]: two bytes. *)
Definition BeefyPayloadId : Type := list Z.
Definition MMR_ROOT_ID : BeefyPayloadId := bytes_of_string "mh".
Definition CURRENT_BEEFY_STAKES_ID : BeefyPayloadId := bytes_of_string "cs".
Definition CURRENT_BEEFY_AUTHORITY_SET : BeefyPayloadId := bytes_of_string "cb".
Definition NEXT_BEEFY_STAKES_ID : BeefyPayloadId := bytes_of_string "ns".
Definition NEXT_BEEFY_AUTHORITY_SET : BeefyPayloadId := bytes_of_string "nb".

(** [binary_merkle_tree::merkle_root] with Keccak. *)
Class BinaryMerkleTree : Type := merkle_root : list (list Z) → list Z.

(** The storage the functions read and write: [Authorities], [NextAuthorities] and
    [ValidatorSetId] of pallet-beefy, [BeefyAuthorities] and [BeefyNextAuthorities]
    of pallet-beefy-mmr, and the two committees. *)
Record BeefyState : Type := {
  Authorities : list BeefyId;
  NextAuthorities : list BeefyId;
  ValidatorSetId : Z;
  BeefyAuthorities : BeefyAuthoritySet;
  BeefyNextAuthorities : BeefyAuthoritySet;
  current_committee : CommitteeInfo;
  announced_committee : option CommitteeInfo;
}.
Definition put_authorities (a : BeefyAuthoritySet) (s : BeefyState) : BeefyState :=
  {| Authorities := Authorities s; NextAuthorities := NextAuthorities s;
     ValidatorSetId := ValidatorSetId s; BeefyAuthorities := a;
     BeefyNextAuthorities := BeefyNextAuthorities s; current_committee := current_committee s;
     announced_committee := announced_committee s |}.
Definition put_next_authorities (a : BeefyAuthoritySet) (s : BeefyState) : BeefyState :=
  {| Authorities := Authorities s; NextAuthorities := NextAuthorities s;
     ValidatorSetId := ValidatorSetId s; BeefyAuthorities := BeefyAuthorities s;
     BeefyNextAuthorities := a; current_committee := current_committee s;
     announced_committee := announced_committee s |}.

(** ** Stakes and authority sets: [runtime/src/beefy.rs] *)

Definition xchain_public_to_beefy (k : CrossChainPublic) : BeefyId :=
  {| beefy_inner := cross_chain_inner k |}.
Definition are_ids_equal (committee_id : CrossChainPublic) (validator : BeefyId) : bool :=
  bool_decide (xchain_public_to_beefy committee_id = validator).

(** The loop of [compute_beefy_stakes]: [committee_members] loses every member that
    was matched. *)
Fixpoint compute_beefy_stakes_loop (vs : list BeefyId) (committee_members : list CommitteeMember) :
    BeefyStakes :=
  match vs with
  | [] => []
  | validator :: vs =>
      match position (λ member,
              match member with
              | Permissioned id _ => are_ids_equal id validator
              | Registered id _ _ => are_ids_equal id validator
              end) committee_members with
      | Some pos => (validator, 1) :: compute_beefy_stakes_loop vs (delete pos committee_members)
      | None => (validator, 1) :: compute_beefy_stakes_loop vs committee_members
      end
  end.
Definition compute_beefy_stakes (vs : list BeefyId) (c : CommitteeInfo) : BeefyStakes :=
  compute_beefy_stakes_loop vs (committee c).

Section AuthoritySets.
Context `{BinaryMerkleTree}.

(** [RawBeefyId::convert]. *)
Definition raw_beefy_id (id : BeefyId) : list Z := beefy_inner id.

(** A leaf of the tree: the key, then the stake as eight little-endian bytes. *)
Definition beefy_stake_bytes (s : BeefyStake) : list Z :=
  raw_beefy_id s.1 ++ to_le_bytes 8 s.2.

Definition compute_authority_set (id : Z) (beefy_stakes : BeefyStakes) : BeefyAuthoritySet :=
  let len := Z.of_nat (length beefy_stakes) in
  let beefy_stakes_as_bytes := beefy_stake_bytes <$> beefy_stakes in
  {| set_id := id; set_len := wrap 32 len;
     keyset_commitment := merkle_root beefy_stakes_as_bytes |}.

Definition current_beefy_stakes (vs : option (list BeefyId)) : M BeefyState Empty_set BeefyStakes :=
  gets (λ s, compute_beefy_stakes (default (Authorities s) vs) (current_committee s)).

(** [next_beefy_stakes]: with a side effect while [BeefyNextAuthorities] holds the
    zero commitment.  The identifier is a [u64]; the runtime is built in the release
    profile, which has no overflow checks, so the addition wraps. *)
Definition next_beefy_stakes (next_validators : option (list BeefyId)) :
    M BeefyState Empty_set (option BeefyStakes) := λ s,
  let next_validators := default (NextAuthorities s) next_validators in
  match announced_committee s with
  | None => (Ok None, s)
  | Some committee =>
      let beefy_stakes := compute_beefy_stakes next_validators committee in
      let result := BeefyNextAuthorities s in
      if decide (keyset_commitment result = replicate 32 0) then
        let next_set_id := wrap 64 (ValidatorSetId s + 1) in
        let next_authority_set := compute_authority_set next_set_id beefy_stakes in
        (Ok (Some beefy_stakes), put_next_authorities next_authority_set s)
      else (Ok (Some beefy_stakes), s)
  end.

(** [authority_set_proof] and [next_authority_set_proof] of pallet-beefy-mmr read
    the two storage items. *)
Definition compute_current_authority_set (beefy_stakes : BeefyStakes) :
    M BeefyState Empty_set BeefyAuthoritySet :=
  gets (λ s, compute_authority_set (set_id (BeefyAuthorities s)) beefy_stakes).
Definition compute_next_authority_set (beefy_stakes : BeefyStakes) :
    M BeefyState Empty_set BeefyAuthoritySet :=
  gets (λ s, compute_authority_set (set_id (BeefyNextAuthorities s)) beefy_stakes).

(** [AuthoritiesProvider::on_new_validator_set]. *)
Definition on_new_validator_set (validator_set next_validator_set : ValidatorSet) :
    M BeefyState Empty_set unit :=
  beefy_stakes ← current_beefy_stakes (Some (validators validator_set));
  let curr_authority_set := compute_authority_set (validator_set_id validator_set) beefy_stakes in
  next ← next_beefy_stakes (Some (validators next_validator_set));
  match next with
  | Some next_beefy_stakes =>
      modify (put_next_authorities
        (compute_authority_set (validator_set_id next_validator_set) next_beefy_stakes))
  | None => mret tt
  end ;;
  modify (put_authorities curr_authority_set).

(** ** Lemmas *)

#[local] Arguments compute_beefy_stakes : simpl never.
#[local] Arguments compute_authority_set : simpl never.

Lemma compute_beefy_stakes_eq vs c : compute_beefy_stakes vs c = (λ v, (v, 1)) <$> vs.
Proof.
  unfold compute_beefy_stakes. generalize (committee c).
  induction vs as [|v vs IH]; intros ms; [done|].
  rewrite fmap_cons. cbn [compute_beefy_stakes_loop]. case_match; by rewrite IH.
Qed.

(** the stakes BEEFY signs do not depend on the committee: every validator
    appears, in the order of the validator set, with stake one, whether or not it is
    a member of the committee. *)
Theorem beefy_stakes_are_one vs c :
  compute_beefy_stakes vs c = (λ v, (v, 1)) <$> vs ∧
  (compute_beefy_stakes vs c).*1 = vs ∧
  foldr (λ s n, s.2 + n) 0 (compute_beefy_stakes vs c) = Z.of_nat (length vs).
Proof.
  rewrite compute_beefy_stakes_eq. split_and!; [done| |].
  - rewrite <-list_fmap_compose. apply list_fmap_id.
  - induction vs as [|v vs IH]; [done|]. rewrite fmap_cons. cbn [foldr length]. simpl snd. lia.
Qed.

Lemma next_beefy_stakes_fst nv s :
  (next_beefy_stakes nv s).1 =
  Ok (compute_beefy_stakes (default (NextAuthorities s) nv) <$> announced_committee s).
Proof. unfold next_beefy_stakes. repeat case_match; by simplify_eq/=. Qed.

Lemma on_new_validator_set_eq (cur nxt : ValidatorSet) s :
  let commit v := compute_authority_set (validator_set_id v) ((λ x, (x, 1)) <$> validators v) in
  on_new_validator_set cur nxt s =
    (Ok tt, put_authorities (commit cur)
       (match announced_committee s with
        | Some _ => put_next_authorities (commit nxt) s
        | None => s
        end)).
Proof.
  unfold on_new_validator_set, current_beefy_stakes, next_beefy_stakes. mrun.
  rewrite !compute_beefy_stakes_eq.
  destruct (announced_committee s) as [c|]; [|done]. rewrite !compute_beefy_stakes_eq.
  by case_decide.
Qed.

(** C40: The authority sets and stakes of the runtime, from any state.  When the validator
    set changes, the current set on record becomes the one of the new validators and the
    next set that of the next ones, each under its own identifier, with its length as a
    [u32] and the Merkle root over the key of every validator, in order, followed by the
    eight little-endian bytes of the stake one; without an announced committee the next set
    stays as it was, and nothing else is written.  Asked at a block, the runtime gives each
    validator of the current set the stake one, those of the next set too if the next
    committee is announced, and computes a set for given stakes under the identifier on
    record. *)
Theorem authority_sets_follow_validators (cur nxt : ValidatorSet) s :
  let commit v := {| set_id := validator_set_id v; set_len := wrap 32 (Z.of_nat (length (validators v)));
    keyset_commitment := merkle_root ((λ k, beefy_inner k ++ to_le_bytes 8 1) <$> validators v) |} in
  let computed id (l : BeefyStakes) := {| set_id := id; set_len := wrap 32 (Z.of_nat (length l));
    keyset_commitment := merkle_root ((λ x, beefy_inner x.1 ++ to_le_bytes 8 x.2) <$> l) |} in
  on_new_validator_set cur nxt s =
    (Ok tt, {| Authorities := Authorities s; NextAuthorities := NextAuthorities s;
               ValidatorSetId := ValidatorSetId s;
               BeefyAuthorities := commit cur;
               BeefyNextAuthorities :=
                 if announced_committee s then commit nxt else BeefyNextAuthorities s;
               current_committee := current_committee s; announced_committee := announced_committee s |})
  ∧ current_beefy_stakes None s = (Ok ((λ k, (k, 1)) <$> Authorities s), s)
  ∧ (next_beefy_stakes None s).1 =
      Ok (if announced_committee s then Some ((λ k, (k, 1)) <$> NextAuthorities s) else None)
  ∧ ∀ l, compute_current_authority_set l s = (Ok (computed (set_id (BeefyAuthorities s)) l), s)
    ∧ compute_next_authority_set l s = (Ok (computed (set_id (BeefyNextAuthorities s)) l), s).
Proof.
  intros commit computed.
  assert (∀ v, compute_authority_set (validator_set_id v) ((λ x, (x, 1)) <$> validators v) = commit v) as Hc.
  { intros v. unfold compute_authority_set, commit. rewrite length_fmap, <-list_fmap_compose. done. }
  split_and!.
  - rewrite on_new_validator_set_eq, !Hc. destruct s as [? ? ? ? ? ? []]; done.
  - unfold current_beefy_stakes. mrun. by rewrite compute_beefy_stakes_eq.
  - rewrite next_beefy_stakes_fst. destruct (announced_committee s); [|done].
    cbn. by rewrite compute_beefy_stakes_eq.
  - done.
Qed.
End AuthoritySets.

(** ** The signed payload: [node/src/payload.rs] *)

(** SCALE, for the values that occur. *)
Class Scale (A : Type) : Type := { encode : A → list Z; decode : list Z → option A }.
Class ScaleLaws (A : Type) `{Scale A} (typed : A → Prop) : Prop :=
  decode_encode a : typed a → decode (encode a) = Some a.

(** The Rust types of the values: 33-byte keys, [u64] stakes and identifiers, a
    [u32] length, a 32-byte hash. *)
Definition typed_id (v : BeefyId) : Prop := length (beefy_inner v) = 33%nat.
Definition typed_stakes (l : BeefyStakes) : Prop :=
  Forall (λ s, typed_id s.1 ∧ in_range 64 s.2) l.
Definition typed_set (a : BeefyAuthoritySet) : Prop :=
  in_range 64 (set_id a) ∧ in_range 32 (set_len a) ∧ length (keyset_commitment a) = 32%nat.
Definition typed_state (s : BeefyState) : Prop :=
  Forall typed_id (Authorities s) ∧ Forall typed_id (NextAuthorities s) ∧
  in_range 64 (ValidatorSetId s) ∧
  typed_set (BeefyAuthorities s) ∧ typed_set (BeefyNextAuthorities s).

(** [sp_consensus_beefy::Payload]: entries by identifier; [get_raw] finds one of an
    identifier, [get_all_raw] all of them. *)
Class PayloadContainer : Type := {
  Payload : Type;
  from_single_entry : BeefyPayloadId → list Z → Payload;
  push_raw : BeefyPayloadId → list Z → Payload → Payload;
  get_raw : BeefyPayloadId → Payload → option (list Z);
  get_all_raw : BeefyPayloadId → Payload → list (list Z);
}.
Class PayloadLaws (P : PayloadContainer) : Prop := {
  get_all_single id v id' :
    get_all_raw id' (from_single_entry id v) = if decide (id = id') then [v] else [];
  get_all_push id v id' p :
    get_all_raw id' (push_raw id v p) ≡ₚ
      (if decide (id = id') then [v] else []) ++ get_all_raw id' p;
  get_raw_none id p : get_all_raw id p = [] → get_raw id p = None;
  get_raw_one id v p : get_all_raw id p = [v] → get_raw id p = Some v;
}.
Definition get_decoded {A} `{Scale A} `{PayloadContainer} (id : BeefyPayloadId) (p : Payload) :
    option A := get_raw id p ≫= decode.

(** The runtime API calls of the payload provider. *)
Inductive ApiCall : Type :=
| Api_mmr_root | Api_current_beefy_stakes | Api_next_beefy_stakes
| Api_compute_current_authority_set | Api_compute_next_authority_set.

(** The node's client: [runtime_api()] at a block.  A call may fail for its own
    reasons; one that runs does so on the state after that block, and what it writes
    is dropped: "the modifications will not be applied to the storage". *)
Class Client : Type := {
  Header : Type;
  Hash : Type;
  header_hash : Header → Hash;
  find_mmr_root_digest : Header → option (list Z);
  state_at : Hash → option BeefyState;
  api_fails : Hash → ApiCall → bool;
  (** [Mmr::mmr_root] in that state *)
  mmr_root_at : Hash → option (list Z);
}.

Definition run_api {A} `{Client} (h : Hash) (c : ApiCall) (m : M BeefyState Empty_set A) : option A :=
  if api_fails h c then None
  else match state_at h with
       | Some s => match (m s).1 with Ok a => Some a | _ => None end
       | None => None
       end.

Section PayloadProvider.
Context `{BinaryMerkleTree} `{P : PayloadContainer} `{Client}.
Context `{Scale BeefyStakes} `{Scale BeefyAuthoritySet} `{Scale (list Z)}.

(** [mmr_root_from_digest_or_runtime]. *)
Definition mmr_root_from_digest_or_runtime (header : Header) : option (list Z) :=
  match find_mmr_root_digest header with
  | Some r => Some r
  | None =>
      if api_fails (header_hash header) Api_mmr_root then None else mmr_root_at (header_hash header)
  end.

Definition provider_current_beefy_stakes (header : Header) : option BeefyStakes :=
  run_api (header_hash header) Api_current_beefy_stakes (current_beefy_stakes None).
Definition provider_next_beefy_stakes (header : Header) : option BeefyStakes :=
  default None (run_api (header_hash header) Api_next_beefy_stakes (next_beefy_stakes None)).
Definition provider_compute_current_authority_set (header : Header) (l : BeefyStakes) :
    option BeefyAuthoritySet :=
  run_api (header_hash header) Api_compute_current_authority_set (compute_current_authority_set l).
Definition provider_compute_next_authority_set (header : Header) (l : BeefyStakes) :
    option BeefyAuthoritySet :=
  run_api (header_hash header) Api_compute_next_authority_set (compute_next_authority_set l).

(** [PayloadProvider::payload]. *)
Definition payload (header : Header) : option Payload :=
  mmr_root ← mmr_root_from_digest_or_runtime header;
  current_beefy_stakes ← provider_current_beefy_stakes header;
  current_authority_set ← provider_compute_current_authority_set header current_beefy_stakes;
  match provider_next_beefy_stakes header with
  | Some next_beefy_stakes =>
      next_authority_set ← provider_compute_next_authority_set header next_beefy_stakes;
      Some (push_raw NEXT_BEEFY_AUTHORITY_SET (encode next_authority_set)
             (push_raw NEXT_BEEFY_STAKES_ID (encode next_beefy_stakes)
               (push_raw CURRENT_BEEFY_AUTHORITY_SET (encode current_authority_set)
                 (push_raw CURRENT_BEEFY_STAKES_ID (encode current_beefy_stakes)
                   (from_single_entry MMR_ROOT_ID (encode mmr_root))))))
  | None =>
      Some (push_raw CURRENT_BEEFY_AUTHORITY_SET (encode current_authority_set)
             (push_raw CURRENT_BEEFY_STAKES_ID (encode current_beefy_stakes)
               (from_single_entry MMR_ROOT_ID (encode mmr_root))))
  end.

(** ** Lemmas: payload entries *)

Section Entries.
Context `{!PayloadLaws P}.

Lemma get_all_push_same id v p : get_all_raw id p = [] → get_all_raw id (push_raw id v p) = [v].
Proof.
  intros Hp. apply Permutation_singleton_r. by rewrite get_all_push, decide_True, Hp.
Qed.
Lemma get_all_push_other id v id' p x :
  id ≠ id' → get_all_raw id' p = [x] → get_all_raw id' (push_raw id v p) = [x].
Proof.
  intros Hne Hp. apply Permutation_singleton_r. by rewrite get_all_push, decide_False, Hp.
Qed.
Lemma get_all_push_absent id v id' p :
  id ≠ id' → get_all_raw id' p = [] → get_all_raw id' (push_raw id v p) = [].
Proof.
  intros Hne Hp. apply Permutation_nil_r. by rewrite get_all_push, decide_False, Hp.
Qed.
Lemma get_all_single_same id v : get_all_raw id (from_single_entry id v) = [v].
Proof. by rewrite get_all_single, decide_True. Qed.
Lemma get_all_single_other id v id' : id ≠ id' → get_all_raw id' (from_single_entry id v) = [].
Proof. intros. by rewrite get_all_single, decide_False. Qed.
End Entries.

Lemma run_api_some {A} h c (m : M BeefyState Empty_set A) a :
  run_api h c m = Some a → ∃ s, state_at h = Some s ∧ (m s).1 = Ok a.
Proof. unfold run_api. repeat case_match; naive_solver. Qed.

(** Every validator with stake one. *)
Definition stakes_of (vs : list BeefyId) : BeefyStakes := (λ v, (v, 1)) <$> vs.

Lemma provider_current_spec header l :
  provider_current_beefy_stakes header = Some l →
  ∃ s, state_at (header_hash header) = Some s ∧ l = stakes_of (Authorities s).
Proof.
  intros (s & Hs & Hl)%run_api_some. exists s. split; [done|].
  injection Hl as <-. apply compute_beefy_stakes_eq.
Qed.

Lemma provider_next_spec header l :
  provider_next_beefy_stakes header = Some l →
  ∃ s, state_at (header_hash header) = Some s ∧ is_Some (announced_committee s) ∧
    l = stakes_of (NextAuthorities s).
Proof.
  unfold provider_next_beefy_stakes.
  destruct (run_api _ _ _) as [[l'|]|] eqn:Hr; simpl; [|done..]. intros [= ->].
  apply run_api_some in Hr as (s & Hs & Hl). exists s. split; [done|].
  rewrite next_beefy_stakes_fst in Hl. destruct (announced_committee s); [|done].
  injection Hl as <-. split; [eauto|]. apply compute_beefy_stakes_eq.
Qed.

Context `{!PayloadLaws P}.

Ltac entry :=
  first
    [ apply get_all_single_same
    | apply get_all_single_other; done
    | apply get_all_push_same; entry
    | apply get_all_push_other; [done|entry]
    | apply get_all_push_absent; [done|entry] ].

Lemma payload_entries header p :
  payload header = Some p →
  ∃ s root, state_at (header_hash header) = Some s ∧
    mmr_root_from_digest_or_runtime header = Some root ∧
    get_all_raw MMR_ROOT_ID p = [encode root] ∧
    get_all_raw CURRENT_BEEFY_STAKES_ID p = [encode (stakes_of (Authorities s))] ∧
    get_all_raw CURRENT_BEEFY_AUTHORITY_SET p =
      [encode (compute_authority_set (set_id (BeefyAuthorities s)) (stakes_of (Authorities s)))] ∧
    match provider_next_beefy_stakes header with
    | Some _ =>
        is_Some (announced_committee s) ∧
        get_all_raw NEXT_BEEFY_STAKES_ID p = [encode (stakes_of (NextAuthorities s))] ∧
        get_all_raw NEXT_BEEFY_AUTHORITY_SET p =
          [encode (compute_authority_set (set_id (BeefyNextAuthorities s))
                     (stakes_of (NextAuthorities s)))]
    | None =>
        get_all_raw NEXT_BEEFY_STAKES_ID p = [] ∧ get_all_raw NEXT_BEEFY_AUTHORITY_SET p = []
    end.
Proof.
  unfold payload. intros (root & Hroot & (l & Hl & (a & Ha & Hp)%bind_Some)%bind_Some)%bind_Some.
  apply provider_current_spec in Hl as (s & Hs & ->).
  apply run_api_some in Ha as (s' & Hs' & Ha). simplify_eq/=.
  exists s, root. split; [done|]. split; [done|].
  destruct (provider_next_beefy_stakes header) as [ln|] eqn:Hn.
  - apply provider_next_spec in Hn as (s' & Hs' & Hc & ->). simplify_eq.
    apply bind_Some in Hp as (b & Hb & Hp). apply run_api_some in Hb as (s' & Hs' & Hb).
    simplify_eq/=.
    split_and!; [entry..|done|entry|entry].
  - simplify_eq/=. split_and!; entry.
Qed.

Lemma get_decoded_one {A} `{Scale A} typed `{!ScaleLaws A typed} id (a : A) p :
  get_all_raw id p = [encode a] → typed a → get_decoded id p = Some a.
Proof.
  intros Hp Ha. unfold get_decoded. rewrite (get_raw_one _ _ _ Hp). by apply decode_encode.
Qed.
Lemma get_decoded_none {A} `{Scale A} id p :
  get_all_raw id p = [] → get_decoded (A := A) id p = None.
Proof. intros Hp. unfold get_decoded. by rewrite get_raw_none. Qed.

(** ** Types of the results *)

#[local] Arguments compute_beefy_stakes : simpl never.
#[local] Arguments compute_authority_set : simpl never.

(** [H256] is 32 bytes. *)
Context (merkle_root_length : ∀ ls, length (merkle_root ls) = 32%nat).

Lemma stakes_of_typed vs : Forall typed_id vs → typed_stakes (stakes_of vs).
Proof.
  intros Hvs. apply Forall_fmap. eapply Forall_impl; [done|]. intros v Hv.
  split; [done|]. split; simpl; [lia|]. done.
Qed.

Lemma compute_authority_set_typed id l : in_range 64 id → typed_set (compute_authority_set id l).
Proof. intros Hid. split_and!; [done|by apply wrap_range|apply merkle_root_length]. Qed.

Lemma put_next_typed a s : typed_set a → typed_state s → typed_state (put_next_authorities a s).
Proof. intros Ha (?&?&?&?&?). by split_and!. Qed.
Lemma put_authorities_typed a s : typed_set a → typed_state s → typed_state (put_authorities a s).
Proof. intros Ha (?&?&?&?&?). by split_and!. Qed.

(** The BEEFY functions of the runtime stay within their types.  From a state
    of 33-byte keys, 64-bit identifiers and 32-byte commitments, the stakes they
    return pair 33-byte keys with 64-bit stakes, the authority sets have a 32-bit
    length, and the state they leave is again of these types. *)
Theorem beefy_operations_typed s cur nxt :
  typed_state s →
  Forall typed_id (validators cur) → in_range 64 (validator_set_id cur) →
  Forall typed_id (validators nxt) → in_range 64 (validator_set_id nxt) →
  (∃ l, current_beefy_stakes None s = (Ok l, s) ∧ typed_stakes l) ∧
  (∃ o s', next_beefy_stakes None s = (Ok o, s') ∧ typed_state s' ∧
     ∀ l, o = Some l → typed_stakes l) ∧
  (∀ l, ∃ a b, compute_current_authority_set l s = (Ok a, s) ∧ typed_set a ∧
     compute_next_authority_set l s = (Ok b, s) ∧ typed_set b) ∧
  (∃ s', on_new_validator_set cur nxt s = (Ok tt, s') ∧ typed_state s').
Proof.
  intros Hs Hcur Hci Hnxt Hni. pose proof Hs as (Ha & Hna & Hid & [Hc _] & [Hn _]).
  split_and!.
  - eexists. split; [done|]. simpl. rewrite compute_beefy_stakes_eq. by apply stakes_of_typed.
  - unfold next_beefy_stakes. destruct (announced_committee s) as [c|].
    + rewrite compute_beefy_stakes_eq. simpl. case_decide; eexists _, _; split; try done;
        split; intros; simplify_eq; eauto using stakes_of_typed.
      apply put_next_typed; [|done]. apply compute_authority_set_typed. by apply wrap_range.
    + eexists _, _. split; [done|]. split; [done|]. intros; simplify_eq.
  - intros l. eexists _, _. split; [done|]. split; [by apply compute_authority_set_typed|].
    split; [done|by apply compute_authority_set_typed].
  - rewrite on_new_validator_set_eq. eexists. split; [reflexivity|].
    apply put_authorities_typed; [by apply compute_authority_set_typed|].
    destruct (announced_committee s); [|done].
    apply put_next_typed; [by apply compute_authority_set_typed|done].
Qed.

(** ** What is signed *)

Context `{!ScaleLaws BeefyStakes typed_stakes} `{!ScaleLaws BeefyAuthoritySet typed_set}.

Lemma payload_current header p s :
  payload header = Some p → state_at (header_hash header) = Some s → typed_state s →
  get_decoded CURRENT_BEEFY_STAKES_ID p = Some (stakes_of (Authorities s)) ∧
  get_decoded CURRENT_BEEFY_AUTHORITY_SET p =
    Some (compute_authority_set (set_id (BeefyAuthorities s)) (stakes_of (Authorities s))).
Proof.
  intros (s' & root & Hs' & _ & _ & Hcs & Hcb & _)%payload_entries Hs (Ha & _ & _ & [Hc _] & _).
  simplify_eq. split; eapply get_decoded_one; eauto using stakes_of_typed, compute_authority_set_typed.
Qed.

Lemma payload_next header p s :
  payload header = Some p → state_at (header_hash header) = Some s → typed_state s →
  (get_decoded NEXT_BEEFY_STAKES_ID p = Some (stakes_of (NextAuthorities s)) ∧
   get_decoded NEXT_BEEFY_AUTHORITY_SET p =
     Some (compute_authority_set (set_id (BeefyNextAuthorities s)) (stakes_of (NextAuthorities s))) ∧
   is_Some (announced_committee s)) ∨
  (get_decoded (A := BeefyStakes) NEXT_BEEFY_STAKES_ID p = None ∧
   get_decoded (A := BeefyAuthoritySet) NEXT_BEEFY_AUTHORITY_SET p = None ∧
   provider_next_beefy_stakes header = None).
Proof.
  intros (s' & root & Hs' & _ & _ & _ & _ & Hnext)%payload_entries Hs (_ & Hna & _ & _ & [Hn _]).
  simplify_eq. destruct (provider_next_beefy_stakes header) as [l|].
  - destruct Hnext as (? & Hns & Hnb). left.
    split_and!; [eapply get_decoded_one..|]; eauto using stakes_of_typed, compute_authority_set_typed.
  - destruct Hnext as (Hns & Hnb). right. eauto using get_decoded_none.
Qed.

(**  what the validators sign at a block: the MMR root of its digest (or of the
    runtime when the digest has none), the validators of that block with stake one,
    and the commitment to exactly those pairs under the identifier of the current
    set; and likewise for the next set, unless the runtime knows no next committee,
    in which case neither entry is there. *)
Theorem payload_commits_to_validators header p s :
  payload header = Some p → state_at (header_hash header) = Some s → typed_state s →
  (∃ root, mmr_root_from_digest_or_runtime header = Some root ∧
     get_all_raw MMR_ROOT_ID p = [encode root]) ∧
  (get_decoded CURRENT_BEEFY_STAKES_ID p = Some (stakes_of (Authorities s)) ∧
   get_decoded CURRENT_BEEFY_AUTHORITY_SET p =
     Some (compute_authority_set (set_id (BeefyAuthorities s)) (stakes_of (Authorities s)))) ∧
  ((get_decoded NEXT_BEEFY_STAKES_ID p = Some (stakes_of (NextAuthorities s)) ∧
    get_decoded NEXT_BEEFY_AUTHORITY_SET p =
      Some (compute_authority_set (set_id (BeefyNextAuthorities s))
              (stakes_of (NextAuthorities s))) ∧
    is_Some (announced_committee s)) ∨
   (get_decoded (A := BeefyStakes) NEXT_BEEFY_STAKES_ID p = None ∧
    get_decoded (A := BeefyAuthoritySet) NEXT_BEEFY_AUTHORITY_SET p = None ∧
    provider_next_beefy_stakes header = None)).
Proof.
  intros Hp Hs Ht. split_and!; [|by eapply payload_current..|by eapply payload_next].
  apply payload_entries in Hp as (s' & root & _ & Hroot & Hmh & _). eauto.
Qed.

(** the update that [next_beefy_stakes] makes while no next authority set is on
    record is lost.  It stores the next set under the identifier after the current
    one, but the call runs in a runtime API whose writes are dropped, so the set that
    is signed still carries the identifier found in storage. *)
Theorem next_set_id_update_is_lost header p s a :
  payload header = Some p → state_at (header_hash header) = Some s → typed_state s →
  get_decoded NEXT_BEEFY_AUTHORITY_SET p = Some a →
  keyset_commitment (BeefyNextAuthorities s) = replicate 32 0 →
  set_id a = set_id (BeefyNextAuthorities s) ∧
  set_id (BeefyNextAuthorities (next_beefy_stakes None s).2) = wrap 64 (ValidatorSetId s + 1).
Proof.
  intros Hp Hs Ht Ha Hz. pose proof (payload_next _ _ _ Hp Hs Ht) as [(_ & Hb & [c Hc])|(_ & Hb & _)];
    rewrite Hb in Ha; simplify_eq.
  split; [done|]. unfold next_beefy_stakes. rewrite Hc. by rewrite decide_True.
Qed.
End PayloadProvider.

(** ** A concrete chain *)

Module BeefyConcrete.
#[export] Instance BeefyId_countable : Countable BeefyId.
Proof. by refine (inj_countable' beefy_inner Build_BeefyId _); intros []. Defined.
#[export] Instance BeefyAuthoritySet_eq_dec : EqDecision BeefyAuthoritySet.
Proof. solve_decision. Defined.
#[export] Instance BeefyAuthoritySet_countable : Countable BeefyAuthoritySet.
Proof.
  by refine (inj_countable' (λ a, (set_id a, set_len a, keyset_commitment a))
    (λ '(i, l, k), Build_BeefyAuthoritySet i l k) _); intros [].
Defined.

(** A codec: the number of a value. *)
Definition number_codec (A : Type) `{Countable A} : Scale A := {|
  encode a := [Zpos (countable.encode a)];
  decode bs := match bs with [Zpos n] => countable.decode n | _ => None end;
|}.
#[export] Instance stakes_codec : Scale BeefyStakes := number_codec (list (BeefyId * Z)).
#[export] Instance set_codec : Scale BeefyAuthoritySet := number_codec BeefyAuthoritySet.
#[export] Instance bytes_codec : Scale (list Z) := number_codec (list Z).
#[export] Instance stakes_codec_laws : ScaleLaws BeefyStakes typed_stakes.
Proof. intros a _. apply (countable.decode_encode (A := list (BeefyId * Z)) a). Qed.
#[export] Instance set_codec_laws : ScaleLaws BeefyAuthoritySet typed_set.
Proof. intros a _. apply (countable.decode_encode a). Qed.

#[export] Instance c_tree : BinaryMerkleTree := λ ls, take 32 (concat ls ++ replicate 32 0).

#[export] Instance c_payload : PayloadContainer := {
  Payload := list (BeefyPayloadId * list Z);
  from_single_entry id v := [(id, v)];
  push_raw id v p := (id, v) :: p;
  get_raw id p := head (filter (λ e, id = e.1) p).*2;
  get_all_raw id p := (filter (λ e, id = e.1) p).*2;
}.
#[export] Instance c_payload_laws : PayloadLaws c_payload.
Proof.
  split; simpl.
  - intros id v id'. rewrite filter_cons. repeat case_decide; by simplify_eq/=.
  - intros id v id' p. rewrite filter_cons. repeat case_decide; by simplify_eq/=.
  - by intros id p ->.
  - by intros id v p ->.
Qed.

Definition validator (n : Z) : BeefyId := {| beefy_inner := replicate 33 n |}.
Definition no_set : BeefyAuthoritySet :=
  {| set_id := 0; set_len := 0; keyset_commitment := replicate 32 0 |}.
(** Two validators, one of them in the committee; the next set was never stored. *)
Definition s0 : BeefyState := {|
  Authorities := [validator 1; validator 9];
  NextAuthorities := [validator 2; validator 1];
  ValidatorSetId := 6;
  BeefyAuthorities := {| set_id := 6; set_len := 2; keyset_commitment := replicate 32 5 |};
  BeefyNextAuthorities := no_set;
  current_committee := Concrete.c0.1;
  announced_committee := Concrete.c0.2;
|}.
(** The same before the next committee is announced. *)
Definition s_unannounced : BeefyState := {|
  Authorities := Authorities s0; NextAuthorities := NextAuthorities s0;
  ValidatorSetId := 6; BeefyAuthorities := BeefyAuthorities s0; BeefyNextAuthorities := no_set;
  current_committee := current_committee s0; announced_committee := None;
|}.

(** Block [false] has the state [s0], block [true] the other one. *)
#[export] Instance c_client : Client := {
  Header := bool; Hash := bool; header_hash h := h;
  find_mmr_root_digest h := if h then None else Some [8];
  state_at h := Some (if h then s_unannounced else s0);
  api_fails _ _ := false;
  mmr_root_at _ := Some [9];
}.

Definition block0 : @Header c_client := false.
Definition block1 : @Header c_client := true.

Lemma s0_typed : typed_state s0.
Proof.
  split_and!; [repeat constructor..| | |]; by repeat split.
Qed.
Lemma s_unannounced_typed : typed_state s_unannounced.
Proof.
  split_and!; [repeat constructor..| | |]; by repeat split.
Qed.
Lemma c_tree_length ls : length (merkle_root ls) = 32%nat.
Proof. unfold merkle_root, c_tree. rewrite length_take, length_app, length_replicate. lia. Qed.

Lemma beefy_operations_typed_witness :
  typed_state s0 ∧ ∃ s', on_new_validator_set {| validators := [validator 1]; validator_set_id := 7 |}
    {| validators := [validator 2]; validator_set_id := 8 |} s0 = (Ok tt, s') ∧ typed_state s'.
Proof.
  split; [exact s0_typed|].
  refine (proj2 (proj2 (proj2 (beefy_operations_typed c_tree_length s0 _ _ s0_typed _ _ _ _))));
    repeat constructor; by vm_compute.
Defined.

Lemma payload_commits_to_validators_witness :
  ∃ p : Payload, payload block0 = Some p ∧
    get_decoded NEXT_BEEFY_STAKES_ID p = Some [(validator 2, 1); (validator 1, 1)].
Proof.
  eexists. split; [reflexivity|].
  destruct (payload_commits_to_validators c_tree_length block0 _ s0 eq_refl eq_refl s0_typed)
    as (_ & _ & [(Hn & _)|(_ & _ & Hn)]); [exact Hn|discriminate Hn].
Defined.

Lemma next_set_id_update_is_lost_witness :
  ∃ (p : Payload) a, payload block0 = Some p ∧ get_decoded NEXT_BEEFY_AUTHORITY_SET p = Some a ∧
    set_id a = 0 ∧ set_id (BeefyNextAuthorities (next_beefy_stakes None s0).2) = 7.
Proof.
  eexists _, (compute_authority_set 0 (stakes_of (NextAuthorities s0))).
  split; [reflexivity|].
  assert (Hd : ∀ p, payload block0 = Some p → get_decoded NEXT_BEEFY_AUTHORITY_SET p =
    Some (compute_authority_set 0 (stakes_of (NextAuthorities s0)))).
  { intros p Hp. destruct (payload_next c_tree_length _ _ _ Hp eq_refl s0_typed)
      as [(_ & Hn & _)|(_ & _ & Hn)]; [exact Hn|discriminate Hn]. }
  split; [apply Hd; reflexivity|].
  refine (next_set_id_update_is_lost c_tree_length block0 _ s0 _ eq_refl eq_refl s0_typed _ eq_refl).
  apply Hd. reflexivity.
Defined.
End BeefyConcrete.
