(* ===== verification/Relay.v ===== *)
(** * The BEEFY relay

    Models the client under [relay/src] that turns BEEFY justifications into Plutus
    data for Cardano: the stakes read from a payload ([justification.rs]), the proof
    of the signing authorities ([authorities.rs]), the votes and the Plutus encoding
    ([cardano_encoding.rs]), the choice of block and validator set, and the handling
    of a stream of justifications ([relayer.rs], [helper.rs]).  The node behind the
    RPC interface, SCALE, the signature check and the rs_merkle tree are
    dependencies. *)

From Stdlib Require Import ZArith Lia.
From stdpp Require Import prelude gmap strings.
From S2P Require Import Prelude Frame Collections Committee Beefy.

Open Scope Z_scope.

(** ** Errors: [error.rs] *)

Inductive RelayError : Type :=
| InvalidKeysFile (path : string)
| JsonDecodeError (what : string)
| Subxt
| Rpc
| Codec
| NoMatchingSignature (block_number : Z) (valid : Z)
| InvalidAuthoritiesProofCreation
| MissingCurrentBeefyStakes
| MissingCurrentAuthoritySet
| MissingNextBeefyStakes
| MissingNextAuthoritySet
| EmptyValidatorSet.

(** ** Dependencies *)

(** [rs_merkle::proof_tree::ProofNode]. *)
Inductive ProofNode : Type :=
| Leaf (hash : list Z)
| Node (nodes : list ProofNode).

(** [keccak_256] and [rs_merkle::MerkleTree<KeccakHasher>]. *)
Class RsMerkle : Type := {
  keccak_256 : list Z → list Z;
  MerkleTree : Type;
  from_leaves : list (list Z) → MerkleTree;
  tree_root : MerkleTree → option (list Z);
  ordered_proof_tree : MerkleTree → list nat → ProofNode;
}.

(** [sp_consensus_beefy::SignedCommitment], with one slot per validator. *)
Record BeefySignedCommitment `{PayloadContainer} : Type := {
  commitment_payload : Payload;
  commitment_block_number : Z;
  commitment_validator_set_id : Z;
  signatures : list (option (list Z));
}.

(** [SignedCommitment::verify_signatures]: an error carries the number of valid
    signatures found. *)
Class VerifySignatures `{PayloadContainer} : Type := {
  verify_signatures : BeefySignedCommitment → Z → ValidatorSet → outcome Z unit;
}.
(** It compares the number of signature slots and the identifier of the set. *)
Class VerifyLaws `(V : VerifySignatures) : Prop :=
  verify_shape c n v : verify_signatures c n v = Ok tt →
    length (signatures c) = length (validators v) ∧
    commitment_validator_set_id c = validator_set_id v.

(** ** The stakes in a payload: [justification.rs] *)

Record BeefyStakesInfo : Type := {
  current_stakes : BeefyStakes;
  current_authority_set : BeefyAuthoritySet;
  next_stakes : BeefyStakes;
  next_authority_set : BeefyAuthoritySet;
}.

Section Authorities.
Context `{P : PayloadContainer} `{Scale BeefyStakes} `{Scale BeefyAuthoritySet}.
Context `{RsMerkle} `{V : !VerifySignatures}.

Definition stakes_info_try_from (value : Payload) : outcome RelayError BeefyStakesInfo :=
  cs ← ok_or (get_decoded CURRENT_BEEFY_STAKES_ID value) MissingCurrentBeefyStakes;
  cb ← ok_or (get_decoded CURRENT_BEEFY_AUTHORITY_SET value) MissingCurrentAuthoritySet;
  ns ← ok_or (get_decoded NEXT_BEEFY_STAKES_ID value) MissingNextBeefyStakes;
  nb ← ok_or (get_decoded NEXT_BEEFY_AUTHORITY_SET value) MissingNextAuthoritySet;
  Ok {| current_stakes := cs; current_authority_set := cb;
        next_stakes := ns; next_authority_set := nb |}.

(** ** The proof of the authorities: [authorities.rs] *)

Record AuthoritiesProof : Type := { root : list Z; total_leaves : Z; proof : ProofNode }.

Definition prep_leaf_hash (beefy_stake : BeefyStake) : list Z :=
  let data := beefy_inner beefy_stake.1 in
  let stake_bytes := to_le_bytes 8 beefy_stake.2 in
  keccak_256 (data ++ stake_bytes).

Definition prep_merkle_leaves (beefy_stakes : BeefyStakes) : list (list Z) :=
  prep_leaf_hash <$> beefy_stakes.

(** The positions that hold a value ([enumerate().filter_map(..)]). *)
Definition signed_indices (sigs : list (option (list Z))) : list nat :=
  omap (λ '(index, sig), (λ _, index) <$> sig) (enumerate sigs).

Definition collect_signature_indices (c : BeefySignedCommitment) (validator_set : ValidatorSet) :
    outcome RelayError (list nat) :=
  let block_number := commitment_block_number c in
  map_err (NoMatchingSignature block_number)
    (verify_signatures c block_number validator_set) ≫= λ _,
  Ok (signed_indices (signatures c)).

(** [AuthoritiesProof::try_new]. *)
Definition try_new (c : BeefySignedCommitment) (validator_set : ValidatorSet) :
    outcome RelayError AuthoritiesProof :=
  sig_indices ← collect_signature_indices c validator_set;
  stakes_info ← stakes_info_try_from (commitment_payload c);
  let keccak_hashes := prep_merkle_leaves (current_stakes stakes_info) in
  let tree := from_leaves keccak_hashes in
  root_slice ← ok_or (tree_root tree) InvalidAuthoritiesProofCreation;
  Ok {| root := root_slice;
        total_leaves := wrap 32 (Z.of_nat (length (validators validator_set)));
        proof := ordered_proof_tree tree sig_indices |}.

(** ** Votes: [cardano_encoding.rs] *)

Record Vote : Type := { signature : list Z; authority_index : Z; public_key : list Z }.
Record PayloadEntry : Type := { entry_id : list Z; entry_data : list Z }.
Record Commitment : Type := { payloads : list PayloadEntry; block_number : Z; set_of : Z }.
Record SignedCommitment : Type := { commitment : Commitment; votes : list Vote }.
Record RelayChainProof : Type :=
  { signed_commitment : SignedCommitment; authorities_proof : AuthoritiesProof }.

(** [Vec::pop] on a value that is then used without its last byte. *)
Definition pop (l : list Z) : list Z := take (length l - 1) l.

Definition from_signed_commitment_and_validators (c : BeefySignedCommitment) (vs : list BeefyId) :
    SignedCommitment :=
  {| commitment :=
       {| payloads := (λ i, {| entry_id := MMR_ROOT_ID; entry_data := i |}) <$>
                        get_all_raw MMR_ROOT_ID (commitment_payload c);
          block_number := commitment_block_number c;
          set_of := commitment_validator_set_id c |};
     votes :=
       omap (λ '((i, sig), pk),
               match sig with
               | Some sig => Some {| signature := pop sig; authority_index := Z.of_nat i;
                                     public_key := beefy_inner pk |}
               | None => None
               end)
            (zip (enumerate (signatures c)) vs) |}.

(** [RelayChainProof::generate]. *)
Definition generate (c : BeefySignedCommitment) (validator_set : ValidatorSet) :
    outcome RelayError RelayChainProof :=
  p ← try_new c validator_set;
  Ok {| signed_commitment := from_signed_commitment_and_validators c (validators validator_set);
        authorities_proof := p |}.
End Authorities.

(** ** Plutus data: [cardano_encoding.rs] *)

(** The constructors of [pallas::PlutusData] that are used; every sequence is a
    [MaybeIndefArray::Indef] and every integer a [BigInt::Int]. *)
Inductive PlutusData : Type :=
| Constr (tag : Z) (any_constructor : option Z) (fields : list PlutusData)
| BigInt (n : Z)
| BoundedBytes (bs : list Z)
| Array (items : list PlutusData).

Definition TAG : Z := 121.

(** [x as i64] of a 64-bit [usize]. *)
Definition as_i64 (n : Z) : Z :=
  let w := wrap 64 n in if bool_decide (w < 2 ^ 63) then w else w - 2 ^ 64.

Class ToPlutusData (A : Type) : Type := to_plutus_data : A → PlutusData.

#[export] Instance vote_to_plutus : ToPlutusData Vote := λ v,
  Constr TAG None
    [BoundedBytes (signature v); BigInt (as_i64 (authority_index v)); BoundedBytes (public_key v)].
#[export] Instance payload_to_plutus : ToPlutusData PayloadEntry := λ p,
  Constr TAG None [BoundedBytes (entry_id p); BoundedBytes (entry_data p)].
#[export] Instance commitment_to_plutus : ToPlutusData Commitment := λ c,
  Constr TAG None
    [Array (to_plutus_data <$> payloads c); BigInt (as_i64 (block_number c));
     BigInt (as_i64 (set_of c))].
#[export] Instance signed_commitment_to_plutus : ToPlutusData SignedCommitment := λ s,
  Constr TAG None [to_plutus_data (commitment s); Array (to_plutus_data <$> votes s)].
Fixpoint proof_node_to_plutus_data (proof : ProofNode) : PlutusData :=
  match proof with
  | Leaf hash => BoundedBytes hash
  | Node nodes => Array (map proof_node_to_plutus_data nodes)
  end.
#[export] Instance authorities_proof_to_plutus : ToPlutusData AuthoritiesProof := λ a,
  Constr TAG None
    [BoundedBytes (root a); BigInt (as_i64 (total_leaves a)); proof_node_to_plutus_data (proof a)].
#[export] Instance relay_chain_proof_to_plutus : ToPlutusData RelayChainProof := λ r,
  Constr TAG None [to_plutus_data (signed_commitment r); to_plutus_data (authorities_proof r)].

(** The widths of the integers that are encoded. *)
Definition typed_vote (v : Vote) : Prop := in_range 64 (authority_index v).
Definition typed_proof (r : RelayChainProof) : Prop :=
  let c := commitment (signed_commitment r) in
  in_range 64 (block_number c) ∧ in_range 64 (set_of c) ∧
  Forall typed_vote (votes (signed_commitment r)) ∧
  in_range 64 (total_leaves (authorities_proof r)).

Lemma as_i64_inj n m : in_range 64 n → in_range 64 m → as_i64 n = as_i64 m → n = m.
Proof.
  intros Hn Hm. unfold as_i64. rewrite !wrap_small by done.
  unfold in_range, umax in *. repeat case_bool_decide; lia.
Qed.

(** Induction over proof trees, children included. *)
Section ProofNodeInd.
Context (Q : ProofNode → Prop) (Hleaf : ∀ h, Q (Leaf h)) (Hnode : ∀ ns, Forall Q ns → Q (Node ns)).
Fixpoint ProofNode_nested (p : ProofNode) : Q p :=
  match p with
  | Leaf h => Hleaf h
  | Node ns =>
      Hnode ns ((fix go (l : list ProofNode) : Forall Q l :=
        match l with
        | [] => List.Forall_nil _
        | x :: l => List.Forall_cons _ _ _ (ProofNode_nested x) (go l)
        end) ns)
  end.
End ProofNodeInd.

Lemma map_inj_Forall {A B} (f : A → B) l k :
  Forall (λ x, ∀ y, f x = f y → x = y) l → map f l = map f k → l = k.
Proof.
  intros Hl. revert k. induction Hl as [|x l Hx _ IH]; intros [|y k]; simpl; try done.
  intros [= Hxy Hlk]. f_equal; eauto.
Qed.

Lemma proof_node_to_plutus_inj p q :
  proof_node_to_plutus_data p = proof_node_to_plutus_data q → p = q.
Proof.
  revert q. induction p as [h|ns IH] using ProofNode_nested; intros [h'|ns']; simpl;
    intros Heq; simplify_eq; [done|].
  f_equal. eapply map_inj_Forall; [|eassumption].
  eapply Forall_impl; [exact IH|]. eauto.
Qed.

Lemma payloads_to_plutus_inj (l k : list PayloadEntry) :
  to_plutus_data <$> l = to_plutus_data <$> k → l = k.
Proof.
  apply map_inj_Forall, Forall_true. intros [i d] [i' d'] [= -> ->]. done.
Qed.

Lemma votes_to_plutus_inj (l k : list Vote) :
  Forall typed_vote l → Forall typed_vote k → to_plutus_data <$> l = to_plutus_data <$> k → l = k.
Proof.
  intros Hl. revert k. induction Hl as [|[s i pk] l Hv _ IH]; intros [|[s' i' pk'] k]; try done.
  intros [Hv' Hk]%Forall_cons. rewrite !fmap_cons. intros [= -> Hi -> Hlk].
  apply as_i64_inj in Hi; [|done..]. simpl in Hi. subst. f_equal. eauto.
Qed.

(**  the Plutus encoding loses nothing: two relay chain proofs with the same
    Plutus data are the same proof, votes, payloads, identifiers and proof tree
    included, although the integers are cast to signed ones on the way. *)
Theorem plutus_encoding_injective (r r' : RelayChainProof) :
  typed_proof r → typed_proof r' → to_plutus_data r = to_plutus_data r' → r = r'.
Proof.
  destruct r as [[[ps n i] vs] [rt t p]], r' as [[[ps' n' i'] vs'] [rt' t' p']].
  intros (Hn & Hi & Hv & Ht) (Hn' & Hi' & Hv' & Ht').
  unfold to_plutus_data, relay_chain_proof_to_plutus, to_plutus_data, signed_commitment_to_plutus,
    authorities_proof_to_plutus, to_plutus_data, commitment_to_plutus. simpl in *.
  intros [= Hps Hnn Hii Hvv -> Htt Hpp].
  apply payloads_to_plutus_inj in Hps. apply votes_to_plutus_inj in Hvv; [|done..].
  apply as_i64_inj in Hnn, Hii, Htt; [|done..]. apply proof_node_to_plutus_inj in Hpp.
  by subst.
Qed.

(** ** Votes and proof agree *)

Section Proofs.
Context `{P : PayloadContainer} `{Scale BeefyStakes} `{Scale BeefyAuthoritySet}.
Context `{R : RsMerkle} `{V : !VerifySignatures}.

Lemma signed_indices_spec sigs i :
  i ∈ signed_indices sigs ↔ ∃ s, sigs !! i = Some (Some s).
Proof.
  unfold signed_indices. rewrite list_elem_of_omap. split.
  - intros ([j o] & Hin & Ho). apply elem_of_enumerate in Hin.
    destruct o as [s|]; simplify_eq/=. eauto.
  - intros [s Hs]. exists (i, Some s). split; [by apply elem_of_enumerate|done].
Qed.

(** The vote of validator [pk] at position [i]. *)
Definition vote_at (i : nat) (sig : list Z) (pk : BeefyId) : Vote :=
  {| signature := pop sig; authority_index := Z.of_nat i; public_key := beefy_inner pk |}.

Lemma votes_indices_from k (sigs : list (option (list Z))) (vs : list BeefyId) :
  length sigs = length vs →
  Z.to_nat ∘ authority_index <$>
    omap (λ '((i, sig), pk), (λ sig, vote_at i sig pk) <$> sig)
      (zip (imap (λ i x, ((k + i)%nat, x)) sigs) vs) =
  omap (λ '(i, sig), (λ _ : list Z, i) <$> sig) (imap (λ i x, ((k + i)%nat, x)) sigs).
Proof.
  revert k vs. induction sigs as [|o sigs IH]; intros k [|v vs] Hlen; try done.
  injection Hlen as Hlen. specialize (IH (S k) vs Hlen).
  rewrite !imap_cons. cbn [zip zip_with]. rewrite !omap_cons_eq.
  rewrite (imap_ext ((λ i x, ((k + i)%nat, x)) ∘ S) (λ i x, ((S k + i)%nat, x)) sigs)
    by (intros; unfold compose; f_equal; lia).
  destruct o as [s|]; [|exact IH]. cbn [fmap option_fmap option_map list_fmap].
  f_equal; [|exact IH]. unfold compose, vote_at. cbn. lia.
Qed.

Lemma generate_inv c v r :
  generate c v = Ok r →
  ∃ info, verify_signatures c (commitment_block_number c) v = Ok tt ∧
    stakes_info_try_from (commitment_payload c) = Ok info ∧
    let tree := from_leaves (prep_merkle_leaves (current_stakes info)) in
    tree_root tree = Some (root (authorities_proof r)) ∧
    proof (authorities_proof r) = ordered_proof_tree tree (signed_indices (signatures c)) ∧
    total_leaves (authorities_proof r) = wrap 32 (Z.of_nat (length (validators v))) ∧
    signed_commitment r = from_signed_commitment_and_validators c (validators v).
Proof.
  unfold generate, try_new, collect_signature_indices, map_err, ok_or, mbind, outcome_bind.
  destruct (verify_signatures _ _ _) as [[]| |] eqn:Hv; [|done..].
  destruct (stakes_info_try_from _) as [info| |] eqn:Hi; [|done..].
  destruct (tree_root _) as [rt|] eqn:Hr; [|done]. intros [= <-]. eauto 10.
Qed.

Lemma votes_eq c vs :
  votes (from_signed_commitment_and_validators c vs) =
  omap (λ '((i, sig), pk), (λ sig, vote_at i sig pk) <$> sig) (zip (enumerate (signatures c)) vs).
Proof.
  cbn [votes from_signed_commitment_and_validators].
  apply list_omap_ext. apply Forall2_same_length_lookup_2; [done|].
  intros j [[i o] pk] y ? ?. simplify_eq. by destruct o.
Qed.

Lemma elem_of_votes c vs vote :
  vote ∈ votes (from_signed_commitment_and_validators c vs) ↔
  ∃ i sig pk, vote = vote_at i sig pk ∧ signatures c !! i = Some (Some sig) ∧ vs !! i = Some pk.
Proof.
  rewrite votes_eq, list_elem_of_omap. unfold enumerate. split.
  - intros ([[i o] pk] & Hin & Ho). destruct o as [sig|]; simplify_eq/=.
    apply list_elem_of_lookup in Hin as [j Hj].
    rewrite lookup_zip_with, list_lookup_imap in Hj. simplify_option_eq. eauto 10.
  - intros (i & sig & pk & -> & Hs & Hpk). exists ((i, Some sig), pk). split; [|done].
    apply list_elem_of_lookup. exists i. rewrite lookup_zip_with, list_lookup_imap, Hs.
    simpl. by rewrite Hpk.
Qed.

Lemma votes_indices c v :
  length (signatures c) = length (validators v) →
  Z.to_nat ∘ authority_index <$> votes (from_signed_commitment_and_validators c (validators v)) =
  signed_indices (signatures c).
Proof. intros Hlen. rewrite votes_eq. apply (votes_indices_from 0 _ _ Hlen). Qed.

Context `{!VerifyLaws V}.

(** the votes and the authority proof of a relay chain proof speak of the same
    validators.  The proof tree opens exactly the leaves at the authority indices of
    the votes, in their order; there is one vote per signature of the commitment, with
    the key of the validator at that position and the signature without its last
    byte, and no other vote. *)
Theorem relay_votes_match_proof c v r :
  generate c v = Ok r →
  let vs := votes (signed_commitment r) in
  (∃ info, stakes_info_try_from (commitment_payload c) = Ok info ∧
     proof (authorities_proof r) =
       ordered_proof_tree (from_leaves (prep_merkle_leaves (current_stakes info)))
         (Z.to_nat ∘ authority_index <$> vs)) ∧
  (∀ vote, vote ∈ vs ↔
     ∃ i sig pk, vote = vote_at i sig pk ∧ signatures c !! i = Some (Some sig) ∧
       validators v !! i = Some pk) ∧
  (∀ i sig, signatures c !! i = Some (Some sig) → ∃ pk, vote_at i sig pk ∈ vs).
Proof.
  intros (info & Hv & Hi & _ & Hp & _ & Hc)%generate_inv.
  apply verify_shape in Hv as [Hlen _]. rewrite Hc. cbv zeta. split_and!.
  - exists info. split; [done|]. by rewrite votes_indices.
  - apply elem_of_votes.
  - intros i sig Hs. assert (is_Some (validators v !! i)) as [pk Hpk].
    { apply lookup_lt_is_Some. rewrite <-Hlen. by eapply lookup_lt_Some. }
    exists pk. apply elem_of_votes. eauto 10.
Qed.
End Proofs.

(** ** The relayer: [relayer.rs], [helper.rs] *)

Section Relayer.
Context `{P : PayloadContainer} `{Scale BeefyStakes} `{Scale BeefyAuthoritySet}.
Context `{R : RsMerkle} `{V : !VerifySignatures}.
(** Block hashes, and [VersionedFinalityProof::V1] decoded from a justification. *)
Context {BlockHash : Type} (decode_justification : list Z → option BeefySignedCommitment).

(** The validator set as the metadata types it. *)
Record MidnBeefyValidatorSet : Type := { meta_validators : list (list Z); meta_id : Z }.

(** What the node answers while one justification is handled. *)
Record NodeView : Type := {
  at_latest : outcome unit Z;
  chain_getBlockHash : Z → outcome unit (option BlockHash);
  beefy_validator_set : option BlockHash → outcome unit (option MidnBeefyValidatorSet);
}.

(** [MnMetaConversion]; each [expect] is a panic. *)
Definition public_into_non_metadata (bs : list Z) : outcome RelayError BeefyId :=
  if decide (length bs = 33%nat) then Ok {| beefy_inner := bs |} else Panic.
Definition set_into_non_metadata (m : MidnBeefyValidatorSet) : outcome RelayError ValidatorSet :=
  vs ← try_collect public_into_non_metadata (meta_validators m);
  match vs with
  | [] => Panic
  | _ => Ok {| validators := vs; validator_set_id := meta_id m |}
  end.

Definition get_best_block_number (n : NodeView) : option Z :=
  match at_latest n with Ok b => Some b | _ => None end.
Definition get_block_hash (n : NodeView) (block : Z) : option BlockHash :=
  match chain_getBlockHash n block with Ok result => result | _ => None end.

Definition choose_params (n : NodeView) (c : BeefySignedCommitment) : option Z * option BlockHash :=
  let best_block := get_best_block_number n in
  let at_block_hash :=
    match best_block with
    | None => get_block_hash n (commitment_block_number c)
    | Some _ => None
    end in
  (best_block, at_block_hash).

(** [runtime_api] and [get_beefy_validator_set]. *)
Definition runtime_api (n : NodeView) (at_block_hash : option BlockHash) :
    outcome RelayError (option MidnBeefyValidatorSet) :=
  map_err (λ _, Subxt) (beefy_validator_set n at_block_hash).
Definition get_beefy_validator_set (n : NodeView) (at_block_hash : option BlockHash) :
    outcome RelayError ValidatorSet :=
  validator_set ← runtime_api n at_block_hash;
  match validator_set with
  | Some v_set => set_into_non_metadata v_set
  | None => Err EmptyValidatorSet
  end.

(** [handle_justification_stream_data]: the proof and the Plutus data it logs. *)
Definition handle_justification_stream_data (n : NodeView) (justification : list Z) :
    outcome RelayError (RelayChainProof * PlutusData) :=
  c ← ok_or (decode_justification justification) Codec;
  let '(_best_block, at_block_hash) := choose_params n c in
  validator_set ← get_beefy_validator_set n at_block_hash;
  relay_chain_proof ← generate c validator_set;
  Ok (relay_chain_proof, to_plutus_data relay_chain_proof).

(** [run_relay_by_subscription] on the items of the subscription, up to the end of
    the stream or the first error: what was logged and how it ended. *)
Fixpoint run_relay_by_subscription (sub : list (outcome unit (list Z) * NodeView)) :
    list (RelayChainProof * PlutusData) * outcome RelayError unit :=
  match sub with
  | [] => ([], Ok tt)
  | (result, n) :: sub =>
      match map_err (λ _, Rpc) result ≫= handle_justification_stream_data n with
      | Ok out =>
          let '(logged, e) := run_relay_by_subscription sub in (out :: logged, e)
      | Err e => ([], Err e)
      | Panic => ([], Panic)
      end
  end.

Lemma set_into_non_metadata_eq vs id :
  vs ≠ [] → Forall typed_id vs →
  set_into_non_metadata {| meta_validators := beefy_inner <$> vs; meta_id := id |} =
    Ok {| validators := vs; validator_set_id := id |}.
Proof.
  intros Hne Hvs. unfold set_into_non_metadata. cbn [meta_validators meta_id].
  assert (try_collect public_into_non_metadata (beefy_inner <$> vs) = Ok vs) as ->.
  { apply try_collect_ok. apply Forall2_fmap_l. clear Hne. induction Hvs as [|v vs Hv _ IH];
      constructor; [|done]. unfold compose, public_into_non_metadata. rewrite decide_True by done.
    by destruct v. }
  by destruct vs.
Qed.

(** ** From the runtime to the relay *)

Context `{BinaryMerkleTree} `{Client} `{Scale (list Z)}.
Context `{!PayloadLaws P} `{!ScaleLaws BeefyStakes typed_stakes}
  `{!ScaleLaws BeefyAuthoritySet typed_set}.
Context (merkle_root_length : ∀ ls, length (merkle_root ls) = 32%nat).

Lemma prep_merkle_leaves_eq l : prep_merkle_leaves l = keccak_256 <$> (beefy_stake_bytes <$> l).
Proof. by rewrite <-list_fmap_compose. Qed.

Lemma stakes_info_of_payload header p s info :
  payload header = Some p → state_at (header_hash header) = Some s → typed_state s →
  stakes_info_try_from p = Ok info →
  current_stakes info = stakes_of (Authorities s) ∧
  current_authority_set info =
    compute_authority_set (set_id (BeefyAuthorities s)) (stakes_of (Authorities s)).
Proof.
  intros Hp Hs Ht. pose proof (payload_current merkle_root_length _ _ _ Hp Hs Ht) as [Hcs Hcb].
  unfold stakes_info_try_from, ok_or, mbind, outcome_bind. rewrite Hcs, Hcb.
  repeat case_match; intros; by simplify_eq.
Qed.

Lemma stakes_info_without_next header p s :
  payload header = Some p → state_at (header_hash header) = Some s → typed_state s →
  provider_next_beefy_stakes header = None →
  stakes_info_try_from p = Err MissingNextBeefyStakes.
Proof.
  intros Hp Hs Ht Hn. pose proof (payload_current merkle_root_length _ _ _ Hp Hs Ht) as [Hcs Hcb].
  unfold stakes_info_try_from, ok_or, mbind, outcome_bind. rewrite Hcs, Hcb.
  apply payload_entries in Hp as (s' & root & _ & _ & _ & _ & _ & Hx). rewrite Hn in Hx.
  by rewrite get_decoded_none by apply Hx.
Qed.

Context `{!VerifyLaws V}.

(** C28: End to end, from the runtime's storage to Cardano.  A commitment whose payload is
    the one the node makes at a block, from a runtime state of well-typed values, is turned
    into a relay chain proof with a validator set as long as the runtime's: then the payload's current stakes list the runtime's
    validators in order, and over the same leaves, a validator's key followed by its signed
    stake, are taken the keyset commitment that the payload signs for the current set (with
    [binary_merkle_tree]) and the root of the relayed proof (with [rs_merkle], over the
    Keccak hashes of the leaves).  The proof opens the leaves at the indices of the votes,
    and each of these is the leaf of a validator of that block.  Assumed of the
    dependencies: SCALE reads back what it writes, a payload returns what was pushed, a
    Merkle root has 32 bytes, and signatures verify only with one slot per validator. *)
Theorem relayed_root_is_signed_commitment header s c v r :
  payload header = Some (commitment_payload c) →
  state_at (header_hash header) = Some s → typed_state s → length (validators v) = length (Authorities s) →
  generate c v = Ok r →
  ∃ stakes a,
    get_decoded CURRENT_BEEFY_STAKES_ID (commitment_payload c) = Some stakes ∧ stakes.*1 = Authorities s ∧
    get_decoded CURRENT_BEEFY_AUTHORITY_SET (commitment_payload c) = Some a ∧
    let leaves := (λ x, beefy_inner x.1 ++ to_le_bytes 8 x.2) <$> stakes in
    let opened := Z.to_nat ∘ authority_index <$> votes (signed_commitment r) in
    keyset_commitment a = merkle_root leaves ∧
    tree_root (from_leaves (keccak_256 <$> leaves)) = Some (root (authorities_proof r)) ∧
    proof (authorities_proof r) = ordered_proof_tree (from_leaves (keccak_256 <$> leaves)) opened ∧
    Forall (λ i, ∃ k n, stakes !! i = Some (k, n) ∧ Authorities s !! i = Some k) opened.
Proof.
  intros Hp Hs Ht Hlen (info & Hv & Hi & Hroot & Hproof & _ & Hc)%generate_inv.
  pose proof (stakes_info_of_payload _ _ _ _ Hp Hs Ht Hi) as [Hcur _].
  pose proof (payload_current merkle_root_length _ _ _ Hp Hs Ht) as [Hcs Hcb].
  apply verify_shape in Hv as [Hsigs _]. rewrite Hcur, prep_merkle_leaves_eq in Hroot, Hproof.
  eexists _, _. split; [exact Hcs|]. split; [by unfold stakes_of; rewrite <-list_fmap_compose; apply list_fmap_id|].
  split; [exact Hcb|]. cbv zeta. rewrite Hc, votes_indices by done. split_and!; [done..|].
  apply Forall_forall. intros i [sig Hi']%signed_indices_spec. apply lookup_lt_Some in Hi'.
  destruct (lookup_lt_is_Some_2 (Authorities s) i) as [k Hk]; [lia|].
  exists k, 1. unfold stakes_of. by rewrite list_lookup_fmap, Hk.
Qed.

(** the relay stops at the first justification of a block whose runtime knows no
    next committee.  The node signs such payloads, without the entries of the next
    set; the relay demands them, so handling the justification fails, and with it the
    subscription: nothing after it is relayed. *)
Theorem relay_stops_without_next_committee header s c n justification sub v :
  payload header = Some (commitment_payload c) →
  state_at (header_hash header) = Some s → typed_state s → announced_committee s = None →
  decode_justification justification = Some c →
  get_beefy_validator_set n (choose_params n c).2 = Ok v →
  verify_signatures c (commitment_block_number c) v = Ok tt →
  run_relay_by_subscription ((Ok justification, n) :: sub) = ([], Err MissingNextBeefyStakes).
Proof.
  intros Hp Hs Ht Hnone Hd Hv Hsig.
  assert (provider_next_beefy_stakes header = None) as Hn.
  { destruct (provider_next_beefy_stakes header) eqn:Hn; [|done].
    apply provider_next_spec in Hn as (s' & Hs' & [? ?] & _). by simplify_eq. }
  pose proof (stakes_info_without_next _ _ _ Hp Hs Ht Hn) as Hi.
  cbn [run_relay_by_subscription map_err mbind outcome_bind].
  unfold handle_justification_stream_data. rewrite Hd. cbn [ok_or mbind outcome_bind].
  destruct (choose_params n c) as [b h]. cbn [snd] in Hv. rewrite Hv. cbn [mbind outcome_bind].
  unfold generate, try_new, collect_signature_indices. rewrite Hsig.
  cbn [map_err mbind outcome_bind]. by rewrite Hi.
Qed.
End Relayer.

(** ** A concrete relay *)

Module RelayConcrete.
Import BeefyConcrete.

#[export] Instance c_merkle : RsMerkle := {
  keccak_256 l := l;
  MerkleTree := list (list Z);
  from_leaves ls := ls;
  tree_root t := match t with [] => None | _ => Some (take 32 (concat t ++ replicate 32 0)) end;
  ordered_proof_tree t idx := Node (Leaf <$> omap (λ i, t !! i) idx);
}.

(** The shape is checked, and the key is the signature. *)
#[export] Instance c_verify : VerifySignatures := {
  verify_signatures c _ v :=
    if decide (length (signatures c) = length (validators v) ∧
               commitment_validator_set_id c = validator_set_id v)
    then Ok tt else Err 0;
}.
#[export] Instance c_verify_laws : VerifyLaws c_verify.
Proof. intros c n v. simpl. by case_decide. Qed.

Definition signed (h : bool) : BeefySignedCommitment := {|
  commitment_payload := default [] (payload (if h then block1 else block0));
  commitment_block_number := 30; commitment_validator_set_id := 6;
  signatures := [None; Some [4; 5; 6]];
|}.
Definition set0 : ValidatorSet := {| validators := Authorities s0; validator_set_id := 6 |}.
(** A node that cannot tell its best block. *)
Definition node0 : NodeView (BlockHash := Z) := {|
  at_latest := Err tt;
  chain_getBlockHash b := Ok (Some b);
  beefy_validator_set _ :=
    Ok (Some {| meta_validators := beefy_inner <$> Authorities s0; meta_id := 6 |});
|}.

Lemma generate_signed : ∃ r, generate (signed false) set0 = Ok r.
Proof. vm_compute. eauto. Qed.

Definition proof0 (sig : list Z) : RelayChainProof := {|
  signed_commitment :=
    {| commitment := {| payloads := []; block_number := 3; set_of := 2 ^ 63 |};
       votes := [{| signature := sig; authority_index := 1; public_key := [7] |}] |};
  authorities_proof := {| root := [1]; total_leaves := 2; proof := Node [Leaf [1]; Node []] |};
|}.
Lemma proof0_typed sig : typed_proof (proof0 sig).
Proof.
  unfold typed_proof, in_range, umax. cbn. split_and!; try lia.
  constructor; [|constructor]. unfold typed_vote, in_range, umax. cbn. lia.
Qed.
Lemma plutus_encoding_injective_witness :
  to_plutus_data (proof0 [4]) = to_plutus_data (proof0 (pop [4; 5])) ∧ proof0 [4] = proof0 (pop [4; 5]).
Proof.
  split; [reflexivity|].
  apply plutus_encoding_injective; [apply proof0_typed..|reflexivity].
Defined.

Lemma relay_votes_match_proof_witness :
  ∃ r, generate (signed false) set0 = Ok r ∧
    vote_at 1 [4; 5; 6] (validator 9) ∈ votes (signed_commitment r).
Proof.
  destruct generate_signed as [r Hr]. exists r. split; [exact Hr|].
  destruct (relay_votes_match_proof (signed false) set0 r Hr) as (_ & Hin & _).
  apply Hin. exists 1%nat, [4; 5; 6], (validator 9). split_and!; reflexivity.
Defined.

Lemma relayed_root_is_signed_commitment_witness :
  ∃ r, generate (signed false) set0 = Ok r ∧
    ∃ stakes a, stakes.*1 = Authorities s0 ∧
      get_decoded CURRENT_BEEFY_AUTHORITY_SET (commitment_payload (signed false)) = Some a ∧
      keyset_commitment a = merkle_root ((λ x, beefy_inner x.1 ++ to_le_bytes 8 x.2) <$> stakes).
Proof.
  destruct generate_signed as [r Hr]. exists r. split; [exact Hr|].
  destruct (relayed_root_is_signed_commitment c_tree_length block0 s0
    (signed false) set0 r eq_refl eq_refl s0_typed eq_refl Hr) as (l & a & _ & Hl & Ha & Hk & _).
  exists l, a. split; [exact Hl|]. split; [exact Ha|exact Hk].
Defined.

Lemma relay_stops_without_next_committee_witness :
  ∀ sub, run_relay_by_subscription (λ _, Some (signed true)) ((Ok [], node0) :: sub) =
    ([], Err MissingNextBeefyStakes).
Proof.
  intros sub.
  apply (relay_stops_without_next_committee (λ _, Some (signed true)) c_tree_length block1
    s_unannounced (signed true) node0 [] sub set0); try reflexivity.
  apply s_unannounced_typed.
Defined.
End RelayConcrete.
