(* ===== verification/Admission.v ===== *)
(** * Admission of transactions

    Models the two gates a transaction passes before it is executed: the
    transaction extensions of the runtime ([runtime/src/check_call_filter.rs] with
    [SignedExtra] of [runtime/src/lib.rs], the throttle of [Throttle] being the last
    of them) and the filtering pool of a gateway node
    ([node/src/filtering_pool.rs]), which decodes Midnight transactions through the
    runtime and refuses deployments and maintenance updates.  The checks of
    frame-system and the transaction pool of Substrate are dependencies. *)

From Stdlib Require Import ZArith Lia Sorting.Sorted.
From stdpp Require Import prelude gmap strings.
From S2P Require Import Prelude Frame Collections Constants Throttle.
From S2P Require Import LedgerErrors LedgerTransaction LedgerBridge.

Open Scope Z_scope.

(** ** Runtime calls *)

(** The calls that the gates tell apart; [Opaque] stands for the rest. *)
Inductive SystemCall (Opaque : Type) : Type :=
| Call_apply_authorized_upgrade (code : list Z)
| Call_system_other (c : Opaque).
Inductive FederatedAuthorityCall (Opaque : Type) : Type :=
| Call_motion_approve (call : Opaque)
| Call_motion_revoke (motion_hash : list Z)
| Call_motion_close (motion_hash : list Z).
Inductive MidnightCall (Opaque : Type) : Type :=
| Call_send_mn_transaction (midnight_tx : list Z)
| Call_set_tx_size_weight (new_weight : Opaque).
Arguments Call_apply_authorized_upgrade {_}.
Arguments Call_system_other {_}.
Arguments Call_motion_approve {_}.
Arguments Call_motion_revoke {_}.
Arguments Call_motion_close {_}.
Arguments Call_send_mn_transaction {_}.
Arguments Call_set_tx_size_weight {_}.

(** [RuntimeCall]: a constructor per pallet of the runtime that has calls. *)
Inductive RuntimeCall (Opaque : Type) : Type :=
| Rt_System (c : SystemCall Opaque)
| Rt_Timestamp (c : Opaque)
| Rt_Grandpa (c : Opaque)
| Rt_Midnight (c : MidnightCall Opaque)
| Rt_MidnightSystem (c : Opaque)
| Rt_SessionCommitteeManagement (c : Opaque)
| Rt_CNightObservation (c : Opaque)
| Rt_Preimage (c : Opaque)
| Rt_MultiBlockMigrations (c : Opaque)
| Rt_PalletSession (c : Opaque)
| Rt_Scheduler (c : Opaque)
| Rt_TxPause (c : Opaque)
| Rt_Beefy (c : Opaque)
| Rt_Bridge (c : Opaque)
| Rt_Council (c : Opaque)
| Rt_CouncilMembership (c : Opaque)
| Rt_TechnicalCommittee (c : Opaque)
| Rt_TechnicalCommitteeMembership (c : Opaque)
| Rt_FederatedAuthority (c : FederatedAuthorityCall Opaque)
| Rt_FederatedAuthorityObservation (c : Opaque)
| Rt_SystemParameters (c : Opaque).
Arguments Rt_System {_}.
Arguments Rt_Timestamp {_}.
Arguments Rt_Midnight {_}.
Arguments Rt_Council {_}.
Arguments Rt_TechnicalCommittee {_}.
Arguments Rt_FederatedAuthority {_}.

(** ** The call filter *)

Section CallFilter.
Context {Opaque AccountId : Type} `{Countable AccountId}.

(** [GovernanceAuthorityCallFilter::contains]. *)
Definition contains (call : RuntimeCall Opaque) : bool :=
  match call with
  | Rt_Council _ | Rt_TechnicalCommittee _ => true
  | Rt_FederatedAuthority (Call_motion_close _) => true
  | Rt_System (Call_apply_authorized_upgrade _) => true
  | _ => false
  end.

(** The causes of a [TransactionValidityError] that appear here; [F] is that of the
    frame-system checks. *)
Inductive InvalidTransaction (F : Type) : Type :=
| Invalid_Call
| Invalid_ExhaustsResources
| Invalid_Frame (f : F).
Arguments Invalid_Call {_}.
Arguments Invalid_ExhaustsResources {_}.
Arguments Invalid_Frame {_}.

(** [CheckCallFilter::validate]. *)
Definition check_call_filter_validate {F} (call : RuntimeCall Opaque) :
    outcome (InvalidTransaction F) unit :=
  if contains call then Ok tt else Err Invalid_Call.

(** A signed transaction in a block. *)
Record SignedTx : Type := { tx_block : Z; tx_who : AccountId; tx_call : RuntimeCall Opaque; tx_len : Z }.

(** The checks of frame-system that come first: sender, versions, genesis, era,
    nonce and weight. *)
Context {F : Type} (frame_checks : SignedTx → outcome F unit).
Context (MaxBytes WindowSize : Z).

(** The extensions of [SignedExtra] in their order: [validate] of each, and when all
    accept, [prepare], which only the throttle uses here. *)
Definition signed_extra_validate (u : gmap AccountId (Z * Z)) (t : SignedTx) :
    outcome (InvalidTransaction F) (option AccountId) :=
  map_err Invalid_Frame (frame_checks t) ≫= λ _,
  check_call_filter_validate (tx_call t) ≫= λ _,
  map_err (λ _, Invalid_ExhaustsResources)
    (validate MaxBytes WindowSize (tx_block t) u (Signed (tx_who t)) (tx_len t)).
Definition signed_extra_apply (u : gmap AccountId (Z * Z)) (t : SignedTx) :
    outcome (InvalidTransaction F) unit * gmap AccountId (Z * Z) :=
  match signed_extra_validate u t with
  | Ok val => (Ok tt, prepare WindowSize (tx_block t) u val (tx_len t))
  | Err e => (Err e, u)
  | Panic => (Panic, u)
  end.

(** A sequence of them: the ones let through, and the usage at the end. *)
Fixpoint run_signed (u : gmap AccountId (Z * Z)) (l : list SignedTx) :
    list SignedTx * gmap AccountId (Z * Z) :=
  match l with
  | [] => ([], u)
  | t :: l =>
      let '(r, u') := signed_extra_apply u t in
      let '(acc, u'') := run_signed u' l in
      (if is_ok r then t :: acc else acc, u'')
  end.

Definition attempt_of (t : SignedTx) : attempt :=
  {| at_block := tx_block t; origin := Signed (tx_who t); len := tx_len t |}.

(** What the extensions before the throttle let through. *)
Definition passes (t : SignedTx) : Prop :=
  contains (tx_call t) = true ∧ is_ok (frame_checks t) = true.
#[local] Instance passes_dec t : Decision (passes t).
Proof. unfold passes. apply _. Defined.

Lemma signed_extra_apply_eq u t :
  let r := signed_extra_apply u t in
  (is_ok r.1, r.2) =
    if decide (passes t) then apply_extrinsic MaxBytes WindowSize u (attempt_of t) else (false, u).
Proof.
  cbv zeta. destruct (decide (passes t)) as [[Hc Hf]|Hp];
    unfold signed_extra_apply, signed_extra_validate, check_call_filter_validate,
      apply_extrinsic, mbind, outcome_bind, map_err; cbn [at_block origin len attempt_of].
  - rewrite Hc. destruct (frame_checks t) as [[]| |]; try done. by destruct (validate _ _ _ _ _).
  - destruct (frame_checks t) as [[]| |] eqn:Hf, (contains (tx_call t)) eqn:Hc; try done.
    destruct Hp. split; [done|by rewrite Hf].
Qed.

(** Bytes of [who] among the transactions let through in blocks [lo .. hi - 1]. *)
Definition bytes_of (who : AccountId) (lo hi : Z) (l : list SignedTx) : Z :=
  foldr (λ t n, (if decide (tx_who t = who ∧ lo ≤ tx_block t < hi) then tx_len t else 0) + n) 0 l.

Lemma run_signed_throttled who lo hi u l :
  bytes_of who lo hi (run_signed u l).1 =
  accepted_bytes MaxBytes WindowSize who lo hi u (attempt_of <$> filter passes l).
Proof.
  revert u; induction l as [|t l IH]; intros u; [done|].
  pose proof (signed_extra_apply_eq u t) as Ht. cbv zeta in Ht.
  cbn [run_signed]. rewrite filter_cons.
  destruct (signed_extra_apply u t) as [r u'] eqn:Hr. cbn [fst snd] in Ht. specialize (IH u').
  destruct (run_signed u' l) as [acc u''] eqn:Hrun. cbn [fst] in *.
  destruct (decide (passes t)) as [Hp|Hp].
  - rewrite fmap_cons. cbn [accepted_bytes]. rewrite <-Ht.
    destruct (is_ok r); cbn [andb]; [|by rewrite IH]. cbn [bytes_of foldr].
    fold (bytes_of who lo hi acc). rewrite IH. f_equal. cbn [origin at_block len attempt_of].
    case_decide as Hd; case_bool_decide as Hb; try done; exfalso.
    + apply Hb. by destruct Hd as [-> ?].
    + apply Hd. destruct Hb as [[= ->] ?]. done.
  - injection Ht as Hr' ->. by rewrite Hr'.
Qed.

Lemma run_signed_passes u l t : t ∈ (run_signed u l).1 → t ∈ l ∧ passes t.
Proof.
  revert u; induction l as [|x l IH]; intros u; [by intros ?%elem_of_nil|].
  pose proof (signed_extra_apply_eq u x) as Hx. cbv zeta in Hx. cbn [run_signed].
  destruct (signed_extra_apply u x) as [r u']. cbn [fst snd] in Hx. specialize (IH u').
  destruct (run_signed u' l) as [acc u'']. cbn [fst] in *.
  destruct (is_ok r).
  - rewrite !elem_of_cons. intros [->|Hin].
    + split; [by left|]. destruct (decide (passes x)) as [Hp|Hp]; [exact Hp|discriminate Hx].
    + destruct (IH Hin) as [? ?]. by split; [right|].
  - rewrite elem_of_cons. intros Hin. destruct (IH Hin) as [? ?]. by split; [right|].
Qed.

Lemma attempts_ordered l :
  StronglySorted (λ a b, tx_block a ≤ tx_block b) l → ordered (attempt_of <$> filter passes l).
Proof.
  induction 1 as [|t l Hl IH Ht]; [constructor|]. rewrite filter_cons.
  destruct (decide (passes t)); [|done]. rewrite fmap_cons. constructor; [done|].
  apply Forall_fmap. apply list.Forall_forall. intros x [_ Hx]%list_elem_of_filter.
  rewrite list.Forall_forall in Ht. exact (Ht x Hx).
Qed.

(**  signed transactions can only govern, and only at a limited rate.  Along any
    sequence of them in block order, those that get through the extensions of the
    runtime are calls of the Council or of the Technical Committee, the closing of a
    motion or the application of an authorized upgrade; no Midnight transaction is
    among them; and an account gets at most twice [MaxBytes] through in any
    [WindowSize] consecutive blocks. *)
Theorem signed_transactions_only_govern l :
  0 ≤ MaxBytes < umax 64 →
  StronglySorted (λ a b, tx_block a ≤ tx_block b) l → Forall (λ t, in_range 64 (tx_len t)) l →
  let through := (run_signed ∅ l).1 in
  (∀ t, t ∈ through → t ∈ l ∧ contains (tx_call t) = true ∧ ∀ c, tx_call t ≠ Rt_Midnight c) ∧
  ∀ who lo, bytes_of who lo (lo + WindowSize) through ≤ 2 * MaxBytes.
Proof.
  intros HMax Hord Hlen. cbv zeta. split.
  - intros t [Hin [Hc _]]%run_signed_passes. split_and!; [done..|]. intros c Heq.
    by rewrite Heq in Hc.
  - intros who lo. rewrite run_signed_throttled. apply accepted_any_window; [done|lia| | |].
    + by apply attempts_ordered.
    + apply Forall_fmap, list.Forall_forall. intros t [_ Ht]%list_elem_of_filter.
      rewrite list.Forall_forall in Hlen. exact (Hlen t Ht).
    + intros w. unfold usage. rewrite lookup_empty. simpl. lia.
Qed.
End CallFilter.
Arguments SignedTx : clear implicits.

(** ** The filtering pool *)

Record TxFilterConfig : Type := { config_enabled : bool; config_deny_deploy : bool; config_deny_maintain : bool }.
Definition filter_enabled : TxFilterConfig :=
  {| config_enabled := true; config_deny_deploy := true; config_deny_maintain := true |}.
Definition filter_disabled : TxFilterConfig :=
  {| config_enabled := false; config_deny_deploy := false; config_deny_maintain := false |}.

(** Labels of the denial counter. *)
Definition DEPLOY : string := "deploy".
Definition MAINTAIN : string := "maintain".
Definition PARSE_ERROR : string := "parse_error".
Definition LABELS : list string := [DEPLOY; MAINTAIN; PARSE_ERROR].

(** A [CounterVec] of the prometheus library: its label names and a counter per
    tuple of label values.  Asking for the counter of a tuple of another length than
    the label names is an error. *)
Record CounterVec : Type := { label_names : list string; counters : gmap (list string) Z }.
Definition counter_vec_inc (vals : list string) (c : CounterVec) : option CounterVec :=
  if decide (length vals = length (label_names c)) then
    Some {| label_names := label_names c;
            counters := <[vals := default 0 (counters c !! vals) + 1]> (counters c) |}
  else None.

(** [FilteringMetrics]: absent without a registry. *)
Record FilteringMetrics : Type := {
  forwarded_count : option Z;
  received_count : option Z;
  denied_count : option CounterVec;
}.
Definition metrics_new (registry : bool) : FilteringMetrics :=
  if registry then
    {| forwarded_count := Some 0; received_count := Some 0;
       denied_count := Some {| label_names := LABELS; counters := ∅ |} |}
  else {| forwarded_count := None; received_count := None; denied_count := None |}.

(** [deny]: an error of the lookup is dropped. *)
Definition metrics_deny (reason : string) (m : FilteringMetrics) : FilteringMetrics :=
  {| forwarded_count := forwarded_count m; received_count := received_count m;
     denied_count := (λ c, default c (counter_vec_inc [reason] c)) <$> denied_count m |}.
Definition metrics_forward (m : FilteringMetrics) : FilteringMetrics :=
  {| forwarded_count := (λ n, n + 1) <$> forwarded_count m; received_count := received_count m;
     denied_count := denied_count m |}.
Definition metrics_receive (m : FilteringMetrics) : FilteringMetrics :=
  {| forwarded_count := forwarded_count m; received_count := (λ n, n + 1) <$> received_count m;
     denied_count := denied_count m |}.

(** The transaction pool of Substrate behind the filter. *)
Class InnerPool : Type := {
  Xt : Type; XtHash : Type; Stream : Type; Pool : Type; PoolError : Type;
  (** [TxPoolError::ImmediatelyDropped] *)
  ImmediatelyDropped : PoolError;
  TransactionSource : Type;
  inner_submit_at : list Z → TransactionSource → list Xt →
    M Pool PoolError (list (outcome PoolError XtHash));
  inner_submit_one : list Z → TransactionSource → Xt → M Pool PoolError XtHash;
  inner_submit_and_watch : list Z → TransactionSource → Xt → M Pool PoolError Stream;
  inner_submit_local : list Z → Xt → M Pool PoolError XtHash;
}.

Section FilteringPool.
Context {Opaque : Type} `{InnerPool}.
(** [UncheckedExtrinsic::decode] of the encoded extrinsic: its function. *)
Context (decode_extrinsic : Xt → option (RuntimeCall Opaque)).
(** The runtime API [get_decoded_transaction] at a block: the call itself may fail. *)
Context {ApiError : Type}
  (api_get_decoded_transaction : list Z → list Z → outcome ApiError (outcome LedgerApiError Tx)).

(** [FilteringTransactionPool]. *)
Record FilteringTransactionPool : Type := {
  enabled : bool; deny_deploy : bool; deny_maintain : bool;
  metrics : FilteringMetrics;
  inner : Pool;
}.
Definition pool_new (config : TxFilterConfig) (p : Pool) (m : FilteringMetrics) :
    FilteringTransactionPool :=
  {| enabled := config_enabled config; deny_deploy := config_deny_deploy config;
     deny_maintain := config_deny_maintain config; metrics := m; inner := p |}.
Definition set_metrics (f : FilteringMetrics → FilteringMetrics) (s : FilteringTransactionPool) :
    FilteringTransactionPool :=
  {| enabled := enabled s; deny_deploy := deny_deploy s; deny_maintain := deny_maintain s;
     metrics := f (metrics s); inner := inner s |}.
Definition set_inner (p : Pool) (s : FilteringTransactionPool) : FilteringTransactionPool :=
  {| enabled := enabled s; deny_deploy := deny_deploy s; deny_maintain := deny_maintain s;
     metrics := metrics s; inner := p |}.
Definition PoolM : Type → Type := M FilteringTransactionPool PoolError.

(** [is_forbidden_tx]: [any] stops at the first operation that is denied. *)
Fixpoint any_forbidden (ops : list Op) : PoolM bool :=
  match ops with
  | [] => mret false
  | operation :: ops =>
      gets (λ s, (deny_deploy s, deny_maintain s)) ≫= λ '(deploy, maintain),
      match operation with
      | Op_Deploy _ =>
          if (deploy : bool) then modify (set_metrics (metrics_deny DEPLOY)) ;; mret true
          else any_forbidden ops
      | Op_Maintain _ =>
          if (maintain : bool) then modify (set_metrics (metrics_deny MAINTAIN)) ;; mret true
          else any_forbidden ops
      | Op_Call _ _ | Op_ClaimRewards _ => any_forbidden ops
      end
  end.
Definition is_forbidden_tx (tx : Tx) : PoolM bool := any_forbidden (operations_of tx).

(** [should_accept_extrinsic]. *)
Definition forward_and_accept : PoolM bool :=
  modify (set_metrics metrics_forward) ;; mret true.
Definition should_accept_extrinsic (at_ : list Z) (xt : Xt) : PoolM bool :=
  gets enabled ≫= λ on : bool,
  if negb on then mret true
  else
    modify (set_metrics metrics_receive) ;;
    match decode_extrinsic xt with
    | None => forward_and_accept
    | Some (Rt_Midnight (Call_send_mn_transaction midnight_tx)) =>
        match api_get_decoded_transaction at_ midnight_tx with
        | Ok (Ok decoded_tx) =>
            is_forbidden_tx decoded_tx ≫= λ forbidden : bool,
            if forbidden then mret false else forward_and_accept
        | _ => modify (set_metrics (metrics_deny PARSE_ERROR)) ;; mret false
        end
    | Some _ => forward_and_accept
    end.

(** The loop of [submit_at]. *)
Fixpoint filter_accepted (at_ : list Z) (xts : list Xt) : PoolM (list Xt) :=
  match xts with
  | [] => mret []
  | xt :: xts =>
      should_accept_extrinsic at_ xt ≫= λ accept : bool,
      filter_accepted at_ xts ≫= λ filtered,
      mret (if accept then xt :: filtered else filtered)
  end.

(** An operation of the inner pool. *)
Definition delegate {A} (m : M Pool PoolError A) : PoolM A := zoom inner set_inner m.

Definition submit_at (at_ : list Z) (source : TransactionSource) (xts : list Xt) :
    PoolM (list (outcome PoolError XtHash)) :=
  filter_accepted at_ xts ≫= λ filtered, delegate (inner_submit_at at_ source filtered).
Definition guarded {A} (at_ : list Z) (xt : Xt) (m : M Pool PoolError A) : PoolM A :=
  should_accept_extrinsic at_ xt ≫= λ accept : bool,
  if negb accept then throw ImmediatelyDropped else delegate m.
Definition submit_one (at_ : list Z) (source : TransactionSource) (xt : Xt) : PoolM XtHash :=
  guarded at_ xt (inner_submit_one at_ source xt).
Definition submit_and_watch (at_ : list Z) (source : TransactionSource) (xt : Xt) : PoolM Stream :=
  guarded at_ xt (inner_submit_and_watch at_ source xt).
Definition submit_local (at_ : list Z) (xt : Xt) : PoolM XtHash :=
  guarded at_ xt (inner_submit_local at_ xt).

(** ** What the filter lets through *)

(** The operations a pool denies, and the extrinsics it accepts. *)
Definition denied_op (s : FilteringTransactionPool) (op : Op) : bool :=
  match op with
  | Op_Deploy _ => deny_deploy s
  | Op_Maintain _ => deny_maintain s
  | _ => false
  end.
Definition accepts (s : FilteringTransactionPool) (at_ : list Z) (xt : Xt) : bool :=
  if enabled s then
    match decode_extrinsic xt with
    | Some (Rt_Midnight (Call_send_mn_transaction midnight_tx)) =>
        match api_get_decoded_transaction at_ midnight_tx with
        | Ok (Ok tx) => negb (existsb (denied_op s) (operations_of tx))
        | _ => false
        end
    | _ => true
    end
  else true.

(** Two pools that differ in their metrics at most, with the same label names. *)
Definition same_but_metrics (s s' : FilteringTransactionPool) : Prop :=
  enabled s' = enabled s ∧ deny_deploy s' = deny_deploy s ∧ deny_maintain s' = deny_maintain s ∧
  inner s' = inner s.

Lemma same_but_metrics_accepts s s' at_ xt :
  same_but_metrics s s' → accepts s' at_ xt = accepts s at_ xt.
Proof.
  intros (He & Hd & Hm & _). unfold accepts. rewrite He.
  assert (∀ ops, existsb (denied_op s') ops = existsb (denied_op s) ops) as Hops.
  { intros ops. induction ops as [|op ops IH]; [done|]. simpl. rewrite IH. f_equal.
    destruct op; simpl; congruence. }
  destruct (enabled s); [|done]. destruct (decode_extrinsic xt) as [[]|]; try done.
  destruct c; try done. destruct (api_get_decoded_transaction _ _) as [[]| |]; try done.
  by rewrite Hops.
Qed.

(** The counters change with each extrinsic as follows; a denial leaves no trace,
    since the lookup of its counter fails. *)
Definition counted (received accepted : bool) (m : FilteringMetrics) : FilteringMetrics :=
  {| forwarded_count := (λ n, n + (if accepted then 1 else 0)) <$> forwarded_count m;
     received_count := (λ n, n + (if received then 1 else 0)) <$> received_count m;
     denied_count := denied_count m |}.
Definition labelled (m : FilteringMetrics) : Prop :=
  ∀ c, denied_count m = Some c → label_names c = LABELS.

Lemma metrics_deny_labelled reason m : labelled m → metrics_deny reason m = m.
Proof.
  intros Hl. destruct m as [f r [c|]]; unfold metrics_deny; simpl; [|done].
  unfold counter_vec_inc. rewrite (Hl c eq_refl). done.
Qed.

Lemma any_forbidden_eq ops s :
  labelled (metrics s) → any_forbidden ops s = (Ok (existsb (denied_op s) ops), s).
Proof.
  intros Hl. induction ops as [|op ops IH]; [done|].
  assert (∀ reason, set_metrics (metrics_deny reason) s = s) as Hs.
  { intros reason. destruct s as [e d m mt i]. unfold set_metrics. simpl in *.
    by rewrite metrics_deny_labelled. }
  destruct op; cbn [any_forbidden existsb denied_op]; mrun; try done;
    case_match; try done; by rewrite Hs.
Qed.

Lemma should_accept_eq at_ xt s :
  labelled (metrics s) →
  should_accept_extrinsic at_ xt s =
    (Ok (accepts s at_ xt),
     if enabled s then set_metrics (counted true (accepts s at_ xt)) s else s).
Proof.
  intros Hl. unfold should_accept_extrinsic, accepts, forward_and_accept. mrun.
  destruct (enabled s) eqn:He; simpl; [|done].
  assert (∀ b, labelled (metrics (set_metrics (counted true b) s))) as Hl' by (intros b; exact Hl).
  assert (set_metrics metrics_receive s = set_metrics (counted true false) s) as ->.
  { unfold set_metrics, counted, metrics_receive. f_equal. f_equal.
    destruct (forwarded_count (metrics s)); simpl; [|done]. f_equal. lia. }
  assert (set_metrics metrics_forward (set_metrics (counted true false) s) =
          set_metrics (counted true true) s) as Hfwd.
  { unfold set_metrics, counted, metrics_forward. simpl. f_equal. f_equal.
    destruct (forwarded_count (metrics s)); simpl; [|done]. f_equal. lia. }
  assert (∀ r, set_metrics (metrics_deny r) (set_metrics (counted true false) s) =
            set_metrics (counted true false) s) as Hdeny.
  { intros r. unfold set_metrics at 1 3. f_equal. by apply metrics_deny_labelled. }
  destruct (decode_extrinsic xt) as [[]|]; try by rewrite Hfwd.
  destruct c; try by rewrite Hfwd.
  destruct (api_get_decoded_transaction at_ midnight_tx) as [[tx| |]| |]; try by rewrite Hdeny.
  unfold is_forbidden_tx. rewrite any_forbidden_eq by done.
  change (denied_op (set_metrics (counted true false) s)) with (denied_op s).
  destruct (existsb (denied_op s) (operations_of tx)); simpl; [done|]. by rewrite Hfwd.
Qed.

Definition advance (received forwarded : nat) (s : FilteringTransactionPool) :
    FilteringTransactionPool :=
  if enabled s then
    set_metrics (λ m,
      {| forwarded_count := (λ n, n + Z.of_nat forwarded) <$> forwarded_count m;
         received_count := (λ n, n + Z.of_nat received) <$> received_count m;
         denied_count := denied_count m |}) s
  else s.

Lemma advance_S received forwarded (b : bool) s :
  advance received forwarded (if enabled s then set_metrics (counted true b) s else s) =
  advance (S received) (if b then S forwarded else forwarded) s.
Proof.
  unfold advance. destruct (enabled s) eqn:He; [|by rewrite He]. cbn [enabled set_metrics].
  rewrite He. unfold set_metrics, counted. simpl. f_equal. f_equal.
  - destruct (forwarded_count (metrics s)); simpl; [|done]. f_equal. destruct b; lia.
  - destruct (received_count (metrics s)); simpl; [|done]. f_equal. lia.
Qed.
Lemma advance_0 s : advance 0 0 s = s.
Proof.
  unfold advance. destruct s as [[] d m [f r c] i]; unfold set_metrics; simpl; [|done].
  f_equal. f_equal; [destruct f|destruct r]; simpl; try done; f_equal; lia.
Qed.

Lemma filter_accepted_eq at_ xts s :
  labelled (metrics s) →
  filter_accepted at_ xts s =
    let acc := filter (λ xt, accepts s at_ xt = true) xts in
    (Ok acc, advance (length xts) (length acc) s).
Proof.
  revert s; induction xts as [|xt xts IH]; intros s Hl.
  { cbn. by rewrite advance_0. }
  cbn [filter_accepted length]. unfold mbind, M_bind at 1. rewrite should_accept_eq by done.
  set (s' := if enabled s then _ else s).
  assert (same_but_metrics s s') as Hsame.
  { unfold s'. by destruct (enabled s) eqn:He; repeat split; rewrite ?He. }
  assert (labelled (metrics s')) as Hl' by (unfold s'; by destruct (enabled s)).
  unfold M_bind. rewrite (IH s' Hl'). cbv zeta. cbn [mret M_ret]. rewrite filter_cons.
  assert (filter (λ x, accepts s' at_ x = true) xts = filter (λ x, accepts s at_ x = true) xts) as ->.
  { apply list_filter_iff. intros x. by rewrite (same_but_metrics_accepts s s' at_ x Hsame). }
  unfold s'. rewrite advance_S.
  by destruct (accepts s at_ xt).
Qed.

Lemma guarded_eq {A} at_ xt (m : M Pool PoolError A) s :
  labelled (metrics s) →
  guarded at_ xt m s =
    let s' := advance 1 (if accepts s at_ xt then 1 else 0) s in
    if accepts s at_ xt then ((m (inner s)).1, set_inner (m (inner s)).2 s')
    else (Err ImmediatelyDropped, s').
Proof.
  intros Hl. unfold guarded, mbind, M_bind. rewrite should_accept_eq by done.
  rewrite <-(advance_0 (if enabled s then set_metrics (counted true (accepts s at_ xt)) s else s)).
  rewrite advance_S. cbv zeta.
  assert (inner (advance 1 (if accepts s at_ xt then 1 else 0) s) = inner s) as Hi
    by (unfold advance; by destruct (enabled s)).
  destruct (accepts s at_ xt); simpl; [|done]. unfold delegate, zoom. rewrite Hi.
  by destruct (m (inner s)).
Qed.

Lemma accepts_false at_ xt s :
  accepts s at_ xt = false ↔ enabled s = true ∧
    ∃ bytes, decode_extrinsic xt = Some (Rt_Midnight (Call_send_mn_transaction bytes)) ∧
      ∀ tx, api_get_decoded_transaction at_ bytes = Ok (Ok tx) →
        ∃ op, op ∈ operations_of tx ∧ denied_op s op = true.
Proof.
  unfold accepts. destruct (enabled s); [|split; [done|by intros [? _]]].
  destruct (decode_extrinsic xt) as [[]|]; try by split; [|intros (_ & bytes & ? & _)].
  destruct c as [bytes|]; [|by split; [|intros (_ & bytes & ? & _)]].
  transitivity (∀ tx, api_get_decoded_transaction at_ bytes = Ok (Ok tx) →
    ∃ op, op ∈ operations_of tx ∧ denied_op s op = true).
  - destruct (api_get_decoded_transaction at_ bytes) as [[tx| |]| |]; try done.
    rewrite negb_false_iff, existsb_exists. setoid_rewrite <-list_elem_of_In.
    split; [by intros ? ? [= <-]|eauto].
  - split; [eauto|]. by intros (_ & b & [= <-] & Hb).
Qed.

(** the pool forwards exactly what the filter accepts.  A batch reaches the
    inner pool without the extrinsics that are denied, in the same order; a single one
    that is denied comes back as [ImmediatelyDropped] and does not touch the inner
    pool.  An extrinsic is denied only while the filter is on, and then exactly when it
    is a Midnight transaction that does not decode or that contains a deployment or a
    maintenance update the configuration denies. *)
Theorem pool_forwards_accepted at_ source xts xt s :
  labelled (metrics s) →
  let acc := filter (λ x, accepts s at_ x = true) xts in
  let sent := inner_submit_at at_ source acc (inner s) in
  submit_at at_ source xts s =
    (sent.1, set_inner sent.2 (advance (length xts) (length acc) s)) ∧
  submit_one at_ source xt s =
    (if accepts s at_ xt then
       let sent := inner_submit_one at_ source xt (inner s) in
       (sent.1, set_inner sent.2 (advance 1 1 s))
     else (Err ImmediatelyDropped, advance 1 0 s)) ∧
  (accepts s at_ xt = false ↔ enabled s = true ∧
     ∃ bytes, decode_extrinsic xt = Some (Rt_Midnight (Call_send_mn_transaction bytes)) ∧
       ∀ tx, api_get_decoded_transaction at_ bytes = Ok (Ok tx) →
         ∃ op, op ∈ operations_of tx ∧ denied_op s op = true).
Proof.
  intros Hl. cbv zeta. split_and!.
  - unfold submit_at, mbind, M_bind. rewrite filter_accepted_eq by done. cbv zeta.
    unfold delegate, zoom.
    assert (∀ n k, inner (advance n k s) = inner s) as Hi
      by (intros; unfold advance; by destruct (enabled s)).
    rewrite Hi. by destruct (inner_submit_at _ _ _ _).
  - unfold submit_one. rewrite guarded_eq by done. by destruct (accepts s at_ xt).
  - apply accepts_false.
Qed.

(** denials are not counted.  The counter of denials is declared with the three
    reasons as the names of its labels and is then asked for the counter of one label
    value; that lookup fails and its error is dropped, so whatever is submitted, the
    counter keeps the value it had, while the counters of received and forwarded
    extrinsics drift apart by the number denied. *)
Theorem pool_denials_not_counted registry config p at_ source xts r s' :
  let s := pool_new config p (metrics_new registry) in
  submit_at at_ source xts s = (r, s') →
  denied_count (metrics s') = denied_count (metrics_new registry) ∧
  (config_enabled config = true → registry = true →
   received_count (metrics s') = Some (Z.of_nat (length xts)) ∧
   forwarded_count (metrics s') =
     Some (Z.of_nat (length (filter (λ x, accepts s at_ x = true) xts)))).
Proof.
  intros s. assert (labelled (metrics s)) as Hl.
  { unfold s. intros c. destruct registry; simpl; [|done]. by intros [= <-]. }
  unfold submit_at, mbind, M_bind. rewrite filter_accepted_eq by done. cbv zeta.
  unfold delegate, zoom. destruct (inner_submit_at _ _ _ _) as [r' p']. intros [= <- <-].
  unfold advance. destruct config as [[] d m], registry; simpl; split; try done; by intros.
Qed.
End FilteringPool.

(** ** The filter over the ledger's decoder *)

Section LedgerFilter.
Context {Opaque : Type} `{InnerPool} `{L : !MnLedger}.
Context (decode_extrinsic : Xt → option (RuntimeCall Opaque)).

(** The runtime answers [get_decoded_transaction] with the host function. *)
Definition runtime_get_decoded_transaction (_at : list Z) (bytes : list Z) :
    outcome Empty_set (outcome LedgerApiError Tx) :=
  Ok (get_decoded_transaction bytes).

Definition deploys_or_maintains (op : Operation) : bool :=
  match op with OpDeploy _ | OpMaintain _ => true | _ => false end.

Lemma denied_op_kind p m op op' :
  op_of_operation op = Ok op' →
  denied_op (pool_new filter_enabled p m) op' = deploys_or_maintains op.
Proof.
  destruct op; unfold op_of_operation, mbind, outcome_bind;
    try (destruct (tagged_serialize _); [|done..]); by intros [= <-].
Qed.

Lemma denied_ops_agree p m l ops :
  try_collect op_of_operation l = Ok ops →
  existsb (denied_op (pool_new filter_enabled p m)) ops = existsb deploys_or_maintains l.
Proof.
  rewrite try_collect_ok. induction 1 as [|op op' l ops Hop _ IH]; [done|].
  cbn [existsb]. by rewrite (denied_op_kind _ _ _ _ Hop), IH.
Qed.

(** An extrinsic for the gateway: either no Midnight transaction, or one that the ledger
    decodes and that has no deployment and no maintenance update in any segment. *)
Definition admissible (xt : Xt) : bool :=
  match decode_extrinsic xt with
  | Some (Rt_Midnight (Call_send_mn_transaction bytes)) =>
      match tagged_deserialize (T := Transaction) bytes with
      | Ok tx => is_ok (get_decoded_transaction bytes) &&
                 negb (existsb deploys_or_maintains (calls_and_deploys tx None))
      | _ => false
      end
  | _ => true
  end.

Lemma ledger_accepts p m at_ xt :
  accepts decode_extrinsic runtime_get_decoded_transaction (pool_new filter_enabled p m) at_ xt = admissible xt.
Proof.
  unfold accepts, admissible, runtime_get_decoded_transaction.
  cbn [enabled pool_new filter_enabled config_enabled].
  destruct (decode_extrinsic xt) as [[]|]; try done. destruct c as [bytes|]; [|done].
  unfold get_decoded_transaction, mbind, outcome_bind.
  destruct (tagged_deserialize bytes) as [tx| |]; [|done..].
  destruct (try_collect op_of_operation _) as [ops| |] eqn:Hops; [|done..].
  destruct (try_collect tagged_serialize _); [|done..].
  cbn [is_ok operations_of andb]. by rewrite (denied_ops_agree _ _ _ _ Hops).
Qed.

(** What a call gives back, and the inner pool it leaves. *)
Definition seen {A} (r : outcome PoolError A * FilteringTransactionPool) : outcome PoolError A * Pool :=
  (r.1, inner r.2).

Lemma guarded_seen {A} at_ xt (f : M Pool PoolError A) p m : labelled m →
  seen (guarded decode_extrinsic runtime_get_decoded_transaction at_ xt f (pool_new filter_enabled p m)) =
    if admissible xt then f p else (Err ImmediatelyDropped, p).
Proof.
  intros Hl. rewrite guarded_eq by exact Hl. cbv zeta. rewrite ledger_accepts.
  destruct (admissible xt); [|done]. cbn. by destruct (f p).
Qed.

(** C29: A gateway with the filter on (and the counters under the labels they are created
    with) keeps deployments and maintenance updates out.  For any batch and any single
    extrinsic: [submit_at] hands to the inner pool, in order, exactly those of the batch
    that are no Midnight transaction, or are one that decodes and has no deployment and no
    maintenance update in any segment.  [submit_one], [submit_and_watch] and [submit_local]
    hand such an extrinsic to the inner pool; any other is [ImmediatelyDropped] and leaves
    the inner pool as it was.  What the inner pool answers is returned. *)
Theorem deployments_stay_out p m at_ source xts xt :
  let s := pool_new filter_enabled p m in
  let api := runtime_get_decoded_transaction in
  labelled m →
  seen (submit_at decode_extrinsic api at_ source xts s) =
    inner_submit_at at_ source (filter (λ x, admissible x = true) xts) p ∧
  seen (submit_one decode_extrinsic api at_ source xt s) =
    (if admissible xt then inner_submit_one at_ source xt p else (Err ImmediatelyDropped, p)) ∧
  seen (submit_and_watch decode_extrinsic api at_ source xt s) =
    (if admissible xt then inner_submit_and_watch at_ source xt p else (Err ImmediatelyDropped, p)) ∧
  seen (submit_local decode_extrinsic api at_ xt s) =
    (if admissible xt then inner_submit_local at_ xt p else (Err ImmediatelyDropped, p)).
Proof.
  intros s api Hl. split_and!; [|by apply guarded_seen..].
  unfold submit_at, mbind, M_bind. rewrite filter_accepted_eq by exact Hl. cbv zeta.
  rewrite (list_filter_iff _ (λ x, admissible x = true))
    by (intros x; unfold s, api; by rewrite ledger_accepts).
  unfold delegate, zoom, seen. cbn. by destruct (inner_submit_at _ _ _ _).
Qed.
End LedgerFilter.

(** ** A concrete gateway *)

Module AdmissionConcrete.
Import LedgerBridge.Concrete.

(** A pool that keeps what it is given. *)
#[export] Instance c_pool : InnerPool := {
  Xt := list Z; XtHash := Z; Stream := unit; Pool := list (list Z); PoolError := unit;
  ImmediatelyDropped := tt; TransactionSource := unit;
  inner_submit_at _ _ xts := λ p, (Ok ((λ _, Ok 0) <$> xts), p ++ xts);
  inner_submit_one _ _ xt := λ p, (Ok 1, p ++ [xt]);
  inner_submit_and_watch _ _ xt := λ p, (Ok tt, p ++ [xt]);
  inner_submit_local _ xt := λ p, (Ok 2, p ++ [xt]);
}.

(** Every extrinsic is a Midnight transaction. *)
Definition decode_all (xt : @Xt c_pool) : option (RuntimeCall unit) :=
  Some (Rt_Midnight (Call_send_mn_transaction xt)).
Definition xt_of (n : Z) : @Xt c_pool := [n].
Definition no_pool : @Pool c_pool := [].
Definition local : @TransactionSource c_pool := tt.
Definition api_none (_ _ : list Z) : outcome unit (outcome LedgerApiError Tx) := Err tt.

Definition close (b : Z) : SignedTx unit positive :=
  {| tx_block := b; tx_who := 7%positive;
     tx_call := Rt_FederatedAuthority (Call_motion_close [b]); tx_len := 2000 |}.
Definition upload (b : Z) : SignedTx unit positive :=
  {| tx_block := b; tx_who := 7%positive; tx_call := Rt_Timestamp tt; tx_len := 10 |}.

Lemma signed_transactions_only_govern_witness :
  (run_signed (F := unit) (λ _, Ok tt) ThrottleMaxBytes ThrottleWindowSize ∅ [close 3; upload 4]).1
    = [close 3] ∧
  bytes_of 7%positive 3 (3 + ThrottleWindowSize)
    (run_signed (F := unit) (λ _, Ok tt) ThrottleMaxBytes ThrottleWindowSize ∅ [close 3; upload 4]).1
    ≤ 2 * ThrottleMaxBytes.
Proof.
  split; [reflexivity|].
  apply (signed_transactions_only_govern (F := unit) (λ _, Ok tt) ThrottleMaxBytes ThrottleWindowSize
    [close 3; upload 4]); repeat constructor; vm_compute; congruence.
Defined.

Lemma pool_forwards_accepted_witness :
  (submit_one decode_all api_none [] local (xt_of 1) (pool_new filter_disabled no_pool (metrics_new true))).1
    = Ok 1.
Proof.
  rewrite (proj1 (proj2 (pool_forwards_accepted decode_all api_none [] local [] (xt_of 1)
    (pool_new filter_disabled no_pool (metrics_new true)) ltac:(intros c [= <-]; reflexivity)))).
  reflexivity.
Defined.

Lemma pool_denials_not_counted_witness :
  ∃ r s', submit_at decode_all api_none [] local [xt_of 1; xt_of 2] (pool_new filter_enabled no_pool (metrics_new true))
      = (r, s') ∧
    received_count (metrics s') = Some 2 ∧ forwarded_count (metrics s') = Some 0 ∧
    denied_count (metrics s') = Some {| label_names := LABELS; counters := ∅ |}.
Proof.
  eexists _, _. split; [reflexivity|].
  destruct (pool_denials_not_counted decode_all api_none true filter_enabled no_pool [] local [xt_of 1; xt_of 2] _ _ eq_refl)
    as [Hd Hc]. destruct (Hc eq_refl eq_refl) as [Hr Hf]. split_and!; [exact Hr|exact Hf|exact Hd].
Defined.

(** The second transaction of the concrete ledger deploys a contract, the first one
    only calls one. *)
Lemma deployments_stay_out_witness :
  seen (submit_at decode_all runtime_get_decoded_transaction [] local [xt_of 0; xt_of 1; xt_of 0]
     (pool_new filter_enabled no_pool (metrics_new false))) = (Ok [Ok 0; Ok 0], [xt_of 0; xt_of 0]) ∧
  seen (submit_one decode_all runtime_get_decoded_transaction [] local (xt_of 1)
     (pool_new filter_enabled no_pool (metrics_new false))) = (Err tt, []).
Proof.
  destruct (deployments_stay_out decode_all no_pool (metrics_new false) [] local
    [xt_of 0; xt_of 1; xt_of 0] (xt_of 1) ltac:(intros c [=])) as (Hat & Hone & _).
  split; [rewrite Hat; reflexivity|rewrite Hone; reflexivity].
Defined.
End AdmissionConcrete.
