(* ===== verification/Version.v ===== *)
(** * pallet-version

    Models [pallets/version/src/lib.rs]: the runtime version in the header of each
    block. *)

From stdpp Require Import prelude.
From S2P Require Import Prelude Frame Weights.

Open Scope Z_scope.

(** [*b"MNSV"]. *)
Definition VERSION_ID : list Z := [77; 78; 83; 86].

(** [sp_runtime::DigestItem]: the items a consensus engine leaves in a header,
    and the others. *)
Inductive DigestItem : Type :=
| Consensus (engine : list Z) (data : list Z)
| OtherItem (data : list Z).

(** SCALE: a [u32] is four little-endian bytes; decoding reads a prefix. *)
Definition encode_u32 (v : Z) : list Z :=
  [v mod 256; v / 256 mod 256; v / 65536 mod 256; v / 16777216 mod 256].
Definition decode_u32 (l : list Z) : option Z :=
  match l with
  | a :: b :: c :: d :: _ => Some (a + 256 * b + 65536 * c + 16777216 * d)
  | _ => None
  end.

(** [on_initialize] on the digest of the block. *)
Definition on_initialize (W : V_WeightInfo) (spec_version : Z) : M (list DigestItem) Empty_set Weight :=
  modify (λ digest, digest ++ [Consensus VERSION_ID (encode_u32 spec_version)]) ;;
  mret (v_on_initialize W).

(** [decode_version]: [try_to(OpaqueDigestItemId::Consensus(&VERSION_ID))]. *)
Definition decode_version (item : DigestItem) : option Z :=
  match item with
  | Consensus engine data => if bool_decide (engine = VERSION_ID) then decode_u32 data else None
  | OtherItem _ => None
  end.

(** The version a block was produced with can be read from its header. *)
Lemma version_in_digest W v digest r digest' :
  in_range 32 v → on_initialize W v digest = (r, digest') →
  ∃ item, digest' = digest ++ [item] ∧ decode_version item = Some v.
Proof.
  intros Hv [= <- <-]. eexists. split; [done|]. unfold decode_version.
  rewrite bool_decide_true by done. unfold encode_u32, decode_u32. f_equal.
  unfold in_range, umax in Hv. change (2 ^ 32 - 1) with 4294967295 in Hv.
  Z.to_euclidean_division_equations. lia.
Qed.
