(* ===== verification/BlockStore.v ===== *)
(** * The toolkit's store of blocks

    Models [ledger/helpers/src/fork/raw_block_data.rs] (blocks and ledger versions),
    the types of [util/toolkit/src/fetcher/wallet_state_cache.rs] and
    [util/toolkit/src/fetcher/fetch_storage.rs] with its three backends: in memory,
    [redb_backend.rs] and [postgres_backend.rs].  The trait [FetchStorage] is a class;
    [StorageRefines] says that a backend is a map from chains and block numbers to
    blocks, and each backend is an instance.

    BSON and zstd are parameters.  The databases themselves do not fail here; what
    the code does with a value that cannot be encoded is kept. *)

From stdpp Require Import prelude gmap.
From S2P Require Import Prelude Frame Collections GenesisSpec.

Open Scope Z_scope.

(** ** Blocks *)

Inductive LedgerVersion : Type := Ledger7 | Ledger8.
#[export] Instance LedgerVersion_eq_dec : EqDecision LedgerVersion.
Proof. solve_decision. Defined.

(** [LedgerVersion::from_spec_version]. *)
Definition from_spec_version (spec_version : Z) : option LedgerVersion :=
  if bool_decide (17000 ≤ spec_version ≤ 21999) then Some Ledger7
  else if bool_decide (22000 ≤ spec_version) then Some Ledger8
  else None.

Definition raw_bytes (tx : RawTransaction) : list Z :=
  match tx with Raw_Midnight tx => tx | Raw_System tx => tx end.

Record RawBlockData : Type := {
  rb_hash : list Z;
  rb_parent_hash : list Z;
  rb_number : Z;
  rb_ledger_version : LedgerVersion;
  rb_transactions : list RawTransaction;
  rb_tblock_secs : Z;
  rb_tblock_err : Z;
  rb_parent_block_hash : list Z;
  rb_last_block_time_secs : Z;
  rb_state_root : option (list Z);
  rb_state : option (list Z);
}.
Definition zero_hash : list Z := replicate 32 0.
Definition new_from_timestamp (timestamp_s : Z) (ledger_version : LedgerVersion)
    (transactions : list RawTransaction) : RawBlockData := {|
  rb_hash := zero_hash; rb_parent_hash := zero_hash; rb_number := 0;
  rb_ledger_version := ledger_version; rb_transactions := transactions;
  rb_tblock_secs := timestamp_s; rb_tblock_err := 30; rb_parent_block_hash := zero_hash;
  rb_last_block_time_secs := 0; rb_state_root := None; rb_state := None |}.

(** ** The cached state of wallets *)

Record SerializableBlockContext : Type := {
  sc_tblock_secs : Z; sc_tblock_err : Z; sc_parent_block_hash : list Z; sc_last_block_time : Z;
}.
Record WalletSnapshot : Type := {
  seed_hash : list Z;
  shielded_state_bytes : list Z;
  dust_local_state_bytes : option (list Z);
}.
Record WalletStateCache : Type := {
  wc_chain_id : list Z;
  wc_wallet_id : list Z;
  wc_block_height : Z;
  wc_ledger_state_bytes : list Z;
  wc_wallet_snapshots : list WalletSnapshot;
  wc_latest_block_context : SerializableBlockContext;
  wc_state_root : option (list Z);
  wc_version : list Z;
}.

(** ** The trait *)

(** Reading may panic on what does not decode, writing on what does not encode. *)
Class FetchStorage (S : Type) : Type := {
  get_block_data {E : Type} : S → list Z → Z → outcome E (option RawBlockData);
  get_block_data_range {E : Type} : S → list Z → list Z → outcome E (list (option RawBlockData));
  insert_block_data {E : Type} : list Z → Z → RawBlockData → M S E unit;
  insert_block_data_range {E : Type} : list Z → list (Z * RawBlockData) → M S E unit;
  get_highest_verified_block : S → list Z → option Z;
  set_highest_verified_block {E : Type} : list Z → Z → M S E unit;
  get_wallet_state : S → list Z → list Z → option WalletStateCache;
  set_wallet_state {E : Type} : list Z → list Z → WalletStateCache → M S E unit;
  get_cached_block_height : S → list Z → list Z → option Z;
  delete_wallet_state {E : Type} : list Z → list Z → M S E unit;
}.

(** What a backend promises: it is a [Store]. *)
Record Store : Type := {
  st_blocks : gmap (list Z * Z) RawBlockData;
  st_highest : gmap (list Z) Z;
  st_wallets : gmap (list Z * list Z) WalletStateCache;
}.
Definition set_blocks f (a : Store) : Store :=
  {| st_blocks := f (st_blocks a); st_highest := st_highest a; st_wallets := st_wallets a |}.
Definition set_highest f (a : Store) : Store :=
  {| st_blocks := st_blocks a; st_highest := f (st_highest a); st_wallets := st_wallets a |}.
Definition set_wallets f (a : Store) : Store :=
  {| st_blocks := st_blocks a; st_highest := st_highest a; st_wallets := f (st_wallets a) |}.
Definition empty_store : Store := {| st_blocks := ∅; st_highest := ∅; st_wallets := ∅ |}.
Definition insert_all (chain : list Z) (l : list (Z * RawBlockData)) (m : gmap (list Z * Z) RawBlockData) :
    gmap (list Z * Z) RawBlockData := foldl (λ m nb, <[(chain, nb.1) := nb.2]> m) m l.

(** Hashes have 32 bytes and heights fit an [i64]. *)
Definition h256 (h : list Z) : Prop := length h = 32%nat.
Definition height (n : Z) : Prop := in_range 63 n.

Class StorageRefines (S : Type) `{!FetchStorage S} : Type := {
  storable : RawBlockData → Prop;
  storable_wallet : WalletStateCache → Prop;
  sim : S → Store → Prop;
  sim_get {E} s a chain n : sim s a → h256 chain → height n →
    get_block_data (E := E) s chain n = Ok (st_blocks a !! (chain, n));
  sim_get_range {E} s a chain l : sim s a → h256 chain → Forall height l →
    get_block_data_range (E := E) s chain l = Ok ((λ n, st_blocks a !! (chain, n)) <$> l);
  sim_insert {E} s a chain n b : sim s a → h256 chain → height n → storable b →
    ∃ s', insert_block_data (E := E) chain n b s = (Ok tt, s') ∧ sim s' (set_blocks <[(chain, n) := b]> a);
  sim_insert_range {E} s a chain l : sim s a → h256 chain → Forall (λ nb, height nb.1 ∧ storable nb.2) l →
    ∃ s', insert_block_data_range (E := E) chain l s = (Ok tt, s') ∧ sim s' (set_blocks (insert_all chain l) a);
  sim_get_highest s a chain : sim s a → h256 chain → get_highest_verified_block s chain = st_highest a !! chain;
  sim_set_highest {E} s a chain h : sim s a → h256 chain → height h →
    ∃ s', set_highest_verified_block (E := E) chain h s = (Ok tt, s') ∧ sim s' (set_highest <[chain := h]> a);
  sim_get_wallet s a chain w : sim s a → h256 chain → h256 w →
    get_wallet_state s chain w = st_wallets a !! (chain, w);
  sim_set_wallet {E} s a chain w c : sim s a → h256 chain → h256 w → storable_wallet c →
    height (wc_block_height c) →
    ∃ s', set_wallet_state (E := E) chain w c s = (Ok tt, s') ∧ sim s' (set_wallets <[(chain, w) := c]> a);
  sim_height s a chain w : sim s a → h256 chain → h256 w →
    get_cached_block_height s chain w = wc_block_height <$> st_wallets a !! (chain, w);
  sim_delete_wallet {E} s a chain w : sim s a → h256 chain → h256 w →
    ∃ s', delete_wallet_state (E := E) chain w s = (Ok tt, s') ∧ sim s' (set_wallets (delete (chain, w)) a);
}.

(** ** [InMemory] *)

Record InMemory : Type := {
  im_highest_verified : gmap (list Z) Z;
  im_blocks : gmap (list Z) RawBlockData;
  im_wallet_cache : gmap (list Z * list Z) WalletStateCache;
}.
Definition im_default : InMemory := {| im_highest_verified := ∅; im_blocks := ∅; im_wallet_cache := ∅ |}.

(** [u64::to_be_bytes]. *)
Definition u64_to_be_bytes (n : Z) : list Z := reverse (to_le_bytes 8 n).
Definition block_key (chain_id : list Z) (block_number : Z) : list Z :=
  chain_id ++ [58] ++ u64_to_be_bytes block_number.

Definition im_insert_block_data (chain_id : list Z) (n : Z) (b : RawBlockData) (s : InMemory) : InMemory :=
  {| im_highest_verified := im_highest_verified s; im_blocks := <[block_key chain_id n := b]> (im_blocks s);
     im_wallet_cache := im_wallet_cache s |}.
#[export] Instance in_memory_storage : FetchStorage InMemory := {|
  get_block_data _ s chain_id n := Ok (im_blocks s !! block_key chain_id n);
  get_block_data_range _ s chain_id range := Ok ((λ n, im_blocks s !! block_key chain_id n) <$> range);
  insert_block_data _ chain_id n b := modify (im_insert_block_data chain_id n b);
  insert_block_data_range _ chain_id range :=
    modify (λ s, foldl (λ s nb, im_insert_block_data chain_id nb.1 nb.2 s) s range);
  get_highest_verified_block s chain_id := im_highest_verified s !! chain_id;
  set_highest_verified_block _ chain_id height := modify (λ s,
    {| im_highest_verified := <[chain_id := height]> (im_highest_verified s); im_blocks := im_blocks s;
       im_wallet_cache := im_wallet_cache s |});
  get_wallet_state s chain_id wallet_id := im_wallet_cache s !! (chain_id, wallet_id);
  set_wallet_state _ chain_id wallet_id cache := modify (λ s,
    {| im_highest_verified := im_highest_verified s; im_blocks := im_blocks s;
       im_wallet_cache := <[(chain_id, wallet_id) := cache]> (im_wallet_cache s) |});
  get_cached_block_height s chain_id wallet_id :=
    wc_block_height <$> im_wallet_cache s !! (chain_id, wallet_id);
  delete_wallet_state _ chain_id wallet_id := modify (λ s,
    {| im_highest_verified := im_highest_verified s; im_blocks := im_blocks s;
       im_wallet_cache := delete (chain_id, wallet_id) (im_wallet_cache s) |});
|}.

(** ** Encodings *)

(** [bson::serialize_to_vec] and [zstd] may fail. *)
Class Codec : Type := {
  bson_key : list Z → Z → option (list Z);
  bson_block : RawBlockData → option (list Z);
  unbson_block : list Z → option RawBlockData;
  bson_wallet : WalletStateCache → option (list Z);
  unbson_wallet : list Z → option WalletStateCache;
  compress : list Z → option (list Z);
  decompress : list Z → option (list Z);
}.
Class CodecLaws `{!Codec} : Prop := {
  bson_key_height chain n : height n → is_Some (bson_key chain n);
  bson_block_roundtrip b d : bson_block b = Some d → unbson_block d = Some b;
  bson_wallet_roundtrip c d : bson_wallet c = Some d → unbson_wallet d = Some c;
  compress_roundtrip d z : compress d = Some z → decompress z = Some d;
}.

Section Databases.
Context `{!Codec}.

(** Serialized and compressed, as both databases keep it. *)
Definition pack_wallet (cache : WalletStateCache) : option (list Z) :=
  serialized ← bson_wallet cache; compress serialized.
Definition unpack_wallet (compressed : list Z) : option WalletStateCache :=
  decompressed ← decompress compressed; unbson_wallet decompressed.

(** ** [RedbBackend] *)

(** A table exists once it was opened for writing. *)
Record RedbBackend : Type := {
  block_data_table : option (gmap (list Z * Z) (list Z));
  highest_verified_table : option (gmap (list Z) Z);
  wallet_state_table : option (gmap (list Z * list Z) (list Z));
}.
Definition redb_new : RedbBackend :=
  {| block_data_table := None; highest_verified_table := None; wallet_state_table := None |}.

(** [table.get(BlockKey { .. })]. *)
Definition redb_get {E : Type} (table : gmap (list Z * Z) (list Z)) (chain_id : list Z) (n : Z) :
    outcome E (option RawBlockData) :=
  unwrap (bson_key chain_id n) ;;
  match table !! (chain_id, n) with
  | Some d => b ← unwrap (unbson_block d); mret (Some b)
  | None => mret None
  end.
Definition redb_get_block_data {E : Type} (s : RedbBackend) (chain_id : list Z) (n : Z) :
    outcome E (option RawBlockData) :=
  match block_data_table s with None => mret None | Some table => redb_get table chain_id n end.
Definition redb_get_block_data_range {E : Type} (s : RedbBackend) (chain_id range : list Z) :
    outcome E (list (option RawBlockData)) :=
  match block_data_table s with
  | None => mret (replicate (length range) None)
  | Some table => try_collect (redb_get table chain_id) range
  end.
(** [table.insert]. *)
Definition redb_insert {E : Type} (chain_id : list Z) (n : Z) (b : RawBlockData)
    (table : gmap (list Z * Z) (list Z)) : outcome E (gmap (list Z * Z) (list Z)) :=
  unwrap (bson_key chain_id n) ;;
  d ← unwrap (bson_block b);
  mret (<[(chain_id, n) := d]> table).
Fixpoint redb_insert_all {E : Type} (chain_id : list Z) (range : list (Z * RawBlockData))
    (table : gmap (list Z * Z) (list Z)) : outcome E (gmap (list Z * Z) (list Z)) :=
  match range with
  | [] => mret table
  | nb :: range => table ← redb_insert chain_id nb.1 nb.2 table; redb_insert_all chain_id range table
  end.
(** A transaction that does not commit leaves nothing. *)
Definition redb_insert_block_data_range {E : Type} (chain_id : list Z) (range : list (Z * RawBlockData)) :
    M RedbBackend E unit := λ s,
  match redb_insert_all chain_id range (default ∅ (block_data_table s)) with
  | Ok table => (Ok tt, {| block_data_table := Some table;
      highest_verified_table := highest_verified_table s; wallet_state_table := wallet_state_table s |})
  | Err e => (Err e, s)
  | Panic => (Panic, s)
  end.
Definition redb_insert_block_data {E : Type} (chain_id : list Z) (n : Z) (b : RawBlockData) : M RedbBackend E unit :=
  redb_insert_block_data_range chain_id [(n, b)].
Definition redb_set_highest_verified_block (chain_id : list Z) (height : Z) (s : RedbBackend) : RedbBackend :=
  {| block_data_table := block_data_table s;
     highest_verified_table := Some (<[chain_id := height]> (default ∅ (highest_verified_table s)));
     wallet_state_table := wallet_state_table s |}.
Definition redb_get_wallet_state (s : RedbBackend) (chain_id wallet_id : list Z) : option WalletStateCache :=
  table ← wallet_state_table s; compressed ← table !! (chain_id, wallet_id); unpack_wallet compressed.
Definition redb_with_wallets f (s : RedbBackend) : RedbBackend :=
  {| block_data_table := block_data_table s; highest_verified_table := highest_verified_table s;
     wallet_state_table := Some (f (default ∅ (wallet_state_table s))) |}.
Definition redb_set_wallet_state (chain_id wallet_id : list Z) (cache : WalletStateCache)
    (s : RedbBackend) : RedbBackend :=
  match pack_wallet cache with
  | Some compressed => redb_with_wallets <[(chain_id, wallet_id) := compressed]> s
  | None => s
  end.
#[export] Instance redb_storage : FetchStorage RedbBackend := {|
  get_block_data _ := redb_get_block_data;
  get_block_data_range _ := redb_get_block_data_range;
  insert_block_data _ := redb_insert_block_data;
  insert_block_data_range _ := redb_insert_block_data_range;
  get_highest_verified_block s chain_id := table ← highest_verified_table s; table !! chain_id;
  set_highest_verified_block _ chain_id height := modify (redb_set_highest_verified_block chain_id height);
  get_wallet_state := redb_get_wallet_state;
  set_wallet_state _ chain_id wallet_id cache := modify (redb_set_wallet_state chain_id wallet_id cache);
  get_cached_block_height s chain_id wallet_id :=
    wc_block_height <$> redb_get_wallet_state s chain_id wallet_id;
  delete_wallet_state _ chain_id wallet_id := modify (redb_with_wallets (delete (chain_id, wallet_id)));
|}.

(** ** [PostgresBackend] *)

Record WalletRow : Type := { wr_block_height : Z; wr_data : list Z; wr_updated_at : Z }.
(** The tables, and the clock of the database, in seconds. *)
Record PostgresBackend : Type := {
  raw_block_data_v1 : gmap (list Z * Z) (list Z);
  highest_verified : gmap (list Z) Z;
  wallet_state_cache : gmap (list Z * list Z) WalletRow;
  pg_now : Z;
}.
Definition pg_init_tables (now : Z) : PostgresBackend :=
  {| raw_block_data_v1 := ∅; highest_verified := ∅; wallet_state_cache := ∅; pg_now := now |}.

(** [n as i64] of a [u64], and back. *)
Definition as_i64 (n : Z) : Z := if bool_decide (n < 2 ^ 63) then n else n - 2 ^ 64.
Definition as_u64 (n : Z) : Z := wrap 64 n.

Definition pg_get_block_data {E : Type} (s : PostgresBackend) (chain_id : list Z) (block_number : Z) :
    outcome E (option RawBlockData) :=
  match raw_block_data_v1 s !! (chain_id, as_i64 block_number) with
  | Some d => b ← unwrap (unbson_block d); mret (Some b)
  | None => mret None
  end.
Definition pg_insert_row {E : Type} (chain_id : list Z) (nb : Z * RawBlockData)
    (rows : gmap (list Z * Z) (list Z)) : outcome E (gmap (list Z * Z) (list Z)) :=
  d ← unwrap (bson_block nb.2);
  mret (<[(chain_id, as_i64 nb.1) := d]> rows).
Fixpoint pg_insert_rows {E : Type} (chain_id : list Z) (blocks : list (Z * RawBlockData))
    (rows : gmap (list Z * Z) (list Z)) : outcome E (gmap (list Z * Z) (list Z)) :=
  match blocks with
  | [] => mret rows
  | nb :: blocks => rows ← pg_insert_row chain_id nb rows; pg_insert_rows chain_id blocks rows
  end.
Definition pg_with_blocks {E : Type}
    (f : gmap (list Z * Z) (list Z) → outcome E (gmap (list Z * Z) (list Z))) : M PostgresBackend E unit := λ s,
  match f (raw_block_data_v1 s) with
  | Ok rows => (Ok tt, {| raw_block_data_v1 := rows; highest_verified := highest_verified s;
      wallet_state_cache := wallet_state_cache s; pg_now := pg_now s |})
  | Err e => (Err e, s)
  | Panic => (Panic, s)
  end.
Definition pg_insert_block_data_range {E : Type} (chain_id : list Z) (blocks : list (Z * RawBlockData)) :
    M PostgresBackend E unit :=
  if bool_decide (length blocks = 0%nat) then mret tt
  else pg_with_blocks (pg_insert_rows chain_id blocks).
Definition pg_get_highest_verified_block (s : PostgresBackend) (chain_id : list Z) : option Z :=
  as_u64 <$> highest_verified s !! chain_id.
Definition pg_set_highest_verified_block (chain_id : list Z) (height : Z) (s : PostgresBackend) : PostgresBackend :=
  {| raw_block_data_v1 := raw_block_data_v1 s;
     highest_verified := <[chain_id := as_i64 height]> (highest_verified s);
     wallet_state_cache := wallet_state_cache s; pg_now := pg_now s |}.
Definition pg_with_wallets f (s : PostgresBackend) : PostgresBackend :=
  {| raw_block_data_v1 := raw_block_data_v1 s; highest_verified := highest_verified s;
     wallet_state_cache := f (wallet_state_cache s); pg_now := pg_now s |}.
Definition pg_get_wallet_state (s : PostgresBackend) (chain_id wallet_id : list Z) : option WalletStateCache :=
  row ← wallet_state_cache s !! (chain_id, wallet_id); unpack_wallet (wr_data row).
Definition pg_set_wallet_state (chain_id wallet_id : list Z) (cache : WalletStateCache)
    (s : PostgresBackend) : PostgresBackend :=
  match pack_wallet cache with
  | Some compressed => pg_with_wallets
      <[(chain_id, wallet_id) := {| wr_block_height := as_i64 (wc_block_height cache);
                                    wr_data := compressed; wr_updated_at := pg_now s |}]> s
  | None => s
  end.
#[export] Instance postgres_storage : FetchStorage PostgresBackend := {|
  get_block_data _ := pg_get_block_data;
  get_block_data_range _ s chain_id range := try_collect (pg_get_block_data s chain_id) range;
  insert_block_data _ chain_id n b := pg_with_blocks (pg_insert_row chain_id (n, b));
  insert_block_data_range _ := pg_insert_block_data_range;
  get_highest_verified_block := pg_get_highest_verified_block;
  set_highest_verified_block _ chain_id height := modify (pg_set_highest_verified_block chain_id height);
  get_wallet_state := pg_get_wallet_state;
  set_wallet_state _ chain_id wallet_id cache := modify (pg_set_wallet_state chain_id wallet_id cache);
  get_cached_block_height s chain_id wallet_id :=
    (λ row, as_u64 (wr_block_height row)) <$> wallet_state_cache s !! (chain_id, wallet_id);
  delete_wallet_state _ chain_id wallet_id := modify (pg_with_wallets (delete (chain_id, wallet_id)));
|}.

(** [max_age_days as i32] of a [u32]. *)
Definition as_i32_of_u32 (n : Z) : Z := if bool_decide (n < 2 ^ 31) then n else n - 2 ^ 32.
Definition evict_stale_wallet_cache {E : Type} (max_age_days : Z) : M PostgresBackend E Z := λ s,
  let stale row := bool_decide (wr_updated_at row < pg_now s - 86400 * as_i32_of_u32 max_age_days) in
  let kept := filter (λ kv, stale kv.2 = false) (wallet_state_cache s) in
  (Ok (Z.of_nat (size (wallet_state_cache s)) - Z.of_nat (size kept)), pg_with_wallets (λ _, kept) s).
Definition wallet_cache_count (s : PostgresBackend) : Z := Z.of_nat (size (wallet_state_cache s)).
End Databases.

(** ** The backends are stores *)

Lemma block_key_inj c n c' n' :
  h256 c → h256 c' → height n → height n' → block_key c n = block_key c' n' → c = c' ∧ n = n'.
Proof.
  intros Hc Hc' Hn Hn' Heq. apply app_inj_1 in Heq as [-> Heq]; [|by rewrite Hc]. split; [done|].
  apply (app_inv_head [58]), (inj reverse) in Heq. unfold height, in_range, umax in *.
  apply (to_le_bytes_inj 8) in Heq; [done|..]; change (256 ^ Z.of_nat 8) with (2 ^ 64); lia.
Qed.

Definition im_sim (s : InMemory) (a : Store) : Prop :=
  (∀ c n, h256 c → height n → im_blocks s !! block_key c n = st_blocks a !! (c, n)) ∧
  im_highest_verified s = st_highest a ∧ im_wallet_cache s = st_wallets a.
Lemma im_sim_insert s a c n b :
  im_sim s a → h256 c → height n → im_sim (im_insert_block_data c n b s) (set_blocks <[(c, n) := b]> a).
Proof.
  intros (Hb & Hh & Hw) Hc Hn. split_and!; [|done..]. intros c' n' Hc' Hn'. simpl.
  destruct (decide ((c, n) = (c', n'))) as [[= -> ->]|Hne]; [by rewrite !lookup_insert_eq|].
  rewrite !lookup_insert_ne; [by apply Hb|done|].
  intros Heq. apply Hne. apply block_key_inj in Heq as [-> ->]; done.
Qed.
#[export] Instance in_memory_refines : StorageRefines InMemory.
Proof.
  refine {| storable := λ _, True; storable_wallet := λ _, True; sim := im_sim |}.
  - intros E s a c n (Hb & _) Hc Hn. simpl. by rewrite Hb.
  - intros E s a c l (Hb & _) Hc Hl. simpl. f_equal. apply list_fmap_ext. intros i n Hi.
    apply Hb; [done|]. by eapply Forall_lookup_1.
  - intros E s a c n b Hs Hc Hn _. eexists. split; [done|]. by apply im_sim_insert.
  - intros E s a c l Hs Hc Hl. eexists. split; [done|]. revert s a Hs.
    induction Hl as [|[n b] l [Hn _] _ IH]; intros s a Hs; [by destruct a|]. simpl.
    exact (IH _ _ (im_sim_insert s a c n b Hs Hc Hn)).
  - by intros s a c (_ & <- & _).
  - intros E s a c h (Hb & Hh & Hw) _ _. eexists. split; [done|]. split_and!; [done| |done]. simpl. by rewrite Hh.
  - by intros s a c w (_ & _ & <-).
  - intros E s a c w x (Hb & Hh & Hw) _ _ _ _. eexists. split; [done|]. split_and!; [done|done|]. simpl. by rewrite Hw.
  - by intros s a c w (_ & _ & <-).
  - intros E s a c w (Hb & Hh & Hw) _ _. eexists. split; [done|]. split_and!; [done|done|]. simpl. by rewrite Hw.
Defined.

Section Refinement.
Context `{!Codec} `{!CodecLaws}.

(** An optional value and its encoding. *)
Definition encodes {A B} (enc : A → option B) (d : option B) (x : option A) : Prop :=
  match x with Some x => enc x = d ∧ is_Some d | None => d = None end.
Lemma encodes_insert {A B K} `{!EqDecision K} `{!Countable K} (enc : A → option B) (m : gmap K B) (a : gmap K A) k k' x d :
  enc x = Some d → encodes enc (m !! k') (a !! k') →
  encodes enc (<[k := d]> m !! k') (<[k := x]> a !! k').
Proof.
  intros Hd He. destruct (decide (k = k')) as [->|Hne].
  - rewrite !lookup_insert_eq. split; [done|eauto].
  - by rewrite !lookup_insert_ne.
Qed.
Lemma encodes_delete {A B K} `{!EqDecision K} `{!Countable K} (enc : A → option B) (m : gmap K B) (a : gmap K A) k k' :
  encodes enc (m !! k') (a !! k') → encodes enc (delete k m !! k') (delete k a !! k').
Proof.
  intros He. destruct (decide (k = k')) as [->|Hne]; [by rewrite !lookup_delete_eq|].
  by rewrite !lookup_delete_ne.
Qed.
Lemma encodes_block {E : Type} d b :
  encodes bson_block d b →
  match d with Some d => b' ← unwrap (unbson_block d); mret (Some b') | None => mret None end =
  (Ok b : outcome E (option RawBlockData)).
Proof.
  destruct b as [b|]; simpl; [|by intros ->]. intros [Hb [d' ->]].
  by rewrite (bson_block_roundtrip b d' Hb).
Qed.
Lemma unpack_pack c z : pack_wallet c = Some z → unpack_wallet z = Some c.
Proof.
  unfold pack_wallet, unpack_wallet. destruct (bson_wallet c) as [d|] eqn:Hd; simpl; [|done].
  intros Hz%compress_roundtrip. rewrite Hz. simpl. by apply bson_wallet_roundtrip.
Qed.
Lemma encodes_wallet d c : encodes pack_wallet d c → d ≫= unpack_wallet = c.
Proof. destruct c as [c|]; simpl; [|by intros ->]. intros [Hc [z ->]]. by apply unpack_pack. Qed.

Definition redb_sim (s : RedbBackend) (a : Store) : Prop :=
  (∀ c n, height n → encodes bson_block (default ∅ (block_data_table s) !! (c, n)) (st_blocks a !! (c, n))) ∧
  default ∅ (highest_verified_table s) = st_highest a ∧
  (∀ k, encodes pack_wallet (default ∅ (wallet_state_table s) !! k) (st_wallets a !! k)).
Lemma redb_get_eq {E : Type} (table : gmap (list Z * Z) (list Z)) (a : Store) c n :
  height n → encodes bson_block (table !! (c, n)) (st_blocks a !! (c, n)) →
  redb_get (E := E) table c n = Ok (st_blocks a !! (c, n)).
Proof.
  intros Hn He. unfold redb_get. destruct (bson_key_height c n Hn) as [k ->].
  exact (encodes_block _ _ He).
Qed.
Lemma redb_insert_all_eq {E : Type} (c : list Z) (l : list (Z * RawBlockData)) (table : gmap (list Z * Z) (list Z)) (m : gmap (list Z * Z) RawBlockData) :
  Forall (λ nb, height nb.1 ∧ is_Some (bson_block nb.2)) l →
  (∀ c n, height n → encodes bson_block (table !! (c, n)) (m !! (c, n))) →
  ∃ table', redb_insert_all (E := E) c l table = Ok table' ∧
    ∀ c' n, height n → encodes bson_block (table' !! (c', n)) (insert_all c l m !! (c', n)).
Proof.
  intros Hl. revert table m. induction Hl as [|[n b] l [Hn [d Hd]] _ IH]; intros table m Ht; simpl; [eauto|].
  unfold redb_insert. destruct (bson_key_height c n Hn) as [k ->]. simpl in *. rewrite Hd. simpl.
  apply IH. intros c' n' Hn'. apply encodes_insert; auto.
Qed.
Lemma redb_sim_insert_range {E : Type} s a c l :
  redb_sim s a → Forall (λ nb, height nb.1 ∧ is_Some (bson_block nb.2)) l →
  ∃ s', redb_insert_block_data_range (E := E) c l s = (Ok tt, s') ∧ redb_sim s' (set_blocks (insert_all c l) a).
Proof.
  intros (Hb & Hh & Hw) Hl. unfold redb_insert_block_data_range.
  destruct (redb_insert_all_eq (E := E) c l _ _ Hl Hb) as (table & -> & Ht). eexists. by split_and!.
Qed.
#[export] Instance redb_refines : StorageRefines RedbBackend.
Proof.
  refine {| storable := λ b, is_Some (bson_block b); storable_wallet := λ c, is_Some (pack_wallet c);
            sim := redb_sim |}.
  - intros E s a c n (Hb & _) _ Hn. simpl. unfold redb_get_block_data. specialize (Hb c n Hn).
    destruct (block_data_table s) as [table|]; [by apply redb_get_eq|]. simpl in Hb.
    rewrite lookup_empty in Hb. destruct (st_blocks a !! (c, n)); [|done]. by destruct Hb as [_ [? ?]].
  - intros E s a c l (Hb & _) _ Hl. simpl. unfold redb_get_block_data_range.
    destruct (block_data_table s) as [table|]; simpl in Hb.
    + apply try_collect_get. eapply Forall_impl; [done|]. intros n Hn. apply redb_get_eq; auto.
    + unfold mret, outcome_ret. f_equal. induction Hl as [|n l Hn _ IH]; [done|]. simpl. f_equal; [|done].
      specialize (Hb c n Hn). rewrite lookup_empty in Hb. destruct (st_blocks a !! (c, n)); [|done].
      by destruct Hb as [_ [? ?]].
  - intros E s a c n b Hs _ Hn Hb. apply (redb_sim_insert_range s a c [(n, b)]); [done|].
    by apply Forall_singleton.
  - intros E s a c l Hs _ Hl. by apply redb_sim_insert_range.
  - intros s a c (_ & <- & _) _. simpl. by destruct (highest_verified_table s).
  - intros E s a c h (Hb & Hh & Hw) _ _. eexists. split; [done|]. split_and!; [done| |done]. simpl. by rewrite Hh.
  - intros s a c w (_ & _ & Hw) _ _. simpl. unfold redb_get_wallet_state. specialize (Hw (c, w)).
    rewrite <-(encodes_wallet _ _ Hw). by destruct (wallet_state_table s).
  - intros E s a c w x (Hb & Hh & Hw) _ _ [z Hz] _. eexists. split; [done|]. unfold redb_set_wallet_state.
    rewrite Hz. split_and!; [done|done|]. intros k. by apply encodes_insert.
  - intros s a c w (_ & _ & Hw) _ _. simpl. f_equal. unfold redb_get_wallet_state. specialize (Hw (c, w)).
    rewrite <-(encodes_wallet _ _ Hw). by destruct (wallet_state_table s).
  - intros E s a c w (Hb & Hh & Hw) _ _. eexists. split; [done|]. split_and!; [done|done|].
    intros k. by apply encodes_delete.
Defined.

Lemma as_i64_height n : height n → as_i64 n = n ∧ as_u64 (as_i64 n) = n.
Proof.
  unfold height, in_range, umax. intros Hn. unfold as_i64. rewrite bool_decide_true by lia.
  split; [done|]. apply wrap_small. unfold in_range, umax. lia.
Qed.
Definition pg_sim (s : PostgresBackend) (a : Store) : Prop :=
  (∀ c n, height n → encodes bson_block (raw_block_data_v1 s !! (c, n)) (st_blocks a !! (c, n))) ∧
  (∀ c, highest_verified s !! c = st_highest a !! c) ∧
  (∀ c h, st_highest a !! c = Some h → height h) ∧
  (∀ k, encodes pack_wallet (wr_data <$> wallet_state_cache s !! k) (st_wallets a !! k)) ∧
  (∀ k, (λ r, as_u64 (wr_block_height r)) <$> wallet_state_cache s !! k = wc_block_height <$> st_wallets a !! k).
Lemma pg_insert_rows_eq {E : Type} (c : list Z) (l : list (Z * RawBlockData)) (rows : gmap (list Z * Z) (list Z))
    (m : gmap (list Z * Z) RawBlockData) :
  Forall (λ nb, height nb.1 ∧ is_Some (bson_block nb.2)) l →
  (∀ c n, height n → encodes bson_block (rows !! (c, n)) (m !! (c, n))) →
  ∃ rows', pg_insert_rows (E := E) c l rows = Ok rows' ∧
    ∀ c' n, height n → encodes bson_block (rows' !! (c', n)) (insert_all c l m !! (c', n)).
Proof.
  intros Hl. revert rows m. induction Hl as [|[n b] l [Hn [d Hd]] _ IH]; intros rows m Ht; simpl; [eauto|].
  unfold pg_insert_row. simpl in *. rewrite Hd. simpl. rewrite (proj1 (as_i64_height n Hn)).
  apply IH. intros c' n' Hn'. apply encodes_insert; auto.
Qed.
Lemma pg_get_eq {E : Type} s a c n :
  pg_sim s a → height n → pg_get_block_data (E := E) s c n = Ok (st_blocks a !! (c, n)).
Proof.
  intros (Hb & _) Hn. unfold pg_get_block_data. rewrite (proj1 (as_i64_height n Hn)).
  apply encodes_block. by apply Hb.
Qed.
Lemma pg_sim_insert_range {E : Type} s a (c : list Z) (l : list (Z * RawBlockData)) :
  pg_sim s a → Forall (λ nb, height nb.1 ∧ is_Some (bson_block nb.2)) l →
  ∃ s', pg_with_blocks (E := E) (pg_insert_rows c l) s = (Ok tt, s') ∧ pg_sim s' (set_blocks (insert_all c l) a).
Proof.
  intros (Hb & Hrest) Hl. unfold pg_with_blocks.
  destruct (pg_insert_rows_eq (E := E) c l _ _ Hl Hb) as (rows & -> & Ht). eexists. split; [done|]. by split.
Qed.
#[export] Instance postgres_refines : StorageRefines PostgresBackend.
Proof.
  refine {| storable := λ b, is_Some (bson_block b); storable_wallet := λ c, is_Some (pack_wallet c);
            sim := pg_sim |}.
  - intros E s a c n Hs _ Hn. by apply pg_get_eq.
  - intros E s a c l Hs _ Hl. simpl. apply try_collect_get. eapply Forall_impl; [done|].
    intros n Hn. by apply pg_get_eq.
  - intros E s a c n b Hs _ Hn Hb.
    destruct (pg_sim_insert_range (E := E) s a c [(n, b)] Hs) as (s' & Hi & Hs'); [by apply Forall_singleton|].
    exists s'. split; [|done]. rewrite <-Hi. simpl. unfold pg_with_blocks. simpl. by destruct (pg_insert_row _ _ _).
  - intros E s a c l Hs _ Hl. simpl. unfold pg_insert_block_data_range. case_bool_decide as Hnil.
    + apply nil_length_inv in Hnil as ->. exists s. split; [done|]. by destruct a.
    + by apply pg_sim_insert_range.
  - intros s a c (_ & Hh & Hr & _) _. simpl. unfold pg_get_highest_verified_block. rewrite Hh.
    destruct (st_highest a !! c) as [h|] eqn:Hc; [|done]. simpl. f_equal. apply wrap_small.
    specialize (Hr c h Hc). unfold height, in_range, umax in *. lia.
  - intros E s a c h (Hb & Hh & Hr & Hw) _ Hn. eexists. split; [done|]. split_and!; [done| | |by apply Hw..].
    + intros c'. simpl. rewrite (proj1 (as_i64_height h Hn)).
      destruct (decide (c = c')) as [->|Hne]; [by rewrite !lookup_insert_eq|]. by rewrite !lookup_insert_ne.
    + intros c' h' Hc'. simpl in Hc'. apply lookup_insert_Some in Hc' as [[_ <-]|[_ Hc']]; [done|by eapply Hr].
  - intros s a c w (_ & _ & _ & Hw & _) _ _. simpl. unfold pg_get_wallet_state. specialize (Hw (c, w)).
    rewrite <-(encodes_wallet _ _ Hw). by destruct (wallet_state_cache s !! (c, w)).
  - intros E s a c w x (Hb & Hh & Hr & Hw & Hk) _ _ [z Hz] Hx. eexists. split; [done|]. unfold pg_set_wallet_state.
    rewrite Hz. split_and!; [done..| |]; intros k; simpl.
    + rewrite <-lookup_fmap, fmap_insert. apply encodes_insert; [done|]. by rewrite lookup_fmap.
    + destruct (decide ((c, w) = k)) as [<-|Hne]; [|by rewrite !lookup_insert_ne].
      rewrite !lookup_insert_eq. simpl. by rewrite (proj2 (as_i64_height _ Hx)).
  - intros s a c w (_ & _ & _ & _ & Hk) _ _. simpl. by rewrite Hk.
  - intros E s a c w (Hb & Hh & Hr & Hw & Hk) _ _. eexists. split; [done|].
    split_and!; [done..| |]; intros k; simpl.
    + rewrite <-lookup_fmap, fmap_delete. apply encodes_delete. by rewrite lookup_fmap.
    + destruct (decide ((c, w) = k)) as [<-|Hne]; [by rewrite !lookup_delete_eq|]. by rewrite !lookup_delete_ne.
Defined.
End Refinement.

(** ** Any backend will do *)

Inductive StoreOp : Type :=
| Op_block (chain_id : list Z) (n : Z) (b : RawBlockData)
| Op_blocks (chain_id : list Z) (range : list (Z * RawBlockData))
| Op_highest (chain_id : list Z) (h : Z)
| Op_wallet (chain_id wallet_id : list Z) (cache : WalletStateCache)
| Op_forget (chain_id wallet_id : list Z).
Definition run_op {S} `{!FetchStorage S} (op : StoreOp) : M S Empty_set unit :=
  match op with
  | Op_block chain_id n b => insert_block_data chain_id n b
  | Op_blocks chain_id range => insert_block_data_range chain_id range
  | Op_highest chain_id h => set_highest_verified_block chain_id h
  | Op_wallet chain_id wallet_id cache => set_wallet_state chain_id wallet_id cache
  | Op_forget chain_id wallet_id => delete_wallet_state chain_id wallet_id
  end.
Definition op_ok (storable : RawBlockData → Prop) (storable_wallet : WalletStateCache → Prop) (op : StoreOp) : Prop :=
  match op with
  | Op_block chain_id n b => h256 chain_id ∧ height n ∧ storable b
  | Op_blocks chain_id range => h256 chain_id ∧ Forall (λ nb, height nb.1 ∧ storable nb.2) range
  | Op_highest chain_id h => h256 chain_id ∧ height h
  | Op_wallet chain_id wallet_id cache =>
      h256 chain_id ∧ h256 wallet_id ∧ storable_wallet cache ∧ height (wc_block_height cache)
  | Op_forget chain_id wallet_id => h256 chain_id ∧ h256 wallet_id
  end.
Definition abstract_op (op : StoreOp) : Store → Store :=
  match op with
  | Op_block chain_id n b => set_blocks <[(chain_id, n) := b]>
  | Op_blocks chain_id range => set_blocks (insert_all chain_id range)
  | Op_highest chain_id h => set_highest <[chain_id := h]>
  | Op_wallet chain_id wallet_id cache => set_wallets <[(chain_id, wallet_id) := cache]>
  | Op_forget chain_id wallet_id => set_wallets (delete (chain_id, wallet_id))
  end.

Lemma run_ops_sim {S} `{!FetchStorage S} `{!StorageRefines S} s a ops :
  sim s a → Forall (op_ok storable storable_wallet) ops →
  ∃ s', for_each ops run_op s = (Ok tt, s') ∧ sim s' (foldl (λ a op, abstract_op op a) a ops).
Proof.
  intros Hs Hops. revert s a Hs. induction Hops as [|op ops Hop _ IH]; intros s a Hs; simpl; [eauto|].
  assert (∃ s1, run_op op s = (Ok tt, s1) ∧ sim s1 (abstract_op op a)) as (s1 & Hrun & Hs1).
  { destruct op; simpl in *; destruct_and?; eauto using sim_insert, sim_insert_range, sim_set_highest,
      sim_set_wallet, sim_delete_wallet. }
  unfold mbind, M_bind. rewrite Hrun. by apply IH.
Qed.

(** Every read of a backend answers from this store. *)
Definition answers {S} `{!FetchStorage S} (s : S) (a : Store) : Prop :=
  ∀ chain, h256 chain →
    get_highest_verified_block s chain = st_highest a !! chain ∧
    (∀ n, height n → get_block_data (E := Empty_set) s chain n = Ok (st_blocks a !! (chain, n))) ∧
    (∀ l, Forall height l →
      get_block_data_range (E := Empty_set) s chain l = Ok ((λ n, st_blocks a !! (chain, n)) <$> l)) ∧
    (∀ w, h256 w →
      get_wallet_state s chain w = st_wallets a !! (chain, w) ∧
      get_cached_block_height s chain w = wc_block_height <$> st_wallets a !! (chain, w)).
Lemma sim_answers {S} `{!FetchStorage S} `{!StorageRefines S} (s : S) a : sim s a → answers s a.
Proof.
  intros Hs chain Hc. split_and!; [by apply sim_get_highest|intros; by apply sim_get|intros; by apply sim_get_range|].
  intros w Hw. split; [by apply sim_get_wallet|by apply sim_height].
Qed.

Lemma empty_in_memory : sim im_default empty_store.
Proof. split_and!; [|done..]. intros c n _ _. simpl. by rewrite !lookup_empty. Qed.

Section Agree.
Context `{!Codec} `{!CodecLaws}.
Lemma empty_redb : sim redb_new empty_store.
Proof. by split_and!. Qed.
Lemma empty_postgres now : sim (pg_init_tables now) empty_store.
Proof. split_and!; try done; intros; try intros ?; by rewrite !lookup_empty. Qed.

(** C36: The three backends, in memory, redb and Postgres, are one store.  From their
    new, empty states they go through the same writes of blocks, ranges of blocks,
    verified heights and wallet states, and deletions of these, for chains and wallets
    that are named by 32 bytes, heights below 2^63, and blocks and wallet states that
    BSON and zstd can encode.  Then no write fails in any of them, and each of the five
    ways to read answers in all three what was written last under that chain and
    number, or chain and wallet. *)
Theorem backends_agree now ops :
  Forall (op_ok (λ b, is_Some (bson_block b)) (λ c, is_Some (pack_wallet c))) ops →
  let a := foldl (λ a op, abstract_op op a) empty_store ops in
  ∃ m r p, for_each ops run_op im_default = (Ok tt, m) ∧ answers m a ∧
    for_each ops run_op redb_new = (Ok tt, r) ∧ answers r a ∧
    for_each ops run_op (pg_init_tables now) = (Ok tt, p) ∧ answers p a.
Proof.
  intros Hops a.
  destruct (run_ops_sim im_default empty_store ops empty_in_memory) as (m & Hm & Hma).
  { eapply Forall_impl; [done|]. intros []; simpl; rewrite ?Forall_forall; naive_solver. }
  destruct (run_ops_sim redb_new empty_store ops empty_redb Hops) as (r & Hr & Hra).
  destruct (run_ops_sim (pg_init_tables now) empty_store ops (empty_postgres now) Hops) as (p & Hp & Hpa).
  exists m, r, p. split_and!; [done|by apply sim_answers|done|by apply sim_answers|done|by apply sim_answers].
Qed.
End Agree.

(** ** On a concrete format *)

#[export] Instance RawTransaction_eq_dec : EqDecision RawTransaction.
Proof. solve_decision. Defined.
#[export] Instance RawBlockData_eq_dec : EqDecision RawBlockData.
Proof. solve_decision. Defined.

Module BlockStoreConcrete.
Definition block : RawBlockData := new_from_timestamp 1700000000 Ledger8 [Raw_Midnight [1; 2]].
(** A format that knows one block. *)
#[export] Instance one_block : Codec := {|
  bson_key _ n := Some [n];
  bson_block b := if decide (b = block) then Some [7] else None;
  unbson_block _ := Some block;
  bson_wallet _ := None;
  unbson_wallet _ := None;
  compress := Some;
  decompress := Some;
|}.
#[export] Instance one_block_laws : CodecLaws.
Proof.
  split.
  - by eexists.
  - intros b d. cbn. by case_decide; simplify_eq.
  - done.
  - by intros d z [= ->].
Defined.
Definition chain : list Z := replicate 32 9.
Definition ops : list StoreOp := [Op_blocks chain [(0, block)]; Op_highest chain 0].
End BlockStoreConcrete.
Import BlockStoreConcrete.

Lemma backends_agree_witness :
  ∃ m r p, for_each ops run_op im_default = (Ok tt, m) ∧ for_each ops run_op redb_new = (Ok tt, r) ∧
    for_each ops run_op (pg_init_tables 0) = (Ok tt, p) ∧
    get_highest_verified_block p chain = Some 0 ∧
    get_block_data_range (E := Empty_set) m chain [0; 1] = Ok [Some block; None] ∧
    get_block_data_range (E := Empty_set) r chain [0; 1] = Ok [Some block; None] ∧
    get_block_data_range (E := Empty_set) p chain [0; 1] = Ok [Some block; None].
Proof.
  destruct (backends_agree 0 ops) as (m & r & p & Hm & Hma & Hr & Hra & Hp & Hpa).
  { repeat constructor; cbn; try (by eexists); unfold in_range, umax; lia. }
  assert (Forall height [0; 1]) as Hl by (repeat constructor; unfold height, in_range, umax; lia).
  exists m, r, p. split; [exact Hm|]. split; [exact Hr|]. split; [exact Hp|].
  destruct (Hma chain eq_refl) as (_ & _ & H1 & _), (Hra chain eq_refl) as (_ & _ & H2 & _),
    (Hpa chain eq_refl) as (H0 & _ & H3 & _).
  split; [rewrite H0; vm_compute; reflexivity|].
  split; [rewrite (H1 _ Hl)|split; [rewrite (H2 _ Hl)|rewrite (H3 _ Hl)]]; vm_compute; reflexivity.
Defined.
