(* ===== verification/Fetcher.v ===== *)
(** * Fetching the blocks of a chain

    Models [util/toolkit/src/fetcher.rs] with its tasks ([fetcher/fetch_task.rs],
    [fetcher/compute_task.rs]) and [fetcher/runtimes.rs]: workers fetch the blocks of
    a node in jobs, extract what the ledger needs of them, store it in a
    [FetchStorage] and check that they form a chain.

    The node, and what subxt makes of its answers, are parameters.  The workers and
    the channels between them are a step relation; each step is what a worker does
    between two points where it waits. *)

From stdpp Require Import prelude gmap.
From S2P Require Import Prelude Frame Collections GenesisSpec Version BlockStore.

Open Scope Z_scope.

(** ** Runtime versions ([runtimes.rs]) *)

Inductive RuntimeVersion : Type :=
| V0_17_0 | V0_17_1 | V0_18_0 | V0_18_1 | V0_19_0 | V0_20_0 | V0_21_0 | V0_22_0.
Inductive RuntimeVersionError : Type :=
| InvalidProtocolVersion
| UnsupportedBlockVersion (v : Z).
Definition runtime_version_try_from (value : Z) : outcome RuntimeVersionError RuntimeVersion :=
  if bool_decide (value = 17000) then Ok V0_17_0 else
  if bool_decide (value = 17001) then Ok V0_17_1 else
  if bool_decide (value = 18000) then Ok V0_18_0 else
  if bool_decide (value = 18001) then Ok V0_18_1 else
  if bool_decide (value = 19000) then Ok V0_19_0 else
  if bool_decide (value = 20000) then Ok V0_20_0 else
  if bool_decide (value = 21000) then Ok V0_21_0 else
  if bool_decide (value = 22000) then Ok V0_22_0 else
  Err (UnsupportedBlockVersion value).
Definition to_spec_version (v : RuntimeVersion) : Z :=
  match v with
  | V0_17_0 => 17000 | V0_17_1 => 17001 | V0_18_0 => 18000 | V0_18_1 => 18001
  | V0_19_0 => 19000 | V0_20_0 => 20000 | V0_21_0 => 21000 | V0_22_0 => 22000
  end.
Definition runtime_version_from_bytes (value : list Z) : outcome RuntimeVersionError RuntimeVersion :=
  match decode_u32 value with
  | Some version => runtime_version_try_from version
  | None => Err InvalidProtocolVersion
  end.

(** The calls [MidnightMetadata] tells apart. *)
Inductive ChainCall : Type :=
| Call_timestamp_set (now : Z)
| Call_send_mn_transaction (midnight_tx : list Z)
| Call_send_mn_system_transaction (midnight_system_tx : list Z)
| Call_other.
Definition send_mn_transaction_of (call : ChainCall) : option (list Z) :=
  match call with Call_send_mn_transaction tx => Some tx | _ => None end.
Definition send_mn_system_transaction_of (call : ChainCall) : option (list Z) :=
  match call with Call_send_mn_system_transaction tx => Some tx | _ => None end.
Definition timestamp_set_of (call : ChainCall) : option Z :=
  match call with Call_timestamp_set now => Some now | _ => None end.

(** ** What a node returns *)

Class Subxt : Type := {
  Extrinsic : Type;
  Event : Type;
  SubxtError : Type;
  (** Decoding with the metadata of a runtime. *)
  as_root_extrinsic : RuntimeVersion → Extrinsic → option ChainCall;
  as_system_transaction_applied : RuntimeVersion → Event → outcome SubxtError (option (list Z));
}.
(** A block with its body and its events; the events that do not decode are left
    out.  [None] is a failed request. *)
Record NodeBlock `{!Subxt} : Type := {
  bl_number : Z;
  bl_hash : list Z;
  bl_parent_hash : list Z;
  bl_logs : list DigestItem;
  bl_extrinsics : option (list Extrinsic);
  bl_events : option (nat → list Event);
}.
Record FetchedBlock `{!Subxt} : Type := {
  fb_block : NodeBlock;
  fb_state_root : option (list Z);
  fb_state : option (list Z);
}.

Section Tasks.
Context `{!Subxt}.

Inductive ComputeError : Type :=
| Compute_SubxtError (e : SubxtError)
| BlockMissing (n : Z)
| Compute_RuntimeVersionError (e : RuntimeVersionError)
| ChildBlockVerificationFailed (n : Z)
| LedgerVersionMissing (n : Z).

(** ** Extraction ([ComputeTask::extract_data]) *)

(** The first item of the engine is decoded; there has to be one. *)
Definition find_version (logs : list DigestItem) : outcome ComputeError RuntimeVersion :=
  match omap (λ item, match item with
                      | Consensus engine data => if bool_decide (engine = VERSION_ID) then Some data else None
                      | OtherItem _ => None
                      end) logs with
  | data :: _ => map_err Compute_RuntimeVersionError (runtime_version_from_bytes data)
  | [] => Panic
  end.

(** The events of an extrinsic: the first that does not convert is an error. *)
Fixpoint event_transactions (version : RuntimeVersion) (events : list Event) :
    outcome ComputeError (list RawTransaction) :=
  match events with
  | [] => mret []
  | ev :: events =>
      event ← map_err Compute_SubxtError (as_system_transaction_applied version ev);
      rest ← event_transactions version events;
      mret (match event with Some bytes => Raw_System bytes :: rest | None => rest end)
  end.

(** The loop over the extrinsics: the timestamp so far, and the transactions. *)
Fixpoint extract_extrinsics (version : RuntimeVersion) (block_number : Z) (events : nat → list Event)
    (index : nat) (timestamp_ms : option Z) (extrinsics : list Extrinsic) :
    outcome ComputeError (option Z * list RawTransaction) :=
  match extrinsics with
  | [] => mret (timestamp_ms, [])
  | ext :: extrinsics =>
      match as_root_extrinsic version ext with
      | None => extract_extrinsics version block_number events (S index) timestamp_ms extrinsics
      | Some call =>
          step ←
            match timestamp_set_of call with
            | Some ts => if timestamp_ms then Panic else mret (Some ts, [])
            | None =>
                mret (timestamp_ms,
                  match send_mn_transaction_of call with
                  | Some bytes => [Raw_Midnight bytes]
                  | None =>
                      if bool_decide (block_number = 0)
                      then match send_mn_system_transaction_of call with
                           | Some bytes => [Raw_System bytes]
                           | None => []
                           end
                      else []
                  end)
            end;
          applied ← event_transactions version (events index);
          rest ← extract_extrinsics version block_number events (S index) step.1 extrinsics;
          mret (rest.1, step.2 ++ applied ++ rest.2)
      end
  end.

Definition process_block_with_protocol (block : FetchedBlock) (version : RuntimeVersion) :
    outcome ComputeError RawBlockData :=
  let b := fb_block block in
  extrinsics ← unwrap (bl_extrinsics b);
  events ← unwrap (bl_events b);
  extracted ← extract_extrinsics version (bl_number b) events 0 None extrinsics;
  timestamp_ms ← unwrap extracted.1;
  let tblock_secs := timestamp_ms / 1000 in
  ledger_version ← ok_or (from_spec_version (to_spec_version version)) (LedgerVersionMissing (bl_number b));
  mret {| rb_hash := bl_hash b; rb_parent_hash := bl_parent_hash b; rb_number := bl_number b;
          rb_ledger_version := ledger_version; rb_transactions := extracted.2;
          rb_tblock_secs := tblock_secs; rb_tblock_err := 30; rb_parent_block_hash := bl_parent_hash b;
          rb_last_block_time_secs := tblock_secs; rb_state_root := fb_state_root block;
          rb_state := fb_state block |}.
Definition extract_data (block : FetchedBlock) : outcome ComputeError RawBlockData :=
  spec_version ← find_version (bl_logs (fb_block block));
  process_block_with_protocol block spec_version.

(** ** Compute tasks *)

Inductive ComputeTask : Type :=
| ExtractBlockData (min max : Z) (blocks : list FetchedBlock)
| Verify (min max : Z)
| FinalVerify (min max : Z)
| Compute_NoOp.

Context {S : Type} `{!FetchStorage S}.
Context (chain_id : list Z).

(** [(min..max)]. *)
Definition range (min max : Z) : list Z := seqZ min (max - min).
Definition first_failing_pair (blocks : list RawBlockData) : option RawBlockData :=
  head (omap (λ pc, if bool_decide (rb_hash pc.1 = rb_parent_hash pc.2) then None else Some pc.2)
             (zip blocks (tail blocks))).

Definition work (task : ComputeTask) : M S ComputeError ComputeTask :=
  match task with
  | ExtractBlockData min max blocks =>
      blocks_to_insert ← lift (try_collect (λ b, d ← extract_data b; mret (bl_number (fb_block b), d)) blocks);
      insert_block_data_range chain_id blocks_to_insert ;;
      mret (Verify min max)
  | Verify min max =>
      storage ← gets (λ s, s);
      blocks ← lift (get_block_data_range storage chain_id (range min max));
      blocks ← lift (try_collect (λ ib, ok_or ib.2 (BlockMissing ib.1)) (zip (range min max) blocks));
      match first_failing_pair blocks with
      | Some child => throw (ChildBlockVerificationFailed (rb_number child))
      | None => mret (FinalVerify min max)
      end
  | FinalVerify min max =>
      storage ← gets (λ s, s);
      (if bool_decide (min = 0) then
         block ← lift (get_block_data storage chain_id 0);
         block ← lift (ok_or block (BlockMissing 0));
         ensure (bool_decide (rb_parent_hash block = zero_hash)) (ChildBlockVerificationFailed 0)
       else mret tt) ;;
      blocks ← lift (get_block_data_range storage chain_id [max - 1; max]);
      match blocks with
      | [Some parent; Some child] =>
          ensure (bool_decide (rb_parent_hash child = rb_hash parent))
            (ChildBlockVerificationFailed (rb_number child))
      | _ => mret tt
      end ;;
      mret Compute_NoOp
  | Compute_NoOp => mret Compute_NoOp
  end.

(** ** Fetch tasks *)

(** [ClientError] and the errors of requests. *)
Inductive FetchTaskError : Type :=
| Fetch_Request (e : SubxtError)
| BlockHashMissing (n : Z).
Inductive FetchTask : Type :=
| FetchBlocks (min max : Z)
| Fetch_NoOp.

(** A node behind a client that retries; [genesis_state] is the property of that
    name, if there is one and it is a string of hex digits. *)
Record Node : Type := {
  chain_get_block_hash : Z → outcome SubxtError (option (list Z));
  block_at : list Z → outcome SubxtError NodeBlock;
  get_state_root_at : list Z → outcome SubxtError (option (list Z));
  get_system_properties : outcome SubxtError (option (list Z));
}.
Context (client : Node).

Definition fetch_block_hash (block_number : Z) : outcome FetchTaskError (list Z) :=
  h ← map_err Fetch_Request (chain_get_block_hash client block_number);
  ok_or h (BlockHashMissing block_number).
Definition fetch_block (block_hash : list Z) : outcome FetchTaskError FetchedBlock :=
  block ← map_err Fetch_Request (block_at client block_hash);
  state_root ← map_err Fetch_Request (get_state_root_at client (bl_hash block));
  state ←
    (if bool_decide (bl_parent_hash block = zero_hash) then
       genesis_state ← map_err Fetch_Request (get_system_properties client);
       genesis_state ← unwrap genesis_state;
       mret (Some genesis_state)
     else mret None);
  mret {| fb_block := block; fb_state_root := state_root; fb_state := state |}.
(** The numbers that have no stored block. *)
Definition missing (l : list (Z * option RawBlockData)) : list Z :=
  omap (λ ib, match ib.2 with None => Some ib.1 | Some _ => None end) l.
Definition fetch (task : FetchTask) (storage : S) : outcome FetchTaskError ComputeTask :=
  match task with
  | FetchBlocks min max =>
      cached_blocks ← get_block_data_range storage chain_id (range min max);
      blocks ← try_collect (λ i, h ← fetch_block_hash i; fetch_block h) (missing (zip (range min max) cached_blocks));
      mret (ExtractBlockData min max blocks)
  | Fetch_NoOp => mret Compute_NoOp
  end.

(** ** Reading what is stored *)

Definition set_last_block_time (t : Z) (b : RawBlockData) : RawBlockData := {|
  rb_hash := rb_hash b; rb_parent_hash := rb_parent_hash b; rb_number := rb_number b;
  rb_ledger_version := rb_ledger_version b; rb_transactions := rb_transactions b;
  rb_tblock_secs := rb_tblock_secs b; rb_tblock_err := rb_tblock_err b;
  rb_parent_block_hash := rb_parent_block_hash b; rb_last_block_time_secs := t;
  rb_state_root := rb_state_root b; rb_state := rb_state b |}.
(** The loop over the indices from 1: times are not changed by it. *)
Fixpoint fix_times (previous : Z) (blocks : list RawBlockData) : list RawBlockData :=
  match blocks with
  | [] => []
  | b :: blocks => set_last_block_time previous b :: fix_times (rb_tblock_secs b) blocks
  end.
Definition fix_last_block_times (blocks : list RawBlockData) : list RawBlockData :=
  match blocks with [] => [] | b :: blocks => b :: fix_times (rb_tblock_secs b) blocks end.

(** A missing block is a panic. *)
Definition read_blocks_from_cache {E : Type} (storage : S) : outcome E (list RawBlockData) :=
  let max_height := default 0 (get_highest_verified_block storage chain_id) in
  blocks ← get_block_data_range storage chain_id (range 0 (max_height + 1));
  blocks ← try_collect unwrap blocks;
  mret (fix_last_block_times blocks).

(** ** Jobs *)

Definition BLOCKS_PER_JOB : Z := 100.
(** [u64::div_ceil]. *)
Definition div_ceil (a b : Z) : Z := if bool_decide (a mod b = 0) then a / b else a / b + 1.
Definition blocks_per_job (difference num_workers : Z) : Z :=
  if bool_decide (difference < BLOCKS_PER_JOB * num_workers)
  then Z.max (div_ceil difference num_workers) 5 else BLOCKS_PER_JOB.
(** [(min..max).step_by(step)]. *)
Definition step_by (min max step : Z) : list Z :=
  (λ k, min + k * step) <$> seqZ 0 (div_ceil (Z.max (max - min) 0) step).
Definition job_list (min_height max_height step : Z) : list FetchTask :=
  (λ m, FetchBlocks m (Z.min (m + step) max_height)) <$> step_by min_height max_height step.
Definition num_jobs (difference step : Z) : Z := div_ceil difference step.

(** ** Workers and channels ([fetch_from_rpc]) *)

Inductive ClientError : Type :=
| Client_SubxtError (e : SubxtError)
| BlockHashNotFound (n : Z)
| OnlyGenesisFinalized.
Inductive FetchError : Type :=
| FetchTaskError_ (e : FetchTaskError)
| ComputeTaskError (e : ComputeError)
| WorkerPanic
| NoWorkersConnected
| NodeClientError (e : ClientError).

(** Where the work on a job is: with the task that pushes jobs, in one of the four
    channels, at a worker, or with the main task. *)
Inductive Place : Type :=
| Pushing (job : FetchTask)
| Queued (job : FetchTask)
| Fetching (job : FetchTask)
| Fetched (w : ComputeTask)
| FetchToCompute (w : ComputeTask)
| Computing (w : ComputeTask)
| Computed (w : ComputeTask)
| ComputeToCompute (w : ComputeTask)
| FinalJobs (w : ComputeTask)
| Received (w : ComputeTask)
| Lost.
Definition is_pushing (p : Place) : bool := match p with Pushing _ => true | _ => false end.
Definition is_queued (p : Place) : bool := match p with Queued _ => true | _ => false end.
Definition is_fetch_to_compute (p : Place) : bool := match p with FetchToCompute _ => true | _ => false end.
Definition is_final (p : Place) : bool := match p with FinalJobs _ => true | _ => false end.
Definition is_received (p : Place) : bool := match p with Received _ => true | _ => false end.
Definition count (f : Place → bool) (l : list Place) : nat := length (filter f l).

(** The jobs with their places, in the order in which they are pushed; fetch
    workers that connect, that wait for a job, and that ended; idle compute workers;
    the ended fetch workers the main task has seen; errors it has not seen.  What
    leaves a channel is any of its elements, which includes the first. *)
Record Sys : Type := mkSys {
  sy_storage : S;
  sy_jobs : list Place;
  sy_connecting : nat;
  sy_idle : nat;
  sy_exited : nat;
  sy_compute_idle : nat;
  sy_joined : nat;
  sy_failures : list FetchError;
}.

Context (num_workers num_compute_workers : nat) (finalized_height : Z) (jobs_expected : Z).
Notation more l := (Z.of_nat (count is_received l) < jobs_expected).

Inductive fetch_step : Sys → Sys → Prop :=
| step_push st l1 t l2 c i e ci j f :
    Forall (λ p, is_pushing p = false) l1 → (count is_queued (l1 ++ l2) < num_workers * 2)%nat →
    fetch_step (mkSys st (l1 ++ Pushing t :: l2) c i e ci j f) (mkSys st (l1 ++ Queued t :: l2) c i e ci j f)
| step_connect st l c i e ci j f :
    fetch_step (mkSys st l (Datatypes.S c) i e ci j f) (mkSys st l c (Datatypes.S i) e ci j f)
| step_no_connection st l c i e ci j f :
    fetch_step (mkSys st l (Datatypes.S c) i e ci j f) (mkSys st l c i (Datatypes.S e) ci j f)
| step_take st l1 t l2 c i e ci j f :
    fetch_step (mkSys st (l1 ++ Queued t :: l2) c (Datatypes.S i) e ci j f)
               (mkSys st (l1 ++ Fetching t :: l2) c i e ci j f)
| step_fetch st l1 t w l2 c i e ci j f :
    fetch t st = Ok w →
    fetch_step (mkSys st (l1 ++ Fetching t :: l2) c i e ci j f) (mkSys st (l1 ++ Fetched w :: l2) c i e ci j f)
| step_fetch_error st l1 t x l2 c i e ci j f :
    fetch t st = Err x →
    fetch_step (mkSys st (l1 ++ Fetching t :: l2) c i e ci j f)
               (mkSys st (l1 ++ Lost :: l2) c i e ci j (FetchTaskError_ x :: f))
| step_fetch_panic st l1 t l2 c i e ci j f :
    fetch t st = Panic →
    fetch_step (mkSys st (l1 ++ Fetching t :: l2) c i e ci j f)
               (mkSys st (l1 ++ Lost :: l2) c i e ci j (WorkerPanic :: f))
| step_send st l1 w l2 c i e ci j f :
    (count is_fetch_to_compute (l1 ++ l2) < num_compute_workers * 2)%nat →
    fetch_step (mkSys st (l1 ++ Fetched w :: l2) c i e ci j f)
               (mkSys st (l1 ++ FetchToCompute w :: l2) c (Datatypes.S i) e ci j f)
| step_take_fetched st l1 w l2 c i e ci j f :
    fetch_step (mkSys st (l1 ++ FetchToCompute w :: l2) c i e (Datatypes.S ci) j f)
               (mkSys st (l1 ++ Computing w :: l2) c i e ci j f)
| step_take_computed st l1 w l2 c i e ci j f :
    (** the other channel comes first *)
    count is_fetch_to_compute (l1 ++ l2) = 0%nat →
    fetch_step (mkSys st (l1 ++ ComputeToCompute w :: l2) c i e (Datatypes.S ci) j f)
               (mkSys st (l1 ++ Computing w :: l2) c i e ci j f)
| step_work st l1 w w' st' l2 c i e ci j f :
    work w st = (Ok w', st') →
    fetch_step (mkSys st (l1 ++ Computing w :: l2) c i e ci j f) (mkSys st' (l1 ++ Computed w' :: l2) c i e ci j f)
| step_work_error st l1 w x st' l2 c i e ci j f :
    work w st = (Err x, st') →
    fetch_step (mkSys st (l1 ++ Computing w :: l2) c i e ci j f)
               (mkSys st' (l1 ++ Lost :: l2) c i e ci j (ComputeTaskError x :: f))
| step_work_panic st l1 w st' l2 c i e ci j f :
    work w st = (Panic, st') →
    fetch_step (mkSys st (l1 ++ Computing w :: l2) c i e ci j f)
               (mkSys st' (l1 ++ Lost :: l2) c i e ci j (WorkerPanic :: f))
| step_send_final st l1 min max l2 c i e ci j f :
    (count is_final (l1 ++ l2) < num_compute_workers * 2)%nat →
    fetch_step (mkSys st (l1 ++ Computed (FinalVerify min max) :: l2) c i e ci j f)
               (mkSys st (l1 ++ FinalJobs (FinalVerify min max) :: l2) c i e (Datatypes.S ci) j f)
| step_continue st l1 l2 c i e ci j f :
    fetch_step (mkSys st (l1 ++ Computed Compute_NoOp :: l2) c i e ci j f)
               (mkSys st (l1 ++ Lost :: l2) c i e (Datatypes.S ci) j f)
| step_send_back st l1 w l2 c i e ci j f :
    match w with ExtractBlockData _ _ _ | Verify _ _ => True | _ => False end →
    fetch_step (mkSys st (l1 ++ Computed w :: l2) c i e ci j f)
               (mkSys st (l1 ++ ComputeToCompute w :: l2) c i e (Datatypes.S ci) j f)
| step_receive st l1 w l2 c i e ci j f :
    more (l1 ++ l2) →
    fetch_step (mkSys st (l1 ++ FinalJobs w :: l2) c i e ci j f) (mkSys st (l1 ++ Received w :: l2) c i e ci j f)
| step_join st l c i e ci j f :
    more l → Datatypes.S j ≠ num_workers →
    fetch_step (mkSys st l c i (Datatypes.S e) ci j f) (mkSys st l c i e ci (Datatypes.S j) f).

(** After the loop: the final checks, the new height, and the blocks. *)
Definition finish (jobs : list ComputeTask) : M S FetchError (list RawBlockData) :=
  for_each jobs (λ job, with_err ComputeTaskError (work job) ;; mret tt) ;;
  set_highest_verified_block chain_id finalized_height ;;
  storage ← gets (λ s, s);
  lift (read_blocks_from_cache storage).

(** How the main task returns. *)
Inductive returns : Sys → outcome FetchError (list RawBlockData) → S → Prop :=
| return_failure st l c i e ci j f x :
    more l → x ∈ f → returns (mkSys st l c i e ci j f) (Err x) st
| return_no_workers st l c i e ci j f :
    more l → Datatypes.S j = num_workers →
    returns (mkSys st l c i (Datatypes.S e) ci j f) (Err NoWorkersConnected) st
| return_finished st l c i e ci j f jobs r st' :
    ¬ more l → jobs ≡ₚ omap (λ p, match p with Received w => Some w | _ => None end) l →
    finish jobs st = (r, st') → returns (mkSys st l c i e ci j f) r st'.
End Tasks.

Section Runs.
Context `{!Subxt} {S : Type} `{!FetchStorage S}.
Context (client : Node) (num_workers num_compute_workers : nat).

Definition min_height_of (chain_id : list Z) (st : S) : Z := default 0 (get_highest_verified_block st chain_id).
Definition difference_of (chain_id : list Z) (finalized_height : Z) (st : S) : Z :=
  finalized_height + 1 - min_height_of chain_id st.
Definition job_size (chain_id : list Z) (finalized_height : Z) (st : S) : Z :=
  blocks_per_job (difference_of chain_id finalized_height st) (Z.of_nat num_workers).
Definition jobs_of (chain_id : list Z) (finalized_height : Z) (st : S) : Z :=
  num_jobs (difference_of chain_id finalized_height st) (job_size chain_id finalized_height st).
(** All jobs are to be pushed and all workers are spawned. *)
Definition start (chain_id : list Z) (finalized_height : Z) (st : S) : Sys :=
  mkSys st
    (Pushing <$> job_list (min_height_of chain_id st) (finalized_height + 1) (job_size chain_id finalized_height st))
    num_workers 0 0 num_compute_workers 0 [].
(** A run that returns.  When the node lags behind what is verified, the difference
    of the heights, a [u64], is below zero.  A debug build panics; in a release
    build it wraps around and there is no memory for that many jobs. *)
Definition fetch_from_rpc (chain_id : list Z) (finalized_height : Z) (st : S)
    (r : outcome FetchError (list RawBlockData)) (st' : S) : Prop :=
  if bool_decide (finalized_height + 1 < min_height_of chain_id st) then r = Panic ∧ st' = st
  else ∃ s,
    rtc (fetch_step chain_id client num_workers num_compute_workers (jobs_of chain_id finalized_height st))
      (start chain_id finalized_height st) s ∧
    returns chain_id num_workers finalized_height (jobs_of chain_id finalized_height st) s r st'.

(** [latest] is what the node answers to [at_latest]. *)
Definition get_block_one_hash (latest : outcome SubxtError Z) : outcome ClientError (list Z) :=
  finalized ← map_err Client_SubxtError latest;
  if bool_decide (finalized < 1) then Err OnlyGenesisFinalized
  else
    hash ← map_err Client_SubxtError (chain_get_block_hash client 1);
    ok_or hash (BlockHashNotFound 1).
(** A second question for the latest block may have a later answer. *)
Definition fetch_all (fetch_only_cache : bool) (latest latest' : outcome SubxtError Z) (st : S)
    (r : outcome FetchError (list RawBlockData)) (st' : S) : Prop :=
  match get_block_one_hash latest with
  | Err e => r = Err (NodeClientError e) ∧ st' = st
  | Panic => r = Panic ∧ st' = st
  | Ok chain_id =>
      if fetch_only_cache then r = read_blocks_from_cache chain_id st ∧ st' = st
      else match latest' with
           | Err e => r = Err (NodeClientError (Client_SubxtError e)) ∧ st' = st
           | Panic => r = Panic ∧ st' = st
           | Ok finalized_height => fetch_from_rpc chain_id finalized_height st r st'
           end
  end.
End Runs.

(** ** Jobs cover the heights *)

Lemma list_filter_iff' {A} (P Q : A → Prop) `{!∀ x, Decision (P x)} `{!∀ x, Decision (Q x)} (l : list A) :
  (∀ x, x ∈ l → P x ↔ Q x) → filter P l = filter Q l.
Proof.
  induction l as [|x l IH]; intros HPQ; [done|]. rewrite !filter_cons, IH by (intros y Hy; apply HPQ; by right).
  destruct (decide (P x)) as [HP|HP], (decide (Q x)) as [HQ|HQ]; try done.
  - destruct HQ. apply HPQ; [left|done].
  - destruct HP. apply HPQ; [left|done].
Qed.

Lemma div_ceil_spec a b : 0 ≤ a → 0 < b → (div_ceil a b - 1) * b < a ≤ div_ceil a b * b ∧ 0 ≤ div_ceil a b.
Proof.
  intros Ha Hb. unfold div_ceil. pose proof (Z.div_mod a b ltac:(lia)) as Hdm.
  pose proof (Z.mod_pos_bound a b Hb). pose proof (Z.div_pos a b Ha Hb).
  case_bool_decide; nia.
Qed.
Lemma blocks_per_job_pos d n : 0 < blocks_per_job d n.
Proof. unfold blocks_per_job, BLOCKS_PER_JOB. case_bool_decide; lia. Qed.

Section Jobs.
Context (min_height max_height step_size : Z) (Hstep : 0 < step_size) (Hheights : min_height ≤ max_height).

(** The heights of the jobs. *)
Definition job_ranges : list (Z * Z) :=
  (λ m, (m, Z.min (m + step_size) max_height)) <$> step_by min_height max_height step_size.

Lemma job_ranges_lookup k m M :
  job_ranges !! k = Some (m, M) ↔
  m = min_height + Z.of_nat k * step_size ∧ M = Z.min (m + step_size) max_height ∧ m < max_height.
Proof.
  unfold job_ranges, step_by. rewrite list_lookup_fmap, list_lookup_fmap.
  pose proof (div_ceil_spec (Z.max (max_height - min_height) 0) step_size ltac:(lia) Hstep) as [Hc Hpos].
  set (N := div_ceil _ _) in *. destruct (decide (Z.of_nat k < N)) as [Hk|Hk].
  - rewrite lookup_seqZ_lt by lia. simpl. split.
    + intros [= <- <-]. split_and!; [lia|done|]. nia.
    + intros (-> & -> & _). by rewrite Z.add_0_l.
  - rewrite lookup_seqZ_ge by lia. simpl. split; [done|]. intros (-> & _ & Hlt). nia.
Qed.
Lemma job_ranges_disjoint k k' m M m' M' i :
  job_ranges !! k = Some (m, M) → job_ranges !! k' = Some (m', M') → m ≤ i < M → m' ≤ i < M' → k = k'.
Proof.
  rewrite !job_ranges_lookup. intros (-> & -> & _) (-> & -> & _) Hi Hi'.
  destruct (Nat.lt_trichotomy k k') as [Hlt|[?|Hlt]]; [exfalso; nia|done|exfalso; nia].
Qed.
Lemma job_ranges_cover i :
  min_height ≤ i < max_height → ∃ k m M, job_ranges !! k = Some (m, M) ∧ m ≤ i < M.
Proof.
  intros Hi. set (k := Z.to_nat ((i - min_height) / step_size)).
  pose proof (Z.div_mod (i - min_height) step_size ltac:(lia)).
  pose proof (Z.mod_pos_bound (i - min_height) step_size Hstep).
  assert (Z.of_nat k = (i - min_height) / step_size) as Hk.
  { unfold k. rewrite Z2Nat.id; [done|]. apply Z.div_pos; lia. }
  exists k, (min_height + Z.of_nat k * step_size),
    (Z.min (min_height + Z.of_nat k * step_size + step_size) max_height).
  split; [apply job_ranges_lookup; split_and!; [done..|]|]; nia.
Qed.
Lemma job_ranges_in k m M : job_ranges !! k = Some (m, M) → min_height ≤ m < M ∧ M ≤ max_height.
Proof. rewrite job_ranges_lookup. intros (-> & -> & ?). nia. Qed.
Lemma job_ranges_first m M : job_ranges !! 0%nat = Some (m, M) → m = min_height.
Proof. rewrite job_ranges_lookup. intros (-> & _). lia. Qed.
Lemma job_list_ranges : job_list min_height max_height step_size = (λ r, FetchBlocks r.1 r.2) <$> job_ranges.
Proof. unfold job_list, job_ranges. by rewrite <-list_fmap_compose. Qed.
Lemma job_ranges_length : Z.of_nat (length job_ranges) = num_jobs (max_height - min_height) step_size.
Proof.
  unfold job_ranges, step_by, num_jobs. rewrite !length_fmap, length_seqZ.
  pose proof (div_ceil_spec (Z.max (max_height - min_height) 0) step_size ltac:(lia) Hstep).
  rewrite Z.max_l in * by lia. lia.
Qed.
End Jobs.

(** ** The invariant of the workers *)

Section Correctness.
Context `{!Subxt} {S : Type} `{!FetchStorage S} `{!StorageRefines S}.
Context (chain_id : list Z) (client : Node) (num_workers num_compute_workers : nat).
Context (finalized_height jobs_expected : Z).
(** What may be stored at a height. *)
Context (good : Z → RawBlockData → Prop).
(** The jobs, and the store at the start. *)
Context (ranges : list (Z * Z)) (a0 : Store).

(** Disjoint ranges of heights. *)
Record ranges_ok : Prop := {
  ranges_disjoint k k' r r' i : ranges !! k = Some r → ranges !! k' = Some r' →
    r.1 ≤ i < r.2 → r'.1 ≤ i < r'.2 → k = k';
  ranges_heights k r : ranges !! k = Some r → 0 ≤ r.1 < r.2 ∧ height r.2;
}.
(** The node answers with the block of the number it was asked for, and what is
    extracted of it may be stored. *)
Definition fetched (i : Z) (fb : FetchedBlock) : Prop :=
  ∃ h, fetch_block_hash client i = Ok h ∧ fetch_block client h = Ok fb.
Definition node_ok : Prop := ∀ i fb,
  fetched i fb → bl_number (fb_block fb) = i ∧ ∀ d, extract_data fb = Ok d → good i d ∧ storable d.

Context (Hchain : h256 chain_id) (Hranges : ranges_ok) (Hnode : node_ok).

Definition stored (a : Store) (i : Z) : option RawBlockData := st_blocks a !! (chain_id, i).
Definition linked (a : Store) (i : Z) : Prop :=
  ∃ p c, stored a i = Some p ∧ stored a (i + 1) = Some c ∧ rb_parent_hash c = rb_hash p.
Definition absent (a : Store) (min max : Z) : list Z := filter (λ i, stored a i = None) (range min max).

Definition task_inv (a : Store) (r : Z * Z) (w : ComputeTask) : Prop :=
  match w with
  | ExtractBlockData min max blocks => (min, max) = r ∧
      Forall2 fetched (absent a min max) blocks
  | Verify min max => (min, max) = r ∧ ∀ i, min ≤ i < max → is_Some (stored a i)
  | FinalVerify min max => (min, max) = r ∧ (∀ i, min ≤ i < max → is_Some (stored a i)) ∧
      ∀ i, min ≤ i → i + 1 < max → linked a i
  | Compute_NoOp => False
  end.
Definition is_final_task (w : ComputeTask) : bool := match w with FinalVerify _ _ => true | _ => false end.
Definition place_inv (a : Store) (r : Z * Z) (p : Place) : Prop :=
  match p with
  | Pushing t | Queued t | Fetching t => t = FetchBlocks r.1 r.2
  | Fetched w | FetchToCompute w | Computing w | ComputeToCompute w => task_inv a r w ∧ is_final_task w = false
  | Computed w => task_inv a r w
  | FinalJobs w | Received w => w = FinalVerify r.1 r.2 ∧ task_inv a r w
  | Lost => True
  end.
Definition store_inv (a : Store) : Prop :=
  (∀ i b, stored a i = Some b → good i b) ∧ (∀ i b, stored a0 i = Some b → stored a i = Some b) ∧
  st_highest a = st_highest a0.
Definition sys_inv (s : Sys) : Prop :=
  ∃ a, sim (sy_storage s) a ∧ Forall2 (place_inv a) ranges (sy_jobs s) ∧ store_inv a.

Lemma elem_of_range i min max : i ∈ range min max ↔ min ≤ i < max.
Proof. unfold range. rewrite elem_of_seqZ. lia. Qed.
Lemma range_heights k r : ranges !! k = Some r → Forall height (range r.1 r.2).
Proof.
  intros Hk. destruct (ranges_heights Hranges k r Hk) as [Hr Hh]. apply Forall_forall.
  intros i Hi%elem_of_range. unfold height, in_range in *. lia.
Qed.

(** A job only depends on its heights. *)
Lemma task_inv_frame a a' r w :
  (∀ i, r.1 ≤ i < r.2 → stored a' i = stored a i) → task_inv a r w → task_inv a' r w.
Proof.
  intros Hsame. destruct w as [min max blocks|min max|min max|]; simpl; [..|done].
  - intros [<- Hb]. split; [done|]. unfold absent in *. simpl in Hsame.
    rewrite (list_filter_iff' _ (λ i, stored a i = None)); [done|]. intros i Hi%elem_of_range. by rewrite Hsame.
  - intros [<- Hb]. split; [done|]. intros i Hi. rewrite Hsame; auto.
  - intros (<- & Hb & Hl). split_and!; [done|..].
    + intros i Hi. rewrite Hsame; auto.
    + intros i Hi Hi'. destruct (Hl i Hi Hi') as (p & c & Hp & Hc & Hpc). exists p, c.
      simpl in Hsame. rewrite !Hsame by lia. done.
Qed.
Lemma place_inv_frame a a' r p :
  (∀ i, r.1 ≤ i < r.2 → stored a' i = stored a i) → place_inv a r p → place_inv a' r p.
Proof.
  intros Hsame. destruct p; simpl; try done; try by apply task_inv_frame.
  all: intros [? ?]; first [split; [by eapply task_inv_frame|done] | split; [done|by eapply task_inv_frame]].
Qed.

Lemma missing_absent a l :
  missing (zip l ((λ n, st_blocks a !! (chain_id, n)) <$> l)) = filter (λ i, stored a i = None) l.
Proof.
  induction l as [|i l IH]; [done|]. rewrite filter_cons, <-IH. cbn [fmap list_fmap zip zip_with].
  unfold missing. rewrite omap_cons_eq. cbn [fst snd].
  destruct (decide (stored a i = None)) as [Hi|Hi]; unfold stored in Hi; [by rewrite Hi|].
  by destruct (st_blocks a !! (chain_id, i)).
Qed.
Lemma fetch_inv k r st a w :
  ranges !! k = Some r → sim st a → fetch chain_id client (FetchBlocks r.1 r.2) st = Ok w →
  task_inv a r w ∧ is_final_task w = false.
Proof.
  intros Hk Hsim. unfold fetch. rewrite (sim_get_range st a) by eauto using range_heights.
  cbn [mbind outcome_bind]. rewrite missing_absent.
  destruct (try_collect _ _) as [blocks| |] eqn:Hb; [|done..]. intros [= <-].
  split; [split; [by destruct r|]|done]. apply try_collect_ok in Hb.
  eapply Forall2_impl; [exact Hb|]. intros i fb Hfb. simpl in Hfb.
  destruct (fetch_block_hash client i) as [h| |] eqn:Hh; [|done..]. by exists h.
Qed.

(** What extraction inserts: the absent blocks, each at its height. *)
Lemma insert_all_lookup l m i :
  NoDup l.*1 → insert_all chain_id l m !! (chain_id, i) =
  match list_find (λ nb, nb.1 = i) l with Some (_, nb) => Some nb.2 | None => m !! (chain_id, i) end.
Proof.
  unfold insert_all. revert m. induction l as [|[n b] l IH]; intros m Hnd; [done|]. simpl.
  apply NoDup_cons in Hnd as [Hn Hnd]. rewrite IH by done. case_decide as Hni; simpl.
  - subst n. destruct (list_find _ l) as [[j nb]|] eqn:Hf; simpl.
    + apply list_find_Some in Hf as (Hj & <- & _). destruct Hn. apply list_elem_of_fmap.
      exists nb. split; [done|]. by eapply list_elem_of_lookup_2.
    + by rewrite lookup_insert_eq.
  - destruct (list_find _ l) as [[j nb]|]; simpl; [done|]. rewrite lookup_insert_ne; [done|congruence].
Qed.

Lemma absent_NoDup a min max : NoDup (absent a min max).
Proof. apply NoDup_filter, NoDup_seqZ. Qed.

Lemma extract_inserts a min max blocks l :
  Forall2 fetched (absent a min max) blocks →
  try_collect (λ b, d ← extract_data b; mret (bl_number (fb_block b), d)) blocks = Ok l →
  l.*1 = absent a min max ∧ Forall (λ nb, good nb.1 nb.2 ∧ storable nb.2) l.
Proof.
  intros Hb Hl%try_collect_ok. revert l Hl. generalize (absent a min max) Hb. clear Hb.
  intros ns Hb. induction Hb as [|i fb ns blocks [Hi Hd]%Hnode _ IH]; intros l Hl.
  { apply Forall2_nil_inv_l in Hl as ->. by split. }
  apply Forall2_cons_inv_l in Hl as (nb & l' & Hnb & Hl & ->).
  destruct (extract_data fb) as [d| |] eqn:Hfb; [|done..]. injection Hnb as <-.
  destruct (IH l' Hl) as [Hks Hall]. rewrite fmap_cons, Hks. cbn [fst snd]. split; [by rewrite Hi|].
  apply Forall_cons. split; [|done]. cbn [fst snd]. rewrite Hi. by apply Hd.
Qed.

Lemma inserted_lookup a min max l i :
  l.*1 = absent a min max →
  (stored (set_blocks (insert_all chain_id l) a) i = stored a i ∧ (is_Some (stored a i) ∨ ¬ (min ≤ i < max))) ∨
  (stored a i = None ∧ min ≤ i < max ∧
   ∃ b, (i, b) ∈ l ∧ stored (set_blocks (insert_all chain_id l) a) i = Some b).
Proof.
  intros Hl.
  assert (stored (set_blocks (insert_all chain_id l) a) i =
    match list_find (λ nb, nb.1 = i) l with Some (_, nb) => Some nb.2 | None => stored a i end) as ->.
  { unfold stored. cbn [st_blocks set_blocks]. apply insert_all_lookup. rewrite Hl. apply absent_NoDup. }
  destruct (list_find (λ nb, nb.1 = i) l) as [[j [n b]]|] eqn:Hf.
  - right. apply list_find_Some in Hf as (Hj & Hn & _). simpl in Hn. subst n.
    apply list_elem_of_lookup_2 in Hj.
    assert (i ∈ absent a min max) as [Hnone Hr%elem_of_range]%list_elem_of_filter.
    { rewrite <-Hl. apply list_elem_of_fmap. by exists (i, b). }
    split; [done|]. split; [done|]. eauto.
  - left. split; [done|]. destruct (decide (stored a i = None)) as [Hnone|Hsome].
    2:{ left. by apply not_eq_None_Some. }
    right. intros Hi. apply list_find_None in Hf.
    assert (i ∈ l.*1) as (nb & -> & Hnb)%list_elem_of_fmap.
    { rewrite Hl. apply list_elem_of_filter. split; [done|]. by apply elem_of_range. }
    by eapply Forall_forall in Hf.
Qed.

Lemma work_extract_inv k min max blocks st a res st' :
  ranges !! k = Some (min, max) → sim st a → store_inv a → task_inv a (min, max) (ExtractBlockData min max blocks) →
  work chain_id (ExtractBlockData min max blocks) st = (res, st') →
  ∃ a', sim st' a' ∧ store_inv a' ∧ (∀ i, ¬ (min ≤ i < max) → stored a' i = stored a i) ∧
    ∀ w, res = Ok w → task_inv a' (min, max) w.
Proof.
  intros Hk Hsim (Hgood & Hold & Hhigh) [_ Hb]. cbn [work]. unfold mbind, M_bind, lift, mret, M_ret.
  destruct (try_collect _ blocks) as [l| |] eqn:Hl.
  2,3: intros [= <- <-]; exists a; split_and!; done.
  destruct (extract_inserts a min max blocks l Hb Hl) as [Hkeys Hall].
  destruct (sim_insert_range (E := ComputeError) st a chain_id l Hsim Hchain) as (s1 & -> & Hsim1).
  { apply Forall_forall. intros nb Hnb. split; [|by eapply Forall_forall in Hall as [_ ?]].
    assert (nb.1 ∈ absent a min max) as [_ Hr]%list_elem_of_filter.
    { rewrite <-Hkeys. by apply list_elem_of_fmap_2. }
    pose proof (range_heights k _ Hk) as Hh. by eapply Forall_forall in Hh. }
  intros [= <- <-]. eexists. split; [exact Hsim1|].
  pose proof (λ i, inserted_lookup a min max l i Hkeys) as Hlook.
  split; [split; [|split]|split].
  - intros i b Hi. destruct (Hlook i) as [[Heq _]|(_ & _ & b' & Hin & Heq)]; rewrite Heq in Hi; [auto|].
    injection Hi as ->. eapply Forall_forall in Hall; [|exact Hin]. apply Hall.
  - intros i b Hi%Hold. destruct (Hlook i) as [[-> _]|(Hnone & _)]; [done|congruence].
  - done.
  - intros i Hi. destruct (Hlook i) as [[-> _]|(_ & Hi' & _)]; done.
  - intros w [= <-]. split; [done|]. intros i Hi.
    destruct (Hlook i) as [[-> [?|?]]|(_ & _ & b & _ & ->)]; [done|done|eauto].
Qed.

Lemma first_failing_pair_None bs :
  first_failing_pair bs = None ↔
  ∀ j p c, bs !! j = Some p → bs !! (j + 1)%nat = Some c → rb_hash p = rb_parent_hash c.
Proof.
  unfold first_failing_pair. rewrite head_None. split.
  - intros Hnil j p c Hp Hc.
    assert ((p, c) ∈ zip bs (tail bs)) as Hin.
    { apply list_elem_of_lookup. exists j. apply lookup_zip_with_Some. exists p, c. split_and!; [done..|].
      rewrite lookup_tail. by rewrite <-Hc, Nat.add_1_r. }
    destruct (decide (rb_hash p = rb_parent_hash c)) as [|Hne]; [done|].
    assert (c ∈ omap (λ pc, if bool_decide (rb_hash pc.1 = rb_parent_hash pc.2) then None else Some pc.2)
      (zip bs (tail bs))) as Hx.
    { apply list_elem_of_omap. exists (p, c). split; [done|]. simpl. by rewrite bool_decide_false. }
    rewrite Hnil in Hx. by apply elem_of_nil in Hx.
  - intros Hall. apply elem_of_nil_inv. intros c ([p c'] & Hin & Hpc)%list_elem_of_omap. simpl in Hpc.
    apply list_elem_of_lookup in Hin as [j Hj].
    apply lookup_zip_with_Some in Hj as (p' & c'' & [= <- <-] & Hp & Hc).
    rewrite lookup_tail in Hc. rewrite bool_decide_true in Hpc; [done|].
    apply (Hall j); [done|]. by rewrite Nat.add_1_r.
Qed.

(** The blocks of a range that is stored completely. *)
Lemma stored_list a (l : list Z) :
  (∀ i, i ∈ l → is_Some (stored a i)) → ∃ bs : list RawBlockData, (λ n, st_blocks a !! (chain_id, n)) <$> l = Some <$> bs.
Proof.
  induction l as [|i l IH]; intros Hl; [by exists []|].
  destruct IH as [bs Hbs]; [intros j Hj; apply Hl; by right|].
  destruct (Hl i) as [b Hb]; [left|]. exists (b :: bs). rewrite !fmap_cons. f_equal; done.
Qed.
Lemma stored_list_lookup a min max (bs : list RawBlockData) i b :
  (λ n, st_blocks a !! (chain_id, n)) <$> range min max = Some <$> bs →
  bs !! i = Some b ↔ stored a (min + Z.of_nat i) = Some b ∧ min + Z.of_nat i < max.
Proof.
  intros Hbs. assert (Some <$> (bs !! i) = (λ n, st_blocks a !! (chain_id, n)) <$> (range min max !! i)) as Heq.
  { by rewrite <-!list_lookup_fmap, Hbs. }
  unfold range in Heq. destruct (decide (Z.of_nat i < max - min)) as [Hi|Hi].
  - rewrite lookup_seqZ_lt in Heq by lia. unfold stored. destruct (bs !! i); simpl in Heq; simplify_eq.
    rewrite <-Heq. split; [intros [= ->]; split; [done|lia]|]. by intros [[= ->] _].
  - rewrite lookup_seqZ_ge in Heq by lia. destruct (bs !! i); simplify_eq. split; [done|lia].
Qed.
Lemma zip_unwrap (l : list Z) (bs : list RawBlockData) :
  length l = length bs →
  try_collect (λ ib, ok_or ib.2 (BlockMissing ib.1)) (zip l (Some <$> bs)) = (Ok bs : outcome ComputeError _).
Proof.
  revert l. induction bs as [|b bs IH]; intros [|i l] Hl; simpl; [done..|]. by rewrite IH by (by injection Hl).
Qed.

Lemma work_verify k min max st a :
  ranges !! k = Some (min, max) → sim st a → (∀ i, min ≤ i < max → is_Some (stored a i)) →
  ∃ r, work chain_id (Verify min max) st = (r, st) ∧
    (∀ w, r = Ok w → w = FinalVerify min max ∧ ∀ i, min ≤ i → i + 1 < max → linked a i) ∧
    ((∀ i, min ≤ i → i + 1 < max → linked a i) → r = Ok (FinalVerify min max)).
Proof.
  intros Hk Hsim Hall. cbn [work]. unfold mbind, M_bind, lift, gets, mret, M_ret, throw.
  rewrite (sim_get_range st a) by (try done; exact (range_heights k _ Hk)).
  destruct (stored_list a (range min max)) as [bs Hbs]; [by intros i Hi%elem_of_range; apply Hall|].
  rewrite Hbs, zip_unwrap by (by rewrite <-(length_fmap (λ n, st_blocks a !! (chain_id, n))), Hbs, length_fmap).
  pose proof (λ i b, stored_list_lookup a min max bs i b Hbs) as Hlook.
  exists (match first_failing_pair bs with
          | Some child => Err (ChildBlockVerificationFailed (rb_number child))
          | None => Ok (FinalVerify min max)
          end).
  split; [by destruct (first_failing_pair bs)|]. split.
  - destruct (first_failing_pair bs) eqn:Hf; [done|]. intros w [= <-]. split; [done|]. intros i Hi Hi'.
    destruct (Hall i) as [p Hp]; [lia|]. destruct (Hall (i + 1)) as [c Hc]; [lia|]. exists p, c. split_and!; [done..|].
    symmetry. apply (proj1 (first_failing_pair_None bs) Hf (Z.to_nat (i - min))); apply Hlook.
    + rewrite Z2Nat.id by lia. replace (min + (i - min)) with i by lia. split; [done|lia].
    + rewrite Nat2Z.inj_add, Z2Nat.id by lia. replace (min + (i - min + Z.of_nat 1)) with (i + 1) by lia.
      split; [done|lia].
  - intros Hlinks. enough (first_failing_pair bs = None) as -> by done.
    apply first_failing_pair_None. intros j p c [Hp Hj]%Hlook [Hc Hj']%Hlook.
    destruct (Hlinks (min + Z.of_nat j)) as (p' & c' & Hp' & Hc' & Heq); [lia|lia|].
    replace (min + Z.of_nat (j + 1)) with (min + Z.of_nat j + 1) in Hc by lia. congruence.
Qed.

(** One job moves; what it stores does not concern the others. *)
Lemma jobs_replace (P : Z * Z → Place → Prop) l1 x l2 :
  Forall2 P ranges (l1 ++ x :: l2) →
  ∃ k r, ranges !! k = Some r ∧ P r x ∧
    ∀ (Q : Z * Z → Place → Prop) y, Q r y → (∀ k' r' p, k' ≠ k → ranges !! k' = Some r' → P r' p → Q r' p) → Forall2 Q ranges (l1 ++ y :: l2).
Proof.
  intros Hall. rewrite Forall2_lookup in Hall. set (k := length l1).
  pose proof (Hall k) as Hk. unfold k in Hk. rewrite list_lookup_middle in Hk by done. fold k in Hk.
  destruct (ranges !! k) as [r|] eqn:Hr; [|inversion Hk]. inversion_clear Hk as [? ? HP|].
  exists k, r. split_and!; [done..|]. intros Q y HQ Hothers. rewrite Forall2_lookup. intros i.
  destruct (decide (i = k)) as [->|Hi].
  - rewrite Hr. unfold k. rewrite list_lookup_middle by done. by constructor.
  - assert ((l1 ++ y :: l2) !! i = (l1 ++ x :: l2) !! i) as ->.
    { destruct (decide (i < k)%nat) as [Hlt|Hge].
      - by rewrite !lookup_app_l.
      - rewrite !lookup_app_r by (unfold k in *; lia). fold k.
        destruct (i - k)%nat eqn:Hik; [lia|done]. }
    specialize (Hall i). inversion Hall as [r' p HP' Hr' Hp|]; constructor. by eapply Hothers.
Qed.

(** What a compute worker does. *)
Lemma work_inv k r w st a res st' :
  ranges !! k = Some r → sim st a → store_inv a → task_inv a r w → is_final_task w = false →
  work chain_id w st = (res, st') →
  ∃ a', sim st' a' ∧ store_inv a' ∧ (∀ i, ¬ (r.1 ≤ i < r.2) → stored a' i = stored a i) ∧
    ∀ w', res = Ok w' → task_inv a' r w'.
Proof.
  intros Hk Hsim Hst Hw Hfin Hres. destruct w as [min max blocks|min max| |]; [..|done|done].
  - destruct Hw as [<- Hb]. by eapply work_extract_inv.
  - destruct Hw as [<- Hall]. destruct (work_verify k min max st a Hk Hsim Hall) as (r & Hr & Hok & _).
    rewrite Hr in Hres. injection Hres as <- <-. exists a. split_and!; [done..|].
    intros w' [-> Hlinks]%Hok. done.
Qed.

Notation sys_step := (fetch_step chain_id client num_workers num_compute_workers jobs_expected).
Lemma step_inv s s' : sys_inv s → sys_step s s' → sys_inv s'.
Proof.
  intros (a & Hsim & Hjobs & Hst) Hstep.
  (** moves that keep the storage *)
  assert (∀ l1 x l2 y, sy_jobs s = l1 ++ x :: l2 → sy_jobs s' = l1 ++ y :: l2 →
    sy_storage s' = sy_storage s → (∀ k r, ranges !! k = Some r → place_inv a r x → place_inv a r y) → sys_inv s') as Hmove.
  { intros l1 x l2 y Hx Hy Hs Hxy. exists a. rewrite Hs. split_and!; [done| |done]. rewrite Hx in Hjobs. rewrite Hy.
    destruct (jobs_replace _ _ _ _ Hjobs) as (k & r & Hk & HP & Hnew). apply Hnew; [|done]. by eapply Hxy. }
  (** work on a task *)
  assert (∀ l1 w l2 y res, sy_jobs s = l1 ++ Computing w :: l2 → sy_jobs s' = l1 ++ y :: l2 →
    work chain_id w (sy_storage s) = (res, sy_storage s') →
    y = match res with Ok w' => Computed w' | _ => Lost end → sys_inv s') as Hwork.
  { intros l1 w l2 y res Hx Hy Hres ->. rewrite Hx in Hjobs.
    destruct (jobs_replace _ _ _ _ Hjobs) as (k & r & Hk & [HP Hfin] & Hnew).
    destruct (work_inv k r w _ a res _ Hk Hsim Hst HP Hfin Hres) as (a' & Hsim' & Hst' & Hsame & Hok).
    exists a'. split_and!; [done| |done]. rewrite Hy. apply Hnew.
    - destruct res; simpl; auto.
    - intros k' r' p Hne Hk' Hp. eapply place_inv_frame; [|done]. intros i Hi. apply Hsame. intros Hi'.
      apply Hne. by eapply ranges_disjoint. }
  inversion Hstep as [| | | |st l1 t w l2 ? ? ? ? ? ? Hw| | | | | |st l1 w w' st' l2 ? ? ? ? ? ? Hw
    |st l1 w x st' l2 ? ? ? ? ? ? Hw|st l1 w st' l2 ? ? ? ? ? ? Hw| | | | |]; subst; cbn [sy_storage sy_jobs] in *.
  all: try (by eapply Hmove; [done..|]; simpl; try done; intros k r _ ?; done).
  all: try (by exists a).
  all: try (by eapply Hwork; [done|done|exact Hw|done]).
  - eapply Hmove; [done..|]. simpl. intros k r Hk ->. exact (fetch_inv k r _ a _ Hk Hsim Hw).
  - eapply Hmove; [done..|]. simpl. intros k r _ (Hr & Hall & Hlinks). simplify_eq/=. done.
  - eapply Hmove; [done..|]. simpl. intros k r _ Hw. split; [done|]. by destruct w.
Qed.

Lemma steps_inv s s' : rtc sys_step s s' → sys_inv s → sys_inv s'.
Proof. induction 1; eauto using step_inv. Qed.

(** The checks at the ends of a job. *)
Definition ends_ok (a : Store) (r : Z * Z) : Prop :=
  (r.1 = 0 → ∃ g, stored a 0 = Some g ∧ rb_parent_hash g = zero_hash) ∧
  (∀ p c, stored a (r.2 - 1) = Some p → stored a r.2 = Some c → rb_parent_hash c = rb_hash p).
Lemma work_final k r st a :
  ranges !! k = Some r → sim st a →
  ∃ res, work chain_id (FinalVerify r.1 r.2) st = (res, st) ∧
    (∀ w, res = Ok w → ends_ok a r) ∧ (ends_ok a r → res = Ok Compute_NoOp).
Proof.
  intros Hk Hsim. destruct (ranges_heights Hranges k r Hk) as [Hr Hh]. unfold height, in_range in Hh.
  cbn [work]. unfold mbind, M_bind, lift, gets, ensure, throw, mret, M_ret.
  rewrite (sim_get st a) by (try done; unfold height, in_range; lia).
  rewrite (sim_get_range st a) by (try done; repeat constructor; unfold height, in_range; lia).
  cbn [fmap list_fmap]. unfold ends_ok, stored.
  destruct (st_blocks a !! (chain_id, r.2 - 1)) as [p|], (st_blocks a !! (chain_id, r.2)) as [c|];
    repeat case_bool_decide; try destruct (st_blocks a !! (chain_id, 0)) as [g|]; cbn [ok_or];
    repeat case_bool_decide; (eexists; split; [done|]); naive_solver.
Qed.

Lemma count_all f (l : list Place) : (length l ≤ count f l)%nat → Forall (λ p, f p = true) l.
Proof.
  unfold count. induction l as [|p l IH]; [done|]. rewrite filter_cons. simpl.
  pose proof (length_filter f l). destruct (decide (f p)) as [Hp|Hp]; simpl; intros Hle; [|lia].
  constructor; [by apply Is_true_true|]. apply IH. lia.
Qed.

(** When as many jobs were received as there are, each was. *)
Lemma all_received a l :
  Forall2 (place_inv a) ranges l → Z.of_nat (length ranges) ≤ Z.of_nat (count is_received l) →
  omap (λ p, match p with Received w => Some w | _ => None end) l = (λ r, FinalVerify r.1 r.2) <$> ranges ∧
  ∀ k r, ranges !! k = Some r → task_inv a r (FinalVerify r.1 r.2).
Proof.
  intros Hl Hc. rewrite (Forall2_length _ _ _ Hl) in Hc.
  pose proof (count_all is_received l ltac:(lia)) as Hrec. clear Hc Hranges.
  induction Hl as [|r p rs l Hrp Hl IH]; [done|].
  apply Forall_cons in Hrec as [Hp Hrec]. destruct p; try done. destruct Hrp as [-> Hw].
  destruct (IH Hrec) as [IHl IHt]. split.
  - rewrite omap_cons_eq. by rewrite IHl.
  - intros [|k] r'; simpl; [intros [= <-]; done|apply IHt].
Qed.

(** Checks that only read. *)
Lemma for_each_reads {E A : Type} (f : A → M S E unit) (P : A → Prop) l st :
  (∀ x, x ∈ l → ∃ res, f x st = (res, st) ∧ (res = Ok tt ↔ P x)) →
  ∃ res, for_each l f st = (res, st) ∧ (res = Ok tt ↔ Forall P l).
Proof.
  induction l as [|x l IH]; intros Hf; [by exists (Ok tt)|].
  destruct (Hf x) as (rx & Hx & HP); [left|].
  destruct IH as (rl & Hl & HPl); [intros y Hy; apply Hf; by right|].
  cbn [for_each]. unfold mbind, M_bind. rewrite Hx. pose proof (Forall_cons P x l) as Hcons.
  destruct rx as [[]| |]; rewrite ?Hl; (eexists; split; [done|]); naive_solver.
Qed.

(** What is on record up to a height is a chain. *)
Definition verified (a : Store) (h : Z) : Prop :=
  (∀ i, 0 ≤ i ≤ h → is_Some (stored a i)) ∧ (∀ i, 0 ≤ i < h → linked a i) ∧
  ∃ g, stored a 0 = Some g ∧ rb_parent_hash g = zero_hash.
Definition store_ok (a : Store) : Prop :=
  (∀ i b, stored a i = Some b → good i b) ∧
  ∀ h, st_highest a !! chain_id = Some h → height h ∧ verified a h.
Lemma verified_mono a a' h :
  (∀ i b, stored a i = Some b → stored a' i = Some b) → verified a h → verified a' h.
Proof.
  intros Hm (Hs & Hl & g & Hg & Hz). split_and!; [|intros i Hi|by eauto].
  - intros i [b Hb%Hm]%Hs. by eexists.
  - destruct (Hl i Hi) as (p & c & Hp%Hm & Hc%Hm & Hpc). by exists p, c.
Qed.

Lemma ranges_verified a lo h :
  0 ≤ h → (∀ i, lo ≤ i ≤ h → ∃ k r, ranges !! k = Some r ∧ r.1 ≤ i < r.2) → lo = 0 ∨ verified a lo →
  (∀ k r, ranges !! k = Some r → task_inv a r (FinalVerify r.1 r.2)) → Forall (ends_ok a) ranges → verified a h.
Proof.
  intros Hh Hcover Hlo Hinv Hends.
  assert (∀ k r, ranges !! k = Some r → ends_ok a r) as Hends'.
  { intros k r Hk. eapply Forall_lookup_1; done. }
  assert (∀ i, 0 ≤ i ≤ h → is_Some (stored a i)) as Hsome.
  { intros i Hi. destruct (decide (lo ≤ i)) as [Hge|Hlt].
    - destruct (Hcover i) as (k & r & Hk & Hr); [lia|]. by apply (Hinv k r Hk).
    - destruct Hlo as [->|(Hs & _)]; [lia|]. apply Hs. lia. }
  split_and!; [done|intros i Hi|].
  - destruct (decide (lo ≤ i)) as [Hge|Hlt].
    + destruct (Hcover i) as (k & r & Hk & Hr); [lia|].
      destruct (decide (i + 1 < r.2)) as [Hin|Hout].
      { destruct (Hinv k r Hk) as (_ & _ & Hl). apply Hl; lia. }
      destruct (Hsome i) as [p Hp]; [lia|]. destruct (Hsome (i + 1)) as [c Hc]; [lia|]. exists p, c.
      split_and!; [done..|]. apply (Hends' k r Hk).
      * by replace (r.2 - 1) with i by lia.
      * by replace r.2 with (i + 1) by lia.
    + destruct Hlo as [->|(_ & Hl & _)]; [lia|]. apply Hl. lia.
  - destruct Hlo as [->|(_ & _ & Hg)]; [|done]. destruct (Hcover 0) as (k & r & Hk & Hr); [lia|].
    destruct (ranges_heights Hranges k r Hk) as [Hr' _]. apply (Hends' k r Hk). lia.
Qed.

Lemma finish_checks jobs st a :
  sim st a → jobs ≡ₚ (λ r, FinalVerify r.1 r.2) <$> ranges →
  ∃ res, for_each jobs (λ job, with_err ComputeTaskError (work chain_id job) ;; mret tt) st = (res, st) ∧
    (res = Ok tt ↔ Forall (ends_ok a) ranges).
Proof.
  intros Hsim Hjobs.
  destruct (for_each_reads (λ job, with_err ComputeTaskError (work chain_id job) ;; mret tt)
    (λ job, ∀ r, job = FinalVerify r.1 r.2 → ends_ok a r) jobs st) as (res & Hres & Hiff).
  - intros job Hjob. rewrite Hjobs in Hjob. apply list_elem_of_fmap in Hjob as (r & -> & Hr).
    apply list_elem_of_lookup in Hr as [k Hk]. destruct (work_final k r st a Hk Hsim) as (wr & Hwr & Hok & Hends).
    unfold mbind, M_bind, with_err. rewrite Hwr. exists (match wr with Ok _ => Ok tt | Err e => Err (ComputeTaskError e) | Panic => Panic end).
    split; [by destruct wr|]. split.
    + destruct wr as [w| |]; [|done..]. intros _ r' [= Hm HM]. destruct r, r'; simpl in *; subst. by eapply Hok.
    + intros HP. by rewrite Hends by (by apply HP).
  - exists res. split; [done|]. rewrite Hiff, Hjobs. rewrite Forall_fmap. apply Forall_iff. intros r. simpl.
    split; [intros HP; by apply HP|]. intros Hr r' [= Hm HM]. destruct r, r'; simpl in *; by subst.
Qed.

Lemma try_collect_unwrap {E : Type} (bs : list RawBlockData) : try_collect (E := E) unwrap (Some <$> bs) = Ok bs.
Proof. induction bs as [|b bs IH]; [done|]. cbn [fmap list_fmap try_collect unwrap]. by rewrite IH. Qed.
Lemma read_verified {E : Type} st a h :
  sim st a → st_highest a !! chain_id = Some h → 0 ≤ h → height (h + 1) → verified a h →
  ∃ bs, (λ n, st_blocks a !! (chain_id, n)) <$> range 0 (h + 1) = Some <$> bs ∧
    read_blocks_from_cache (E := E) chain_id st = Ok (fix_last_block_times bs).
Proof.
  intros Hsim Hhigh H0 Hh (Hsome & _). unfold height, in_range in Hh.
  destruct (stored_list a (range 0 (h + 1))) as [bs Hbs].
  { intros i Hi%elem_of_range. apply Hsome. lia. }
  exists bs. split; [done|]. unfold read_blocks_from_cache. rewrite (sim_get_highest st a) by done. rewrite Hhigh.
  change (default 0 (Some h)) with h. rewrite (sim_get_range st a).
  2,3: try done. 2:{ apply Forall_forall. intros i Hi%elem_of_range. unfold height, in_range. lia. }
  rewrite Hbs. unfold mbind, outcome_bind.
  by rewrite try_collect_unwrap.
Qed.

Lemma finish_spec jobs st a :
  sim st a → 0 ≤ finalized_height → height (finalized_height + 1) → jobs ≡ₚ (λ r, FinalVerify r.1 r.2) <$> ranges →
  (Forall (ends_ok a) ranges → verified a finalized_height) →
  (∃ e, finish chain_id finalized_height jobs st = (e, st) ∧ (∀ bs, e ≠ Ok bs) ∧ ¬ Forall (ends_ok a) ranges) ∨
  (Forall (ends_ok a) ranges ∧ ∃ st' bs, let a' := set_highest <[chain_id := finalized_height]> a in
    sim st' a' ∧ (λ n, st_blocks a !! (chain_id, n)) <$> range 0 (finalized_height + 1) = Some <$> bs ∧
    finish chain_id finalized_height jobs st = (Ok (fix_last_block_times bs), st')).
Proof.
  intros Hsim H0 Hh Hjobs Hver. destruct (finish_checks jobs st a Hsim Hjobs) as (res & Hres & Hiff).
  unfold finish. unfold mbind, M_bind, gets, lift. unfold mbind, M_bind in Hres. rewrite Hres. destruct res as [[]| |].
  2,3: left; eexists; split; [done|]; split; [done|]; intros Hall%Hiff; done.
  right. pose proof (proj1 Hiff eq_refl) as Hends. split; [done|].
  assert (height finalized_height) as HF by (unfold height, in_range in *; lia).
  destruct (sim_set_highest (E := FetchError) st a chain_id finalized_height Hsim Hchain HF) as (st' & Hset & Hsim').
  rewrite Hset.
  destruct (read_verified (E := FetchError) st' _ finalized_height Hsim') as (bs & Hbs & Hread); [|done..|by apply Hver|].
  { cbn. by rewrite lookup_insert_eq. }
  exists st', bs. split_and!; [done..|]. by rewrite Hread.
Qed.
End Correctness.

(** ** Runs *)

Section RunCorrectness.
Context `{!Subxt} {S : Type} `{!FetchStorage S} `{!StorageRefines S}.
Context (chain_id : list Z) (client : Node) (num_workers num_compute_workers : nat) (finalized_height : Z).
Context (good : Z → RawBlockData → Prop) (st : S) (a0 : Store).
Context (Hchain : h256 chain_id) (Hnode : node_ok client good) (Hsim : sim st a0) (Hstore : store_ok chain_id good a0).
Context (Hfinal : 0 ≤ finalized_height) (Hheight : height (finalized_height + 1)).
Context (Hmin : min_height_of chain_id st ≤ finalized_height + 1).

Notation lowest := (min_height_of chain_id st).
Definition run_ranges : list (Z * Z) :=
  job_ranges lowest (finalized_height + 1) (job_size num_workers chain_id finalized_height st).

Lemma lowest_verified : 0 ≤ lowest ∧ (lowest = 0 ∨ verified chain_id a0 lowest).
Proof.
  unfold min_height_of. rewrite (sim_get_highest st a0) by done.
  destruct (st_highest a0 !! chain_id) as [h|] eqn:Hh; simpl; [|split; [lia|by left]].
  destruct Hstore as [_ Hok]. destruct (Hok h Hh) as [Hin Hver]. unfold height, in_range in Hin.
  split; [lia|by right].
Qed.
Lemma run_ranges_ok : ranges_ok run_ranges.
Proof.
  pose proof (blocks_per_job_pos (difference_of chain_id finalized_height st) (Z.of_nat num_workers)) as Hpos.
  destruct lowest_verified as [Hl _]. unfold run_ranges, job_size. split.
  - intros k k' [m M] [m' M'] i Hk Hk' Hi Hi'. eapply job_ranges_disjoint; [exact Hpos|exact Hmin|exact Hk|exact Hk'|done|done].
  - intros k [m M] Hk. apply job_ranges_in in Hk as [Hm HM]; [|done..]. simpl.
    unfold height, in_range in *. lia.
Qed.
Lemma run_ranges_length : Z.of_nat (length run_ranges) = jobs_of num_workers chain_id finalized_height st.
Proof.
  unfold run_ranges, jobs_of. apply job_ranges_length; [apply blocks_per_job_pos|done].
Qed.
Lemma start_inv : sys_inv chain_id client good run_ranges a0 (start num_workers num_compute_workers chain_id finalized_height st).
Proof.
  exists a0. split_and!; [done| |]; simpl.
  - rewrite job_list_ranges, <-list_fmap_compose. apply Forall2_fmap_r.
    apply Forall_Forall2_diag, Forall_forall. done.
  - split_and!; [by apply Hstore|done|done].
Qed.

Lemma run_verified a :
  (∀ i b, stored chain_id a0 i = Some b → stored chain_id a i = Some b) →
  (∀ k r, run_ranges !! k = Some r → task_inv chain_id client a r (FinalVerify r.1 r.2)) →
  Forall (ends_ok chain_id a) run_ranges → verified chain_id a finalized_height.
Proof.
  intros Hold Htasks Hends. apply (ranges_verified _ client run_ranges run_ranges_ok a lowest); try done.
  - intros i Hi. destruct (job_ranges_cover lowest (finalized_height + 1)
      (job_size num_workers chain_id finalized_height st) (blocks_per_job_pos _ _) Hmin i) as (k & m & M & Hk & Hi'); [lia|].
    by exists k, (m, M).
  - destruct lowest_verified as [_ [?|Hver]]; [by left|right]. by eapply verified_mono.
Qed.

(** What a run leaves behind, and what it returns. *)
Lemma run_spec s r st' :
  rtc (fetch_step chain_id client num_workers num_compute_workers (jobs_of num_workers chain_id finalized_height st))
    (start num_workers num_compute_workers chain_id finalized_height st) s →
  returns chain_id num_workers finalized_height (jobs_of num_workers chain_id finalized_height st) s r st' →
  ∃ a', sim st' a' ∧ store_ok chain_id good a' ∧
    (∀ i b, stored chain_id a0 i = Some b → stored chain_id a' i = Some b) ∧
    ∀ blocks, r = Ok blocks → st_highest a' !! chain_id = Some finalized_height ∧
      ∃ bs, (λ n, st_blocks a' !! (chain_id, n)) <$> range 0 (finalized_height + 1) = Some <$> bs ∧
        blocks = fix_last_block_times bs.
Proof.
  intros Hsteps Hret.
  assert (sys_inv chain_id client good run_ranges a0 s) as (a & Hs & Hjobs & Hgood & Hold & Hhigh).
  { eapply steps_inv; [done|exact run_ranges_ok|done|done|exact start_inv]. }
  assert (store_ok chain_id good a) as Hok.
  { split; [done|]. rewrite Hhigh. intros h Hh. destruct Hstore as [_ Hok]. destruct (Hok h Hh) as [? Hver].
    split; [done|]. by eapply verified_mono. }
  inversion Hret as [| |st1 l c i e ci j f jobs r1 st1' Hmore Hperm Hfin]; subst; cbn [sy_storage sy_jobs] in *.
  1,2: by exists a.
  destruct (all_received chain_id client run_ranges a l Hjobs) as [Hrec Htasks].
  { rewrite run_ranges_length. lia. }
  rewrite Hrec in Hperm.
  destruct (finish_spec chain_id finalized_height run_ranges Hchain run_ranges_ok jobs st1 a)
    as [(e' & He & Hne & _)|(Hends & st2 & bs & Hs2 & Hbs & Hfin2)]; try done.
  - by apply run_verified.
  - rewrite He in Hfin. injection Hfin as <- <-. exists a. split_and!; [done..|]. intros blocks ->. by destruct (Hne blocks).
  - rewrite Hfin2 in Hfin. injection Hfin as <- <-. eexists. split; [exact Hs2|]. split_and!; [|done|].
    + split; [done|]. intros h. cbn. rewrite lookup_insert_eq. intros [= <-]. split; [unfold height, in_range in *; lia|].
      change (verified chain_id a finalized_height). by apply run_verified.
    + intros blocks [= <-]. split; [cbn; by rewrite lookup_insert_eq|]. by exists bs.
Qed.
End RunCorrectness.

(** ** What is returned *)

Lemma fix_times_lookup t bs i b :
  fix_times t bs !! i = Some b ↔
  ∃ b0, bs !! i = Some b0 ∧
    b = set_last_block_time (match i with O => t | Datatypes.S j => default 0 (rb_tblock_secs <$> bs !! j) end) b0.
Proof.
  revert t i. induction bs as [|b1 bs IH]; intros t i; simpl.
  { rewrite !lookup_nil. split; [done|]. by intros (? & ? & _). }
  destruct i as [|i]; simpl.
  - split; [intros [= <-]; eauto|]. by intros (b0 & [= ->] & ->).
  - rewrite IH. by destruct i.
Qed.
Lemma fix_last_block_times_lookup bs i b :
  fix_last_block_times bs !! i = Some b ↔
  ∃ b0, bs !! i = Some b0 ∧
    b = match i with
        | O => b0
        | Datatypes.S j => set_last_block_time (default 0 (rb_tblock_secs <$> bs !! j)) b0
        end.
Proof.
  destruct bs as [|b1 bs]; simpl.
  { rewrite !lookup_nil. split; [done|]. by intros (? & ? & _). }
  destruct i as [|i]; simpl.
  - split; [intros [= <-]; eauto|]. by intros (b0 & [= ->] & ->).
  - rewrite fix_times_lookup. by destruct i.
Qed.
Lemma fix_last_block_times_length bs : length (fix_last_block_times bs) = length bs.
Proof.
  destruct bs as [|b bs]; [done|]. simpl. f_equal. generalize (rb_tblock_secs b).
  induction bs as [|b' bs IH]; intros t; simpl; auto.
Qed.

(** Blocks from the genesis block to a height, each with the hash and the time of
    the one before. *)
Record is_chain (h : Z) (blocks : list RawBlockData) : Prop := {
  chain_length : Z.of_nat (length blocks) = h + 1;
  chain_number i b : blocks !! i = Some b → rb_number b = Z.of_nat i;
  chain_genesis g : blocks !! 0%nat = Some g → rb_parent_hash g = zero_hash;
  chain_link i p c : blocks !! i = Some p → blocks !! (i + 1)%nat = Some c →
    rb_parent_hash c = rb_hash p ∧ rb_last_block_time_secs c = rb_tblock_secs p;
}.
Definition numbered (i : Z) (b : RawBlockData) : Prop := rb_number b = i.

Lemma read_chain chain_id a h bs :
  0 ≤ h → (∀ i b, stored chain_id a i = Some b → numbered i b) → verified chain_id a h →
  (λ n, st_blocks a !! (chain_id, n)) <$> range 0 (h + 1) = Some <$> bs → is_chain h (fix_last_block_times bs).
Proof.
  intros Hh Hnum (_ & Hlinks & g & Hg & Hz) Hbs.
  pose proof (λ i b, stored_list_lookup chain_id a 0 (h + 1) bs i b Hbs) as Hlook.
  assert (∀ i b b0, fix_last_block_times bs !! i = Some b → bs !! i = Some b0 →
    rb_number b = rb_number b0 ∧ rb_hash b = rb_hash b0 ∧ rb_parent_hash b = rb_parent_hash b0 ∧
    rb_tblock_secs b = rb_tblock_secs b0) as Hsame.
  { intros i b b0 (b1 & Hb1 & ->)%fix_last_block_times_lookup Hb0. simplify_eq. by destruct i. }
  split.
  - apply (f_equal length) in Hbs. unfold range in Hbs. rewrite !length_fmap, length_seqZ in Hbs.
    rewrite fix_last_block_times_length. lia.
  - intros i b Hb. pose proof Hb as (b0 & Hb0 & _)%fix_last_block_times_lookup.
    destruct (Hsame i b b0 Hb Hb0) as (-> & _). apply Hlook in Hb0 as [Hb0%Hnum _]. exact Hb0.
  - intros g' Hg'. pose proof Hg' as (b0 & Hb0 & _)%fix_last_block_times_lookup.
    destruct (Hsame _ g' b0 Hg' Hb0) as (_ & _ & -> & _). apply Hlook in Hb0 as [Hb0 _].
    change (0 + Z.of_nat 0) with 0 in Hb0. congruence.
  - intros i p c Hp Hc. pose proof Hp as (p0 & Hp0 & _)%fix_last_block_times_lookup.
    pose proof Hc as (c0 & Hc0 & Hc')%fix_last_block_times_lookup.
    destruct (Hsame _ p p0 Hp Hp0) as (_ & -> & _ & ->), (Hsame _ c c0 Hc Hc0) as (_ & _ & -> & _).
    rewrite Nat.add_1_r in Hc'. subst c. cbn [rb_last_block_time_secs set_last_block_time]. rewrite Hp0. split; [|done].
    apply Hlook in Hp0 as [Hp0 Hi], Hc0 as [Hc0 Hi'].
    destruct (Hlinks (Z.of_nat i)) as (p1 & c1 & Hp1 & Hc1 & Heq); [lia|].
    replace (0 + Z.of_nat (i + 1)) with (Z.of_nat i + 1) in Hc0 by lia. rewrite Z.add_0_l in Hp0. congruence.
Qed.

(** C14: Whatever the workers do, and from whatever an earlier run left in the
    storage: blocks that a run returns are the chain from the genesis block to the
    finalized height, each with the hash and the time of its parent.  After every
    run, also one that failed, the blocks up to the height on record as verified are
    there and form a chain.  The node is only trusted to answer with the block of
    the number that was asked for. *)
Theorem fetched_blocks_form_a_chain `{!Subxt} {S : Type} `{!FetchStorage S} `{!StorageRefines S} chain_id client
    num_workers num_compute_workers finalized_height (st : S) a r st' :
  h256 chain_id → node_ok client numbered → sim st a → store_ok chain_id numbered a →
  0 ≤ finalized_height → height (finalized_height + 1) →
  fetch_from_rpc client num_workers num_compute_workers chain_id finalized_height st r st' →
  ∃ a', sim st' a' ∧ store_ok chain_id numbered a' ∧
    ∀ blocks, r = Ok blocks →
      is_chain finalized_height blocks ∧ st_highest a' !! chain_id = Some finalized_height.
Proof.
  intros Hchain Hnode Hsim Hstore Hf Hh Hrun. unfold fetch_from_rpc in Hrun. case_bool_decide as Hlag.
  { destruct Hrun as [-> ->]. by exists a. }
  destruct Hrun as (s & Hsteps & Hret).
  destruct (run_spec chain_id client num_workers num_compute_workers finalized_height numbered st a
    Hchain Hnode Hsim Hstore Hf Hh ltac:(lia) s r st' Hsteps Hret) as (a' & Hsim' & Hok & _ & Hblocks).
  exists a'. split_and!; [done..|]. intros blocks (Hhigh & bs & Hbs & ->)%Hblocks. split; [|done].
  destruct Hok as [Hnum Hver]. eapply read_chain; [done|done|by eapply Hver|done].
Qed.
