(* ===== verification/FetcherRuns.v ===== *)
(** * Runs of the block fetcher

    The runs of [Fetcher] end: no run goes on for ever, none gets stuck, and with a
    node that answers, each returns the blocks of the chain whatever the order in
    which the workers take their steps.  At the end, runs on a small chain. *)

From stdpp Require Import prelude gmap.
From S2P Require Import Prelude Frame Collections GenesisSpec Version BlockStore Fetcher.

Open Scope Z_scope.

(** ** Runs end *)

Section Measure.
Context `{!Subxt} {S : Type} `{!FetchStorage S}.
Context (chain_id : list Z) (client : Node) (num_workers num_compute_workers : nat) (jobs_expected : Z).

(** The moves a job has at most before it; a worker connects or ends, and is joined. *)
Definition task_moves (w : ComputeTask) : nat :=
  match w with ExtractBlockData _ _ _ => 7 | Verify _ _ => 4 | FinalVerify _ _ | Compute_NoOp => 2 end%nat.
Definition place_moves (p : Place) : nat :=
  match p with
  | Pushing _ => 12
  | Queued _ => 11
  | Fetching _ => 10
  | Fetched w => task_moves w + 2
  | FetchToCompute w | ComputeToCompute w => task_moves w + 1
  | Computing w => task_moves w
  | Computed (ExtractBlockData _ _ _) => 9
  | Computed (Verify _ _) => 6
  | Computed (FinalVerify _ _) => 3
  | Computed Compute_NoOp => 1
  | FinalJobs _ => 2
  | Received _ => 1
  | Lost => 0
  end%nat.
Definition moves (s : Sys (S := S)) : nat :=
  (sum_list_with place_moves (sy_jobs s) + 2 * sy_connecting s + sy_exited s)%nat.

(** The task after a task. *)
Definition next_task (w : ComputeTask) : ComputeTask :=
  match w with
  | ExtractBlockData min max _ => Verify min max
  | Verify min max => FinalVerify min max
  | _ => Compute_NoOp
  end.
Lemma work_next (w w' : ComputeTask) (st st' : S) : work chain_id w st = (Ok w', st') → w' = next_task w.
Proof.
  destruct w as [min max blocks|min max|min max|]; cbn [work]; rewrite ?M_bind_ok.
  - intros (blocks' & s1 & _ & (? & s2 & _ & [= <- _])%M_bind_ok). done.
  - intros (s0 & s1 & _ & (? & s2 & _ & (bs & s3 & _ & Hres)%M_bind_ok)%M_bind_ok).
    destruct (first_failing_pair bs); [done|]. by injection Hres as <- _.
  - intros (s0 & s1 & _ & (? & s2 & _ & (bs & s3 & _ & (? & s4 & _ & [= <- _])%M_bind_ok)%M_bind_ok)%M_bind_ok). done.
  - by intros [= <- _].
Qed.
Lemma work_moves (w w' : ComputeTask) (st st' : S) :
  work chain_id w st = (Ok w', st') → (place_moves (Computed w') < task_moves w)%nat.
Proof. intros ->%work_next. destruct w; simpl; lia. Qed.
Lemma fetch_moves t (st : S) w : fetch chain_id client t st = Ok w → (task_moves w + 2 < 10)%nat.
Proof. destruct w; simpl; lia. Qed.

Lemma step_moves s s' :
  fetch_step chain_id client num_workers num_compute_workers jobs_expected s s' → (moves s' < moves s)%nat.
Proof.
  destruct 1 as [| | | | ? ? ? ? ? ? ? ? ? ? ? Hw| | | | | | ? ? ? ? ? ? ? ? ? ? ? ? Hw| | | | |
    ? ? w ? ? ? ? ? ? ? Hw| |]; unfold moves; cbn [sy_jobs sy_connecting sy_exited];
    rewrite ?sum_list_with_app; cbn [sum_list_with place_moves]; try lia.
  - apply fetch_moves in Hw. lia.
  - apply work_moves in Hw. cbn [place_moves] in Hw. lia.
  - destruct w; simpl; lia.
  - destruct w; simpl; lia.
  - destruct w; simpl in *; (done || lia).
Qed.
End Measure.

(** ** Runs do not get stuck *)

Section Progress.
Context `{!Subxt} {S : Type} `{!FetchStorage S}.
Context (chain_id : list Z) (client : Node) (num_workers num_compute_workers : nat) (finalized_height jobs_expected : Z).
Notation sys_step := (fetch_step chain_id client num_workers num_compute_workers jobs_expected).

Definition is_fetching (p : Place) : bool := match p with Fetching _ | Fetched _ => true | _ => false end.
Definition is_computing (p : Place) : bool := match p with Computing _ | Computed _ => true | _ => false end.
Definition is_lost (p : Place) : bool := match p with Lost => true | _ => false end.

Lemma count_middle f (l1 l2 : list Place) x :
  count f (l1 ++ x :: l2) = ((if f x then 1 else 0) + count f (l1 ++ l2))%nat.
Proof.
  unfold count. rewrite !filter_app, !length_app, filter_cons. destruct (f x) eqn:Hx; simpl; lia.
Qed.
Lemma find_place f (l : list Place) :
  (∃ l1 x l2, l = l1 ++ x :: l2 ∧ f x = true ∧ Forall (λ p, f p = false) l1) ∨ count f l = 0%nat.
Proof.
  induction l as [|x l IH]; [by right|]. destruct (f x) eqn:Hx.
  { left. by exists [], x, l. }
  destruct IH as [(l1 & y & l2 & -> & Hy & Hl1)|Hc].
  - left. exists (x :: l1), y, l2. split_and!; [done..|by constructor].
  - right. change (x :: l) with ([] ++ x :: l). by rewrite count_middle, Hx.
Qed.
Lemma count_zero f (l : list Place) : count f l = 0%nat ↔ ∀ p, p ∈ l → f p = false.
Proof.
  split.
  - intros Hc p Hp. destruct (f p) eqn:Hfp; [|done].
    apply list_elem_of_split in Hp as (l1 & l2 & ->). by rewrite count_middle, Hfp in Hc.
  - intros Hf. destruct (find_place f l) as [(l1 & x & l2 & -> & Hx & _)|]; [|done].
    rewrite Hf in Hx; [done|]. set_solver.
Qed.
Lemma count_length f (l : list Place) : (∀ p, p ∈ l → f p = true) → count f l = length l.
Proof. intros Hf. unfold count. rewrite filter_all; [done|]. intros p Hp. by rewrite Hf. Qed.

(** As long as no worker failed, each worker and each job is somewhere. *)
Definition workers_inv (s : Sys (S := S)) : Prop :=
  (sy_joined s < num_workers)%nat ∧
  (sy_failures s = [] →
    (sy_connecting s + sy_idle s + sy_exited s + sy_joined s + count is_fetching (sy_jobs s) = num_workers)%nat ∧
    (sy_compute_idle s + count is_computing (sy_jobs s) = num_compute_workers)%nat ∧
    count is_lost (sy_jobs s) = 0%nat).
(** A job at a worker or between two workers has its last check still to come. *)
Definition undone (w : ComputeTask) : Prop := match w with ExtractBlockData _ _ _ | Verify _ _ => True | _ => False end.
Definition place_undone (p : Place) : Prop :=
  match p with
  | Pushing t | Queued t | Fetching t => t ≠ Fetch_NoOp
  | Fetched w | FetchToCompute w | Computing w | ComputeToCompute w => undone w
  | Computed w => w ≠ Compute_NoOp
  | _ => True
  end.
Definition no_noop (s : Sys (S := S)) : Prop := Forall place_undone (sy_jobs s).

Lemma fetch_undone t (st : S) w : fetch chain_id client t st = Ok w → t ≠ Fetch_NoOp → undone w.
Proof.
  destruct t as [min max|]; [|done]. cbn [fetch]. intros Hw _.
  destruct (get_block_data_range st chain_id _) as [bs| |]; [cbn in Hw|done..].
  destruct (try_collect _ _) as [l| |]; [|done..]. by injection Hw as <-.
Qed.
Lemma replace_undone l1 p p' l2 :
  (place_undone p → place_undone p') → Forall place_undone (l1 ++ p :: l2) →
  Forall place_undone (l1 ++ p' :: l2) ∧ length (l1 ++ p' :: l2) = length (l1 ++ p :: l2).
Proof.
  intros Hp. rewrite !Forall_app, !Forall_cons, !length_app. simpl. naive_solver.
Qed.
Lemma step_no_noop s s' :
  sys_step s s' → no_noop s → no_noop s' ∧ length (sy_jobs s') = length (sy_jobs s).
Proof.
  unfold no_noop. intros Hstep.
  destruct Hstep as [| | | | ? ? ? ? ? ? ? ? ? ? ? Hw| | | | | |? ? w ? ? ? ? ? ? ? ? ? Hw| | | | |? ? w| |];
    cbn [sy_jobs]; try done; apply replace_undone; cbn [place_undone]; try done.
  - by eapply fetch_undone.
  - apply work_next in Hw as ->. by destruct w.
Qed.

Lemma step_workers s s' : workers_inv s → no_noop s → sys_step s s' → workers_inv s'.
Proof.
  intros [Hj Hcount] Hnoop Hstep. unfold no_noop in Hnoop.
  destruct Hstep; unfold workers_inv in *; cbn [sy_joined sy_failures sy_connecting sy_idle sy_exited sy_jobs sy_compute_idle] in *;
    rewrite ?count_middle in *; cbn [is_fetching is_computing is_lost] in *; (split; [lia|]); try done;
    intros Hf; destruct (Hcount Hf) as (? & ? & ?); try lia.
  apply Forall_app in Hnoop as [_ [Hne _]%Forall_cons]. done.
Qed.

Local Ltac find_job f l := let Hp := fresh "Hp" in
  destruct (find_place f l) as [(l1 & p & l2 & -> & Hp & Hl1)|?]; [destruct p; try done; clear Hp|].
Local Ltac by_places := let p := fresh "p" in let Hp := fresh "Hp" in
  rewrite count_zero in *; intros p Hp;
  repeat match goal with H : ∀ q, q ∈ _ → _ = false |- _ => specialize (H p Hp) end; by destruct p.
Lemma fetching_progress st l1 t l2 c i e ci j f :
  ∃ s', sys_step (mkSys st (l1 ++ Fetching t :: l2) c i e ci j f) s'.
Proof.
  destruct (fetch chain_id client t st) eqn:Hw; eexists;
    [by eapply step_fetch|by eapply step_fetch_error|by eapply step_fetch_panic].
Qed.
Lemma computing_progress st l1 w l2 c i e ci j f :
  ∃ s', sys_step (mkSys st (l1 ++ Computing w :: l2) c i e ci j f) s'.
Proof.
  destruct (work chain_id w st) as [[]] eqn:Hw; eexists;
    [by eapply step_work|by eapply step_work_error|by eapply step_work_panic].
Qed.
Lemma jobs_progress st l i ci j :
  Z.of_nat (count is_received l) < Z.of_nat (length l) → Z.of_nat (length l) = jobs_expected →
  (j < num_workers)%nat → (i + j + count is_fetching l = num_workers)%nat →
  (0 < num_compute_workers)%nat → (ci + count is_computing l = num_compute_workers)%nat →
  count is_lost l = 0%nat → ∃ s', sys_step (mkSys st l 0 i 0 ci j []) s'.
Proof.
  intros Hmore Hlen Hj Hw Hcw Hcp Hlost.
  find_job (λ p, match p with Fetching _ => true | _ => false end) l; [apply fetching_progress|].
  find_job (λ p, match p with Computing _ => true | _ => false end) l; [apply computing_progress|].
  find_job is_final l.
  { eexists. apply step_receive. rewrite <-Hlen. by rewrite count_middle in Hmore. }
  find_job (λ p, match p with Computed _ => true | _ => false end) l.
  { destruct w; eexists; [by apply step_send_back..|apply step_send_final|apply step_continue].
    rewrite count_middle in *. simpl in *. lia. }
  assert (count is_computing l = 0%nat) as Hnc.
  { by_places. }
  find_job is_fetch_to_compute l.
  { destruct ci as [|ci]; [lia|]. eexists. apply step_take_fetched. }
  find_job (λ p, match p with ComputeToCompute _ => true | _ => false end) l.
  { destruct ci as [|ci]; [lia|]. eexists. apply step_take_computed. rewrite count_middle in *. simpl in *. lia. }
  find_job (λ p, match p with Fetched _ => true | _ => false end) l.
  { eexists. apply step_send. rewrite count_middle in *. simpl in *. lia. }
  assert (count is_fetching l = 0%nat) as Hnf.
  { by_places. }
  find_job is_queued l.
  { destruct i as [|i]; [lia|]. eexists. apply step_take. }
  find_job is_pushing l.
  { eexists. apply step_push; [done|]. rewrite count_middle in *. simpl in *. lia. }
  rewrite (count_length is_received l) in Hmore; [lia|]. by_places.
Qed.
Lemma progress s :
  workers_inv s → no_noop s → (0 < num_compute_workers)%nat → jobs_expected = Z.of_nat (length (sy_jobs s)) →
  (∃ s', sys_step s s') ∨ (∃ r st', returns chain_id num_workers finalized_height jobs_expected s r st').
Proof.
  destruct s as [st l c i e ci j f]. intros [Hj Hcount] Hnoop Hcw Hlen.
  unfold no_noop in Hnoop. cbn [sy_joined sy_failures sy_connecting sy_idle sy_exited sy_jobs sy_compute_idle] in *.
  destruct (decide (Z.of_nat (count is_received l) < jobs_expected)) as [Hmore|Hmore].
  2:{ right. destruct (finish chain_id finalized_height
        (omap (λ p, match p with Received w => Some w | _ => None end) l) st) as [r st'] eqn:Hfin.
      exists r, st'. by econstructor. }
  destruct f as [|x f]; [|right; eexists _, _; apply return_failure; [done|by left]].
  destruct (Hcount eq_refl) as (Hw & Hcp & Hlost). clear Hcount.
  destruct c as [|c]; [|left; eexists; apply step_connect].
  destruct e as [|e].
  2:{ destruct (decide (Datatypes.S j = num_workers)); [right; eexists _, _; by apply return_no_workers|].
      left. eexists. by apply step_join. }
  left. apply jobs_progress; try done; lia.
Qed.
End Progress.

Section RunsEnd.
Context `{!Subxt} {S : Type} `{!FetchStorage S}.
Context (chain_id : list Z) (client : Node) (num_workers num_compute_workers : nat) (finalized_height : Z) (st : S).
Context (Hmin : min_height_of chain_id st ≤ finalized_height + 1).
Notation expected_jobs := (jobs_of num_workers chain_id finalized_height st).
Notation sys_step := (fetch_step chain_id client num_workers num_compute_workers expected_jobs).
Notation initial := (start num_workers num_compute_workers chain_id finalized_height st).

Lemma run_no_noop s : rtc sys_step initial s → no_noop s ∧ length (sy_jobs s) = length (sy_jobs initial).
Proof.
  revert s. apply rtc_ind_r.
  - split; [|done]. unfold no_noop. simpl. apply Forall_fmap, Forall_forall.
    intros t. rewrite job_list_ranges. by intros (r & -> & _)%list_elem_of_fmap.
  - intros s s' _ Hstep [Hn Hl]. destruct (step_no_noop _ _ _ _ _ _ _ Hstep Hn) as [? ->]. done.
Qed.
Lemma run_workers s :
  (0 < num_workers)%nat → rtc sys_step initial s → workers_inv num_workers num_compute_workers s.
Proof.
  intros Hw. revert s. apply rtc_ind_r.
  - assert (∀ f, (∀ t, f (Pushing t) = false) → count f (sy_jobs initial) = 0%nat) as Hnone.
    { intros f Hf. apply count_zero. simpl. intros p (t & -> & _)%list_elem_of_fmap. apply Hf. }
    split; [done|]. intros _. rewrite !Hnone by done. simpl. lia.
  - intros s s' Hsteps Hstep IH. eapply step_workers; [apply IH|by apply run_no_noop|done].
Qed.
Lemma run_moves n s : nsteps sys_step n initial s → (n + moves s ≤ moves initial)%nat.
Proof.
  revert s. induction n as [|n IH]; intros s.
  - by inversion 1.
  - intros (s' & Hs' & Hstep)%nsteps_inv_r. apply IH in Hs'. apply step_moves in Hstep. lia.
Qed.
Lemma initial_jobs : expected_jobs = Z.of_nat (length (sy_jobs initial)).
Proof.
  rewrite <-(run_ranges_length chain_id num_workers finalized_height st Hmin).
  simpl. by rewrite length_fmap, job_list_ranges, length_fmap.
Qed.
Lemma initial_moves : Z.of_nat (moves initial) = 12 * expected_jobs + 2 * Z.of_nat num_workers.
Proof.
  rewrite initial_jobs. unfold moves. cbn [start sy_jobs sy_connecting sy_exited].
  assert (∀ l, sum_list_with place_moves (Pushing <$> l) = 12 * length (Pushing <$> l))%nat as ->.
  { intros l. induction l as [|t l IH]; [done|]. cbn [fmap list_fmap sum_list_with length]. rewrite IH. simpl. lia. }
  lia.
Qed.
Lemma run_progress s :
  (0 < num_workers)%nat → (0 < num_compute_workers)%nat → rtc sys_step initial s →
  (∃ s', sys_step s s') ∨ ∃ r st', returns chain_id num_workers finalized_height expected_jobs s r st'.
Proof.
  intros Hw Hcw Hs. apply progress; [by apply run_workers|by apply run_no_noop|done|].
  rewrite initial_jobs. by rewrite (proj2 (run_no_noop s Hs)).
Qed.
End RunsEnd.

(** C31: Every run ends, whatever the node answers (errors, wrong blocks and blocks
    that do not decode included) and whatever the storage holds and does: with at
    least one worker of each kind, and unless the storage is recorded as verified
    beyond the block after the finalized one (then the code panics before it starts
    a worker), a run takes at most twelve steps for each job and two for each fetch
    worker, and a state in which no worker can take a step is one in which the run
    returns. *)
Theorem runs_return `{!Subxt} {S : Type} `{!FetchStorage S} chain_id client
    num_workers num_compute_workers finalized_height (st : S) :
  min_height_of chain_id st ≤ finalized_height + 1 →
  (0 < num_workers)%nat → (0 < num_compute_workers)%nat →
  let jobs := jobs_of num_workers chain_id finalized_height st in
  let sys_step := fetch_step chain_id client num_workers num_compute_workers jobs in
  let initial := start num_workers num_compute_workers chain_id finalized_height st in
  (∀ n s, nsteps sys_step n initial s → Z.of_nat n ≤ 12 * jobs + 2 * Z.of_nat num_workers) ∧
  (∀ s, rtc sys_step initial s →
    (∃ s', sys_step s s') ∨ ∃ r st', returns chain_id num_workers finalized_height jobs s r st').
Proof.
  intros Hmin Hw Hcw jobs sys_step initial. split.
  - intros n s Hs. apply run_moves in Hs. pose proof (initial_moves chain_id num_workers num_compute_workers finalized_height st Hmin).
    unfold initial, jobs in *. lia.
  - intros s Hs. by apply run_progress.
Qed.

(** ** With a node that answers *)

Section Honest.
Context `{!Subxt} {S : Type} `{!FetchStorage S} `{!StorageRefines S}.
Context (chain_id : list Z) (client : Node) (num_workers num_compute_workers : nat) (finalized_height : Z).
(** The data of the blocks of the chain. *)
Context (data : Z → RawBlockData) (st : S) (a0 : Store).
Definition of_chain (i : Z) (b : RawBlockData) : Prop := b = data i.
Definition data_linked : Prop :=
  rb_parent_hash (data 0) = zero_hash ∧ ∀ i, 0 ≤ i → rb_parent_hash (data (i + 1)) = rb_hash (data i).
Definition node_answers : Prop :=
  ∀ i, 0 ≤ i ≤ finalized_height → ∃ fb, fetched client i fb ∧ extract_data fb = Ok (data i).
Context (Hchain : h256 chain_id) (Hnode : node_ok client of_chain) (Hlinked : data_linked) (Hanswers : node_answers).
Context (Hsim : sim st a0) (Hstore : store_ok chain_id of_chain a0).
Context (Hfinal : 0 ≤ finalized_height) (Hheight : height (finalized_height + 1)).
Context (Hmin : min_height_of chain_id st ≤ finalized_height + 1).
Notation expected_jobs := (jobs_of num_workers chain_id finalized_height st).
Notation sys_step := (fetch_step chain_id client num_workers num_compute_workers expected_jobs).
Notation initial := (start num_workers num_compute_workers chain_id finalized_height st).
Notation ranges := (run_ranges chain_id num_workers finalized_height st).

Lemma fetch_run_inv s : rtc sys_step initial s → sys_inv chain_id client of_chain ranges a0 s.
Proof.
  intros Hsteps. eapply steps_inv; [done|by eapply run_ranges_ok|done|done|by apply start_inv].
Qed.
Lemma fetched_det i fb fb' : fetched client i fb → fetched client i fb' → fb = fb'.
Proof. intros (h & Hh & Hb) (h' & Hh' & Hb'). congruence. Qed.
Lemma fetched_data i fb : 0 ≤ i ≤ finalized_height → fetched client i fb → extract_data fb = Ok (data i).
Proof. intros Hi Hfb. destruct (Hanswers i Hi) as (fb' & Hfb' & Hd). by rewrite (fetched_det i fb fb'). Qed.
Lemma in_ranges k r i : ranges !! k = Some r → r.1 ≤ i < r.2 → 0 ≤ i ≤ finalized_height.
Proof.
  intros Hk Hi. destruct (lowest_verified chain_id of_chain st a0 Hchain Hsim Hstore) as [Hl _].
  destruct r as [m M]. apply job_ranges_in in Hk; [|apply blocks_per_job_pos|done]. simpl in *. lia.
Qed.
Lemma try_collect_total {E A B : Type} (f : A → outcome E B) l :
  (∀ x, x ∈ l → ∃ y, f x = Ok y) → ∃ ys, try_collect f l = Ok ys.
Proof.
  induction l as [|x l IH]; intros Hl; [by exists []|].
  destruct (Hl x) as [y Hy]; [left|]. destruct IH as [ys Hys]; [intros; apply Hl; by right|].
  exists (y :: ys). simpl. by rewrite Hy, Hys.
Qed.

Lemma fetch_total k r st1 a :
  ranges !! k = Some r → sim st1 a → ∃ w, fetch chain_id client (FetchBlocks r.1 r.2) st1 = Ok w.
Proof.
  intros Hk Hs. unfold fetch. rewrite (sim_get_range st1 a); [|done|done|].
  2:{ eapply range_heights; [|done]. by eapply run_ranges_ok. }
  cbn [mbind outcome_bind]. rewrite missing_absent.
  destruct (try_collect_total (λ i, h ← fetch_block_hash client i; fetch_block client h)
    (filter (λ i, stored chain_id a i = None) (range r.1 r.2))) as [bs ->]; [|by eexists].
  intros i [_ Hi%elem_of_range]%list_elem_of_filter.
  destruct (Hanswers i) as (fb & (h & Hh & Hb) & _); [by eapply in_ranges|].
  exists fb. rewrite Hh. exact Hb.
Qed.
Lemma chain_linked a i :
  (∀ i b, stored chain_id a i = Some b → of_chain i b) → 0 ≤ i →
  is_Some (stored chain_id a i) → is_Some (stored chain_id a (i + 1)) → linked chain_id a i.
Proof.
  intros Hgood Hi [p Hp] [c Hc]. exists p, c. split_and!; [done..|].
  rewrite (Hgood _ _ Hp), (Hgood _ _ Hc). by apply Hlinked.
Qed.
Lemma work_total k r w st1 a :
  ranges !! k = Some r → sim st1 a → (∀ i b, stored chain_id a i = Some b → of_chain i b) →
  task_inv chain_id client a r w → is_final_task w = false → ∃ w' st2, work chain_id w st1 = (Ok w', st2).
Proof.
  intros Hk Hs Hgood Hw Hfin.
  assert (ranges_ok ranges) as Hranges by (by eapply run_ranges_ok).
  destruct w as [min max blocks|min max| |]; [..|done|done].
  - destruct Hw as [<- Hb]. cbn [work]. unfold mbind, M_bind, lift, mret, M_ret.
    destruct (try_collect_total (λ b, d ← extract_data b; mret (bl_number (fb_block b), d)) blocks) as [l Hl].
    { intros fb [j Hj]%list_elem_of_lookup. destruct (Forall2_lookup_r _ _ _ _ _ Hb Hj) as (i & Hi & Hfb).
      apply list_elem_of_lookup_2, list_elem_of_filter in Hi as [_ Hi%elem_of_range].
      rewrite (fetched_data i fb) by (done || by eapply in_ranges). by eexists. }
    unfold mbind, mret in Hl. rewrite Hl.
    destruct (extract_inserts chain_id client of_chain Hnode a min max blocks l Hb Hl) as [Hkeys Hall].
    destruct (sim_insert_range (E := ComputeError) st1 a chain_id l Hs Hchain) as (s2 & -> & _); [|by eexists _, _].
    apply Forall_forall. intros nb Hnb. split; [|by eapply Forall_forall in Hall as [_ ?]].
    assert (nb.1 ∈ absent chain_id a min max) as [_ Hr]%list_elem_of_filter.
    { rewrite <-Hkeys. by apply list_elem_of_fmap_2. }
    pose proof (range_heights ranges Hranges k _ Hk) as Hh. by eapply Forall_forall in Hh.
  - destruct Hw as [<- Hall].
    destruct (work_verify chain_id ranges Hchain Hranges k min max st1 a Hk Hs Hall) as (res & Hres & _ & Hok).
    rewrite Hres. rewrite Hok; [by eexists _, _|]. intros i Hi Hi'.
    destruct (in_ranges k _ i Hk) as [? _]; [simpl; lia|]. apply chain_linked; [done|done|apply Hall; lia..].
Qed.

(** No worker fails. *)
Lemma step_no_failure s s' :
  sys_inv chain_id client of_chain ranges a0 s → sys_step s s' → sy_failures s = [] → sy_failures s' = [].
Proof.
  intros (a & Hs & Hjobs & Hgood & _) Hstep Hf.
  destruct Hstep as [| | | | |st1 l1 t x l2 ? ? ? ? ? ? Hw|st1 l1 t l2 ? ? ? ? ? ? Hw| | | | |st1 l1 w x st2 l2 ? ? ? ? ? ? Hw
    |st1 l1 w st2 l2 ? ? ? ? ? ? Hw| | | | |]; try done; exfalso; cbn [sy_jobs sy_storage] in *;
    destruct (jobs_replace _ _ _ _ _ Hjobs) as (k & r & Hk & HP & _).
  1,2: simpl in HP; subst t; destruct (fetch_total k r st1 a Hk Hs) as [w Hw']; congruence.
  all: destruct HP as [HP Hfin]; destruct (work_total k r w st1 a Hk Hs Hgood HP Hfin) as (w' & st3 & Hw'); congruence.
Qed.
Lemma run_no_failure s : rtc sys_step initial s → sy_failures s = [].
Proof.
  revert s. apply rtc_ind_r; [done|]. intros s s' Hsteps Hstep IH.
  eapply step_no_failure; [|done|done]. by eapply fetch_run_inv.
Qed.

Lemma chain_ends a r :
  (∀ i b, stored chain_id a i = Some b → of_chain i b) → 0 ≤ r.1 < r.2 → is_Some (stored chain_id a r.1) →
  ends_ok chain_id a r.
Proof.
  intros Hgood Hr [b Hb]. split.
  - intros H0. rewrite H0 in Hb. exists b. split; [done|]. rewrite (Hgood _ _ Hb). by apply Hlinked.
  - intros p c Hp Hc. rewrite (Hgood _ _ Hp), (Hgood _ _ Hc). pose proof (proj2 Hlinked (r.2 - 1) ltac:(lia)) as Hl.
    by replace (r.2 - 1 + 1) with r.2 in Hl by lia.
Qed.
Lemma stored_of_chain a n bs :
  (∀ i b, stored chain_id a i = Some b → of_chain i b) →
  (λ n, st_blocks a !! (chain_id, n)) <$> range 0 n = Some <$> bs → bs = data <$> range 0 n.
Proof.
  intros Hgood. generalize (range 0 n). intros l. revert bs. induction l as [|i l IH]; intros [|b bs]; try done.
  cbn [fmap list_fmap]. intros [= Hb Hbs]. f_equal; [by apply Hgood|by apply IH].
Qed.

Lemma run_result s r st' :
  rtc sys_step initial s → returns chain_id num_workers finalized_height expected_jobs s r st' →
  r = Err NoWorkersConnected ∨ r = Ok (fix_last_block_times (data <$> range 0 (finalized_height + 1))).
Proof.
  intros Hsteps Hret. pose proof (run_no_failure s Hsteps) as Hf.
  pose proof (fetch_run_inv s Hsteps) as (a & Hs & Hjobs & Hgood & Hold & _).
  assert (ranges_ok ranges) as Hranges by (by eapply run_ranges_ok).
  inversion Hret as [? ? ? ? ? ? ? ? x _ Hx| |st1 l c i e ci j f jobs r1 st1' Hmore Hperm Hfin]; subst;
    cbn [sy_storage sy_jobs sy_failures] in *; [subst; by apply elem_of_nil in Hx|by left|right].
  destruct (all_received chain_id client ranges a l Hjobs) as [Hrec Htasks].
  { rewrite run_ranges_length by done. lia. }
  rewrite Hrec in Hperm.
  destruct (finish_spec chain_id finalized_height ranges Hchain Hranges jobs st1 a)
    as [(e' & He & _ & Hno)|(Hends & st2 & bs & Hs2 & Hbs & Hfin2)]; try done.
  - by eapply run_verified.
  - destruct Hno. apply Forall_lookup. intros k q Hk. destruct (ranges_heights _ Hranges k q Hk) as [Hq _].
    apply chain_ends; [done|done|]. apply (Htasks k q Hk). lia.
  - rewrite Hfin2 in Hfin. injection Hfin as <- <-. by rewrite (stored_of_chain a (finalized_height + 1) bs).
Qed.
End Honest.

(** C15: When the node answers, for every height up to the finalized one, with the block
    of one chain, and its blocks can be encoded for the storage, a run that returns
    gives exactly the data of that chain up to the finalized height, with the time of
    each parent.  The numbers of workers and the order of their steps do not matter,
    nor does the backend, nor which blocks of this chain earlier runs have left in it
    and up to which height they verified them, as long as that is not beyond the block
    after the finalized one (then the code panics).  The only other way to return is
    that every fetch worker failed to connect. *)
Theorem honest_node_gives_the_chain `{!Subxt} {S : Type} `{!FetchStorage S} `{!StorageRefines S} chain_id client
    num_workers num_compute_workers finalized_height data (st : S) a r st' :
  h256 chain_id → node_ok client (of_chain data) → data_linked data → node_answers client finalized_height data →
  sim st a → store_ok chain_id (of_chain data) a →
  0 ≤ finalized_height → height (finalized_height + 1) → min_height_of chain_id st ≤ finalized_height + 1 →
  fetch_from_rpc client num_workers num_compute_workers chain_id finalized_height st r st' →
  r = Err NoWorkersConnected ∨ r = Ok (fix_last_block_times (data <$> range 0 (finalized_height + 1))).
Proof.
  intros Hchain Hnode Hlinked Hanswers Hsim Hstore Hf Hh Hmin Hrun. unfold fetch_from_rpc in Hrun.
  rewrite bool_decide_false in Hrun by lia. destruct Hrun as (s & Hsteps & Hret). by eapply run_result.
Qed.

(** ** Runs on a small chain *)

Module FetchConcrete.
(** Extrinsics are calls; no event is a system transaction. *)
#[export] Instance plain : Subxt := {|
  Extrinsic := ChainCall;
  Event := unit;
  SubxtError := unit;
  as_root_extrinsic _ call := Some call;
  as_system_transaction_applied _ _ := Ok None;
|}.
Definition hash_of (i : Z) : list Z := replicate 31 0 ++ [i + 1].
Definition number_of (h : list Z) : Z := default 0 (last h) - 1.
Definition block_of (i : Z) : NodeBlock := {|
  bl_number := i;
  bl_hash := hash_of i;
  bl_parent_hash := hash_of (i - 1);
  bl_logs := [Consensus VERSION_ID (encode_u32 22000)];
  bl_extrinsics := Some [Call_timestamp_set (6000 * i); Call_send_mn_transaction [i]];
  bl_events := Some (λ _, []);
|}.
Definition node : Node := {|
  chain_get_block_hash i := Ok (Some (hash_of i));
  block_at h := Ok (block_of (number_of h));
  get_state_root_at _ := Ok None;
  get_system_properties := Ok (Some [5]);
|}.
Definition data (i : Z) : RawBlockData := {|
  rb_hash := hash_of i; rb_parent_hash := hash_of (i - 1); rb_number := i; rb_ledger_version := Ledger8;
  rb_transactions := [Raw_Midnight [i]]; rb_tblock_secs := 6000 * i / 1000; rb_tblock_err := 30;
  rb_parent_block_hash := hash_of (i - 1); rb_last_block_time_secs := 6000 * i / 1000; rb_state_root := None;
  rb_state := if bool_decide (hash_of (i - 1) = zero_hash) then Some [5] else None |}.
Definition chain : list Z := hash_of 1.

Lemma number_of_hash i : number_of (hash_of i) = i.
Proof. unfold number_of, hash_of. rewrite last_snoc. simpl. lia. Qed.
Lemma fetched_block i fb :
  fetched node i fb → fb = {| fb_block := block_of i; fb_state_root := None; fb_state := rb_state (data i) |}.
Proof.
  intros (h & [= <-] & Hb). unfold fetch_block in Hb. cbn [node block_at map_err mbind outcome_bind get_state_root_at] in Hb.
  rewrite number_of_hash in Hb. cbn [bl_parent_hash block_of rb_state data] in *. revert Hb.
  case_bool_decide; cbn; by intros [= <-].
Qed.
Lemma block_fetched i :
  fetched node i {| fb_block := block_of i; fb_state_root := None; fb_state := rb_state (data i) |}.
Proof.
  exists (hash_of i). split; [done|]. unfold fetch_block. cbn [node block_at map_err mbind outcome_bind get_state_root_at].
  rewrite number_of_hash. cbn [bl_parent_hash block_of rb_state data]. by case_bool_decide.
Qed.
Lemma extract_block i :
  extract_data {| fb_block := block_of i; fb_state_root := None; fb_state := rb_state (data i) |} = Ok (data i).
Proof. done. Qed.

Lemma node_numbered : node_ok node numbered.
Proof.
  intros i fb ->%fetched_block. split; [done|]. intros d Hd. rewrite extract_block in Hd. by injection Hd as <-.
Qed.
Lemma node_of_chain : node_ok node (of_chain data).
Proof.
  intros i fb ->%fetched_block. split; [done|]. intros d Hd. rewrite extract_block in Hd. by injection Hd as <-.
Qed.
Lemma data_is_linked : data_linked data.
Proof. split; [done|]. intros i _. change (hash_of (i + 1 - 1) = hash_of i). by rewrite Z.add_simpl_r. Qed.
Lemma node_answers_all h : node_answers node h data.
Proof. intros i _. eexists. split; [apply block_fetched|apply extract_block]. Qed.
Lemma empty_store_ok good : store_ok chain good empty_store.
Proof.
  split; [intros i b Hb|intros h Hh]; [unfold stored in Hb|]; simpl in *; by rewrite lookup_empty in *.
Qed.

(** One worker of each kind fetches the first two blocks. *)
Definition stored_blocks : InMemory :=
  foldl (λ s nb, im_insert_block_data chain nb.1 nb.2 s) im_default [(0, data 0); (1, data 1)].
Definition finished : Sys := mkSys stored_blocks [Received (FinalVerify 0 2)] 0 1 0 1 0 [].
Lemma run_steps : rtc (fetch_step chain node 1 1 (jobs_of 1 chain 1 im_default)) (start 1 1 chain 1 im_default) finished.
Proof.
  change (jobs_of 1 chain 1 im_default) with 1.
  change (start 1 1 chain 1 im_default) with (mkSys im_default [Pushing (FetchBlocks 0 2)] 1 0 0 1 0 []).
  eapply rtc_l; [apply (step_push _ _ _ _ _ _ [] _ []); [by apply Forall_nil|vm_compute; first [lia|reflexivity]]|].
  eapply rtc_l; [apply step_connect|].
  eapply rtc_l; [apply (step_take _ _ _ _ _ _ [] _ [])|].
  eapply rtc_l; [eapply (step_fetch _ _ _ _ _ _ [] _ _ []); reflexivity|].
  eapply rtc_l; [apply (step_send _ _ _ _ _ _ [] _ []); vm_compute; first [lia|reflexivity]|].
  eapply rtc_l; [apply (step_take_fetched _ _ _ _ _ _ [] _ [])|].
  eapply rtc_l; [eapply (step_work _ _ _ _ _ _ [] _ _ _ []); reflexivity|].
  eapply rtc_l; [apply (step_send_back _ _ _ _ _ _ [] _ []); exact I|].
  eapply rtc_l; [apply (step_take_computed _ _ _ _ _ _ [] _ []); reflexivity|].
  eapply rtc_l; [eapply (step_work _ _ _ _ _ _ [] _ _ _ []); reflexivity|].
  eapply rtc_l; [apply (step_send_final _ _ _ _ _ _ [] _ _ []); vm_compute; first [lia|reflexivity]|].
  eapply rtc_l; [apply (step_receive _ _ _ _ _ _ [] _ []); vm_compute; first [lia|reflexivity]|].
  apply rtc_refl.
Qed.

Definition result : list RawBlockData := fix_last_block_times [data 0; data 1].
Lemma run_returns :
  ∃ st', fetch_from_rpc node 1 1 chain 1 im_default (Ok result) st'.
Proof.
  eexists. unfold fetch_from_rpc. rewrite bool_decide_false by (vm_compute; discriminate).
  exists finished. split; [exact run_steps|]. eapply return_finished; [vm_compute; discriminate|reflexivity|reflexivity].
Qed.
End FetchConcrete.
Import FetchConcrete.

Lemma fetched_blocks_form_a_chain_witness : is_chain 1 result.
Proof.
  destruct run_returns as [st' Hrun].
  destruct (fetched_blocks_form_a_chain chain node 1 1 1 im_default empty_store (Ok result) st') as (a' & _ & _ & Hok).
  - reflexivity.
  - exact node_numbered.
  - exact empty_in_memory.
  - apply empty_store_ok.
  - lia.
  - unfold height, in_range, umax. lia.
  - exact Hrun.
  - apply (Hok result). reflexivity.
Defined.

Lemma runs_return_witness :
  (∃ s', fetch_step chain node 1 1 1 finished s') ∨ ∃ r st', returns chain 1 1 1 finished r st'.
Proof.
  destruct (runs_return chain node 1 1 1 im_default) as [_ Hprogress].
  - vm_compute. discriminate.
  - lia.
  - lia.
  - apply (Hprogress finished). exact run_steps.
Defined.

Lemma honest_node_gives_the_chain_witness :
  ∃ (r : outcome FetchError (list RawBlockData)) st', r = Ok result ∧
    fetch_from_rpc node 1 1 chain 1 im_default r st' ∧
    (r = Err NoWorkersConnected ∨ r = Ok (fix_last_block_times (data <$> range 0 2))).
Proof.
  destruct run_returns as [st' Hrun]. exists (Ok result), st'. split; [reflexivity|]. split; [exact Hrun|].
  apply (honest_node_gives_the_chain chain node 1 1 1 data im_default empty_store (Ok result) st').
  - reflexivity.
  - exact node_of_chain.
  - exact data_is_linked.
  - apply node_answers_all.
  - exact empty_in_memory.
  - apply empty_store_ok.
  - lia.
  - unfold height, in_range, umax. lia.
  - vm_compute. discriminate.
  - exact Hrun.
Defined.
