(* ===== verification/GenesisBlock.v ===== *)
(** * The genesis block

    Models what [node/src/service.rs] makes of a chain specification: the genesis
    extrinsics read from its properties, [resolve_runtime_version_from_wasm] and
    [GenesisBlockBuilder] with [construct_genesis_block].

    The theorems follow the transactions of a launch from [GenesisSpec] through the
    genesis block to what the fetcher of the toolkit ([Fetcher]) extracts of it. *)

From stdpp Require Import prelude gmap strings.
From S2P Require Import Prelude Frame Collections CardanoTypes UtxoOrdering CNightFollower GenesisSnapshots.
From S2P Require Import GenesisSpec Version BlockStore Fetcher.

Open Scope Z_scope.

(** ** The extrinsics in a specification ([new_partial]) *)

(** [serde_json::Value], as far as it is told apart. *)
Inductive JsonValue : Type :=
| JsonString (s : list Z)
| JsonArray (l : list JsonValue)
| JsonOther.
Inductive ServiceError : Type :=
| MissingGenesisExtrinsics
| ExtrinsicsNotAVec
| ExtrinsicNotAString (v : JsonValue)
| ExtrinsicNotHex (s : list Z).

Definition as_str (v : JsonValue) : outcome ServiceError (list Z) :=
  match v with JsonString s => Ok s | _ => Err (ExtrinsicNotAString v) end.
(** [take_while(Result::is_ok)], and [unwrap] of what it lets through. *)
Fixpoint take_while_ok {E A : Type} (l : list (outcome E A)) : list A :=
  match l with
  | Ok x :: l => x :: take_while_ok l
  | _ => []
  end.
Definition read_genesis_extrinsics (properties : gmap string JsonValue) : outcome ServiceError (list (list Z)) :=
  value ← ok_or (properties !! "genesis_extrinsics"%string) MissingGenesisExtrinsics;
  array ← match value with JsonArray l => Ok l | _ => Err ExtrinsicsNotAVec end;
  try_collect (λ s, ok_or (hex_decode s) (ExtrinsicNotHex s)) (take_while_ok (as_str <$> array)).

(** ** The block *)

Record WasmVersion : Type := { spec_version : Z; state_version : Z }.
Record Header : Type := {
  header_number : Z;
  header_extrinsics_root : list Z;
  header_state_root : list Z;
  header_parent_hash : list Z;
  header_digest : list DigestItem;
}.
Inductive BlockchainError : Type :=
| Application
| VersionInvalid
| BackendError.

(** The backend, the executor and the hash of the runtime. *)
Class GenesisBackend : Type := {
  well_known_code : list Z;
  runtime_version : list Z → option WasmVersion;
  begin_operation : outcome BlockchainError unit;
  set_genesis_state : gmap (list Z) (list Z) → bool → Z → outcome BlockchainError (list Z);
  ordered_trie_root : list (list Z) → Z → list Z;
}.

Section Builder.
Context `{!GenesisBackend} `{!ExtrinsicCodec}.

Definition resolve_runtime_version_from_wasm (top : gmap (list Z) (list Z)) : outcome BlockchainError WasmVersion :=
  wasm ← ok_or (top !! well_known_code) VersionInvalid;
  ok_or (runtime_version wasm) VersionInvalid.
Definition construct_genesis_block (state_root : list Z) (state_version : Z) (extrinsics : list GenesisCall)
    (spec_version : Z) : Header * list GenesisCall :=
  ({| header_number := 0;
      header_extrinsics_root := ordered_trie_root (encode_bare <$> extrinsics) state_version;
      header_state_root := state_root;
      header_parent_hash := zero_hash;
      header_digest := [Consensus VERSION_ID (encode_u32 spec_version)] |}, extrinsics).
Definition build_genesis_block (genesis_storage : gmap (list Z) (list Z)) (commit_genesis_state : bool)
    (genesis_extrinsics : list (list Z)) : outcome BlockchainError (Header * list GenesisCall) :=
  extrinsics ← try_collect (λ ext_bytes, ok_or (decode_extrinsic ext_bytes) Application) genesis_extrinsics;
  runtime_version ← resolve_runtime_version_from_wasm genesis_storage;
  begin_operation ;;
  state_root ← set_genesis_state genesis_storage commit_genesis_state (state_version runtime_version);
  mret (construct_genesis_block state_root (state_version runtime_version) extrinsics (spec_version runtime_version)).
End Builder.

(** ** A specification gives its block *)

Section Launch.
Context `{!GenesisBackend} `{!ExtrinsicCodec} `{!ExtrinsicCodecLaws _}.

Lemma take_while_strings (l : list (list Z)) : take_while_ok (as_str <$> (JsonString <$> l)) = l.
Proof. induction l as [|s l IH]; [done|]. cbn [fmap list_fmap as_str take_while_ok]. by f_equal. Qed.
Lemma read_spec_extrinsics properties calls :
  properties !! "genesis_extrinsics"%string = Some (JsonArray (JsonString <$> (extrinsic_hex <$> calls))) →
  read_genesis_extrinsics properties = Ok (encode_bare <$> calls).
Proof.
  intros Hp. unfold read_genesis_extrinsics. rewrite Hp. cbn [ok_or mbind outcome_bind].
  rewrite take_while_strings. rewrite (try_collect_get _ (λ s, default [] (hex_decode s))).
  - f_equal. rewrite <-list_fmap_compose. apply list_fmap_ext. intros i c _. simpl. unfold extrinsic_hex.
    by rewrite hex_decode_encode by apply encode_bytes.
  - apply Forall_fmap, Forall_forall. intros c _. simpl. unfold extrinsic_hex.
    by rewrite hex_decode_encode by apply encode_bytes.
Qed.
Lemma build_block_eq top commit calls v :
  resolve_runtime_version_from_wasm top = Ok v →
  build_genesis_block top commit (encode_bare <$> calls) =
  (begin_operation ;; state_root ← set_genesis_state top commit (state_version v);
   mret (construct_genesis_block state_root (state_version v) calls (spec_version v))).
Proof.
  intros Hv. unfold build_genesis_block. rewrite (try_collect_get _ (λ b, default Genesis_other (decode_extrinsic b))).
  - rewrite <-list_fmap_compose. cbn [mbind outcome_bind]. rewrite Hv. cbn [mbind outcome_bind].
    rewrite (list_fmap_ext _ id), list_fmap_id; [done|]. intros i c _. simpl. by rewrite decode_encode.
  - apply Forall_fmap, Forall_forall. intros c _. simpl. by rewrite decode_encode.
Qed.

(** ** What the fetcher extracts of it *)

Context `{!Subxt}.

Definition runtime_call (c : GenesisCall) : ChainCall :=
  match c with
  | Genesis_send_mn_transaction tx => Call_send_mn_transaction tx
  | Genesis_send_mn_system_transaction tx => Call_send_mn_system_transaction tx
  | Genesis_timestamp_set now => Call_timestamp_set now
  | Genesis_remark _ | Genesis_process_tokens _ _ | Genesis_other => Call_other
  end.
Definition genesis_transaction (c : GenesisCall) : option RawTransaction :=
  match c with
  | Genesis_send_mn_transaction tx => Some (Raw_Midnight tx)
  | Genesis_send_mn_system_transaction tx => Some (Raw_System tx)
  | _ => None
  end.
(** The client decodes the extrinsics of a block to the calls in it. *)
Definition decodes (version : RuntimeVersion) (calls : list GenesisCall) (xs : list Extrinsic) : Prop :=
  Forall2 (λ c x, as_root_extrinsic version x = Some (runtime_call c)) calls xs.

Lemma extract_transactions version calls xs ts index rest :
  decodes version calls xs → Forall (λ c, ∀ now, c ≠ Genesis_timestamp_set now) calls →
  extract_extrinsics version 0 (λ _, []) index ts (xs ++ rest) =
  (r ← extract_extrinsics version 0 (λ _, []) (index + length xs)%nat ts rest;
   mret (r.1, omap genesis_transaction calls ++ r.2)).
Proof.
  intros Hd Hts. revert index. induction Hd as [|c x calls xs Hx Hd IH]; intros index; simpl.
  { rewrite Nat.add_0_r. by destruct (extract_extrinsics _ _ _ _ _ _) as [[? ?]| |]. }
  apply Forall_cons in Hts as [Hc Hts]. rewrite Hx.
  destruct c as [tx|tx|now| | |]; cbn; try (by destruct (Hc now)); rewrite (IH Hts), Nat.add_succ_r;
    by destruct (extract_extrinsics _ _ _ _ _ _) as [[? ?]| |].
Qed.
Lemma extract_genesis version txs t u remark xs :
  decodes version (genesis_calls txs t u remark) xs →
  extract_extrinsics version 0 (λ _, []) 0 None xs = Ok (Some (wrap 64 (t * 1000)), raw_tx <$> txs).
Proof.
  unfold genesis_calls. intros Hd. apply Forall2_app_inv_l in Hd as (xs1 & xs2 & Hd1 & Hd2 & ->).
  rewrite (extract_transactions version _ xs1 None 0 xs2 Hd1).
  2:{ apply Forall_fmap, Forall_forall. intros tx _ now. by destruct (raw_tx tx) eqn:E; simpl; rewrite E. }
  apply Forall2_cons_inv_l in Hd2 as (x & xs3 & Hx & Hd3 & ->). cbn [extract_extrinsics]. rewrite Hx.
  cbn [runtime_call timestamp_set_of event_transactions mbind outcome_bind mret outcome_ret fst snd].
  rewrite <-(app_nil_r xs3), (extract_transactions version _ xs3 _ _ [] Hd3).
  2:{ destruct remark; case_bool_decide; repeat constructor; done. }
  cbn [extract_extrinsics mbind outcome_bind mret outcome_ret fst snd app]. f_equal. f_equal. rewrite !app_nil_r.
  assert (omap genesis_transaction (match remark with Some r => [Genesis_remark r] | None => [] end ++
    (if bool_decide (observed u = []) then [] else [Genesis_process_tokens (observed u) (end_ u)])) = []) as ->.
  { destruct remark; by case_bool_decide. }
  rewrite app_nil_r. clear Hd1. induction txs as [|tx txs IH]; [done|]. rewrite !fmap_cons, omap_cons_eq, IH. simpl.
  by destruct (raw_tx tx).
Qed.

(** A client sees the header, the calls and, in the genesis block, no events. *)
Record serves (version : RuntimeVersion) (header : Header) (calls : list GenesisCall) (b : NodeBlock) : Prop := {
  serves_number : bl_number b = header_number header;
  serves_parent : bl_parent_hash b = header_parent_hash header;
  serves_logs : bl_logs b = header_digest header;
  serves_extrinsics : ∃ xs, bl_extrinsics b = Some xs ∧ decodes version calls xs;
  serves_events : header_number header = 0 → bl_events b = Some (λ _, []);
}.

Lemma runtime_version_roundtrip v : runtime_version_from_bytes (encode_u32 (to_spec_version v)) = Ok v.
Proof. by destruct v. Qed.
Lemma ledger_version_known v : is_Some (from_spec_version (to_spec_version v)).
Proof. by destruct v; eexists. Qed.
Lemma extract_built version fb header txs t u remark :
  serves version header (genesis_calls txs t u remark) (fb_block fb) → header_number header = 0 →
  header_digest header = [Consensus VERSION_ID (encode_u32 (to_spec_version version))] →
  0 ≤ t → t * 1000 < 2 ^ 64 →
  ∃ d, extract_data fb = Ok d ∧ rb_transactions d = raw_tx <$> txs ∧ rb_tblock_secs d = t ∧
    rb_number d = 0 ∧ rb_parent_hash d = header_parent_hash header ∧ rb_state d = fb_state fb ∧
    Some (rb_ledger_version d) = from_spec_version (to_spec_version version).
Proof.
  intros [Hn Hp Hl (xs & Hxs & Hd) Hev] Hzero Hdig Ht Ht'. specialize (Hev Hzero).
  destruct (ledger_version_known version) as [lv Hlv].
  unfold extract_data, find_version. rewrite Hl, Hdig.
  unfold process_block_with_protocol. rewrite Hxs, Hev, Hn, Hzero. cbn [omap list_omap].
  rewrite bool_decide_true by done. cbn [mbind outcome_bind]. rewrite runtime_version_roundtrip.
  cbn [mbind outcome_bind map_err unwrap]. rewrite (extract_genesis version txs t u remark xs Hd).
  cbn [mbind outcome_bind fst snd unwrap]. rewrite Hlv. cbn [ok_or mbind outcome_bind].
  eexists. split; [reflexivity|]. cbn. split_and!; try done.
  rewrite wrap_small by (unfold in_range, umax; lia). by rewrite Z.div_mul.
Qed.
End Launch.

(** C16: The transactions of a launch arrive.  The extrinsics of a specification are
    read and decoded to a genesis block without a loss; it has no parent and names
    the version of its runtime; and the fetcher of the toolkit extracts from it the
    generated transactions in their order, with the time they were generated for. *)
Theorem genesis_transactions_reach_the_toolkit `{!GenesisBackend} `{!ExtrinsicCodec} `{!ExtrinsicCodecLaws _} `{!Subxt}
    gb tip u remark t exts properties top commit wasm root version :
  (∀ tx, tx ∈ concat gb → context_tblock tx = t) → (concat gb = [] → tip = Some t) → 0 ≤ t → t * 1000 < 2 ^ 64 →
  get_chainspec_extrinsics gb tip u remark = Ok exts →
  properties !! "genesis_extrinsics"%string = Some (JsonArray (JsonString <$> exts)) →
  resolve_runtime_version_from_wasm top = Ok wasm → spec_version wasm = to_spec_version version →
  begin_operation = Ok tt → set_genesis_state top commit (state_version wasm) = Ok root →
  ∃ bytes header calls,
    read_genesis_extrinsics properties = Ok bytes ∧ build_genesis_block top commit bytes = Ok (header, calls) ∧
    header_state_root header = root ∧
    ∀ fb, serves version header calls (fb_block fb) →
      ∃ d, extract_data fb = Ok d ∧ rb_transactions d = raw_tx <$> concat gb ∧ rb_tblock_secs d = t ∧
        rb_number d = 0 ∧ rb_parent_hash d = zero_hash ∧ rb_state d = fb_state fb ∧
        Some (rb_ledger_version d) = from_spec_version (spec_version wasm).
Proof.
  intros Htx Htip Ht Ht' Hexts Hprop Hv Hspec Hbegin Hroot.
  rewrite (chainspec_extrinsics_eq gb tip u remark t) in Hexts by done. injection Hexts as <-.
  eexists _, _, _. split; [by apply read_spec_extrinsics|]. split.
  { rewrite (build_block_eq top commit _ wasm Hv), Hbegin. cbn [mbind outcome_bind]. by rewrite Hroot. }
  split; [done|]. intros fb Hserves. 
  destruct (extract_built version fb _ _ _ _ _ Hserves) as (d & Hd); [done|by rewrite <-Hspec|done|done|].
  exists d. by rewrite Hspec.
Qed.

(** An entry that is not a string is no error: it ends the list, and the extrinsics
    after it are left out of the genesis block. *)
Theorem non_string_extrinsic_truncates `{!ExtrinsicCodec} `{!ExtrinsicCodecLaws _} properties calls v rest :
  properties !! "genesis_extrinsics"%string =
    Some (JsonArray ((JsonString <$> (extrinsic_hex <$> calls)) ++ v :: rest)) →
  (∀ s, v ≠ JsonString s) → read_genesis_extrinsics properties = Ok (encode_bare <$> calls).
Proof.
  intros Hp Hv.
  assert (take_while_ok (as_str <$> ((JsonString <$> (extrinsic_hex <$> calls)) ++ v :: rest)) =
          take_while_ok (as_str <$> (JsonString <$> (extrinsic_hex <$> calls)))) as Heq.
  { clear Hp. induction calls as [|c calls IH]; [|cbn [fmap list_fmap app as_str take_while_ok]; by f_equal].
    destruct v as [s| |]; [by destruct (Hv s)|done..]. }
  rewrite <-(read_spec_extrinsics {["genesis_extrinsics"%string := JsonArray (JsonString <$> (extrinsic_hex <$> calls))]}).
  - unfold read_genesis_extrinsics. rewrite Hp, lookup_singleton_eq. cbn [ok_or mbind outcome_bind]. by rewrite Heq.
  - by rewrite lookup_singleton_eq.
Qed.

(** ** A launch of two transactions *)

Module GenesisBlockConcrete.
#[export] Existing Instance SpecConcrete.codec.
#[export] Existing Instance SpecConcrete.codec_laws.
#[export] Instance backend : GenesisBackend := {|
  well_known_code := [58];
  runtime_version _ := Some {| spec_version := 22000; state_version := 1 |};
  begin_operation := Ok tt;
  set_genesis_state _ _ _ := Ok [3];
  ordered_trie_root _ _ := [4];
|}.
(** Extrinsics are calls. *)
#[export] Instance calls_as_extrinsics : Subxt := {|
  Extrinsic := ChainCall;
  Event := unit;
  SubxtError := unit;
  as_root_extrinsic _ call := Some call;
  as_system_transaction_applied _ _ := Ok None;
|}.
Definition storage0 : gmap (list Z) (list Z) := {[ [58] := [1] ]}.
Definition calls0 : list GenesisCall :=
  genesis_calls (concat SpecConcrete.block0) 7 SpecConcrete.utxos0 (Some [65]).
Definition spec_properties : gmap string JsonValue :=
  {["genesis_extrinsics"%string := JsonArray (JsonString <$> (extrinsic_hex <$> calls0))]}.
(** The same with a number after the first transaction. *)
Definition broken_properties : gmap string JsonValue :=
  {["genesis_extrinsics"%string :=
      JsonArray ((JsonString <$> (extrinsic_hex <$> take 1 calls0)) ++
                 JsonOther :: (JsonString <$> (extrinsic_hex <$> drop 1 calls0)))]}.
Definition served : FetchedBlock := {|
  fb_block := {| bl_number := 0; bl_hash := [6]; bl_parent_hash := zero_hash;
                 bl_logs := [Consensus VERSION_ID (encode_u32 22000)];
                 bl_extrinsics := Some (runtime_call <$> calls0); bl_events := Some (λ _, []) |};
  fb_state_root := None; fb_state := Some [5] |}.
Lemma served_calls version : decodes version calls0 (runtime_call <$> calls0).
Proof. apply Forall2_fmap_r, Forall_Forall2_diag, Forall_forall. done. Qed.
End GenesisBlockConcrete.
Import GenesisBlockConcrete.

Lemma genesis_transactions_reach_the_toolkit_witness :
  ∃ d, extract_data served = Ok d ∧ rb_transactions d = [Raw_System [1]; Raw_Midnight [2]] ∧ rb_tblock_secs d = 7.
Proof.
  destruct (genesis_transactions_reach_the_toolkit SpecConcrete.block0 None SpecConcrete.utxos0 (Some [65]) 7
    (extrinsic_hex <$> calls0) spec_properties storage0 true {| spec_version := 22000; state_version := 1 |} [3] V0_22_0)
    as (bytes & header & calls & Hread & Hbuild & _ & Hd).
  - intros tx. cbn. rewrite !elem_of_cons, elem_of_nil. intros [->|[->|[]]]; reflexivity.
  - discriminate.
  - lia.
  - lia.
  - reflexivity.
  - unfold spec_properties. apply lookup_singleton_eq.
  - reflexivity.
  - reflexivity.
  - reflexivity.
  - reflexivity.
  - destruct (Hd served) as (d & Hd1 & Hd2 & Hd3 & _); [|exists d; split; [exact Hd1|]; split; [exact Hd2|exact Hd3]].
    rewrite (read_spec_extrinsics spec_properties calls0) in Hread by (apply lookup_singleton_eq).
    assert (bytes = encode_bare <$> calls0) as -> by congruence. rewrite (build_block_eq storage0 true calls0 {| spec_version := 22000; state_version := 1 |})
      in Hbuild by reflexivity.
    injection Hbuild as <- <-. split; try reflexivity. eexists. split; [reflexivity|apply served_calls].
Defined.

Lemma non_string_extrinsic_truncates_witness :
  read_genesis_extrinsics broken_properties = Ok [encode_bare (Genesis_send_mn_system_transaction [1])].
Proof.
  apply (non_string_extrinsic_truncates broken_properties (take 1 calls0) JsonOther
    (JsonString <$> (extrinsic_hex <$> drop 1 calls0))).
  - unfold broken_properties. apply lookup_singleton_eq.
  - discriminate.
Defined.
