(* ===== verification/GrpcSources.v ===== *)
(** * Data sources over gRPC

    Models the crate [data-sources]: what a node reads of Cardano when it is
    configured with a gRPC indexer in place of db-sync.  [conversions.rs] turns the
    messages of the protocol into the types of the followers, [requests/] sends the
    requests and [sources/] implements the traits.

    The indexer and the decoding of Plutus data are parameters.  The theorems compare
    the sources with those over db-sync ([CNightFollower], [FedAuthFollower],
    [CandidatesSource]), from which a node must not differ; as there, the order of
    iteration of a [HashMap] is the order of first insertion. *)

From stdpp Require Import prelude gmap strings.
From S2P Require Import Prelude Frame Collections Constants Weights CardanoTypes FedAuthObservation Governance.
From S2P Require Import CNightFollower FedAuthFollower Committee GenesisSnapshots CandidatesSource.

Open Scope Z_scope.

(** ** The protocol ([midnight_indexer.proto]) *)

(** [tonic::Status]; the codes the code tells apart or sets. *)
Inductive Code : Type := Code_NotFound | Code_Internal | Code_InvalidArgument | Code_Other.
#[export] Instance Code_eq_dec : EqDecision Code.
Proof. solve_decision. Defined.
Inductive CandidateConversionError : Type :=
| MissingStakeKey
| InvalidDatum
| InvalidHashLength
| InvalidIndex.
Inductive StatusMessage : Type :=
| Msg_server (text : list Z)
| Msg_missing_kind
| Msg_hash_length
| Msg_address_length
| Msg_invalid_cbor
| Msg_not_constr
| Msg_datum (e : RegistrationDatumDecodeError)
| Msg_reward_address_length
| Msg_capacity_too_large
| Msg_missing_next_position
| Msg_next_position_hash_length
| Msg_ariadne_datum
| Msg_candidate (e : CandidateConversionError)
| Msg_missing_block.
Record Status : Type := { status_code : Code; status_message : StatusMessage }.
Definition internal (m : StatusMessage) : Status := {| status_code := Code_Internal; status_message := m |}.

Record AssetCreateEvent : Type := {
  ace_address : list Z; ace_quantity : Z; ace_tx_hash : list Z; ace_output_index : Z;
  ace_block_number : Z; ace_block_hash : list Z; ace_tx_index : Z; ace_block_timestamp_unix_millis : Z;
}.
Record AssetSpendEvent : Type := {
  ase_address : list Z; ase_quantity : Z; ase_spending_tx_hash : list Z; ase_block_number : Z;
  ase_block_hash : list Z; ase_tx_index : Z; ase_utxo_tx_hash : list Z; ase_utxo_index : Z;
  ase_block_timestamp_unix_millis : Z;
}.
Record RegistrationEvent : Type := {
  rge_full_datum : list Z; rge_tx_hash : list Z; rge_output_index : Z; rge_block_number : Z;
  rge_block_hash : list Z; rge_tx_index : Z; rge_block_timestamp_unix_millis : Z;
}.
Record DeregistrationEvent : Type := {
  dge_full_datum : list Z; dge_tx_hash : list Z; dge_block_number : Z; dge_block_hash : list Z;
  dge_tx_index : Z; dge_utxo_tx_hash : list Z; dge_utxo_index : Z; dge_block_timestamp_unix_millis : Z;
}.
Inductive Kind : Type :=
| Kind_AssetCreate (e : AssetCreateEvent)
| Kind_AssetSpend (e : AssetSpendEvent)
| Kind_Registration (e : RegistrationEvent)
| Kind_Deregistration (e : DeregistrationEvent).
(** [UtxoEvent]: a message may lack its kind. *)
Definition UtxoEvent : Type := option Kind.
Record GrpcCardanoPosition : Type := {
  gp_block_hash : list Z; gp_block_number : Z; gp_tx_index : Z; gp_block_timestamp_unix_millis : Z;
}.
Record UtxoEventsRequest : Type := {
  uer_tx_capacity : Z; uer_end_block_hash : list Z; uer_start_position : GrpcCardanoPosition;
}.
Record UtxoEventsResponse : Type := { uer_events : list UtxoEvent; uer_next_position : option GrpcCardanoPosition }.

Record UtxoIdProto : Type := { up_tx_hash : list Z; up_index : Z }.
Record EpochCandidate : Type := {
  ec_full_datum : list Z; ec_utxo_tx_hash : list Z; ec_utxo_index : Z; ec_tx_inputs : list UtxoIdProto;
  ec_epoch_number : Z; ec_block_number : Z; ec_slot_number : Z; ec_tx_index : Z;
}.
Record EpochCandidatesResponse : Type := {
  ecr_candidates : list EpochCandidate;
  (** Hashes of pools with their stakes. *)
  ecr_stake_distribution : list StakePoolEntry;
}.
Record BlockByHashResponse : Type := {
  bhr_block_number : Z; bhr_tx_count : Z; bhr_block_timestamp_unix : Z; bhr_epoch_number : Z; bhr_slot_number : Z;
}.
Record GrpcBlock : Type := {
  gb_block_number : Z; gb_block_hash : list Z; gb_epoch_number : Z; gb_slot_number : Z; gb_block_timestamp_unix : Z;
}.
(** The client of the service, as far as requests are sent. *)
Record MidnightStateClient : Type := {
  rpc_get_utxo_events : UtxoEventsRequest → outcome Status UtxoEventsResponse;
  rpc_get_block_by_hash : list Z → outcome Status BlockByHashResponse;
  rpc_get_council_datum : Z → outcome Status (list Z);
  rpc_get_technical_committee_datum : Z → outcome Status (list Z);
  rpc_get_ariadne_parameters : Z → outcome Status (list Z);
  rpc_get_epoch_candidates : Z → outcome Status EpochCandidatesResponse;
  rpc_get_epoch_nonce : Z → outcome Status (option (list Z));
  rpc_get_latest_stable_block : Z → Z → outcome Status (option GrpcBlock);
  rpc_get_stable_block : list Z → Z → Z → outcome Status (option GrpcBlock);
  rpc_get_latest_block : outcome Status (option GrpcBlock);
}.

(** ** Conversions ([conversions.rs]) *)

Definition hash32 (bytes : list Z) : outcome Status (list Z) :=
  if bool_decide (length bytes = 32%nat) then Ok bytes else Err (internal Msg_hash_length).
(** [x as u32] and [x as u16]. *)
Definition as_u32 (n : Z) : Z := wrap 32 n.
Definition as_u16 (n : Z) : Z := wrap 16 n.

Section Conversions.
Context {L : CardanoLib}.
(** [PlutusData::from_bytes]. *)
Context (plutus_from_bytes : list Z → option (PlutusData L)).

Definition event_position (hash : list Z) (number time index : Z) : outcome Status CardanoPosition :=
  block_hash ← hash32 hash;
  mret {| block_hash := block_hash; block_number := as_u32 number; block_timestamp := time;
          tx_index_in_block := index |}.
(** A copy of the function of [data_source/cnight_observation.rs], line by line. *)
Definition grpc_decode_registration_datum (datum : Z * list (PlutusData L)) :
    outcome RegistrationDatumDecodeError (Credential L * list Z) := decode_registration_datum datum.
(** The datum of a registration: the reward address and the DUST key. *)
Definition registration_of_datum (cardano_network : Z) (full_datum : list Z) : outcome Status (list Z * list Z) :=
  datum ← ok_or (plutus_from_bytes full_datum) (internal Msg_invalid_cbor);
  constr ← ok_or (as_constr_plutus_data L datum) (internal Msg_not_constr);
  decoded ← map_err (λ e, internal (Msg_datum e)) (grpc_decode_registration_datum constr);
  reward_bytes ← ok_or (reward_address_try_from (reward_address_bytes L cardano_network decoded.1))
                   (internal Msg_reward_address_length);
  mret (reward_bytes, decoded.2).

Definition observed_utxo_from_event (event : UtxoEvent) (cardano_network : Z) : outcome Status ObservedUtxo :=
  kind ← ok_or event (internal Msg_missing_kind);
  match kind with
  | Kind_AssetCreate e =>
      position ← event_position (ace_block_hash e) (ace_block_number e)
                   (ace_block_timestamp_unix_millis e) (ace_tx_index e);
      tx_hash ← hash32 (ace_tx_hash e);
      utxo_tx_hash ← hash32 (ace_tx_hash e);
      owner ← ok_or (reward_address_try_from (ace_address e)) (internal Msg_address_length);
      mret {| header := {| tx_position := position; tx_hash := tx_hash; utxo_tx_hash := utxo_tx_hash;
                           utxo_index := as_u16 (ace_output_index e) |};
              data := AssetCreate {| create_value := ace_quantity e; create_owner := owner;
                                     create_utxo_tx_hash := ace_tx_hash e;
                                     create_utxo_tx_index := as_u16 (ace_output_index e) |} |}
  | Kind_AssetSpend e =>
      position ← event_position (ase_block_hash e) (ase_block_number e)
                   (ase_block_timestamp_unix_millis e) (ase_tx_index e);
      spending ← hash32 (ase_spending_tx_hash e);
      utxo_tx_hash ← hash32 (ase_utxo_tx_hash e);
      owner ← ok_or (reward_address_try_from (ase_address e)) (internal Msg_address_length);
      mret {| header := {| tx_position := position; tx_hash := spending; utxo_tx_hash := utxo_tx_hash;
                           utxo_index := as_u16 (ase_utxo_index e) |};
              data := AssetSpend {| spend_value := ase_quantity e; spend_owner := owner;
                                    spend_utxo_tx_hash := utxo_tx_hash;
                                    spend_utxo_tx_index := as_u16 (ase_utxo_index e);
                                    spending_tx_hash := spending |} |}
  | Kind_Registration e =>
      position ← event_position (rge_block_hash e) (rge_block_number e)
                   (rge_block_timestamp_unix_millis e) (rge_tx_index e);
      tx_hash ← hash32 (rge_tx_hash e);
      utxo_tx_hash ← hash32 (rge_tx_hash e);
      registration ← registration_of_datum cardano_network (rge_full_datum e);
      mret {| header := {| tx_position := position; tx_hash := tx_hash; utxo_tx_hash := utxo_tx_hash;
                           utxo_index := as_u16 (rge_output_index e) |};
              data := Registration {| reg_cardano_reward_address := registration.1;
                                      reg_dust_public_key := registration.2 |} |}
  | Kind_Deregistration e =>
      position ← event_position (dge_block_hash e) (dge_block_number e)
                   (dge_block_timestamp_unix_millis e) (dge_tx_index e);
      tx_hash ← hash32 (dge_tx_hash e);
      utxo_tx_hash ← hash32 (dge_utxo_tx_hash e);
      registration ← registration_of_datum cardano_network (dge_full_datum e);
      mret {| header := {| tx_position := position; tx_hash := tx_hash; utxo_tx_hash := utxo_tx_hash;
                           utxo_index := as_u16 (dge_utxo_index e) |};
              data := Deregistration {| dereg_cardano_reward_address := registration.1;
                                        dereg_dust_public_key := registration.2 |} |}
  end.

(** ** The observation of cNIGHT *)

(** A [usize] of at most [u32::MAX]. *)
Definition u32_try_from (n : Z) : option Z := if bool_decide (n ≤ 2 ^ 32 - 1) then Some n else None.
Definition cardano_position_from_response (p : GrpcCardanoPosition) : outcome Status CardanoPosition :=
  if bool_decide (length (gp_block_hash p) = 32%nat)
  then mret {| block_hash := gp_block_hash p; block_number := gp_block_number p;
               block_timestamp := gp_block_timestamp_unix_millis p; tx_index_in_block := gp_tx_index p |}
  else Err (internal Msg_next_position_hash_length).
Definition grpc_position (p : CardanoPosition) : GrpcCardanoPosition := {|
  gp_block_hash := block_hash p; gp_block_number := block_number p; gp_tx_index := tx_index_in_block p;
  gp_block_timestamp_unix_millis := block_timestamp p |}.
Definition get_utxo_events (client : MidnightStateClient) (cardano_network : Z) (start_position : CardanoPosition)
    (tx_capacity : Z) (end_block_hash : list Z) : outcome Status (list ObservedUtxo * CardanoPosition) :=
  tx_capacity ← ok_or (u32_try_from tx_capacity)
    {| status_code := Code_InvalidArgument; status_message := Msg_capacity_too_large |};
  response ← rpc_get_utxo_events client {| uer_tx_capacity := tx_capacity; uer_end_block_hash := end_block_hash;
                                           uer_start_position := grpc_position start_position |};
  utxos ← try_collect (λ e, observed_utxo_from_event e cardano_network) (uer_events response);
  next_position ← ok_or (uer_next_position response) (internal Msg_missing_next_position);
  next_position ← cardano_position_from_response next_position;
  mret (utxos, next_position).

Inductive AcropolisError : Type :=
| Acropolis_CardanoNetworkError (address : list Z)
| Acropolis_MappingValidatorInvalidAddress (text : list Z)
| Acropolis_GRPCQueryError (s : Status).
Definition get_cardano_network (config : CNightAddresses) : outcome AcropolisError Z :=
  addr ← map_err Acropolis_MappingValidatorInvalidAddress
           (address_from_bech32 L (mapping_validator_address config));
  ok_or (network_id L addr) (Acropolis_CardanoNetworkError (mapping_validator_address config)).
Definition grpc_get_utxos_up_to_capacity (client : MidnightStateClient) (config : CNightAddresses)
    (start_position : CardanoPosition) (current_tip : list Z) (tx_capacity : Z) :
    outcome AcropolisError ObservedUtxos :=
  cardano_network ← get_cardano_network config;
  response ← map_err Acropolis_GRPCQueryError
    (get_utxo_events client cardano_network start_position tx_capacity current_tip);
  mret {| start := start_position; end_ := response.2; CardanoTypes.observed := response.1 |}.
End Conversions.

(** ** The federated authority *)

Section Authorities.
Context {L : CardanoLib} (P : PlutusLib L) (plutus_from_bytes : list Z → option (PlutusData L)).

(** A copy of the function of [data_source/federated_authority_observation.rs]. *)
Definition grpc_decode_governance_datum (datum : PlutusData L) : outcome DatumError GovernanceAuthorityDatums :=
  decode_governance_datum P datum.
Definition empty_authorities_data : AuthoritiesData := {| authorities := []; round := 0 |}.
Definition load_authorities (response : outcome Status (list Z)) : outcome Status AuthoritiesData :=
  match response with
  | Ok bytes =>
      Ok (match plutus_from_bytes bytes with
          | None => empty_authorities_data
          | Some datum =>
              match grpc_decode_governance_datum datum with
              | Ok authorities => authorities_data_from authorities
              | _ => empty_authorities_data
              end
          end)
  | Err status => if bool_decide (status_code status = Code_NotFound) then Ok empty_authorities_data else Err status
  | Panic => Panic
  end.
Definition get_block_number_by_hash (client : MidnightStateClient) (block_hash : list Z) : outcome Status Z :=
  response ← rpc_get_block_by_hash client block_hash;
  mret (bhr_block_number response).
(** [u64::from] of the block number is the number. *)
Definition grpc_get_federated_authority_data (client : MidnightStateClient)
    (_config : FederatedAuthorityObservationConfig) (mc_block_hash : list Z) :
    outcome Status FederatedAuthorityData :=
  block_number ← get_block_number_by_hash client mc_block_hash;
  council_authorities ← load_authorities (rpc_get_council_datum client block_number);
  technical_committee_authorities ← load_authorities (rpc_get_technical_committee_datum client block_number);
  mret {| council_authorities := council_authorities;
          technical_committee_authorities := technical_committee_authorities;
          mc_block_hash := mc_block_hash |}.
End Authorities.

(** ** The selection of authorities *)

Section Selection.
Context `{!CandidatesLib} (cplutus_from_bytes : list Z → option CPlutusData).

(** [TryFrom<UtxoIdProto> for UtxoId]; an index is a [u16]. *)
Definition u16_try_from (n : Z) : outcome CandidateConversionError Z :=
  if bool_decide (n ≤ 65535) then Ok n else Err InvalidIndex.
Definition u32_index_try_from (n : Z) : outcome CandidateConversionError Z :=
  if bool_decide (n ≤ 2 ^ 32 - 1) then Ok n else Err InvalidIndex.
Definition hash_of_length (n : nat) (bytes : list Z) : outcome CandidateConversionError (list Z) :=
  if bool_decide (length bytes = n) then Ok bytes else Err InvalidHashLength.
Definition utxo_id_try_from (value : UtxoIdProto) : outcome CandidateConversionError UtxoId :=
  tx_hash ← hash_of_length 32 (up_tx_hash value);
  index ← u16_try_from (up_index value);
  mret {| uid_tx_hash := tx_hash; uid_index := index |}.
Definition utxo_info_try_from (value : EpochCandidate) : outcome CandidateConversionError (UtxoId * Z * Z * Z * Z) :=
  tx_hash ← hash_of_length 32 (ec_utxo_tx_hash value);
  index ← u16_try_from (ec_utxo_index value);
  epoch_number ← u32_index_try_from (ec_epoch_number value);
  block_number ← u32_index_try_from (ec_block_number value);
  mret ({| uid_tx_hash := tx_hash; uid_index := index |}, epoch_number, block_number,
        ec_slot_number value, ec_tx_index value).
(** [TryFrom<EpochCandidate>]: the key of the pool and the registration. *)
Definition candidate_try_from (value : EpochCandidate) :
    outcome CandidateConversionError (StakePoolPublicKey * CandidateRegistrationData) :=
  utxo_info ← utxo_info_try_from value;
  tx_inputs ← try_collect utxo_id_try_from (ec_tx_inputs value);
  plutus ← ok_or (cplutus_from_bytes (ec_full_datum value)) InvalidDatum;
  datum ← ok_or (register_validator_try_from plutus) InvalidDatum;
  let registration signature sidechain_pub_key sidechain_signature registration_utxo keys := {|
    rd_registration_utxo := registration_utxo; rd_tx_inputs := tx_inputs;
    rd_sidechain_signature := sidechain_signature; rd_mainchain_signature := signature;
    rd_cross_chain_signature := sidechain_signature; rd_sidechain_pub_key := sidechain_pub_key;
    rd_cross_chain_pub_key := sidechain_pub_key; rd_keys := keys; rd_utxo_info := utxo_info |} in
  match datum with
  | V0 pub_key signature sidechain_pub_key sidechain_signature registration_utxo _ aura grandpa =>
      mret (pub_key, registration signature sidechain_pub_key sidechain_signature registration_utxo
              [{| key_id := AURA; key_bytes := aura |}; {| key_id := GRANDPA; key_bytes := grandpa |}])
  | V1 pub_key signature sidechain_pub_key sidechain_signature registration_utxo _ keys =>
      mret (pub_key, registration signature sidechain_pub_key sidechain_signature registration_utxo keys)
  end.
Definition grpc_make_stake_map (entries : list StakePoolEntry) : outcome CandidateConversionError (gmap (list Z) Z) :=
  pairs ← try_collect (λ e, hash ← hash_of_length 28 (pool_hash e); mret (hash, stake e)) entries;
  mret (foldl (λ m kv, <[kv.1 := kv.2]> m) ∅ pairs).
Definition grpc_get_stake_delegation (stake_map : gmap (list Z) Z) (stake_pool_pub_key : StakePoolPublicKey) : option Z :=
  if bool_decide (stake_map = ∅) then None
  else Some (default 0 (stake_map !! key_hash_from_vkey stake_pool_pub_key)).

Definition candidate_status (e : CandidateConversionError) : Status := internal (Msg_candidate e).
Definition requests_get_candidates (client : MidnightStateClient) (epoch : Z) : outcome Status (list CandidateRegistrations) :=
  response ← rpc_get_epoch_candidates client epoch;
  stake_map ← map_err candidate_status (grpc_make_stake_map (ecr_stake_distribution response));
  candidates ← try_collect (λ c, map_err candidate_status (candidate_try_from c)) (ecr_candidates response);
  mret ((λ g, {| cr_stake_pool_public_key := g.1; cr_registrations := g.2;
                 cr_stake_delegation := grpc_get_stake_delegation stake_map g.1 |}) <$> group_by candidates).
Definition get_permissioned_candidates (client : MidnightStateClient) (epoch : Z) :
    outcome Status (option (list PermissionedCandidateData)) :=
  datum ← rpc_get_ariadne_parameters client epoch;
  if bool_decide (datum = []) then mret None
  else
    plutus ← ok_or (cplutus_from_bytes datum) (internal Msg_ariadne_datum);
    datums ← ok_or (permissioned_candidates_try_from plutus) (internal Msg_ariadne_datum);
    mret (Some datums).

Inductive SelectionError : Type :=
| Selection_Epoch (offset : Z)
| Selection_GRPCQueryError (s : Status).
Definition authority_selection_query_epoch (for_epoch : Z) : outcome SelectionError Z :=
  match offset_data_epoch for_epoch with inr e => Ok e | inl offset => Err (Selection_Epoch offset) end.
Definition grpc_get_ariadne_parameters (client : MidnightStateClient) (epoch : Z)
    (_d_parameter_policy _permissioned_candidate_policy : list Z) : outcome SelectionError AriadneParameters :=
  query_epoch ← authority_selection_query_epoch epoch;
  permissioned ← map_err Selection_GRPCQueryError (get_permissioned_candidates client query_epoch);
  mret {| num_permissioned_candidates := 0; num_registered_candidates := 0; permissioned_candidates := permissioned |}.
Definition grpc_get_candidates (client : MidnightStateClient) (epoch : Z) (_committee_candidate_address : list Z) :
    outcome SelectionError (list CandidateRegistrations) :=
  query_epoch ← authority_selection_query_epoch epoch;
  map_err Selection_GRPCQueryError (requests_get_candidates client query_epoch).
Definition grpc_get_epoch_nonce (client : MidnightStateClient) (epoch : Z) : outcome SelectionError (option (list Z)) :=
  query_epoch ← authority_selection_query_epoch epoch;
  map_err Selection_GRPCQueryError (rpc_get_epoch_nonce client query_epoch).
Definition data_epoch (for_epoch : Z) : outcome SelectionError Z := authority_selection_query_epoch for_epoch.
End Selection.

(** ** Stable blocks and the latest block *)

(** [sidechain_domain::MainchainBlock]. *)
Record MainchainBlock : Type := { mb_number : Z; mb_hash : list Z; mb_epoch : Z; mb_slot : Z; mb_timestamp : Z }.
Definition mainchain_block (block : GrpcBlock) : outcome Status MainchainBlock :=
  hash ← hash32 (gb_block_hash block);
  mret {| mb_number := gb_block_number block; mb_hash := hash; mb_epoch := gb_epoch_number block;
          mb_slot := gb_slot_number block; mb_timestamp := gb_block_timestamp_unix block |}.
(** [map(..).transpose()]. *)
Definition transpose_block (block : option GrpcBlock) : outcome Status (option MainchainBlock) :=
  match block with Some b => b ← mainchain_block b; mret (Some b) | None => mret None end.
Definition requests_get_latest_stable_block (client : MidnightStateClient) (stability_offset as_of : Z) :
    outcome Status (option MainchainBlock) :=
  block ← rpc_get_latest_stable_block client stability_offset as_of; transpose_block block.
Definition requests_get_stable_block (client : MidnightStateClient) (hash : list Z) (stability_offset as_of : Z) :
    outcome Status (option MainchainBlock) :=
  block ← rpc_get_stable_block client hash stability_offset as_of; transpose_block block.
(** [response.block_timestamp_unix as u64]. *)
Definition requests_get_block_by_hash (client : MidnightStateClient) (block_hash : list Z) :
    outcome Status (option MainchainBlock) :=
  response ← rpc_get_block_by_hash client block_hash;
  mret (Some {| mb_number := bhr_block_number response; mb_hash := block_hash; mb_epoch := bhr_epoch_number response;
                mb_slot := bhr_slot_number response; mb_timestamp := wrap 64 (bhr_block_timestamp_unix response) |}).
Definition requests_get_latest_block (client : MidnightStateClient) : outcome Status MainchainBlock :=
  block ← rpc_get_latest_block client;
  block ← ok_or block (internal Msg_missing_block);
  mainchain_block block.

Record McHashDataSource : Type := {
  mh_client : MidnightStateClient; security_parameter : Z; block_stability_margin : Z;
}.
(** The sum of two [u32]s; an overflow panics in a debug build. *)
Definition stability_offset (s : McHashDataSource) : Z := wrap 32 (security_parameter s + block_stability_margin s).
Definition get_latest_stable_block_for (s : McHashDataSource) (as_of_timestamp : Z) :
    outcome Status (option MainchainBlock) :=
  requests_get_latest_stable_block (mh_client s) (stability_offset s) as_of_timestamp.
Definition get_stable_block_for (s : McHashDataSource) (hash : list Z) (as_of_timestamp : Z) :
    outcome Status (option MainchainBlock) :=
  requests_get_stable_block (mh_client s) hash (stability_offset s) as_of_timestamp.
Definition mc_get_block_by_hash (s : McHashDataSource) (hash : list Z) : outcome Status (option MainchainBlock) :=
  requests_get_block_by_hash (mh_client s) hash.
Definition get_latest_block_info (client : MidnightStateClient) : outcome Status MainchainBlock :=
  requests_get_latest_block client.

(** ** The choice of the sources ([node/src/main_chain_follower.rs]) *)

Inductive SourceKind : Type := Mock | Grpc | DbSync | DbSyncCached.
Record DataSources : Type := {
  ds_mc_hash : SourceKind; ds_authority_selection : SourceKind; ds_cnight_observation : SourceKind;
  ds_sidechain_rpc : SourceKind; ds_federated_authority_observation : SourceKind; ds_bridge : SourceKind;
}.
(** The part of [MidnightCfg] that is read; the fields a source needs may be missing. *)
Record MidnightCfg : Type := {
  use_main_chain_follower_mock : bool;
  mock_registrations_file : option (list Z);
  grpc_endpoint : option (list Z);
  db_sync_postgres_connection_string : option (list Z);
  cardano_security_parameter : option Z;
  cardano_active_slots_coeff : option Z;
  cfg_block_stability_margin : option Z;
}.
Inductive FollowerError : Type :=
| Missing (field : string)
| Connect.
(** [connects] is whether files can be read and connections are made. *)
Definition create_mock_data_sources (cfg : MidnightCfg) (connects : bool) : outcome FollowerError DataSources :=
  _file ← ok_or (mock_registrations_file cfg) (Missing "mock_registrations_file"%string);
  if connects then Ok {| ds_sidechain_rpc := Mock; ds_mc_hash := Mock; ds_authority_selection := Mock;
                         ds_cnight_observation := Mock; ds_federated_authority_observation := Mock;
                         ds_bridge := Mock |}
  else Err Connect.
Definition block_source_config (cfg : MidnightCfg) : outcome FollowerError (Z * Z * Z) :=
  k ← ok_or (cardano_security_parameter cfg) (Missing "cardano_security_parameter"%string);
  f ← ok_or (cardano_active_slots_coeff cfg) (Missing "cardano_active_slots_coeff"%string);
  m ← ok_or (cfg_block_stability_margin cfg) (Missing "block_stability_margin"%string);
  mret (k, f, m).
Definition create_acropolis_data_sources (cfg : MidnightCfg) (connects : bool) : outcome FollowerError DataSources :=
  _endpoint ← ok_or (grpc_endpoint cfg) (Missing "grpc_endpoint"%string);
  _config ← block_source_config cfg;
  if connects then Ok {| ds_sidechain_rpc := Grpc; ds_mc_hash := Grpc; ds_authority_selection := Grpc;
                         ds_cnight_observation := Grpc; ds_federated_authority_observation := Grpc;
                         ds_bridge := Mock |}
  else Err Connect.
Definition create_cached_data_sources (cfg : MidnightCfg) (connects : bool) : outcome FollowerError DataSources :=
  _uri ← ok_or (db_sync_postgres_connection_string cfg) (Missing "db_sync_postgres_connection_string"%string);
  _config ← block_source_config cfg;
  if connects then Ok {| ds_sidechain_rpc := DbSync; ds_mc_hash := DbSync; ds_authority_selection := DbSyncCached;
                         ds_cnight_observation := DbSync; ds_federated_authority_observation := DbSync;
                         ds_bridge := DbSyncCached |}
  else Err Connect.
Definition create_cached_main_chain_follower_data_sources (cfg : MidnightCfg) (connects : bool) :
    outcome FollowerError DataSources :=
  if use_main_chain_follower_mock cfg then create_mock_data_sources cfg connects
  else if grpc_endpoint cfg then create_acropolis_data_sources cfg connects
  else create_cached_data_sources cfg connects.

(** ** The two sources of cNIGHT events agree *)

Section WindowAgreement.
Context {L : CardanoLib} (plutus_from_bytes : list Z → option (PlutusData L)).

(** A row of one of the four queries, and what db-sync's source makes of it. *)
Inductive AnyRow : Type :=
| Any_registration (r : RegistrationRow L)
| Any_deregistration (r : DeregistrationRow L)
| Any_create (r : AssetCreateRow L)
| Any_spend (r : AssetSpendRow L).
Definition any_row_utxo {E : Type} (net : Z) (r : AnyRow) : outcome E (option ObservedUtxo) :=
  match r with
  | Any_registration r => registration_utxo net r
  | Any_deregistration r => deregistration_utxo net r
  | Any_create r => asset_create_utxo net r
  | Any_spend r => asset_spend_utxo net r
  end.

(** The message for a row, as the protocol describes it: an asset event carries the
    reward address of the holder, the others the bytes of the datum. *)
Definition carries_position (p : RowPosition L) (hash : list Z) (number index time : Z) : Prop :=
  hash = row_block_hash L p ∧ number = row_block_number L p ∧ index = row_tx_index_in_block L p ∧
  time = timestamp_millis L (row_block_timestamp L p) ∧ length hash = 32%nat ∧ in_range 32 number.
Definition carries_output (tx hash : list Z) (i index : Z) : Prop :=
  tx = hash ∧ i = index ∧ length tx = 32%nat ∧ in_range 16 index.
Definition carries (net : Z) (k : Kind) (r : AnyRow) : Prop :=
  match k, r with
  | Kind_Registration e, Any_registration r =>
      carries_position (rr_position L r) (rge_block_hash e) (rge_block_number e) (rge_tx_index e)
        (rge_block_timestamp_unix_millis e) ∧
      carries_output (rge_tx_hash e) (rr_tx_hash L r) (rge_output_index e) (rr_utxo_index L r) ∧
      plutus_from_bytes (rge_full_datum e) = Some (rr_full_datum L r)
  | Kind_Deregistration e, Any_deregistration r =>
      carries_position (dr_position L r) (dge_block_hash e) (dge_block_number e) (dge_tx_index e)
        (dge_block_timestamp_unix_millis e) ∧
      carries_output (dge_utxo_tx_hash e) (dr_utxo_tx_hash L r) (dge_utxo_index e) (dr_utxo_index L r) ∧
      dge_tx_hash e = dr_tx_hash L r ∧ length (dge_tx_hash e) = 32%nat ∧
      plutus_from_bytes (dge_full_datum e) = Some (dr_full_datum L r)
  | Kind_AssetCreate e, Any_create r =>
      carries_position (ac_position L r) (ace_block_hash e) (ace_block_number e) (ace_tx_index e)
        (ace_block_timestamp_unix_millis e) ∧
      carries_output (ace_tx_hash e) (ac_tx_hash L r) (ace_output_index e) (ac_utxo_index L r) ∧
      ace_quantity e = ac_quantity L r ∧ in_range 64 (ac_quantity L r) ∧
      ∃ cred, holder_stake_cred (ac_holder_address L r) = Some cred ∧
        ace_address e = reward_address_bytes L net cred
  | Kind_AssetSpend e, Any_spend r =>
      carries_position (as_position L r) (ase_block_hash e) (ase_block_number e) (ase_tx_index e)
        (ase_block_timestamp_unix_millis e) ∧
      carries_output (ase_utxo_tx_hash e) (as_utxo_tx_hash L r) (ase_utxo_index e) (as_utxo_index L r) ∧
      ase_spending_tx_hash e = as_spending_tx_hash L r ∧ length (ase_spending_tx_hash e) = 32%nat ∧
      ase_quantity e = as_quantity L r ∧ in_range 64 (as_quantity L r) ∧
      ∃ cred, holder_stake_cred (as_holder_address L r) = Some cred ∧
        ase_address e = reward_address_bytes L net cred
  | _, _ => False
  end.

Context (net : Z) (Hlib : CardanoLibSpec L).

Lemma hash32_ok h : length h = 32%nat → hash32 h = Ok h.
Proof. intros Hh. unfold hash32. by rewrite bool_decide_true. Qed.
Lemma event_position_ok p hash number index time :
  carries_position p hash number index time → event_position hash number time index = Ok (position_of_row p).
Proof.
  intros (-> & -> & -> & -> & Hlen & Hn). unfold event_position. rewrite hash32_ok by done.
  cbn [mbind outcome_bind]. unfold as_u32. by rewrite wrap_small.
Qed.
Lemma reward_address_ok {E : Type} cred :
  reward_address_try_from (reward_address_bytes L net cred) = Some (reward_address_bytes L net cred) ∧
  reward_address (E := E) net cred = Ok (reward_address_bytes L net cred).
Proof.
  unfold reward_address, reward_address_try_from.
  by rewrite decide_True by apply reward_address_bytes_length.
Qed.
Lemma decode_registration_no_panic (c : Z * list (PlutusData L)) : decode_registration_datum c ≠ Panic.
Proof.
  unfold decode_registration_datum. destruct (head c.2 ≫= _) as [cred|]; [|done].
  repeat case_bool_decide; simpl; repeat case_match; simplify_eq/=; try done.
  all: unfold ok_or in *; repeat case_match; simplify_eq/=; done.
Qed.

(** The datum decodes for both or for neither. *)
Lemma registration_of_datum_agrees d bytes :
  plutus_from_bytes bytes = Some d →
  (∃ cred key, as_constr_plutus_data L d ≫= (λ c, match decode_registration_datum c with Ok x => Some x | _ => None end)
      = Some (cred, key) ∧
    registration_of_datum plutus_from_bytes net bytes = Ok (reward_address_bytes L net cred, key)) ∨
  (as_constr_plutus_data L d ≫= (λ c, match decode_registration_datum c with Ok x => Some x | _ => None end) = None ∧
   ∃ s, registration_of_datum plutus_from_bytes net bytes = Err s).
Proof.
  intros Hd. unfold registration_of_datum, grpc_decode_registration_datum. rewrite Hd. cbn [ok_or mbind outcome_bind].
  destruct (as_constr_plutus_data L d) as [c|]; simpl; [|right; eauto].
  pose proof (decode_registration_no_panic c). destruct (decode_registration_datum c) as [[cred key]|e|]; simpl; [|right; eauto|done].
  left. exists cred, key. split; [done|]. by rewrite (proj1 (reward_address_ok (E := Empty_set) cred)).
Qed.

Lemma event_agrees {E : Type} k r :
  carries net k r →
  (∃ u, any_row_utxo (E := E) net r = Ok (Some u) ∧ observed_utxo_from_event plutus_from_bytes (Some k) net = Ok u) ∨
  (any_row_utxo (E := E) net r = Ok None ∧ ∃ s, observed_utxo_from_event plutus_from_bytes (Some k) net = Err s).
Proof.
  unfold observed_utxo_from_event. cbn [ok_or mbind outcome_bind].
  destruct k as [e|e|e|e], r as [r|r|r|r]; try done; simpl carries; cbn [any_row_utxo].
  - intros (Hpos & (Htx & Hi & Hlen & Hin) & Hq & Hqr & cred & Hcred & Haddr). left.
    rewrite (event_position_ok _ _ _ _ _ Hpos), (hash32_ok _ Hlen), Haddr.
    unfold asset_create_utxo. rewrite Hcred. destruct (reward_address_ok (E := E) cred) as [-> ->].
    cbn [ok_or mbind outcome_bind]. unfold as_u16. rewrite Hi, Hq, Htx, !wrap_small by (done || unfold in_range, umax in *; lia). eauto.
  - intros (Hpos & (Htx & Hi & Hlen & Hin) & Hs & Hslen & Hq & Hqr & cred & Hcred & Haddr). left.
    rewrite (event_position_ok _ _ _ _ _ Hpos), (hash32_ok _ Hlen), (hash32_ok _ Hslen), Haddr.
    unfold asset_spend_utxo. rewrite Hcred. destruct (reward_address_ok (E := E) cred) as [-> ->].
    cbn [ok_or mbind outcome_bind]. unfold as_u16.
    rewrite Hi, Hq, Htx, Hs, !wrap_small by (done || unfold in_range, umax in *; lia). eauto.
  - intros (Hpos & (Htx & Hi & Hlen & Hin) & Hd).
    rewrite (event_position_ok _ _ _ _ _ Hpos), (hash32_ok _ Hlen). unfold registration_utxo, as_u16.
    cbn [mbind outcome_bind]. rewrite Hi, Htx, wrap_small by done.
    destruct (registration_of_datum_agrees _ _ Hd) as [(cred & key & Hdec & ->)|(Hdec & st & ->)]; [left|right];
      destruct (as_constr_plutus_data L _) as [c|]; simpl in *; try done; [| |by eauto];
      pose proof (decode_registration_no_panic c); destruct (decode_registration_datum c) as [[cred' key']|e'|]; simplify_eq/=; [|by eauto].
    rewrite (proj2 (reward_address_ok cred)). eauto.
  - intros (Hpos & (Htx & Hi & Hlen & Hin) & Ht & Htlen & Hd).
    rewrite (event_position_ok _ _ _ _ _ Hpos), (hash32_ok _ Hlen), (hash32_ok _ Htlen). unfold deregistration_utxo, as_u16.
    cbn [mbind outcome_bind]. rewrite Hi, Htx, Ht, wrap_small by done.
    destruct (registration_of_datum_agrees _ _ Hd) as [(cred & key & Hdec & ->)|(Hdec & st & ->)]; [left|right];
      destruct (as_constr_plutus_data L _) as [c|]; simpl in *; try done; [| |by eauto];
      pose proof (decode_registration_no_panic c); destruct (decode_registration_datum c) as [[cred' key']|e'|]; simplify_eq/=; [|by eauto].
    rewrite (proj2 (reward_address_ok cred)). eauto.
Qed.

(** The rows a window announces, in their order, some of which db-sync's source
    leaves out. *)
Definition kept (r : AnyRow) : option ObservedUtxo := ok_utxo (any_row_utxo net r).
Lemma any_row_utxo_ok {E : Type} k r :
  carries net k r → any_row_utxo (E := E) net r = Ok (kept r).
Proof.
  intros Hk. unfold kept. destruct (event_agrees (E := E) k r Hk) as [(u & Hu & Hev)|[Hu [s Hs]]];
    destruct (event_agrees (E := Empty_set) k r Hk) as [(u' & Hu' & Hev')|[Hu' [s' Hs']]]; rewrite Hu, Hu'; simpl; congruence.
Qed.
Lemma events_collect events rows :
  Forall2 (λ ev r, ∃ k, ev = Some k ∧ carries net k r) events rows →
  if decide (Forall (λ r, is_Some (kept r)) rows)
  then try_collect (λ e, observed_utxo_from_event plutus_from_bytes e net) events = Ok (omap kept rows)
  else ∃ st, try_collect (λ e, observed_utxo_from_event plutus_from_bytes e net) events = Err st.
Proof.
  induction 1 as [|ev r events rows (k & -> & Hk) _ IH]; [done|]. cbn [try_collect].
  pose proof (any_row_utxo_ok (E := Empty_set) k r Hk) as Hkept. rewrite omap_cons_eq.
  destruct (event_agrees (E := Empty_set) k r Hk) as [(u & Hu & ->)|[Hu [s ->]]].
  - assert (kept r = Some u) as Hkept' by congruence. clear Hkept. rename Hkept' into Hkept. cbn [mbind outcome_bind].
    destruct (decide (Forall _ rows)) as [Hall|Hall].
    + rewrite IH, Hkept. rewrite decide_True; [done|]. constructor; [by rewrite Hkept; eexists|done].
    + destruct IH as [st ->]. rewrite decide_False; [by eexists|]. by intros [_ ?]%Forall_cons.
  - rewrite Hu in Hkept. injection Hkept as Hnone. rewrite decide_False; [by eexists|].
    intros [Hs _]%Forall_cons. rewrite <-Hnone in Hs. by destruct Hs.
Qed.
End WindowAgreement.

Lemma get_utxos_start_network {L : CardanoLib} (D : Db L) config start tip cap w :
  get_utxos_up_to_capacity D config start tip cap = Ok w →
  CardanoTypes.start w = start ∧ ∃ net policy, mapping_validator D config = Ok (net, policy).
Proof.
  unfold get_utxos_up_to_capacity. destruct (mapping_validator D config) as [[net policy]|e|]; [|done..].
  cbn [map_err mbind outcome_bind].
  intros (b & _ & (b' & _ & (rs & _ & (ds & _ & (cs & _ & (ss & _ & [= <-])%outcome_bind_ok)%outcome_bind_ok)
    %outcome_bind_ok)%outcome_bind_ok)%outcome_bind_ok)%outcome_bind_ok.
  split; [|by eauto]. unfold window. destruct (truncate_utxos _ _ _ _). by case_bool_decide.
Qed.
Lemma cardano_network_of_validator {L : CardanoLib} (D : Db L) config net policy :
  mapping_validator D config = Ok (net, policy) → get_cardano_network (L := L) config = Ok net.
Proof.
  unfold mapping_validator, get_cardano_network. intros (a & Ha & (n & Hn & (c & _ & (q & _ & [= <- _])
    %outcome_bind_ok)%outcome_bind_ok)%outcome_bind_ok)%outcome_bind_ok.
  destruct (address_from_bech32 L _) as [a'| |]; simplify_eq/=. by destruct (network_id L a); simplify_eq/=.
Qed.

(** C11: An indexer that reports what the database holds gives a node the window that
    db-sync would give it: when the events are those of the rows of the window, in
    their order, and the next position is its end, the two sources return the same
    window, provided every row of it is well formed.  One row that db-sync's source
    skips, a registration whose datum does not decode, fails the whole request. *)
Theorem grpc_window_agrees {L : CardanoLib} (D : Db L) plutus_from_bytes client config start tip cap net policy w
    (rows : list (AnyRow (L := L))) events :
  CardanoLibSpec L → get_utxos_up_to_capacity D config start tip cap = Ok w →
  mapping_validator D config = Ok (net, policy) → 0 ≤ cap ≤ 2 ^ 32 - 1 → length (block_hash (end_ w)) = 32%nat →
  omap (kept net) rows = CardanoTypes.observed w →
  Forall2 (λ ev r, ∃ k, ev = Some k ∧ carries plutus_from_bytes net k r) events rows →
  rpc_get_utxo_events client {| uer_tx_capacity := cap; uer_end_block_hash := tip;
                                uer_start_position := grpc_position start |} =
    Ok {| uer_events := events; uer_next_position := Some (grpc_position (end_ w)) |} →
  if decide (Forall (λ r, is_Some (kept net r)) rows)
  then grpc_get_utxos_up_to_capacity plutus_from_bytes client config start tip cap = Ok w
  else ∃ s, grpc_get_utxos_up_to_capacity plutus_from_bytes client config start tip cap = Err (Acropolis_GRPCQueryError s).
Proof.
  intros Hlib Hw Hnet Hcap Hlen Hrows Hevents Hrpc.
  destruct (get_utxos_start_network D config start tip cap w Hw) as [Hstart _].
  unfold grpc_get_utxos_up_to_capacity, get_utxo_events, u32_try_from.
  rewrite (cardano_network_of_validator D config net policy Hnet), bool_decide_true by lia.
  cbn [mbind outcome_bind ok_or]. rewrite Hrpc. cbn [mbind outcome_bind uer_events uer_next_position].
  pose proof (events_collect plutus_from_bytes net Hlib events rows Hevents) as Hc.
  destruct (decide (Forall _ rows)) as [Hall|Hall].
  - rewrite Hc, Hrows. unfold cardano_position_from_response. cbn [mbind outcome_bind ok_or grpc_position gp_block_hash].
    rewrite bool_decide_true by done. destruct w as [ws we wo], we. simpl in *. by subst.
  - destruct Hc as [st ->]. by exists st.
Qed.

(** ** The two sources of authorities agree *)

(** What an indexer answers about a governance body: the datum of the output that
    is in force, or that there is none. *)
Definition reports_datum {L : CardanoLib} (plutus_from_bytes : list Z → option (PlutusData L))
    (answer : outcome Status (list Z)) (row : option (GovernanceBodyUtxoRow L)) : Prop :=
  match row with
  | Some r => ∃ bytes, answer = Ok bytes ∧ plutus_from_bytes bytes = Some (gr_full_datum L r)
  | None => ∃ s, answer = Err s ∧ status_code s = Code_NotFound
  end.

Lemma load_authorities_agrees {L : CardanoLib} (P : PlutusLib L) plutus_from_bytes answer row :
  reports_datum plutus_from_bytes answer row →
  load_authorities P plutus_from_bytes answer = Ok (body_authorities P row).
Proof.
  destruct row as [r|]; simpl.
  - intros (bytes & -> & Hd). unfold load_authorities, grpc_decode_governance_datum. by rewrite Hd.
  - intros (s & -> & Hs). unfold load_authorities. by rewrite bool_decide_true.
Qed.

(** An indexer that follows the outputs at some addresses gives the authorities that
    db-sync's source gives for these addresses, whatever addresses the chain has
    configured: a node behind it does not notice when governance changes them. *)
Theorem grpc_authorities_agree {L : CardanoLib} (P : PlutusLib L) (G : GovDb L) plutus_from_bytes client
    config config' hash b resp council_rows tc_rows :
  get_block_by_hash (gov_db L G) hash = Ok (Some b) →
  governance_rows L G (address (council config)) (policy_id (council config)) = Ok council_rows →
  governance_rows L G (address (technical_committee config)) (policy_id (technical_committee config)) = Ok tc_rows →
  rpc_get_block_by_hash client hash = Ok resp → bhr_block_number resp = b_block_number L b →
  reports_datum plutus_from_bytes (rpc_get_council_datum client (b_block_number L b))
    (newest_row (gov_db L G) council_rows (b_block_number L b)) →
  reports_datum plutus_from_bytes (rpc_get_technical_committee_datum client (b_block_number L b))
    (newest_row (gov_db L G) tc_rows (b_block_number L b)) →
  ∃ d, get_federated_authority_data (ApiErr := Empty_set) P G config hash = Ok d ∧
    grpc_get_federated_authority_data P plutus_from_bytes client config' hash = Ok d.
Proof.
  intros Hb Hc Ht Hr Hn Hcouncil Htc. unfold get_federated_authority_data, get_governance_body_utxo.
  rewrite Hb. cbn [map_err ok_or mbind outcome_bind]. rewrite Hc, Ht. cbn [map_err mbind outcome_bind].
  eexists. split; [reflexivity|]. unfold grpc_get_federated_authority_data, get_block_number_by_hash. rewrite Hr.
  cbn [mbind outcome_bind mret outcome_ret]. rewrite Hn, (load_authorities_agrees P _ _ _ Hcouncil). cbn [mbind outcome_bind].
  by rewrite (load_authorities_agrees P _ _ _ Htc).
Qed.

(** ** The two sources of candidates agree *)

Section CandidateAgreement.
Context `{!CandidatesLib} (cplutus_from_bytes : list Z → option CPlutusData).

(** The message for an output at the address of the candidates. *)
Record carries_candidate (c : EpochCandidate) (o : MainchainTxOutput) : Prop := {
  cc_hash : ec_utxo_tx_hash c = uid_tx_hash (mo_utxo_id o) ∧ length (ec_utxo_tx_hash c) = 32%nat;
  cc_index : ec_utxo_index c = uid_index (mo_utxo_id o) ∧ in_range 16 (ec_utxo_index c);
  cc_numbers : ec_epoch_number c = mo_epoch_no o ∧ in_range 32 (ec_epoch_number c) ∧
    ec_block_number c = mo_block_no o ∧ in_range 32 (ec_block_number c);
  cc_place : ec_slot_number c = mo_slot_no o ∧ ec_tx_index c = mo_tx_index o;
  cc_inputs : Forall2 (λ i u, up_tx_hash i = uid_tx_hash u ∧ up_index i = uid_index u ∧
    length (up_tx_hash i) = 32%nat ∧ in_range 16 (up_index i)) (ec_tx_inputs c) (mo_tx_inputs o);
  cc_datum : cplutus_from_bytes (ec_full_datum c) = mo_datum o;
}.

Lemma hash_of_length_ok n h : length h = n → hash_of_length n h = Ok h.
Proof. intros Hh. unfold hash_of_length. by rewrite bool_decide_true. Qed.
Lemma small_index_ok n : in_range 16 n → u16_try_from n = Ok n.
Proof. unfold in_range, umax, u16_try_from. intros Hn. by rewrite bool_decide_true by lia. Qed.
Lemma small_number_ok n : in_range 32 n → u32_index_try_from n = Ok n.
Proof. unfold in_range, umax, u32_index_try_from. intros Hn. by rewrite bool_decide_true by lia. Qed.

Definition parsed (o : MainchainTxOutput) : option ParsedCandidate :=
  datum ← mo_datum o; d ← register_validator_try_from datum; Some {| pc_output := o; pc_datum := d |}.
Definition keyed (c : RegisteredCandidate) : StakePoolPublicKey * CandidateRegistrationData :=
  (rc_stake_pool_pub_key c, make_registration_data c).

Lemma candidate_agrees c o :
  carries_candidate c o →
  candidate_try_from cplutus_from_bytes c =
    match parsed o with Some p => Ok (keyed (convert_candidate p)) | None => Err InvalidDatum end.
Proof.
  intros [[Hh Hhl] [Hi Hir] (He & Her & Hb & Hbr) [Hs Hx] Hin Hd]. unfold candidate_try_from, utxo_info_try_from.
  rewrite (hash_of_length_ok 32 _ Hhl), (small_index_ok _ Hir), (small_number_ok _ Her), (small_number_ok _ Hbr).
  cbn [mbind outcome_bind].
  assert (try_collect utxo_id_try_from (ec_tx_inputs c) = Ok (mo_tx_inputs o)) as ->.
  { apply try_collect_ok. eapply Forall2_impl; [exact Hin|]. intros i [h n] (Hih & Hin' & Hil & Hir'). simpl in *.
    unfold utxo_id_try_from. rewrite (hash_of_length_ok 32 _ Hil), (small_index_ok _ Hir'). cbn. by rewrite Hih, Hin'. }
  unfold parsed. rewrite Hd. cbn [mbind outcome_bind]. destruct (mo_datum o) as [d|]; simpl; [|done].
  destruct (register_validator_try_from d) as [v|]; simpl; [|done].
  unfold keyed, convert_candidate, make_registration_data, utxo_info.
  destruct o as [[h n] ? ? ? ? ? ? ?]. simpl in *. destruct v; simpl; by rewrite Hh, Hi, He, Hb, Hs, Hx.
Qed.

Definition map_group {K V W : Type} (f : V → W) (g : K * list V) : K * list W := (g.1, f <$> g.2).
Lemma group_insert_fmap {K V W : Type} `{!EqDecision K} (f : V → W) (k : K) v (l : list (K * list V)) :
  group_insert k (f v) (map_group f <$> l) = map_group f <$> group_insert k v l.
Proof.
  induction l as [|[k' vs] l IH]; [done|]. rewrite fmap_cons.
  change (map_group f (k', vs)) with (k', f <$> vs). cbn [group_insert].
  destruct (decide (k' = k)); rewrite fmap_cons.
  - change (map_group f (k', vs ++ [v])) with (k', f <$> (vs ++ [v])). by rewrite fmap_app.
  - by rewrite IH.
Qed.
Lemma group_by_fmap {K V W : Type} `{!EqDecision K} (f : V → W) (l : list (K * V)) :
  group_by ((λ kv, (kv.1, f kv.2)) <$> l) = map_group f <$> group_by l.
Proof.
  induction l as [|[k v] l IH] using rev_ind; [done|]. unfold group_by in *.
  rewrite fmap_app, !foldl_app, IH. simpl. apply group_insert_fmap.
Qed.
Lemma parse_candidates_parsed outputs : parse_candidates outputs = omap parsed outputs.
Proof. done. Qed.

Lemma candidates_collect cs outputs :
  Forall2 carries_candidate cs outputs →
  if decide (Forall (λ o, is_Some (parsed o)) outputs)
  then try_collect (λ c, map_err candidate_status (candidate_try_from cplutus_from_bytes c)) cs =
         Ok (keyed <$> convert_utxos_to_candidates outputs)
  else try_collect (λ c, map_err candidate_status (candidate_try_from cplutus_from_bytes c)) cs =
         Err (candidate_status InvalidDatum).
Proof.
  unfold convert_utxos_to_candidates. rewrite parse_candidates_parsed.
  induction 1 as [|c o cs outputs Hc _ IH]; [done|]. cbn [try_collect]. rewrite (candidate_agrees c o Hc), omap_cons_eq.
  destruct (parsed o) as [p|] eqn:Hp; cbn [map_err mbind outcome_bind].
  - destruct (decide (Forall _ outputs)) as [Hall|Hall]; rewrite IH.
    + by rewrite decide_True by (by constructor; [rewrite Hp; eexists|]).
    + by rewrite decide_False by (by intros [_ ?]%Forall_cons).
  - rewrite decide_False; [done|]. intros [Hs _]%Forall_cons. rewrite Hp in Hs. by destruct Hs.
Qed.
Lemma stake_map_agrees stakes :
  Forall (λ e, length (pool_hash e) = 28%nat) stakes → grpc_make_stake_map stakes = Ok (make_stake_map stakes).
Proof.
  intros Hl. unfold grpc_make_stake_map. rewrite (try_collect_get _ (λ e, (pool_hash e, stake e))).
  - cbn [mbind outcome_bind]. unfold make_stake_map. f_equal. generalize (∅ : gmap (list Z) Z).
    clear Hl. induction stakes as [|e l IH]; intros m; [done|]. simpl. by rewrite IH.
  - eapply Forall_impl; [exact Hl|]. intros e He. simpl. by rewrite hash_of_length_ok.
Qed.
End CandidateAgreement.

(** C12: An indexer that reports the outputs at the address of the candidates and the
    stakes gives a node the candidates that db-sync would give it, under any
    configured address, provided every output has a datum that decodes.  One output
    without such a datum, which db-sync's source leaves out, fails the request for
    the whole epoch. *)
Theorem grpc_candidates_agree `{!CandidatesLib} cplutus_from_bytes client w epoch addr addr' cell r config
    e b outputs stakes resp :
  get_candidates w epoch addr cell = (Ok r, Some config) →
  get_epoch_of_data_storage epoch = Ok e → get_latest_block_for_epoch (sn_block w) e = Ok (Some b) →
  get_utxos_for_address (sn_utxos w) addr (eb_block_no b) config = Ok outputs →
  get_stake_distribution (sn_stake w) e = Ok stakes → Forall (λ e, length (pool_hash e) = 28%nat) stakes →
  rpc_get_epoch_candidates client e = Ok resp → ecr_stake_distribution resp = stakes →
  Forall2 (carries_candidate cplutus_from_bytes) (ecr_candidates resp) outputs →
  grpc_get_candidates cplutus_from_bytes client epoch addr' =
    if decide (Forall (λ o, is_Some (parsed o)) outputs) then Ok r
    else Err (Selection_GRPCQueryError (candidate_status InvalidDatum)).
Proof.
  intros (e' & l & st & He' & (b' & Hb' & Hl)%registered_ok & Hst' & ->)%candidates_ok He Hb Hu Hst Hlen Hr Hs Hcs.
  assert (e' = e) as -> by congruence. assert (b' = Some b) as -> by congruence. assert (st = stakes) as -> by congruence.
  destruct Hl as (config' & u & [Hc _]%tx_in_config_ok & Hu' & ->).
  assert (u = outputs) as -> by congruence.
  unfold grpc_get_candidates, authority_selection_query_epoch, requests_get_candidates.
  unfold get_epoch_of_data_storage in He. destruct (offset_data_epoch epoch) as [?|e']; [done|]. injection He as ->.
  cbn [mbind outcome_bind]. rewrite Hr. cbn [mbind outcome_bind]. rewrite Hs, stake_map_agrees by done.
  cbn [map_err mbind outcome_bind]. pose proof (candidates_collect cplutus_from_bytes _ _ Hcs) as Hc'.
  destruct (decide (Forall _ outputs)); rewrite Hc'; [|done]. cbn [map_err mbind outcome_bind mret outcome_ret].
  f_equal. unfold assemble, group_candidates_by_mc_pub_key.
  rewrite (list_fmap_ext keyed ((λ kv, (kv.1, make_registration_data kv.2)) ∘ (λ c, (rc_stake_pool_pub_key c, c)))) by done.
  rewrite list_fmap_compose, group_by_fmap, <-list_fmap_compose. apply list_fmap_ext. intros i [k vs] _. done.
Qed.

(** ** On small databases *)

Module GrpcConcrete.
Notation lib := CNightFollower.Concrete.lib.
Notation Plutus := CNightFollower.Concrete.Plutus.
Notation cfg := CNightFollower.Concrete.cfg.
Definition hash (n : Z) : list Z := repeat n 32.
(** The datum of alice is the empty string, every other string is no constructor. *)
Definition from_bytes (l : list Z) : option (PlutusData lib) :=
  Some (match l with [] => CNightFollower.Concrete.alice_datum | _ => CNightFollower.Concrete.Bytes l end).
Definition registration_row (n : Z) (datum : list Z) : RegistrationRow lib :=
  {| rr_position := {| row_block_number := 5; row_block_hash := hash 5; row_block_timestamp := 5 : NaiveDateTime lib;
                       row_tx_index_in_block := n |};
     rr_full_datum := default CNightFollower.Concrete.alice_datum (from_bytes datum);
     rr_tx_hash := hash n; rr_utxo_index := 0 |}.
Definition db (rows : list (RegistrationRow lib)) : Db lib := {|
  SqlxError := unit;
  registration_rows := λ _ _ _, Ok rows;
  deregistration_rows := λ _, Ok []; asset_create_rows := λ _ _, Ok []; asset_spend_rows := λ _ _, Ok [];
  block_rows := Ok [
    {| b_block_number := 6; b_hash := hash 6; b_epoch_number := 1; b_slot_number := 60;
       b_time := 6 : NaiveDateTime lib; b_tx_count := 3 |}];
  order_by := λ _ cmp l, sort_by cmp l;
|}.
Definition event (n : Z) (datum : list Z) : Kind := Kind_Registration {|
  rge_full_datum := datum; rge_tx_hash := hash n; rge_output_index := 0; rge_block_number := 5;
  rge_block_hash := hash 5; rge_tx_index := n; rge_block_timestamp_unix_millis := 5000 |}.
Definition position0 : CardanoPosition :=
  {| block_hash := hash 0; block_number := 0; block_timestamp := 0; tx_index_in_block := 0 |}.
Definition tip_position : CardanoPosition :=
  {| block_hash := hash 6; block_number := 6; block_timestamp := 6000; tx_index_in_block := 4 |}.
Definition no_answer {A : Type} : outcome Status A := Err {| status_code := Code_Other; status_message := Msg_server [] |}.
Definition indexer (events : list UtxoEvent) (candidates : outcome Status EpochCandidatesResponse) : MidnightStateClient := {|
  rpc_get_utxo_events _ := Ok {| uer_events := events; uer_next_position := Some (grpc_position tip_position) |};
  rpc_get_block_by_hash _ := Ok {| bhr_block_number := 6; bhr_tx_count := 3; bhr_block_timestamp_unix := 6;
                                   bhr_epoch_number := 1; bhr_slot_number := 60 |};
  rpc_get_council_datum _ := Err {| status_code := Code_NotFound; status_message := Msg_server [] |};
  rpc_get_technical_committee_datum _ := Err {| status_code := Code_NotFound; status_message := Msg_server [] |};
  rpc_get_ariadne_parameters _ := no_answer;
  rpc_get_epoch_candidates _ := candidates;
  rpc_get_epoch_nonce _ := no_answer;
  rpc_get_latest_stable_block _ _ := no_answer;
  rpc_get_stable_block _ _ _ := no_answer;
  rpc_get_latest_block := no_answer;
|}.
(** Two registrations, the second with a datum that does not decode. *)
Definition rows2 : list (RegistrationRow lib) := [registration_row 1 []; registration_row 2 [9]].
Definition events2 : list UtxoEvent := [Some (event 1 []); Some (event 2 [9])].
Lemma carries_row n datum :
  in_range 32 5 → carries (L := lib) from_bytes 0 (event n datum) (Any_registration (registration_row n datum)).
Proof. intros H5. cbn. split_and!; try done; by rewrite repeat_length. Qed.
(** The candidates: one output whose datum decodes, one whose datum does not. *)
#[export] Instance candidates_lib : CandidatesLib := {|
  CSqlxError := unit; sqlx_decode_error := tt; JsonValue := list Z; CPlutusData := list Z;
  encode_json_value_to_plutus_datum := Some;
  register_validator_try_from := λ d,
    match d with [] => None | _ => Some (V1 d [] [] [] {| uid_tx_hash := hash 1; uid_index := 0 |} [] []) end;
  permissioned_candidates_try_from := λ _, Some [];
  utxo_id_from_str := λ _, Some {| uid_tx_hash := hash 8; uid_index := 0 |};
  decimal := λ z, [z]; key_hash_from_vkey := λ k, k;
  offset_data_epoch := λ e, if bool_decide (e < 2) then inl 2 else inr (e - 2);
  epoch_number_from := λ z, z; c_order_by := λ _, sort_by;
|}.
Definition candidate_block (n : Z) : CBlock :=
  {| cb_id := n; cb_hash := [n]; cb_no := Some n; cb_epoch := Some n; cb_slot := Some (10 * n) |}.
Definition candidate_output (n : Z) : CTxOut :=
  {| co_id := n; co_tx_id := n; co_index := 0; co_address := [7]; co_data_hash := Some [n]; co_consumed_by_tx_id := None |}.
Definition tables : CTables := {|
  ct_block := [candidate_block 0; candidate_block 1; candidate_block 2];
  ct_tx := [{| cx_id := 1; cx_hash := hash 1; cx_block_id := 1; cx_block_index := 0 |};
            {| cx_id := 2; cx_hash := hash 2; cx_block_id := 1; cx_block_index := 1 |}];
  ct_tx_out := [candidate_output 1; candidate_output 2]; ct_tx_in := [];
  ct_datum := [{| cd_hash := [1]; cd_value := [9] : JsonValue |}; {| cd_hash := [2]; cd_value := [] : JsonValue |}];
  ct_ma_tx_out := []; ct_multi_asset := [];
  ct_epoch_stake := [{| es_pool_id := 1; es_epoch_no := 1; es_amount := 100 |}];
  ct_pool_hash := [{| ph_id := 1; ph_hash_raw := repeat 9 28 |}];
  ct_epoch_param := []; ct_has_tx_in := true |}.
Definition queries : Snapshots := all_queries (Ok tables).
Definition outputs : list MainchainTxOutput :=
  match get_utxos_for_address (sn_utxos queries) [7] 1 Consumed with Ok l => l | _ => [] end.
Definition stakes : list StakePoolEntry := match get_stake_distribution (sn_stake queries) 1 with Ok l => l | _ => [] end.
Definition message (o : MainchainTxOutput) : EpochCandidate := {|
  ec_full_datum := default [] (mo_datum o); ec_utxo_tx_hash := uid_tx_hash (mo_utxo_id o);
  ec_utxo_index := uid_index (mo_utxo_id o); ec_epoch_number := mo_epoch_no o; ec_block_number := mo_block_no o;
  ec_slot_number := mo_slot_no o; ec_tx_index := mo_tx_index o;
  ec_tx_inputs := (λ u, {| up_tx_hash := uid_tx_hash u; up_index := uid_index u |}) <$> mo_tx_inputs o |}.
Definition candidate_messages : EpochCandidatesResponse :=
  {| ecr_candidates := message <$> outputs; ecr_stake_distribution := stakes |}.
(** An indexer that reports the datums 3 and 4 of the two governance bodies. *)
Definition gov_from_bytes (l : list Z) : option (PlutusData lib) :=
  match l with [n] => Some (FedAuthFollower.Concrete.datum n) | _ => None end.
Definition gov_indexer : MidnightStateClient := {|
  rpc_get_utxo_events _ := no_answer;
  rpc_get_block_by_hash _ := Ok {| bhr_block_number := 6; bhr_tx_count := 3; bhr_block_timestamp_unix := 6;
                                   bhr_epoch_number := 1; bhr_slot_number := 60 |};
  rpc_get_council_datum _ := Ok [3];
  rpc_get_technical_committee_datum _ := Ok [4];
  rpc_get_ariadne_parameters _ := no_answer;
  rpc_get_epoch_candidates _ := no_answer;
  rpc_get_epoch_nonce _ := no_answer;
  rpc_get_latest_stable_block _ _ := no_answer;
  rpc_get_stable_block _ _ _ := no_answer;
  rpc_get_latest_block := no_answer;
|}.
Definition gov_config (c t : list Z) : FederatedAuthorityObservationConfig :=
  {| council := {| address := c; policy_id := [] |}; technical_committee := {| address := t; policy_id := [] |} |}.
Definition window_of (rows : list (RegistrationRow lib)) : ObservedUtxos :=
  match get_utxos_up_to_capacity (db rows) cfg position0 (hash 6) 10 with
  | Ok w => w
  | _ => {| start := position0; end_ := position0; CardanoTypes.observed := [] |}
  end.
End GrpcConcrete.
Import GrpcConcrete.

Lemma grpc_window_agrees_witness :
  get_utxos_up_to_capacity (db rows2) cfg position0 (hash 6) 10 = Ok (window_of rows2) ∧
  length (CardanoTypes.observed (window_of rows2)) = 1%nat ∧
  ∃ s, grpc_get_utxos_up_to_capacity (L := lib) from_bytes (indexer events2 no_answer) cfg position0 (hash 6) 10 =
    Err (Acropolis_GRPCQueryError s).
Proof.
  split; [vm_compute; reflexivity|]. split; [vm_compute; reflexivity|].
  assert (¬ Forall (λ r, is_Some (kept (L := lib) 0 r)) (Any_registration <$> rows2)) as Hbad.
  { intros H. apply Forall_cons in H as [_ H]. apply Forall_cons in H as [[u Hu] _]. vm_compute in Hu. discriminate Hu. }
  erewrite <-(decide_False _ _ Hbad).
  apply (grpc_window_agrees (db rows2) from_bytes (indexer events2 no_answer) cfg position0 (hash 6) 10 0 [9]
    (window_of rows2) (Any_registration <$> rows2) events2).
  - apply CNightFollower.Concrete.lib_spec.
  - vm_compute. reflexivity.
  - vm_compute. reflexivity.
  - lia.
  - vm_compute. reflexivity.
  - vm_compute. reflexivity.
  - repeat (apply Forall2_cons; split; [eexists; split; [reflexivity|apply carries_row; unfold in_range, umax; lia]|]).
    apply Forall2_nil. exact I.
  - vm_compute. reflexivity.
Defined.

Lemma grpc_candidates_agree_witness :
  ∃ r, get_candidates queries 3 [7] None = (Ok r, Some Consumed) ∧ length r = 1%nat ∧
    grpc_get_candidates Some (indexer [] (Ok candidate_messages)) 3 [] =
      Err (Selection_GRPCQueryError (candidate_status InvalidDatum)).
Proof.
  assert (¬ Forall (λ o, is_Some (parsed o)) outputs) as Hbad.
  { unfold outputs. vm_compute. intros H. inversion H as [|? ? ? H']; subst. inversion H' as [|? ? [u Hu] _]; subst. discriminate Hu. }
  destruct (get_candidates queries 3 [7] None) as [r cell] eqn:Hr.
  destruct r as [r| |]; [|vm_compute in Hr; discriminate Hr..].
  exists r. assert (length r = 1%nat ∧ cell = Some Consumed) as [Hl ->] by (vm_compute in Hr; injection Hr as <- <-; done).
  split; [done|]. split; [exact Hl|].
  etransitivity; [|exact (decide_False (Ok r) _ Hbad)].
  eapply (grpc_candidates_agree (H := candidates_lib) Some (indexer [] (Ok candidate_messages)) queries 3 [7] [] None r Consumed 1 _
    outputs stakes candidate_messages).
  - exact Hr.
  - reflexivity.
  - vm_compute. reflexivity.
  - vm_compute. reflexivity.
  - vm_compute. reflexivity.
  - unfold stakes. vm_compute. repeat constructor.
  - reflexivity.
  - reflexivity.
  - unfold candidate_messages, outputs. vm_compute. repeat constructor; discriminate.
Defined.

(** The council of address 1 and the committee of address 2; the chain is
    configured with another council. *)
Lemma grpc_authorities_agree_witness :
  ∃ d, get_federated_authority_data (ApiErr := Empty_set) FedAuthFollower.Concrete.plutus FedAuthFollower.Concrete.gdb
      (gov_config [1] [2]) [6] = Ok d ∧
    grpc_get_federated_authority_data FedAuthFollower.Concrete.plutus gov_from_bytes gov_indexer (gov_config [5] [2]) [6] = Ok d.
Proof.
  eapply (grpc_authorities_agree FedAuthFollower.Concrete.plutus FedAuthFollower.Concrete.gdb gov_from_bytes gov_indexer
    (gov_config [1] [2]) (gov_config [5] [2]) [6] CNightFollower.Concrete.block6).
  - vm_compute. reflexivity.
  - vm_compute. reflexivity.
  - vm_compute. reflexivity.
  - reflexivity.
  - reflexivity.
  - exists [3]. split; vm_compute; reflexivity.
  - exists [4]. split; vm_compute; reflexivity.
Defined.
