(* ===== verification/GovernanceClients.v ===== *)
(** * The clients of governance

    Models two programs that drive a call through the two bodies to a dispatch as
    root: the command [root-call] of the toolkit ([util/toolkit/src/commands/root_call.rs])
    and the runtime upgrader ([util/upgrader/src/lib.rs]).  Both submit, one after the
    other, a proposal, two votes and a close for each body, and then close the
    motion.

    The clients are written against subxt, the class [SubxtClient].  The second half
    is the chain they talk to: the runtime with [FedAuthority] and [Admission] of this
    library, pallet_collective and frame_system as the class [GovRuntime] with their
    documented behaviour, and an environment that acts between the extrinsics of a
    client. *)

From stdpp Require Import prelude gmap strings.
From S2P Require Import Prelude Frame Collections Constants Weights UtxoOrdering Throttle FedAuthority Admission.

Open Scope Z_scope.

(** ** subxt *)

(** [subxt::dynamic::Value]: the shapes that occur; a call is a variant of a variant,
    [Opaque] a call that is only passed on. *)
Inductive Value (Opaque : Type) : Type :=
| V_u128 (n : Z)
| V_bool (b : bool)
| V_bytes (l : list Z)
| V_composite (fields : list (string * Value Opaque))
| V_call (pallet call_name : string) (args : list (Value Opaque))
| V_opaque (c : Opaque).
Arguments V_u128 {_}.
Arguments V_bool {_}.
Arguments V_bytes {_}.
Arguments V_composite {_}.
Arguments V_call {_}.
Arguments V_opaque {_}.

(** [dynamic::tx(pallet, call_name, args)] and its [into_value]. *)
Record Payload (Opaque : Type) : Type := tx { tx_pallet : string; tx_call_name : string; tx_args : list (Value Opaque) }.
Arguments tx {_}.
Arguments tx_pallet {_}.
Arguments tx_call_name {_}.
Arguments tx_args {_}.
Definition into_value {Opaque} (p : Payload Opaque) : Value Opaque := V_call (tx_pallet p) (tx_call_name p) (tx_args p).

Record RawEvent (Opaque E : Type) : Type := {
  pallet_name : string; variant_name : string;
  field_bytes : list Z; field_values : outcome E (list (string * Value Opaque));
}.
Arguments pallet_name {_ _}.
Arguments variant_name {_ _}.
Arguments field_bytes {_ _}.
Arguments field_values {_ _}.

(** An online client of a chain; [submit] is [sign_and_submit_then_watch_default]
    followed by [wait_for_finalized_success]: the events of the extrinsic, each of
    which may fail to decode. *)
Class SubxtClient (Opaque : Type) : Type := {
  SxError : Type;
  Keypair : Type;
  SxState : Type;
  encode_call_data : Payload Opaque → outcome SxError (list Z);
  (** [decode_as_type] at the type of [RuntimeCall]; it reads a prefix. *)
  decode_as_type : list Z → option (Value Opaque);
  submit : Keypair → Payload Opaque → M SxState SxError (list (outcome SxError (RawEvent Opaque SxError)));
  (** [sp_crypto_hashing::blake2_256]. *)
  blake2_256 : list Z → list Z;
  (** [parity_scale_codec::Compact::<u32>::decode]. *)
  compact_u32_decode : list Z → option Z;
}.

(** ** Steps that both programs have *)

Section Steps.
Context {Opaque : Type} `{!SubxtClient Opaque}.
(** The error type of the program and [From<subxt::Error>]. *)
Context {Err' : Type} (from_subxt : SxError → Err').

Definition weight_value : Value Opaque :=
  V_composite [("ref_time", V_u128 10000000000); ("proof_size", V_u128 65536)]%string.
Definition vote_on_proposal (signer : Keypair) (pallet : string) (proposal_hash : list Z) (proposal_index : Z)
    (approve : bool) : M SxState Err' unit :=
  with_err from_subxt (submit signer (tx pallet "vote"
    [V_bytes proposal_hash; V_u128 proposal_index; V_bool approve])) ;;
  mret tt.
Definition close_proposal (signer : Keypair) (pallet : string) (proposal_hash : list Z) (proposal_index : Z) :
    M SxState Err' unit :=
  with_err from_subxt (submit signer (tx pallet "close"
    [V_bytes proposal_hash; V_u128 proposal_index; weight_value; V_u128 10000])) ;;
  mret tt.
End Steps.

(** ** [root-call] *)

Inductive KeypairParseError : Type := Key_HexParseFailed | Key_LengthCheckFailed | Key_UriParseFailed | Key_SubxtSignerError | Key_BipError.
Inductive RootCallError (SxErr : Type) : Type :=
| Root_SubxtError (e : SxErr)
| Root_HexError
| Root_IoError
| NoEncodedCall
| Root_ProposalIndexNotFound
| NotEnoughCouncilKeys
| NotEnoughTcKeys
| Root_KeypairParseError (e : KeypairParseError)
| CallDecodeError.
Arguments Root_SubxtError {_}.
Arguments Root_HexError {_}.
Arguments Root_IoError {_}.
Arguments NoEncodedCall {_}.
Arguments Root_ProposalIndexNotFound {_}.
Arguments NotEnoughCouncilKeys {_}.
Arguments NotEnoughTcKeys {_}.
Arguments Root_KeypairParseError {_}.
Arguments CallDecodeError {_}.

Record RootCallArgs : Type := {
  council_keys : list (list Z); tc_keys : list (list Z);
  encoded_call : option (list Z); encoded_call_file : option (list Z);
}.

(** [subxt_signer] and [bip39]; parsing a URI or a phrase and deriving a key from it
    fail in different ways. *)
Class Signers (K : Type) : Type := {
  SecretUri : Type;
  Mnemonic : Type;
  secret_uri_from_str : list Z → option SecretUri;
  keypair_from_uri : SecretUri → option K;
  mnemonic_parse : list Z → option Mnemonic;
  keypair_from_phrase : Mnemonic → option K;
  keypair_from_secret_key : list Z → option K;
}.

Definition keypair_from_str {K} `{!Signers K} (key_str : list Z) : outcome KeypairParseError K :=
  let key_str := trim key_str in
  if bool_decide (47 ∈ key_str) then
    uri ← ok_or (secret_uri_from_str key_str) Key_UriParseFailed;
    ok_or (keypair_from_uri uri) Key_SubxtSignerError
  else if bool_decide (32 ∈ key_str) then
    phrase ← ok_or (mnemonic_parse key_str) Key_BipError;
    ok_or (keypair_from_phrase phrase) Key_SubxtSignerError
  else
    seed_bytes ← ok_or (hex_decode (strip_0x key_str)) Key_HexParseFailed;
    if bool_decide (length seed_bytes = 32%nat)
    then ok_or (keypair_from_secret_key seed_bytes) Key_SubxtSignerError
    else Err Key_LengthCheckFailed.

Section RootCall.
Context {Opaque : Type} `{!SubxtClient Opaque} `{!Signers Keypair}.
Local Notation RM := (M SxState (RootCallError SxError)).

(** The first event [Proposed] of the pallet with an index. *)
Fixpoint extract_proposal_index (events : list (outcome SxError (RawEvent Opaque SxError))) (pallet : string) :
    outcome (RootCallError SxError) Z :=
  match events with
  | [] => Err Root_ProposalIndexNotFound
  | event :: events =>
      event ← map_err Root_SubxtError event;
      if bool_decide (pallet_name event = pallet ∧ variant_name event = "Proposed"%string) then
        fields ← map_err Root_SubxtError (field_values event);
        match list_find (λ f, f.1 = "proposal_index"%string) fields with
        | Some (_, (_, V_u128 index)) => mret (wrap 32 index)
        | _ => extract_proposal_index events pallet
        end
      else extract_proposal_index events pallet
  end.

(** The part of a body: its first key proposes, its first two keys vote, the first
    one closes. *)
Definition body_approves (pallet : string) (keypairs : list Keypair) (fed_auth_call : Value Opaque)
    (proposal_hash : list Z) : RM unit :=
  proposer ← expect (keypairs !! 0%nat);
  propose_events ← with_err Root_SubxtError
    (submit proposer (tx pallet "propose" [V_u128 2; fed_auth_call; V_u128 10000]));
  proposal_index ← lift (extract_proposal_index propose_events pallet);
  for_each (take 2 keypairs) (λ voter,
    vote_on_proposal Root_SubxtError voter pallet proposal_hash proposal_index true) ;;
  close_proposal Root_SubxtError proposer pallet proposal_hash proposal_index.

Definition execute_governance_call (encoded_call : list Z) (council_keypairs tc_keypairs : list Keypair) : RM unit :=
  call_value ← lift (ok_or (decode_as_type encoded_call) CallDecodeError);
  let fed_auth_tx := tx "FederatedAuthority" "motion_approve" [call_value] in
  fed_auth_call_data ← lift (map_err Root_SubxtError (encode_call_data fed_auth_tx));
  let proposal_hash := blake2_256 fed_auth_call_data in
  body_approves "Council" council_keypairs (into_value fed_auth_tx) proposal_hash ;;
  body_approves "TechnicalCommittee" tc_keypairs (into_value fed_auth_tx) proposal_hash ;;
  let motion_hash := blake2_256 encoded_call in
  council_proposer ← expect (council_keypairs !! 0%nat);
  with_err Root_SubxtError (submit council_proposer
    (tx "FederatedAuthority" "motion_close" [V_bytes motion_hash])) ;;
  mret tt.

(** [std::fs::read_to_string]. *)
Context (read_to_string : list Z → option (list Z)).
Definition get_encoded_call (args : RootCallArgs) : outcome (RootCallError SxError) (list Z) :=
  match encoded_call args, encoded_call_file args with
  | Some call, _ => Ok call
  | None, Some path =>
      contents ← ok_or (read_to_string path) Root_IoError;
      ok_or (hex_decode (strip_0x (trim contents))) Root_HexError
  | None, None => Err NoEncodedCall
  end.
Definition get_signer (key_str : list Z) : outcome (RootCallError SxError) Keypair :=
  map_err Root_KeypairParseError (keypair_from_str key_str).
(** [connects] is what connecting to the node gives. *)
Definition root_call_execute (connects : outcome SxError unit) (args : RootCallArgs) : RM unit :=
  ensure (bool_decide (2 ≤ length (council_keys args))%nat) NotEnoughCouncilKeys ;;
  ensure (bool_decide (2 ≤ length (tc_keys args))%nat) NotEnoughTcKeys ;;
  encoded_call ← lift (get_encoded_call args);
  council_keypairs ← lift (try_collect get_signer (council_keys args));
  tc_keypairs ← lift (try_collect get_signer (tc_keys args));
  lift (map_err Root_SubxtError connects) ;;
  execute_governance_call encoded_call council_keypairs tc_keypairs.
End RootCall.

(** ** The upgrader *)

Inductive UpgraderError (SxErr : Type) : Type :=
| UriParseFailed
| SubxtSignerError
| Upg_SubxtError (e : SxErr)
| BipError
| CodeUpgradeFailed
| Upg_ProposalIndexNotFound
| EncodingError (e : SxErr).
Arguments UriParseFailed {_}.
Arguments SubxtSignerError {_}.
Arguments Upg_SubxtError {_}.
Arguments BipError {_}.
Arguments CodeUpgradeFailed {_}.
Arguments Upg_ProposalIndexNotFound {_}.
Arguments EncodingError {_}.

Section Upgrader.
Context {Opaque : Type} `{!SubxtClient Opaque} `{!Signers Keypair}.
Local Notation UM := (M SxState (UpgraderError SxError)).

Definition keypair_of_uri (uri : list Z) : outcome (UpgraderError SxError) Keypair :=
  uri ← ok_or (secret_uri_from_str uri) UriParseFailed;
  ok_or (keypair_from_uri uri) SubxtSignerError.
Definition upgrader_get_signer (key_str : list Z) : outcome (UpgraderError SxError) Keypair :=
  if bool_decide (47 ∈ key_str) then keypair_of_uri key_str
  else
    phrase ← ok_or (mnemonic_parse key_str) BipError;
    ok_or (keypair_from_phrase phrase) SubxtSignerError.

(** The index is read from the bytes of the event: the account is skipped and a
    compact integer expected after it. *)
Fixpoint upgrader_extract_proposal_index (events : list (outcome SxError (RawEvent Opaque SxError)))
    (pallet : string) : outcome (UpgraderError SxError) Z :=
  match events with
  | [] => Err Upg_ProposalIndexNotFound
  | event :: events =>
      event ← map_err Upg_SubxtError event;
      if bool_decide (pallet_name event = pallet ∧ variant_name event = "Proposed"%string) then
        if bool_decide (length (field_bytes event) < 32)%nat then upgrader_extract_proposal_index events pallet
        else
          match compact_u32_decode (drop 32 (field_bytes event)) with
          | Some index => mret index
          | None => upgrader_extract_proposal_index events pallet
          end
      else upgrader_extract_proposal_index events pallet
  end.
(** The loop over the events of the last extrinsic. *)
Fixpoint code_updated (events : list (outcome SxError (RawEvent Opaque SxError))) :
    outcome (UpgraderError SxError) bool :=
  match events with
  | [] => mret false
  | event :: events =>
      event ← map_err Upg_SubxtError event;
      if bool_decide (pallet_name event = "System"%string ∧ variant_name event = "CodeUpdated"%string)
      then mret true else code_updated events
  end.

Definition upgrader_vote_on_proposal := vote_on_proposal (Opaque := Opaque) (Upg_SubxtError (SxErr := SxError)).
Definition upgrader_close_proposal := close_proposal (Opaque := Opaque) (Upg_SubxtError (SxErr := SxError)).

(** The part of a body: one member proposes, votes and closes, another one votes. *)
Definition upgrader_body_approves (pallet : string) (first second : Keypair) (fed_auth_call : Value Opaque)
    (proposal_hash : list Z) : UM unit :=
  propose_events ← with_err Upg_SubxtError
    (submit first (tx pallet "propose" [V_u128 2; fed_auth_call; V_u128 10000]));
  proposal_index ← lift (upgrader_extract_proposal_index propose_events pallet);
  upgrader_vote_on_proposal first pallet proposal_hash proposal_index true ;;
  upgrader_vote_on_proposal second pallet proposal_hash proposal_index true ;;
  upgrader_close_proposal first pallet proposal_hash proposal_index.

Definition execute_upgrade (connects : outcome SxError unit) (signer : Keypair) (code : list Z) : UM unit :=
  lift (map_err Upg_SubxtError connects) ;;
  alice ← lift (keypair_of_uri (bytes_of_string "//Alice"));
  bob ← lift (keypair_of_uri (bytes_of_string "//Bob"));
  _ ← lift (keypair_of_uri (bytes_of_string "//Charlie"));
  dave ← lift (keypair_of_uri (bytes_of_string "//Dave"));
  eve ← lift (keypair_of_uri (bytes_of_string "//Eve"));
  _ ← lift (keypair_of_uri (bytes_of_string "//Ferdie"));
  let code_hash := blake2_256 code in
  let authorize_upgrade := tx "System" "authorize_upgrade" [V_bytes code_hash] in
  let fed_auth_tx := tx "FederatedAuthority" "motion_approve" [into_value authorize_upgrade] in
  fed_auth_call_data ← lift (map_err EncodingError (encode_call_data fed_auth_tx));
  let proposal_hash := blake2_256 fed_auth_call_data in
  upgrader_body_approves "Council" dave eve (into_value fed_auth_tx) proposal_hash ;;
  upgrader_body_approves "TechnicalCommittee" alice bob (into_value fed_auth_tx) proposal_hash ;;
  call_data ← lift (map_err EncodingError (encode_call_data authorize_upgrade));
  let motion_hash := blake2_256 call_data in
  with_err Upg_SubxtError (submit signer (tx "FederatedAuthority" "motion_close" [V_bytes motion_hash])) ;;
  apply_events ← with_err Upg_SubxtError
    (submit signer (tx "System" "apply_authorized_upgrade" [V_bytes code]));
  success ← lift (code_updated apply_events);
  ensure success CodeUpgradeFailed.
End Upgrader.

(** ** The chain *)

Inductive Body : Type := Council | TechnicalCommittee.
#[export] Instance Body_eq_dec : EqDecision Body.
Proof. solve_decision. Defined.
Definition body_name (b : Body) : string := match b with Council => "Council" | TechnicalCommittee => "TechnicalCommittee" end.
Definition body_index (b : Body) : AuthId :=
  match b with Council => COUNCIL_INDEX | TechnicalCommittee => TECHNICAL_COMMITTEE_INDEX end.

(** The calls of the runtime that the clients make, with their fields in order. *)
Inductive GovCall (Opaque : Type) : Type :=
| Gov_propose (b : Body) (threshold : Z) (proposal : GovCall Opaque) (length_bound : Z)
| Gov_vote (b : Body) (proposal : list Z) (index : Z) (approve : bool)
| Gov_close (b : Body) (proposal_hash : list Z) (index : Z) (proposal_weight_bound : Weight) (length_bound : Z)
| Gov_motion_approve (call : GovCall Opaque)
| Gov_motion_close (motion_hash : list Z)
| Gov_authorize_upgrade (code_hash : list Z)
| Gov_apply_authorized_upgrade (code : list Z)
| Gov_opaque (c : Opaque).
Arguments Gov_propose {_}.
Arguments Gov_vote {_}.
Arguments Gov_close {_}.
Arguments Gov_motion_approve {_}.
Arguments Gov_motion_close {_}.
Arguments Gov_authorize_upgrade {_}.
Arguments Gov_apply_authorized_upgrade {_}.
Arguments Gov_opaque {_}.

Definition body_of_name (pallet : string) : option Body :=
  if decide (pallet = "Council"%string) then Some Council
  else if decide (pallet = "TechnicalCommittee"%string) then Some TechnicalCommittee else None.
Definition u32_value {Opaque} (v : Value Opaque) : option Z :=
  match v with V_u128 n => if bool_decide (0 ≤ n ≤ umax 32) then Some n else None | _ => None end.
Definition weight_of_value {Opaque} (v : Value Opaque) : option Weight :=
  match v with
  | V_composite [("ref_time"%string, V_u128 r); ("proof_size"%string, V_u128 p)] => Some (from_parts r p)
  | _ => None
  end.
Definition flat_call {Opaque} (pallet call_name : string) (args : list (Value Opaque)) : option (GovCall Opaque) :=
  if decide (pallet = "FederatedAuthority" ∧ call_name = "motion_close")%string then
    match args with [V_bytes h] => Some (Gov_motion_close h) | _ => None end
  else if decide (pallet = "System" ∧ call_name = "authorize_upgrade")%string then
    match args with [V_bytes h] => Some (Gov_authorize_upgrade h) | _ => None end
  else if decide (pallet = "System" ∧ call_name = "apply_authorized_upgrade")%string then
    match args with [V_bytes code] => Some (Gov_apply_authorized_upgrade code) | _ => None end
  else if decide (call_name = "vote"%string) then
    b ← body_of_name pallet;
    match args with [V_bytes h; i; V_bool a] => i ← u32_value i; Some (Gov_vote b h i a) | _ => None end
  else if decide (call_name = "close"%string) then
    b ← body_of_name pallet;
    match args with
    | [V_bytes h; i; w; l] =>
        i ← u32_value i; w ← weight_of_value w; l ← u32_value l; Some (Gov_close b h i w l)
    | _ => None
    end
  else None.
(** The call that a value stands for, by the names of pallets and calls in the
    metadata of the runtime. *)
Fixpoint resolve {Opaque} (v : Value Opaque) : option (GovCall Opaque) :=
  match v with
  | V_opaque c => Some (Gov_opaque c)
  | V_call pallet call_name args =>
      if decide (pallet = "FederatedAuthority" ∧ call_name = "motion_approve")%string then
        match args with [c] => Gov_motion_approve <$> resolve c | _ => None end
      else if decide (call_name = "propose"%string) then
        match args with
        | [t; c; l] =>
            b ← body_of_name pallet; t ← u32_value t; c ← resolve c; l ← u32_value l;
            Some (Gov_propose b t c l)
        | _ => None
        end
      else flat_call pallet call_name args
  | _ => None
  end.
(** The same call for the call filter of [Admission]. *)
Definition runtime_call {Opaque} (c : GovCall Opaque) : RuntimeCall (GovCall Opaque) :=
  match c with
  | Gov_propose Council _ _ _ | Gov_vote Council _ _ _ | Gov_close Council _ _ _ _ => Rt_Council c
  | Gov_propose _ _ _ _ | Gov_vote _ _ _ _ | Gov_close _ _ _ _ _ => Rt_TechnicalCommittee c
  | Gov_motion_approve c => Rt_FederatedAuthority (Call_motion_approve c)
  | Gov_motion_close h => Rt_FederatedAuthority (Call_motion_close h)
  | Gov_authorize_upgrade _ => Rt_System (Call_system_other c)
  | Gov_apply_authorized_upgrade code => Rt_System (Call_apply_authorized_upgrade code)
  | Gov_opaque _ => Rt_Timestamp c
  end.

(** The storage of an instance of pallet_collective. *)
Record Votes : Type := { vote_index : Z; vote_threshold : Z; ayes : list Z; nays : list Z }.
Record CollectiveStorage (Opaque : Type) : Type := {
  coll_members : list Z;
  ProposalOf : gmap (list Z) (GovCall Opaque);
  Voting : gmap (list Z) Votes;
  ProposalCount : Z;
}.
Arguments coll_members {_}.
Arguments ProposalOf {_}.
Arguments Voting {_}.
Arguments ProposalCount {_}.
Inductive GovEvent : Type :=
| Ev_Proposed (b : Body) (account proposal_index : Z) (proposal_hash : list Z) (threshold : Z)
| Ev_Collective (b : Body) (variant : string)
| Ev_CodeUpdated.
(** The state around [FedAuthority]'s: the two collectives, the events, the upgrade
    that is authorized, the usage of the throttle and the rest of the runtime. *)
Record GovWorld (Opaque R : Type) : Type := {
  collectives : Body → CollectiveStorage Opaque;
  deposited : list GovEvent;
  authorized_upgrade : option (list Z);
  account_usage : gmap Z (Z * Z);
  rest : R;
}.
Arguments collectives {_ _}.
Arguments deposited {_ _}.
Arguments authorized_upgrade {_ _}.
Arguments account_usage {_ _}.
Arguments rest {_ _}.

(** [MaxProposalWeight] of [runtime/src/lib.rs]: half of two seconds, and half of
    [u64::MAX] bytes. *)
Definition MaxProposalWeight : Weight := from_parts 1000000000000 (umax 64 / 2).
(** [frame_support]'s [ParityDbWeight]. *)
Definition ParityDbWeight : RuntimeDbWeight := {| db_read := 8000000; db_write := 50000000 |}.

(** The SCALE encoding of a compact integer below [2 ^ 32]. *)
Definition compact_encode (n : Z) : list Z :=
  if bool_decide (n < 2 ^ 6) then [4 * n]
  else if bool_decide (n < 2 ^ 14) then to_le_bytes 2 (4 * n + 1)
  else if bool_decide (n < 2 ^ 30) then to_le_bytes 4 (4 * n + 2)
  else 3 :: to_le_bytes 4 n.

Class GovRuntime (Opaque : Type) : Type := {
  GovRest : Type;
  GovForeign : Type;
  scale_encode : GovCall Opaque → list Z;
  scale_decode : list Z → option (Value Opaque);
  compact_decode : list Z → option Z;
  blake2 : list Z → list Z;
  account_bytes : Z → list Z;
  call_weight_of : GovCall Opaque → Weight;
  (** The length of a signed extrinsic with a call. *)
  xt_len : GovCall Opaque → Z;
  (** [TxPause], the base filter of the runtime. *)
  paused : GovRest → GovCall Opaque → bool;
  (** Whether code passes the checks on the version of a new runtime. *)
  can_set_code : GovRest → list Z → bool;
  gov_dispatch : GovCall Opaque → RuntimeOrigin →
    M (@State (GovCall Opaque) (list Z) (GovWorld Opaque GovRest) GovForeign _ _)
      (ErrorWithPostInfo Error GovForeign) PostDispatchInfo;
}.

Section Chain.
Context {Opaque : Type} `{G : !GovRuntime Opaque}.
Local Notation Call := (GovCall Opaque).
Definition Rt : Type := @State (GovCall Opaque) (list Z) (GovWorld Opaque GovRest) GovForeign _ _.
Definition gov_config : @Config RuntimeOrigin Z (GovCall Opaque) (list Z) (GovWorld Opaque GovRest) GovForeign _ _ :=
  runtime_config ParityDbWeight (λ c, blake2 (scale_encode c)) call_weight_of gov_dispatch.

Definition map_world (f : GovWorld Opaque GovRest → GovWorld Opaque GovRest) (s : Rt) : Rt :=
  {| Motions := Motions s; events := events s; block_number := block_number s; world := f (world s) |}.
Definition collective (b : Body) (s : Rt) : CollectiveStorage Opaque := collectives (world s) b.
Definition set_collective (b : Body) (k : CollectiveStorage Opaque) : Rt → Rt := map_world (λ w,
  {| collectives := λ b', if decide (b' = b) then k else collectives w b'; deposited := deposited w; authorized_upgrade := authorized_upgrade w;
     account_usage := account_usage w; rest := rest w |}).
Definition deposit (e : GovEvent) : Rt → Rt := map_world (λ w,
  {| collectives := collectives w; deposited := deposited w ++ [e]; authorized_upgrade := authorized_upgrade w;
     account_usage := account_usage w; rest := rest w |}).
Definition set_authorized (h : option (list Z)) : Rt → Rt := map_world (λ w,
  {| collectives := collectives w; deposited := deposited w; authorized_upgrade := h;
     account_usage := account_usage w; rest := rest w |}).
Definition set_usage (u : gmap Z (Z * Z)) : Rt → Rt := map_world (λ w,
  {| collectives := collectives w; deposited := deposited w; authorized_upgrade := authorized_upgrade w;
     account_usage := u; rest := rest w |}).
Definition set_votes (b : Body) (h : list Z) (p : option Call) (v : option Votes) (count : Z) (s : Rt) : Rt :=
  let k := collective b s in
  set_collective b {| coll_members := coll_members k; ProposalOf := partial_alter (λ _, p) h (ProposalOf k);
                      Voting := partial_alter (λ _, v) h (Voting k); ProposalCount := count |} s.

(** What the calls of pallet_collective and frame_system do on the paths the clients
    rely on, as these pallets document it: proposing, voting and closing with enough
    ayes, which dispatches the proposal with the origin of the members and reports
    its result in an event; authorizing code as root, and applying it. *)
Class GovRuntimeLaws `{!StorageLayers} : Prop := {
  law_propose b who threshold c length_bound (s : Rt) :
    let h := blake2 (scale_encode c) in
    let k := collective b s in
    paused (rest (world s)) (Gov_propose b threshold c length_bound) = false →
    who ∈ coll_members k → 2 ≤ threshold → Z.of_nat (length (scale_encode c)) ≤ length_bound →
    call_weight_of c ≤w MaxProposalWeight → ProposalOf k !! h = None →
    Z.of_nat (size (ProposalOf k)) < MAX_PROPOSALS → ProposalCount k < umax 32 →
    ∃ info, gov_dispatch (Gov_propose b threshold c length_bound) (System (Signed who)) s =
      (Ok info, deposit (Ev_Proposed b who (ProposalCount k) h threshold)
         (set_votes b h (Some c) (Some {| vote_index := ProposalCount k; vote_threshold := threshold; ayes := []; nays := [] |})
            (ProposalCount k + 1) s));
  law_vote b who h i v (s : Rt) :
    let k := collective b s in
    paused (rest (world s)) (Gov_vote b h i true) = false →
    who ∈ coll_members k → Voting k !! h = Some v → (who ∉ ayes v) → (who ∉ nays v) →
    if decide (vote_index v = i)
    then ∃ info, gov_dispatch (Gov_vote b h i true) (System (Signed who)) s =
      (Ok info, deposit (Ev_Collective b "Voted")
         (set_votes b h (ProposalOf k !! h) (Some {| vote_index := i; vote_threshold := vote_threshold v;
            ayes := ayes v ++ [who]; nays := nays v |}) (ProposalCount k) s))
    else ∃ e, gov_dispatch (Gov_vote b h i true) (System (Signed who)) s = (Err e, s);
  law_close b who h weight_bound length_bound v c (s : Rt) r s1 :
    let k := collective b s in
    let s0 := deposit (Ev_Collective b "Approved") (deposit (Ev_Collective b "Closed") s) in
    paused (rest (world s)) (Gov_close b h (vote_index v) weight_bound length_bound) = false →
    Voting k !! h = Some v → vote_threshold v ≤ Z.of_nat (length (ayes v)) →
    ProposalOf k !! h = Some c → Z.of_nat (length (scale_encode c)) ≤ length_bound → call_weight_of c ≤w weight_bound →
    gov_dispatch c (Members (body_index b) (Z.of_nat (length (ayes v))) (Z.of_nat (length (coll_members k)))) s0 = (r, s1) →
    r ≠ Panic →
    ∃ info, gov_dispatch (Gov_close b h (vote_index v) weight_bound length_bound) (System (Signed who)) s =
      (Ok info, set_votes b h None None (ProposalCount (collective b s1)) (deposit (Ev_Collective b "Executed") s1));
  law_motion_approve c o (s : Rt) :
    paused (rest (world s)) (Gov_motion_approve c) = false →
    gov_dispatch (Gov_motion_approve c) o s = motion_approve gov_config o c s;
  law_motion_close h o (s : Rt) :
    paused (rest (world s)) (Gov_motion_close h) = false →
    gov_dispatch (Gov_motion_close h) o s = motion_close gov_config o h s;
  law_motion_approve_weight c o : call_weight_of (Gov_motion_approve c) = declared_weight gov_config (Approve o c);
  law_authorize_upgrade h (s : Rt) :
    ∃ info, gov_dispatch (Gov_authorize_upgrade h) (System Root) s = (Ok info, set_authorized (Some h) s);
  law_apply_upgrade code who (s : Rt) :
    paused (rest (world s)) (Gov_apply_authorized_upgrade code) = false →
    authorized_upgrade (world s) = Some (blake2 code) → can_set_code (rest (world s)) code = true →
    ∃ info, gov_dispatch (Gov_apply_authorized_upgrade code) (System (Signed who)) s =
      (Ok info, deposit Ev_CodeUpdated (set_authorized None s));
  (** SCALE: two bytes of indices before the fields; compact integers. *)
  law_encode_motion_approve c : length (scale_encode (Gov_motion_approve c)) = (2 + length (scale_encode c))%nat;
  law_encode_authorize h : length (scale_encode (Gov_authorize_upgrade h)) = (2 + length h)%nat;
  law_account_bytes who : length (account_bytes who) = 32%nat;
  law_compact_zero l : compact_decode (compact_encode 0 ++ l) = Some 0;
  law_compact_sound l n : compact_decode l = Some n → 0 ≤ n < 2 ^ 32 ∧ ∃ l', l = compact_encode n ++ l';
  law_blake2 l : length (blake2 l) = 32%nat;
}.

(** ** A client of the chain *)

(** Between two extrinsics of the client blocks pass and others use the chain. *)
Context (env : nat → Rt → Rt).
Record Chain : Type := { clock : nat; state : Rt }.
Inductive ChainError : Type :=
| Chain_Encode
| Chain_Invalid
| Chain_Dispatch (e : ErrorWithPostInfo Error GovForeign)
| Chain_Panic.
Definition raw_event (e : GovEvent) : RawEvent Opaque ChainError :=
  match e with
  | Ev_Proposed b account i h threshold =>
      {| pallet_name := body_name b; variant_name := "Proposed";
         field_bytes := account_bytes account ++ to_le_bytes 4 i ++ h ++ to_le_bytes 4 threshold;
         field_values := Ok [("account", V_bytes (account_bytes account)); ("proposal_index", V_u128 i);
                             ("proposal_hash", V_bytes h); ("threshold", V_u128 threshold)]%string |}
  | Ev_Collective b variant =>
      {| pallet_name := body_name b; variant_name := variant; field_bytes := []; field_values := Ok [] |}
  | Ev_CodeUpdated =>
      {| pallet_name := "System"; variant_name := "CodeUpdated"; field_bytes := []; field_values := Ok [] |}
  end.
Definition extrinsic_success : RawEvent Opaque ChainError :=
  {| pallet_name := "System"; variant_name := "ExtrinsicSuccess"; field_bytes := []; field_values := Ok [] |}.

(** The extrinsic of a call that [who] signs, in the block at which state [s] has
    arrived: the extensions of the runtime, then the dispatch. *)
Definition signed_tx (who : Z) (c : Call) (s : Rt) : SignedTx Call Z :=
  {| tx_block := block_number s; tx_who := who; tx_call := runtime_call c; tx_len := xt_len c |}.
Definition apply_signed_call (who : Z) (c : Call) (s : Rt) :
    outcome ChainError (list (RawEvent Opaque ChainError)) * Rt :=
  match signed_extra_apply (F := Empty_set) (λ _, Ok tt) ThrottleMaxBytes ThrottleWindowSize
          (account_usage (world s)) (signed_tx who c s) with
  | (Ok _, u) =>
      let s1 := set_usage u s in
      match gov_dispatch c (System (Signed who)) s1 with
      | (Ok _, s2) =>
          (Ok ((raw_event <$> drop (length (deposited (world s1))) (deposited (world s2))) ++ [extrinsic_success]), s2)
      | (Err e, s2) => (Err (Chain_Dispatch e), s2)
      | (Panic, s2) => (Err Chain_Panic, s2)
      end
  | _ => (Err Chain_Invalid, s)
  end.
Definition chain_submit (who : Z) (p : Payload Opaque) : M Chain ChainError (list (outcome ChainError (RawEvent Opaque ChainError))) := λ ch,
  match resolve (into_value p) with
  | None => (Err Chain_Encode, ch)
  | Some c =>
      let '(r, s) := apply_signed_call who c (env (clock ch) (state ch)) in
      (match r with Ok l => Ok (Ok <$> l) | Err e => Err e | Panic => Panic end, {| clock := S (clock ch); state := s |})
  end.
#[local] Instance chain_client : SubxtClient Opaque := {|
  SxError := ChainError; Keypair := Z; SxState := Chain;
  encode_call_data p := match resolve (into_value p) with Some c => Ok (scale_encode c) | None => Err Chain_Encode end;
  decode_as_type := scale_decode; submit := chain_submit; blake2_256 := blake2; compact_u32_decode := compact_decode;
|}.

(** ** What a client may rely on *)

Section Runs.
Context `{!StorageLayers} (HL : GovRuntimeLaws).
(** The call of the motion, the members of the bodies, the keys that sign, the first
    and the last block of a run, and the bytes of an extrinsic and of earlier ones. *)
Context (c : Call) (mem : Body → list Z) (signers : list Z) (first last L U : Z).
Definition proposal : Call := Gov_motion_approve c.
Definition proposal_hash : list Z := blake2 (scale_encode proposal).
Definition motion_hash : list Z := blake2 (scale_encode c).

(** The calls of a run. *)
Definition governs (c' : Call) : Prop :=
  match c' with
  | Gov_propose _ _ p _ => p = proposal
  | Gov_vote _ h _ _ | Gov_close _ h _ _ _ => h = proposal_hash
  | Gov_motion_approve _ => c' = proposal
  | Gov_motion_close h => h = motion_hash
  | _ => False
  end.

(** What the chain records about the motion [m] and the proposals [pv] of the bodies. *)
Record view (m : option (@MotionInfo Call)) (pv : Body → option (Call * Votes)) (a : option (list Z)) (s : Rt) : Prop := {
  view_members b : coll_members (collective b s) = mem b;
  view_proposal b : ProposalOf (collective b s) !! proposal_hash = fst <$> pv b;
  view_votes b : Voting (collective b s) !! proposal_hash = snd <$> pv b;
  view_motion : Motions s !! motion_hash = m;
  view_authorized : authorized_upgrade (world s) = a;
}.
(** What a run relies on after [n] extrinsics of the client: nothing it calls is
    paused, the blocks of the run, room for a proposal, unused bytes of the keys. *)
Record ready (n : nat) (s : Rt) : Prop := {
  ready_pause c' : governs c' → paused (rest (world s)) c' = false;
  ready_block : first ≤ block_number s ≤ last;
  ready_room b : Z.of_nat (size (delete proposal_hash (ProposalOf (collective b s)))) < MAX_PROPOSALS;
  ready_count b : 0 ≤ ProposalCount (collective b s) < umax 32 - 12 + Z.of_nat n;
  ready_usage who : who ∈ signers → 0 ≤ fst (usage (account_usage (world s)) who) ≤ U + Z.of_nat n * L;
}.
(** The environment keeps that, and leaves the members, this proposal and this motion
    alone. *)
Record calm (n : nat) (s s' : Rt) : Prop := {
  calm_ready : ready n s → ready n s';
  calm_view m pv a : view m pv a s → view m pv a s';
}.
Context (Hcalm : ∀ n s, calm n s (env n s)).
Context (Hlen : ∀ c', governs c' → 0 ≤ xt_len c' ≤ L).
Context (Hbudget : 0 ≤ U ∧ U + 12 * L ≤ ThrottleMaxBytes).

Lemma governs_admitted c' : governs c' → c' ≠ proposal → contains (runtime_call c') = true.
Proof. by destruct c' as [[]|[]|[]| | | | |]. Qed.

Lemma charge u b who len B :
  who ∈ signers → (∀ w, w ∈ signers → 0 ≤ fst (usage u w) ≤ B) → 0 ≤ len → B + len ≤ ThrottleMaxBytes →
  validate ThrottleMaxBytes ThrottleWindowSize b u (Signed who) len = Ok (Some who) ∧
  ∀ w, w ∈ signers → 0 ≤ fst (usage (prepare ThrottleWindowSize b u (Some who) len) w) ≤ B + len.
Proof.
  intros Hwho Hu Hlen' HB. pose proof (Hu who Hwho) as Hw. unfold validate, prepare, as_system_origin_signer.
  assert (ThrottleMaxBytes < umax 64) as Hmax by reflexivity.
  destruct (usage u who) as [used start]; simpl in Hw. unfold sat_add. split.
  - repeat case_bool_decide; try done; lia.
  - intros w Hws. pose proof (Hu w Hws). destruct (decide (who = w)) as [->|Hne].
    + case_bool_decide; rewrite usage_insert_eq; simpl; lia.
    + case_bool_decide; rewrite usage_insert_ne by done; lia.
Qed.

(** The result of an extrinsic whose dispatch starts in [s1]. *)
Definition submitted (who : Z) (p : Payload Opaque) (c' : Call) (ch : Chain) (s1 : Rt) : Prop :=
  let next s2 := {| clock := S (clock ch); state := s2 |} in
  (∀ info s2, gov_dispatch c' (System (Signed who)) s1 = (Ok info, s2) →
    chain_submit who p ch =
      (Ok (Ok <$> ((raw_event <$> drop (length (deposited (world s1))) (deposited (world s2))) ++ [extrinsic_success])), next s2)) ∧
  (∀ e s2, gov_dispatch c' (System (Signed who)) s1 = (Err e, s2) →
    chain_submit who p ch = (Err (Chain_Dispatch e), next s2)).

(** An extrinsic is admitted, after the environment has acted. *)
Lemma extrinsic_admitted who p c' ch B :
  resolve (into_value p) = Some c' → contains (runtime_call c') = true → 0 ≤ xt_len c' →
  (∀ w, w ∈ signers → 0 ≤ fst (usage (account_usage (world (env (clock ch) (state ch)))) w) ≤ B) →
  B + xt_len c' ≤ ThrottleMaxBytes → who ∈ signers →
  ∃ u, let s1 := set_usage u (env (clock ch) (state ch)) in
    submitted who p c' ch s1 ∧ ∀ w, w ∈ signers → 0 ≤ fst (usage u w) ≤ B + xt_len c'.
Proof.
  intros Hp Hc Hl Hu HB Hwho. set (s := env _ _) in *.
  destruct (charge (account_usage (world s)) (block_number s) who (xt_len c') B Hwho) as [Hv Hu']; [done..|].
  eexists. split; [|exact Hu'].
  unfold submitted, chain_submit, apply_signed_call, signed_extra_apply, signed_extra_validate, check_call_filter_validate.
  rewrite Hp. fold s. cbn [tx_call tx_who tx_block tx_len signed_tx]. rewrite Hc, Hv. cbn.
  split; intros ? s2 Hd; by rewrite Hd.
Qed.

Lemma ready_charged n s u : ready n s →
  (∀ w, w ∈ signers → 0 ≤ fst (usage u w) ≤ U + Z.of_nat (S n) * L) → ready (S n) (set_usage u s).
Proof.
  intros [Hp Hb Hroom Hc Hu] Hu'. split; try done. intros b. specialize (Hc b). unfold collective in *. cbn. lia.
Qed.

Definition same_counts (s s' : Rt) : Prop := ∀ b, ProposalCount (collective b s') = ProposalCount (collective b s).
Lemma governed_submitted who p c' ch :
  resolve (into_value p) = Some c' → governs c' → c' ≠ proposal → who ∈ signers →
  ready (clock ch) (state ch) → (clock ch < 12)%nat →
  ∃ s1, submitted who p c' ch s1 ∧ ready (S (clock ch)) s1 ∧ (∀ m pv a, view m pv a (state ch) → view m pv a s1) ∧
    same_counts (env (clock ch) (state ch)) s1.
Proof.
  intros Hp Hc Hne Hwho Hr Hn. pose proof (Hlen c' Hc) as Hl.
  destruct (extrinsic_admitted who p c' ch (U + Z.of_nat (clock ch) * L)) as (u & Hs & Hu); try done.
  - by apply governs_admitted.
  - lia.
  - by apply Hcalm.
  - destruct Hbudget. nia.
  - eexists. split; [exact Hs|]. pose proof (Hcalm (clock ch) (state ch)) as [Hq Hq']. split_and!.
    + apply ready_charged; [by apply Hq|]. intros w Hw. pose proof (Hu w Hw). lia.
    + intros m pv a Hv%Hq'. destruct Hv. by split.
    + done.
Qed.

(** ** Steps of a body *)

Definition upd (b : Body) (o : option (Call * Votes)) (pv : Body → option (Call * Votes)) : Body → option (Call * Votes) :=
  λ b', if decide (b' = b) then o else pv b'.
Lemma view_set_votes b o n e s m pv a :
  view m pv a s →
  view m (upd b o pv) a (deposit e (set_votes b proposal_hash (fst <$> o) (snd <$> o) n s)).
Proof.
  intros [Hmem Hprop Hvot Hm Ha]. split; [..|done|done]; intros b'; unfold upd; pose proof (Hmem b');
    pose proof (Hprop b'); pose proof (Hvot b'); unfold deposit, set_votes, set_collective, collective in *; cbn in *;
    (destruct (decide (b' = b)) as [->|]; cbn; [|done]); by rewrite ?lookup_partial_alter_eq.
Qed.
Lemma ready_set_votes b p v n k s :
  0 ≤ n < umax 32 - 12 + Z.of_nat k → ready k s → ready k (set_votes b proposal_hash p v n s).
Proof.
  intros Hn [Hp Hb Hroom Hc Hu]. split; try done; intros b'; [pose proof (Hroom b') as Hx|pose proof (Hc b') as Hx];
    unfold set_votes, set_collective, collective in *; cbn in *; destruct (decide (b' = b)) as [->|]; cbn; try done.
  by rewrite delete_partial_alter_eq.
Qed.
Lemma ready_deposit e k s : ready k s → ready k (deposit e s).
Proof. intros []. by split. Qed.
Lemma counts_set_votes b h p v n e s b' :
  ProposalCount (collective b' (deposit e (set_votes b h p v n s))) =
    if decide (b' = b) then n else ProposalCount (collective b' s).
Proof. unfold deposit, set_votes, set_collective, collective; cbn. by destruct (decide (b' = b)). Qed.

Context (v : Value Opaque) (Hv : resolve v = Some c).
Context (Hshort : Z.of_nat (length (scale_encode proposal)) ≤ 10000).
Definition approve_value : Value Opaque := into_value (tx "FederatedAuthority" "motion_approve" [v]).
Lemma resolve_approve : resolve approve_value = Some proposal.
Proof. cbn. by rewrite Hv. Qed.

Lemma proposal_weight : call_weight_of proposal ≤w from_parts 10000000000 65536 ∧ call_weight_of proposal ≤w MaxProposalWeight.
Proof.
  unfold proposal. rewrite (law_motion_approve_weight (GovRuntimeLaws := HL) _ (System Root)).
  split; split; vm_compute; discriminate.
Qed.

Definition open_votes (i : Z) (l : list Z) : option (Call * Votes) :=
  Some (proposal, {| vote_index := i; vote_threshold := 2; ayes := l; nays := [] |}).

Lemma propose_step b who ch m pv a :
  who ∈ mem b → who ∈ signers → pv b = None → view m pv a (state ch) → ready (clock ch) (state ch) → (clock ch < 12)%nat →
  ∃ i s2,
    chain_submit who (tx (body_name b) "propose" [V_u128 2; approve_value; V_u128 10000]) ch =
      (Ok [Ok (raw_event (Ev_Proposed b who i proposal_hash 2)); Ok extrinsic_success], {| clock := S (clock ch); state := s2 |}) ∧
    i = ProposalCount (collective b (env (clock ch) (state ch))) ∧ 0 ≤ i < umax 32 ∧
    ready (S (clock ch)) s2 ∧ view m (upd b (open_votes i []) pv) a s2 ∧
    ∀ b', b' ≠ b → ProposalCount (collective b' s2) = ProposalCount (collective b' (env (clock ch) (state ch))).
Proof.
  intros Hmem Hwho Hpv Hview Hr Hn.
  destruct (governed_submitted who (tx (body_name b) "propose" [V_u128 2; approve_value; V_u128 10000])
    (Gov_propose b 2 proposal 10000) ch) as (s1 & Hs & Hr1 & Hview1 & Hcnt); try done.
  { destruct b; cbn; by rewrite Hv. }
  apply Hview1 in Hview. pose proof (ready_room _ _ Hr1 b) as Hsize. pose proof (ready_count _ _ Hr1 b) as Hcount.
  assert (ProposalOf (collective b s1) !! proposal_hash = None) as Hnone by (by rewrite (view_proposal _ _ _ _ Hview), Hpv).
  rewrite delete_id in Hsize by done.
  destruct (law_propose (GovRuntimeLaws := HL) b who 2 proposal 10000 s1) as [info Hd]; try done.
  - by apply Hr1.
  - by rewrite (view_members _ _ _ _ Hview).
  - apply proposal_weight.
  - lia.
  - exists (ProposalCount (collective b s1)). eexists. split; [|split; [apply Hcnt|split; [lia|split; [|split]]]].
    + rewrite (proj1 Hs _ _ Hd). do 2 f_equal.
      cbn [deposited world deposit map_world set_votes set_collective]. rewrite drop_app_length. done.
    + apply ready_deposit, ready_set_votes; [|done]. pose proof (ready_count _ _ (calm_ready _ _ _ (Hcalm _ _) Hr) b) as Hb.
      rewrite (Hcnt b). lia.
    + apply (view_set_votes b (open_votes _ [])). done.
    + intros b' Hb'. rewrite counts_set_votes, decide_False by done. apply Hcnt.
Qed.

Lemma u32_value_ok j : 0 ≤ j ≤ umax 32 → u32_value (Opaque := Opaque) (V_u128 j) = Some j.
Proof. intros Hj. unfold u32_value. by rewrite bool_decide_true. Qed.
Lemma vote_step b who i l j ch m pv a :
  who ∈ mem b → who ∈ signers → (who ∉ l) → 0 ≤ j ≤ umax 32 → pv b = open_votes i l →
  view m pv a (state ch) → ready (clock ch) (state ch) → (clock ch < 12)%nat →
  let p := tx (body_name b) "vote" [V_bytes proposal_hash; V_u128 j; V_bool true] in
  if decide (i = j) then
    ∃ events s2, chain_submit who p ch = (Ok events, {| clock := S (clock ch); state := s2 |}) ∧
      ready (S (clock ch)) s2 ∧ view m (upd b (open_votes i (l ++ [who])) pv) a s2 ∧
      same_counts (env (clock ch) (state ch)) s2
  else ∃ e ch', chain_submit who p ch = (Err (Chain_Dispatch e), ch').
Proof.
  intros Hmem Hwho Hl Hj Hpv Hview Hr Hn p.
  destruct (governed_submitted who p (Gov_vote b proposal_hash j true) ch) as (s1 & Hs & Hr1 & Hview1 & Hcnt); try done.
  { transitivity (u32_value (Opaque := Opaque) (V_u128 j) ≫= λ j, Some (Gov_vote (Opaque := Opaque) b proposal_hash j true));
      [by destruct b|by rewrite u32_value_ok]. }
  apply Hview1 in Hview.
  assert (Voting (collective b s1) !! proposal_hash = Some {| vote_index := i; vote_threshold := 2; ayes := l; nays := [] |}) as Hvot
    by (by rewrite (view_votes _ _ _ _ Hview), Hpv).
  pose proof (law_vote (GovRuntimeLaws := HL) b who proposal_hash j
    {| vote_index := i; vote_threshold := 2; ayes := l; nays := [] |} s1) as Hlaw.
  specialize (Hlaw (ready_pause _ _ Hr1 (Gov_vote b proposal_hash j true) eq_refl)). rewrite (view_members _ _ _ _ Hview) in Hlaw.
  specialize (Hlaw Hmem Hvot Hl (not_elem_of_nil _)). cbn in Hlaw. destruct (decide (i = j)) as [<-|Hne].
  - destruct Hlaw as [info Hd]. eexists _, _. split; [exact (proj1 Hs _ _ Hd)|]. split_and!.
    + apply ready_deposit, ready_set_votes; [apply Hr1|done].
    + rewrite (view_proposal _ _ _ _ Hview), Hpv. apply (view_set_votes b (open_votes i (l ++ [who]))). done.
    + intros b'. rewrite counts_set_votes. destruct (decide (b' = b)) as [->|]; apply Hcnt.
  - destruct Hlaw as [e Hd]. eexists _, _. exact (proj2 Hs _ _ Hd).
Qed.

(** The motion after the members of a body have approved it in block [n]. *)
Definition approved_by (b : Body) (n : Z) (m : option (@MotionInfo Call)) : option (@MotionInfo Call) :=
  Some match m with
  | None => {| approvals := {[body_index b]}; ends_block := sat_add 32 n MOTION_DURATION; call := c |}
  | Some m => {| approvals := {[body_index b]} ∪ approvals m; ends_block := ends_block m; call := call m |}
  end.
Definition awaits (b : Body) (m : option (@MotionInfo Call)) : Prop :=
  match m with
  | None => True
  | Some m => (body_index b ∉ approvals m) ∧ FedAuthority.len (approvals m) < MAX_NUM_BODIES ∧ last < ends_block m
  end.
(** Two members speak for a body of at most three. *)
Definition speaks (b : Body) : bool := bool_decide (length (mem b) ≤ 3)%nat.

Lemma approve_as_members b m s :
  Motions s !! motion_hash = m → awaits b m → block_number s ≤ last →
  ∃ r s1, motion_approve gov_config (Members (body_index b) 2 (Z.of_nat (length (mem b)))) c s = (r, s1) ∧ r ≠ Panic ∧
    if speaks b then s1 = committed motion_hash (approved_by b (block_number s) m) (MotionApproved motion_hash (body_index b)) s
    else s1 = s.
Proof.
  intros Hm Haw Hblock. rewrite motion_approve_eq.
  assert (try_origin (MotionApprovalOrigin gov_config) (Members (body_index b) 2 (Z.of_nat (length (mem b)))) =
    if speaks b then Some (body_index b) else None) as ->.
  { unfold speaks, try_origin. destruct b; cbn; unfold body_ensure_from_bodies; cbn;
      repeat case_bool_decide; cbn; done || lia. }
  destruct (speaks b); [|by eexists _, _]. change (hash_of gov_config c) with motion_hash. rewrite Hm.
  unfold approve_mutation, has_ended, try_insert, approved_by, awaits in *. destruct m as [m|].
  - destruct Haw as (Hnot & Hsize & Hend). rewrite bool_decide_false by lia.
    rewrite bool_decide_false by done. rewrite bool_decide_true by done. by eexists _, _.
  - rewrite bool_decide_false by set_solver. rewrite size_empty. cbn. eexists _, _. split; [reflexivity|]. split; [done|].
    by rewrite union_empty_r_L.
Qed.

Lemma view_deposit e m pv a s : view m pv a s → view m pv a (deposit e s).
Proof. intros []. by split. Qed.
Lemma view_committed m' e m pv a s : view m pv a s → view m' pv a (committed motion_hash m' e s).
Proof. intros [Hmem Hp Hvo Hm Ha]. split; try done. cbn. by rewrite lookup_partial_alter_eq. Qed.

Lemma close_step b who i k1 k2 ch m pv a :
  who ∈ signers → 0 ≤ i ≤ umax 32 → pv b = open_votes i [k1; k2] → awaits b m →
  view m pv a (state ch) → ready (clock ch) (state ch) → (clock ch < 12)%nat →
  ∃ events s2,
    chain_submit who (tx (body_name b) "close" [V_bytes proposal_hash; V_u128 i; weight_value; V_u128 10000]) ch =
      (Ok events, {| clock := S (clock ch); state := s2 |}) ∧
    ready (S (clock ch)) s2 ∧ same_counts (env (clock ch) (state ch)) s2 ∧
    ∃ n, first ≤ n ≤ last ∧ view (if speaks b then approved_by b n m else m) (upd b None pv) a s2.
Proof.
  intros Hwho Hi Hpv Haw Hview Hr Hn. set (w := from_parts 10000000000 65536).
  destruct (governed_submitted who (tx (body_name b) "close" [V_bytes proposal_hash; V_u128 i; weight_value; V_u128 10000])
    (Gov_close b proposal_hash i w 10000) ch) as (s1 & Hs & Hr1 & Hview1 & Hcnt); try done.
  { transitivity (u32_value (Opaque := Opaque) (V_u128 i) ≫= λ i, Some (Gov_close (Opaque := Opaque) b proposal_hash i w 10000));
      [by destruct b|by rewrite u32_value_ok]. }
  apply Hview1 in Hview. set (votes := {| vote_index := i; vote_threshold := 2; ayes := [k1; k2]; nays := [] |}).
  set (s0 := deposit (Ev_Collective b "Approved") (deposit (Ev_Collective b "Closed") s1)).
  destruct (approve_as_members b m s0) as (r & s' & Happ & Hnp & Hs'); [apply Hview|done|apply Hr1|].
  destruct (law_close (GovRuntimeLaws := HL) b who proposal_hash w 10000 votes proposal s1 r s') as [info Hd]; try done.
  - by apply Hr1.
  - by rewrite (view_votes _ _ _ _ Hview), Hpv.
  - by rewrite (view_proposal _ _ _ _ Hview), Hpv.
  - apply proposal_weight.
  - rewrite (view_members _ _ _ _ Hview). fold s0.
    etransitivity; [apply (law_motion_approve (GovRuntimeLaws := HL))|exact Happ]. by apply Hr1.
  - eexists _, _. split; [exact (proj1 Hs _ _ Hd)|]. apply (view_deposit (Ev_Collective b "Closed")) in Hview.
    apply (view_deposit (Ev_Collective b "Approved")) in Hview. fold s0 in Hview.
    assert (ready (S (clock ch)) s' ∧ same_counts s1 s' ∧ view (if speaks b then approved_by b (block_number s0) m else m) pv a s')
      as (Hr' & Hc' & Hv').
    { destruct (speaks b); subst s'; split_and!; try done; first [by destruct Hr1|by eapply view_committed]. }
    split_and!.
    + apply ready_set_votes; [apply Hr'|by apply ready_deposit].
    + intros b'. pose proof (counts_set_votes b proposal_hash None None (ProposalCount (collective b s')) (Ev_Collective b "Executed") s' b') as Hb.
      rewrite <-Hcnt, <-Hc'. destruct (decide (b' = b)) as [->|]; done.
    + exists (block_number s0). split; [apply Hr1|].
      destruct (view_set_votes b None (ProposalCount (collective b s')) (Ev_Collective b "Executed") _ _ _ _ Hv'). by split.
Qed.

(** ** The part of a body *)

Lemma view_upd b o o' m pv a s : view m (upd b o (upd b o' pv)) a s → view m (upd b o pv) a s.
Proof.
  intros [? Hp Hvo ? ?]. split; try done; intros b'; [rewrite (Hp b')|rewrite (Hvo b')]; unfold upd; by destruct (decide (b' = b)).
Qed.
Lemma view_restored b m pv a s : pv b = None → view m (upd b None pv) a s → view m pv a s.
Proof.
  intros Hb [? Hp Hvo ? ?]. split; try done; intros b'; [rewrite (Hp b')|rewrite (Hvo b')]; unfold upd;
    destruct (decide (b' = b)) as [->|]; by rewrite ?Hb.
Qed.
Lemma upd_eq b o pv : upd b o pv b = o.
Proof. unfold upd. by rewrite decide_True. Qed.

Definition votes_and_close {Err' : Type} (f : ChainError → Err') (b : Body) (k1 k2 i : Z) : M Chain Err' unit :=
  vote_on_proposal f k1 (body_name b) proposal_hash i true ;;
  vote_on_proposal f k2 (body_name b) proposal_hash i true ;;
  close_proposal f k1 (body_name b) proposal_hash i.
Lemma votes_and_close_run {Err' : Type} (f : ChainError → Err') b k1 k2 i ch m pv a :
  k1 ∈ mem b → k2 ∈ mem b → k1 ≠ k2 → k1 ∈ signers → k2 ∈ signers → 0 ≤ i ≤ umax 32 →
  pv b = open_votes i [] → awaits b m → view m pv a (state ch) → ready (clock ch) (state ch) → (clock ch < 10)%nat →
  ∃ s', votes_and_close f b k1 k2 i ch = (Ok tt, {| clock := 3 + clock ch; state := s' |}) ∧ ready (3 + clock ch) s' ∧
    (∃ n, first ≤ n ≤ last ∧ view (if speaks b then approved_by b n m else m) (upd b None pv) a s') ∧
    ((∀ n s, same_counts s (env n s)) → same_counts (state ch) s').
Proof.
  intros Hm1 Hm2 Hne Hs1 Hs2 Hi Hpv Haw Hview Hr Hn.
  pose proof (vote_step b k1 i [] i ch m pv a Hm1 Hs1 (not_elem_of_nil _) Hi Hpv Hview Hr) as H1.
  cbv zeta in H1. rewrite decide_True in H1 by done. destruct H1 as (e1 & s1 & Hd1 & Hr1 & Hv1 & Hc1); [lia|].
  pose proof (vote_step b k2 i [k1] i {| clock := S (clock ch); state := s1 |} m (upd b (open_votes i [k1]) pv) a Hm2 Hs2) as H2. cbn [clock state] in H2.
  specialize (H2 ltac:(by intros ?%list_elem_of_singleton) Hi (upd_eq _ _ _) Hv1 Hr1).
  cbv zeta in H2. rewrite decide_True in H2 by done. destruct H2 as (e2 & s2 & Hd2 & Hr2 & Hv2 & Hc2); [lia|].
  destruct (close_step b k1 i k1 k2 {| clock := S (S (clock ch)); state := s2 |} m _ a Hs1 Hi (upd_eq _ _ _) Haw Hv2 Hr2)
    as (e3 & s3 & Hd3 & Hr3 & Hc3 & n & Hb & Hv3); [cbn; lia|]. cbn [clock state] in *.
  exists s3. split_and!; [|done| |].
  - unfold votes_and_close, vote_on_proposal, close_proposal, with_err, mbind, M_bind, mret, M_ret. cbn [submit chain_client].
    rewrite Hd1. cbn [map_err]. rewrite Hd2. cbn [map_err]. by rewrite Hd3.
  - exists n. split; [done|]. by do 2 apply view_upd in Hv3.
  - intros He b'. by rewrite Hc3, He, Hc2, He, Hc1, He.
Qed.

(** The first two keys given for a body are distinct members of it. *)
Definition body_keys (b : Body) (k1 k2 : Z) : Prop :=
  k1 ∈ mem b ∧ k2 ∈ mem b ∧ k1 ≠ k2 ∧ k1 ∈ signers ∧ k2 ∈ signers.

Lemma body_approves_run b k1 k2 ks ch m pv a :
  body_keys b k1 k2 → pv b = None → awaits b m →
  view m pv a (state ch) → ready (clock ch) (state ch) → (clock ch < 9)%nat →
  ∃ s', body_approves (Opaque := Opaque) (body_name b) (k1 :: k2 :: ks : list (@Keypair _ chain_client)) approve_value proposal_hash ch =
      (Ok tt, {| clock := 4 + clock ch; state := s' |}) ∧
    ready (4 + clock ch) s' ∧ ∃ n, first ≤ n ≤ last ∧ view (if speaks b then approved_by b n m else m) pv a s'.
Proof.
  intros (Hm1 & Hm2 & Hne & Hs1 & Hs2) Hpv Haw Hview Hr Hn.
  destruct (propose_step b k1 ch m pv a Hm1 Hs1 Hpv Hview Hr) as (i & s1 & Hd & _ & Hi & Hr1 & Hv1 & _); [lia|].
  destruct (votes_and_close_run (Root_SubxtError (SxErr := ChainError)) b k1 k2 i {| clock := S (clock ch); state := s1 |} m _ a
    Hm1 Hm2 Hne Hs1 Hs2 ltac:(lia) (upd_eq _ _ _) Haw Hv1 Hr1) as (s' & Hrun & Hr' & (n & Hb & Hv') & _); [cbn; lia|].
  exists s'. split_and!; [|exact Hr'|exists n; split; [done|]].
  - unfold body_approves. cbn [expect lookup list_lookup].
    unfold mbind at 1, M_bind at 1, mret at 1, M_ret at 1. unfold mbind at 1, M_bind at 1, with_err at 1.
    cbn [submit chain_client]. rewrite Hd. cbn [map_err].
    unfold mbind at 1, M_bind at 1, lift at 1.
    match goal with |- context [extract_proposal_index ?l ?n] => assert (extract_proposal_index l n = Ok i) as -> end.
    { cbn. rewrite bool_decide_true by done. f_equal. unfold wrap. rewrite Z.mod_small; [done|]. unfold umax in Hi. lia. }
    rewrite for_each_two. exact Hrun.
  - apply (view_restored b); [done|]. by apply view_upd in Hv'.
Qed.

(** ** Closing the motion *)

(** Both bodies have approved the motion. *)
Definition approved_motion (m : @MotionInfo Call) : Prop :=
  call m = c ∧ approvals m = {[body_index Council; body_index TechnicalCommittee]}.

Lemma motion_close_step who ch m pv a :
  who ∈ signers → view m pv a (state ch) → ready (clock ch) (state ch) → (clock ch < 12)%nat →
  let next s := {| clock := S (clock ch); state := s |} in
  let run := chain_submit who (tx "FederatedAuthority" "motion_close" [V_bytes motion_hash]) ch in
  ∃ s1, view m pv a s1 ∧ ready (S (clock ch)) s1 ∧ same_counts (env (clock ch) (state ch)) s1 ∧
  match m with
  | None => ∃ e, run = (Err (Chain_Dispatch e), next s1)
  | Some m =>
      (len (approvals m) < MAX_NUM_BODIES → last < ends_block m → ∃ e, run = (Err (Chain_Dispatch e), next s1)) ∧
      (approved_motion m →
        (∀ info s2, gov_dispatch c (System Root) s1 = (Ok info, s2) →
          ∃ events, run = (Ok events, next (removed motion_hash (add_event (MotionDispatched motion_hash (Ok tt)) s2)))) ∧
        (∀ e s2, gov_dispatch c (System Root) s1 = (Err e, s2) →
          run = (Err (Chain_Dispatch (with_default_info (error e))), next s1)))
  end.
Proof.
  intros Hwho Hview Hr Hn next run.
  destruct (governed_submitted who (tx "FederatedAuthority" "motion_close" [V_bytes motion_hash]) (Gov_motion_close motion_hash) ch)
    as (s1 & Hs & Hr1 & Hview1 & Hcnt); try done.
  apply Hview1 in Hview. exists s1. split_and!; try done.
  assert (gov_dispatch (Gov_motion_close motion_hash) (System (Signed who)) s1 =
    motion_close gov_config (System (Signed who)) motion_hash s1) as Hd.
  { apply (law_motion_close (GovRuntimeLaws := HL)). by apply Hr1. }
  pose proof (view_motion _ _ _ _ Hview) as Hm. destruct m as [m|].
  - split.
    + intros Hsmall Hend. destruct (motion_close_pending gov_config (System (Signed who)) motion_hash s1) as [e He].
      { intros m' Hm'. rewrite Hm in Hm'. injection Hm' as <-. unfold is_motion_approved, has_ended. cbn.
        unfold reached_proportion, wrap. pose proof (ready_block _ _ Hr1). unfold MAX_NUM_BODIES, len in *.
        rewrite !bool_decide_false; [done|lia|]. rewrite !Z.mod_small; lia. }
      exists e. apply (proj2 Hs). by rewrite Hd.
    + intros [Hcall Happ]. assert (is_motion_approved gov_config (len (approvals m)) = true) as Hok.
      { rewrite Happ. reflexivity. }
      split.
      * intros info s2 Hc. rewrite (motion_close_eq gov_config _ _ _ (Ok tt) s2) in Hd; [|intros m' Hm'|done].
        2: { rewrite Hm in Hm'. injection Hm' as <-. apply layer_commit. unfold with_err, mbind, M_bind. cbn. by rewrite Hcall, Hc. }
        change (signer gov_config (System (Signed who))) with (Some who) in Hd. rewrite Hm, Hok in Hd. eexists. exact (proj1 Hs _ _ Hd).
      * intros e s2 Hc. rewrite (motion_close_eq gov_config _ _ _ (Err (error e)) s1) in Hd; [|intros m' Hm'|done].
        2: { rewrite Hm in Hm'. injection Hm' as <-. apply (layer_rollback _ _ _ s2). unfold with_err, mbind, M_bind. cbn. by rewrite Hcall, Hc. }
        change (signer gov_config (System (Signed who))) with (Some who) in Hd. rewrite Hm, Hok in Hd. exact (proj2 Hs _ _ Hd).
  - destruct (motion_close_pending gov_config (System (Signed who)) motion_hash s1) as [e He].
    { intros m' Hm'. by rewrite Hm in Hm'. }
    exists e. apply (proj2 Hs). by rewrite Hd.
Qed.

(** ** Runs of [root-call] *)

Context (Hblocks : last < first + MOTION_DURATION ∧ last + MOTION_DURATION ≤ umax 32).

Lemma council_then_committee n :
  first ≤ n ≤ last → speaks Council = true → awaits TechnicalCommittee (approved_by Council n None) ∧
    ∀ n', ∃ m, approved_by TechnicalCommittee n' (approved_by Council n None) = Some m ∧ approved_motion m.
Proof.
  intros Hn _. split.
  - unfold awaits, approved_by. cbn. split_and!; [set_solver|by vm_compute|]. unfold sat_add. lia.
  - intros n'. eexists. split; [reflexivity|]. split; [done|]. cbn. set_solver.
Qed.
Lemma one_body_is_not_enough n b :
  first ≤ n ≤ last → ∃ m, approved_by b n None = Some m ∧ len (approvals m) < MAX_NUM_BODIES ∧ last < ends_block m.
Proof.
  intros Hn. eexists. split; [reflexivity|]. cbn. split; [by destruct b|]. unfold sat_add. lia.
Qed.

Lemma execute_governance_run bytes k1 ks t1 ts ch ch1 ch2 :
  scale_decode bytes = Some v → scale_encode c = bytes →
  body_approves (Opaque := Opaque) (body_name Council) (k1 :: ks : list (@Keypair _ chain_client)) approve_value proposal_hash ch = (Ok tt, ch1) →
  body_approves (Opaque := Opaque) (body_name TechnicalCommittee) (t1 :: ts : list (@Keypair _ chain_client)) approve_value proposal_hash ch1 = (Ok tt, ch2) →
  execute_governance_call (Opaque := Opaque) bytes (k1 :: ks : list (@Keypair _ chain_client)) (t1 :: ts) ch =
    let '(r, st) := chain_submit k1 (tx "FederatedAuthority" "motion_close" [V_bytes motion_hash]) ch2 in
    (match r with Ok _ => Ok tt | Err e => Err (Root_SubxtError e) | Panic => Panic end, st).
Proof.
  intros Hdec Henc H1 H2.
  assert (encode_call_data (SubxtClient := chain_client) (tx "FederatedAuthority" "motion_approve" [v]) = Ok (scale_encode proposal)) as Hd.
  { cbn [encode_call_data chain_client]. pose proof resolve_approve as Hres. unfold approve_value in Hres. by rewrite Hres. }
  unfold execute_governance_call, lift, mbind, M_bind. cbn [decode_as_type chain_client]. rewrite Hdec.
  cbn [ok_or]. rewrite Hd. cbn [map_err]. fold approve_value. change (blake2_256 (scale_encode proposal)) with proposal_hash.
  cbn [body_name] in H1, H2. rewrite H1, H2. cbn. rewrite <-Henc. fold motion_hash. unfold with_err, mret, M_ret.
  by destruct (chain_submit _ _ ch2) as [[]].
Qed.

(** C3: [root-call] brings a call to a dispatch as root when both bodies have at most
    three members, and fails when one is larger, since it casts two votes at most.
    Conditions: its bytes are exactly the encoding of a call, and the approval of the
    call encodes to at most 10,000 bytes; the first two keys of each body are distinct
    members; no proposal or motion for the call is pending; no call of the run is
    paused, there is room for a proposal and an index for it, the keys have bytes left
    in the throttle; the run ends within the duration of a motion.  Between its
    extrinsics others may do anything that keeps these conditions and leaves the
    members, this proposal, this motion and the authorized upgrade alone.  Then the eight extrinsics of the
    bodies are accepted, and the ninth dispatches the call as root, with the motion
    approved by both; the command succeeds or fails as the call does. *)
Theorem root_call_reaches_root bytes k1 k2 ks t1 t2 ts ch a :
  scale_decode bytes = Some v → scale_encode c = bytes →
  body_keys Council k1 k2 → body_keys TechnicalCommittee t1 t2 →
  clock ch = 0%nat → view None (λ _, None) a (state ch) → ready 0 (state ch) →
  let run := execute_governance_call (Opaque := Opaque) bytes (k1 :: k2 :: ks : list (@Keypair _ chain_client)) (t1 :: t2 :: ts) ch in
  if speaks Council && speaks TechnicalCommittee then
    ∃ s1, (∃ m, Motions s1 !! motion_hash = Some m ∧ approved_motion m) ∧
      (∀ info s2, gov_dispatch c (System Root) s1 = (Ok info, s2) →
        ∃ n, run = (Ok tt, {| clock := n; state := removed motion_hash (add_event (MotionDispatched motion_hash (Ok tt)) s2) |})) ∧
      (∀ e s2, gov_dispatch c (System Root) s1 = (Err e, s2) →
        ∃ n, run = (Err (Root_SubxtError (Chain_Dispatch (with_default_info (error e)))), {| clock := n; state := s1 |}))
  else ∃ e ch', run = (Err (Root_SubxtError e), ch').
Proof.
  intros Hdec Henc Hck Htk Hc0 Hview Hr run. rewrite <-Hc0 in Hr.
  destruct (body_approves_run Council k1 k2 ks ch None (λ _, None) a Hck eq_refl I Hview Hr)
    as (s1 & Hrun1 & Hr1 & n1 & Hn1 & Hv1); [rewrite Hc0; lia|].
  set (ch1 := {| clock := 4 + clock ch; state := s1 |}) in *.
  set (m1 := if speaks Council then approved_by Council n1 None else None) in *.
  assert (awaits TechnicalCommittee m1) as Haw.
  { unfold m1. destruct (speaks Council) eqn:Hsp; [|done]. by apply (council_then_committee n1). }
  destruct (body_approves_run TechnicalCommittee t1 t2 ts ch1 m1 (λ _, None) a Htk eq_refl Haw Hv1 Hr1)
    as (s2 & Hrun2 & Hr2 & n2 & Hn2 & Hv2); [cbn; rewrite Hc0; lia|].
  set (ch2 := {| clock := 4 + clock ch1; state := s2 |}) in *.
  destruct (motion_close_step k1 ch2 _ _ a (proj1 (proj2 (proj2 (proj2 Hck)))) Hv2 Hr2) as (s3 & Hv3 & _ & _ & Hclose);
    [cbn; rewrite Hc0; lia|].
  assert (run = (let '(r, st) := chain_submit k1 (tx "FederatedAuthority" "motion_close" [V_bytes motion_hash]) ch2 in
    (match r with Ok _ => Ok tt | Err e => Err (Root_SubxtError e) | Panic => Panic end, st))) as ->.
  { by apply (execute_governance_run bytes k1 (k2 :: ks) t1 (t2 :: ts) ch ch1 ch2). }
  destruct (speaks Council) eqn:Hsc, (speaks TechnicalCommittee) eqn:Hst; cbn [andb] in *.
  - destruct (proj2 (council_then_committee n1 Hn1 Hsc) n2) as (m & Hm & Hok). unfold m1 in *. rewrite Hm in *.
    exists s3. split; [exists m; split; [apply Hv3|done]|]. destruct (proj2 Hclose Hok) as [Hgood Hbad]. split.
    + intros info s' Hd. destruct (Hgood info s' Hd) as [events Hs]. eexists. by rewrite Hs.
    + intros e s' Hd. eexists. by rewrite (Hbad e s' Hd).
  - destruct (one_body_is_not_enough n1 Council Hn1) as (m & Hm & Hl & He). unfold m1 in *. rewrite Hm in *.
    destruct (proj1 Hclose Hl He) as [e Hs]. eexists _, _. by rewrite Hs.
  - destruct (one_body_is_not_enough n2 TechnicalCommittee Hn2) as (m & Hm & Hl & He). unfold m1 in *. rewrite Hm in *.
    destruct (proj1 Hclose Hl He) as [e Hs]. eexists _, _. by rewrite Hs.
  - destruct Hclose as [e Hs]. eexists _, _. by rewrite Hs.
Qed.

(** ** Runs of the upgrader *)

(** A [u32] of fixed width is read back as a compact integer only when it is zero. *)
Lemma compact_of_fixed i l l' : 0 ≤ i < 2 ^ 32 → to_le_bytes 4 i ++ l = compact_encode i ++ l' → i = 0.
Proof.
  intros Hi. unfold compact_encode. repeat case_bool_decide; cbn [to_le_bytes app]; intros Heq.
  - injection Heq as Ha _. rewrite Z.mod_small in Ha by lia. lia.
  - injection Heq as Ha Hb _. Z.div_mod_to_equations. lia.
  - injection Heq as Ha Hb Hc Hd _. Z.div_mod_to_equations. lia.
  - injection Heq as Ha Hb Hc Hd _. Z.div_mod_to_equations. lia.
Qed.

Definition count (b : Body) (s : Rt) : Z := ProposalCount (collective b s).

Lemma upgrader_index b who i :
  0 ≤ i < umax 32 →
  let r := upgrader_extract_proposal_index (Opaque := Opaque) (SubxtClient0 := chain_client)
    [Ok (raw_event (Ev_Proposed b who i proposal_hash 2)); Ok extrinsic_success] (body_name b) in
  if decide (i = 0) then r = Ok 0 else r = Err Upg_ProposalIndexNotFound ∨ ∃ j, r = Ok j ∧ j ≠ i ∧ 0 ≤ j ≤ umax 32.
Proof.
  intros Hi. cbn -[to_le_bytes]. rewrite bool_decide_true by done.
  rewrite bool_decide_false by (rewrite length_app, (law_account_bytes (GovRuntimeLaws := HL)); lia).
  rewrite drop_app_length' by (by rewrite (law_account_bytes (GovRuntimeLaws := HL))).
  case_decide as Hz.
  - subst i. assert (∀ l, compact_decode (to_le_bytes 4 0 ++ l) = Some 0) as ->; [|done].
    intros l. exact (law_compact_zero (GovRuntimeLaws := HL) ([0; 0; 0] ++ l)).
  - destruct (compact_decode _) as [j|] eqn:Hj.
    + right. exists j. split; [done|]. apply (law_compact_sound (GovRuntimeLaws := HL)) in Hj as [Hj [l' Hl]].
      unfold umax in *. split; [|lia]. intros ->. eapply Hz, compact_of_fixed; [|exact Hl]. lia.
    + left. destruct b; reflexivity.
Qed.

Context (Hcount : ∀ n s, same_counts s (env n s)).
Lemma upgrader_body_run b k1 k2 ch m pv a :
  body_keys b k1 k2 → pv b = None → awaits b m →
  view m pv a (state ch) → ready (clock ch) (state ch) → (clock ch < 9)%nat →
  let run := upgrader_body_approves (Opaque := Opaque) (SubxtClient0 := chain_client) (body_name b) k1 k2 approve_value proposal_hash ch in
  if decide (count b (state ch) = 0) then
    ∃ s', run = (Ok tt, {| clock := 4 + clock ch; state := s' |}) ∧ ready (4 + clock ch) s' ∧
      (∃ n, first ≤ n ≤ last ∧ view (if speaks b then approved_by b n m else m) pv a s') ∧
      ∀ b', b' ≠ b → count b' s' = count b' (state ch)
  else ∃ e ch', run = (Err e, ch').
Proof.
  intros (Hm1 & Hm2 & Hne & Hs1 & Hs2) Hpv Haw Hview Hr Hn run.
  destruct (propose_step b k1 ch m pv a Hm1 Hs1 Hpv Hview Hr) as (i & s1 & Hd & Hi & Hib & Hr1 & Hv1 & Hcnt); [lia|].
  rewrite (Hcount (clock ch) (state ch) b) in Hi. fold (count b (state ch)) in Hi. rewrite <-Hi.
  set (ch1 := {| clock := S (clock ch); state := s1 |}) in *.
  assert (run = match upgrader_extract_proposal_index (SubxtClient0 := chain_client)
      [Ok (raw_event (Ev_Proposed b k1 i proposal_hash 2)); Ok extrinsic_success] (body_name b) with
    | Ok j => votes_and_close Upg_SubxtError b k1 k2 j ch1 | Err e => (Err e, ch1) | Panic => (Panic, ch1) end) as ->.
  { unfold run, upgrader_body_approves. unfold mbind at 1, M_bind at 1, with_err at 1. cbn [submit chain_client].
    rewrite Hd. cbn [map_err]. unfold mbind at 1, M_bind at 1, lift at 1. reflexivity. }
  pose proof (upgrader_index b k1 i Hib) as Hx. cbv zeta in Hx. case_decide as Hz.
  - rewrite Hx. subst i.
    destruct (votes_and_close_run (Upg_SubxtError (SxErr := ChainError)) b k1 k2 0 ch1 m _ a
      Hm1 Hm2 Hne Hs1 Hs2 ltac:(rewrite <-Hz; lia) (upd_eq _ _ _) Haw ltac:(rewrite <-Hz; exact Hv1) Hr1)
      as (s' & Hrun & Hr' & (n & Hb & Hv') & Hc'); [cbn; lia|].
    exists s'. split_and!; [exact Hrun|exact Hr'|exists n; split; [done|]|].
    + apply (view_restored b); [done|]. by apply view_upd in Hv'.
    + intros b' Hb'. unfold count. rewrite (Hc' Hcount b'). cbn. rewrite (Hcnt b' Hb'). apply Hcount.
  - destruct Hx as [Hx|(j & Hx & Hji & Hjb)]; rewrite Hx; [by eexists _, _|].
    pose proof (vote_step b k1 i [] j ch1 m _ a Hm1 Hs1 (not_elem_of_nil _) Hjb (upd_eq _ _ _) Hv1 Hr1) as Hvote.
    cbv zeta in Hvote. rewrite decide_False in Hvote by done. destruct Hvote as (e & ch' & He); [cbn; lia|].
    eexists _, _. unfold votes_and_close, vote_on_proposal, with_err, mbind, M_bind. cbn [submit chain_client].
    by rewrite He.
Qed.

Context `{!Signers Z} (code : list Z).
Context (Hcode : c = Gov_authorize_upgrade (blake2 code)).
Context (Hvalue : v = into_value (tx "System" "authorize_upgrade" [V_bytes (blake2 code)])).
(** Whenever an extrinsic arrives, the version of the code is acceptable and applying
    it is not paused. *)
Context (Happly : ∀ n s, paused (rest (world (env n s))) (Gov_apply_authorized_upgrade code) = false ∧
  can_set_code (rest (world (env n s))) code = true).
Context (Hcode_len : 0 ≤ xt_len (Gov_apply_authorized_upgrade code) ∧
  U + 12 * L + xt_len (Gov_apply_authorized_upgrade code) ≤ ThrottleMaxBytes).

(** The authorized code was applied, by the last extrinsic. *)
Definition code_applied (s : Rt) : Prop :=
  authorized_upgrade (world s) = None ∧ list.last (deposited (world s)) = Some Ev_CodeUpdated.

Lemma apply_step who n s pv :
  who ∈ signers → view None pv (Some (blake2 code)) s → ready n s → (n ≤ 12)%nat →
  ∃ s', chain_submit who (tx "System" "apply_authorized_upgrade" [V_bytes code]) {| clock := n; state := s |} =
      (Ok [Ok (raw_event Ev_CodeUpdated); Ok extrinsic_success], {| clock := S n; state := s' |}) ∧
    code_applied s'.
Proof.
  intros Hwho Hview Hr Hn. set (p := tx _ _ _). set (c' := Gov_apply_authorized_upgrade code : Call).
  destruct (extrinsic_admitted who p c' {| clock := n; state := s |} (U + 12 * L)) as (u & Hs & _); try done.
  - apply Hcode_len.
  - intros w Hw. pose proof (ready_usage _ _ (calm_ready _ _ _ (Hcalm n s) Hr) w Hw). cbn.
    assert (0 ≤ L). { pose proof (Hlen (Gov_motion_close motion_hash) eq_refl). lia. } nia.
  - apply Hcode_len.
  - set (s1 := set_usage u (env n s)) in *. pose proof (calm_view _ _ _ (Hcalm n s) _ _ _ Hview) as Hview'.
    destruct (law_apply_upgrade (GovRuntimeLaws := HL) code who s1) as [info Hd].
    + apply Happly.
    + apply Hview'.
    + apply Happly.
    + exists (deposit Ev_CodeUpdated (set_authorized None s1)). split; [|split; [done|cbn; by rewrite last_snoc]]. rewrite (proj1 Hs _ _ Hd). do 2 f_equal. cbn. by rewrite drop_app_length.
Qed.

(** The two keys of each body, from the well-known development accounts. *)
Definition upgrader_keys (alice bob dave eve : Z) : Prop :=
  keypair_of_uri (SubxtClient0 := chain_client) (bytes_of_string "//Alice") = Ok alice ∧
  keypair_of_uri (SubxtClient0 := chain_client) (bytes_of_string "//Bob") = Ok bob ∧
  keypair_of_uri (SubxtClient0 := chain_client) (bytes_of_string "//Dave") = Ok dave ∧
  keypair_of_uri (SubxtClient0 := chain_client) (bytes_of_string "//Eve") = Ok eve ∧
  (∃ charlie, keypair_of_uri (SubxtClient0 := chain_client) (bytes_of_string "//Charlie") = Ok charlie) ∧
  (∃ ferdie, keypair_of_uri (SubxtClient0 := chain_client) (bytes_of_string "//Ferdie") = Ok ferdie).

Definition ubody (pallet : string) (k1 k2 : Z) : M Chain (UpgraderError ChainError) unit :=
  upgrader_body_approves (Opaque := Opaque) (SubxtClient0 := chain_client) pallet k1 k2 approve_value proposal_hash.
Definition usubmit (who : Z) (p : Payload Opaque) : M Chain (UpgraderError ChainError) _ :=
  with_err Upg_SubxtError (chain_submit who p).
Lemma execute_upgrade_eq alice bob dave eve who ch :
  upgrader_keys alice bob dave eve →
  execute_upgrade (Opaque := Opaque) (SubxtClient0 := chain_client) (Ok tt) who code ch =
    (ubody "Council" dave eve ;; ubody "TechnicalCommittee" alice bob ;;
     usubmit who (tx "FederatedAuthority" "motion_close" [V_bytes motion_hash]) ;;
     events ← usubmit who (tx "System" "apply_authorized_upgrade" [V_bytes code]);
     success ← lift (code_updated (Opaque := Opaque) (SubxtClient0 := chain_client) events);
     ensure success CodeUpgradeFailed) ch.
Proof.
  intros (Ha & Hb & Hd & He & [charlie Hc] & [ferdie Hf]). unfold execute_upgrade.
  unfold lift at 1, mbind at 1, M_bind at 1. cbn [map_err].
  do 6 (unfold lift at 1, mbind at 1, M_bind at 1; rewrite ?Ha, ?Hb, ?Hc, ?Hd, ?He, ?Hf).
  pose proof resolve_approve as Hres. unfold approve_value in Hres. rewrite Hvalue in Hres.
  cbn [encode_call_data chain_client blake2_256]. rewrite Hres.
  unfold lift at 1, mbind at 1, M_bind at 1. cbn [map_err].
  unfold ubody, approve_value. rewrite Hvalue. fold proposal_hash.
  apply M_bind_ext. intros [] ch1. apply M_bind_ext. intros [] ch2.
  unfold lift at 1, mbind at 1, M_bind at 1. cbn. unfold motion_hash. by rewrite Hcode.
Qed.

Lemma upgrade_after_bodies who ch m a :
  who ∈ signers → view m (λ _, None) a (state ch) → ready (clock ch) (state ch) → (clock ch < 12)%nat →
  let run := (usubmit who (tx "FederatedAuthority" "motion_close" [V_bytes motion_hash]) ;;
     events ← usubmit who (tx "System" "apply_authorized_upgrade" [V_bytes code]);
     success ← lift (code_updated (Opaque := Opaque) (SubxtClient0 := chain_client) events);
     ensure success CodeUpgradeFailed) ch in
  match m with
  | None => ∃ e ch', run = (Err e, ch')
  | Some m =>
      (len (approvals m) < MAX_NUM_BODIES → last < ends_block m → ∃ e ch', run = (Err e, ch')) ∧
      (approved_motion m → ∃ ch', run = (Ok tt, ch') ∧ code_applied (state ch'))
  end.
Proof.
  intros Hwho Hview Hr Hn run. destruct (motion_close_step who ch m _ a Hwho Hview Hr Hn) as (s1 & Hv1 & Hr1 & _ & Hclose).
  assert (∀ e ch', chain_submit who (tx "FederatedAuthority" "motion_close" [V_bytes motion_hash]) ch = (Err e, ch') →
    ∃ e ch', run = (Err e, ch')) as Herr.
  { intros e ch' He. unfold run, usubmit, with_err, mbind at 1, M_bind at 1. rewrite He. by eexists _, _. }
  destruct m as [m|]; [|destruct Hclose as [e He]; by eapply Herr]. destruct Hclose as [Hpend Hok]. split.
  - intros Hl He. destruct (Hpend Hl He) as [e Hrun]. by eapply Herr.
  - intros Happ. destruct (law_authorize_upgrade (GovRuntimeLaws := HL) (blake2 code) s1) as [info Hd]. rewrite <-Hcode in Hd.
    destruct (proj1 (Hok Happ) _ _ Hd) as [events Hrun].
    set (s2 := removed _ _) in Hrun.
    assert (view None (λ _, None) (Some (blake2 code)) s2) as Hv2.
    { destruct Hv1. split; try done. cbn. by rewrite lookup_delete_eq. }
    assert (ready (S (clock ch)) s2) as Hr2 by (by destruct Hr1).
    destruct (apply_step who (S (clock ch)) s2 _ Hwho Hv2 Hr2) as (s' & Hrun' & Ha'); [lia|].
    eexists. unfold run, usubmit, with_err, mbind, M_bind. rewrite Hrun. cbn [map_err]. rewrite Hrun'. by split.
Qed.

(** A run of the upgrader, by the indices of its proposals and the sizes of the bodies. *)
Lemma upgrade_run alice bob dave eve who ch a :
  upgrader_keys alice bob dave eve → body_keys Council dave eve → body_keys TechnicalCommittee alice bob →
  who ∈ signers → clock ch = 0%nat → view None (λ _, None) a (state ch) → ready 0 (state ch) →
  let run := execute_upgrade (Opaque := Opaque) (SubxtClient0 := chain_client) (Ok tt) who code ch in
  if decide (count Council (state ch) = 0 ∧ count TechnicalCommittee (state ch) = 0 ∧
             speaks Council = true ∧ speaks TechnicalCommittee = true)
  then ∃ ch', run = (Ok tt, ch') ∧ code_applied (state ch')
  else ∃ e ch', run = (Err e, ch').
Proof.
  intros Hkeys Hck Htk Hwho Hc0 Hview Hr run. unfold run. rewrite (execute_upgrade_eq _ _ _ _ _ _ Hkeys). clear run.
  rewrite <-Hc0 in Hr.
  pose proof (upgrader_body_run Council dave eve ch None (λ _, None) a Hck eq_refl I Hview Hr ltac:(lia)) as H1. cbv zeta in H1.
  destruct (decide (count Council (state ch) = 0)) as [Hz1|Hz1].
  2: { destruct H1 as (e & ch' & H1). rewrite (M_bind_run (ubody _ _ _) _ _ _ _ H1), decide_False by tauto. by eexists _, _. }
  destruct H1 as (s1 & H1 & Hr1 & (n1 & Hn1 & Hv1) & Hc1). rewrite (M_bind_run (ubody _ _ _) _ _ _ _ H1). clear H1.
  set (ch1 := {| clock := 4 + clock ch; state := s1 |}) in *.
  set (m1 := if speaks Council then approved_by Council n1 None else None) in *.
  assert (awaits TechnicalCommittee m1) as Haw.
  { unfold m1. destruct (speaks Council) eqn:Hsp; [|done]. by apply (council_then_committee n1). }
  pose proof (upgrader_body_run TechnicalCommittee alice bob ch1 m1 (λ _, None) a Htk eq_refl Haw Hv1 Hr1 ltac:(cbn; lia)) as H2.
  cbv zeta in H2. rewrite (Hc1 TechnicalCommittee ltac:(done) : count _ (state ch1) = _) in H2.
  destruct (decide (count TechnicalCommittee (state ch) = 0)) as [Hz2|Hz2].
  2: { destruct H2 as (e & ch' & H2). rewrite (M_bind_run (ubody _ _ _) _ _ _ _ H2), decide_False by tauto. by eexists _, _. }
  destruct H2 as (s2 & H2 & Hr2 & (n2 & Hn2 & Hv2) & _). rewrite (M_bind_run (ubody _ _ _) _ _ _ _ H2). clear H2.
  pose proof (upgrade_after_bodies who {| clock := 4 + clock ch1; state := s2 |} _ a Hwho Hv2 Hr2 ltac:(cbn; lia)) as Hend.
  cbv zeta in Hend. destruct (speaks Council) eqn:Hsc, (speaks TechnicalCommittee) eqn:Hst; unfold m1 in Hend.
  - rewrite decide_True by done. destruct (proj2 (council_then_committee n1 Hn1 Hsc) n2) as (m & Hm & Hok). rewrite Hm in Hend. by apply Hend.
  - rewrite decide_False by naive_solver. destruct (one_body_is_not_enough n1 Council Hn1) as (m & Hm & Hl & He). rewrite Hm in Hend. by apply Hend.
  - rewrite decide_False by naive_solver. destruct (one_body_is_not_enough n2 TechnicalCommittee Hn2) as (m & Hm & Hl & He). rewrite Hm in Hend. by apply Hend.
  - rewrite decide_False by naive_solver. exact Hend.
Qed.

(** C13: The upgrader carries an upgrade through, from the first proposal to the event
    that the code is updated, on a chain in which neither body ever had a proposal.
    Conditions: the development accounts Dave and Eve, and Alice and Bob, are distinct
    members of the council and of the technical committee, which have at most three
    members; no motion for the authorization is pending; no call of the run is paused
    and the keys, the signer's included, have bytes left in the throttle for the
    extrinsics and for the code; whenever an extrinsic arrives the runtime accepts the
    version of the code; the run ends within the duration of a motion.  Between its
    extrinsics others may do anything that keeps these conditions and leaves alone the
    members, the numbers of proposals, this proposal, this motion and the authorized
    upgrade. *)
Theorem upgrade_carried_through alice bob dave eve who ch a :
  upgrader_keys alice bob dave eve → body_keys Council dave eve → body_keys TechnicalCommittee alice bob →
  who ∈ signers → clock ch = 0%nat → view None (λ _, None) a (state ch) → ready 0 (state ch) →
  (∀ b, count b (state ch) = 0) → (∀ b, speaks b = true) →
  ∃ ch', execute_upgrade (Opaque := Opaque) (SubxtClient0 := chain_client) (Ok tt) who code ch = (Ok tt, ch')
    ∧ code_applied (state ch').
Proof.
  intros Hkeys Hck Htk Hwho Hc0 Hview Hr Hcnt Hsp.
  pose proof (upgrade_run alice bob dave eve who ch a Hkeys Hck Htk Hwho Hc0 Hview Hr) as Hrun.
  cbv zeta in Hrun. by rewrite decide_True in Hrun.
Qed.

(** Once a body has had a proposal the upgrader fails: it reads the index of its
    proposal as a compact integer, which the index of fixed width in the event is only
    when it is zero. *)
Theorem upgrade_fails_after_a_proposal alice bob dave eve who ch a b :
  upgrader_keys alice bob dave eve → body_keys Council dave eve → body_keys TechnicalCommittee alice bob →
  who ∈ signers → clock ch = 0%nat → view None (λ _, None) a (state ch) → ready 0 (state ch) →
  count b (state ch) ≠ 0 →
  ∃ e ch', execute_upgrade (Opaque := Opaque) (SubxtClient0 := chain_client) (Ok tt) who code ch = (Err e, ch').
Proof.
  intros Hkeys Hck Htk Hwho Hc0 Hview Hr Hcnt.
  pose proof (upgrade_run alice bob dave eve who ch a Hkeys Hck Htk Hwho Hc0 Hview Hr) as Hrun.
  cbv zeta in Hrun. rewrite decide_False in Hrun; [done|]. destruct b; tauto.
Qed.
End Runs.
End Chain.

(** ** A small chain *)

Module GovConcrete.
Definition c_weight (c : GovCall Z) : Weight :=
  match c with Gov_motion_approve _ => fa_motion_approve (FA_UnitWeight ParityDbWeight) MAX_NUM_BODIES | _ => weight_zero end.
Fixpoint c_encode (c : GovCall Z) : list Z :=
  match c with
  | Gov_motion_approve c => 44 :: 0 :: c_encode c
  | Gov_authorize_upgrade h => 0 :: 9 :: h
  | Gov_opaque n => [3; n]
  | _ => [1]
  end.
Definition c_blake2 (l : list Z) : list Z := take 32 (l ++ repeat 0 32).
Definition c_compact (l : list Z) : option Z :=
  match l with b :: _ => if bool_decide (0 ≤ b < 256 ∧ b mod 4 = 0) then Some (b / 4) else None | [] => None end.
Definition c_decode (l : list Z) : option (Value Z) :=
  match l with [3; n] => Some (V_opaque n) | _ => None end.

Local Notation St := (@State (GovCall Z) (list Z) (GovWorld Z (list Z)) unit _ _).
Local Notation Res := (outcome (ErrorWithPostInfo Error unit) PostDispatchInfo * St)%type.
Definition refused (s : St) : Res := (Err (with_default_info BadOrigin), s).
Definition done_ (s : St) : Res := (Ok default_post_info, s).
Definition c_config (d : GovCall Z → RuntimeOrigin → M St (ErrorWithPostInfo Error unit) PostDispatchInfo) :=
  runtime_config ParityDbWeight (λ c, c_blake2 (c_encode c)) c_weight d.

(** The runtime without the calls that dispatch another one; [mw] and the like are
    written out, as the class is not there yet. *)
Definition mw (f : GovWorld Z (list Z) → GovWorld Z (list Z)) (s : St) : St :=
  {| Motions := Motions s; events := events s; block_number := block_number s; world := f (world s) |}.
Definition w_authorize (h : option (list Z)) : St → St := mw (λ w,
  {| collectives := collectives w; deposited := deposited w; authorized_upgrade := h;
     account_usage := account_usage w; rest := rest w |}).
Definition w_deposit (e : GovEvent) : St → St := mw (λ w,
  {| collectives := collectives w; deposited := deposited w ++ [e]; authorized_upgrade := authorized_upgrade w;
     account_usage := account_usage w; rest := rest w |}).
Definition w_votes (b : Body) (h : list Z) (p : option (GovCall Z)) (v : option Votes) (n : Z) (s : St) : St :=
  let k := collectives (world s) b in
  mw (λ w,
    {| collectives := λ b', if decide (b' = b)
         then {| coll_members := coll_members k; ProposalOf := partial_alter (λ _, p) h (ProposalOf k);
                 Voting := partial_alter (λ _, v) h (Voting k); ProposalCount := n |}
         else collectives w b';
       deposited := deposited w; authorized_upgrade := authorized_upgrade w;
       account_usage := account_usage w; rest := rest w |}) s.
Definition inner (c : GovCall Z) (o : RuntimeOrigin) : M St (ErrorWithPostInfo Error unit) PostDispatchInfo := λ s,
  match c with
  | Gov_motion_approve c => motion_approve (c_config (λ _ _, refused)) o c s
  | Gov_authorize_upgrade h => match o with System Root => done_ (w_authorize (Some h) s) | _ => refused s end
  | Gov_opaque n =>
      match o with
      | System Root => done_ (mw (λ w, {| collectives := collectives w; deposited := deposited w;
          authorized_upgrade := authorized_upgrade w; account_usage := account_usage w; rest := rest w ++ [n] |}) s)
      | _ => refused s
      end
  | _ => refused s
  end.
Definition signed (who : Z) (c : GovCall Z) : M St (ErrorWithPostInfo Error unit) PostDispatchInfo := λ s,
  match c with
  | Gov_propose b t p l =>
      let k := collectives (world s) b in
      let h := c_blake2 (c_encode p) in
      if bool_decide (who ∉ coll_members k) then refused s else
      done_ (w_deposit (Ev_Proposed b who (ProposalCount k) h t)
        (w_votes b h (Some p) (Some {| vote_index := ProposalCount k; vote_threshold := t; ayes := []; nays := [] |})
           (ProposalCount k + 1) s))
  | Gov_vote b h i true =>
      let k := collectives (world s) b in
      match Voting k !! h with
      | Some v => if decide (vote_index v = i ∧ who ∈ coll_members k)
          then done_ (w_deposit (Ev_Collective b "Voted") (w_votes b h (ProposalOf k !! h)
            (Some {| vote_index := i; vote_threshold := vote_threshold v; ayes := ayes v ++ [who]; nays := nays v |}) (ProposalCount k) s))
          else refused s
      | None => refused s
      end
  | Gov_close b h i w l =>
      let k := collectives (world s) b in
      match Voting k !! h, ProposalOf k !! h with
      | Some v, Some p =>
          let '(r, s1) := inner p (Members (body_index b) (Z.of_nat (length (ayes v))) (Z.of_nat (length (coll_members k))))
            (w_deposit (Ev_Collective b "Approved") (w_deposit (Ev_Collective b "Closed") s)) in
          done_ (w_votes b h None None (ProposalCount (collectives (world s1) b)) (w_deposit (Ev_Collective b "Executed") s1))
      | _, _ => refused s
      end
  | Gov_motion_close h => motion_close (c_config inner) (System (Signed who)) h s
  | Gov_apply_authorized_upgrade code => done_ (w_deposit Ev_CodeUpdated (w_authorize None s))
  | _ => inner c (System (Signed who)) s
  end.
#[export] Instance c_runtime : GovRuntime Z := {|
  GovRest := list Z; GovForeign := unit; scale_encode := c_encode; scale_decode := c_decode; compact_decode := c_compact;
  blake2 := c_blake2; account_bytes := λ a, repeat a 32; call_weight_of := c_weight; xt_len := λ _, 200;
  paused := λ _ _, false; can_set_code := λ _ _, true;
  gov_dispatch c o := match o with
    | System (Signed who) => signed who c
    | _ => inner c o
    end;
|}.

#[export] Instance c_laws : GovRuntimeLaws (Opaque := Z).
Proof.
  split.
  - intros b who t c l s h k _ Hwho _ _ _ _ _ _. subst k. unfold collective in *. eexists. cbn.
    by rewrite bool_decide_false by (by intros ?).
  - intros b who h i v s k _ Hwho Hv _ _. subst k. unfold collective in *. cbn in *. rewrite Hv. destruct (decide (vote_index v = i)) as [He|He].
    + rewrite decide_True by done. by eexists.
    + rewrite decide_False by naive_solver. by eexists.
  - intros b who h w l v c s r s1 k s0 _ Hv _ Hp _ _ Hd _. subst k s0. unfold collective in *. cbn in *. rewrite Hv, Hp.
    unfold w_deposit, mw. cbn. unfold deposit, map_world in Hd. cbn in Hd. rewrite Hd. by eexists.
  - intros c [[| |]|] s _; reflexivity.
  - intros h [[| |]|] s _; reflexivity.
  - reflexivity.
  - intros h s. by eexists.
  - intros code who s _ _ _. by eexists.
  - reflexivity.
  - reflexivity.
  - intros who. apply repeat_length.
  - reflexivity.
  - intros [|b l] n; cbn; [done|]. case_bool_decide as Hb; [|done]. intros [= <-]. destruct Hb as [Hb Hm].
    assert (b = 4 * (b / 4)) as Hq by (Z.div_mod_to_equations; lia).
    split; [Z.div_mod_to_equations; lia|]. exists l. unfold compact_encode. rewrite bool_decide_true by (Z.div_mod_to_equations; lia).
    cbn. by rewrite <-Hq.
  - intros l. cbn. unfold c_blake2. rewrite length_take, length_app, repeat_length. lia.
Qed.

(** The technical committee is 1, 2 and 3, the council 4, 5, 6 and, if [large], 7; an
    earlier proposal of the council was given an index or not. *)
Definition members (large : bool) (b : Body) : list Z :=
  match b with TechnicalCommittee => [1; 2; 3] | Council => [4; 5; 6] ++ (if large then [7] else []) end.
Definition chain0 (large : bool) (council_count : Z) : Chain (Opaque := Z) := {|
  clock := 0;
  state := {| Motions := ∅; events := []; block_number := 10; world := {|
    collectives := λ b, {| coll_members := members large b; ProposalOf := ∅; Voting := ∅;
                           ProposalCount := match b with Council => council_count | _ => 0 end |};
    deposited := []; authorized_upgrade := None; account_usage := ∅; rest := [] : GovRest |} |} |}.
Definition quiet (_ : nat) (s : Rt (Opaque := Z)) : Rt (Opaque := Z) := s.
Definition keys : list Z := [1; 2; 4; 5].
Lemma quiet_calm c large n s : calm c (members large) keys 10 10 200 0 n s (quiet n s).
Proof. by split. Qed.
Lemma chain0_view c large n : view c (members large) None (λ _, None) None (state (chain0 large n)).
Proof. by split. Qed.
Lemma chain0_ready c large n : 0 ≤ n ≤ 1 → ready c keys 10 10 200 0 0 (state (chain0 large n)).
Proof.
  intros Hn. split; try done.
  intros b. unfold collective, umax. destruct b; cbn [state world collectives chain0 ProposalCount]; lia.
Qed.
Lemma council_members large : body_keys (members large) keys Council 4 5.
Proof. unfold body_keys, keys. cbn. set_solver. Qed.
Lemma committee_members large : body_keys (members large) keys TechnicalCommittee 1 2.
Proof. unfold body_keys, keys. cbn. set_solver. Qed.
Lemma short_extrinsics (c c' : GovCall Z) : governs c c' → 0 ≤ xt_len c' ≤ 200.
Proof. intros _. cbn. lia. Qed.
Lemma bytes_left : 0 ≤ 0 ∧ 0 + 12 * 200 ≤ ThrottleMaxBytes.
Proof. split; vm_compute; discriminate. Qed.
Lemma code_left : 0 ≤ 200 ∧ 0 + 12 * 200 + 200 ≤ ThrottleMaxBytes.
Proof. split; vm_compute; discriminate. Qed.
Lemma blocks_left : 10 < 10 + MOTION_DURATION ∧ 10 + MOTION_DURATION ≤ umax 32.
Proof. split; vm_compute; [done|discriminate]. Qed.
#[export] Instance c_signers : Signers Z := {|
  SecretUri := list Z; Mnemonic := unit; secret_uri_from_str := Some; mnemonic_parse := λ _, None;
  keypair_from_uri uri := head (filter (λ k, bytes_of_string (nth (Z.to_nat k) ["//Ferdie"; "//Alice"; "//Bob"; "//Charlie"; "//Dave"; "//Eve"] EmptyString)%string = uri)
    [0; 1; 2; 3; 4; 5]);
  keypair_from_phrase := λ _, None; keypair_from_secret_key := λ _, None |}.
Definition code : list Z := [0; 97; 115; 109].
Definition authorize : GovCall Z := Gov_authorize_upgrade (c_blake2 code).
End GovConcrete.
Import GovConcrete.

Lemma dev_keys : upgrader_keys quiet 1 2 4 5.
Proof. unfold upgrader_keys. split_and!; [reflexivity..|by eexists|by eexists]. Qed.

(** The call is dispatched with three members in the council, and is not with four,
    although all four give their keys. *)
Lemma root_call_reaches_root_witness :
  (∃ ch', execute_governance_call (SubxtClient0 := chain_client quiet) [3; 7] [4; 5; 6] [1; 2] (chain0 false 1) = (Ok tt, ch') ∧
    MotionDispatched (motion_hash (Gov_opaque 7)) (Ok tt) ∈ events (state ch')) ∧
  ∃ e ch', execute_governance_call (SubxtClient0 := chain_client quiet) [3; 7] [4; 5; 6; 7] [1; 2] (chain0 true 1) = (Err (Root_SubxtError e), ch').
Proof.
  assert (Z.of_nat (length (scale_encode (proposal (Gov_opaque 7)))) ≤ 10000) as Hshort by (vm_compute; discriminate).
  pose proof (λ large, root_call_reaches_root quiet c_laws (Gov_opaque 7) (members large) keys 10 10 200 0
      (quiet_calm _ _) (short_extrinsics _) bytes_left (V_opaque 7) eq_refl Hshort blocks_left
      [3; 7] 4 5) as H.
  split.
  - specialize (H false [6] 1 2 [] (chain0 false 1) None eq_refl eq_refl (council_members _) (committee_members _) eq_refl
      (chain0_view _ _ _) (chain0_ready _ false 1 ltac:(lia))). cbv zeta in H.
    change (speaks (members false) Council && speaks (members false) TechnicalCommittee) with true in H. cbv iota in H.
    destruct H as (s1 & _ & Hgood & _).
    destruct (Hgood default_post_info _ eq_refl) as [n Hrun]. eexists. split; [exact Hrun|].
    cbn [events removed add_event set_Motions state]. rewrite !elem_of_app, !list_elem_of_singleton. by left; right.
  - specialize (H true [6; 7] 1 2 [] (chain0 true 1) None eq_refl eq_refl (council_members _) (committee_members _) eq_refl
      (chain0_view _ _ _) (chain0_ready _ true 1 ltac:(lia))). cbv zeta in H.
    change (speaks (members true) Council && speaks (members true) TechnicalCommittee) with false in H. exact H.
Defined.

(** The upgrade succeeds on a chain without earlier proposals, and fails when the
    council has made one. *)
Lemma upgrade_carried_through_witness :
  ∃ ch', execute_upgrade (SubxtClient0 := chain_client quiet) (Ok tt) 1 code (chain0 false 0) = (Ok tt, ch') ∧
    code_applied (state ch').
Proof.
  assert (Z.of_nat (length (scale_encode (proposal authorize))) ≤ 10000) as Hshort by (vm_compute; discriminate).
  apply (upgrade_carried_through quiet c_laws authorize (members false) keys 10 10 200 0
      (quiet_calm _ _) (short_extrinsics _) bytes_left (into_value (tx "System" "authorize_upgrade" [V_bytes (c_blake2 code)]))
      eq_refl Hshort blocks_left (λ _ _ _, eq_refl) code eq_refl eq_refl (λ _ _, conj eq_refl eq_refl) code_left
      1 2 4 5 1 (chain0 false 0) None);
    [exact dev_keys|apply council_members|apply committee_members|set_solver|reflexivity|apply chain0_view
    |apply chain0_ready; lia|intros []; reflexivity|intros []; reflexivity].
Defined.

Lemma upgrade_fails_after_a_proposal_witness :
  ∃ e ch', execute_upgrade (SubxtClient0 := chain_client quiet) (Ok tt) 1 code (chain0 false 1) = (Err e, ch').
Proof.
  assert (Z.of_nat (length (scale_encode (proposal authorize))) ≤ 10000) as Hshort by (vm_compute; discriminate).
  apply (upgrade_fails_after_a_proposal quiet c_laws authorize (members false) keys 10 10 200 0
      (quiet_calm _ _) (short_extrinsics _) bytes_left (into_value (tx "System" "authorize_upgrade" [V_bytes (c_blake2 code)]))
      eq_refl Hshort blocks_left (λ _ _ _, eq_refl) code eq_refl eq_refl (λ _ _, conj eq_refl eq_refl) code_left
      1 2 4 5 1 (chain0 false 1) None Council);
    [exact dev_keys|apply council_members|apply committee_members|set_solver|reflexivity|apply chain0_view
    |apply chain0_ready; lia|done].
Defined.
