(* ===== verification/Wallets.v ===== *)
(** * The wallets of the toolkit

    Models the wallets of [ledger/helpers/src/versions/common]: the seeds of
    [types.rs], derivation paths and addresses ([wallet/hd.rs]), the shielded, the
    unshielded and the dust wallet ([wallet/shielded.rs], [wallet/unshielded.rs],
    [wallet/dust.rs]) and the three together ([wallet/mod.rs]).

    Strings are their bytes.  bip39, bip32 and bech32 are the classes [Bip] and
    [Bech32]; the keys and the local states of the ledger library are the class
    [WalletLib]. *)

From stdpp Require Import prelude gmap strings.
From S2P Require Import Prelude Collections LedgerInterface UtxoOrdering LedgerTransaction LedgerBridge GenesisSnapshots.

Open Scope Z_scope.

(** Code that returns or panics. *)
Notation R := (outcome Empty_set).

(** ** Strings *)

(** [str::split] on one character. *)
Fixpoint split (sep : Z) (s : list Z) : list (list Z) :=
  match s with
  | [] => [[]]
  | c :: s =>
      if bool_decide (c = sep) then [] :: split sep s
      else match split sep s with p :: ps => (c :: p) :: ps | [] => [[c]] end
  end.

(** [str::split] on two dots. *)
Fixpoint split_dots (s : list Z) : list (list Z) :=
  let keep c ps := match ps with p :: ps => (c :: p) :: ps | [] => [[c]] end in
  match s with
  | [] => [[]]
  | c :: s' =>
      match s' with
      | d :: s'' => if bool_decide (c = 46 ∧ d = 46) then [] :: split_dots s'' else keep c (split_dots s')
      | [] => [[c]]
      end
  end.

(** [str::parse::<u32>]: an optional plus sign and digits, at least one. *)
Definition digit (c : Z) : option Z := if bool_decide (48 ≤ c ≤ 57) then Some (c - 48) else None.
Fixpoint parse_digits (acc : Z) (s : list Z) : option Z :=
  match s with
  | [] => Some acc
  | c :: s =>
      d ← digit c;
      let acc := 10 * acc + d in
      if bool_decide (acc ≤ umax 32) then parse_digits acc s else None
  end.
Definition parse_u32 (s : list Z) : option Z :=
  match s with
  | [] => None
  | [43] => None
  | 43 :: s => parse_digits 0 s
  | s => parse_digits 0 s
  end.

(** ** Seeds: [types.rs] *)

Inductive WalletSeed : Type :=
| Short (bytes : list Z)
| Medium (bytes : list Z)
| Long (bytes : list Z).
#[export] Instance WalletSeed_eq_dec : EqDecision WalletSeed.
Proof. solve_decision. Defined.
#[export] Instance WalletSeed_countable : Countable WalletSeed.
Proof.
  apply (inj_countable'
    (λ s, match s with Short b => (0, b) | Medium b => (1, b) | Long b => (2, b) end)
    (λ p, if bool_decide (p.1 = 0) then Short p.2 else if bool_decide (p.1 = 1) then Medium p.2 else Long p.2)).
  by intros [].
Defined.

Inductive WalletSeedError : Type :=
| InvalidHex
| InvalidLength (len : nat)
| InvalidMnemonic
| LazyHexTwoPartsOnly
| LazyHexLengthTooLong (len : nat).

Inductive WalletSeedParseError : Type :=
| FailedToParseAny (hex lazy_hex mnemonic : WalletSeedError).

Definition as_bytes (seed : WalletSeed) : list Z :=
  match seed with Short bytes | Medium bytes | Long bytes => bytes end.

(** The arrays of the constructors have 16, 32 and 64 bytes. *)
Definition seed_ok (seed : WalletSeed) : Prop :=
  Forall byte (as_bytes seed) ∧
  length (as_bytes seed) = match seed with Short _ => 16 | Medium _ => 32 | Long _ => 64 end%nat.

(** [TryFrom<&[u8]>]. *)
Definition seed_try_from (value : list Z) : outcome WalletSeedError WalletSeed :=
  match length value with
  | 16%nat => Ok (Short value)
  | 32%nat => Ok (Medium value)
  | 64%nat => Ok (Long value)
  | len => Err (InvalidLength len)
  end.

Definition try_into_seed_array (n : nat) (bytes : list Z) : outcome WalletSeedError (list Z) :=
  if bool_decide (length bytes = n) then Ok bytes else Err (InvalidLength (length bytes)).

Definition try_from_hex_str (value : list Z) : outcome WalletSeedError WalletSeed :=
  bytes ← ok_or (hex_decode value) InvalidHex;
  seed_try_from bytes.

Definition try_from_lazy_hex (value : list Z) : outcome WalletSeedError WalletSeed :=
  match split_dots value with
  | [head; tail] =>
      seed ← ok_or (hex_decode head) InvalidHex;
      seed_tail ← ok_or (hex_decode tail) InvalidHex;
      let total_len := (length seed + length seed_tail)%nat in
      let extend_to l := seed ++ replicate (l - total_len) 0 ++ seed_tail in
      if bool_decide (total_len ≤ 32)%nat then
        bytes ← try_into_seed_array 32 (extend_to 32%nat); Ok (Medium bytes)
      else if bool_decide (total_len ≤ 64)%nat then
        bytes ← try_into_seed_array 64 (extend_to 64%nat); Ok (Long bytes)
      else Err (LazyHexLengthTooLong total_len)
  | _ => Err LazyHexTwoPartsOnly
  end.

(** bip39 ([Mnemonic::parse] and [to_seed] with an empty password) and bip32. *)
Class Bip : Type := {
  Mnemonic : Type;
  mnemonic_parse : list Z → option Mnemonic;
  mnemonic_to_seed : Mnemonic → list Z;
  Bip32Path : Type;
  bip32_path_from_str : list Z → option Bip32Path;
  derive_from_path : list Z → Bip32Path → option (list Z);
}.

Definition try_from_mnemonic `{!Bip} (value : list Z) : outcome WalletSeedError WalletSeed :=
  mnemonic ← ok_or (mnemonic_parse value) InvalidMnemonic;
  Ok (Long (mnemonic_to_seed mnemonic)).

Definition seed_from_str `{!Bip} (s : list Z) : outcome WalletSeedParseError WalletSeed :=
  let s := trim s in
  match try_from_hex_str s with
  | Ok seed => Ok seed
  | Panic => Panic
  | Err hex_err =>
      match try_from_lazy_hex s with
      | Ok seed => Ok seed
      | Panic => Panic
      | Err lazy_err =>
          match try_from_mnemonic s with
          | Ok seed => Ok seed
          | Panic => Panic
          | Err mnemonic_err => Err (FailedToParseAny hex_err lazy_err mnemonic_err)
          end
      end
  end.

(** ** Derivation paths: [wallet/hd.rs] *)

Inductive Role : Type := UnshieldedExternal | UnshieldedInternal | Dust | Zswap | Metadata.

Record DerivationPath : Type := { path : list Z; role : Role }.

(** [DerivationPath::new]. *)
Definition path_new (path : list Z) : R DerivationPath :=
  let parts := split 47 path in
  if bool_decide (length parts ≠ 6%nat ∨ parts !! 0%nat ≠ Some (bytes_of_string "m")) then Panic else
  role_part ← unwrap (parts !! 4%nat);
  role_index ← unwrap (parse_u32 role_part);
  match role_index with
  | 0 => Ok {| path := path; role := UnshieldedExternal |}
  | 1 => Ok {| path := path; role := UnshieldedInternal |}
  | 2 => Ok {| path := path; role := Dust |}
  | 3 => Ok {| path := path; role := Zswap |}
  | 4 => Ok {| path := path; role := Metadata |}
  | _ => Panic
  end.

Definition default_for_role (role : Role) : DerivationPath := {|
  path := bytes_of_string match role with
    | UnshieldedExternal => "m/44'/2400'/0'/0/0"
    | UnshieldedInternal => "m/44'/2400'/0'/1/0"
    | Dust => "m/44'/2400'/0'/2/0"
    | Zswap => "m/44'/2400'/0'/3/0"
    | Metadata => "m/44'/2400'/0'/4/0"
    end;
  role := role |}.

(** [DeriveSeed]. *)
Definition derive_seed `{!Bip} (root_seed : WalletSeed) (derivation_path : DerivationPath) : R (list Z) :=
  derivation_path ← unwrap (bip32_path_from_str (path derivation_path));
  unwrap (derive_from_path (as_bytes root_seed) derivation_path).

(** ** Addresses *)

Definition HRP_CONSTANT : list Z := bytes_of_string "mn".
Definition HRP_CREDENTIAL_UNSHIELDED : list Z := bytes_of_string "addr".
Definition HRP_CREDENTIAL_SHIELDED : list Z := bytes_of_string "shield-addr".
Definition HRP_CREDENTIAL_SHIELDED_ESK : list Z := bytes_of_string "shield-esk".
Definition HRP_CREDENTIAL_DUST : list Z := bytes_of_string "dust-addr".

(** The crate bech32: a human readable part is a string that [hrp_parse] accepts. *)
Class Bech32 : Type := {
  hrp_parse : list Z → bool;
  bech32m_encode : list Z → list Z → option (list Z);
  bech32_decode : list Z → option (list Z * list Z);
}.

Record WalletAddress : Type := { hrp : list Z; data : list Z }.

Definition to_bech32 `{!Bech32} (a : WalletAddress) : R (list Z) := unwrap (bech32m_encode (hrp a) (data a)).
Definition address_from_str `{!Bech32} (s : list Z) : option WalletAddress :=
  '(h, d) ← bech32_decode s; Some {| hrp := h; data := d |}.

Definition network_suffix (network_id : list Z) : list Z :=
  if bool_decide (network_id = bytes_of_string "mainnet") then [] else 95 :: network_id.

(** The part that the implementations of [address] and [viewing_key] share. *)
Definition hrp_for `{!Bech32} (credential network_id : list Z) : R (list Z) :=
  let hrp_string := HRP_CONSTANT ++ 95 :: credential ++ network_suffix network_id in
  if hrp_parse hrp_string then Ok hrp_string else Panic.

(** The checks that the implementations of [TryFrom<&WalletAddress>] share. *)
Definition check_hrp {E} (credential : list Z) (bad_prefix bad_credential other : E) (hrp : list Z) :
    outcome E unit :=
  let prefix_parts := split 95 hrp in
  match prefix_parts !! 0%nat with
  | Some c =>
      if bool_decide (c = HRP_CONSTANT) then
        hrp_credential ← ok_or (prefix_parts !! 1%nat) bad_credential;
        if bool_decide (hrp_credential = credential) then Ok tt else Err other
      else Err bad_prefix
  | None => Err bad_prefix
  end.

(** The tag of a type and its format without the global tag. *)
Inductive ShortTaggedDeserializeError : Type :=
| MissingTag
| InvalidTag (expected actual : list Z)
| DeserializeError.

(** A buffer of the announced size is filled by [serialize]; writing past its end is
    an error, and a panic. *)
Definition short_tagged_serialize {T} `{!PlainCodec T} (tag : list Z) (serialized_size : T → nat) (data : T) :
    R (list Z) :=
  bytes ← unwrap (midnight_serialize data);
  if bool_decide (length bytes ≤ serialized_size data)%nat
  then Ok (tag ++ 58 :: bytes ++ replicate (serialized_size data - length bytes) 0)
  else Panic.

Definition short_tagged_deserialize {T} `{!PlainCodec T} (expected_tag buffer : list Z) :
    outcome ShortTaggedDeserializeError T :=
  match position (λ b, bool_decide (b = 58)) buffer with
  | None => Err MissingTag
  | Some tag_end =>
      let actual_tag := take tag_end buffer in
      if bool_decide (expected_tag = actual_tag)
      then ok_or (midnight_deserialize (drop (S tag_end) buffer)) DeserializeError
      else Err (InvalidTag expected_tag actual_tag)
  end.

(** ** Keys and local states of the ledger library *)

Class WalletLib `{!MnLedger} : Type := {
  (** zswap *)
  SecretKeys : Type;
  EncryptionPublicKey : Type;
  EncryptionSecretKey : Type;
  secret_keys_from_seed : list Z → SecretKeys;
  sk_coin_public_key : SecretKeys → list Z;
  sk_enc_public_key : SecretKeys → EncryptionPublicKey;
  sk_encryption_secret_key : SecretKeys → EncryptionSecretKey;
  enc_public_key_codec :: PlainCodec EncryptionPublicKey;
  enc_secret_key_codec :: PlainCodec EncryptionSecretKey;
  WalletState : Type;
  wallet_state_new : WalletState;
  wallet_state_apply : WalletState → SecretKeys → Offer → WalletState;
  (** Signatures *)
  SigningKey : Type;
  VerifyingKey : Type;
  signing_key_from_bytes : list Z → option SigningKey;
  sk_verifying_key : SigningKey → VerifyingKey;
  user_address_from : VerifyingKey → list Z;
  (** Dust; the events are those of the ledger. *)
  Event : Type;
  EventReplayError : Type;
  DustSecretKey : Type;
  DustParameters : Type;
  DustLocalState : Type;
  QualifiedDustOutput : Type;
  GenerationInfo : Type;
  DustSpend : Type;
  MnLedgerDustSpendError : Type;
  derive_secret_key : list Z → DustSecretKey;
  dust_public_key_from : DustSecretKey → DustPublicKey;
  dust_public_key_size : DustPublicKey → nat;
  dust_parameters : LedgerParameters → DustParameters;
  dust_local_state_new : DustParameters → DustLocalState;
  dust_replay_events : DustLocalState → DustSecretKey → list Event → EventReplayError + DustLocalState;
  dust_process_ttls : DustLocalState → Z → DustLocalState;
  dust_state_params : DustLocalState → DustParameters;
  dust_utxos : DustLocalState → list QualifiedDustOutput;
  nullifier : QualifiedDustOutput → DustSecretKey → Z;
  generation_info : DustLocalState → QualifiedDustOutput → option GenerationInfo;
  updated_value : QualifiedDustOutput → GenerationInfo → Z → DustParameters → Z;
  dust_spend :
    DustLocalState → DustSecretKey → QualifiedDustOutput → Z → Z →
    MnLedgerDustSpendError + (DustLocalState * DustSpend);
  v_fee : DustSpend → Z;
  old_nullifier : DustSpend → Z;
}.

Section Wallets.
Context `{!MnLedger} `{!WalletLib} `{!Bip} `{!Bech32}.

(** ** The shielded wallet: [wallet/shielded.rs] *)

Record ShieldedWallet : Type := {
  shielded_state : WalletState;
  coin_public_key : list Z;
  enc_public_key : EncryptionPublicKey;
  secret_keys : option SecretKeys;
}.

Definition shielded_address (w : ShieldedWallet) (network_id : list Z) : R WalletAddress :=
  hrp ← hrp_for HRP_CREDENTIAL_SHIELDED network_id;
  enc_pub_key ← unwrap (midnight_serialize (enc_public_key w));
  Ok {| hrp := hrp; data := coin_public_key w ++ enc_pub_key |}.

Definition shielded_from_seed (derived_seed : list Z) : ShieldedWallet :=
  let sks := secret_keys_from_seed derived_seed in
  {| shielded_state := wallet_state_new; coin_public_key := sk_coin_public_key sks;
     enc_public_key := sk_enc_public_key sks; secret_keys := Some sks |}.
Definition shielded_from_path (root_seed : WalletSeed) (path : DerivationPath) : R ShieldedWallet :=
  derived_seed ← derive_seed root_seed path;
  Ok (shielded_from_seed derived_seed).
Definition shielded_default (root_seed : WalletSeed) : R ShieldedWallet :=
  shielded_from_path root_seed (default_for_role Zswap).

Definition from_pub_keys (coin_public_key : list Z) (enc_public_key : EncryptionPublicKey) : ShieldedWallet :=
  {| shielded_state := wallet_state_new; coin_public_key := coin_public_key;
     enc_public_key := enc_public_key; secret_keys := None |}.

(** The encryption secret key, for the indexer. *)
Definition viewing_key (w : ShieldedWallet) (network_id : list Z) : R (list Z) :=
  hrp ← hrp_for HRP_CREDENTIAL_SHIELDED_ESK network_id;
  sks ← unwrap (secret_keys w);
  data ← unwrap (midnight_serialize (sk_encryption_secret_key sks));
  unwrap (bech32m_encode hrp data).

Inductive ShieldedAddressParseError : Type :=
| Sh_InvalidHrpPrefix
| Sh_InvalidHrpCredential
| AddressNotShielded
| InvalidCoinKeyLen (len : nat)
| EncryptionKeyDeserialize.

(** The length is asserted: the 32 bytes of the coin key always convert. *)
Definition shielded_try_from (address : WalletAddress) : outcome ShieldedAddressParseError ShieldedWallet :=
  _ ← check_hrp HRP_CREDENTIAL_SHIELDED Sh_InvalidHrpPrefix Sh_InvalidHrpCredential AddressNotShielded
        (hrp address);
  if bool_decide (length (data address) = 64%nat) then
    let coin_bytes := take 32 (data address) in
    let enc_bytes := drop 32 (data address) in
    _ ← (if bool_decide (length coin_bytes = 32%nat) then Ok tt
         else Err (InvalidCoinKeyLen (length coin_bytes)));
    enc ← ok_or (midnight_deserialize enc_bytes) EncryptionKeyDeserialize;
    Ok (from_pub_keys coin_bytes enc)
  else Panic.

(** ** The unshielded wallet: [wallet/unshielded.rs] *)

Record UnshieldedWallet : Type := {
  unshielded_user_address : list Z;
  verifying_key : option VerifyingKey;
  signing_key : option SigningKey;
}.

Definition unshielded_address (w : UnshieldedWallet) (network_id : list Z) : R WalletAddress :=
  hrp ← hrp_for HRP_CREDENTIAL_UNSHIELDED network_id;
  Ok {| hrp := hrp; data := unshielded_user_address w |}.

Definition unshielded_from_seed (derived_seed : list Z) : R UnshieldedWallet :=
  sk ← unwrap (signing_key_from_bytes derived_seed);
  let vk := sk_verifying_key sk in
  Ok {| unshielded_user_address := user_address_from vk; verifying_key := Some vk; signing_key := Some sk |}.
Definition unshielded_from_path (root_seed : WalletSeed) (path : DerivationPath) : R UnshieldedWallet :=
  derived_seed ← derive_seed root_seed path;
  unshielded_from_seed derived_seed.
Definition unshielded_default (root_seed : WalletSeed) : R UnshieldedWallet :=
  unshielded_from_path root_seed (default_for_role UnshieldedExternal).

Inductive UnshieldedAddressParseError : Type :=
| Un_InvalidHrpPrefix
| Un_InvalidHrpCredential
| AddressNotUnshielded
| InvalidDataLen (len : nat).

Definition unshielded_try_from (address : WalletAddress) :
    outcome UnshieldedAddressParseError UnshieldedWallet :=
  _ ← check_hrp HRP_CREDENTIAL_UNSHIELDED Un_InvalidHrpPrefix Un_InvalidHrpCredential AddressNotUnshielded
        (hrp address);
  if bool_decide (length (data address) = 32%nat)
  then Ok {| unshielded_user_address := data address; verifying_key := None; signing_key := None |}
  else Err (InvalidDataLen (length (data address))).

(** ** The dust wallet: [wallet/dust.rs] *)

Record DustWallet : Type := {
  public_key : DustPublicKey;
  secret_key : option DustSecretKey;
  dust_local_state : option DustLocalState;
  spent_utxos : gset Z;
}.

Definition dust_address_tag : list Z := bytes_of_string "dust-address[v1]".

Definition dust_address (w : DustWallet) (network_id : list Z) : R WalletAddress :=
  hrp ← hrp_for HRP_CREDENTIAL_DUST network_id;
  data ← short_tagged_serialize dust_address_tag dust_public_key_size (public_key w);
  Ok {| hrp := hrp; data := data |}.

Definition dust_from_seed (derived_seed : list Z) (params : option LedgerParameters) : DustWallet :=
  let secret_key := derive_secret_key derived_seed in
  {| public_key := dust_public_key_from secret_key; secret_key := Some secret_key;
     dust_local_state := (λ p, dust_local_state_new (dust_parameters p)) <$> params;
     spent_utxos := ∅ |}.
Definition dust_from_path (root_seed : WalletSeed) (path : DerivationPath) (params : option LedgerParameters) :
    R DustWallet :=
  derived_seed ← derive_seed root_seed path;
  Ok (dust_from_seed derived_seed params).
Definition dust_default (root_seed : WalletSeed) (params : option LedgerParameters) : R DustWallet :=
  dust_from_path root_seed (default_for_role Dust) params.

Definition set_dust_local_state (s : option DustLocalState) (w : DustWallet) : DustWallet :=
  {| public_key := public_key w; secret_key := secret_key w; dust_local_state := s;
     spent_utxos := spent_utxos w |}.
Definition set_spent_utxos (s : gset Z) (w : DustWallet) : DustWallet :=
  {| public_key := public_key w; secret_key := secret_key w; dust_local_state := dust_local_state w;
     spent_utxos := s |}.

Definition replay_events (w : DustWallet) (events : list Event) : outcome EventReplayError DustWallet :=
  match dust_local_state w, secret_key w with
  | Some state, Some sk =>
      match dust_replay_events state sk events with
      | inl e => Err e
      | inr state => Ok (set_dust_local_state (Some state) w)
      end
  | _, _ => Ok w
  end.

(** A new block: the set of spent outputs starts anew. *)
Definition process_ttls (w : DustWallet) (tblock : Z) : DustWallet :=
  set_spent_utxos ∅
    (set_dust_local_state ((λ state, dust_process_ttls state tblock) <$> dust_local_state w) w).

Inductive DustSpendError : Type :=
| MissingLocalState
| UnrecognizedDustOutput (qdo : QualifiedDustOutput)
| Internal (e : MnLedgerDustSpendError).

(** The loop of [speculative_spend] over the outputs that are left. *)
Fixpoint spend_outputs (spent : gset Z) (sk : DustSecretKey) (ctime : Z) (params : DustParameters)
    (qdos : list QualifiedDustOutput) (state : DustLocalState) (remaining_amount : Z) :
    outcome DustSpendError (list DustSpend) :=
  match qdos with
  | [] => Ok []
  | qdo :: qdos =>
      if bool_decide (nullifier qdo sk ∈ spent)
      then spend_outputs spent sk ctime params qdos state remaining_amount else
      gen_info ← ok_or (generation_info state qdo) (UnrecognizedDustOutput qdo);
      let output_amount_now := updated_value qdo gen_info ctime params in
      let v_fee := Z.min remaining_amount output_amount_now in
      if bool_decide (v_fee = 0) then spend_outputs spent sk ctime params qdos state remaining_amount else
      match dust_spend state sk qdo v_fee ctime with
      | inl e => Err (Internal e)
      | inr (state, spend) =>
          let remaining_amount := remaining_amount - v_fee in
          if bool_decide (remaining_amount = 0) then Ok [spend] else
          spends ← spend_outputs spent sk ctime params qdos state remaining_amount;
          Ok (spend :: spends)
      end
  end.

Definition speculative_spend (w : DustWallet) (amount ctime : Z) (params : DustParameters) :
    outcome DustSpendError (list DustSpend) :=
  original_state ← ok_or (dust_local_state w) MissingLocalState;
  sk ← ok_or (secret_key w) MissingLocalState;
  spend_outputs (spent_utxos w) sk ctime params (dust_utxos original_state) original_state amount.

Definition mark_spent (w : DustWallet) (spends : list DustSpend) : DustWallet :=
  set_spent_utxos (foldl (λ s spend, {[old_nullifier spend]} ∪ s) (spent_utxos w) spends) w.

Inductive DustAddressParseError : Type :=
| Du_InvalidHrpPrefix
| Du_InvalidHrpCredential
| AddressNotDust
| Du_Deserialize (e : ShortTaggedDeserializeError).

Definition dust_try_from (address : WalletAddress) : outcome DustAddressParseError DustWallet :=
  _ ← check_hrp HRP_CREDENTIAL_DUST Du_InvalidHrpPrefix Du_InvalidHrpCredential AddressNotDust (hrp address);
  public_key ← map_err Du_Deserialize (short_tagged_deserialize dust_address_tag (data address));
  Ok {| public_key := public_key; secret_key := None; dust_local_state := None; spent_utxos := ∅ |}.

(** ** A wallet: [wallet/mod.rs] *)

Record Wallet : Type := {
  root_seed : option WalletSeed;
  shielded : ShieldedWallet;
  unshielded : UnshieldedWallet;
  dust : DustWallet;
}.

Definition wallet_default (seed : WalletSeed) (ledger_state : LedgerState) : R Wallet :=
  shielded ← shielded_default seed;
  unshielded ← unshielded_default seed;
  dust ← dust_default seed (Some (parameters ledger_state));
  Ok {| root_seed := Some seed; shielded := shielded; unshielded := unshielded; dust := dust |}.

Definition set_shielded (s : ShieldedWallet) (w : Wallet) : Wallet :=
  {| root_seed := root_seed w; shielded := s; unshielded := unshielded w; dust := dust w |}.
Definition set_dust (d : DustWallet) (w : Wallet) : Wallet :=
  {| root_seed := root_seed w; shielded := shielded w; unshielded := unshielded w; dust := d |}.
Definition set_shielded_state (s : WalletState) (w : ShieldedWallet) : ShieldedWallet :=
  {| shielded_state := s; coin_public_key := coin_public_key w; enc_public_key := enc_public_key w;
     secret_keys := secret_keys w |}.

Definition update_state_from_offers (w : Wallet) (offers : list Offer) : R Wallet :=
  secret_keys ← unwrap (secret_keys (shielded w));
  let state := foldl (λ state offer, wallet_state_apply state secret_keys offer)
    (shielded_state (shielded w)) offers in
  Ok (set_shielded (set_shielded_state state (shielded w)) w).

Definition update_dust_from_tx (w : Wallet) (events : list Event) : outcome EventReplayError Wallet :=
  dust ← replay_events (dust w) events;
  Ok (set_dust dust w).

Definition update_dust_from_block (w : Wallet) (context : BlockContext) : Wallet :=
  set_dust (process_ttls (dust w) (tblock context)) w.

End Wallets.

(** ** Strings: lemmas *)

Lemma split_no_sep sep s : sep ∉ s → split sep s = [s].
Proof.
  induction s as [|c s IH]; intros Hs; [done|]. cbn. rewrite bool_decide_false by set_solver.
  by rewrite IH by set_solver.
Qed.

Lemma split_app sep s t : sep ∉ s → split sep (s ++ sep :: t) = s :: split sep t.
Proof.
  induction s as [|c s IH]; intros Hs; cbn; [by rewrite bool_decide_true|].
  rewrite bool_decide_false by set_solver. by rewrite IH by set_solver.
Qed.

Lemma split_ne sep s : ∃ p ps, split sep s = p :: ps.
Proof. induction s as [|c s (p & ps & IH)]; cbn; [eauto|]. case_bool_decide; rewrite ?IH; eauto. Qed.

Lemma split_dots_no_dot s : 46 ∉ s → split_dots s = [s].
Proof.
  induction s as [|c s IH]; intros Hs; [done|]. cbn. destruct s as [|d s]; [done|].
  rewrite bool_decide_false by (intros [-> _]; set_solver). by rewrite IH by set_solver.
Qed.

Lemma split_dots_app s t : 46 ∉ s → split_dots (s ++ 46 :: 46 :: t) = s :: split_dots t.
Proof.
  induction s as [|c s IH]; intros Hs; [by cbn; rewrite bool_decide_true|].
  cbn. destruct (s ++ 46 :: 46 :: t) as [|d r] eqn:Hr; [by destruct s|].
  rewrite bool_decide_false by (intros [-> _]; set_solver). by rewrite IH by set_solver.
Qed.

(** What [hex::encode] writes. *)
Definition hex_text (s : list Z) : Prop := Forall (λ c, 48 ≤ c ≤ 57 ∨ 97 ≤ c ≤ 102) s.

Lemma hex_encode_text l : Forall byte l → hex_text (hex_encode l).
Proof.
  induction 1 as [|b l [Hlo Hhi] _ IH]; [by apply Forall_nil|]. unfold hex_encode in *. rewrite fmap_cons.
  assert (∀ d, 0 ≤ d < 16 → 48 ≤ hex_char d ≤ 57 ∨ 97 ≤ hex_char d ≤ 102) as Hc.
  { intros d Hd. unfold hex_char. case_bool_decide; lia. }
  pose proof (Z.mod_pos_bound b 16 ltac:(lia)). pose proof (Z.div_mod b 16 ltac:(lia)).
  cbn [concat app]. apply Forall_cons. split; [apply Hc; lia|]. apply Forall_cons. split; [apply Hc; lia|done].
Qed.

Lemma hex_text_no c s : hex_text s → ¬ (48 ≤ c ≤ 57 ∨ 97 ≤ c ≤ 102) → c ∉ s.
Proof. unfold hex_text. rewrite Forall_forall. naive_solver. Qed.

Lemma trim_start_id s : (∀ b, b ∈ s → is_space b = false) → trim_start s = s.
Proof. destruct s as [|b s]; intros Hs; [done|]. cbn. by rewrite (Hs b) by set_solver. Qed.

Lemma trim_id s : (∀ b, b ∈ s → is_space b = false) → trim s = s.
Proof.
  intros Hs. unfold trim. rewrite (trim_start_id s) by done. rewrite trim_start_id, reverse_involutive; [done|].
  intros b Hb. apply Hs. by rewrite <-(reverse_Permutation s).
Qed.

Lemma hex_text_space b s : hex_text s → b ∈ s → is_space b = false.
Proof.
  unfold hex_text. rewrite Forall_forall. intros Hs Hb%Hs. unfold is_space. apply bool_decide_eq_false. lia.
Qed.

Lemma hex_decode_dot a t : Forall byte a → hex_decode (hex_encode a ++ 46 :: t) = None.
Proof.
  induction 1 as [|b l [Hlo Hhi] _ IH]; [by destruct t|]. unfold hex_encode in *. rewrite fmap_cons.
  cbn [concat app hex_decode].
  pose proof (Z.mod_pos_bound b 16 ltac:(lia)). pose proof (Z.div_mod b 16 ltac:(lia)).
  rewrite !hex_digit_char by lia. cbn [mbind option_bind]. by rewrite IH.
Qed.

(** ** Seeds *)

Section Seeds.
Context `{!Bip}.

(** Length of the seed that a short form of so many bytes stands for. *)
Definition lazy_length (n : nat) : nat := if bool_decide (n ≤ 32)%nat then 32 else 64.

Lemma lazy_hex_eq a b :
  Forall byte a → Forall byte b → (length a + length b ≤ 64)%nat →
  try_from_lazy_hex (hex_encode a ++ [46; 46] ++ hex_encode b)
  = seed_try_from (a ++ replicate (lazy_length (length a + length b) - (length a + length b)) 0 ++ b).
Proof.
  intros Ha Hb Hlen. unfold try_from_lazy_hex. cbn [app].
  rewrite split_dots_app by (eapply hex_text_no; [by apply hex_encode_text|lia]).
  rewrite split_dots_no_dot by (eapply hex_text_no; [by apply hex_encode_text|lia]).
  rewrite !hex_decode_encode by done. cbn -[Nat.sub Nat.add replicate].
  unfold lazy_length, try_into_seed_array, seed_try_from.
  case_bool_decide; [|rewrite (bool_decide_true (_ ≤ 64)%nat) by done];
    rewrite !length_app, length_replicate, bool_decide_true by lia.
  - by replace (length a + (32 - (length a + length b) + length b))%nat with 32%nat by lia.
  - by replace (length a + (64 - (length a + length b) + length b))%nat with 64%nat by lia.
Qed.

Lemma seed_try_from_padded a b : (length a + length b ≤ 64)%nat →
  let n := lazy_length (length a + length b) in
  let bytes := a ++ replicate (n - (length a + length b)) 0 ++ b in
  seed_try_from bytes = Ok (if bool_decide (length a + length b ≤ 32)%nat then Medium bytes else Long bytes)
  ∧ length bytes = n.
Proof.
  intros Hlen. cbn zeta. unfold seed_try_from, lazy_length. rewrite !length_app, length_replicate.
  case_bool_decide.
  - by replace (length a + (32 - (length a + length b) + length b))%nat with 32%nat by lia.
  - by replace (length a + (64 - (length a + length b) + length b))%nat with 64%nat by lia.
Qed.

(** A seed that is given in the short form, the bytes at both ends in hexadecimal
    with two dots between them, is the one given in full with zeros in the middle;
    it has 32 bytes when they hold what is written, and 64 otherwise.  A seed that is
    given in full is read back as it is. *)
Theorem seed_forms_agree a b :
  Forall byte a → Forall byte b → (length a + length b ≤ 64)%nat →
  let bytes := a ++ replicate (lazy_length (length a + length b) - (length a + length b)) 0 ++ b in
  let seed := if bool_decide (length a + length b ≤ 32)%nat then Medium bytes else Long bytes in
  seed_from_str (hex_encode a ++ [46; 46] ++ hex_encode b) = Ok seed
  ∧ seed_from_str (hex_encode (as_bytes seed)) = Ok seed
  ∧ seed_ok seed.
Proof.
  intros Ha Hb Hlen bytes seed. destruct (seed_try_from_padded a b Hlen) as [Hseed Hn].
  fold bytes in Hseed, Hn.
  assert (Forall byte bytes) as Hbytes.
  { apply Forall_app. split; [done|]. apply Forall_app. split; [|done]. apply Forall_replicate. split; lia. }
  assert (as_bytes seed = bytes) as Hseed_bytes by (unfold seed; by case_bool_decide).
  split_and!.
  - unfold seed_from_str. rewrite trim_id.
    2:{ intros c Hc. rewrite !elem_of_app in Hc. destruct Hc as [Hc|[Hc|Hc]].
        - apply (hex_text_space c (hex_encode a)); [by apply hex_encode_text|done].
        - apply list_elem_of_In in Hc as [<-|[<-|[]]]; apply bool_decide_eq_false; lia.
        - apply (hex_text_space c (hex_encode b)); [by apply hex_encode_text|done]. }
    unfold try_from_hex_str.
    change (hex_decode _) with (hex_decode (hex_encode a ++ 46 :: 46 :: hex_encode b)).
    rewrite hex_decode_dot by done. cbn [ok_or mbind outcome_bind].
    rewrite (lazy_hex_eq a b) by done. fold bytes. by rewrite Hseed.
  - unfold seed_from_str. rewrite trim_id.
    2:{ intros c Hc. eapply hex_text_space; [|done]. apply hex_encode_text. by rewrite Hseed_bytes. }
    unfold try_from_hex_str. rewrite Hseed_bytes, hex_decode_encode by done. cbn [ok_or mbind outcome_bind].
    by rewrite Hseed.
  - unfold seed_ok. rewrite Hseed_bytes. split; [done|]. rewrite Hn. unfold seed, lazy_length. by case_bool_decide.
Qed.
End Seeds.

(** ** Addresses *)

(** The documented behaviour of bech32: a human readable part does not mix the two
    cases, and what was encoded under one in lower case is decoded as it was. *)
Definition no_upper (s : list Z) : Prop := Forall (λ c, ¬ 65 ≤ c ≤ 90) s.
Class Bech32Laws `{!Bech32} : Prop := {
  hrp_one_case h : hrp_parse h = true → no_upper h ∨ Forall (λ c, ¬ 97 ≤ c ≤ 122) h;
  bech32_roundtrip h d s :
    hrp_parse h = true → no_upper h → bech32m_encode h d = Some s → bech32_decode s = Some (h, d);
}.

(** The lengths of keys, and that their formats are read back. *)
Class KeyLaws `{!MnLedger} `{!WalletLib} : Prop := {
  coin_public_key_length sks : length (sk_coin_public_key sks) = 32%nat;
  enc_public_key_roundtrip (k : EncryptionPublicKey) :
    ∃ bytes, midnight_serialize k = Some bytes ∧ length bytes = 32%nat ∧ midnight_deserialize bytes = Some k;
  user_address_length vk : length (user_address_from vk) = 32%nat;
  dust_public_key_roundtrip (k : DustPublicKey) :
    ∃ bytes, midnight_serialize k = Some bytes ∧ length bytes = dust_public_key_size k ∧
      midnight_deserialize bytes = Some k;
}.

Section Addresses.
Context `{!MnLedger} `{!WalletLib} `{!Bip} `{!Bech32} `{!Bech32Laws} `{!KeyLaws}.

Definition hrp_text (credential network_id : list Z) : list Z :=
  HRP_CONSTANT ++ 95 :: credential ++ network_suffix network_id.

Lemma hrp_for_ok credential network_id :
  hrp_parse (hrp_text credential network_id) = true →
  hrp_for credential network_id = Ok (hrp_text credential network_id).
Proof. intros Hp. unfold hrp_for. fold (hrp_text credential network_id). by rewrite Hp. Qed.

Lemma split_credential credential network_id : 95 ∉ credential →
  ∃ rest, split 95 (credential ++ network_suffix network_id) = credential :: rest.
Proof.
  intros Hc. unfold network_suffix. case_bool_decide; [rewrite app_nil_r, split_no_sep by done|rewrite split_app by done]; eauto.
Qed.

Lemma check_hrp_eq {E} credential credential' network_id (bad_prefix bad_credential other : E) :
  95 ∉ credential' →
  check_hrp credential bad_prefix bad_credential other (hrp_text credential' network_id)
  = if bool_decide (credential' = credential) then Ok tt else Err other.
Proof.
  intros Hc. unfold check_hrp, hrp_text. rewrite split_app by (apply (bool_decide_unpack _); done).
  destruct (split_credential credential' network_id Hc) as [rest ->]. cbn [lookup list_lookup].
  rewrite bool_decide_true by done. cbn [ok_or mbind outcome_bind]. done.
Qed.

(** A network's name without capital letters gives addresses that can be read back. *)
Lemma address_text credential network_id a s :
  hrp_parse (hrp_text credential network_id) = true → hrp a = hrp_text credential network_id →
  to_bech32 a = Ok s → address_from_str s = Some a.
Proof.
  intros Hp Ha Hs. unfold to_bech32, unwrap in Hs.
  destruct (bech32m_encode (hrp a) (data a)) as [s'|] eqn:He; [|done]. injection Hs as ->.
  assert (no_upper (hrp a)) as Hup.
  { rewrite Ha. destruct (hrp_one_case _ Hp) as [?|Hl]; [done|]. inversion Hl as [|? ? Hm]. by destruct Hm. }
  unfold address_from_str. rewrite (bech32_roundtrip (hrp a) (data a) s); [by destruct a|by rewrite Ha|done|done].
Qed.

Lemma wallet_default_inv seed s w : wallet_default seed s = Ok w →
  ∃ zs sk ds, shielded w = shielded_from_seed zs
  ∧ unshielded w = {| unshielded_user_address := user_address_from (sk_verifying_key sk);
      verifying_key := Some (sk_verifying_key sk); signing_key := Some sk |}
  ∧ dust w = dust_from_seed ds (Some (parameters s)).
Proof.
  unfold wallet_default, shielded_default, unshielded_default, dust_default, shielded_from_path,
    unshielded_from_path, dust_from_path, unshielded_from_seed.
  destruct (derive_seed seed (default_for_role Zswap)) as [zs| |]; [cbn|done..].
  destruct (derive_seed seed (default_for_role UnshieldedExternal)) as [us| |]; [cbn|done..].
  destruct (signing_key_from_bytes us) as [sk|]; [cbn|done].
  destruct (derive_seed seed (default_for_role Dust)) as [ds| |]; [cbn|done..].
  intros [= <-]. cbn. eauto 10.
Qed.

Lemma position_tag tag rest : 58 ∉ tag →
  position (λ b, bool_decide (b = 58)) (tag ++ 58 :: rest) = Some (length tag).
Proof.
  induction tag as [|c tag IH]; intros Ht; cbn; [done|].
  rewrite bool_decide_false by set_solver. by rewrite IH by set_solver.
Qed.

(** What was written under a tag is read back under the same tag. *)
Lemma short_tagged_roundtrip {T} `{!PlainCodec T} tag (size : T → nat) (x : T) bytes :
  58 ∉ tag → midnight_serialize x = Some bytes → length bytes = size x → midnight_deserialize bytes = Some x →
  ∃ buffer, short_tagged_serialize tag size x = Ok buffer ∧ short_tagged_deserialize tag buffer = Ok x.
Proof.
  intros Htag Hs Hl Hd. exists (tag ++ 58 :: bytes). unfold short_tagged_serialize. rewrite Hs. cbn.
  rewrite bool_decide_true, Hl, Nat.sub_diag, app_nil_r by lia. split; [done|].
  unfold short_tagged_deserialize. rewrite position_tag by done.
  rewrite take_app_length, bool_decide_true by done.
  replace (drop _ _) with bytes; [by rewrite Hd|].
  change (tag ++ 58 :: bytes) with (tag ++ [58] ++ bytes). rewrite app_assoc.
  by rewrite drop_app_length' by (rewrite length_app; cbn; lia).
Qed.

Definition credentials : list (list Z) :=
  [HRP_CREDENTIAL_SHIELDED; HRP_CREDENTIAL_UNSHIELDED; HRP_CREDENTIAL_DUST].

Lemma credential_sep c : c ∈ credentials → 95 ∉ c.
Proof. revert c. apply Forall_forall. apply (bool_decide_unpack _). done. Qed.

(** An address of another kind is refused. *)
Lemma shielded_refuses c n d : c ∈ credentials → c ≠ HRP_CREDENTIAL_SHIELDED →
  shielded_try_from {| hrp := hrp_text c n; data := d |} = Err AddressNotShielded.
Proof.
  intros Hc Hne. unfold shielded_try_from. cbn [hrp]. rewrite check_hrp_eq by by apply credential_sep.
  by rewrite (bool_decide_false (c = HRP_CREDENTIAL_SHIELDED)).
Qed.
Lemma unshielded_refuses c n d : c ∈ credentials → c ≠ HRP_CREDENTIAL_UNSHIELDED →
  unshielded_try_from {| hrp := hrp_text c n; data := d |} = Err AddressNotUnshielded.
Proof.
  intros Hc Hne. unfold unshielded_try_from. cbn [hrp]. rewrite check_hrp_eq by by apply credential_sep.
  by rewrite (bool_decide_false (c = HRP_CREDENTIAL_UNSHIELDED)).
Qed.
Lemma dust_refuses c n d : c ∈ credentials → c ≠ HRP_CREDENTIAL_DUST →
  dust_try_from {| hrp := hrp_text c n; data := d |} = Err AddressNotDust.
Proof.
  intros Hc Hne. unfold dust_try_from. cbn [hrp]. rewrite check_hrp_eq by by apply credential_sep.
  by rewrite (bool_decide_false (c = HRP_CREDENTIAL_DUST)).
Qed.

Lemma shielded_address_ok (w : ShieldedWallet) n :
  length (coin_public_key w) = 32%nat → hrp_parse (hrp_text HRP_CREDENTIAL_SHIELDED n) = true →
  ∃ d, let a := {| hrp := hrp_text HRP_CREDENTIAL_SHIELDED n; data := d |} in
    shielded_address w n = Ok a ∧ shielded_try_from a = Ok (from_pub_keys (coin_public_key w) (enc_public_key w)).
Proof.
  intros Hcoin Hp. destruct (enc_public_key_roundtrip (enc_public_key w)) as (enc & Henc & Hlenc & Hdenc).
  exists (coin_public_key w ++ enc). cbn zeta. split.
  - unfold shielded_address. rewrite hrp_for_ok by done. cbn [mbind outcome_bind]. by rewrite Henc.
  - unfold shielded_try_from. cbn [hrp data]. rewrite check_hrp_eq by (apply credential_sep; set_solver).
    rewrite (bool_decide_true (HRP_CREDENTIAL_SHIELDED = _)) by done. cbn [mbind outcome_bind].
    rewrite bool_decide_true by (rewrite length_app; lia).
    rewrite take_app_length', drop_app_length' by done. rewrite bool_decide_true by done. cbn.
    by rewrite Hdenc.
Qed.

Lemma unshielded_address_ok (w : UnshieldedWallet) n :
  length (unshielded_user_address w) = 32%nat → hrp_parse (hrp_text HRP_CREDENTIAL_UNSHIELDED n) = true →
  let a := {| hrp := hrp_text HRP_CREDENTIAL_UNSHIELDED n; data := unshielded_user_address w |} in
  unshielded_address w n = Ok a
  ∧ unshielded_try_from a = Ok {| unshielded_user_address := unshielded_user_address w;
                                  verifying_key := None; signing_key := None |}.
Proof.
  intros Hua Hp. cbn zeta. split.
  - unfold unshielded_address. by rewrite hrp_for_ok.
  - unfold unshielded_try_from. cbn [hrp data]. rewrite check_hrp_eq by (apply credential_sep; set_solver).
    by rewrite !bool_decide_true.
Qed.

Lemma dust_address_ok (w : DustWallet) n :
  hrp_parse (hrp_text HRP_CREDENTIAL_DUST n) = true →
  ∃ d, let a := {| hrp := hrp_text HRP_CREDENTIAL_DUST n; data := d |} in
    dust_address w n = Ok a
    ∧ dust_try_from a = Ok {| public_key := public_key w; secret_key := None; dust_local_state := None;
                              spent_utxos := ∅ |}.
Proof.
  intros Hp. destruct (dust_public_key_roundtrip (public_key w)) as (pk & Hpk & Hlpk & Hdpk).
  destruct (short_tagged_roundtrip dust_address_tag dust_public_key_size (public_key w) pk)
    as (buffer & Hbuf & Hread); [apply (bool_decide_unpack _); done|done..|].
  exists buffer. cbn zeta. split.
  - unfold dust_address. rewrite hrp_for_ok by done. cbn [mbind outcome_bind]. by rewrite Hbuf.
  - unfold dust_try_from. cbn [hrp data]. rewrite check_hrp_eq by (apply credential_sep; set_solver).
    rewrite bool_decide_true by done. cbn [mbind outcome_bind]. by rewrite Hread.
Qed.

(** C20: The three addresses of a wallet in the text form of any network are read back
    as the addresses they are; from each of them the wallet of its kind is made, with
    the public keys of the original, and the two other kinds refuse it. *)
Theorem addresses_round_trip seed s w network_id :
  wallet_default seed s = Ok w →
  (∀ c, c ∈ credentials → hrp_parse (hrp_text c network_id) = true) →
  ∃ a_s a_u a_d,
    shielded_address (shielded w) network_id = Ok a_s
    ∧ unshielded_address (unshielded w) network_id = Ok a_u
    ∧ dust_address (dust w) network_id = Ok a_d
    ∧ (∀ a text, a ∈ [a_s; a_u; a_d] → to_bech32 a = Ok text → address_from_str text = Some a)
    ∧ shielded_try_from a_s
      = Ok (from_pub_keys (coin_public_key (shielded w)) (enc_public_key (shielded w)))
    ∧ unshielded_try_from a_u
      = Ok {| unshielded_user_address := unshielded_user_address (unshielded w);
              verifying_key := None; signing_key := None |}
    ∧ dust_try_from a_d
      = Ok {| public_key := public_key (dust w); secret_key := None; dust_local_state := None;
              spent_utxos := ∅ |}
    ∧ (∀ a, a ∈ [a_u; a_d] → shielded_try_from a = Err AddressNotShielded)
    ∧ (∀ a, a ∈ [a_s; a_d] → unshielded_try_from a = Err AddressNotUnshielded)
    ∧ (∀ a, a ∈ [a_s; a_u] → dust_try_from a = Err AddressNotDust).
Proof.
  intros Hw Hp. destruct (wallet_default_inv _ _ _ Hw) as (zs & sk & ds & Hs & Hu & Hd).
  destruct (shielded_address_ok (shielded w) network_id) as (d_s & Hs1 & Hs2);
    [rewrite Hs; apply coin_public_key_length|apply Hp; set_solver|].
  destruct (unshielded_address_ok (unshielded w) network_id) as (Hu1 & Hu2);
    [rewrite Hu; apply user_address_length|apply Hp; set_solver|].
  destruct (dust_address_ok (dust w) network_id) as (d_d & Hd1 & Hd2); [apply Hp; set_solver|].
  eexists _, _, _. split_and!; [exact Hs1|exact Hu1|exact Hd1|..|exact Hs2|exact Hu2|exact Hd2| | |];
    intros a; [intros text|..]; rewrite !elem_of_cons, elem_of_nil;
    [intros [->|[->|[->|[]]]]|intros [->|[->|[]]]..];
    first [intros Ht; eapply address_text; [|reflexivity|exact Ht]; apply Hp; set_solver
          |apply shielded_refuses; [set_solver|by apply (bool_decide_unpack _)]
          |apply unshielded_refuses; [set_solver|by apply (bool_decide_unpack _)]
          |apply dust_refuses; [set_solver|by apply (bool_decide_unpack _)]].
Qed.
End Addresses.

(** ** Spending dust *)

(** What the library documents of dust: the value of an output is not negative and
    outputs have different nullifiers; a positive amount up to the value of an output
    can be spent from it, and this leaves the other outputs as they are; a spend
    carries the amount and the nullifier of the output. *)
Class DustLaws `{!MnLedger} `{!WalletLib} : Prop := {
  updated_value_nonneg q i t p : 0 ≤ updated_value q i t p;
  dust_utxos_nodup st sk : NoDup ((λ q, nullifier q sk) <$> dust_utxos st);
  dust_spend_ok st sk q i v t :
    q ∈ dust_utxos st → generation_info st q = Some i →
    0 < v ≤ updated_value q i t (dust_state_params st) →
    ∃ st' sp, dust_spend st sk q v t = inr (st', sp) ∧ dust_state_params st' = dust_state_params st
      ∧ ∀ q', nullifier q' sk ≠ nullifier q sk →
          generation_info st' q' = generation_info st q' ∧ (q' ∈ dust_utxos st → q' ∈ dust_utxos st');
  dust_spend_inv st sk q v t st' sp :
    dust_spend st sk q v t = inr (st', sp) → v_fee sp = v ∧ old_nullifier sp = nullifier q sk;
}.

Section DustSpending.
Context `{!MnLedger} `{!WalletLib} `{!DustLaws}.

Definition total_fee (spends : list DustSpend) : Z := foldr (λ sp n, v_fee sp + n) 0 spends.

(** The outputs that were not spent since the last block, and their value now. *)
Definition unspent (spent : gset Z) (sk : DustSecretKey) (qdos : list QualifiedDustOutput) :=
  filter (λ q, nullifier q sk ∉ spent) qdos.
Definition value_now (st : DustLocalState) (ctime : Z) (params : DustParameters) (q : QualifiedDustOutput) : Z :=
  match generation_info st q with Some i => updated_value q i ctime params | None => 0 end.
Definition total_value (st : DustLocalState) (ctime : Z) (params : DustParameters)
    (qdos : list QualifiedDustOutput) : Z :=
  foldr (λ q n, value_now st ctime params q + n) 0 qdos.

Lemma value_now_nonneg st t p q : 0 ≤ value_now st t p q.
Proof. unfold value_now. case_match; [apply updated_value_nonneg|done]. Qed.
Lemma total_value_nonneg st t p qdos : 0 ≤ total_value st t p qdos.
Proof.
  induction qdos as [|q qdos IH]; [done|]. cbn. fold (total_value st t p qdos).
  pose proof (value_now_nonneg st t p q). lia.
Qed.

Lemma total_value_ext st st' t p qdos :
  (∀ q, q ∈ qdos → generation_info st' q = generation_info st q) →
  total_value st' t p qdos = total_value st t p qdos.
Proof.
  induction qdos as [|q qdos IH]; intros Hq; [done|]. cbn. fold (total_value st' t p qdos) (total_value st t p qdos).
  rewrite IH by (intros; apply Hq; set_solver). unfold value_now. by rewrite Hq by set_solver.
Qed.

Lemma unspent_cons spent sk q qdos :
  unspent spent sk (q :: qdos)
  = if bool_decide (nullifier q sk ∈ spent) then unspent spent sk qdos else q :: unspent spent sk qdos.
Proof.
  unfold unspent. rewrite filter_cons. case_bool_decide; [by rewrite decide_False by auto|by rewrite decide_True].
Qed.

Lemma unspent_subset spent sk qdos q : q ∈ unspent spent sk qdos → q ∈ qdos.
Proof. by intros [_ ?]%list_elem_of_filter. Qed.

(** The outputs left can be spent in any state that has them. *)
Definition spendable (st : DustLocalState) (sk : DustSecretKey) (spent : gset Z)
    (qdos : list QualifiedDustOutput) : Prop :=
  NoDup ((λ q, nullifier q sk) <$> qdos) ∧
  ∀ q, q ∈ unspent spent sk qdos → q ∈ dust_utxos st ∧ is_Some (generation_info st q).

Lemma spendable_tail st sk spent q qdos : spendable st sk spent (q :: qdos) → spendable st sk spent qdos.
Proof.
  intros [Hnd Hq]. rewrite fmap_cons, NoDup_cons in Hnd. split; [apply Hnd|].
  intros q' Hq'. apply Hq. rewrite unspent_cons. case_bool_decide; [done|set_solver].
Qed.

Lemma spendable_step st st' sk spent q qdos :
  spendable st sk spent (q :: qdos) →
  (∀ q', nullifier q' sk ≠ nullifier q sk →
     generation_info st' q' = generation_info st q' ∧ (q' ∈ dust_utxos st → q' ∈ dust_utxos st')) →
  spendable st' sk spent qdos
  ∧ ∀ q', q' ∈ unspent spent sk qdos → generation_info st' q' = generation_info st q'.
Proof.
  intros Hs Hkeep. pose proof (spendable_tail _ _ _ _ _ Hs) as [Hnd' Hq']. destruct Hs as [Hnd _].
  rewrite fmap_cons, NoDup_cons in Hnd.
  assert (∀ q', q' ∈ unspent spent sk qdos → nullifier q' sk ≠ nullifier q sk) as Hne.
  { intros q' Hin Heq. apply (proj1 Hnd). rewrite <-Heq.
    apply (list_elem_of_fmap_2 (λ q, nullifier q sk)). by eapply unspent_subset. }
  split; [split; [done|]|]; intros q' Hin; destruct (Hkeep q' (Hne q' Hin)) as [Hi Hu]; [|done].
  destruct (Hq' q' Hin). rewrite Hi. auto.
Qed.

Lemma spend_outputs_spec spent sk t p qdos st amount :
  0 ≤ amount → dust_state_params st = p → spendable st sk spent qdos →
  ∃ spends, spend_outputs spent sk t p qdos st amount = Ok spends
    ∧ total_fee spends = Z.min amount (total_value st t p (unspent spent sk qdos))
    ∧ Forall (λ sp, 0 < v_fee sp) spends
    ∧ old_nullifier <$> spends `sublist_of` (λ q, nullifier q sk) <$> unspent spent sk qdos.
Proof.
  revert st amount. induction qdos as [|q qdos IH]; intros st amount Ha Hp Hs.
  { exists []. split_and!; [done|cbn; lia|done|done]. }
  cbn [spend_outputs]. rewrite unspent_cons. destruct (bool_decide (nullifier q sk ∈ spent)) eqn:Hsp.
  { apply IH; [done..|by eapply spendable_tail]. }
  assert (q ∈ dust_utxos st ∧ is_Some (generation_info st q)) as [Hin [i Hi]].
  { apply Hs. rewrite unspent_cons, Hsp. set_solver. }
  clear Hsp.
  cbn [total_value foldr]. fold (total_value st t p (unspent spent sk qdos)).
  assert (value_now st t p q = updated_value q i t p) as Hv by (unfold value_now; by rewrite Hi).
  rewrite Hv, Hi. cbn [ok_or mbind outcome_bind]. pose proof (updated_value_nonneg q i t p) as Hnn.
  pose proof (total_value_nonneg st t p (unspent spent sk qdos)) as Hrest.
  case_bool_decide as Hz.
  { destruct (IH st amount Ha Hp (spendable_tail _ _ _ _ _ Hs)) as (spends & -> & Hf & Hpos & Hsub).
    exists spends. split_and!; [done|lia|done|]. rewrite fmap_cons. by apply sublist_cons. }
  destruct (dust_spend_ok st sk q i (Z.min amount (updated_value q i t p)) t)
    as (st' & sp & Hsp & Hpar & Hkeep); [done..|rewrite Hp; lia|].
  destruct (dust_spend_inv _ _ _ _ _ _ _ Hsp) as [Hfee Hnul]. rewrite Hsp.
  case_bool_decide as Hleft.
  { exists [sp]. split_and!; [done|cbn; lia|by apply Forall_singleton; cbn; lia|].
    rewrite !fmap_cons, Hnul. apply sublist_skip, sublist_nil_l. }
  destruct (spendable_step st st' sk spent q qdos Hs Hkeep) as [Hs' Hsame].
  destruct (IH st' (amount - Z.min amount (updated_value q i t p))) as (spends & -> & Hf & Hpos & Hsub);
    [lia|congruence|done|].
  rewrite (total_value_ext st) in Hf by done.
  exists (sp :: spends). cbn [mbind outcome_bind]. split_and!; [done| |by apply Forall_cons; split; [cbn; lia|]|].
  - cbn [total_fee foldr]. fold (total_fee spends). rewrite Hf, Hfee. lia.
  - rewrite !fmap_cons, Hnul. by apply sublist_skip.
Qed.

(** An output that was spent since the last block is not taken again. *)
Lemma spend_outputs_fresh spent sk t p qdos : ∀ st amount spends,
  spend_outputs spent sk t p qdos st amount = Ok spends → Forall (λ sp, old_nullifier sp ∉ spent) spends.
Proof.
  induction qdos as [|q qdos IH]; intros st amount spends; cbn [spend_outputs]; [by intros [= <-]|].
  case_bool_decide as Hsp; [by apply IH|].
  destruct (generation_info st q) as [i|]; [cbn|done]. case_bool_decide; [by apply IH|].
  destruct (dust_spend _ _ _ _ _) as [e|[st' sp]] eqn:Hs; [done|].
  destruct (dust_spend_inv _ _ _ _ _ _ _ Hs) as [_ Hnul].
  case_bool_decide; [intros [= <-]; apply Forall_singleton; by rewrite Hnul|].
  destruct (spend_outputs spent sk t p qdos st' _) as [spends'| |] eqn:Hr; [cbn|done..].
  intros [= <-]. apply Forall_cons. split; [by rewrite Hnul|by eapply IH].
Qed.

Lemma speculative_spend_fresh w amount t p spends :
  speculative_spend w amount t p = Ok spends → Forall (λ sp, old_nullifier sp ∉ spent_utxos w) spends.
Proof.
  unfold speculative_spend. destruct (dust_local_state w), (secret_key w); cbn; [|done..].
  apply spend_outputs_fresh.
Qed.

Lemma mark_spent_utxos w spends : spent_utxos (mark_spent w spends) = list_to_set (old_nullifier <$> spends) ∪ spent_utxos w.
Proof.
  unfold mark_spent. cbn. generalize (spent_utxos w). induction spends as [|sp spends IH]; intros s; cbn; [set_solver|].
  rewrite IH. set_solver.
Qed.
End DustSpending.

(** ** A small library *)

Module Mini.
Import LedgerBridge.Concrete.

(** A transaction is a coin that it gives to everyone; a ledger state the list of them. *)
#[export] Instance m_transactions : MnTransactions := {|
  UtxoSpend := Utxo; utxo_from_spend := id; Intent := unit; intent_hash_at := λ _ s, [s];
  guaranteed_outputs := λ _, []; guaranteed_inputs := λ _, [];
  fallible_outputs := λ _, []; fallible_inputs := λ _, [];
  ContractDeploy := ContractAddress; deploy_address := id;
  Offer := Z; StandardTransaction := Z;
  segments := λ _, [0]; intents := λ _, []; actions := λ _, [];
  guaranteed_coins := Some; fallible_coins := λ _, [];
  guaranteed_counts := λ _, (0, 1, 0)%nat; fallible_counts := λ _, (0, 0, 0)%nat;
  ClaimRewardsTransaction := Z; claim_value := id;
|}.
Definition plain {A} (to : A → list Z) (from : list Z → option A) : PlainCodec A :=
  {| midnight_serialize := λ a, Some (to a); midnight_deserialize := from |}.
Definition tagged {A} (to : A → list Z) (from : list Z → option A) : TaggedCodec A :=
  {| midnight_tagged_serialize := λ a, Some (to a); midnight_tagged_deserialize := from |}.
Definition one (bs : list Z) : option Z := match bs with [n] => Some n | _ => None end.

(** From 100 on, a coin is an unshielded output. *)
Definition output (n : Z) : Utxo :=
  {| value := n; owner := replicate 32 1; type_ := []; utxo_intent_hash := [n]; utxo_output_no := 0 |}.

#[export] Instance m_ledger : MnLedger := {|
  mn_transactions := m_transactions;
  FixedPoint := Z; fp_cmp := Z.compare; into_atomic_units := λ a w, 0;
  cost_add := zip_cost Z.add;
  normalize := λ c l, Some {| n_read_time := read_time c; n_compute_time := compute_time c;
    n_block_usage := block_usage c; n_bytes_written := bytes_written c; n_bytes_churned := bytes_churned c |};
  LedgerState := list Z; LedgerParameters := unit; ContractState := unit; CoinComs := unit;
  ZswapState := unit; MerkleTreeDigest := unit;
  state_hash := id; network_id := λ _, "undeployed"%string;
  utxos := λ s, list_to_set (output <$> filter (λ n, 100 ≤ n) s);
  parameters := λ _, tt; block_limits := λ _, limits;
  unclaimed_block_rewards := λ _, ∅; state_index := λ _ _, None;
  zswap_coin_coms := λ _, tt; zswap_filter := λ _ _, tt; zswap_state_of_coin_coms := λ _, tt;
  coin_coms_rehash_root := λ _, Some tt;
  TransactionIdentifier := unit; VerifiedTransaction := Z;
  transaction_hash := λ tx, match tx with Standard n | ClaimRewards n => [n] end;
  identifiers := λ _, []; tx_cost := λ _ _, Some unit_cost;
  well_formed := λ tx _ _, match tx with Standard n => inr n | ClaimRewards _ => inl Mt_Unbalanced end;
  ledger_apply := λ s n _, (n :: s, Success);
  SystemPayload := Z; DustPublicKey := Z;
  system_transaction_hash := λ _, [0]; system_tx_cost := λ _ _, unit_cost;
  ledger_apply_system_tx := λ s _ _, inr s;
  ledger_post_block_update := λ s _ _ _, Some s;
  transaction_codec := tagged (λ tx, match tx with Standard n | ClaimRewards n => [n] end)
    (λ bs, Standard <$> one bs);
  system_transaction_codec := no_codec; event_codec := no_codec;
  ledger_state_codec := tagged id Some;
  contract_address_tagged_codec := no_codec; contract_address_codec := no_plain_codec;
  contract_state_codec := no_codec; zswap_state_codec := no_codec; merkle_digest_codec := no_plain_codec;
  ledger_parameters_codec := no_codec; identifier_codec := no_codec;
  dust_public_key_codec := plain (λ k, [k]) one;
|}.

(** Keys are seeds; a dust wallet is a map from nullifiers to amounts. *)
#[export] Instance m_wallets : WalletLib := {|
  SecretKeys := list Z; EncryptionPublicKey := unit; EncryptionSecretKey := unit;
  secret_keys_from_seed := id;
  sk_coin_public_key := λ s, take 32 (s ++ replicate 32 0);
  sk_enc_public_key := λ _, tt; sk_encryption_secret_key := λ _, tt;
  enc_public_key_codec := plain (λ _, replicate 32 0) (λ _, Some tt);
  enc_secret_key_codec := plain (λ _, []) (λ _, Some tt);
  WalletState := list Z; wallet_state_new := []; wallet_state_apply := λ st _ o, o :: st;
  SigningKey := list Z; VerifyingKey := list Z; signing_key_from_bytes := Some; sk_verifying_key := id;
  user_address_from := λ s, take 32 (s ++ replicate 32 0);
  Event := Z * Z; EventReplayError := unit; DustSecretKey := list Z; DustParameters := unit;
  DustLocalState := gmap Z Z; QualifiedDustOutput := Z * Z; GenerationInfo := unit;
  DustSpend := Z * Z; MnLedgerDustSpendError := unit;
  derive_secret_key := id; dust_public_key_from := λ s, default 0 (head s);
  dust_public_key_size := λ _, 1%nat; dust_parameters := λ _, tt;
  dust_local_state_new := λ _, ∅;
  dust_replay_events := λ st _ es, inr (foldl (λ st e, <[e.1 := e.2]> st) st es);
  dust_process_ttls := λ st _, st; dust_state_params := λ _, tt;
  dust_utxos := map_to_list; nullifier := λ q _, q.1; generation_info := λ _ _, Some tt;
  updated_value := λ q _ _ _, Z.max 0 q.2;
  dust_spend := λ st _ q v _,
    if bool_decide (v ≤ Z.max 0 q.2) then inr (delete q.1 st, (v, q.1)) else inl tt;
  v_fee := fst; old_nullifier := snd;
|}.

#[export] Instance m_bip : Bip := {|
  Mnemonic := unit; mnemonic_parse := λ _, None; mnemonic_to_seed := λ _, [];
  Bip32Path := unit; bip32_path_from_str := λ _, Some tt; derive_from_path := λ seed _, Some seed;
|}.
(** The length of the human readable part, then the two parts. *)
#[export] Instance m_bech32 : Bech32 := {|
  hrp_parse := λ h, bool_decide (Forall (λ c, ¬ 65 ≤ c ≤ 90) h);
  bech32m_encode := λ h d, Some (Z.of_nat (length h) :: h ++ d);
  bech32_decode := λ s, match s with n :: s => Some (take (Z.to_nat n) s, drop (Z.to_nat n) s) | [] => None end;
|}.

#[export] Instance m_bech32_laws : Bech32Laws.
Proof.
  split.
  - intros h Hh%bool_decide_eq_true. by left.
  - intros h d s _ _ [= <-]. cbn. by rewrite Nat2Z.id, take_app_length, drop_app_length.
Qed.
#[export] Instance m_key_laws : KeyLaws.
Proof.
  split.
  - intros s. apply length_take_le. rewrite length_app, length_replicate. lia.
  - intros []. by eexists.
  - intros s. apply length_take_le. rewrite length_app, length_replicate. lia.
  - intros k. by eexists.
Qed.
#[export] Instance m_dust_laws : DustLaws.
Proof.
  split.
  - intros. cbn. lia.
  - intros st sk. apply NoDup_fst_map_to_list.
  - intros st sk q i v t Hq _ Hv. cbn in *. rewrite bool_decide_true by lia.
    eexists _, _. split_and!; [reflexivity|done..|]. intros q' Hne. split; [done|].
    destruct q' as [n' x']. rewrite !elem_of_map_to_list. cbn in *. intros Hl. by rewrite lookup_delete_ne.
  - intros st sk q v t st' sp. cbn. case_bool_decide; [|done]. by intros [= <- <-].
Qed.
Definition seed1 : WalletSeed := Medium (replicate 32 1).
Lemma m_wallet (s : @LedgerState m_ledger) : ∃ w, wallet_default seed1 s = Ok w.
Proof. eexists. reflexivity. Defined.
End Mini.

Section WalletWitnesses.
Import Mini.

Lemma seed_forms_agree_witness :
  seed_from_str (bytes_of_string "0002..1101") = Ok (Medium ([0; 2] ++ replicate 28 0 ++ [17; 1]))
  ∧ seed_from_str (bytes_of_string "0002000000000000000000000000000000000000000000000000000000001101")
    = Ok (Medium ([0; 2] ++ replicate 28 0 ++ [17; 1]))
  ∧ seed_ok (Medium ([0; 2] ++ replicate 28 0 ++ [17; 1])).
Proof.
  apply (seed_forms_agree [0; 2] [17; 1]); [repeat constructor; lia..|cbn; lia].
Defined.

Lemma addresses_round_trip_witness :
  ∃ w a, wallet_default seed1 ([] : @LedgerState m_ledger) = Ok w
    ∧ dust_address (dust w) (bytes_of_string "undeployed") = Ok a
    ∧ unshielded_try_from a = Err AddressNotUnshielded.
Proof.
  destruct (m_wallet []) as [w Hw].
  destruct (addresses_round_trip seed1 ([] : @LedgerState m_ledger) w (bytes_of_string "undeployed") Hw)
    as (a_s & a_u & a_d & _ & _ & Hd & _ & _ & _ & _ & _ & Hu & _).
  - intros c Hc. unfold credentials in Hc. rewrite !elem_of_cons, elem_of_nil in Hc.
    destruct Hc as [->|[->|[->|[]]]]; reflexivity.
  - exists w, a_d. split; [exact Hw|]. split; [exact Hd|]. apply Hu. set_solver.
Defined.
End WalletWitnesses.
