(* ===== verification/LedgerContext.v ===== *)
(** * The ledger as the toolkit replays it

    Models [ledger/helpers/src/versions/common/context.rs]: the context in which the
    toolkit keeps a ledger state and wallets, and updates them from the blocks of a
    chain; [fork/fork_aware_context.rs] and [fork/fork_7_to_8.rs]: the context of a
    chain that changes from version 7 of the ledger to version 8; and the cache of
    the state between runs ([util/toolkit/src/fetcher/wallet_state_cache.rs] and the
    context builders of [util/toolkit/src/tx_generator/builder/mod.rs]).

    The replay is compared with the block execution of a node ([LedgerBridge]), and a
    run from the cache with one from genesis, over any backend of [BlockStore]. *)

From stdpp Require Import prelude gmap strings.
From S2P Require Import Prelude Collections LedgerErrors LedgerInterface UtxoOrdering LedgerTransaction LedgerBridge.
From S2P Require Import GenesisSpec BlockStore GenesisSnapshots Wallets.

Open Scope Z_scope.

(** What the context uses of the ledger library beside [MnLedger]: well-formedness
    without the check of balances, the events that come with the result of a
    transaction, and the initial state. *)
Class ContextLib `{!MnLedger} `{!WalletLib} : Type := {
  well_formed_lax : Transaction → LedgerState → Z → MalformedTransaction + VerifiedTransaction;
  apply_events : LedgerState → VerifiedTransaction → LedgerState * BlockContext → list Event;
  system_events : LedgerState → SystemTx → Z → list Event;
  ledger_state_new : list Z → LedgerState;
}.

(** A panic reaches the caller whatever the error type. *)
Definition never {E A} (r : R A) : outcome E A :=
  match r with Ok a => Ok a | Err e => match e with end | Panic => Panic end.

Section Context.
Context `{!MnLedger} `{!WalletLib} `{!ContextLib} `{!Arena} `{!Bip}.

Inductive SerdeTransaction : Type :=
| SerdeMidnight (tx : Transaction)
| SerdeSystem (tx : SystemTx).

(** The resolver of proving keys is left out. *)
Record LedgerContext : Type := {
  ledger_state : LedgerState;
  latest_context : option BlockContext;
  wallets : gmap WalletSeed Wallet;
}.

Definition context_new (network_id : list Z) : LedgerContext :=
  {| ledger_state := ledger_state_new network_id; latest_context := None; wallets := ∅ |}.

Fixpoint insert_wallets (ledger_state : LedgerState) (seeds : list WalletSeed) (ws : gmap WalletSeed Wallet) :
    R (gmap WalletSeed Wallet) :=
  match seeds with
  | [] => Ok ws
  | seed :: seeds =>
      wallet ← wallet_default seed ledger_state;
      insert_wallets ledger_state seeds (<[seed := wallet]> ws)
  end.

Definition new_from_wallet_seeds (network_id : list Z) (wallet_seeds : list WalletSeed) : R LedgerContext :=
  let ledger_state := ledger_state_new network_id in
  wallets ← insert_wallets ledger_state wallet_seeds ∅;
  Ok {| ledger_state := ledger_state; latest_context := None; wallets := wallets |}.

(** [for wallet in wallets.values_mut()].  What a wallet becomes does not depend on
    the others, nor the result on their order. *)
Definition for_wallets (f : Wallet → R Wallet) (ws : gmap WalletSeed Wallet) : R (gmap WalletSeed Wallet) :=
  map_fold (λ k w acc, ws ← acc; w ← f w; Ok (<[k := w]> ws)) (Ok ∅) ws.

Definition successful_shielded_offers (tx : Transaction) (result : TransactionResult) : list Offer :=
  let failed_segments :=
    match result with
    | Success => Some ∅
    | Failure _ => None
    | PartialSuccess results => Some (dom (filter (λ r, is_Some r.2) results))
    end in
  match failed_segments, tx with
  | Some failed_segments, Standard stx =>
      option_list (guaranteed_coins stx)
      ++ (snd <$> filter (λ entry, entry.1 ∉ (failed_segments : gset Z)) (fallible_coins stx))
  | _, _ => []
  end.

(** [compute_state_root]: the key of the ledger with an empty block, as in the node. *)
Definition compute_state_root (state : LedgerState) : option (list Z) :=
  midnight_tagged_serialize (as_typed_key (ledger_new state)).

(** The part of [update_from_tx] on the ledger state: the new state, the offers of the
    segments that succeeded, the events and the cost. *)
Definition apply_to_ledger (ref_state : LedgerState) (tx : SerdeTransaction) (block_context : BlockContext) :
    R (LedgerState * list Offer * list Event * SyntheticCost) :=
  match tx with
  | SerdeMidnight tx =>
      let checked :=
        if bool_decide (parent_block_hash block_context = zero_hash)
        then well_formed_lax tx ref_state (tblock block_context)
        else well_formed tx ref_state (tblock block_context) in
      match checked with
      | inl _ => Panic
      | inr valid_tx =>
          cost ← unwrap (tx_cost tx (parameters ref_state));
          let tx_context := (ref_state, block_context) in
          let '(new_ledger_state, result) := ledger_apply ref_state valid_tx tx_context in
          let offers := successful_shielded_offers tx result in
          let events := apply_events ref_state valid_tx tx_context in
          match result with
          | Success | PartialSuccess _ => Ok (new_ledger_state, offers, events, cost)
          | Failure _ => Ok (new_ledger_state, offers, [], cost_zero)
          end
      end
  | SerdeSystem tx =>
      let cost := system_tx_cost tx (parameters ref_state) in
      match ledger_apply_system_tx ref_state tx (tblock block_context) with
      | inr new_state => Ok (new_state, [], system_events ref_state tx (tblock block_context), cost)
      | inl _ => Ok (ref_state, [], [], cost)
      end
  end.

Definition update_from_tx (ctx : LedgerContext) (tx : SerdeTransaction) (block_context : BlockContext) :
    R (LedgerContext * (list Event * SyntheticCost)) :=
  '(new_ledger_state, offers, events, cost) ← apply_to_ledger (ledger_state ctx) tx block_context;
  wallets ← for_wallets (λ wallet, update_state_from_offers wallet offers) (wallets ctx);
  Ok ({| ledger_state := new_ledger_state; latest_context := latest_context ctx; wallets := wallets |},
      (events, cost)).

(** [update_dust_from_tx(..).unwrap_or_else(|e| panic!(..))]. *)
Definition replay_dust (events : list Event) (wallet : Wallet) : R Wallet :=
  match update_dust_from_tx wallet events with Ok wallet => Ok wallet | _ => Panic end.

Fixpoint update_from_txs (ctx : LedgerContext) (total_cost : SyntheticCost) (txs : list SerdeTransaction)
    (block_context : BlockContext) : R (LedgerContext * SyntheticCost) :=
  match txs with
  | [] => Ok (ctx, total_cost)
  | tx :: txs =>
      '(ctx, (events, cost)) ← update_from_tx ctx tx block_context;
      wallets ← for_wallets (replay_dust events) (wallets ctx);
      update_from_txs
        {| ledger_state := ledger_state ctx; latest_context := latest_context ctx; wallets := wallets |}
        (cost_add total_cost cost) txs block_context
  end.

(** The end of [update_ledger_state_from_txs]: the block is done. *)
Definition post_block (state : LedgerState) (total_cost : SyntheticCost) (block_context : BlockContext) :
    R LedgerState :=
  match clamp_and_normalize total_cost (block_limits (parameters state)) with
  | Ok normalized_fullness =>
      unwrap (ledger_post_block_update state (tblock block_context) normalized_fullness
        (compute_overall_fullness normalized_fullness))
  | _ => Panic
  end.

Definition update_ledger_state_from_txs (ctx : LedgerContext) (txs : list SerdeTransaction)
    (block_context : BlockContext) : R LedgerContext :=
  '(ctx, total_cost) ← update_from_txs ctx cost_zero txs block_context;
  state ← post_block (ledger_state ctx) total_cost block_context;
  Ok {| ledger_state := state; latest_context := latest_context ctx; wallets := wallets ctx |}.

Definition update_ledger_state_from_bytes (ctx : LedgerContext) (state : list Z) : R LedgerContext :=
  new_state ← unwrap (midnight_tagged_deserialize state);
  Ok {| ledger_state := new_state; latest_context := latest_context ctx; wallets := wallets ctx |}.

(** A root that differs from the expected one is a panic; one that cannot be computed
    is only reported. *)
Definition check_root (state : LedgerState) (state_root : option (list Z)) : R unit :=
  match state_root with
  | None => Ok tt
  | Some expected_root =>
      match compute_state_root state with
      | Some actual_root => if bool_decide (actual_root = expected_root) then Ok tt else Panic
      | None => Ok tt
      end
  end.

Definition update_from_block (ctx : LedgerContext) (txs : list SerdeTransaction) (block_context : BlockContext)
    (state_root state : option (list Z)) : R LedgerContext :=
  ctx ← update_ledger_state_from_txs ctx txs block_context;
  ctx ← match state with Some state => update_ledger_state_from_bytes ctx state | None => Ok ctx end;
  _ ← check_root (ledger_state ctx) state_root;
  wallets ← for_wallets (λ wallet, Ok (update_dust_from_block wallet block_context)) (wallets ctx);
  Ok {| ledger_state := ledger_state ctx; latest_context := Some block_context; wallets := wallets |}.

(** [make_block_context] of version 8. *)
Definition make_block_context (tblock : Z) (parent_block_hash : list Z) (last_block_time : Z) : BlockContext :=
  {| tblock := tblock; tblock_err := 30; parent_block_hash := parent_block_hash;
     last_block_time := last_block_time |}.

(** [latest_block_context()]; before the first block, the time of the clock. *)
Definition latest_block_context (now : Z) (ctx : LedgerContext) : BlockContext :=
  default (make_block_context now zero_hash 0) (latest_context ctx).

(** [wallet_for_seed] and its callers: an unknown seed is a panic. *)
Definition with_wallet_from_seed {A} (ctx : LedgerContext) (seed : WalletSeed) (f : Wallet → R (Wallet * A)) :
    R (LedgerContext * A) :=
  wallet ← unwrap (wallets ctx !! seed);
  '(wallet, a) ← f wallet;
  Ok ({| ledger_state := ledger_state ctx; latest_context := latest_context ctx;
         wallets := <[seed := wallet]> (wallets ctx) |}, a).

(** The outputs of an address; in which order the library's map lists them is not
    modelled. *)
Definition context_utxos (ctx : LedgerContext) (address : WalletAddress) : list Utxo :=
  filter (λ utxo, owner utxo = data address) (elements (utxos (ledger_state ctx))).

End Context.

(** ** The replay of a block, ledger and wallets apart *)

(** Code that only panics can be reordered. *)
Lemma R_bind_comm {A B C} (a : R A) (b : R B) (k : A → B → R C) :
  (x ← a; y ← b; k x y) = (y ← b; x ← a; k x y).
Proof. by destruct a as [?|[]|], b as [?|[]|]. Qed.
Lemma R_bind_assoc {A B C} (a : R A) (f : A → R B) (g : B → R C) :
  (y ← (x ← a; f x); g y) = (x ← a; y ← f x; g y).
Proof. by destruct a. Qed.
Lemma R_bind_ext {A B} (a : R A) (f g : A → R B) : (∀ x, f x = g x) → (x ← a; f x) = (x ← a; g x).
Proof. intros Hfg. by destruct a; cbn. Qed.
Lemma R_bind_ok {A B} (a : R A) (f : A → R B) r : (x ← a; f x) = Ok r ↔ ∃ x, a = Ok x ∧ f x = Ok r.
Proof. destruct a as [x|[]|]; cbn; naive_solver. Qed.

Section Replay.
Context `{!MnLedger} `{!WalletLib} `{!ContextLib} `{!Arena} `{!Bip}.

Lemma for_wallets_empty f : for_wallets f ∅ = Ok ∅.
Proof. apply map_fold_empty. Qed.

Lemma for_wallets_insert f k w ws : ws !! k = None →
  for_wallets f (<[k := w]> ws) = (ws' ← for_wallets f ws; w' ← f w; Ok (<[k := w']> ws')).
Proof.
  intros Hk. unfold for_wallets. rewrite map_fold_insert_L; [done| |done].
  intros j1 j2 z1 z2 y Hne _ _. destruct y as [m|[]|]; [|done]. cbn.
  destruct (f z1) as [w1|[]|], (f z2) as [w2|[]|]; try done. cbn. by rewrite insert_insert_ne.
Qed.

(** The wallets that come out, and when they do. *)
Lemma for_wallets_spec f ws ws' :
  for_wallets f ws = Ok ws' ↔ ∀ k, match ws !! k with
                                   | Some w => ∃ w', f w = Ok w' ∧ ws' !! k = Some w'
                                   | None => ws' !! k = None
                                   end.
Proof.
  revert ws'. induction ws as [|k w ws Hk IH] using map_ind; intros ws'.
  { rewrite for_wallets_empty. split; [intros [= <-] k; by rewrite !lookup_empty|].
    intros Hws. f_equal. symmetry. apply map_eq. intros k. specialize (Hws k). rewrite lookup_empty in *. done. }
  rewrite for_wallets_insert by done. rewrite R_bind_ok. setoid_rewrite IH. split.
  - intros (m & Hm & (w' & Hw & [= <-])%R_bind_ok) j. destruct (decide (j = k)) as [->|Hne].
    + rewrite !lookup_insert_eq. eauto.
    + rewrite !lookup_insert_ne by done. apply Hm.
  - intros Hws. pose proof (Hws k) as Hkw. rewrite lookup_insert_eq in Hkw. destruct Hkw as (w' & Hw & Hk').
    exists (delete k ws'). split.
    + intros j. destruct (decide (j = k)) as [->|Hne]; [by rewrite Hk, lookup_delete_eq|].
      specialize (Hws j). rewrite lookup_insert_ne in Hws by done. by rewrite lookup_delete_ne.
    + rewrite Hw. cbn. f_equal. by apply insert_delete_id.
Qed.

Lemma for_wallets_compose f g ws :
  (ws' ← for_wallets f ws; for_wallets g ws') = for_wallets (λ w, w' ← f w; g w') ws.
Proof.
  induction ws as [|k w ws Hk IH] using map_ind; [by rewrite !for_wallets_empty|].
  rewrite !for_wallets_insert, <-IH, !R_bind_assoc by done.
  destruct (for_wallets f ws) as [m|[]|] eqn:Hm; [cbn|done].
  assert (m !! k = None) as Hmk by (apply for_wallets_spec with (k := k) in Hm; by rewrite Hk in Hm).
  destruct (f w) as [w1|[]|]; cbn.
  - by rewrite for_wallets_insert by done.
  - by destruct (for_wallets g m) as [?|[]|].
Qed.

Lemma for_wallets_id ws : for_wallets Ok ws = Ok ws.
Proof. apply for_wallets_spec. intros k. destruct (ws !! k); eauto. Qed.

Lemma for_wallets_ext f g ws : (∀ w, f w = g w) → for_wallets f ws = for_wallets g ws.
Proof.
  intros Hfg. induction ws as [|k w ws Hk IH] using map_ind; [done|].
  by rewrite !for_wallets_insert, IH, Hfg by done.
Qed.

(** The ledger alone: what the transactions of a block leave, and what they hand to
    the wallets. *)
Definition Trace : Type := list (list Offer * list Event).
Fixpoint ledger_txs (s : LedgerState) (total : SyntheticCost) (txs : list SerdeTransaction) (c : BlockContext) :
    R (LedgerState * SyntheticCost * Trace) :=
  match txs with
  | [] => Ok (s, total, [])
  | tx :: txs =>
      '(s, offers, events, cost) ← apply_to_ledger s tx c;
      '(s, total, trace) ← ledger_txs s (cost_add total cost) txs c;
      Ok (s, total, (offers, events) :: trace)
  end.
Definition ledger_block (s : LedgerState) (txs : list SerdeTransaction) (c : BlockContext)
    (state_root state : option (list Z)) : R (LedgerState * Trace) :=
  '(s, total, trace) ← ledger_txs s cost_zero txs c;
  s ← post_block s total c;
  s ← match state with Some bytes => unwrap (midnight_tagged_deserialize bytes) | None => Ok s end;
  _ ← check_root s state_root;
  Ok (s, trace).

(** One wallet. *)
Fixpoint wallet_txs (trace : Trace) (w : Wallet) : R Wallet :=
  match trace with
  | [] => Ok w
  | (offers, events) :: trace =>
      w ← update_state_from_offers w offers;
      w ← replay_dust events w;
      wallet_txs trace w
  end.
Definition wallet_block (trace : Trace) (c : BlockContext) (w : Wallet) : R Wallet :=
  w ← wallet_txs trace w;
  Ok (update_dust_from_block w c).

Lemma update_from_txs_eq txs : ∀ ctx total c,
  update_from_txs ctx total txs c
  = ('(s, total, trace) ← ledger_txs (ledger_state ctx) total txs c;
     ws ← for_wallets (wallet_txs trace) (wallets ctx);
     Ok ({| ledger_state := s; latest_context := latest_context ctx; wallets := ws |}, total)).
Proof.
  induction txs as [|tx txs IH]; intros ctx total c; cbn [update_from_txs ledger_txs].
  { cbn. rewrite (for_wallets_ext (wallet_txs []) Ok) by done. rewrite for_wallets_id. by destruct ctx. }
  unfold update_from_tx. rewrite !R_bind_assoc. apply R_bind_ext. intros [[[s offers] events] cost].
  rewrite !R_bind_assoc.
  etransitivity; [apply R_bind_ext; intros ws; cbn [mbind outcome_bind]; apply R_bind_ext; intros ws';
                  apply IH|].
  cbn [ledger_state latest_context wallets].
  destruct (ledger_txs s (cost_add total cost) txs c) as [[[s' total'] trace]|[]|]; cbn.
  - rewrite <-(for_wallets_compose (λ w, update_state_from_offers w offers)
                 (λ w, w ← replay_dust events w; wallet_txs trace w)).
    rewrite R_bind_assoc. apply R_bind_ext. intros ws.
    by rewrite <-(for_wallets_compose (replay_dust events) (wallet_txs trace)), R_bind_assoc.
  - destruct (for_wallets _ (wallets ctx)) as [ws|[]|]; [cbn|done].
    by destruct (for_wallets _ ws) as [?|[]|].
Qed.

Lemma update_from_block_eq ctx txs c state_root state :
  update_from_block ctx txs c state_root state
  = ('(s, trace) ← ledger_block (ledger_state ctx) txs c state_root state;
     ws ← for_wallets (wallet_block trace c) (wallets ctx);
     Ok {| ledger_state := s; latest_context := Some c; wallets := ws |}).
Proof.
  unfold update_from_block, update_ledger_state_from_txs, ledger_block, update_ledger_state_from_bytes.
  rewrite update_from_txs_eq, !R_bind_assoc. apply R_bind_ext. intros [[s total] trace].
  rewrite !R_bind_assoc.
  assert (for_wallets (wallet_block trace c) (wallets ctx)
    = (ws ← for_wallets (wallet_txs trace) (wallets ctx);
       for_wallets (λ w, Ok (update_dust_from_block w c)) ws)) as Hws by (symmetry; apply for_wallets_compose).
  destruct (for_wallets (wallet_txs trace) (wallets ctx)) as [ws|[]|]; cbn [mbind outcome_bind ledger_state wallets latest_context] in *;
    (destruct (post_block s total c) as [s1|[]|]; [cbn|done]);
    (destruct state as [bytes|]; [destruct (midnight_tagged_deserialize bytes) as [s2|]; [|done]|]; cbn);
    (destruct (check_root _ state_root) as [[]|[]|]; [|done]); cbn; by rewrite Hws.
Qed.
End Replay.

(** ** The node's execution of a block *)

(** [tagged_deserialize(..).expect(..)] of the transactions of a block. *)
Definition decode_tx `{!MnLedger} (raw : RawTransaction) : R SerdeTransaction :=
  match raw with
  | Raw_Midnight bytes => tx ← unwrap (midnight_tagged_deserialize bytes); Ok (SerdeMidnight tx)
  | Raw_System bytes => tx ← unwrap (midnight_tagged_deserialize bytes); Ok (SerdeSystem tx)
  end.
Fixpoint decode_txs `{!MnLedger} (raws : list RawTransaction) : R (list SerdeTransaction) :=
  match raws with
  | [] => Ok []
  | raw :: raws => tx ← decode_tx raw; txs ← decode_txs raws; Ok (tx :: txs)
  end.

Section Node.
Context `{!MnLedger} `{!WalletLib} `{!ContextLib} `{!Arena} `{!ArenaLaws} `{!Twox} `{!Bip} (W : Files).

(** What else a node does with its host meanwhile: calls for the pool, for other blocks
    and other forks, and evictions from its caches. *)
Inductive host_moves : Log → Host → Log → Host → Prop :=
| moves_done log h : host_moves log h log h
| moves_call log h call log' h' :
    host_moves (log_call call h :: log) (run_call W call h) log' h' → host_moves log h log' h'
| moves_evict log h h1 log' h' : evicts h h1 → host_moves log h1 log' h' → host_moves log h log' h'.

(** The host functions that the runtime calls for the transactions of a block, all of
    which it applies, on a host with the log of its calls; the key of the state before
    and after them.  The cache of verifications has nothing wrong on a transaction. *)
Inductive node_txs (c : BlockContext) (rv : Z) :
    list RawTransaction → list Z → Log → Host → list Z → Log → Host → Prop :=
| node_done key log h : node_txs c rv [] key log h key log h
| node_other txs key log h log1 h1 key' log' h' :
    host_moves log h log1 h1 → node_txs c rv txs key log1 h1 key' log' h' →
    node_txs c rv txs key log h key' log' h'
| node_midnight b txs key log h ev h1 key' log' h' :
    cache_agrees log h key b c rv → apply_transaction W key b c true rv h = (Ok ev, h1) →
    node_txs c rv txs (state_root ev) (log_call (CallApply key b c true rv) h :: log) h1 key' log' h' →
    node_txs c rv (Raw_Midnight b :: txs) key log h key' log' h'
| node_system b txs key log h ev h1 key' log' h' :
    apply_system_transaction key b c h = (Ok ev, h1) →
    node_txs c rv txs (sys_state_root ev) (log_call (CallApplySystem key b c) h :: log) h1 key' log' h' →
    node_txs c rv (Raw_System b :: txs) key log h key' log' h'.

(** A block, with the update at its end. *)
Definition node_block (c : BlockContext) (rv : Z) (txs : list RawTransaction) (key : list Z) (log : Log) (h : Host)
    (root : list Z) (log' : Log) (h' : Host) : Prop :=
  ∃ key1 log1 h1, node_txs c rv txs key log h key1 log1 h1 ∧ post_block_update key1 c h1 = (Ok root, h')
    ∧ log' = log_call (CallPostBlock key1 c) h1 :: log1.

Lemma host_moves_reach log h log' h' : host_moves log h log' h' → host_reach W log h → host_reach W log' h'.
Proof. induction 1; eauto using @host_reach. Qed.
Lemma evicts_grows h h' : evicts h h' → storage_grows h h'.
Proof. intros (_ & _ & Hs & _) k l. by rewrite Hs. Qed.
Lemma host_moves_loads log h log' h' key l :
  host_moves log h log' h' → (get_ledger key h).1 = Ok l → (get_ledger key h').1 = Ok l.
Proof.
  induction 1 as [|log h call log' h' _ IH|log h h1 log' h' He _ IH]; intros Hl; [done|..]; apply IH.
  - eapply get_ledger_grows; [by apply run_call_grows|done].
  - eapply get_ledger_grows; [by apply evicts_grows|done].
Qed.
(** A transaction that a node applies through its cache is well formed at the time of
    the block. *)
Lemma apply_cached_effects log key b c skip rv h ev h' :
  host_reach W log h → cache_agrees log h key b c rv →
  apply_transaction W key b c skip rv h = (Ok ev, h') →
  ∃ (tx : Transaction) l vt cost res l',
    midnight_tagged_deserialize b = Some tx ∧ (get_ledger key h).1 = Ok l
    ∧ well_formed tx (state l) (tblock c) = inr vt
    ∧ tx_cost tx (parameters (state l)) = Some cost
    ∧ ledger_apply (state l) vt (state l, c) = (state l', res)
    ∧ block_fullness l' = cost_add cost (block_fullness l)
    ∧ (∀ reason, res ≠ Failure reason)
    ∧ storage h' = persist l' (storage h)
    ∧ midnight_tagged_serialize (as_typed_key l') = Some (state_root ev).
Proof.
  intros Hreach Hagree Happ. unfold apply_transaction in Happ.
  destruct (apply_with_outcome W get_verified_transaction key b c skip rv h) as [Hout Hst].
  { intros ? ? ? ?. apply get_verified_keeps_storage. }
  rewrite Happ, (prepare_cached_uncached W log h key b c skip rv Hreach Hagree) in Hout, Hst. cbn in Hout, Hst.
  destruct (prepare_transaction W verify_uncached key b c skip rv h) as [[[l' ev']|e|] h1] eqn:Hp;
    cbn in Hout, Hst; [|done..]. injection Hout as <-.
  unfold prepare_transaction in Hp. apply M_bind_ok in Hp as (tx & ? & Hd & Hp).
  unfold lift, tagged_deserialize in Hd.
  destruct (midnight_tagged_deserialize b) as [tx0|] eqn:Hb; [|done]. cbn in Hd. injection Hd as <- <-.
  apply M_bind_ok in Hp as (l & h2 & Hl & Hp). apply M_bind_ok in Hp as ([] & h3 & _ & Hp).
  apply M_bind_ok in Hp as (vt & h4 & Hv & Hp). unfold verify_uncached, lift in Hv. injection Hv as Hv _.
  rewrite verify_fresh_eq in Hv. destruct (block_context_try_from c) as [c0|]; [|done].
  destruct (well_formed tx0 (state l) (tblock c)) as [|vt0] eqn:Hwf; [done|]. injection Hv as ->.
  apply finish_ok_inv in Hp as (cost & res & Hcost & Hla & Hfull & Hfail & _ & Hroot & _).
  exists tx0, l, vt, cost, res, l'. split_and!; try done. by rewrite Hl.
Qed.

Context (cost_add_comm : ∀ a b : SyntheticCost, cost_add a b = cost_add b a).

Lemma node_txs_replay c rv raws key log h key' log' h' l :
  node_txs c rv raws key log h key' log' h' → host_reach W log h →
  (get_ledger key h).1 = Ok l → parent_block_hash c ≠ zero_hash →
  ∃ txs l' trace, decode_txs raws = Ok txs
    ∧ ledger_txs (state l) (block_fullness l) txs c = Ok (state l', block_fullness l', trace)
    ∧ (get_ledger key' h').1 = Ok l' ∧ host_reach W log' h'.
Proof.
  intros Hrun. revert l. induction Hrun as [key log h|raws key log h log1 h1 key' log' h' Hm _ IH
    |b raws key log h ev h1 key' log' h' Hag Happ _ IH|b raws key log h ev h1 key' log' h' Happ _ IH];
    intros l Hreach Hl Hp.
  - by exists [], l, [].
  - apply IH; [by eapply host_moves_reach|by eapply host_moves_loads|done].
  - pose proof (reach_call W log h (CallApply key b c true rv) Hreach) as Hreach1. cbn [run_call] in Hreach1.
    rewrite Happ in Hreach1. apply (apply_cached_effects log) in Happ
      as (tx & l0 & vt & cost & res & l1 & Hb & Hl0 & Hwf & Hcost & Hla & Hfull & Hfail & Hst & Hroot); [|done..].
    assert (l0 = l) as -> by congruence.
    destruct (IH l1 Hreach1 (persisted_loads l1 h h1 _ Hst Hroot) Hp) as (txs & l' & trace & Hd & Hr & Hl' & Hreach').
    assert (∃ tr, ledger_txs (state l) (block_fullness l) (SerdeMidnight tx :: txs) c
                  = Ok (state l', block_fullness l', tr)) as [tr Htr].
    { cbn. rewrite bool_decide_false, Hwf, Hcost by done. cbn. rewrite Hla.
      destruct res as [|segs|reason]; [..|by destruct (Hfail reason)]; cbn;
        rewrite (cost_add_comm (block_fullness l) cost), <-Hfull, Hr; eexists; reflexivity. }
    exists (SerdeMidnight tx :: txs), l', tr. split_and!; [cbn; by rewrite Hb, Hd|done..].
  - pose proof (reach_call W log h (CallApplySystem key b c) Hreach) as Hreach1. cbn [run_call] in Hreach1.
    rewrite Happ in Hreach1. apply system_storage in Happ as (tx & l0 & l1 & Hb & Hl0 & Hla & Hst & Hroot & _).
    assert (l0 = l) as -> by congruence. unfold tagged_deserialize in Hb.
    destruct (midnight_tagged_deserialize b) as [tx0|] eqn:Hb0; [|done]. injection Hb as ->.
    destruct (IH l1 Hreach1 (persisted_loads l1 h h1 _ Hst Hroot) Hp) as (txs & l' & trace & Hd & Hr & Hl' & Hreach').
    unfold ledger_apply_system in Hla.
    destruct (ledger_apply_system_tx (state l) tx (tblock c)) as [e|s1] eqn:Hs; [done|]. injection Hla as <-.
    eexists (SerdeSystem tx :: txs), l', _. split_and!; [|cbn|done..].
    + cbn. by rewrite Hb0, Hd.
    + rewrite Hs. cbn. cbn in Hr. by rewrite cost_add_comm, Hr.
Qed.

Lemma post_block_replay l c l' : ledger_post_block l c = Ok l' →
  post_block (state l) (block_fullness l) c = Ok (state l') ∧ l' = ledger_new (state l').
Proof.
  unfold ledger_post_block, post_block.
  destruct (clamp_and_normalize (block_fullness l) _) as [n|e|]; [|done..]. cbn.
  destruct (ledger_post_block_update _ _ _ _) as [s|]; [|done]. cbn. by intros [= <-].
Qed.

(** The ledger side of a block: the replay ends in the node's state and accepts its root. *)
Lemma node_block_replay c rv raws key log h root log' h' s :
  node_block c rv raws key log h root log' h' → host_reach W log h →
  (get_ledger key h).1 = Ok (ledger_new s) → parent_block_hash c ≠ zero_hash →
  ∃ txs s' trace, decode_txs raws = Ok txs
    ∧ ledger_block s txs c (Some root) None = Ok (s', trace)
    ∧ (get_ledger root h').1 = Ok (ledger_new s') ∧ host_reach W log' h'.
Proof.
  intros (key1 & log1 & h1 & Hrun & Hpost & ->) Hreach Hl Hp.
  destruct (node_txs_replay c rv raws key log h key1 log1 h1 _ Hrun Hreach Hl Hp)
    as (txs & l1 & trace & Hd & Hr & Hl1 & Hreach1).
  pose proof (reach_call W log1 h1 (CallPostBlock key1 c) Hreach1) as Hreach2. cbn [run_call] in Hreach2.
  rewrite Hpost in Hreach2. apply post_block_storage in Hpost as (l1' & l2 & Hl1' & Hpb & Hst & Hroot).
  assert (l1' = l1) as -> by congruence. destruct (post_block_replay _ _ _ Hpb) as [Hpb' Hnew].
  exists txs, (state l2), trace. split_and!; [done| | |done].
  - unfold ledger_block. cbn in Hr. rewrite Hr. cbn. rewrite Hpb'. cbn.
    unfold check_root, compute_state_root. rewrite <-Hnew, Hroot, bool_decide_true by done. done.
  - rewrite <-Hnew. by eapply persisted_loads.
Qed.
End Node.

(** ** Two versions of the ledger: [fork/fork_7_to_8.rs], [fork/fork_aware_context.rs] *)

(** The values of version 7 read with the types of version 8: [old_to_new_sp] through
    the arena, [old_to_new_ser] through the format.  Both may fail. *)
Class ForkLib (L7 L8 : MnLedger) (W7 : @WalletLib L7) (W8 : @WalletLib L8) : Type := {
  state_7_to_8 : @LedgerState L7 → option (@LedgerState L8);
  wallet_state_7_to_8 : @WalletState L7 W7 → option (@WalletState L8 W8);
  coin_public_key_7_to_8 : list Z → option (list Z);
  enc_public_key_7_to_8 : @EncryptionPublicKey L7 W7 → option (@EncryptionPublicKey L8 W8);
  secret_keys_7_to_8 : @SecretKeys L7 W7 → option (@SecretKeys L8 W8);
  unshielded_7_to_8 : @UnshieldedWallet L7 W7 → option (@UnshieldedWallet L8 W8);
  dust_7_to_8 : @DustWallet L7 W7 → option (@DustWallet L8 W8);
  seed_7_to_8 : WalletSeed → option WalletSeed;
}.

Section Fork.
Context {L7 L8 : MnLedger} {W7 : @WalletLib L7} {W8 : @WalletLib L8} `{!ForkLib L7 L8 W7 W8}.
Context {C7 : @ContextLib L7 W7} {C8 : @ContextLib L8 W8} {A7 : @Arena L7} {A8 : @Arena L8} `{!Bip}.
Notation LedgerContext7 := (@LedgerContext L7 W7).
Notation LedgerContext8 := (@LedgerContext L8 W8).
Notation Wallet7 := (@Wallet L7 W7).
Notation Wallet8 := (@Wallet L8 W8).

(** Version 7 has no time of the last block: it is kept as zero. *)
Definition make_block_context_7 (tblock : Z) (parent_block_hash : list Z) (_last_block_time : Z) : BlockContext :=
  {| tblock := tblock; tblock_err := 30; parent_block_hash := parent_block_hash; last_block_time := 0 |}.
Definition latest_block_context_7 (now : Z) (ctx : LedgerContext7) : BlockContext :=
  default (make_block_context_7 now zero_hash 0) (latest_context ctx).
Definition block_context_7_to_8 (ctx7 : BlockContext) : BlockContext :=
  {| tblock := tblock ctx7; tblock_err := tblock_err ctx7; parent_block_hash := parent_block_hash ctx7;
     last_block_time := tblock ctx7 |}.

Inductive IoError : Type := io_error.

(** [Option::transpose] of a conversion that may fail. *)
Definition convert_option {A B} (f : A → option B) (o : option A) : outcome IoError (option B) :=
  match o with
  | None => Ok None
  | Some a => b ← ok_or (f a) io_error; Ok (Some b)
  end.

Definition fork_wallet (v : Wallet7) : outcome IoError Wallet8 :=
  seed ← match root_seed v with
         | None => Ok None
         | Some s => match seed_try_from (as_bytes s) with Ok s => Ok (Some s) | _ => Panic end
         end;
  state ← ok_or (wallet_state_7_to_8 (shielded_state (shielded v))) io_error;
  coin ← ok_or (coin_public_key_7_to_8 (coin_public_key (shielded v))) io_error;
  enc ← ok_or (enc_public_key_7_to_8 (enc_public_key (shielded v))) io_error;
  new_secret_keys ← convert_option secret_keys_7_to_8 (secret_keys (shielded v));
  unshielded ← ok_or (unshielded_7_to_8 (unshielded v)) io_error;
  dust ← ok_or (dust_7_to_8 (dust v)) io_error;
  Ok {| root_seed := seed;
        shielded := {| shielded_state := state; coin_public_key := coin; enc_public_key := enc;
                       secret_keys := new_secret_keys |};
        unshielded := unshielded; dust := dust |}.

Fixpoint fork_wallets (l : list (WalletSeed * Wallet7)) (ws : gmap WalletSeed Wallet8) :
    outcome IoError (gmap WalletSeed Wallet8) :=
  match l with
  | [] => Ok ws
  | (k, v) :: l =>
      new_wallet ← fork_wallet v;
      new_key ← ok_or (seed_7_to_8 k) io_error;
      fork_wallets l (<[new_key := new_wallet]> ws)
  end.

Definition fork_context_7_to_8 (now : Z) (context7 : LedgerContext7) : outcome IoError LedgerContext8 :=
  ledger_state ← ok_or (state_7_to_8 (ledger_state context7)) io_error;
  wallets ← fork_wallets (map_to_list (wallets context7)) ∅;
  let latest := block_context_7_to_8 (latest_block_context_7 now context7) in
  Ok {| ledger_state := ledger_state; latest_context := Some latest; wallets := wallets |}.

Inductive ForkAwareLedgerContext : Type :=
| Fork7 (ctx : LedgerContext7)
| Fork8 (ctx : LedgerContext8).

Definition fork_new_from_wallet_seeds (version : LedgerVersion) (network_id : list Z) (seeds : list WalletSeed) :
    R ForkAwareLedgerContext :=
  match version with
  | Ledger7 =>
      seeds_7 ← (fix convert l := match l with
                   | [] => Ok []
                   | s :: l =>
                       s ← match seed_try_from (as_bytes s) with Ok s => Ok s | _ => Panic end;
                       l ← convert l; Ok (s :: l)
                   end) seeds;
      ctx ← new_from_wallet_seeds network_id seeds_7;
      Ok (Fork7 ctx)
  | Ledger8 =>
      ctx ← new_from_wallet_seeds network_id seeds;
      Ok (Fork8 ctx)
  end.

Definition version (self : ForkAwareLedgerContext) : LedgerVersion :=
  match self with Fork7 _ => Ledger7 | Fork8 _ => Ledger8 end.

Definition update_context_7 (ctx : LedgerContext7) (block : RawBlockData) : R LedgerContext7 :=
  transactions ← decode_txs (rb_transactions block);
  let block_context := make_block_context_7 (rb_tblock_secs block) (rb_parent_block_hash block)
    (rb_last_block_time_secs block) in
  update_from_block ctx transactions block_context (rb_state_root block) (rb_state block).
Definition update_context_8 (ctx : LedgerContext8) (block : RawBlockData) : R LedgerContext8 :=
  transactions ← decode_txs (rb_transactions block);
  let block_context := make_block_context (rb_tblock_secs block) (rb_parent_block_hash block)
    (rb_last_block_time_secs block) in
  update_from_block ctx transactions block_context (rb_state_root block) (rb_state block).

Definition next_fork (now : Z) (self : ForkAwareLedgerContext) : R ForkAwareLedgerContext :=
  match self with
  | Fork7 ctx7 => match fork_context_7_to_8 now ctx7 with Ok ctx8 => Ok (Fork8 ctx8) | _ => Panic end
  | Fork8 _ => Panic
  end.

Definition fork_update_from_block (now : Z) (self : ForkAwareLedgerContext) (block : RawBlockData) :
    R ForkAwareLedgerContext :=
  self ← (if bool_decide (version self = Ledger7 ∧ rb_ledger_version block = Ledger8)
          then next_fork now self else Ok self);
  match self with
  | Fork7 ctx => ctx ← update_context_7 ctx block; Ok (Fork7 ctx)
  | Fork8 ctx => ctx ← update_context_8 ctx block; Ok (Fork8 ctx)
  end.

Definition into_ledger8 (self : ForkAwareLedgerContext) : option LedgerContext8 :=
  match self with Fork8 ctx => Some ctx | Fork7 _ => None end.

(** ** The context builders: [tx_generator/builder/mod.rs] *)

Fixpoint replay_blocks (now : Z) (ctx : ForkAwareLedgerContext) (blocks : list RawBlockData) :
    R ForkAwareLedgerContext :=
  match blocks with
  | [] => Ok ctx
  | block :: blocks => ctx ← fork_update_from_block now ctx block; replay_blocks now ctx blocks
  end.

(** The version of a context for these blocks. *)
Definition initial_version (blocks : list RawBlockData) : LedgerVersion :=
  default Ledger8 (rb_ledger_version <$> head blocks).

Record SourceTransactions : Type := { src_blocks : list RawBlockData; src_network_id : list Z }.

Definition build_fork_aware_context_raw (now : Z) (received_tx : SourceTransactions)
    (wallet_seeds : list WalletSeed) : R ForkAwareLedgerContext :=
  ctx ← fork_new_from_wallet_seeds (initial_version (src_blocks received_tx)) (src_network_id received_tx)
          wallet_seeds;
  replay_blocks now ctx (src_blocks received_tx).

Inductive ContextNotLedger8Error : Type := NotLedger8 (final_version : LedgerVersion).

Definition build_fork_aware_context (now : Z) (received_tx : SourceTransactions) (wallet_seeds : list WalletSeed) :
    outcome ContextNotLedger8Error LedgerContext8 :=
  ctx ← never (build_fork_aware_context_raw now received_tx wallet_seeds);
  ok_or (into_ledger8 ctx) (NotLedger8 (version ctx)).
End Fork.

(** ** The cache of the state: [fetcher/wallet_state_cache.rs] *)

Class Sha256 : Type := sha_256 : list Z → list Z.

Definition CACHE_VERSION : list Z := bytes_of_string "wallet-state-cache-v1".

Inductive CacheError : Type :=
| SerializeLedgerState
| DeserializeLedgerState
| VersionMismatch (expected actual : list Z)
| ChainIdMismatch (expected actual : list Z)
| StateRootMismatch.

(** [From<&BlockContext>] and back. *)
Definition serializable_context (ctx : BlockContext) : SerializableBlockContext :=
  {| sc_tblock_secs := tblock ctx; sc_tblock_err := tblock_err ctx;
     sc_parent_block_hash := parent_block_hash ctx; sc_last_block_time := last_block_time ctx |}.
Definition restored_context (c : SerializableBlockContext) : BlockContext :=
  {| tblock := sc_tblock_secs c; tblock_err := wrap 32 (sc_tblock_err c);
     parent_block_hash := sc_parent_block_hash c; last_block_time := sc_last_block_time c |}.

Section Cache.
Context {L8 : MnLedger} {W8 : @WalletLib L8} {C8 : @ContextLib L8 W8} `{!Bip} `{!Sha256}.

Definition hash_seed (seed : WalletSeed) : list Z := sha_256 (as_bytes seed).
Definition cache_state_root (ledger_state_bytes : list Z) : list Z := sha_256 ledger_state_bytes.

(** Of the wallets only the hashes of their seeds are kept. *)
Definition create_cache_from_context (now : Z) (context : LedgerContext) (chain_id wallet_id : list Z)
    (block_height : Z) : outcome CacheError WalletStateCache :=
  ledger_state_bytes ← ok_or (midnight_tagged_serialize (ledger_state context)) SerializeLedgerState;
  let state_root := Some (cache_state_root ledger_state_bytes) in
  let wallet_snapshots := (λ kw, {| seed_hash := hash_seed kw.1; shielded_state_bytes := [];
                                    dust_local_state_bytes := None |}) <$> map_to_list (wallets context) in
  let latest := latest_block_context now context in
  Ok {| wc_chain_id := chain_id; wc_wallet_id := wallet_id; wc_block_height := block_height;
        wc_ledger_state_bytes := ledger_state_bytes; wc_wallet_snapshots := wallet_snapshots;
        wc_latest_block_context := serializable_context latest; wc_state_root := state_root;
        wc_version := CACHE_VERSION |}.

Definition restore_context_from_cache (cache : WalletStateCache) (wallet_seeds : list WalletSeed)
    (expected_chain_id : list Z) : outcome CacheError (LedgerContext * Z) :=
  if bool_decide (wc_version cache ≠ CACHE_VERSION) then Err (VersionMismatch CACHE_VERSION (wc_version cache)) else
  if bool_decide (wc_chain_id cache ≠ expected_chain_id)
  then Err (ChainIdMismatch expected_chain_id (wc_chain_id cache)) else
  _ ← match wc_state_root cache with
      | Some cached_root =>
          if bool_decide (cached_root = cache_state_root (wc_ledger_state_bytes cache)) then Ok tt
          else Err StateRootMismatch
      | None => Ok tt
      end;
  ledger_state ← ok_or (midnight_tagged_deserialize (wc_ledger_state_bytes cache)) DeserializeLedgerState;
  wallets ← never (insert_wallets ledger_state wallet_seeds ∅);
  Ok ({| ledger_state := ledger_state; latest_context := Some (restored_context (wc_latest_block_context cache));
         wallets := wallets |}, wc_block_height cache).

Definition compute_wallet_id_for_seeds (seeds : list WalletSeed) (network_id : list Z) : list Z :=
  sha_256 (network_id ++ concat (as_bytes <$> seeds)).

Context {S : Type} `{!FetchStorage S}.

Definition save_context_to_cache {E} (now : Z) (context : LedgerContext) (chain_id wallet_id : list Z)
    (block_height : Z) : M S E unit :=
  match create_cache_from_context now context chain_id wallet_id block_height with
  | Ok cache => set_wallet_state chain_id wallet_id cache
  | Err _ => mret tt
  | Panic => panic
  end.

Context {L7 : MnLedger} {W7 : @WalletLib L7} `{!ForkLib L7 L8 W7 W8}.
Context {C7 : @ContextLib L7 W7} {A7 : @Arena L7} {A8 : @Arena L8}.
Notation Fork := (@ForkAwareLedgerContext L7 L8 W7 W8).

(** The context and how many blocks were not replayed.  [use_cache]: a storage is given.
    The prover and the transaction info that is built on the context are left out. *)
Definition build_context_with_cache (now : Z) (wallet_seeds : list WalletSeed) (received_tx : SourceTransactions)
    (chain_id : list Z) (use_cache : bool) : M S ContextNotLedger8Error (@LedgerContext L8 W8 * Z) :=
  let total_blocks := Z.of_nat (length (src_blocks received_tx)) in
  let wallet_id := compute_wallet_id_for_seeds wallet_seeds (src_network_id received_tx) in
  let fresh : M S ContextNotLedger8Error (Fork * Z) :=
    ctx ← lift (never (fork_new_from_wallet_seeds (initial_version (src_blocks received_tx))
                         (src_network_id received_tx) wallet_seeds));
    mret (ctx, 0) in
  '(fork_ctx, start_block) ←
    (if use_cache then
       cached ← gets (λ storage, get_wallet_state storage chain_id wallet_id);
       match cached with
       | Some cache =>
           match restore_context_from_cache cache wallet_seeds chain_id with
           | Ok (ctx, height) => mret (Fork8 ctx, height + 1)
           | Err _ => fresh
           | Panic => panic
           end
       | None => fresh
       end
     else fresh);
  let blocks_to_replay := filter (λ b, start_block ≤ rb_number b) (src_blocks received_tx) in
  let blocks_replayed := Z.of_nat (length blocks_to_replay) in
  fork_ctx ← lift (never (replay_blocks now fork_ctx blocks_to_replay));
  context ← lift (ok_or (into_ledger8 fork_ctx) (NotLedger8 (version fork_ctx)));
  (if use_cache && bool_decide (0 < blocks_replayed ∨ start_block = 0)
   then save_context_to_cache now context chain_id wallet_id (start_block + sat_sub blocks_replayed 1)
   else mret tt);;
  mret (context, sat_sub total_blocks blocks_replayed).
End Cache.

(** ** The replay of a chain *)

(** The context of a block in version 8. *)
Definition block_context_of (b : RawBlockData) : BlockContext :=
  make_block_context (rb_tblock_secs b) (rb_parent_block_hash b) (rb_last_block_time_secs b).

Section Chain.
Context {L8 : MnLedger} {W8 : @WalletLib L8} {C8 : @ContextLib L8 W8} {A8 : @Arena L8} `{!Bip}.

Fixpoint ledger_blocks (s : LedgerState) (blocks : list RawBlockData) :
    R (LedgerState * list (Trace * BlockContext)) :=
  match blocks with
  | [] => Ok (s, [])
  | b :: blocks =>
      txs ← decode_txs (rb_transactions b);
      '(s, trace) ← ledger_block s txs (block_context_of b) (rb_state_root b) (rb_state b);
      '(s, traces) ← ledger_blocks s blocks;
      Ok (s, (trace, block_context_of b) :: traces)
  end.

Fixpoint wallet_blocks (traces : list (Trace * BlockContext)) (w : Wallet) : R Wallet :=
  match traces with
  | [] => Ok w
  | (trace, c) :: traces => w ← wallet_block trace c w; wallet_blocks traces w
  end.

(** The coins that the blocks offer to a wallet. *)
Definition offers_of (traces : list (Trace * BlockContext)) : list Offer :=
  traces ≫= λ tc, tc.1 ≫= fst.

Lemma wallet_txs_shielded trace : ∀ w w', wallet_txs trace w = Ok w' →
  secret_keys (shielded w') = secret_keys (shielded w)
  ∧ ∀ sks, secret_keys (shielded w) = Some sks →
      shielded_state (shielded w')
      = foldl (λ st o, wallet_state_apply st sks o) (shielded_state (shielded w)) (trace ≫= fst).
Proof.
  induction trace as [|[offers events] trace IH]; intros w w' Hw; cbn [wallet_txs] in Hw.
  { by injection Hw as <-. }
  unfold update_state_from_offers in Hw. destruct (secret_keys (shielded w)) as [sks0|] eqn:Hk; [|done].
  cbn in Hw. unfold replay_dust, update_dust_from_tx in Hw.
  destruct (replay_events _ events) as [d| |]; [|done..]. cbn in Hw.
  apply IH in Hw as [Hsk Hst]. cbn in Hsk, Hst. split; [congruence|]. intros sks [= ->].
  rewrite (Hst sks Hk). cbn. by rewrite foldl_app.
Qed.

Lemma wallet_blocks_shielded traces : ∀ w w' sks,
  wallet_blocks traces w = Ok w' → secret_keys (shielded w) = Some sks →
  shielded_state (shielded w')
  = foldl (λ st o, wallet_state_apply st sks o) (shielded_state (shielded w)) (offers_of traces).
Proof.
  induction traces as [|[trace c] traces IH]; intros w w' sks Hw Hk; cbn [wallet_blocks] in Hw.
  { by injection Hw as <-. }
  unfold wallet_block in Hw. destruct (wallet_txs trace w) as [w1| |] eqn:Hw1; [|done..]. cbn in Hw.
  destruct (wallet_txs_shielded _ _ _ Hw1) as [Hsk Hst].
  rewrite (IH _ _ sks Hw) by (cbn; congruence). cbn. rewrite (Hst sks Hk). unfold offers_of. cbn.
  by rewrite foldl_app.
Qed.

Context {L7 : MnLedger} {W7 : @WalletLib L7} `{!ForkLib L7 L8 W7 W8} {C7 : @ContextLib L7 W7} {A7 : @Arena L7}.
Notation Fork := (@ForkAwareLedgerContext L7 L8 W7 W8).

Lemma replay_blocks_app now (xs ys : list RawBlockData) : ∀ ctx : Fork,
  replay_blocks now ctx (xs ++ ys) = (ctx' ← replay_blocks now ctx xs; replay_blocks now ctx' ys).
Proof.
  induction xs as [|b xs IH]; intros ctx; [done|]. cbn. rewrite R_bind_assoc. by apply R_bind_ext.
Qed.

Definition last_context (blocks : list RawBlockData) (before : option BlockContext) : option BlockContext :=
  match last blocks with Some b => Some (block_context_of b) | None => before end.

(** From version 8 on the ledger does not depend on the wallets, nor a wallet on the others. *)
Lemma replay_blocks_eq now blocks : ∀ ctx,
  replay_blocks now (Fork8 ctx : Fork) blocks
  = ('(s, traces) ← ledger_blocks (ledger_state ctx) blocks;
     ws ← for_wallets (wallet_blocks traces) (wallets ctx);
     Ok (Fork8 {| ledger_state := s; latest_context := last_context blocks (latest_context ctx); wallets := ws |})).
Proof.
  induction blocks as [|b blocks IH]; intros ctx; cbn [replay_blocks ledger_blocks].
  { cbn. rewrite (for_wallets_ext (wallet_blocks []) Ok) by done. rewrite for_wallets_id. by destruct ctx. }
  unfold fork_update_from_block. rewrite bool_decide_false by (by intros [? _]). cbn [mbind outcome_bind].
  unfold update_context_8. fold (block_context_of b). rewrite !R_bind_assoc. apply R_bind_ext. intros txs.
  rewrite update_from_block_eq, !R_bind_assoc. apply R_bind_ext. intros [s trace]. rewrite !R_bind_assoc.
  etransitivity; [apply R_bind_ext; intros ws; cbn [mbind outcome_bind]; apply IH|].
  cbn [ledger_state wallets latest_context].
  destruct (ledger_blocks s blocks) as [[s' traces]|[]|]; cbn.
  - rewrite <-(for_wallets_compose (wallet_block trace (block_context_of b)) (wallet_blocks traces)), R_bind_assoc.
    apply R_bind_ext. intros ws. apply R_bind_ext. intros ws'. do 3 f_equal.
    unfold last_context. rewrite last_cons. by destruct (last blocks).
  - by destruct (for_wallets _ _) as [?|[]|].
Qed.

Lemma replay_last now blocks b (ctx : Fork) ctx' :
  replay_blocks now ctx (blocks ++ [b]) = Ok (Fork8 ctx') → latest_context ctx' = Some (block_context_of b).
Proof.
  rewrite replay_blocks_app. intros (ctx1 & _ & Hb)%R_bind_ok. cbn in Hb.
  apply R_bind_ok in Hb as (ctx2 & Hb & [= ->]). unfold fork_update_from_block in Hb.
  apply R_bind_ok in Hb as ([c7|c8] & _ & Hb); apply R_bind_ok in Hb as (c & Hu & [= ->]).
  unfold update_context_8 in Hu. apply R_bind_ok in Hu as (txs & _ & Hu). fold (block_context_of b) in Hu.
  rewrite update_from_block_eq in Hu. apply R_bind_ok in Hu as ([s tr] & _ & Hu).
  by apply R_bind_ok in Hu as (ws & _ & [= <-]).
Qed.

End Chain.

(** ** The toolkit follows the node *)

Section NodeChain.
Context `{!MnLedger} `{!WalletLib} `{!ContextLib} `{!Arena} `{!ArenaLaws} `{!Twox} `{!Bip} (W : Files).
Context (cost_add_comm : ∀ a b : SyntheticCost, cost_add a b = cost_add b a).

(** A node that executes blocks one after the other, none of them the genesis block, and
    each on record with its state root and without an attached state; before, between
    and inside them the host is used for other things. *)
Inductive node_chain : list RawBlockData → list Z → Log → Host → list Z → Log → Host → Prop :=
| node_chain_nil key log h : node_chain [] key log h key log h
| node_chain_cons b blocks rv key log h root log1 h1 key' log' h' :
    node_block W (block_context_of b) rv (rb_transactions b) key log h root log1 h1 →
    rb_parent_block_hash b ≠ zero_hash → rb_state_root b = Some root → rb_state b = None →
    node_chain blocks root log1 h1 key' log' h' →
    node_chain (b :: blocks) key log h key' log' h'.

Lemma node_chain_replay blocks key log h key' log' h' s :
  node_chain blocks key log h key' log' h' → host_reach W log h → (get_ledger key h).1 = Ok (ledger_new s) →
  ∃ s' traces, ledger_blocks s blocks = Ok (s', traces) ∧ (get_ledger key' h').1 = Ok (ledger_new s').
Proof.
  intros Hc. revert s. induction Hc as [key log h|b blocks rv key log h root log1 h1 key' log' h' Hb Hp Hr Hst _ IH];
    intros s Hreach Hl.
  { by exists s, []. }
  destruct (node_block_replay W cost_add_comm _ _ _ _ _ _ _ _ _ s Hb Hreach Hl Hp)
    as (txs & s1 & trace & Hd & Hlb & Hl1 & Hreach1).
  destruct (IH s1 Hreach1 Hl1) as (s' & traces & Hbs & Hl').
  exists s', ((trace, block_context_of b) :: traces). split; [|done].
  cbn. rewrite Hd. cbn. rewrite Hr, Hst, Hlb. cbn. by rewrite Hbs.
Qed.
End NodeChain.

Section FollowNode.
Context {L7 L8 : MnLedger} {W7 : @WalletLib L7} {W8 : @WalletLib L8} `{!ForkLib L7 L8 W7 W8}.
Context {C7 : @ContextLib L7 W7} {C8 : @ContextLib L8 W8} {A7 : @Arena L7} {A8 : @Arena L8} `{!Bip}.
Context `{!@ArenaLaws L8 A8} `{!Twox} (W : Files).
Notation Fork := (@ForkAwareLedgerContext L7 L8 W7 W8).

(** C17: The toolkit's replay of blocks that a node has executed ends in the ledger
    state that the node holds under the key of the last block, and accepts the state
    root of every block on the way: it cannot panic but in updating a wallet, which does
    not change the ledger, and without wallets it returns.  The blocks are of version 8
    of the ledger and come after the genesis block; the node started with empty caches,
    applied all their transactions through its cache of verifications, and used its host
    in any way before, between and inside them (for its pool, say).  Conditions: no
    collision of cache keys among the verifications made, an earlier verification of a
    transaction against the state had the verdict that it has at the time of the block
    (otherwise the toolkit, which verifies again, may panic), and the library adds costs
    in either order. *)
Theorem replay_follows_node now blocks key log h key' log' h' (ctx : @LedgerContext L8 W8) :
  (∀ a b : SyntheticCost, @cost_add L8 a b = @cost_add L8 b a) →
  host_reach W log h → node_chain W blocks key log h key' log' h' →
  (get_ledger key h).1 = Ok (ledger_new (ledger_state ctx)) →
  ∃ s' traces,
    (get_ledger key' h').1 = Ok (ledger_new s')
    ∧ replay_blocks now (Fork8 ctx : Fork) blocks
      = (ws ← for_wallets (wallet_blocks traces) (wallets ctx);
         Ok (Fork8 {| ledger_state := s'; latest_context := last_context blocks (latest_context ctx);
                      wallets := ws |}))
    ∧ (wallets ctx = ∅ →
       replay_blocks now (Fork8 ctx : Fork) blocks
       = Ok (Fork8 {| ledger_state := s'; latest_context := last_context blocks (latest_context ctx);
                      wallets := ∅ |})).
Proof.
  intros Hcomm Hreach Hc Hl.
  destruct (node_chain_replay W Hcomm blocks key log h key' log' h' _ Hc Hreach Hl) as (s' & traces & Hbs & Hl').
  exists s', traces. rewrite replay_blocks_eq, Hbs. cbn. split_and!; [done..|].
  intros ->. by rewrite for_wallets_empty.
Qed.
End FollowNode.

(** ** Runs with the cache *)

(** What the library promises of the format of ledger states, and SHA-256. *)
Class CacheLaws (L8 : MnLedger) `{!Sha256} : Prop := {
  state_roundtrip (s : @LedgerState L8) :
    ∃ bytes, midnight_tagged_serialize s = Some bytes ∧ midnight_tagged_deserialize bytes = Some s;
  sha_256_length l : length (sha_256 l) = 32%nat;
}.

Section Resume.
Context {L7 L8 : MnLedger} {W7 : @WalletLib L7} {W8 : @WalletLib L8} `{!ForkLib L7 L8 W7 W8}.
Context {C7 : @ContextLib L7 W7} {C8 : @ContextLib L8 W8} {A7 : @Arena L7} {A8 : @Arena L8} `{!Bip}.
Context `{!Sha256} `{!CacheLaws L8} {S : Type} `{!FetchStorage S} `{!StorageRefines S}.
Notation Fork := (@ForkAwareLedgerContext L7 L8 W7 W8).
Notation LedgerContext8 := (@LedgerContext L8 W8).

(** The chain, its blocks numbered from zero. *)
Context (now : Z) (seeds : list WalletSeed) (network chain : list Z) (blocks : list RawBlockData).
Context (numbered : ∀ i b, blocks !! i = Some b → rb_number b = Z.of_nat i).
Context (heights : Z.of_nat (length blocks) ≤ umax 63) (chain_hash : h256 chain).

Definition source (k : nat) : SourceTransactions := {| src_blocks := take k blocks; src_network_id := network |}.
Definition wid : list Z := compute_wallet_id_for_seeds seeds network.
(** The context after the first [k] blocks, replayed from genesis. *)
Definition full (k : nat) : outcome ContextNotLedger8Error LedgerContext8 :=
  build_fork_aware_context (L7 := L7) now (source k) seeds.

(** The storage holds the state after the first [m] blocks. *)
Definition checkpoint (a : Store) (m : nat) (ctx : LedgerContext8) : Prop :=
  (0 < m)%nat ∧ full m = Ok ctx ∧
  ∃ cache c, st_wallets a !! (chain, wid) = Some cache
    ∧ wc_version cache = CACHE_VERSION ∧ wc_chain_id cache = chain ∧ wc_block_height cache = Z.of_nat m - 1
    ∧ midnight_tagged_deserialize (wc_ledger_state_bytes cache) = Some (ledger_state ctx)
    ∧ wc_state_root cache = Some (cache_state_root (wc_ledger_state_bytes cache))
    ∧ latest_context ctx = Some c ∧ restored_context (wc_latest_block_context cache) = c.

Lemma full_inv k ctx : full k = Ok ctx →
  ∃ ctx0, fork_new_from_wallet_seeds (initial_version (take k blocks)) network seeds = Ok ctx0
    ∧ replay_blocks now (ctx0 : Fork) (take k blocks) = Ok (Fork8 ctx).
Proof.
  unfold full, build_fork_aware_context, build_fork_aware_context_raw. cbn [src_blocks src_network_id source].
  destruct (fork_new_from_wallet_seeds _ _ _) as [ctx0|[]|]; [cbn|done].
  destruct (replay_blocks now ctx0 _) as [[c7|c8]|[]|] eqn:Hr; cbn; [done| |done].
  intros [= ->]. eauto.
Qed.

Lemma initial_version_take k : (0 < k)%nat → initial_version (take k blocks) = initial_version blocks.
Proof. destruct k, blocks; done || lia. Qed.

Lemma full_extends m k ctx_m ctx_k : (0 < m ≤ k)%nat → full m = Ok ctx_m → full k = Ok ctx_k →
  replay_blocks now (Fork8 ctx_m : Fork) (drop m (take k blocks)) = Ok (Fork8 ctx_k).
Proof.
  intros Hmk (c0 & Hn & Hr)%full_inv (c0' & Hn' & Hr')%full_inv.
  rewrite initial_version_take in Hn, Hn' by lia. assert (c0' = c0) as -> by congruence.
  rewrite <-(take_drop m (take k blocks)), replay_blocks_app, take_take, Nat.min_l, Hr in Hr' by lia. done.
Qed.

Lemma full_latest k ctx : (0 < k ≤ length blocks)%nat → full k = Ok ctx →
  ∃ c, latest_context ctx = Some c ∧ tblock_err c = 30.
Proof.
  intros Hk (c0 & _ & Hr)%full_inv. destruct k as [|k]; [lia|].
  destruct (lookup_lt_is_Some_2 blocks k) as [b Hb]; [lia|].
  rewrite (take_S_r _ _ b) in Hr by done. apply replay_last in Hr. eauto.
Qed.

(** The blocks from a height on. *)
Lemma blocks_from m k : (m ≤ k)%nat →
  filter (λ b, Z.of_nat m ≤ rb_number b) (take k blocks) = drop m (take k blocks).
Proof.
  intros Hmk. rewrite <-(take_drop m (take k blocks)) at 1. rewrite filter_app.
  assert (∀ i b, take k blocks !! i = Some b → rb_number b = Z.of_nat i) as Hnum.
  { intros i b Hi. apply numbered. rewrite lookup_take_Some in Hi. apply Hi. }
  rewrite filter_none, filter_all; [done|..]; intros b [i Hi]%list_elem_of_lookup.
  - rewrite lookup_drop in Hi. rewrite (Hnum _ _ Hi). lia.
  - apply lookup_take_Some in Hi as [Hi ?]. rewrite (Hnum _ _ Hi). lia.
Qed.

Lemma restored_serializable c : tblock_err c = 30 → restored_context (serializable_context c) = c.
Proof.
  intros He. destruct c. cbn in *. subst. unfold restored_context, serializable_context. cbn.
  by rewrite wrap_small by (unfold in_range, umax; lia).
Qed.

(** The storage can encode an entry with the state after [k] blocks, whatever the wallets. *)
Definition saveable (k : nat) (ctx : LedgerContext8) : Prop :=
  ∀ (ctx' : LedgerContext8) cache, ledger_state ctx' = ledger_state ctx → latest_context ctx' = latest_context ctx →
    create_cache_from_context now ctx' chain wid (Z.of_nat k - 1) = Ok cache → storable_wallet cache.

(** Saving the state after [k] blocks makes it a checkpoint. *)
Lemma save_checkpoint {E} k ctx ctx' s a :
  sim s a → (0 < k ≤ length blocks)%nat → full k = Ok ctx →
  ledger_state ctx' = ledger_state ctx → latest_context ctx' = latest_context ctx →
  saveable k ctx →
  ∃ s' a', save_context_to_cache (E := E) now ctx' chain wid (Z.of_nat k - 1) s = (Ok tt, s')
    ∧ sim s' a' ∧ checkpoint a' k ctx.
Proof.
  intros Hs Hk Hf Hst Hlc Hstor. destruct (full_latest k ctx Hk Hf) as (c & Hc & He).
  destruct (state_roundtrip (ledger_state ctx)) as (bytes & Hser & Hde).
  unfold save_context_to_cache, create_cache_from_context. rewrite Hst, Hser. cbn [ok_or mbind outcome_bind].
  match goal with |- context [set_wallet_state chain wid ?cache] =>
    destruct (sim_set_wallet (E := E) s a chain wid cache) as (s' & Hrun & Hs') end.
  { done. } { done. } { apply sha_256_length. }
  { apply (Hstor ctx'); [done..|]. unfold create_cache_from_context. by rewrite Hst, Hser. }
  { cbn. unfold height, in_range. lia. }
  eexists s', _. split_and!; [exact Hrun|exact Hs'|]. split_and!; [lia|done|].
  eexists _, c. unfold set_wallets. cbn [st_wallets]. rewrite lookup_insert_eq.
  split_and!; [reflexivity|done..|]. cbn. unfold latest_block_context. rewrite Hlc, Hc. cbn.
  by apply restored_serializable.
Qed.

Definition run (k : nat) : M S ContextNotLedger8Error (LedgerContext8 * Z) :=
  build_context_with_cache (L7 := L7) now seeds (source k) chain true.

(** Without a cached state the run is the replay from genesis. *)
Lemma fresh_run s a k ctx :
  sim s a → (0 < k ≤ length blocks)%nat → full k = Ok ctx → saveable k ctx →
  st_wallets a !! (chain, wid) = None →
  ∃ s' a', run k s = (Ok (ctx, 0), s') ∧ sim s' a' ∧ checkpoint a' k ctx.
Proof.
  intros Hs Hk Hf Hstor Hnone. destruct (full_inv k ctx Hf) as (ctx0 & Hn & Hr).
  destruct (save_checkpoint (E := ContextNotLedger8Error) k ctx ctx s a)
    as (s' & a' & Hsave & Hs' & Hcp); [done..|].
  exists s', a'. split; [|done].
  unfold run, build_context_with_cache. cbn zeta. cbn [src_blocks src_network_id source]. fold wid.
  unfold mbind, M_bind, gets, lift, mret, M_ret.
  rewrite (sim_get_wallet s a), Hnone by (done || apply sha_256_length). rewrite Hn. cbn [never fst snd].
  pose proof (blocks_from 0 k ltac:(lia)) as Hb. change (Z.of_nat 0) with 0 in Hb.
  rewrite Hb, drop_0, Hr. cbn [never into_ledger8 ok_or].
  rewrite length_take_le by lia. rewrite (bool_decide_true (0 < _ ∨ _)) by (by right). cbn [andb].
  replace (0 + sat_sub (Z.of_nat k) 1) with (Z.of_nat k - 1) by (unfold sat_sub; lia).
  rewrite Hsave. do 3 f_equal. unfold sat_sub. lia.
Qed.

Lemma restore_checkpoint a m ctx cache :
  checkpoint a m ctx → st_wallets a !! (chain, wid) = Some cache →
  restore_context_from_cache cache seeds chain
  = (ws ← never (insert_wallets (ledger_state ctx) seeds ∅);
     Ok ({| ledger_state := ledger_state ctx; latest_context := latest_context ctx; wallets := ws |},
         Z.of_nat m - 1)).
Proof.
  intros (_ & _ & cache' & c & Hc & Hv & Hch & Hh & Hd & Hroot & Hlc & Hrc) Hc'.
  assert (cache' = cache) as -> by congruence. unfold restore_context_from_cache.
  rewrite !bool_decide_false by (by intros []). rewrite Hroot, bool_decide_true by done. cbn [mbind outcome_bind].
  rewrite Hd. cbn [ok_or mbind outcome_bind]. by rewrite Hh, Hlc, Hrc.
Qed.

(** The run from a checkpoint, up to the wallets. *)
Lemma resumed_run s a m k ctx_m ctx_k traces ws :
  sim s a → checkpoint a m ctx_m → (m ≤ k ≤ length blocks)%nat → full k = Ok ctx_k → saveable k ctx_k →
  ledger_blocks (ledger_state ctx_m) (drop m (take k blocks)) = Ok (ledger_state ctx_k, traces) →
  last_context (drop m (take k blocks)) (latest_context ctx_m) = latest_context ctx_k →
  (ws ← insert_wallets (ledger_state ctx_m) seeds ∅; for_wallets (wallet_blocks traces) ws) = ws →
  match ws with
  | Ok ws => ∃ s' a',
      run k s = (Ok ({| ledger_state := ledger_state ctx_k; latest_context := latest_context ctx_k;
                        wallets := ws |}, Z.of_nat m), s')
      ∧ sim s' a' ∧ checkpoint a' k ctx_k
  | _ => (run k s).1 = Panic
  end.
Proof.
  intros Hs Hcp Hk Hf Hstor Hlb Hlast Hws. pose proof Hcp as (Hm & Hfm & cache & c & Hc & _).
  pose proof (restore_checkpoint a m ctx_m cache Hcp Hc) as Hres.
  set (r := run k s). assert (r = run k s) as Hr by done. clearbody r.
  unfold run, build_context_with_cache in Hr. cbn zeta in Hr. cbn [src_blocks src_network_id source] in Hr. fold wid in Hr.
  unfold mbind, M_bind, gets, lift, mret, M_ret in Hr.
  rewrite (sim_get_wallet s a), Hc, Hres in Hr by (done || apply sha_256_length).
  destruct (insert_wallets (ledger_state ctx_m) seeds ∅) as [ws0|[]|]; cbn in Hws; [|by subst ws r].
  cbn [never outcome_bind mbind] in Hr.
  replace (Z.of_nat m - 1 + 1) with (Z.of_nat m) in Hr by lia.
  rewrite blocks_from, replay_blocks_eq in Hr by lia. cbn [ledger_state wallets latest_context] in Hr.
  rewrite Hlb in Hr. cbn [mbind outcome_bind] in Hr. rewrite Hws in Hr.
  destruct ws as [ws|[]|]; [|by subst r]. cbn [mbind outcome_bind never into_ledger8 ok_or] in Hr.
  rewrite Hlast, length_drop, length_take_le in Hr by lia.
  destruct (decide (m = k)) as [->|Hne].
  - exists s, a. assert (ctx_m = ctx_k) as -> by congruence. split_and!; [|done|done].
    rewrite bool_decide_false in Hr by lia. cbn [andb] in Hr. rewrite Hr. do 3 f_equal. unfold sat_sub. lia.
  - rewrite bool_decide_true in Hr by lia. cbn [andb] in Hr.
    replace (Z.of_nat m + sat_sub (Z.of_nat (k - m)) 1) with (Z.of_nat k - 1) in Hr by (unfold sat_sub; lia).
    match type of Hr with context [save_context_to_cache now ?c] =>
      destruct (save_checkpoint (E := ContextNotLedger8Error) k ctx_k c s a) as (s' & a' & Hsave & Hs' & Hcp');
        [done|lia|done..|] end.
    exists s', a'. split_and!; [|done|done]. rewrite Hsave in Hr. rewrite Hr. do 3 f_equal. unfold sat_sub. lia.
Qed.

Lemma insert_wallets_new s l : ∀ ws ws' : gmap WalletSeed (@Wallet L8 W8),
  insert_wallets s l ws = Ok ws' →
  (∀ seed w, ws !! seed = Some w → ∃ s, wallet_default seed s = Ok w) →
  ∀ seed w, ws' !! seed = Some w → ∃ s, wallet_default seed s = Ok w.
Proof.
  induction l as [|k l IH]; intros ws ws' Hi Hws; cbn in Hi; [by injection Hi as <-|].
  apply R_bind_ok in Hi as (wk & Hk & Hi). apply (IH _ _ Hi). intros seed w.
  rewrite lookup_insert_Some. intros [[-> ->]|[_ Hw]]; eauto.
Qed.

Lemma resumes s a m k ctx_m ctx_k :
  sim s a → checkpoint a m ctx_m → (m ≤ k ≤ length blocks)%nat → full k = Ok ctx_k → saveable k ctx_k →
  ∃ traces, ledger_blocks (ledger_state ctx_m) (drop m (take k blocks)) = Ok (ledger_state ctx_k, traces)
    ∧ match ws ← insert_wallets (ledger_state ctx_m) seeds ∅; for_wallets (wallet_blocks traces) ws with
      | Ok ws => ∃ s' a',
          run k s = (Ok ({| ledger_state := ledger_state ctx_k; latest_context := latest_context ctx_k;
                            wallets := ws |}, Z.of_nat m), s')
          ∧ sim s' a' ∧ checkpoint a' k ctx_k
      | _ => (run k s).1 = Panic
      end.
Proof.
  intros Hs Hcp Hmk Hf Hstor.
  pose proof Hcp as (Hm & Hfm & _). pose proof (full_extends m k ctx_m ctx_k ltac:(lia) Hfm Hf) as Hr.
  rewrite replay_blocks_eq in Hr. apply R_bind_ok in Hr as ([s1 traces] & Hlb & Hr).
  apply R_bind_ok in Hr as (ws1 & Hws1 & [= <-]). cbn in Hf |- *. exists traces. split; [done|].
  exact (resumed_run s a m k ctx_m _ traces _ Hs Hcp ltac:(lia) Hf Hstor Hlb eq_refl eq_refl).
Qed.

(** C18: The toolkit with its cache of the state, over a storage that is a store (as each
    of the three backends is): for a chain whose blocks are numbered from zero, below
    2^63, and replay from genesis, its hash of 32 bytes, after at least one block, where the ledger's tagged
    format reads back what it writes and the storage can encode the state.  Without a cached state a
    run returns what a replay from genesis gives and leaves a checkpoint.  From a
    checkpoint of an earlier run, over no more blocks, it replays only the later blocks, reaches the ledger
    state and the block context of a replay from genesis, tells how many blocks it has
    skipped, and leaves a checkpoint again; its wallets are made fresh on the restored
    state and take the later blocks, and it panics only if that fails. *)
Theorem cached_run_resumes s a k ctx_k :
  sim s a → (0 < k ≤ length blocks)%nat → full k = Ok ctx_k → saveable k ctx_k →
  (st_wallets a !! (chain, wid) = None →
     ∃ s' a', run k s = (Ok (ctx_k, 0), s') ∧ sim s' a' ∧ checkpoint a' k ctx_k)
  ∧ ∀ m ctx_m, checkpoint a m ctx_m → (m ≤ k)%nat →
     ∃ traces, ledger_blocks (ledger_state ctx_m) (drop m (take k blocks)) = Ok (ledger_state ctx_k, traces)
       ∧ match ws ← insert_wallets (ledger_state ctx_m) seeds ∅; for_wallets (wallet_blocks traces) ws with
         | Ok ws => ∃ s' a',
             run k s = (Ok ({| ledger_state := ledger_state ctx_k; latest_context := latest_context ctx_k;
                               wallets := ws |}, Z.of_nat m), s')
             ∧ sim s' a' ∧ checkpoint a' k ctx_k
         | _ => (run k s).1 = Panic
         end.
Proof.
  intros Hs Hk Hf Hstor. split; [by apply fresh_run|]. intros m ctx_m Hcp Hmk.
  eapply resumes; [done..|lia|done|done].
Qed.

(** A wallet of a run from a checkpoint has seen the coins of the blocks since then only. *)
Theorem restored_wallet_misses_earlier_coins traces s0 ws :
  (ws0 ← insert_wallets s0 seeds ∅; for_wallets (wallet_blocks (L8 := L8) traces) ws0) = Ok ws →
  ∀ seed w, ws !! seed = Some w → ∃ sks,
    shielded_state (shielded w) = foldl (λ st o, wallet_state_apply st sks o) wallet_state_new (offers_of traces).
Proof.
  intros (ws0 & Hi & Hws)%R_bind_ok seed w Hw. pose proof (proj1 (for_wallets_spec _ _ _) Hws seed) as Hspec.
  destruct (ws0 !! seed) as [w0|] eqn:Hw0; [|congruence]. destruct Hspec as (w' & Hwb & Hw').
  assert (w' = w) as -> by congruence.
  destruct (insert_wallets_new _ _ _ _ Hi ltac:(done) seed w0 Hw0) as [s1 Hdef].
  destruct (wallet_default_inv _ _ _ Hdef) as (zs & _ & _ & Hsh & _).
  exists (secret_keys_from_seed zs). rewrite (wallet_blocks_shielded _ _ _ _ Hwb ltac:(by rewrite Hsh)).
  by rewrite Hsh.
Qed.
End Resume.

(** ** On the small library *)

Module ContextConcrete.
Import Mini.
#[export] Instance m_context : ContextLib := {|
  well_formed_lax := λ tx _ _, match tx with Standard n => inr n | ClaimRewards _ => inl Mt_Unbalanced end;
  apply_events := λ _ n _, [(n, n)]; system_events := λ _ _ _, []; ledger_state_new := λ _, [];
|}.
(** A ledger is its own key. *)
Definition m_key (l : Ledger) : list Z :=
  let c := block_fullness l in
  [read_time c; compute_time c; block_usage c; bytes_written c; bytes_churned c] ++ state l.
Definition m_unkey (k : list Z) : option Ledger :=
  match k with
  | a :: b :: c :: d :: e :: s =>
      Some {| state := s : LedgerState; block_fullness := {| read_time := a; compute_time := b; block_usage := c;
                bytes_written := d; bytes_churned := e |} |}
  | _ => None
  end.
#[export] Instance m_arena : Arena := {|
  ArenaKey := list Z; ArenaStore := gset (list Z);
  as_typed_key := m_key; state_typed_key := λ s, m_key (ledger_new s);
  get_lazy := λ st k, if bool_decide (k ∈ st) then m_unkey k else None;
  persist := λ l st, {[m_key l]} ∪ st;
  arena_key_tagged_codec := tagged id Some; arena_key_codec := plain id Some;
|}.
#[export] Instance m_arena_laws : ArenaLaws.
Proof.
  split.
  - intros l s. cbn. rewrite bool_decide_true by set_solver. by destruct l as [st []].
  - intros l s k l'. cbn. case_bool_decide; [|done]. by rewrite bool_decide_true by set_solver.
  - by intros k bs [= <-].
Qed.
#[export] Instance m_fork : ForkLib m_ledger m_ledger m_wallets m_wallets := {|
  state_7_to_8 := Some; wallet_state_7_to_8 := Some; coin_public_key_7_to_8 := Some;
  enc_public_key_7_to_8 := Some; secret_keys_7_to_8 := Some; unshielded_7_to_8 := Some;
  dust_7_to_8 := Some; seed_7_to_8 := Some;
|}.
#[export] Instance m_twox : Twox := id.
#[export] Instance m_sha : Sha256 := λ l, take 32 (l ++ replicate 32 0).
#[export] Instance m_cache_laws : CacheLaws m_ledger.
Proof.
  split; [intros s; by exists s|]. intros l. apply length_take_le. rewrite length_app, length_replicate. lia.
Qed.

(** Two blocks, each with a coin for the wallet. *)
Definition block (n coin : Z) (root : option (list Z)) : RawBlockData := {|
  rb_hash := zero_hash; rb_parent_hash := zero_hash; rb_number := n; rb_ledger_version := Ledger8;
  rb_transactions := [Raw_Midnight [coin]]; rb_tblock_secs := 6 * n; rb_tblock_err := 30;
  rb_parent_block_hash := replicate 32 1; rb_last_block_time_secs := 0; rb_state_root := root; rb_state := None |}.
Definition blocks : list RawBlockData := [block 0 5 None; block 1 7 None].
Definition network : list Z := bytes_of_string "undeployed".
Definition chain : list Z := replicate 32 9.
Definition full_at (k : nat) := full (L7 := m_ledger) (L8 := m_ledger) 0 [seed1] network blocks k.
Definition run_at (k : nat) := run (L7 := m_ledger) (L8 := m_ledger) (S := InMemory) 0 [seed1] network chain blocks k.

(** What is of interest in a context: the ledger state and the coins of the wallet. *)
Definition coins (ws : gmap WalletSeed (@Wallet m_ledger m_wallets)) : option (list Z) :=
  match ws !! seed1 with Some w => Some (shielded_state (shielded w)) | None => None end.
Definition view (r : outcome ContextNotLedger8Error (@LedgerContext m_ledger m_wallets)) :
    option (list Z * option (list Z)) :=
  match r with
  | Ok ctx => Some (ledger_state ctx, coins (wallets ctx))
  | _ => None
  end.
Lemma view_ok r s l : view r = Some (s, l) → ∃ ctx, r = Ok ctx ∧ ledger_state ctx = s ∧ coins (wallets ctx) = l.
Proof. destruct r as [ctx| |]; [|done..]. intros [= <- <-]. eauto. Qed.
Lemma full_at_1 : view (full_at 1) = Some ([5], Some [5]).
Proof. vm_compute. reflexivity. Qed.
Lemma full_at_2 : view (full_at 2) = Some ([7; 5], Some [7; 5]).
Proof. vm_compute. reflexivity. Qed.
Definition traces1 : list (@Trace m_ledger m_wallets * BlockContext) :=
  [([([7], [(7, 7)])], block_context_of (block 1 7 None))].
Lemma ledger_blocks_1 :
  ledger_blocks ([5] : @LedgerState m_ledger) (drop 1 (take 2 blocks)) = Ok ([7; 5], traces1).
Proof. vm_compute. reflexivity. Qed.
Lemma restored_wallets :
  match ws ← insert_wallets ([5] : @LedgerState m_ledger) [seed1] ∅; for_wallets (wallet_blocks traces1) ws with
  | Ok ws => coins ws
  | _ => None
  end = Some [7].
Proof. vm_compute. reflexivity. Qed.
Lemma blocks_numbered i b : blocks !! i = Some b → rb_number b = Z.of_nat i.
Proof. destruct i as [|[|i]]; cbn; intros [= <-]; reflexivity. Qed.
Lemma blocks_heights : Z.of_nat (length blocks) ≤ umax 63.
Proof. done. Qed.
Lemma all_saveable k ctx : saveable (L8 := m_ledger) (W8 := m_wallets) (S := InMemory) 0 [seed1] network chain k ctx.
Proof. intros ctx' c _ _ _. exact I. Qed.

(** A node with an empty ledger that executes one block. *)
Definition h0 : Host := {| storage := {[m_key (ledger_new ([] : @LedgerState m_ledger))]};
  STRICT_TX_VALIDATION_CACHE := ∅; SOFT_TX_VALIDATION_CACHE := ∅;
  ordering := {| NETWORK_ID := None; OVERRIDES := None |} |}.
Definition no_files : Files := {| read_to_string := λ _, None; from_json := λ _, None |}.
Definition key0 : list Z := [0; 0; 0; 0; 0].
Definition key1 : list Z := [1; 1; 1; 1; 1; 5].
Definition key2 : list Z := [0; 0; 0; 0; 0; 5].
Definition executed : RawBlockData := block 1 5 (Some key2).
(** The pool has validated the transaction of the block before. *)
Definition validation : HostCall := CallValidate key0 [5] (block_context_of executed) 0 0 false.
Definition log1 : Log := [log_call validation h0].
Definition h1 : Host := run_call no_files validation h0.
Definition h2 : Host := (apply_transaction no_files key0 [5] (block_context_of executed) true 0 h1).2.
Definition log2 : Log := log_call (CallApply key0 [5] (block_context_of executed) true 0) h1 :: log1.
Definition h3 : Host := (post_block_update key1 (block_context_of executed) h2).2.
Definition log3 : Log := log_call (CallPostBlock key1 (block_context_of executed)) h2 :: log2.

(** So the block's transaction is in the cache when it is applied. *)
Lemma validated : size (STRICT_TX_VALIDATION_CACHE h1) = 1%nat.
Proof. vm_compute. reflexivity. Qed.
Lemma node_applies : ∃ ev,
  apply_transaction no_files key0 [5] (block_context_of executed) true 0 h1 = (Ok ev, h2) ∧ state_root ev = key1.
Proof.
  eexists. split; [apply LedgerBridge.Concrete.run_eq; vm_compute; reflexivity|reflexivity].
Qed.
Lemma node_updates : post_block_update key1 (block_context_of executed) h2 = (Ok key2, h3).
Proof. apply LedgerBridge.Concrete.run_eq. vm_compute. reflexivity. Qed.
Lemma loaded_0 : loaded key0 h0 = Some ([] : @LedgerState m_ledger).
Proof. vm_compute. reflexivity. Qed.
Lemma loaded_1 : loaded key0 h1 = Some ([] : @LedgerState m_ledger).
Proof. vm_compute. reflexivity. Qed.
Lemma cache_is_right : cache_agrees log1 h1 key0 [5] (block_context_of executed) 0.
Proof.
  intros st. rewrite loaded_1. intros [= <-]. unfold log1, log_call. cbn [key_of_call validation]. rewrite loaded_0. split.
  - intros x b' c' rv' st' ->%list_elem_of_singleton [= <- <- <- <-]. done.
  - intros x c' rv' tx ->%list_elem_of_singleton [= <- <-]. done.
Qed.
Lemma host_started : host_reach no_files [] h0.
Proof. by constructor. Qed.
Lemma node_executes : node_chain no_files [executed] key0 [] h0 key2 log3 h3.
Proof.
  destruct node_applies as (ev & Happ & Hroot).
  eapply (node_chain_cons no_files executed [] 0); [|done|reflexivity|reflexivity|constructor].
  exists key1, log2, h2. split_and!; [|exact node_updates|reflexivity].
  eapply node_other; [apply (moves_call _ _ _ validation), moves_done|].
  eapply node_midnight; [exact cache_is_right|exact Happ|]. rewrite Hroot. constructor.
Qed.
Lemma zip_add_comm (a b : SyntheticCost) : @cost_add m_ledger a b = @cost_add m_ledger b a.
Proof. cbn. unfold LedgerBridge.Concrete.zip_cost. f_equal; lia. Qed.
End ContextConcrete.

Section ContextWitnesses.
Import Mini ContextConcrete.

(** After the first run with one block, the second run with both skips it and has the
    ledger of both. *)
Lemma cached_run_resumes_witness :
  ∃ c1 c2 s1 s2, run_at 1 im_default = (Ok (c1, 0), s1) ∧ run_at 2 s1 = (Ok (c2, 1), s2)
    ∧ ledger_state c2 = [7; 5].
Proof.
  destruct (view_ok _ _ _ full_at_1) as (ctx1 & Hf1 & Hl1 & _).
  destruct (view_ok _ _ _ full_at_2) as (ctx2 & Hf2 & Hl2 & _).
  pose proof (cached_run_resumes 0 [seed1] network chain blocks blocks_numbered blocks_heights eq_refl
    im_default empty_store 1 ctx1 empty_in_memory ltac:(cbn; lia) Hf1 (all_saveable 1 ctx1)) as [Hrun1 _].
  destruct (Hrun1 eq_refl) as (s1 & a1 & Hr1 & Hs1 & Hcp1).
  pose proof (cached_run_resumes 0 [seed1] network chain blocks blocks_numbered blocks_heights eq_refl
    s1 a1 2 ctx2 Hs1 ltac:(cbn; lia) Hf2 (all_saveable 2 ctx2)) as [_ Hrun2].
  destruct (Hrun2 1%nat ctx1 Hcp1 ltac:(lia)) as (traces & Hlb & Hr2).
  rewrite Hl1, ledger_blocks_1 in Hlb. injection Hlb as _ <-. pose proof restored_wallets as Hws.
  rewrite Hl1 in Hr2.
  destruct (ws ← insert_wallets _ _ _; for_wallets _ ws) as [ws| |]; [|discriminate Hws..].
  destruct Hr2 as (s2 & a2 & Hr2 & _).
  eexists ctx1, _, s1, s2. split; [exact Hr1|]. split; [exact Hr2|exact Hl2].
Defined.

(** The wallet that is restored after the first block has one coin, that of a replay two. *)
Lemma restored_wallet_misses_earlier_coins_witness :
  ∃ ws, (ws0 ← insert_wallets ([5] : @LedgerState m_ledger) [seed1] ∅; for_wallets (wallet_blocks traces1) ws0) = Ok ws
    ∧ coins ws = Some [7] ∧ view (full_at 2) = Some ([7; 5], Some [7; 5])
    ∧ ∀ seed w, ws !! seed = Some w → ∃ sks, shielded_state (shielded w)
        = foldl (λ st o, wallet_state_apply st sks o) wallet_state_new (offers_of traces1).
Proof.
  pose proof restored_wallets as Hws. pose proof (restored_wallet_misses_earlier_coins [seed1] traces1 [5]) as Hmiss.
  destruct (ws0 ← insert_wallets _ _ _; for_wallets _ ws0) as [ws| |]; [|discriminate Hws..].
  exists ws. split; [reflexivity|]. split; [exact Hws|]. split; [exact full_at_2|exact (Hmiss ws eq_refl)].
Defined.

Lemma replay_follows_node_witness :
  ∃ s', (get_ledger key2 h3).1 = Ok (ledger_new s')
    ∧ replay_blocks 0 (Fork8 {| ledger_state := [] : @LedgerState m_ledger; latest_context := None; wallets := ∅ |}
        : @ForkAwareLedgerContext m_ledger m_ledger m_wallets m_wallets) [executed]
      = Ok (Fork8 {| ledger_state := s'; latest_context := Some (block_context_of executed); wallets := ∅ |}).
Proof.
  destruct (replay_follows_node (L7 := m_ledger) no_files 0 [executed] key0 [] h0 key2 log3 h3
    {| ledger_state := [] : @LedgerState m_ledger; latest_context := None; wallets := ∅ |}
    zip_add_comm host_started node_executes) as (s' & traces & Hl & _ & Hr).
  - vm_compute. reflexivity.
  - exists s'. split; [exact Hl|]. exact (Hr eq_refl).
Defined.
End ContextWitnesses.
