(* ===== verification/TransactionBuilder.v ===== *)
(** * Transactions that the toolkit builds

    Models how a transaction is funded, in [ledger/helpers/src/versions/common]: the
    choice of unshielded outputs ([utxo_spend.rs]) and of shielded coins ([input.rs]),
    the balance of an offer ([offer.rs]), and the payment of fees with dust
    ([transaction.rs]), on the context of [LedgerContext].

    Building, proving and sealing are the class [TxLib]; random numbers are a state. *)

From stdpp Require Import prelude gmap strings.
From S2P Require Import Prelude Collections LedgerInterface UtxoOrdering LedgerTransaction LedgerBridge.
From S2P Require Import Wallets LedgerContext.

Open Scope Z_scope.

(** ** Unshielded outputs: [utxo_spend.rs] *)

Record UtxoSpendInfo (O : Type) : Type := {
  us_value : Z;
  us_owner : O;
  us_token_type : list Z;
  us_intent_hash : option (list Z);
  us_output_number : option Z;
}.
Arguments us_value {O} _.
Arguments us_owner {O} _.
Arguments us_token_type {O} _.
Arguments us_intent_hash {O} _.
Arguments us_output_number {O} _.

(** The loop of [select_inputs] with [inputs] left; each round takes one of them, so
    their number bounds the rounds. *)
Fixpoint select_rounds {O} (rounds : nat) (inputs : list (UtxoSpendInfo O)) (total required : Z) :
    option (list (UtxoSpendInfo O) * Z) :=
  match rounds with
  | O => None
  | S rounds =>
      let idx := default (length inputs - 1)%nat
        (position (λ qi, bool_decide (required < wrap 128 (us_value qi + total))) inputs) in
      '(utxo, inputs) ← swap_remove idx inputs;
      let total := wrap 128 (total + us_value utxo) in
      if bool_decide (required ≤ total) then Some ([utxo], total - required) else
      '(selected, change) ← select_rounds rounds inputs total required;
      Some (utxo :: selected, change)
  end.
Definition select_inputs {O} (inputs : list (UtxoSpendInfo O)) (required : Z) :
    option (list (UtxoSpendInfo O) * Z) :=
  select_rounds (length inputs) inputs 0 required.

Definition by_value {A} (v : A → Z) (x y : A) : comparison := v x ?= v y.

(** [o.is_none_or(|y| x == y)]. *)
Definition is_none_or {A} `{!EqDecision A} (o : option A) (x : A) : bool :=
  match o with Some y => bool_decide (x = y) | None => true end.

Section Unshielded.
Context `{!MnLedger} `{!WalletLib}.

(** [signing_key().verifying_key().into()]. *)
Definition owner_of (w : UnshieldedWallet) : R (list Z) :=
  sk ← unwrap (signing_key w);
  Ok (user_address_from (sk_verifying_key sk)).

(** In which order the library's set lists the outputs is not modelled. *)
Definition utxos_to_cover_value (ctx : LedgerContext) (seed : WalletSeed) (required_value : Z)
    (token_type : list Z) : R (list (UtxoSpendInfo WalletSeed) * Z) :=
  wallet ← unwrap (wallets ctx !! seed);
  own ← owner_of (unshielded wallet);
  let matching_inputs :=
    (λ utxo, {| us_value := value utxo; us_owner := seed; us_token_type := type_ utxo;
                us_intent_hash := Some (utxo_intent_hash utxo); us_output_number := Some (utxo_output_no utxo) |})
    <$> filter (λ utxo, type_ utxo = token_type ∧ owner utxo = own) (elements (utxos (ledger_state ctx))) in
  unwrap (select_inputs matching_inputs required_value).

Definition min_match_utxo (self : UtxoSpendInfo WalletSeed) (ctx : LedgerContext) (wallet : Wallet) : R Utxo :=
  own ← owner_of (unshielded wallet);
  let candidates := filter (λ utxo,
    type_ utxo = us_token_type self ∧ us_value self ≤ value utxo ∧ owner utxo = own
    ∧ is_none_or (us_intent_hash self) (utxo_intent_hash utxo) = true
    ∧ is_none_or (us_output_number self) (utxo_output_no utxo) = true)
    (elements (utxos (ledger_state ctx))) in
  unwrap (head (sort_by (by_value value) candidates)).

(** [BuildUtxoSpend::build]: the output that is named, or the best match; of the
    resulting [UtxoSpend] the owner is given as the address of its key. *)
Definition build_utxo_spend (self : UtxoSpendInfo WalletSeed) (ctx : LedgerContext) : R Utxo :=
  wallet ← unwrap (wallets ctx !! us_owner self);
  own ← owner_of (unshielded wallet);
  match us_intent_hash self, us_output_number self with
  | Some intent_hash, Some output_no =>
      Ok {| value := us_value self; owner := own; type_ := us_token_type self;
            utxo_intent_hash := intent_hash; utxo_output_no := output_no |}
  | _, _ =>
      utxo ← min_match_utxo self ctx wallet;
      Ok {| value := value utxo; owner := own; type_ := type_ utxo;
            utxo_intent_hash := utxo_intent_hash utxo; utxo_output_no := utxo_output_no utxo |}
  end.
End Unshielded.

(** ** Selection *)

Definition sum_values {O} (l : list (UtxoSpendInfo O)) : Z := foldr (λ i n, us_value i + n) 0 l.

Lemma sum_values_perm {O} (l k : list (UtxoSpendInfo O)) : l ≡ₚ k → sum_values l = sum_values k.
Proof. induction 1; cbn; unfold sum_values in *; lia. Qed.
Lemma sum_values_nonneg {O} (l : list (UtxoSpendInfo O)) : Forall (λ i, 0 ≤ us_value i) l → 0 ≤ sum_values l.
Proof. induction 1; cbn; unfold sum_values in *; lia. Qed.

Lemma position_lt {A} (p : A → bool) (l : list A) i : position p l = Some i → (i < length l)%nat.
Proof.
  revert i. induction l as [|x l IH]; intros i; cbn; [done|]. destruct (p x); [intros [= <-]; lia|].
  destruct (position p l) as [j|]; [|done]. cbn. intros [= <-]. specialize (IH j eq_refl). lia.
Qed.

(** One round, as long as something is left and sums do not overflow. *)
Lemma select_round {O} n (inputs : list (UtxoSpendInfo O)) total required :
  inputs ≠ [] → Forall (λ i, 0 ≤ us_value i) inputs → 0 ≤ total → total + sum_values inputs ≤ umax 128 →
  ∃ utxo rest, utxo :: rest ≡ₚ inputs
    ∧ select_rounds (S n) inputs total required
      = if bool_decide (required ≤ total + us_value utxo) then Some ([utxo], total + us_value utxo - required)
        else '(selected, change) ← select_rounds n rest (total + us_value utxo) required;
             Some (utxo :: selected, change).
Proof.
  intros Hne Hnn Ht Hsum. cbn [select_rounds].
  set (idx := default _ _). assert (idx < length inputs)%nat as Hidx.
  { unfold idx. destruct (position _ inputs) as [i|] eqn:Hi; [by apply position_lt in Hi|].
    cbn. destruct inputs; [done|cbn; lia]. }
  destruct (lookup_lt_is_Some_2 _ _ Hidx) as [utxo Hu].
  destruct (swap_remove_spec idx inputs utxo Hu) as (rest & -> & Hperm).
  exists utxo, rest. split; [done|]. cbn [mbind option_bind].
  pose proof (sum_values_perm _ _ Hperm) as Heq. cbn in Heq. fold (sum_values rest) in Heq.
  assert (0 ≤ sum_values rest) by (apply sum_values_nonneg; rewrite <-Hperm in Hnn; by inversion Hnn).
  assert (0 ≤ us_value utxo) by (rewrite <-Hperm in Hnn; by inversion Hnn).
  by rewrite wrap_small by (unfold in_range; lia).
Qed.

(** Nothing is selected in vain: before the last one, the selection did not suffice. *)
Definition needed {O} (total required : Z) (selected : list (UtxoSpendInfo O)) : Prop :=
  ∃ init utxo, selected = init ++ [utxo] ∧ (init ≠ [] → total + sum_values init < required).

Lemma select_rounds_spec {O} n : ∀ (inputs : list (UtxoSpendInfo O)) total required,
  length inputs = n → Forall (λ i, 0 ≤ us_value i) inputs → 0 ≤ total → total + sum_values inputs ≤ umax 128 →
  match select_rounds n inputs total required with
  | Some (selected, change) =>
      (∃ rest, selected ++ rest ≡ₚ inputs) ∧ total + sum_values selected = required + change ∧ 0 ≤ change
      ∧ needed total required selected
  | None => inputs = [] ∨ total + sum_values inputs < required
  end.
Proof.
  induction n as [|n IH]; intros inputs total required Hlen Hnn Ht Hsum.
  { left. by apply nil_length_inv. }
  assert (inputs ≠ []) as Hne by (by intros ->).
  destruct (select_round n inputs total required Hne Hnn Ht Hsum) as (utxo & rest & Hperm & ->).
  pose proof (sum_values_perm _ _ Hperm) as Heq. cbn in Heq. fold (sum_values rest) in Heq.
  assert (0 ≤ us_value utxo ∧ Forall (λ i, 0 ≤ us_value i) rest) as [Hu Hrest]
    by (rewrite <-Hperm in Hnn; by inversion Hnn).
  assert (length rest = n) as Hn by (apply Permutation_length in Hperm; cbn in Hperm; lia).
  case_bool_decide as Hdone.
  { split_and!; [by exists rest|cbn; lia|lia|]. by exists [], utxo. }
  specialize (IH rest (total + us_value utxo) required Hn Hrest ltac:(lia) ltac:(lia)).
  destruct (select_rounds n rest _ required) as [[selected change]|]; cbn.
  - destruct IH as ([rest' Hr] & Hs & Hc & (init & last & -> & Hinit)). split_and!; [|unfold sum_values in Hs; lia|done|].
    + exists rest'. by rewrite <-Hperm, <-Hr.
    + exists (utxo :: init), last. split; [done|]. intros _. cbn. fold (sum_values init).
      destruct init as [|i init]; [cbn; lia|]. specialize (Hinit ltac:(done)). lia.
  - destruct IH as [->|Hlt]; right; [cbn in Heq; lia|lia].
Qed.

(** The selection of outputs for an amount: it fails only when there are no
    outputs or all of them together are not enough.  Otherwise it takes some of the
    outputs, each at most once, whose sum is the amount and the change it reports, and
    without the last one that it took the sum is below the amount. *)
Lemma select_inputs_covers {O} (inputs : list (UtxoSpendInfo O)) required :
  Forall (λ i, 0 ≤ us_value i) inputs → sum_values inputs ≤ umax 128 →
  match select_inputs inputs required with
  | Some (selected, change) =>
      (∃ rest, selected ++ rest ≡ₚ inputs) ∧ sum_values selected = required + change ∧ 0 ≤ change
      ∧ needed 0 required selected
  | None => inputs = [] ∨ sum_values inputs < required
  end.
Proof.
  intros Hnn Hsum. unfold select_inputs.
  exact (select_rounds_spec (length inputs) inputs 0 required eq_refl Hnn ltac:(lia) Hsum).
Qed.

Section Covering.
Context `{!MnLedger} `{!WalletLib}.

(** The outputs of an owner in the ledger state, and what is recorded of one. *)
Definition outputs_of (ctx : LedgerContext) (own token_type : list Z) : list Utxo :=
  filter (λ utxo, type_ utxo = token_type ∧ owner utxo = own) (elements (utxos (ledger_state ctx))).
Definition spend_info (seed : WalletSeed) (utxo : Utxo) : UtxoSpendInfo WalletSeed :=
  {| us_value := value utxo; us_owner := seed; us_token_type := type_ utxo;
     us_intent_hash := Some (utxo_intent_hash utxo); us_output_number := Some (utxo_output_no utxo) |}.
Definition total (l : list Utxo) : Z := foldr (λ u n, value u + n) 0 l.

Lemma sum_spend_info seed l : sum_values (spend_info seed <$> l) = total l.
Proof. induction l as [|u l IH]; [done|]. cbn. f_equal. exact IH. Qed.

Lemma total_app l k : total (l ++ k) = total l + total k.
Proof. unfold total. induction l as [|u l IH]; [done|]. cbn. rewrite IH. lia. Qed.
Lemma total_perm l k : l ≡ₚ k → total l = total k.
Proof. unfold total. induction 1; cbn; lia. Qed.
Lemma total_nonneg l : Forall (λ u, 0 ≤ value u) l → 0 ≤ total l.
Proof. unfold total. induction 1; cbn; lia. Qed.

Lemma selected_outputs seed selected rest l :
  selected ++ rest ≡ₚ spend_info seed <$> l →
  ∃ us others, selected = spend_info seed <$> us ∧ us ++ others ≡ₚ l.
Proof.
  intros (k & Hk & Hl)%Permutation_map_inv. symmetry in Hk.
  apply fmap_app_inv in Hk as (us & others & -> & _ & ->). by exists us, others.
Qed.
Lemma needed_outputs seed required us :
  needed 0 required (spend_info seed <$> us) →
  ∃ outputs last, us = outputs ++ [last] ∧ (outputs ≠ [] → total outputs < required).
Proof.
  intros (init & i & Heq & Hinit). apply fmap_app_inv in Heq as (outputs & k & -> & Hk & ->).
  destruct k as [|last [|]]; [discriminate Hk| |discriminate Hk]. exists outputs, last. split; [done|].
  intros Hne. rewrite sum_spend_info in Hinit. apply Hinit. by intros ?%fmap_nil_inv.
Qed.
Lemma available_distinct ctx own token us others :
  us ++ others ≡ₚ outputs_of ctx own token → NoDup us.
Proof.
  intros Hperm. apply (NoDup_app us others). rewrite Hperm. apply NoDup_filter, NoDup_elements.
Qed.

Lemma build_spend_info ctx seed w own utxo :
  wallets ctx !! seed = Some w → owner_of (unshielded w) = Ok own → owner utxo = own →
  build_utxo_spend (spend_info seed utxo) ctx = Ok utxo.
Proof. intros Hw Ho <-. unfold build_utxo_spend. cbn. rewrite Hw. cbn. rewrite Ho. by destruct utxo. Qed.

(** C38: The inputs of an unshielded payment.  For a wallet of the context whose address
    is known, when its outputs of the token have values that are not negative and together
    fit a [u128]: the selection panics exactly if it has none or all together are not
    enough.  Otherwise the selected inputs build to outputs of the ledger state of that
    owner and token, no two the same; they add up to the required value and the change that
    is returned, which is not negative; and if there are several, they are not enough
    without the last. *)
Theorem payment_inputs_cover ctx seed w own required token_type :
  wallets ctx !! seed = Some w → owner_of (unshielded w) = Ok own →
  let available := outputs_of ctx own token_type in
  Forall (λ u, 0 ≤ value u) available → total available ≤ umax 128 →
  if bool_decide (available = [] ∨ total available < required)
  then utxos_to_cover_value ctx seed required token_type = Panic
  else ∃ selected outputs last change,
    utxos_to_cover_value ctx seed required token_type = Ok (selected, change)
    ∧ Forall2 (λ i u, build_utxo_spend i ctx = Ok u) selected (outputs ++ [last])
    ∧ NoDup (outputs ++ [last])
    ∧ Forall (λ u, u ∈ utxos (ledger_state ctx) ∧ type_ u = token_type ∧ owner u = own) (outputs ++ [last])
    ∧ total (outputs ++ [last]) = required + change ∧ 0 ≤ change
    ∧ (outputs ≠ [] → total outputs < required).
Proof.
  intros Hw Ho available Hnn Hsum.
  pose proof (select_inputs_covers (spend_info seed <$> available) required) as Hsel.
  rewrite Forall_fmap, sum_spend_info in Hsel. specialize (Hsel Hnn Hsum).
  assert (utxos_to_cover_value ctx seed required token_type =
    unwrap (select_inputs (spend_info seed <$> available) required)) as ->.
  { unfold utxos_to_cover_value. rewrite Hw. cbn. rewrite Ho. done. }
  destruct (select_inputs _ required) as [[selected change]|].
  - destruct Hsel as ([rest Hperm] & Heq & Hc & Hneed).
    apply selected_outputs in Hperm as (us & others & -> & Hperm). rewrite sum_spend_info in Heq.
    apply needed_outputs in Hneed as (outputs & last & -> & Hinit).
    pose proof (total_perm _ _ Hperm) as Htot. rewrite total_app in Htot.
    assert (0 ≤ total others) as Hot by (apply total_nonneg; rewrite <-Hperm in Hnn; by apply Forall_app in Hnn as [_ ?]).
    rewrite bool_decide_false.
    2: { intros [Hnil|Hlt]; [|lia]. rewrite Hnil in Hperm. by apply Permutation_nil_r, app_nil in Hperm as [[]%app_nil _]. }
    assert (∀ u, u ∈ outputs ++ [last] → u ∈ available) as Hin
      by (intros u Hu; rewrite <-Hperm; apply elem_of_app; by left).
    exists (spend_info seed <$> outputs ++ [last]), outputs, last, change. split; [done|].
    assert (Forall (λ u, u ∈ utxos (ledger_state ctx) ∧ type_ u = token_type ∧ owner u = own) (outputs ++ [last])) as Hall.
    { apply list.Forall_forall. intros u [[? ?] Hu%elem_of_elements]%Hin%list_elem_of_filter. done. }
    split_and!; [|eapply available_distinct, Hperm|done..].
    apply Forall2_fmap_l, Forall_Forall2_diag. eapply Forall_impl; [exact Hall|].
    intros u (_ & _ & Hu). by eapply build_spend_info.
  - rewrite bool_decide_true; [done|]. destruct Hsel as [?%fmap_nil_inv|?]; tauto.
Qed.
End Covering.

(** ** The library: building, proving, fees *)

Inductive TokenType : Type :=
| UnshieldedToken (t : list Z)
| ShieldedToken (t : list Z)
| DustToken.
#[export] Instance TokenType_eq_dec : EqDecision TokenType.
Proof. solve_decision. Defined.
#[export] Instance TokenType_countable : Countable TokenType.
Proof.
  apply (inj_countable'
    (λ t, match t with UnshieldedToken t => (0, t) | ShieldedToken t => (1, t) | DustToken => (2, []) end)
    (λ p, if bool_decide (p.1 = 0) then UnshieldedToken p.2
          else if bool_decide (p.1 = 1) then ShieldedToken p.2 else DustToken)).
  by intros [].
Defined.

Class TxLib `{!MnLedger} `{!WalletLib} : Type := {
  Rng : Type;
  (** [SplittableRng::split]: a new generator, and what becomes of the old one. *)
  rng_split : Rng → Rng * Rng;
  (** Coins *)
  QualifiedInfo : Type;
  coin_type : QualifiedInfo → list Z;
  coin_value : QualifiedInfo → Z;
  wallet_coins : WalletState → list QualifiedInfo;
  ZswapInput : Type;
  wallet_spend : WalletState → Rng → SecretKeys → QualifiedInfo → option (WalletState * ZswapInput * Rng);
  (** Transactions before proving *)
  IntentBody : Type;
  intent_empty : Rng → Z → IntentBody * Rng;
  UnprovenOffer : Type;
  Signature : Type;
  sign : SigningKey → Rng → list Z → Signature * Rng;
  ClaimRewardsUnproven : Type;
  BindingRandomness : Type;
  (** Proving and fees *)
  ProvenTransaction : Type;
  FinalizedTransaction : Type;
}.

Section Transactions.
Context `{!MnLedger} `{!WalletLib} `{!TxLib}.

Record DustRegistration : Type := {
  night_key : VerifyingKey;
  registered_address : option DustPublicKey;
  allow_fee_payment : Z;
  registration_signature : option Signature;
}.
Record DustActions : Type := {
  da_spends : list DustSpend;
  da_registrations : list DustRegistration;
  da_ctime : Z;
}.
Record UnprovenIntent : Type := { intent_body : IntentBody; dust_actions : option DustActions }.
Record UnprovenStandard : Type := {
  u_network_id : string;
  u_intents : gmap Z UnprovenIntent;
  u_guaranteed_coins : option UnprovenOffer;
  u_fallible_coins : gmap Z UnprovenOffer;
  u_binding : BindingRandomness;
}.
Inductive UnprovenTransaction : Type :=
| UnprovenStd (stx : UnprovenStandard)
| UnprovenClaim (tx : ClaimRewardsUnproven).
End Transactions.

(** The rest of the library, on these types. *)
Class ProofLib `{!MnLedger} `{!WalletLib} `{!TxLib} : Type := {
  data_to_sign : UnprovenIntent → Z → list Z;
  binding_randomness :
    gmap Z UnprovenIntent → option UnprovenOffer → gmap Z UnprovenOffer → BindingRandomness;
  prover_prove : UnprovenTransaction → Rng → LedgerParameters → ProvenTransaction;
  seal : ProvenTransaction → Rng → FinalizedTransaction;
  mock_prove : UnprovenTransaction → option FinalizedTransaction;
  fees_with_margin : FinalizedTransaction → LedgerParameters → Z → option Z;
  tx_balance : FinalizedTransaction → option Z → option (gmap (TokenType * Z) Z);
}.

(** ** Shielded coins: [input.rs] *)

Section Coins.
Context `{!MnLedger} `{!WalletLib} `{!TxLib}.

Record InputInfo : Type := { in_origin : WalletSeed; in_token_type : list Z; in_value : Z }.

Definition min_match_coin (self : InputInfo) (wallet : WalletState) : R QualifiedInfo :=
  let coins := sort_by (by_value coin_value)
    (filter (λ coin, coin_type coin = in_token_type self ∧ in_value self ≤ coin_value coin)
       (wallet_coins wallet)) in
  unwrap (head coins).

(** [BuildInput::build]: the input, and the value of the coin that is spent. *)
Definition build_input (self : InputInfo) (rng : Rng) (ctx : LedgerContext) :
    R (LedgerContext * (ZswapInput * InputInfo * Rng)) :=
  with_wallet_from_seed ctx (in_origin self) (λ wallet,
    coin ← min_match_coin self (shielded_state (shielded wallet));
    let self := {| in_origin := in_origin self; in_token_type := in_token_type self;
                   in_value := coin_value coin |} in
    sks ← unwrap (secret_keys (shielded wallet));
    '(updated_wallet, input, rng) ← unwrap (wallet_spend (shielded_state (shielded wallet)) rng sks coin);
    Ok (set_shielded (set_shielded_state updated_wallet (shielded wallet)) wallet, (input, self, rng))).
End Coins.

#[export] Instance by_value_total {A} (v : A → Z) : TotalCmp (by_value v).
Proof.
  split.
  - intros x y. apply Z.compare_antisym.
  - unfold by_value. intros x y z. rewrite !Z.compare_le_iff. lia.
Qed.

Lemma head_sort_least {A} (v : A → Z) (l : list A) x :
  head (sort_by (by_value v) l) = Some x → x ∈ l ∧ ∀ y, y ∈ l → v x ≤ v y.
Proof.
  pose proof (sort_by_sorted (by_value v) l) as Hs. pose proof (sort_by_perm (by_value v) l) as Hp.
  destruct (sort_by (by_value v) l) as [|x' l']; [done|]. intros [= ->].
  split; [rewrite <-Hp; left|]. intros y Hy. rewrite <-Hp in Hy. apply elem_of_cons in Hy as [->|Hy]; [done|].
  inversion Hs as [|? ? _ Hle]; subst. clear Hs. rename Hle into Hs. rewrite Forall_forall in Hs. specialize (Hs y Hy).
  unfold cmp_le, by_value in Hs. by apply Z.compare_le_iff in Hs.
Qed.

(** The coin that is taken is large enough, and no other one that is has a smaller value. *)
Lemma min_match_coin_least `{!MnLedger} `{!WalletLib} `{!TxLib} self wallet coin :
  min_match_coin self wallet = Ok coin →
  coin ∈ wallet_coins wallet ∧ coin_type coin = in_token_type self ∧ in_value self ≤ coin_value coin
  ∧ ∀ c, c ∈ wallet_coins wallet → coin_type c = in_token_type self → in_value self ≤ coin_value c →
      coin_value coin ≤ coin_value c.
Proof.
  unfold min_match_coin, unwrap. destruct (head _) as [c0|] eqn:Hh; [|done]. intros [= ->].
  apply head_sort_least in Hh as [Hin Hleast]. apply list_elem_of_filter in Hin as [[Ht Hv] Hin].
  split_and!; [done..|]. intros c Hc Hct Hcv. apply Hleast. by apply list_elem_of_filter.
Qed.

(** ** Offers: [offer.rs] *)

(** [x as i128]. *)
Definition as_i128 (x : Z) : Z :=
  let y := wrap 128 x in if bool_decide (y < 2 ^ 127) then y else y - 2 ^ 128.

(** [entry(token).and_modify(|b| *b += v).or_insert(v)] over the inputs or outputs. *)
Definition tokens_balance (entries : list (list Z * Z)) : gmap (list Z) Z :=
  foldl (λ m tv, <[tv.1 := match m !! tv.1 with Some b => wrap 128 (b + tv.2) | None => tv.2 end]> m) ∅ entries.

Definition add_delta (value : Z) (entry : option Z) : Z :=
  match entry with Some e => as_i128 (e + as_i128 value) | None => as_i128 value end.
Definition sub_delta (value : Z) (entry : option Z) : Z :=
  match entry with Some e => as_i128 (e - as_i128 value) | None => as_i128 (- as_i128 value) end.

(** The list of deltas, which is in no particular order, as a map. *)
Definition calculate_offer_deltas (inputs_balance outputs_balance : gmap (list Z) Z) : gmap (list Z) Z :=
  let deltas := map_fold (λ token value deltas, <[token := add_delta value (deltas !! token)]> deltas)
    ∅ inputs_balance in
  map_fold (λ token value deltas, <[token := sub_delta value (deltas !! token)]> deltas) deltas outputs_balance.

(** Each key is visited once. *)
Lemma map_fold_lookup {V A} (f : V → option A → A) (b : gmap (list Z) A) (m : gmap (list Z) V) k :
  map_fold (λ k v acc, <[k := f v (acc !! k)]> acc) b m !! k
  = match m !! k with Some v => Some (f v (b !! k)) | None => b !! k end.
Proof.
  revert k. apply (map_fold_weak_ind (λ acc m, ∀ k,
    acc !! k = match m !! k with Some v => Some (f v (b !! k)) | None => b !! k end)).
  - intros k. by rewrite lookup_empty.
  - intros i v m' acc Hi IH k. destruct (decide (k = i)) as [->|Hne].
    + rewrite !lookup_insert_eq, IH, Hi. done.
    + rewrite !lookup_insert_ne by done. apply IH.
Qed.

(** What the entries give of a token. *)
Definition sum_of (token : list Z) (entries : list (list Z * Z)) : Z :=
  foldr (λ tv n, (if bool_decide (tv.1 = token) then tv.2 else 0) + n) 0 entries.
Definition sum_all (entries : list (list Z * Z)) : Z := foldr (λ tv n, tv.2 + n) 0 entries.

Lemma sum_of_bounds token entries : Forall (λ tv, 0 ≤ tv.2) entries → 0 ≤ sum_of token entries ≤ sum_all entries.
Proof.
  induction 1 as [|[t v] l Hv _ IH]; [done|]. cbn in *. unfold sum_of, sum_all in *. case_bool_decide; lia.
Qed.

Lemma tokens_balance_lookup entries : ∀ (m : gmap (list Z) Z) token,
  Forall (λ tv, 0 ≤ tv.2) entries → sum_all entries ≤ umax 128 →
  (∀ t b, m !! t = Some b → 0 ≤ b ∧ b + sum_all entries ≤ umax 128) →
  default 0 (foldl (λ m tv, <[tv.1 := match m !! tv.1 with Some b => wrap 128 (b + tv.2) | None => tv.2 end]> m)
    m entries !! token) = default 0 (m !! token) + sum_of token entries.
Proof.
  induction entries as [|[t v] l IH]; intros m token Hv Hall Hm; [cbn; lia|].
  apply Forall_cons in Hv as [Hv Hl]. cbn [foldl fst snd sum_of foldr] in *. fold (sum_of token l).
  change (sum_all ((t, v) :: l)) with (v + sum_all l) in *.
  assert (∀ b, m !! t = Some b → wrap 128 (b + v) = b + v) as Hw.
  { intros b Hb. specialize (Hm t b Hb). pose proof (sum_of_bounds t l Hl). apply wrap_small. unfold in_range. lia. }
  rewrite IH; [|done|lia|].
  - destruct (decide (t = token)) as [->|Hne].
    + rewrite lookup_insert_eq, bool_decide_true by done.
      destruct (m !! token) as [b|] eqn:Hb; cbn; [rewrite Hw by done|]; lia.
    + rewrite lookup_insert_ne, bool_decide_false by done. lia.
  - intros t' b. rewrite lookup_insert_Some. intros [[<- <-]|[_ Hb]]; [|specialize (Hm t' b Hb); lia].
    destruct (m !! t) as [b0|] eqn:Hb0; [rewrite Hw by done; specialize (Hm t b0 Hb0)|]; lia.
Qed.

Lemma as_i128_small x : - 2 ^ 127 ≤ x < 2 ^ 127 → as_i128 x = x.
Proof.
  intros Hx. unfold as_i128, wrap. destruct (decide (0 ≤ x)).
  - rewrite Z.mod_small by lia. by rewrite bool_decide_true by lia.
  - replace (x mod 2 ^ 128) with (x + 2 ^ 128); [rewrite bool_decide_false by lia; lia|].
    symmetry. rewrite <-(Z.mod_add x 1) by lia. apply Z.mod_small. lia.
Qed.

(** The deltas of an offer are, for every token, what its inputs give less what its
    outputs take, as long as all values together are below 2^127. *)
Theorem offer_deltas_balance inputs outputs token :
  Forall (λ tv, 0 ≤ tv.2) inputs → Forall (λ tv, 0 ≤ tv.2) outputs →
  sum_all inputs < 2 ^ 127 → sum_all outputs < 2 ^ 127 →
  default 0 (calculate_offer_deltas (tokens_balance inputs) (tokens_balance outputs) !! token)
  = sum_of token inputs - sum_of token outputs.
Proof.
  intros Hi Ho Hsi Hso. unfold calculate_offer_deltas. rewrite !map_fold_lookup, lookup_empty.
  assert (∀ l, Forall (λ tv, 0 ≤ tv.2) l → sum_all l < 2 ^ 127 →
    default 0 (tokens_balance l !! token) = sum_of token l) as Hbal.
  { intros l Hl Hs. unfold tokens_balance. rewrite tokens_balance_lookup; [by rewrite lookup_empty|done|unfold umax; lia|].
    intros t b. by rewrite lookup_empty. }
  pose proof (sum_of_bounds token inputs Hi). pose proof (sum_of_bounds token outputs Ho).
  specialize (Hbal inputs Hi Hsi) as Hbi. specialize (Hbal outputs Ho Hso) as Hbo.
  destruct (tokens_balance inputs !! token) as [a|], (tokens_balance outputs !! token) as [b|]; cbn in Hbi, Hbo |- *;
    unfold add_delta, sub_delta; rewrite ?Hbi, ?Hbo, ?(as_i128_small (sum_of token inputs)), ?(as_i128_small (sum_of token outputs)) by lia;
    rewrite ?as_i128_small by lia; lia.
Qed.

(** ** Fees: [transaction.rs] *)

Section Fees.
Context `{!MnLedger} `{!WalletLib} `{!TxLib} `{!ProofLib}.

Record DustRegistrationBuilder : Type := {
  rb_signing_key : SigningKey;
  rb_dust_address : option DustPublicKey;
  rb_allow_fee_payment : Z;
}.

Definition build_registration (self : DustRegistrationBuilder) (intent : UnprovenIntent) (rng : Rng)
    (segment_id : Z) : DustRegistration * Rng :=
  let '(signature, rng) := sign (rb_signing_key self) rng (data_to_sign intent segment_id) in
  ({| night_key := sk_verifying_key (rb_signing_key self); registered_address := rb_dust_address self;
      allow_fee_payment := rb_allow_fee_payment self; registration_signature := Some signature |}, rng).
Fixpoint build_registrations (l : list DustRegistrationBuilder) (intent : UnprovenIntent) (rng : Rng)
    (segment_id : Z) : list DustRegistration * Rng :=
  match l with
  | [] => ([], rng)
  | b :: l =>
      let '(r, rng) := build_registration b intent rng segment_id in
      let '(rs, rng) := build_registrations l intent rng segment_id in
      (r :: rs, rng)
  end.

(** [StandardTrasactionInfo], without the offers and intents that [build] starts from. *)
Record TransactionInfo : Type := {
  ti_context : LedgerContext;
  ti_rng : Rng;
  funding_seeds : list WalletSeed;
  mock_proofs_for_fees : bool;
  dust_registrations : list DustRegistrationBuilder;
}.
Definition set_rng (rng : Rng) (t : TransactionInfo) : TransactionInfo :=
  {| ti_context := ti_context t; ti_rng := rng; funding_seeds := funding_seeds t;
     mock_proofs_for_fees := mock_proofs_for_fees t; dust_registrations := dust_registrations t |}.
Definition set_wallets_of (ws : gmap WalletSeed Wallet) (t : TransactionInfo) : TransactionInfo :=
  {| ti_context := {| ledger_state := ledger_state (ti_context t);
                      latest_context := latest_context (ti_context t); wallets := ws |};
     ti_rng := ti_rng t; funding_seeds := funding_seeds t;
     mock_proofs_for_fees := mock_proofs_for_fees t; dust_registrations := dust_registrations t |}.

Inductive BuildError : Type :=
| UnrecognizedWalletSeed
| DustError (e : DustSpendError)
| InsufficientDust (required_amount remaining : Z)
| MockProveError
| FeesError
| BalanceError
| CouldNotBalance.
Notation TM := (M TransactionInfo BuildError).

(** [Transaction::new]. *)
Definition unproven_new (network_id : string) (intents : gmap Z UnprovenIntent)
    (guaranteed : option UnprovenOffer) (fallible : gmap Z UnprovenOffer) : UnprovenTransaction :=
  UnprovenStd {| u_network_id := network_id; u_intents := intents; u_guaranteed_coins := guaranteed;
                 u_fallible_coins := fallible; u_binding := binding_randomness intents guaranteed fallible |}.

Definition Segment_Fallible : Z := 1.
Definition Segment_Guaranteed : Z := 0.

Definition apply_dust (self : TransactionInfo) (tx : UnprovenTransaction) (spends : list DustSpend)
    (rng : Rng) (now ttl : Z) : UnprovenTransaction :=
  match tx with
  | UnprovenClaim _ => tx
  | UnprovenStd stx =>
      match spends, dust_registrations self with
      | [], [] => tx
      | _, _ =>
          let segment_id := Segment_Fallible in
          let '(intent, rng) :=
            match u_intents stx !! segment_id with
            | Some intent => (intent, rng)
            | None => let '(body, rng) := intent_empty rng ttl in
                      ({| intent_body := body; dust_actions := None |}, rng)
            end in
          let registrations := (build_registrations (dust_registrations self) intent rng segment_id).1 in
          let intent := {| intent_body := intent_body intent;
            dust_actions := Some {| da_spends := spends; da_registrations := registrations; da_ctime := now |} |} in
          unproven_new (u_network_id stx) (<[segment_id := intent]> (u_intents stx)) (u_guaranteed_coins stx)
            (u_fallible_coins stx)
      end
  end.

(** Without the feature [erase-proof]. *)
Definition prove_tx (tx : UnprovenTransaction) : TM FinalizedTransaction :=
  self ← gets id;
  let params := parameters (ledger_state (ti_context self)) in
  let '(rng, self_rng) := rng_split (ti_rng self) in
  let '(prover_rng, rng) := rng_split rng in
  modify (set_rng self_rng);;
  mret (seal (prover_prove tx prover_rng params) rng).

Definition compute_missing_dust (self : TransactionInfo) (tx : FinalizedTransaction) :
    outcome BuildError (option Z) :=
  fees ← ok_or (fees_with_margin tx (parameters (ledger_state (ti_context self))) 3) FeesError;
  imbalances ← ok_or (tx_balance tx (Some fees)) BalanceError;
  let dust_imbalance := default 0 (imbalances !! (DustToken, Segment_Guaranteed)) in
  if bool_decide (dust_imbalance < 0) then Ok (Some (Z.abs dust_imbalance)) else Ok None.

(** The loop over the funding seeds that are left; in a release build a subtraction
    below zero wraps around. *)
Fixpoint gather_from (ws : gmap WalletSeed Wallet) (params : DustParameters) (ctime required_amount : Z)
    (seeds : list WalletSeed) (remaining : Z) : outcome BuildError (list DustSpend) :=
  match seeds with
  | [] => if bool_decide (0 < remaining) then Err (InsufficientDust required_amount remaining) else Ok []
  | seed :: seeds =>
      if bool_decide (remaining = 0) then Ok [] else
      wallet ← ok_or (ws !! seed) UnrecognizedWalletSeed;
      new_spends ← map_err DustError (speculative_spend (dust wallet) remaining ctime params);
      let remaining := foldl (λ r spend, wrap 128 (r - v_fee spend)) remaining new_spends in
      spends ← gather_from ws params ctime required_amount seeds remaining;
      Ok (new_spends ++ spends)
  end.
Definition gather_dust_spends (self : TransactionInfo) (required_amount ctime : Z) :
    outcome BuildError (list DustSpend) :=
  gather_from (wallets (ti_context self)) (dust_parameters (parameters (ledger_state (ti_context self)))) ctime
    required_amount (funding_seeds self) required_amount.

(** Every wallet of the context marks the spends, whoever made them. *)
Definition confirm_dust_spends (spends : list DustSpend) : TM unit :=
  modify (λ self,
    set_wallets_of ((λ w, set_dust (mark_spent (dust w) spends) w) <$> wallets (ti_context self)) self).

Fixpoint pay_rounds (rounds : nat) (tx : UnprovenTransaction) (now ttl missing_dust : Z) :
    TM FinalizedTransaction :=
  match rounds with
  | O => throw CouldNotBalance
  | S rounds =>
      self ← gets id;
      spends ← lift (gather_dust_spends self missing_dust now);
      let paid_tx := apply_dust self tx spends (rng_split (ti_rng self)).1 now ttl in
      if mock_proofs_for_fees self then
        mock_proven_tx ← lift (ok_or (mock_prove paid_tx) MockProveError);
        computed_missing_dust ← lift (compute_missing_dust self mock_proven_tx);
        match computed_missing_dust with
        | Some dust => pay_rounds rounds tx now ttl (wrap 128 (missing_dust + dust))
        | None => confirm_dust_spends spends;; prove_tx paid_tx
        end
      else
        proven_tx ← prove_tx paid_tx;
        self ← gets id;
        computed_missing_dust ← lift (compute_missing_dust self proven_tx);
        match computed_missing_dust with
        | Some dust => pay_rounds rounds tx now ttl (wrap 128 (missing_dust + dust))
        | None => confirm_dust_spends spends;; mret proven_tx
        end
  end.
Definition pay_fees (tx : UnprovenTransaction) (now ttl : Z) : TM FinalizedTransaction :=
  pay_rounds 10 tx now ttl 0.
End Fees.

Section FeeTheorems.
Context `{!MnLedger} `{!WalletLib} `{!TxLib} `{!ProofLib} `{!DustLaws}.

(** ** Gathering dust *)

(** A wallet of the context that can spend dust of this value now. *)
Definition funded (ws : gmap WalletSeed Wallet) (params : DustParameters) (ctime : Z) (seed : WalletSeed) (n : Z) :
    Prop :=
  ∃ w st sk, ws !! seed = Some w ∧ dust_local_state (dust w) = Some st ∧ secret_key (dust w) = Some sk
    ∧ dust_state_params st = params
    ∧ (∀ q, q ∈ unspent (spent_utxos (dust w)) sk (dust_utxos st) → is_Some (generation_info st q))
    ∧ n = total_value st ctime params (unspent (spent_utxos (dust w)) sk (dust_utxos st)).

Lemma funded_nonneg ws params ctime seed n : funded ws params ctime seed n → 0 ≤ n.
Proof. intros (w & st & sk & _ & _ & _ & _ & _ & ->). apply total_value_nonneg. Qed.

Lemma funded_spend ws params ctime seed n amount : funded ws params ctime seed n → 0 ≤ amount →
  ∃ w spends, ws !! seed = Some w ∧ speculative_spend (dust w) amount ctime params = Ok spends
    ∧ total_fee spends = Z.min amount n ∧ Forall (λ sp, 0 < v_fee sp) spends.
Proof.
  intros (w & st & sk & Hw & Hst & Hsk & Hp & Hinfo & ->) Ha.
  destruct (spend_outputs_spec (spent_utxos (dust w)) sk ctime params (dust_utxos st) st amount Ha Hp)
    as (spends & Hr & Hf & Hpos & _).
  { split; [apply dust_utxos_nodup|]. intros q Hq. split; [by eapply unspent_subset|auto]. }
  exists w, spends. unfold speculative_spend. rewrite Hst, Hsk. done.
Qed.

Lemma remaining_after spends : ∀ r, Forall (λ sp, 0 < v_fee sp) spends → total_fee spends ≤ r ≤ umax 128 →
  foldl (λ r spend, wrap 128 (r - v_fee spend)) r spends = r - total_fee spends.
Proof.
  induction spends as [|sp spends IH]; intros r Hpos Hr; cbn; [lia|]. fold (total_fee spends).
  apply Forall_cons in Hpos as [Hsp Hpos]. cbn in Hr. fold (total_fee spends) in Hr.
  assert (0 ≤ total_fee spends) by (clear -Hpos; induction Hpos; cbn in *; unfold total_fee in *; lia).
  rewrite wrap_small by (unfold in_range; lia). rewrite IH by (done || lia). lia.
Qed.

Definition sum_funds (ns : list Z) : Z := foldr Z.add 0 ns.

Lemma sum_funds_nonneg ws params ctime seeds ns : Forall2 (funded ws params ctime) seeds ns → 0 ≤ sum_funds ns.
Proof.
  induction 1 as [|seed n seeds ns Hn _ IH]; [done|]. cbn. fold (sum_funds ns).
  pose proof (funded_nonneg _ _ _ _ _ Hn). lia.
Qed.

Lemma total_fee_app l k : total_fee (l ++ k) = total_fee l + total_fee k.
Proof. induction l as [|sp l IH]; cbn; [done|]. unfold total_fee in *. cbn in *. lia. Qed.

Lemma gather_from_spec ws params ctime required seeds ns : ∀ remaining,
  Forall2 (funded ws params ctime) seeds ns → 0 ≤ remaining ≤ umax 128 →
  if bool_decide (remaining ≤ sum_funds ns)
  then ∃ spends, gather_from ws params ctime required seeds remaining = Ok spends
         ∧ total_fee spends = remaining ∧ Forall (λ sp, 0 < v_fee sp) spends
  else gather_from ws params ctime required seeds remaining
       = Err (InsufficientDust required (remaining - sum_funds ns)).
Proof.
  intros remaining Hf. revert remaining. induction Hf as [|seed n seeds ns Hn Hrest IH]; intros r Hr.
  { cbn. case_bool_decide.
    - exists []. rewrite bool_decide_false by lia. split_and!; [done|cbn; lia|done].
    - rewrite bool_decide_true by lia. do 2 f_equal. lia. }
  cbn [gather_from sum_funds foldr]. fold (sum_funds ns). pose proof (funded_nonneg _ _ _ _ _ Hn).
  destruct (decide (r = 0)) as [->|Hne].
  { pose proof (sum_funds_nonneg _ _ _ _ _ Hrest). rewrite !bool_decide_true by lia. by exists []. }
  rewrite (bool_decide_false (r = 0)) by done.
  destruct (funded_spend _ _ _ _ _ r Hn ltac:(lia)) as (w & new & Hw & Hnew & Htot & Hpos).
  rewrite Hw. cbn [ok_or mbind outcome_bind]. rewrite Hnew. cbn [map_err mbind outcome_bind]. rewrite remaining_after by (done || lia).
  specialize (IH (r - total_fee new) ltac:(lia)). rewrite Htot in IH |- *.
  pose proof (sum_funds_nonneg _ _ _ _ _ Hrest).
  case_bool_decide as Hle; case_bool_decide as Hle'; [|lia|lia|].
  - destruct IH as (spends & -> & Ht & Hp). exists (new ++ spends).
    split_and!; [done|rewrite total_fee_app; lia|by apply Forall_app].
  - rewrite IH. cbn. do 2 f_equal. lia.
Qed.

(** An output that its wallet has not marked. *)
Definition unmarked (ws : gmap WalletSeed Wallet) (seeds : list WalletSeed) (sp : DustSpend) : Prop :=
  ∃ seed w, seed ∈ seeds ∧ ws !! seed = Some w ∧ old_nullifier sp ∉ spent_utxos (dust w).

Lemma gather_from_unmarked ws params ctime required seeds : ∀ remaining spends,
  gather_from ws params ctime required seeds remaining = Ok spends → Forall (unmarked ws seeds) spends.
Proof.
  induction seeds as [|seed seeds IH]; intros r spends; cbn [gather_from].
  { case_bool_decide; [done|]. by intros [= <-]. }
  case_bool_decide; [by intros [= <-]|].
  destruct (ws !! seed) as [w|] eqn:Hw; [cbn|done].
  destruct (speculative_spend (dust w) r ctime params) as [new| |] eqn:Hnew; [cbn|done..].
  destruct (gather_from ws params ctime required seeds _) as [rest| |] eqn:Hrest; [cbn|done..].
  intros [= <-]. apply Forall_app. split.
  - eapply Forall_impl; [by eapply speculative_spend_fresh|]. intros sp Hsp. exists seed, w. split_and!; [left|done..].
  - eapply Forall_impl; [by eapply IH|]. intros sp (seed' & w' & ? & ? & ?). exists seed', w'. split_and!; [by right|done..].
Qed.

(** The dust for a fee is taken from the wallets of the funding seeds.  When together
    they have it, the spends are for exactly the required amount, each positive, and
    none of an output that was spent since the last block; otherwise the error tells
    how much is missing. *)
Theorem gather_dust_spends_exact self required ctime ns :
  0 ≤ required ≤ umax 128 →
  Forall2 (funded (wallets (ti_context self)) (dust_parameters (parameters (ledger_state (ti_context self)))) ctime)
    (funding_seeds self) ns →
  if bool_decide (required ≤ sum_funds ns)
  then ∃ spends, gather_dust_spends self required ctime = Ok spends
         ∧ total_fee spends = required ∧ Forall (λ sp, 0 < v_fee sp) spends
         ∧ Forall (unmarked (wallets (ti_context self)) (funding_seeds self)) spends
  else gather_dust_spends self required ctime = Err (InsufficientDust required (required - sum_funds ns)).
Proof.
  intros Hr Hf. unfold gather_dust_spends.
  pose proof (gather_from_spec _ _ _ required _ _ required Hf Hr) as Hspec. case_bool_decide; [|done].
  destruct Hspec as (spends & Hg & Ht & Hp). exists spends. split_and!; [done..|].
  by eapply gather_from_unmarked.
Qed.

(** ** Payments *)

Definition mark_all (spends : list DustSpend) (ws : gmap WalletSeed Wallet) : gmap WalletSeed Wallet :=
  (λ w, set_dust (mark_spent (dust w) spends) w) <$> ws.

(** [f] is the transaction [tx] with these spends, proven; they were not marked before,
    and no dust is missing of the transaction on which the fee was computed. *)
Definition pays (self : TransactionInfo) (tx : UnprovenTransaction) (now ttl : Z) (spends : list DustSpend)
    (f : FinalizedTransaction) : Prop :=
  Forall (unmarked (wallets (ti_context self)) (funding_seeds self)) spends
  ∧ ∃ rng prover_rng seal_rng,
      let paid_tx := apply_dust self tx spends rng now ttl in
      f = seal (prover_prove paid_tx prover_rng (parameters (ledger_state (ti_context self)))) seal_rng
      ∧ ∃ checked, (if mock_proofs_for_fees self then mock_prove paid_tx = Some checked else checked = f)
          ∧ compute_missing_dust self checked = Ok None.

Lemma prove_tx_run tx self :
  ∃ r1 r2 rng', prove_tx tx self
    = (Ok (seal (prover_prove tx r1 (parameters (ledger_state (ti_context self)))) r2), set_rng rng' self).
Proof.
  unfold prove_tx. mrun. destruct (rng_split (ti_rng self)) as [r self_r]. destruct (rng_split r) as [r1 r2].
  eauto.
Qed.

Lemma pay_rounds_inv n tx now ttl : ∀ missing self f self',
  pay_rounds n tx now ttl missing self = (Ok f, self') →
  ∃ spends, pays self tx now ttl spends f
    ∧ wallets (ti_context self') = mark_all spends (wallets (ti_context self)).
Proof.
  induction n as [|n IH]; intros missing self f self' Hrun; [done|]. cbn [pay_rounds] in Hrun.
  apply M_bind_ok in Hrun as (self0 & ? & [= <- <-] & Hrun).
  apply M_bind_ok in Hrun as (spends & ? & Hg & Hrun). unfold lift in Hg. injection Hg as Hg <-.
  pose proof (gather_from_unmarked _ _ _ _ _ _ _ Hg) as Hun. change (id self) with self in *.
  destruct (mock_proofs_for_fees self) eqn:Hmock.
  - apply M_bind_ok in Hrun as (mock & ? & Hm & Hrun). unfold lift in Hm. injection Hm as Hm <-.
    apply M_bind_ok in Hrun as (missing' & ? & Hc & Hrun). unfold lift in Hc. injection Hc as Hc <-.
    destruct missing' as [more|]; [by eapply IH|].
    apply M_bind_ok in Hrun as ([] & ? & [= <-] & Hrun).
    match type of Hrun with prove_tx ?paid ?st = _ => destruct (prove_tx_run paid st) as (r1 & r2 & rng' & Hp) end.
    rewrite Hp in Hrun. injection Hrun as <- <-. exists spends. split; [|done]. split; [done|].
    eexists _, r1, r2. split; [reflexivity|]. rewrite Hmock. exists mock. split; [|done].
    unfold ok_or in Hm. destruct (mock_prove _) as [m|] eqn:Hmp; [|done]. injection Hm as ->. done.
  - apply M_bind_ok in Hrun as (f1 & self1 & Hp & Hrun).
    match type of Hp with prove_tx ?paid ?st = _ =>
      destruct (prove_tx_run paid st) as (r1 & r2 & rng' & Hp') end.
    rewrite Hp' in Hp. injection Hp as <- <-.
    apply M_bind_ok in Hrun as (self0 & ? & [= <- <-] & Hrun).
    apply M_bind_ok in Hrun as (missing' & ? & Hc & Hrun). unfold lift in Hc. injection Hc as Hc <-.
    destruct missing' as [more|].
    + apply IH in Hrun as (sp & Hpays & Hws). exists sp. by split.
    + apply M_bind_ok in Hrun as ([] & ? & [= <-] & [= <- <-]). exists spends. split; [|done]. split; [done|].
      eexists _, r1, r2. split; [reflexivity|]. rewrite Hmock. eexists. split; [reflexivity|done].
Qed.

(** Transactions that are paid for one after the other on the wallets of one context:
    what each of them spends. *)
Inductive payments : gmap WalletSeed Wallet → list (list DustSpend) → gmap WalletSeed Wallet → Prop :=
| no_payment ws : payments ws [] ws
| one_payment self tx now ttl f self' spends l ws' :
    pay_fees tx now ttl self = (Ok f, self') → pays self tx now ttl spends f →
    wallets (ti_context self') = mark_all spends (wallets (ti_context self)) →
    payments (wallets (ti_context self')) l ws' →
    payments (wallets (ti_context self)) (spends :: l) ws'.

Definition marked (ws : gmap WalletSeed Wallet) (n : Z) : Prop :=
  ∀ seed w, ws !! seed = Some w → n ∈ spent_utxos (dust w).

Lemma mark_all_marked spends ws n :
  marked ws n ∨ n ∈ old_nullifier <$> spends → marked (mark_all spends ws) n.
Proof.
  intros Hn seed w. unfold mark_all. rewrite lookup_fmap_Some. intros (w0 & <- & Hw). cbn.
  change (n ∈ spent_utxos (mark_spent (dust w0) spends)). rewrite mark_spent_utxos.
  destruct Hn as [Hn|Hn]; [specialize (Hn seed w0 Hw); set_solver|set_solver].
Qed.

Lemma payments_avoid ws l ws' n : payments ws l ws' → marked ws n →
  Forall (λ spends, n ∉ old_nullifier <$> spends) l.
Proof.
  induction 1 as [|self tx now ttl f self' spends l ws' _ [Hun _] Hws _ IH]; intros Hn; [done|].
  apply Forall_cons. split.
  - intros (sp & -> & Hsp)%list_elem_of_fmap.
    eapply Forall_forall in Hun as (seed & w & _ & Hw & Hout); [|done]. by apply Hout, (Hn seed).
  - apply IH. rewrite Hws. apply mark_all_marked. by left.
Qed.

Lemma payments_mark ws l ws' n : payments ws l ws' → marked ws n ∨ (∃ spends, spends ∈ l ∧ n ∈ old_nullifier <$> spends) →
  marked ws' n.
Proof.
  induction 1 as [|self tx now ttl f self' spends l ws' _ _ Hws _ IH]; intros Hn.
  { destruct Hn as [Hn|(spends & Hl & _)]; [done|by apply not_elem_of_nil in Hl]. }
  apply IH. rewrite Hws. destruct Hn as [Hn|(sp & [->|Hl]%elem_of_cons & Hn)];
    [left; apply mark_all_marked; by left|left; apply mark_all_marked; by right|right; eauto].
Qed.

(** C19: Of the transactions that are paid for one after the other on a context no two
    spend the same dust output.  The next payment, if it succeeds, gives the
    transaction with dust spends after which no dust is missing, none of them of an
    output that one of the earlier transactions spends, and every wallet of the
    context marks them. *)
Theorem payments_spend_once ws l ws' : payments ws l ws' →
  (∀ i j si sj, (i < j)%nat → l !! i = Some si → l !! j = Some sj →
     ∀ a b, a ∈ si → b ∈ sj → old_nullifier a ≠ old_nullifier b)
  ∧ ∀ self tx now ttl f self', wallets (ti_context self) = ws' → pay_fees tx now ttl self = (Ok f, self') →
     ∃ spends, pays self tx now ttl spends f
       ∧ wallets (ti_context self') = mark_all spends ws'
       ∧ ∀ si a b, si ∈ l → a ∈ si → b ∈ spends → old_nullifier a ≠ old_nullifier b.
Proof.
  intros Hp. split.
  - induction Hp as [|self tx now ttl f self' spends l ws' _ _ Hws Hp IH]; intros i j si sj Hij Hi Hj a b Ha Hb; [done|].
    destruct j as [|j]; [lia|]. destruct i as [|i]; cbn in Hi, Hj; [|by eapply (IH i j si sj); [lia|..]].
    injection Hi as ->. assert (marked (wallets (ti_context self')) (old_nullifier a)) as Hm.
    { rewrite Hws. apply mark_all_marked. right. by apply list_elem_of_fmap_2. }
    pose proof (payments_avoid _ _ _ _ Hp Hm) as Hav. rewrite Forall_lookup in Hav.
    specialize (Hav j sj Hj). intros Heq. apply Hav. rewrite Heq. by apply list_elem_of_fmap_2.
  - intros self tx now ttl f self' <- Hpay. destruct (pay_rounds_inv _ _ _ _ _ _ _ _ Hpay) as (spends & Hpays & Hws).
    exists spends. split_and!; [done..|]. intros si a b Hsi Ha Hb Heq. destruct Hpays as [Hun _].
    eapply Forall_forall in Hun as (seed & w & _ & Hw & Hout); [|exact Hb]. apply Hout. rewrite <-Heq.
    eapply (payments_mark _ _ _ _ Hp); [|exact Hw]. right. exists si. split; [done|]. by apply list_elem_of_fmap_2.
Qed.
End FeeTheorems.

(** ** On the small library *)

Module BuilderConcrete.
Import Mini.
(** A proven transaction is the dust that it spends; the fee is three. *)
#[export] Instance m_tx : TxLib := {|
  Rng := unit; rng_split := λ r, (r, r);
  QualifiedInfo := Z; coin_type := λ _, []; coin_value := id; wallet_coins := id;
  ZswapInput := Z; wallet_spend := λ st _ _ c, Some (st, c, tt);
  IntentBody := unit; intent_empty := λ r _, (tt, r); UnprovenOffer := unit;
  Signature := unit; sign := λ _ r _, (tt, r); ClaimRewardsUnproven := unit; BindingRandomness := unit;
  ProvenTransaction := Z; FinalizedTransaction := Z;
|}.
Definition dust_of (tx : UnprovenTransaction) : Z :=
  match tx with
  | UnprovenStd stx =>
      match u_intents stx !! Segment_Fallible with
      | Some i => match dust_actions i with Some a => total_fee (da_spends a) | None => 0 end
      | None => 0
      end
  | UnprovenClaim _ => 0
  end.
#[export] Instance m_proofs : ProofLib := {|
  data_to_sign := λ _ _, []; binding_randomness := λ _ _ _, tt;
  prover_prove := λ tx _ _, dust_of tx; seal := λ p _, p; mock_prove := λ tx, Some (dust_of tx);
  fees_with_margin := λ _ _ _, Some 3;
  tx_balance := λ f fees, Some {[(DustToken, 0) := f - default 0 fees]};
|}.
Definition wallet0 : option (@Wallet m_ledger m_wallets) :=
  match wallet_default seed1 ([] : @LedgerState m_ledger) with
  | Ok w => match update_dust_from_tx w [(1, 5); (2, 5)] with Ok w => Some w | _ => None end
  | _ => None
  end.
Definition ws0 : gmap WalletSeed (@Wallet m_ledger m_wallets) :=
  match wallet0 with Some w => {[seed1 := w]} | None => ∅ end.
Definition info (ws : gmap WalletSeed (@Wallet m_ledger m_wallets)) : TransactionInfo := {|
  ti_context := {| ledger_state := [] : @LedgerState m_ledger; latest_context := None; wallets := ws |};
  ti_rng := tt; funding_seeds := [seed1]; mock_proofs_for_fees := false; dust_registrations := [] |}.
Definition empty_tx : UnprovenTransaction := unproven_new "undeployed" ∅ None ∅.
Definition pay (ws : gmap WalletSeed (@Wallet m_ledger m_wallets)) := pay_fees empty_tx 0 0 (info ws).
Definition ws1 : gmap WalletSeed (@Wallet m_ledger m_wallets) := wallets (ti_context (pay ws0).2).

Lemma pay_ws0 : (pay ws0).1 = Ok 3.
Proof. vm_cast_no_check (@eq_refl (outcome BuildError Z) (Ok 3)). Qed.
Lemma pay_ws1 : (pay ws1).1 = Ok 3.
Proof. vm_cast_no_check (@eq_refl (outcome BuildError Z) (Ok 3)). Qed.
Definition dust0 : @DustLocalState m_ledger m_wallets := <[2 := 5]> (<[1 := 5]> ∅).
Lemma wallet0_eq : ∃ w sk, wallet0 = Some w ∧ dust_local_state (dust w) = Some dust0
  ∧ secret_key (dust w) = Some sk ∧ spent_utxos (dust w) = ∅.
Proof. eexists _, _. split_and!; reflexivity. Qed.
Lemma value0 sk : total_value dust0 0 tt (unspent ∅ sk (dust_utxos dust0)) = 10.
Proof. vm_compute. reflexivity. Qed.
Lemma ws0_funded : funded ws0 tt 0 seed1 10.
Proof.
  destruct wallet0_eq as (w & sk & Hw & Hd & Hs & Hm). exists w, dust0, sk.
  split_and!; [unfold ws0; rewrite Hw; by rewrite lookup_singleton_eq|done|done|done|by eexists|].
  by rewrite Hm, value0.
Qed.
(** A ledger with three outputs of the wallet. *)
Definition three_outputs : @LedgerContext m_ledger m_wallets :=
  {| ledger_state := [101; 7; 102; 110] : @LedgerState m_ledger; latest_context := None; wallets := ws0 |}.
Lemma three_outputs_wallet : ∃ w, wallets three_outputs !! seed1 = Some w
  ∧ owner_of (unshielded w) = Ok (replicate 32 1)
  ∧ outputs_of three_outputs (replicate 32 1) [] ≡ₚ output <$> [101; 102; 110].
Proof.
  destruct wallet0_eq as (w & sk & Hw & _). exists w. split_and!.
  - unfold three_outputs, ws0. cbn [wallets]. rewrite Hw. by rewrite lookup_singleton_eq.
  - assert (from_option (owner_of ∘ unshielded) Panic wallet0 = Ok (replicate 32 1)) as Ho by reflexivity.
    rewrite Hw in Ho. exact Ho.
  - unfold outputs_of. change (utxos (ledger_state three_outputs))
      with (list_to_set (output <$> [101; 102; 110]) : gset Utxo).
    rewrite elements_list_to_set by (apply (bool_decide_unpack _); vm_compute; exact I).
    rewrite filter_all; [reflexivity|]. intros x (n & -> & _)%list_elem_of_fmap. split; reflexivity.
Qed.
Definition input (v : Z) : UtxoSpendInfo unit :=
  {| us_value := v; us_owner := tt; us_token_type := []; us_intent_hash := None; us_output_number := None |}.
End BuilderConcrete.

Section BuilderWitnesses.
Import Mini BuilderConcrete.

(** Two fees of three, each from an output of its own. *)
Lemma payments_spend_once_witness :
  ∃ sp1 sp2 f, payments ws0 [sp1] ws1 ∧ pay ws1 = (Ok f, (pay ws1).2) ∧ pays (info ws1) empty_tx 0 0 sp2 f
    ∧ ∀ a b, a ∈ sp1 → b ∈ sp2 → old_nullifier a ≠ old_nullifier b.
Proof.
  pose proof (LedgerBridge.Concrete.run_eq _ _ _ pay_ws0) as H0.
  pose proof (LedgerBridge.Concrete.run_eq _ _ _ pay_ws1) as H1.
  destruct (pay_rounds_inv _ _ _ _ _ _ _ _ H0) as (sp1 & Hp1 & Hw1).
  assert (payments ws0 [sp1] ws1) as Hp.
  { exact (one_payment (info ws0) empty_tx 0 0 3 _ sp1 [] _ H0 Hp1 Hw1 (no_payment _)). }
  destruct (payments_spend_once ws0 [sp1] ws1 Hp) as [_ Hnext].
  destruct (Hnext (info ws1) empty_tx 0 0 3 _ eq_refl H1) as (sp2 & Hp2 & _ & Hdis).
  exists sp1, sp2, 3. split; [exact Hp|]. split; [exact H1|]. split; [exact Hp2|].
  intros a b Ha Hb. apply (Hdis sp1 a b); [apply list_elem_of_here|exact Ha|exact Hb].
Defined.

Lemma gather_dust_spends_exact_witness :
  (∃ spends, gather_dust_spends (info ws0) 7 0 = Ok spends ∧ total_fee spends = 7)
  ∧ gather_dust_spends (info ws0) 12 0 = Err (InsufficientDust 12 2).
Proof.
  assert (Forall2 (funded ws0 tt 0) [seed1] [10]) as Hf by (constructor; [exact ws0_funded|constructor]).
  split.
  - pose proof (gather_dust_spends_exact (info ws0) 7 0 [10] ltac:(unfold umax; lia) Hf) as Hg.
    change (bool_decide (7 ≤ sum_funds [10])) with true in Hg. destruct Hg as (spends & Hg & Ht & _). eauto.
  - pose proof (gather_dust_spends_exact (info ws0) 12 0 [10] ltac:(unfold umax; lia) Hf) as Hg.
    change (bool_decide (12 ≤ sum_funds [10])) with false in Hg. exact Hg.
Defined.

(** Two outputs are taken for 205, of 101, 102 and 110. *)
Lemma payment_inputs_cover_witness :
  ∃ selected outputs last change,
    utxos_to_cover_value three_outputs seed1 205 [] = Ok (selected, change)
    ∧ Forall2 (λ i u, build_utxo_spend i three_outputs = Ok u) selected (outputs ++ [last])
    ∧ total (outputs ++ [last]) = 205 + change.
Proof.
  destruct three_outputs_wallet as (w & Hw & Ho & Hav).
  pose proof (payment_inputs_cover three_outputs seed1 w (replicate 32 1) 205 [] Hw Ho
    ltac:(rewrite Hav; repeat constructor; cbn; lia) ltac:(rewrite (total_perm _ _ Hav); cbn; unfold umax; lia)) as Hp.
  rewrite bool_decide_false in Hp; [|rewrite (total_perm _ _ Hav); intros [Hnil|Hlt]].
  2: { apply Permutation_length in Hav. rewrite Hnil in Hav. discriminate Hav. }
  2: { cbn in Hlt. lia. }
  destruct Hp as (selected & outputs & last & change & Hs & Hb & _ & _ & Ht & _).
  exists selected, outputs, last, change. split; [exact Hs|]. split; [exact Hb|exact Ht].
Defined.

Lemma select_inputs_covers_witness :
  select_inputs [input 3; input 4; input 5] 6 = Some ([input 5; input 3], 2)
  ∧ needed 0 6 [input 5; input 3].
Proof.
  pose proof (select_inputs_covers [input 3; input 4; input 5] 6 ltac:(repeat constructor; cbn; lia)
    ltac:(cbn; unfold umax; lia)) as Hs.
  split; [vm_compute; reflexivity|].
  replace (select_inputs [input 3; input 4; input 5] 6) with (Some ([input 5; input 3], 2)) in Hs
    by (vm_compute; reflexivity).
  apply Hs.
Defined.

Lemma offer_deltas_balance_witness :
  default 0 (calculate_offer_deltas (tokens_balance [([1], 5); ([2], 3); ([1], 2)]) (tokens_balance [([1], 9)]) !! [1])
  = -2.
Proof.
  rewrite (offer_deltas_balance [([1], 5); ([2], 3); ([1], 2)] [([1], 9)] [1]);
    [vm_compute; reflexivity|repeat constructor; cbn; lia|repeat constructor; cbn; lia|cbn; lia|cbn; lia].
Defined.
End BuilderWitnesses.
